(* ===== verification/_CoqProject ===== *)
-Q . S2P
Prelude.v
Dict.v
Value.v
Effects.v
Encoding.v
Json.v
JsonParse.v
JsonRoundtrip.v
JsonIndent.v
Sha256.v
TextPolicy.v
Protocol.v
Wire.v
Sessions.v
Binding.v
OneShot.v
Confirmations.v
Memory.v
Timers.v
Tools.v
Catalog.v
Crypto.v
Challenge.v
PyText.v
Regex.v
PyStr.v
Captions.v
Core.v
Intents.v
IntentFacts.v
Urls.v
Machine.v
Apps.v
Contacts.v
ControlConfig.v
League.v
Desktop.v
IntegrationCatalog.v
AgentCatalog.v
AgentFacts.v
CatalogIntents.v
CoreFacts.v
PipaParser.v
Gate.v
AgentCore.v
HttpApi.v
HttpFacts.v
ControlPanel.v
Cli.v
Isolation.v
Connection.v
SecureSession.v
SecureChannel.v
Audio.v
SecureAudio.v
SecureServer.v
SecureCore.v
MobileClient.v
Devices.v
Ticket.v
Broker.v
SerialGateway.v
WebSocket.v
SecureGateways.v
