(* ===== verification/Prelude.v ===== *)
(** * Pipa: a verification library for the local assistant core

    Pipa is a personal assistant that runs on one Windows computer.  A small
    device (or a phone) sends it what the user says or taps; the agent turns
    that into calls of a closed table of tools, asks on the device before any
    outward action, and runs it.  This library models the Python of the
    repository that decides what may happen: the Core ([backend/pipa_core]),
    the agent around it ([windows-agent]) and its tools ([windows-agent/tools]).

    ** How the program is put together

    - A transport (local HTTP and WebSocket, USB serial, encrypted serial,
      encrypted TCP) reads one JSON object per message, drives one connection
      and closes it on every way out.
    - The connection authenticates the device by a signed challenge and opens a
      Core session; the encrypted transports do the same inside a signed
      Diffie-Hellman session.
    - The Core dispatches the messages of a session: status, transcripts, tool
      calls, confirmations.  A transcript becomes a tool call by a phrase of
      the editable catalog or by the fixed rules of the Spanish parser.
    - The router validates a call and either runs a safe tool or stores an
      unsafe one, with the arguments its preparer fixed, until the same session
      accepts it.
    - The tools reach the computer through files, processes, the browser, the
      speakers, the local League client and the messaging service.
    - The unlock broker is a separate service over the same challenges; it
      issues one-time tickets and is switched off in the shipped program.

    ** The files, in order, and the code they model

    The library of the library:
    - [Prelude]: Python strings (lists of code points), bytes, exceptions and
      the [result] type, UTF-8, counting, the tactics and hints.
    - [Dict]: insertion-ordered dictionaries.  [Value]: decoded JSON values.
      [Effects]: the state-and-error monad [M] and its weakest preconditions.

    The Python library the program leans on, written out:
    - [Encoding] (base64url), [Json] ([json.dumps]), [JsonParse] ([json.loads]),
      [JsonRoundtrip] and [JsonIndent] (reading inverts printing), [Sha256],
      [PyText] and [PyStr] (text functions and [str]), [Regex] (the part of
      [re] used, with the language a pattern means).

    The Core, [backend/pipa_core]:
    - [Protocol] ([protocol.py]): every client message checked, every server
      message built under its field table.  [Wire]: [parse_json_object].
    - [Sessions] ([state.py]), [Binding] ([request_binding.py]), [OneShot] (the
      interface of one-use identifiers), [Confirmations] ([confirmations.py]),
      [Memory] ([memory.py]), [Tools] ([tools.py]), [Catalog] (the catalog
      validators of [core.py] and [capability_contract.py]), [Captions].
    - [Intents], [IntentFacts], [CatalogIntents] ([intents.py]); [PipaParser]
      makes them the instance of the Core's interface [IntentParser].
    - [Core] ([core.py]), with [CoreFacts] (the invariant and the effect of each
      handler), [Gate] (the Core as a whole, over the verifier of [Challenge]
      as the instance of [VerifierI]) and [Isolation] (sessions do not touch
      each other).  [Connection] ([connection.py]).

    The security services, [windows-agent]:
    - [Crypto]: the operations of the [cryptography] package, with laws.
    - [Challenge] ([trusted_unlock_protocol.py]), [Devices]
      ([trusted_unlock_devices.py]), [Ticket] ([trusted_unlock_ticket.py]),
      [Broker] ([trusted_unlock_broker.py]).
    - [SecureSession] ([secure_session.py]), [SecureChannel]
      ([secure_json_channel.py]), [Audio] and [SecureAudio]
      ([secure_audio.py]), [SecureServer] ([secure_session_server.py]),
      [SecureCore] ([secure_core_connection.py]), [MobileClient]
      ([secure_mobile_client.py]).
    - [SerialGateway] ([pipa_serial_gateway.py]), [SecureGateways]
      ([secure_serial_gateway.py], [secure_tcp_gateway.py]).

    The tools, [windows-agent/tools]:
    - [TextPolicy] ([text_policy.py]), [Timers] ([timers.py]), [Urls] (the URL
      gate and every builder).
    - [Machine]: what the tools reach outside the repository, as operations
      answered by an oracle, with the history of the operations performed.
    - [Apps] ([apps.py]), [Contacts] ([contacts.py]), [ControlConfig]
      ([control_config.py]), [League] ([league.py]), [Desktop] (the openers,
      [media.py], [audio.py], [system.py]), [IntegrationCatalog]
      ([integration_catalog.py], [capabilities.py]).
    - [AgentCatalog] ([agent_catalog.py]), [AgentFacts] (what each tool may
      do), [AgentCore] (the Core [main.py] builds over them).

    The local server, [windows-agent/main.py], and its client:
    - [HttpApi]: the middleware, the routes with the bodies of their request
      models, the error responses, and the tables of [security_policy.py] and
      [capabilities.py].  [HttpFacts]: what a request may do.  [ControlPanel]:
      what the edits of the panel store.  [WebSocket]: the WebSocket route.
    - [Cli] ([pipa_cli.py]): the client of that server, against it.

    ** What the theorems show

    The properties are numbered in their comments, [C1] first.
    - The gate ([Gate], [AgentCore], [Tools], [Confirmations], [AgentFacts]):
      whatever a device sends, nothing leaves the agent beyond what a safe tool
      may do, unless the message accepts a live confirmation of its own
      session, which is then spent and runs the prepared action once, within
      the permissions of its tool.  The Core's invariant holds over every
      history of calls; a waiting confirmation blocks the session; sessions
      are isolated.
    - Authorization ([Challenge], [Devices], [Ticket], [Connection]): a
      response is accepted only for a live challenge of a paired key, once;
      the failures of a connection are bounded.
    - Channels ([SecureSession], [SecureCore], [Audio], [SecureAudio],
      [SecureGateways], [MobileClient]): a paired client always connects, its
      messages reach the Core and the answers come back as in clear, or both
      ends are closed; both ends of a handshake agree and are
      authenticated, records arrive in order and once, nonces never repeat,
      connections end closed.
    - Text and data ([Protocol], [Wire], [IntentFacts], [CatalogIntents],
      [Urls], [Contacts], [Apps], [ControlConfig], [IntegrationCatalog]): what
      the validators accept and return, round trips of the files and messages,
      and that the catalog the agent publishes is the one the Core accepts.
    - Time ([Timers], [League]): timers follow a simple ledger; the waits end.
    - The local server ([HttpFacts], [ControlPanel], [WebSocket], [Cli]):
      every request is answered and hardened; without the local header nothing changes,
      without the confirmation header only what a safe tool may do happens; the
      policy table and the tool catalog agree; an edit of the panel changes one
      entry; a WebSocket client leaves no session behind; the command-line client
      asks for [--confirm] exactly where the device would ask.

    ** Modelling decisions

    - A method of an object is a function of the object's state that returns the
      new state with the value or the exception; an exception keeps the changes
      made before it.  Locks are left out where each is held for the whole of
      the method it guards (the registry, the confirmations, the timers and
      their kin): the interleavings of threads are then the orders of the
      calls, and the reachability theorems quantify over all of them.  [Core]
      takes no lock of its own: its [handle] is one step of the model, and the
      interleavings of two concurrent calls of it are not modelled.
    - In the components of the Core, clock readings, random tokens and keys are
      inputs of the call.  The tools read the clock and draw through [Machine],
      whose answers may depend on everything done before.
    - The validators, summaries and preparers of the agent's tools and its two
      catalogs are runs on the machine like its handlers ([agent_entries]).  The
      Core consults them for their results: [registered] and [observe] keep
      those and leave the readings out of the history.  That they do nothing
      but read is proved ([AgentFacts.entries_consult_only]) and is part of
      what [AgentCore] shows of a device's messages; the preview of [Cli] runs
      them with their events.
    - Strings are lists of code points, so surrogates are representable, and
      bytes are lists of [Z]; dictionaries keep insertion order; floats are
      sign, mantissa and exponent.
    - Fuel: [JsonParse] gives its parsers twice the length of the text and
      [Regex] its reader and repetitions the length of theirs, and both are
      proved to suffice on every text; [Json] prints numbers with as many steps
      as they have bits; the polls of [League] are as many as fit in the wait,
      which is where the deadline stops the loop.  The loops of the transports
      recurse on the list of what is read from the peer.
    - Third-party code is a class parameter with its documented laws, which an
      executable instance satisfies: Ed25519, X25519, HKDF and
      ChaCha20-Poly1305 ([Crypto]), the tables of the Unicode database
      ([PyText], [PyStr], [Apps], [Urls]), the machine ([Machine]), the speech
      provider of [SecureAudio].

    ** Not modelled

    - The recursion limit of the interpreter, memory exhaustion, and the
      interruption of a call by a signal.
    - Input and output as such: the Windows registry behind the paired devices,
      the named pipe of the broker, opening serial ports and sockets, threads,
      DPAPI and the identity file.
    - Of [main.py]: finding the route of a request and reading its model, which
      are the web framework's and the class [Framework] with its laws; what its
      socket does, the script of [WebSocket]; the two report routes
      ([/readiness], [/self-test]); logging and start-up.
    - Of [pipa_cli.py]: argparse and the check of [--base-url], the doctor and
      the other reports; the bytes of what it prints.  How [urllib] delivers a
      request is the relation [arrives] of [Cli].
    - The other scripts ([configure_*.py], administration, simulators), the
      read-only reports
      ([diagnostics.py], [readiness.py], [secure_diagnostics.py] and their
      kin), the settings of [mobile_config.py]: dialogues and reports over the
      components above.
    - The client of [secure_mobile_tcp_client.py], the session of
      [MobileClient] over a socket: its reads and time-outs.
    - The firmware, the iOS client and the credential provider: other languages, or
      the far end of a protocol whose laws are here. *)
From Stdlib Require Export ZArith Lia.
From Stdlib Require Import Strings.String Strings.Byte.
From stdpp Require Export prelude sorting.

Global Set Default Proof Using "Type".
Global Open Scope Z_scope.

(** [lia] decides division and remainder by constants. *)
Ltac Zify.zify_post_hook ::= Z.to_euclidean_division_equations.

(** ** Python strings and byte strings

    A [str] is the list of its code points and a [bytes] object the list of
    its octets, so that [len] and [ord] are what the program sees. *)

Abbreviation pystr := (list Z).
Abbreviation bytes := (list Z).

Definition len {A} (s : list A) : Z := Z.of_nat (length s).

(** A [str] all of whose items are code points, a [bytes] all of whose items
    are octets. *)
Definition is_code_point (c : Z) : Prop := 0 <= c <= 0x10FFFF.
Definition is_octet (b : Z) : Prop := 0 <= b <= 255.

Definition surrogate (c : Z) : bool := (0xD800 <=? c) && (c <=? 0xDFFF).

(** *** UTF-8: [bytes.decode("utf-8")] and [str.encode("utf-8")], strict *)

Definition continuation (b : Z) : bool := (0x80 <=? b) && (b <=? 0xBF).

Definition cons_opt {A} (x : A) (r : option (list A)) : option (list A) :=
  match r with Some l => Some (x :: l) | None => None end.

(** With the [surrogatepass] error handler, encoded surrogates are accepted. *)
Fixpoint utf8_decode_with (pass : bool) (l : bytes) : option pystr :=
  match l with
  | [] => Some []
  | b0 :: r0 =>
    if b0 <? 0x80 then cons_opt b0 (utf8_decode_with pass r0)
    else match r0 with
    | b1 :: r1 =>
      if negb (continuation b1) then None
      else if (0xC2 <=? b0) && (b0 <=? 0xDF) then
        cons_opt ((b0 - 0xC0) * 64 + (b1 - 0x80)) (utf8_decode_with pass r1)
      else match r1 with
      | b2 :: r2 =>
        if negb (continuation b2) then None
        else if (0xE0 <=? b0) && (b0 <=? 0xEF) then
          let c := (b0 - 0xE0) * 4096 + (b1 - 0x80) * 64 + (b2 - 0x80) in
          if (c <? 0x800) || (negb pass && surrogate c) then None
          else cons_opt c (utf8_decode_with pass r2)
        else match r2 with
        | b3 :: r3 =>
          if negb (continuation b3) then None
          else if (0xF0 <=? b0) && (b0 <=? 0xF4) then
            let c := (b0 - 0xF0) * 262144 + (b1 - 0x80) * 4096
                     + (b2 - 0x80) * 64 + (b3 - 0x80) in
            if (c <? 0x10000) || (0x10FFFF <? c) then None
            else cons_opt c (utf8_decode_with pass r3)
          else None
        | [] => None
        end
      | [] => None
      end
    | [] => None
    end
  end.

Abbreviation utf8_decode := (utf8_decode_with false).

Definition utf8_encode_char (c : Z) : option bytes :=
  if (c <? 0) || (0x10FFFF <? c) || surrogate c then None
  else if c <? 0x80 then Some [c]
  else if c <? 0x800 then Some [0xC0 + c / 64; 0x80 + c mod 64]
  else if c <? 0x10000 then
    Some [0xE0 + c / 4096; 0x80 + (c / 64) mod 64; 0x80 + c mod 64]
  else
    Some [0xF0 + c / 262144; 0x80 + (c / 4096) mod 64;
          0x80 + (c / 64) mod 64; 0x80 + c mod 64].

Fixpoint utf8_encode (s : pystr) : option bytes :=
  match s with
  | [] => Some []
  | c :: s' =>
    match utf8_encode_char c, utf8_encode s' with
    | Some b, Some r => Some (b ++ r)
    | _, _ => None
    end
  end.

(** String literals of the program: [u "texto"] is the Python literal whose
    UTF-8 source is [texto]. *)
Definition bytes_of_string (s : string) : bytes :=
  (λ b, Z.of_N (Byte.to_N b)) <$> list_byte_of_string s.
Definition u (s : string) : pystr := default [] (utf8_decode (bytes_of_string s)).
Arguments u s%_string_scope : simpl never.
Abbreviation literal := Stdlib.Strings.String.string.
Export Stdlib.Strings.String.StringSyntax.
Delimit Scope string_scope with string.

(** *** [str] methods *)

(** [str.isspace] on one character: the characters [str.strip] removes and
    [str.split] splits on. *)
Definition is_space (c : Z) : bool :=
  ((0x09 <=? c) && (c <=? 0x0D)) || ((0x1C <=? c) && (c <=? 0x20))
  || (c =? 0x85) || (c =? 0xA0) || (c =? 0x1680)
  || ((0x2000 <=? c) && (c <=? 0x200A)) || (c =? 0x2028) || (c =? 0x2029)
  || (c =? 0x202F) || (c =? 0x205F) || (c =? 0x3000).

Fixpoint lstrip (s : pystr) : pystr :=
  match s with
  | c :: s' => if is_space c then lstrip s' else s
  | [] => []
  end.
Definition strip (s : pystr) : pystr := reverse (lstrip (reverse (lstrip s))).

(** Python slicing [s[:n]] for a non-negative [n]. *)
Definition slice_to {A} (n : Z) (s : list A) : list A := take (Z.to_nat n) s.

(** Truth value of a sequence: [bool(s)]. *)
Definition nonempty {A} (s : list A) : bool := match s with [] => false | _ => true end.

(** ASCII classes used by the identifier patterns of the program. *)
Definition ascii_upper (c : Z) : bool := (65 <=? c) && (c <=? 90).
Definition ascii_lower (c : Z) : bool := (97 <=? c) && (c <=? 122).
Definition ascii_digit (c : Z) : bool := (48 <=? c) && (c <=? 57).
Definition ascii_alpha (c : Z) : bool := ascii_upper c || ascii_lower c.
Definition ascii_alnum (c : Z) : bool := ascii_alpha c || ascii_digit c.

(** [re.compile("^[class]{lo,hi}$").fullmatch(s) is not None] *)
Definition matches_class (p : Z → bool) (lo hi : Z) (s : pystr) : bool :=
  forallb p s && (lo <=? len s) && (len s <=? hi).

(** [s == "text"] and [s in {"a", "b"}] for the strings of the program. *)
Definition is_lit (s : pystr) (lit : string) : bool := bool_decide (s = u lit).
Arguments is_lit s lit%_string_scope : simpl never.
Declare Scope pipa_scope.
Notation "s =s lit" := (is_lit s lit%string) (at level 70) : pipa_scope.
Definition one_of (s : pystr) (lits : list string) : bool := existsb (is_lit s) lits.
Arguments one_of s lits : simpl never.
Global Open Scope pipa_scope.

(** ** Exceptions

    The exception classes the modelled code raises or catches, with the class
    hierarchy of their [class C(Base)] statements.  Messages are not modelled:
    no handler reads them. *)

Inductive exn :=
| Exception | TypeError | KeyError | ValueError | OSError
| UnicodeDecodeError | UnicodeEncodeError | JSONDecodeError
| ProtocolError | ConfirmationError | SessionLimitError
| TrustedUnlockError | UnknownDeviceError | UnknownChallengeError
| ChallengeMismatchError | ExpiredChallengeError | InvalidResponseError
| ReplayDetectedError | ChallengeLimitError
| TicketError | UnknownTicketError | ExpiredTicketError | TicketReplayError
| TicketOperationError
| BrokerRequestError | UnlockDisabledError
| SecureSessionError | HandshakeError | RecordError | ReplayError
| ClosedSessionError | SecureJsonError | AudioFrameError
| SecureCoreConnectionError | SecureTcpTransportError
| TimerNotFoundError
| DeviceStoreError | DeviceAlreadyRegisteredError | DeviceNotFoundError
| AttributeError | RuntimeError | IndexError | OverflowError
| InvalidSignature | InvalidTag
| PatternError
| FileNotFoundError | AppsConfigError | ContactsConfigError | ControlConfigError
| LeagueClientError
| TimeoutError | WebSocketDisconnect | SecureMobileClientError.

#[global] Instance exn_eq_dec : EqDecision exn.
Proof. solve_decision. Defined.

Definition base_class (e : exn) : option exn :=
  match e with
  | Exception => None
  | UnicodeDecodeError | UnicodeEncodeError | JSONDecodeError
  | ProtocolError | ConfirmationError | SessionLimitError
  | SecureSessionError | TimerNotFoundError
  | AppsConfigError | ContactsConfigError | ControlConfigError => Some ValueError
  | UnknownDeviceError | UnknownChallengeError | ChallengeMismatchError
  | ExpiredChallengeError | InvalidResponseError | ReplayDetectedError
  | ChallengeLimitError => Some TrustedUnlockError
  | UnknownTicketError | ExpiredTicketError | TicketReplayError
  | TicketOperationError => Some TicketError
  | UnlockDisabledError => Some BrokerRequestError
  | HandshakeError | RecordError | SecureCoreConnectionError | SecureMobileClientError
  | SecureTcpTransportError => Some SecureSessionError
  | DeviceAlreadyRegisteredError | DeviceNotFoundError => Some DeviceStoreError
  | FileNotFoundError | TimeoutError => Some OSError
  | LeagueClientError => Some RuntimeError
  | ReplayError | ClosedSessionError | SecureJsonError | AudioFrameError => Some RecordError
  | _ => Some Exception
  end.

Fixpoint is_a_fuel (fuel : nat) (e c : exn) : bool :=
  bool_decide (e = c) ||
  match fuel, base_class e with
  | S f, Some b => is_a_fuel f b c
  | _, _ => false
  end.
(** [isinstance(error, c)]: the hierarchy is five classes deep. *)
Definition is_a (e c : exn) : bool := is_a_fuel 5 e c.
(** [except (c1, ..., cn)] catches [e]. *)
Definition caught (e : exn) (cs : list exn) : bool := existsb (is_a e) cs.

(** ** Results: a returned value or a raised exception *)

Inductive result (A : Type) :=
| Ok (a : A)
| Raise (e : exn).
Arguments Ok {A} a.
Arguments Raise {A} e.

#[global] Instance result_ret : MRet result := @Ok.
#[global] Instance result_bind : MBind result := λ A B k r,
  match r with Ok a => k a | Raise e => Raise e end.
#[global] Instance result_fmap : FMap result := λ A B f r,
  match r with Ok a => Ok (f a) | Raise e => Raise e end.

Definition is_ok {A} (r : result A) : bool :=
  match r with Ok _ => true | Raise _ => false end.

(** The value of a run that returned. *)
Definition ok_or {A} (dflt : A) (r : result A) : A := match r with Ok a => a | Raise _ => dflt end.

Lemma ok_or_eq {A} (d : A) (r : result A) : is_ok r = true → r = Ok (ok_or d r).
Proof. by destruct r. Qed.

Lemma pair_ok {S A} (d : A) (p : S * result A) : is_ok p.2 = true → p = (p.1, Ok (ok_or d p.2)).
Proof. by destruct p as [? []]. Qed.

(** [if not b: raise e] *)
Definition ensure (b : bool) (e : exn) : result unit :=
  if b then Ok tt else Raise e.

(** [try: r / except (cs): raise e] *)
Definition reraise {A} (cs : list exn) (e : exn) (r : result A) : result A :=
  match r with
  | Ok a => Ok a
  | Raise x => if caught x cs then Raise e else Raise x
  end.

(** A loop [for x in l: out.append(f(x))] that stops at the first exception. *)
Fixpoint traverse {A B} (f : A → result B) (l : list A) : result (list B) :=
  match l with
  | [] => Ok []
  | x :: l' => y ← f x; ys ← traverse f l'; Ok (y :: ys)
  end.

(** ** Tactics *)

(** Evaluate a closed goal. *)
Ltac by_compute := vm_compute; repeat apply conj; reflexivity.

(** Two different literals of the program are different strings. *)
Ltac lit_discriminate :=
  match goal with
  | H : u _ = u _ |- _ => exfalso; vm_compute in H; congruence
  | H : u _ = [] |- _ => exfalso; vm_compute in H; congruence
  | |- u _ ≠ u _ => let H := fresh in intros H; vm_compute in H; congruence
  end.

(** One inversion step on a monadic program that returned normally. *)
Ltac result_step :=
  match goal with
  | H : Ok _ = Ok _ |- _ => injection H as H
  | H : Raise _ = Raise _ |- _ => injection H as H
  | H : Ok _ = Raise _ |- _ => discriminate H
  | H : Raise _ = Ok _ |- _ => discriminate H
  | H : Some _ = None |- _ => discriminate H
  | H : None = Some _ |- _ => discriminate H
  | H : true = false |- _ => discriminate H
  | H : false = true |- _ => discriminate H
  | H : ensure ?b ?e = Ok _ |- _ => unfold ensure in H
  | H : context [mbind _ _] |- _ => progress (unfold mbind, result_bind in H)
  | H : (match ?x with _ => _ end) = _ |- _ => destruct x eqn:?
  end.
Ltac result_inv := repeat (result_step; simplify_eq).

(** Turn boolean facts of the code into propositions. *)
Ltac reflect_step :=
  match goal with
  | H : _ && _ = true |- _ => apply andb_prop in H as [? ?]
  | H : _ && _ = false |- _ => apply andb_false_iff in H
  | H : _ || _ = false |- _ => apply orb_false_iff in H as [? ?]
  | H : _ || _ = true |- _ => apply orb_true_iff in H
  | H : negb _ = true |- _ => apply negb_true_iff in H
  | H : negb _ = false |- _ => apply negb_false_iff in H
  | H : is_lit _ _ = true |- _ => apply bool_decide_eq_true in H
  | H : is_lit _ _ = false |- _ => apply bool_decide_eq_false in H
  | H : bool_decide _ = true |- _ => apply bool_decide_eq_true in H
  | H : bool_decide _ = false |- _ => apply bool_decide_eq_false in H
  | H : (_ <=? _) = true |- _ => apply Z.leb_le in H
  | H : (_ <=? _) = false |- _ => apply Z.leb_gt in H
  | H : (_ <? _) = true |- _ => apply Z.ltb_lt in H
  | H : (_ <? _) = false |- _ => apply Z.ltb_ge in H
  | H : (_ =? _) = true |- _ => apply Z.eqb_eq in H
  | H : (_ =? _) = false |- _ => apply Z.eqb_neq in H
  end.
Ltac reflect := repeat reflect_step.

(** ** Generic lemmas *)

Lemma len_nonneg {A} (l : list A) : 0 <= len l.
Proof. unfold len; lia. Qed.

Lemma len_nil {A} : len ([] : list A) = 0.
Proof. done. Qed.

Lemma len_cons {A} (x : A) l : len (x :: l) = 1 + len l.
Proof. unfold len; simpl; lia. Qed.

Lemma len_app {A} (l k : list A) : len (l ++ k) = len l + len k.
Proof. unfold len; rewrite length_app; lia. Qed.

Lemma len_reverse {A} (l : list A) : len (reverse l) = len l.
Proof. unfold len; by rewrite length_reverse. Qed.

Lemma len_fmap {A B} (f : A → B) (l : list A) : len (f <$> l) = len l.
Proof. unfold len; by rewrite length_fmap. Qed.

Lemma len_filter_le {A} (P : A → Prop) `{!∀ x, Decision (P x)} (l : list A) :
  len (filter P l) <= len l.
Proof. unfold len. pose proof (length_filter P l). lia. Qed.

Lemma filter_ext_elem {A} (P Q : A → Prop) `{!∀ x, Decision (P x)} `{!∀ x, Decision (Q x)} (l : list A) :
  (∀ x, x ∈ l → P x ↔ Q x) → filter P l = filter Q l.
Proof.
  induction l as [|x l IH]; intros Heq; [done|]. rewrite !filter_cons.
  rewrite IH by (intros; apply Heq; by right). specialize (Heq x ltac:(by left)).
  repeat case_decide; tauto || done.
Qed.

Lemma slice_to_len {A} n (s : list A) : 0 <= n → len (slice_to n s) <= n.
Proof. intros. unfold len, slice_to. rewrite length_take. lia. Qed.

Lemma forallb_reverse {A} (p : A → bool) (l : list A) : forallb p (reverse l) = forallb p l.
Proof.
  induction l as [|x l IH]; [done|]. rewrite reverse_cons, forallb_app, IH. simpl.
  by rewrite andb_true_r, andb_comm.
Qed.

Lemma ensure_ok b e a : ensure b e = Ok a → b = true.
Proof. unfold ensure. by destruct b. Qed.

Lemma ensure_raises b e e' : ensure b e = Raise e' → e' = e.
Proof. unfold ensure. destruct b; congruence. Qed.

(** *** Which exceptions a computation can raise *)

Definition raises_only (P : exn → Prop) {A} (r : result A) : Prop := ∀ e, r = Raise e → P e.

Section raises_only.
Context (P : exn → Prop).

Lemma raises_only_ok {A} (a : A) : raises_only P (Ok a).
Proof. by intros e. Qed.
Lemma raises_only_raise {A} e : P e → raises_only P (Raise e : result A).
Proof. intros H e' [= <-]. done. Qed.
Lemma raises_only_ensure b e : P e → raises_only P (ensure b e).
Proof. intros H e' ->%ensure_raises. done. Qed.
Lemma raises_only_bind {A B} (r : result A) (k : A → result B) :
  raises_only P r → (∀ a, raises_only P (k a)) → raises_only P (r ≫= k).
Proof. intros Hr Hk e. unfold mbind, result_bind. destruct r; [by apply Hk|]. intros [= <-]. by apply Hr. Qed.
Lemma existsb_false_Forall {A} (p : A → bool) l :
  existsb p l = false ↔ Forall (λ x, p x = false) l.
Proof.
  induction l as [|x l IH]; simpl; [done|].
  rewrite orb_false_iff, Forall_cons. by rewrite IH.
Qed.

Lemma reraise_ok {A} cs e (r : result A) a : reraise cs e r = Ok a → r = Ok a.
Proof. unfold reraise. destruct r; [done|]. by destruct (caught _ cs). Qed.
Lemma raises_only_reraise {A} cs e (r : result A) :
  P e → raises_only (λ x, caught x cs = false → P x) r → raises_only P (reraise cs e r).
Proof.
  intros He Hr x. unfold reraise. destruct r as [|y]; [done|]. specialize (Hr y eq_refl).
  destruct (caught y cs) eqn:Ec; intros [= <-]; [done|]. by apply Hr.
Qed.
Lemma raises_only_weaken (Q : exn → Prop) {A} (r : result A) :
  raises_only Q r → (∀ e, Q e → P e) → raises_only P r.
Proof. intros Hr H e He. by apply H, Hr. Qed.
End raises_only.

(** Split a computation into the places that can raise. *)
Ltac raises_step :=
  lazymatch goal with
  | |- raises_only _ (Ok _) => apply raises_only_ok
  | |- raises_only _ (Raise _) => apply raises_only_raise
  | |- raises_only _ (ensure _ _) => apply raises_only_ensure
  | |- raises_only _ (_ ≫= _) => apply raises_only_bind; [|intros ?]
  | |- raises_only _ (reraise _ _ _) => apply raises_only_reraise
  | |- raises_only _ (match ?x with _ => _ end) => destruct x
  end.

Lemma traverse_ok {A B} (f : A → result B) l k : traverse f l = Ok k ↔ Forall2 (λ x y, f x = Ok y) l k.
Proof.
  split.
  - revert k. induction l as [|x l IH]; intros k; simpl; [by intros [= <-]|]. unfold mbind, result_bind.
    destruct (f x) as [y|] eqn:Ex; [|done]. destruct (traverse f l) as [ys|]; [|done].
    intros [= <-]. constructor; auto.
  - induction 1 as [|x y l k Hx _ IH]; [done|]. simpl. by rewrite Hx, IH.
Qed.

(** *** [strip] *)

Lemma lstrip_suffix s : ∃ p, s = p ++ lstrip s.
Proof.
  induction s as [|c s [p IH]]; [by exists []|]. simpl. destruct (is_space c).
  - exists (c :: p). simpl. by f_equal.
  - by exists [].
Qed.

Lemma lstrip_idemp s : lstrip (lstrip s) = lstrip s.
Proof.
  induction s as [|c s IH]; [done|]. simpl. destruct (is_space c) eqn:E; [done|].
  simpl. by rewrite E.
Qed.

Lemma lstrip_fixed_prefix s p : lstrip (s ++ p) = s ++ p → s ≠ [] → lstrip s = s.
Proof.
  destruct s as [|c s]; [done|]. simpl. intros H _. destruct (is_space c) eqn:E; [|done].
  exfalso. destruct (lstrip_suffix (s ++ p)) as [q Hq]. apply (f_equal length) in H, Hq.
  rewrite (length_app q) in Hq. simpl in H. lia.
Qed.

(** [strip] keeps a segment of the string, and nothing more to strip. *)
Lemma strip_segment s : ∃ p q, s = p ++ strip s ++ q.
Proof.
  unfold strip. destruct (lstrip_suffix s) as [p Hp].
  destruct (lstrip_suffix (reverse (lstrip s))) as [q Hq].
  exists p, (reverse q). apply (f_equal reverse) in Hq. rewrite reverse_involutive, reverse_app in Hq.
  by rewrite <- Hq.
Qed.

Lemma strip_idemp s : strip (strip s) = strip s.
Proof.
  unfold strip. set (t := lstrip s). set (r := lstrip (reverse t)).
  assert (lstrip (reverse r) = reverse r) as ->.
  { destruct (decide (reverse r = [])) as [->|Hne]; [done|].
    destruct (lstrip_suffix (reverse t)) as [q Hq]. fold r in Hq.
    apply (lstrip_fixed_prefix _ (reverse q)); [|done].
    rewrite <- reverse_app, <- Hq, reverse_involutive. apply lstrip_idemp. }
  rewrite reverse_involutive. unfold r. by rewrite lstrip_idemp.
Qed.

Lemma len_strip_le s : len (strip s) <= len s.
Proof. destruct (strip_segment s) as (p & q & H). rewrite H at 2. rewrite !len_app. pose proof (len_nonneg p). pose proof (len_nonneg q). lia. Qed.

Lemma strip_elem c s : c ∈ strip s → c ∈ s.
Proof. destruct (strip_segment s) as (p & q & H). rewrite H at 2. rewrite !elem_of_app. tauto. Qed.

Lemma strip_Forall (P : Z → Prop) s : Forall P s → Forall P (strip s).
Proof. rewrite !Forall_forall. intros H c Hc. by apply H, strip_elem. Qed.

Lemma nonempty_ne {A} (l : list A) : nonempty l = true ↔ l ≠ [].
Proof. by destruct l. Qed.

(** *** UTF-8 round trip *)

Lemma utf8_char_roundtrip pass c b r :
  utf8_encode_char c = Some b → utf8_decode_with pass (b ++ r) = cons_opt c (utf8_decode_with pass r).
Proof.
  unfold utf8_encode_char. intros H.
  destruct (_ || _ || _) eqn:E; [done|]. reflect. unfold surrogate in *.
  repeat (case_match; simplify_eq); reflect; cbn [app utf8_decode_with negb andb]; unfold continuation, surrogate;
    repeat match goal with
    | |- context [?x <? ?y] =>
        first [replace (x <? y) with true by (symmetry; apply Z.ltb_lt; lia)
              |replace (x <? y) with false by (symmetry; apply Z.ltb_ge; lia)]
    | |- context [?x <=? ?y] =>
        first [replace (x <=? y) with true by (symmetry; apply Z.leb_le; lia)
              |replace (x <=? y) with false by (symmetry; apply Z.leb_gt; lia)]
    end; cbn [andb orb negb]; try (f_equal; lia).
  (* three bytes: the surrogate range is on one side or the other *)
  match goal with |- context [cons_opt ?x] => replace x with c by lia end.
  match goal with H : _ ∨ _ |- _ => by destruct H as [->| ->]; rewrite ?andb_false_r; cbn [andb]; rewrite ?andb_false_r end.
Qed.

(** Decoding inverts encoding: two strings with the same UTF-8 bytes are the
    same string. *)
Lemma utf8_roundtrip pass s b : utf8_encode s = Some b → utf8_decode_with pass b = Some s.
Proof.
  revert b. induction s as [|c s IH]; intros b; simpl; [by intros [= <-]|].
  destruct (utf8_encode_char c) as [bc|] eqn:Ec; [|done].
  destruct (utf8_encode s) as [bs|] eqn:Es; [|done]. intros [= <-].
  by rewrite (utf8_char_roundtrip pass c), (IH bs).
Qed.

Lemma utf8_encode_octets s b : utf8_encode s = Some b → Forall is_octet b.
Proof.
  revert b. induction s as [|c s IH]; intros b; simpl; [by intros [= <-]|].
  unfold utf8_encode_char. destruct ((c <? 0) || (0x10FFFF <? c) || surrogate c) eqn:Er; [done|].
  destruct (utf8_encode s) as [bs|] eqn:Es; [|by repeat case_match]. specialize (IH bs eq_refl).
  reflect. repeat (case_match; simplify_eq); reflect; intros [= <-]; cbn [app]; rewrite ?Forall_cons; unfold is_octet;
    split_and?; first [lia|done].
Qed.

Lemma is_lit_true s lit : is_lit s lit = true ↔ s = u lit.
Proof. apply bool_decide_eq_true. Qed.
Lemma is_lit_false s lit : is_lit s lit = false ↔ s ≠ u lit.
Proof. apply bool_decide_eq_false. Qed.
Lemma one_of_elem s lits : one_of s lits = true → ∃ lit, lit ∈ lits ∧ s = u lit.
Proof.
  intros (lit & Hin & Hs)%existsb_exists. exists lit. split; [by apply list_elem_of_In|by apply is_lit_true].
Qed.
Lemma is_lit_refl lit : is_lit (u lit) lit = true.
Proof. by apply is_lit_true. Qed.

Create HintDb pipa discriminated.
#[export] Hint Resolve len_nonneg : pipa.
Create Rewrite HintDb len.
#[export] Hint Rewrite @len_nil @len_cons @len_app @len_reverse @len_fmap : len.
