(* ===== verification/Dict.v ===== *)
(** * Insertion-ordered dictionaries

    A Python [dict] keeps its items in insertion order: assigning to an
    existing key keeps the key's position, a new key goes to the end, and
    [next(iter(d))] is the oldest key.  The registries of the program rely on
    that order, so a dictionary is the list of its items.  [dwf] (no key
    twice) is the invariant every operation keeps. *)
From S2P Require Import Prelude.

Abbreviation dict K V := (list (K * V)).

Section dict.
Context {K : Type} `{!EqDecision K} {V : Type}.
Implicit Types (k : K) (v : V) (d : dict K V).

(** [d.get(k)] *)
Fixpoint dget k d : option V :=
  match d with
  | [] => None
  | (k', v) :: d' => if decide (k = k') then Some v else dget k d'
  end.

(** [k in d] *)
Definition dmem k d : bool := match dget k d with Some _ => true | None => false end.

(** [d[k] = v] *)
Fixpoint dset k v d : dict K V :=
  match d with
  | [] => [(k, v)]
  | (k', v') :: d' => if decide (k = k') then (k', v) :: d' else (k', v') :: dset k v d'
  end.

(** [d.pop(k, None)] *)
Definition ddel k d : dict K V := filter (λ kv, k ≠ kv.1) d.

(** [del d[k]] *)
Definition ddel_strict k d : result (dict K V) :=
  if dmem k d then Ok (ddel k d) else Raise KeyError.

(** [for k in ks: del d[k]], on keys known to be present. *)
Definition ddel_all (ks : list K) d : dict K V := foldl (λ d k, ddel k d) d ks.

(** [d.pop(next(iter(d)))], [d.popitem(last=False)] on a non-empty [d]. *)
Definition dpop_oldest d : dict K V :=
  match d with [] => [] | (k, _) :: _ => ddel k d end.

(** In-place mutation of the object stored under [k]. *)
Fixpoint dalter (f : V → V) k d : dict K V :=
  match d with
  | [] => []
  | (k', v) :: d' => if decide (k = k') then (k', f v) :: d' else (k', v) :: dalter f k d'
  end.

Definition dkeys d : list K := d.*1.
Definition dvalues d : list V := d.*2.
Definition dwf d : Prop := NoDup d.*1.

(** [sum(P(v) for v in d.values())] *)
Definition dcount (P : V → Prop) `{!∀ v, Decision (P v)} d : Z := len (filter P (dvalues d)).

(** The keys of the items whose value satisfies [P]:
    [[k for k, v in d.items() if P(v)]] *)
Definition keys_where (P : V → Prop) `{!∀ v, Decision (P v)} d : list K :=
  (filter (λ kv, P kv.2) d).*1.

(** ** Lookup *)

Lemma dget_elem k v d : dget k d = Some v → (k, v) ∈ d.
Proof.
  induction d as [|[k' v'] d IH]; csimpl; [done|].
  case_decide; intros; simplify_eq; [by left | right; auto].
Qed.

Lemma elem_dget k v d : dwf d → (k, v) ∈ d → dget k d = Some v.
Proof.
  unfold dwf. induction d as [|[k' v'] d IH]; csimpl; intros Hwf Hin.
  - by apply not_elem_of_nil in Hin.
  - apply NoDup_cons in Hwf as [Hk Hwf]. apply elem_of_cons in Hin as [Hin|Hin].
    + simplify_eq. by rewrite decide_True.
    + case_decide; [|auto]. subst. exfalso. apply Hk.
      apply list_elem_of_fmap. by exists (k', v).
Qed.

Lemma dget_None k d : dget k d = None ↔ k ∉ dkeys d.
Proof.
  unfold dkeys. induction d as [|[k' v'] d IH]; csimpl.
  - split; [intros _; apply not_elem_of_nil | done].
  - rewrite not_elem_of_cons. case_decide; naive_solver.
Qed.

Lemma dmem_true k d : dmem k d = true ↔ ∃ v, dget k d = Some v.
Proof. unfold dmem. destruct (dget k d); naive_solver. Qed.

Lemma dmem_false k d : dmem k d = false ↔ dget k d = None.
Proof. unfold dmem. destruct (dget k d); naive_solver. Qed.

Lemma dvalues_elem v d : v ∈ dvalues d ↔ ∃ k, (k, v) ∈ d.
Proof.
  unfold dvalues. rewrite list_elem_of_fmap. split.
  - intros [[k w] [-> ?]]. by exists k.
  - intros [k ?]. by exists (k, v).
Qed.

(** ** Assignment *)

Lemma dget_dset k k' v d : dget k (dset k' v d) = if decide (k = k') then Some v else dget k d.
Proof.
  induction d as [|[k0 v0] d IH]; csimpl; [repeat case_decide; naive_solver|].
  destruct (decide (k' = k0)); csimpl; repeat case_decide; naive_solver.
Qed.

Lemma dget_dset_eq k v d : dget k (dset k v d) = Some v.
Proof. rewrite dget_dset. by rewrite decide_True. Qed.

Lemma dget_dset_ne k k' v d : k ≠ k' → dget k (dset k' v d) = dget k d.
Proof. intros. rewrite dget_dset. by rewrite decide_False. Qed.

Lemma dkeys_dset k v d :
  dkeys (dset k v d) = if dmem k d then dkeys d else dkeys d ++ [k].
Proof.
  unfold dkeys, dmem. induction d as [|[k' v'] d IH]; csimpl; [done|].
  case_decide; csimpl; [by destruct (dget _ _)|]. rewrite IH. by destruct (dget k d).
Qed.

Lemma dset_wf k v d : dwf d → dwf (dset k v d).
Proof.
  intros Hwf. change (NoDup (dkeys (dset k v d))). rewrite dkeys_dset.
  change (NoDup (dkeys d)) in Hwf. destruct (dmem k d) eqn:E; [done|].
  apply dmem_false, dget_None in E. apply NoDup_app. split; [done|].
  split; [set_solver | apply NoDup_singleton].
Qed.

Lemma dset_fresh k v d : dget k d = None → dset k v d = d ++ [(k, v)].
Proof.
  induction d as [|[k' v'] d IH]; csimpl; [done|].
  case_decide; [done|]. intros. by rewrite IH.
Qed.

Lemma dset_elem k v k' v' d :
  (k', v') ∈ dset k v d → (k' = k ∧ v' = v) ∨ (k', v') ∈ d.
Proof.
  induction d as [|[k0 v0] d IH]; csimpl.
  - intros Hin%list_elem_of_singleton. simplify_eq. by left.
  - case_decide; rewrite !elem_of_cons; naive_solver.
Qed.

Lemma dset_elem_ne k v k' v' d : k' ≠ k → (k', v') ∈ d → (k', v') ∈ dset k v d.
Proof.
  intros Hne. induction d as [|[k0 v0] d IH]; csimpl; [by intros ?%not_elem_of_nil|].
  case_decide; rewrite !elem_of_cons; naive_solver.
Qed.

Lemma len_dset_le k v d : len (dset k v d) <= 1 + len d.
Proof.
  induction d as [|[k' v'] d IH]; csimpl; [done|].
  case_decide; autorewrite with len; lia.
Qed.

(** ** Removal *)

Lemma ddel_elem k k' v d : (k', v) ∈ ddel k d ↔ k ≠ k' ∧ (k', v) ∈ d.
Proof. unfold ddel. by rewrite list_elem_of_filter. Qed.

Lemma dget_ddel k k' d : dget k (ddel k' d) = if decide (k = k') then None else dget k d.
Proof.
  unfold ddel. induction d as [|[k0 v0] d IH]; csimpl; [by case_decide|].
  destruct (decide (k' ≠ k0)) as [Hne|Heq].
  - rewrite filter_cons_True by done. csimpl. repeat case_decide; naive_solver.
  - rewrite filter_cons_False by done. rewrite IH.
    repeat case_decide; naive_solver.
Qed.

Lemma dget_ddel_eq k d : dget k (ddel k d) = None.
Proof. rewrite dget_ddel. by rewrite decide_True. Qed.

Lemma dget_ddel_ne k k' d : k ≠ k' → dget k (ddel k' d) = dget k d.
Proof. intros. rewrite dget_ddel. by rewrite decide_False. Qed.

Lemma filter_sublist_wf (P : K * V → Prop) `{!∀ x, Decision (P x)} d :
  dwf d → dwf (filter P d).
Proof.
  unfold dwf. induction d as [|kv d IH]; [done|].
  csimpl. intros [Hk Hwf]%NoDup_cons.
  destruct (decide (P kv)); [rewrite filter_cons_True by done|rewrite filter_cons_False by done; auto].
  csimpl. apply NoDup_cons. split; [|auto].
  rewrite list_elem_of_fmap. intros (x & Hx & [_ Hin]%list_elem_of_filter).
  apply Hk. apply list_elem_of_fmap. eauto.
Qed.

Lemma dkeys_filter (P : K * V → Prop) `{!∀ x, Decision (P x)} k d :
  k ∈ dkeys (filter P d) → k ∈ dkeys d.
Proof.
  unfold dkeys. rewrite !list_elem_of_fmap. intros (kv & -> & [_ ?]%list_elem_of_filter). eauto.
Qed.

Lemma dget_filter_None (P : K * V → Prop) `{!∀ x, Decision (P x)} k d :
  dget k d = None → dget k (filter P d) = None.
Proof. rewrite !dget_None. eauto using dkeys_filter. Qed.

Lemma ddel_wf k d : dwf d → dwf (ddel k d).
Proof. apply filter_sublist_wf. Qed.

Lemma len_ddel_le k d : len (ddel k d) <= len d.
Proof. apply len_filter_le. Qed.

Lemma len_ddel_lt k d : dmem k d = true → len (ddel k d) <= len d - 1.
Proof.
  unfold ddel, dmem. induction d as [|[k' v'] d IH]; csimpl; [done|].
  case_decide.
  - intros _. rewrite filter_cons_False by naive_solver.
    pose proof (len_filter_le (λ kv, k ≠ kv.1) d). autorewrite with len. lia.
  - intros. rewrite filter_cons_True by done. autorewrite with len. specialize (IH H0). lia.
Qed.

Lemma ddel_strict_ok k d : dmem k d = true → ddel_strict k d = Ok (ddel k d).
Proof. unfold ddel_strict. by intros ->. Qed.

Lemma ddel_all_filter ks d :
  ddel_all ks d = filter (λ kv, kv.1 ∉ ks) d.
Proof.
  unfold ddel_all. revert d. induction ks as [|k ks IH]; intros d; csimpl.
  - induction d as [|kv d IHd]; [done|].
    rewrite filter_cons_True by (apply not_elem_of_nil). by rewrite <- IHd.
  - rewrite IH. unfold ddel. rewrite list_filter_filter.
    apply list_filter_iff. intros kv. rewrite not_elem_of_cons. naive_solver.
Qed.

(** Deleting every key whose value satisfies [P] keeps exactly the other
    items: the loop every [_prune] of the program runs. *)
Lemma ddel_keys_where (P : V → Prop) `{!∀ v, Decision (P v)} d :
  dwf d → ddel_all (keys_where P d) d = filter (λ kv, ¬ P kv.2) d.
Proof.
  intros Hwf. rewrite ddel_all_filter. unfold keys_where.
  apply filter_ext_elem. intros [k v] Hin. csimpl. split.
  - intros Hni Hp. apply Hni, list_elem_of_fmap. exists (k, v). split; [done|].
    by apply list_elem_of_filter.
  - intros Hnp ([k' v'] & Hk & [Hp Hin']%list_elem_of_filter)%list_elem_of_fmap.
    csimpl in *. subst. apply Hnp.
    apply elem_dget in Hin; [|done]. apply elem_dget in Hin'; [|done]. by simplify_eq.
Qed.

Lemma dpop_oldest_tail d : dwf d → dpop_oldest d = tail d.
Proof.
  unfold dwf, dpop_oldest. destruct d as [|[k v] d]; [done|]. csimpl.
  intros [Hk _]%NoDup_cons. unfold ddel. rewrite filter_cons_False by naive_solver.
  induction d as [|[k' v'] d IH]; [done|]. csimpl in Hk. apply not_elem_of_cons in Hk as [??].
  rewrite filter_cons_True by done. by rewrite IH.
Qed.

Lemma dpop_oldest_wf d : dwf d → dwf (dpop_oldest d).
Proof. destruct d as [|[k v] d]; [done|]. apply ddel_wf. Qed.

Lemma len_dpop_oldest d : d ≠ [] → len (dpop_oldest d) <= len d - 1.
Proof.
  destruct d as [|[k v] d]; [done|]. intros _. apply len_ddel_lt.
  unfold dmem. csimpl. by rewrite decide_True.
Qed.

Lemma dpop_oldest_elem kv d : kv ∈ dpop_oldest d → kv ∈ d.
Proof. destruct d as [|[k v] d]; [done|]. unfold dpop_oldest, ddel. rewrite list_elem_of_filter. tauto. Qed.

(** ** In-place mutation *)

Lemma dget_dalter f k k' d :
  dget k (dalter f k' d) = if decide (k = k') then f <$> dget k d else dget k d.
Proof.
  induction d as [|[k0 v0] d IH]; csimpl; [by case_decide|].
  destruct (decide (k' = k0)); csimpl; repeat case_decide; naive_solver.
Qed.

Lemma dget_dalter_eq f k d : dget k (dalter f k d) = f <$> dget k d.
Proof. rewrite dget_dalter. by rewrite decide_True. Qed.

Lemma dget_dalter_ne f k k' d : k ≠ k' → dget k (dalter f k' d) = dget k d.
Proof. intros. rewrite dget_dalter. by rewrite decide_False. Qed.

Lemma dkeys_dalter f k d : dkeys (dalter f k d) = dkeys d.
Proof.
  unfold dkeys. induction d as [|[k' v'] d IH]; csimpl; [done|].
  case_decide; csimpl; [done | by rewrite IH].
Qed.

Lemma dalter_wf f k d : dwf d → dwf (dalter f k d).
Proof. intros Hwf. change (NoDup (dkeys (dalter f k d))). by rewrite dkeys_dalter. Qed.

Lemma len_dalter f k d : len (dalter f k d) = len d.
Proof.
  induction d as [|[k' v'] d IH]; csimpl; [done|].
  case_decide; autorewrite with len; lia.
Qed.

Lemma dalter_elem f k k' v d :
  (k', v) ∈ dalter f k d → (k', v) ∈ d ∨ (k' = k ∧ ∃ v0, v = f v0 ∧ (k, v0) ∈ d).
Proof.
  induction d as [|[k0 v0] d IH]; csimpl; [by left|].
  case_decide; rewrite !elem_of_cons; intros [?|Hin]; simplify_eq; auto.
  - right. split; [done|]. exists v0. split; [done|]. by left.
  - apply IH in Hin as [?|[-> (v1 & -> & ?)]]; [by auto|].
    right. split; [done|]. exists v1. split; [done|]. by right.
Qed.

(** ** Counting *)

Lemma dcount_dset_fresh (P : V → Prop) `{!∀ v, Decision (P v)} k v d :
  dget k d = None → dcount P (dset k v d) = dcount P d + (if decide (P v) then 1 else 0).
Proof.
  intros. rewrite dset_fresh by done. unfold dcount, dvalues.
  rewrite fmap_app, filter_app, len_app. csimpl.
  case_decide; [rewrite filter_cons_True by done | rewrite filter_cons_False by done]; done.
Qed.

Lemma dcount_dset_le (P : V → Prop) `{!∀ v, Decision (P v)} k v d :
  dcount P (dset k v d) <= dcount P d + (if decide (P v) then 1 else 0).
Proof.
  unfold dcount, dvalues. induction d as [|[k' v'] d IH]; csimpl.
  - case_decide; [rewrite filter_cons_True by done | rewrite filter_cons_False by done]; done.
  - destruct (decide (k = k')); csimpl; rewrite !filter_cons; repeat case_decide;
      autorewrite with len; try lia.
Qed.

Lemma dcount_filter_le (P : V → Prop) `{!∀ v, Decision (P v)}
    (Q : K * V → Prop) `{!∀ kv, Decision (Q kv)} d :
  dcount P (filter Q d) <= dcount P d.
Proof.
  unfold dcount, dvalues. induction d as [|[k v] d IH]; [done|].
  rewrite (filter_cons Q). destruct (decide (Q (k, v))); csimpl; rewrite !filter_cons;
    repeat case_decide; autorewrite with len; try lia.
Qed.

(** Mutating one object keeps the count of a property it does not change. *)
Lemma dcount_dalter (P : V → Prop) `{!∀ v, Decision (P v)} f k d :
  (∀ v, dget k d = Some v → P (f v) ↔ P v) → dcount P (dalter f k d) = dcount P d.
Proof.
  unfold dcount, dvalues. induction d as [|[k' v'] d IH]; csimpl; [done|]. destruct (decide (k = k')); intros Hf; csimpl.
  - specialize (Hf v' eq_refl). rewrite !filter_cons. repeat case_decide; tauto || done.
  - rewrite !filter_cons. case_decide; autorewrite with len; rewrite ?IH by done; done.
Qed.

Lemma dcount_zero (P : V → Prop) `{!∀ v, Decision (P v)} d :
  (∀ k v, (k, v) ∈ d → ¬ P v) → dcount P d = 0.
Proof.
  unfold dcount, dvalues. induction d as [|[k v] d IH]; csimpl; intros Hn; [done|].
  rewrite filter_cons_False by (eapply Hn; by left). apply IH. intros k' v' Hin. eapply Hn. by right.
Qed.

Lemma dcount_cons (P : V → Prop) `{!∀ v, Decision (P v)} k v d :
  dcount P ((k, v) :: d) = (if decide (P v) then 1 else 0) + dcount P d.
Proof. unfold dcount, dvalues. csimpl. rewrite filter_cons. case_decide; by autorewrite with len. Qed.

Lemma dcount_nonneg (P : V → Prop) `{!∀ v, Decision (P v)} d : 0 <= dcount P d.
Proof. apply len_nonneg. Qed.

Lemma dcount_pos (P : V → Prop) `{!∀ v, Decision (P v)} k v d : (k, v) ∈ d → P v → 1 <= dcount P d.
Proof.
  induction d as [|[k' v'] d IH]; [by intros ?%not_elem_of_nil|]. rewrite dcount_cons.
  pose proof (dcount_nonneg P d). intros [Heq|Hin]%elem_of_cons Hp.
  - injection Heq as <- <-. rewrite decide_True by done. lia.
  - specialize (IH Hin Hp). case_decide; lia.
Qed.

(** Removing the one item that counts. *)
Lemma dcount_ddel_one (P : V → Prop) `{!∀ v, Decision (P v)} k v d :
  dget k d = Some v → P v → dcount P d <= 1 → ∀ k' v', (k', v') ∈ ddel k d → ¬ P v'.
Proof.
  intros Hk Hp. revert Hk. induction d as [|[k0 v0] d IH]; [done|]. rewrite dcount_cons.
  intros Hk Hc k' v' [Hne Hin]%ddel_elem Hp'. cbn [dget] in Hk.
  pose proof (dcount_nonneg P d). apply elem_of_cons in Hin as [Heq|Hin].
  - injection Heq as -> ->. rewrite decide_False in Hk by done. rewrite decide_True in Hc by done.
    pose proof (dcount_pos P k v d (dget_elem _ _ _ Hk) Hp). lia.
  - pose proof (dcount_pos P k' v' d Hin Hp'). destruct (decide (k = k0)).
    + injection Hk as ->. rewrite decide_True in Hc by done. lia.
    + eapply (IH Hk); [case_decide; lia|by apply ddel_elem|exact Hp'].
Qed.

Lemma dcount_le_len (P : V → Prop) `{!∀ v, Decision (P v)} d : dcount P d <= len d.
Proof.
  unfold dcount, dvalues. etransitivity; [apply len_filter_le|].
  unfold len. by rewrite length_fmap.
Qed.
End dict.

(** Interface of a bounded registry: what [SessionRegistry],
    [ConfirmationManager] and [AuthorizationVerifier] promise of the
    dictionary they guard. *)
Definition bounded {K V} (n : Z) (d : dict K V) : Prop := len d <= n.

Create Rewrite HintDb dict.
#[export] Hint Rewrite @dget_dset_eq @dget_ddel_eq @dget_dalter_eq : dict.
#[export] Hint Rewrite @dget_dset_ne @dget_ddel_ne @dget_dalter_ne using done : dict.
#[export] Hint Resolve dset_wf ddel_wf dalter_wf dpop_oldest_wf filter_sublist_wf : pipa.
