(* ===== verification/Value.v ===== *)
(** * Dynamically typed values

    The values a decoded JSON message or a tool argument can hold, with the
    run-time type tests, equalities and truth values the validators of the
    program apply to them.  Object keys are [str], as in JSON. *)
From S2P Require Import Prelude Dict.

(** A Python [float]: [FFin neg m e] is [±m * 2^e], [m >= 0]. *)
Inductive pyfloat :=
| FNan
| FInf (neg : bool)
| FFin (neg : bool) (m e : Z).

Inductive value :=
| VNone
| VBool (b : bool)
| VInt (z : Z)
| VFloat (f : pyfloat)
| VStr (s : pystr)
| VList (l : list value)
| VDict (d : list (pystr * value)).

Abbreviation object := (dict pystr value).

(** [x == z] for a float [x] and an int [z]: exact comparison. *)
Definition float_eq_int (f : pyfloat) (z : Z) : bool :=
  match f with
  | FFin neg m e =>
    let s := if neg : bool then - m else m in
    if 0 <=? e then s * 2 ^ e =? z else s =? z * 2 ^ (- e)
  | _ => false
  end.

(** [v == z] for an int [z]: [True == 1] and [1.0 == 1] hold in Python. *)
Definition eq_int (v : value) (z : Z) : bool :=
  match v with
  | VInt x => x =? z
  | VBool b => (if b : bool then 1 else 0) =? z
  | VFloat f => float_eq_int f z
  | _ => false
  end.

(** [v == s] for a string [s]. *)
Definition eq_str (v : value) (s : pystr) : bool :=
  match v with VStr x => bool_decide (x = s) | _ => false end.

(** [v is True], [v is False] *)
Definition is_true (v : value) : bool := match v with VBool true => true | _ => false end.
Definition is_false (v : value) : bool := match v with VBool false => true | _ => false end.

(** [bool(v)] *)
Definition truthy (v : value) : bool :=
  match v with
  | VNone => false
  | VBool b => b
  | VInt z => negb (z =? 0)
  | VFloat (FFin _ m _) => negb (m =? 0)
  | VFloat _ => true
  | VStr s => nonempty s
  | VList l => nonempty l
  | VDict d => nonempty d
  end.

(** [isinstance] tests, returning the converted value. *)
Definition as_str (v : value) : option pystr := match v with VStr s => Some s | _ => None end.
Definition as_bool (v : value) : option bool := match v with VBool b => Some b | _ => None end.
Definition as_list (v : value) : option (list value) := match v with VList l => Some l | _ => None end.
Definition as_dict (v : value) : option object := match v with VDict d => Some d | _ => None end.
(** [isinstance(v, int) and not isinstance(v, bool)] *)
Definition as_int (v : value) : option Z := match v with VInt z => Some z | _ => None end.

Definition is_str (v : value) : bool := match v with VStr _ => true | _ => false end.
Definition is_dict (v : value) : bool := match v with VDict _ => true | _ => false end.

(** [payload.get(name)] and [payload.get(name, default)] on an object. *)
Definition get (name : pystr) (d : object) : value := default VNone (dget name d).
Definition get_or (name : pystr) (dflt : value) (d : object) : value := default dflt (dget name d).

(** [d[name]] *)
Definition getitem (name : pystr) (d : object) : result value :=
  match dget name d with Some v => Ok v | None => Raise KeyError end.

(** [set(d) - allowed] is empty; [required - set(d)] is empty. *)
Definition keys_within (allowed : list pystr) (d : object) : bool :=
  forallb (λ k, bool_decide (k ∈ allowed)) (dkeys d).
Definition keys_cover (required : list pystr) (d : object) : bool :=
  forallb (λ k, dmem k d) required.
(** [set(d) == fields] *)
Definition keys_exactly (fields : list pystr) (d : object) : bool :=
  keys_within fields d && keys_cover fields d.

Lemma keys_within_spec allowed d :
  keys_within allowed d = true ↔ ∀ k, k ∈ dkeys d → k ∈ allowed.
Proof.
  unfold keys_within. rewrite forallb_forall. setoid_rewrite <- list_elem_of_In.
  by setoid_rewrite bool_decide_eq_true.
Qed.

Lemma keys_cover_spec required d :
  keys_cover required d = true ↔ ∀ k, k ∈ required → ∃ v, dget k d = Some v.
Proof.
  unfold keys_cover. rewrite forallb_forall. setoid_rewrite <- list_elem_of_In.
  by setoid_rewrite dmem_true.
Qed.

Lemma get_Some name d v : dget name d = Some v → get name d = v.
Proof. unfold get. by intros ->. Qed.

Lemma getitem_get name d v : getitem name d = Ok v → get name d = v ∧ dget name d = Some v.
Proof. unfold getitem, get. destruct (dget name d); naive_solver. Qed.

Lemma as_str_Some v s : as_str v = Some s ↔ v = VStr s.
Proof. destruct v; naive_solver. Qed.
Lemma as_bool_Some v b : as_bool v = Some b ↔ v = VBool b.
Proof. destruct v; naive_solver. Qed.
Lemma as_dict_Some v d : as_dict v = Some d ↔ v = VDict d.
Proof. destruct v; naive_solver. Qed.
Lemma as_list_Some v l : as_list v = Some l ↔ v = VList l.
Proof. destruct v; naive_solver. Qed.
Lemma as_int_Some v z : as_int v = Some z ↔ v = VInt z.
Proof. destruct v; naive_solver. Qed.

(** Induction over nested values. *)
Section value_ind.
Context (P : value → Prop).
Hypothesis HNone : P VNone.
Hypothesis HBool : ∀ b, P (VBool b).
Hypothesis HInt : ∀ z, P (VInt z).
Hypothesis HFloat : ∀ f, P (VFloat f).
Hypothesis HStr : ∀ s, P (VStr s).
Hypothesis HList : ∀ l, Forall P l → P (VList l).
Hypothesis HDict : ∀ d, Forall (λ kv, P kv.2) d → P (VDict d).

Fixpoint value_nested_ind (v : value) : P v :=
  match v with
  | VNone => HNone
  | VBool b => HBool b
  | VInt z => HInt z
  | VFloat f => HFloat f
  | VStr s => HStr s
  | VList l => HList l
      ((fix go l := match l return Forall P l with
        | [] => Forall_nil_2 P
        | x :: l' => Forall_cons_2 P x l' (value_nested_ind x) (go l')
        end) l)
  | VDict d => HDict d
      ((fix go d := match d return Forall (λ kv : pystr * value, P kv.2) d with
        | [] => Forall_nil_2 _
        | (k, x) :: d' =>
            Forall_cons_2 (λ kv : pystr * value, P kv.2) (k, x) d' (value_nested_ind x) (go d')
        end) d)
  end.
End value_ind.

(** Structural equality of values (not Python's [==], which identifies [True]
    with [1]): a check that evaluates. *)
#[export] Instance pyfloat_eq_dec : EqDecision pyfloat.
Proof. solve_decision. Defined.

Fixpoint value_eqb (v w : value) : bool :=
  match v, w with
  | VNone, VNone => true
  | VBool b, VBool c => Bool.eqb b c
  | VInt x, VInt y => x =? y
  | VFloat f, VFloat g => bool_decide (f = g)
  | VStr s, VStr t => bool_decide (s = t)
  | VList l, VList m =>
      (fix go l m := match l, m with
        | [], [] => true
        | x :: l', y :: m' => value_eqb x y && go l' m'
        | _, _ => false
        end) l m
  | VDict d, VDict e =>
      (fix go (d e : list (pystr * value)) := match d, e with
        | [], [] => true
        | (k, x) :: d', (k', y) :: e' => bool_decide (k = k') && value_eqb x y && go d' e'
        | _, _ => false
        end) d e
  | _, _ => false
  end.

Lemma value_eqb_sound v w : value_eqb v w = true → v = w.
Proof.
  revert w. induction v as [|b|z|f|s|l IH|d IH] using value_nested_ind; intros [|c|y|g|t|m|e]; cbn [value_eqb]; try done.
  - by intros ->%Bool.eqb_prop.
  - by intros ->%Z.eqb_eq.
  - by intros ->%bool_decide_eq_true.
  - by intros ->%bool_decide_eq_true.
  - intros H. f_equal. revert m H. induction IH as [|x l Hx _ IHl]; intros [|y m] H; try done.
    apply andb_true_iff in H as [?%Hx ?%IHl]. by subst.
  - intros H. f_equal. revert e H. induction IH as [|[k x] d Hx _ IHd]; intros [|[k' y] e] H; try done.
    apply andb_true_iff in H as [[->%bool_decide_eq_true ?%Hx]%andb_true_iff ?%IHd]. cbn in *. by subst.
Qed.
