(* ===== verification/Effects.v ===== *)
(** * Stateful code that can raise

    A method of a stateful object is a function of the object's state that
    returns the new state together with what the call returned or raised: an
    exception does not undo the assignments made before it.  [wp] is the
    weakest precondition calculus the component proofs use; [keeps] is its
    instance for invariants. *)
From S2P Require Import Prelude.

Definition M (S A : Type) : Type := S → S * result A.

#[global] Instance M_ret S : MRet (M S) := λ A a s, (s, Ok a).
#[global] Instance M_bind S : MBind (M S) := λ A B k m s,
  match m s with
  | (s', Ok a) => k a s'
  | (s', Raise e) => (s', Raise e)
  end.

Section operations.
Context {S : Type}.

Definition raise {A} (e : exn) : M S A := λ s, (s, Raise e).
Definition lift {A} (r : result A) : M S A := λ s, (s, r).
Definition gets {A} (f : S → A) : M S A := λ s, (s, Ok (f s)).
Definition modify (f : S → S) : M S unit := λ s, (f s, Ok tt).

(** [try: m / except (cs): k] *)
Definition except {A} (m : M S A) (cs : list exn) (k : M S A) : M S A := λ s,
  match m s with
  | (s', Raise e) => if caught e cs then k s' else (s', Raise e)
  | out => out
  end.

(** A method of a component, run on the field the component is kept in. *)
Definition zoom {T A} (get : S → T) (set : T → S → S) (m : M T A) : M S A := λ s,
  let '(t, r) := m (get s) in (set t s, r).

(** [for x in l: f(x)] *)
Fixpoint for_each {A} (f : A → M S unit) (l : list A) : M S unit :=
  match l with
  | [] => mret tt
  | x :: l' => f x ≫= λ _, for_each f l'
  end.

(** [try: m / except (cs): k; raise] *)
Definition cleanup {A} (m : M S A) (cs : list exn) (k : M S unit) : M S A := λ s,
  match m s with
  | (s', Raise e) => if caught e cs then let '(s'', r) := k s' in (s'', r ≫= λ _, Raise e) else (s', Raise e)
  | out => out
  end.

(** [try: m / except ... as e: k(e)], the clauses told apart in [k]; an
    exception none of them names is raised again by [k]. *)
Definition try_with {A} (m : M S A) (k : exn → M S A) : M S A := λ s,
  match m s with
  | (s', Raise e) => k e s'
  | out => out
  end.

(** [try: m / finally: k] *)
Definition finally {A} (m : M S A) (k : M S unit) : M S A := λ s,
  let '(s', r) := m s in let '(s'', r') := k s' in (s'', r' ≫= λ _, r).

(** [[f(x) for x in l]] *)
Fixpoint collect {A B} (f : A → M S B) (l : list A) : M S (list B) :=
  match l with
  | [] => mret []
  | x :: l' => f x ≫= λ y, collect f l' ≫= λ ys, mret (y :: ys)
  end.

(** ** Runs *)

Lemma bind_ok {A B} (m : M S A) (k : A → M S B) s s' a : m s = (s', Ok a) → (m ≫= k) s = k a s'.
Proof. unfold mbind, M_bind. by intros ->. Qed.
Lemma bind_raise {A B} (m : M S A) (k : A → M S B) s s' e : m s = (s', Raise e) → (m ≫= k) s = (s', Raise e).
Proof. unfold mbind, M_bind. by intros ->. Qed.
Lemma except_ok {A} (m : M S A) cs k s s' a : m s = (s', Ok a) → except m cs k s = (s', Ok a).
Proof. unfold except. by intros ->. Qed.
Lemma except_caught {A} (m : M S A) cs k s s' e :
  m s = (s', Raise e) → caught e cs = true → except m cs k s = k s'.
Proof. unfold except. by intros -> ->. Qed.
Lemma except_missed {A} (m : M S A) cs k s s' e :
  m s = (s', Raise e) → caught e cs = false → except m cs k s = (s', Raise e).
Proof. unfold except. by intros -> ->. Qed.
Lemma cleanup_ok {A} (m : M S A) cs k s s' a : m s = (s', Ok a) → cleanup m cs k s = (s', Ok a).
Proof. unfold cleanup. by intros ->. Qed.
Lemma cleanup_caught {A} (m : M S A) cs k s s' s'' e :
  m s = (s', Raise e) → caught e cs = true → k s' = (s'', Ok tt) → cleanup m cs k s = (s'', Raise e).
Proof. unfold cleanup. by intros -> -> ->. Qed.
Lemma cleanup_missed {A} (m : M S A) cs k s s' e :
  m s = (s', Raise e) → caught e cs = false → cleanup m cs k s = (s', Raise e).
Proof. unfold cleanup. by intros -> ->. Qed.
Lemma try_ok {A} (m : M S A) k s s' a : m s = (s', Ok a) → try_with m k s = (s', Ok a).
Proof. unfold try_with. by intros ->. Qed.
Lemma try_raise {A} (m : M S A) k s s' e : m s = (s', Raise e) → try_with m k s = k e s'.
Proof. unfold try_with. by intros ->. Qed.
Lemma finally_run {A} (m : M S A) k s s' s'' r :
  m s = (s', r) → k s' = (s'', Ok tt) → finally m k s = (s'', r).
Proof. unfold finally. by intros -> ->. Qed.
Lemma zoom_run {T A} (get : S → T) (set : T → S → S) (m : M T A) s t r :
  m (get s) = (t, r) → zoom get set m s = (set t s, r).
Proof. unfold zoom. by intros ->. Qed.

(** ** Weakest preconditions *)

Definition wp {A} (m : M S A) (Q : result A → S → Prop) (s : S) : Prop :=
  Q (m s).2 (m s).1.

Lemma wp_run {A} (m : M S A) Q s s' r : wp m Q s → m s = (s', r) → Q r s'.
Proof. unfold wp. intros H E. by rewrite E in H. Qed.

Lemma wp_intro {A} (m : M S A) (Q : result A → S → Prop) s :
  (∀ s' r, m s = (s', r) → Q r s') → wp m Q s.
Proof. unfold wp. intros H. apply H. by destruct (m s). Qed.

Lemma wp_mono {A} (m : M S A) (P Q : result A → S → Prop) s :
  (∀ r s', P r s' → Q r s') → wp m P s → wp m Q s.
Proof. unfold wp. eauto. Qed.

Lemma wp_ret {A} (a : A) (Q : result A → S → Prop) s : Q (Ok a) s → wp (mret a) Q s.
Proof. done. Qed.

Lemma wp_raise {A} e (Q : result A → S → Prop) s : Q (Raise e) s → wp (raise e) Q s.
Proof. done. Qed.

Lemma wp_lift {A} r (Q : result A → S → Prop) s : Q r s → wp (lift r) Q s.
Proof. done. Qed.

Lemma wp_gets {A} (f : S → A) (Q : result A → S → Prop) s : Q (Ok (f s)) s → wp (gets f) Q s.
Proof. done. Qed.

Lemma wp_modify (f : S → S) (Q : result unit → S → Prop) s : Q (Ok tt) (f s) → wp (modify f) Q s.
Proof. done. Qed.

Lemma wp_bind {A B} (m : M S A) (k : A → M S B) (Q : result B → S → Prop) s :
  wp m (λ r s', match r with Ok a => wp (k a) Q s' | Raise e => Q (Raise e) s' end) s →
  wp (m ≫= k) Q s.
Proof. unfold wp, mbind, M_bind. destruct (m s) as [s' [a|e]]; done. Qed.

Lemma wp_except {A} (m : M S A) cs k (Q : result A → S → Prop) s :
  wp m (λ r s', match r with
                | Ok a => Q (Ok a) s'
                | Raise e => if caught e cs then wp k Q s' else Q (Raise e) s'
                end) s →
  wp (except m cs k) Q s.
Proof. unfold wp, except. destruct (m s) as [s' [a|e]]; simpl; [done|]. by destruct (caught e cs). Qed.

Lemma wp_zoom {T A} (get : S → T) (set : T → S → S) (m : M T A) (Q : result A → S → Prop) s :
  Q (m (get s)).2 (set (m (get s)).1 s) → wp (zoom get set m) Q s.
Proof. unfold wp, zoom. by destruct (m (get s)). Qed.

(** ** Invariants *)

Definition keeps {A} (I : S → Prop) (m : M S A) : Prop := ∀ s, I s → wp m (λ _, I) s.

Lemma keeps_bind {A B} I (m : M S A) (k : A → M S B) :
  keeps I m → (∀ a, keeps I (k a)) → keeps I (m ≫= k).
Proof.
  intros Hm Hk s Hs. apply wp_bind. eapply wp_mono; [|by apply Hm].
  intros [a|e] s' H'; [by apply Hk|done].
Qed.

Lemma keeps_except {A} I (m : M S A) cs k :
  keeps I m → keeps I k → keeps I (except m cs k).
Proof.
  intros Hm Hk s Hs. apply wp_except. eapply wp_mono; [|by apply Hm].
  intros [a|e] s' H'; [done|]. simpl. destruct (caught e cs); [by apply Hk|done].
Qed.

Lemma keeps_for_each {A} I (f : A → M S unit) l :
  (∀ x, x ∈ l → keeps I (f x)) → keeps I (for_each f l).
Proof.
  induction l as [|x l IH]; intros H; simpl; [by intros s|].
  apply keeps_bind; [apply H; by left|]. intros _. apply IH. intros y Hy. apply H. by right.
Qed.

Lemma keeps_pure {A} I (r : result A) : keeps I (lift r).
Proof. by intros s. Qed.
Lemma keeps_ret {A} I (a : A) : keeps I (mret a).
Proof. by intros s. Qed.
Lemma keeps_gets {A} I (f : S → A) : keeps I (gets f).
Proof. by intros s. Qed.
Lemma keeps_raise {A} I e : keeps I (raise e : M S A).
Proof. by intros s. Qed.
Lemma keeps_modify I f : (∀ s, I s → I (f s)) → keeps I (modify f).
Proof. intros H s Hs. by apply H. Qed.

(** ** Frames

    Every run of [m] relates the states before and after by [R], and returns
    only values that satisfy [P]. *)

Definition moves {A} (R : S → S → Prop) (P : A → Prop) (m : M S A) : Prop :=
  ∀ s, wp m (λ r s', R s s' ∧ ∀ a, r = Ok a → P a) s.

Section moves.
Context (R : S → S → Prop) `{!PreOrder R}.

Lemma moves_ret {A} (P : A → Prop) a : P a → moves R P (mret a).
Proof using Type*. intros Ha s. split; [done|]. by intros a' [= <-]. Qed.
Lemma moves_raise {A} (P : A → Prop) e : moves R P (raise e).
Proof using Type*. intros s. by split. Qed.
Lemma moves_lift {A} (P : A → Prop) r : (∀ a, r = Ok a → P a) → moves R P (lift r).
Proof using Type*. intros Hr s. by split. Qed.
Lemma moves_gets {A} (P : A → Prop) f : (∀ s, P (f s)) → moves R P (gets f).
Proof using Type*. intros Hf s. split; [done|]. by intros a [= <-]. Qed.
Lemma moves_bind {A B} (P : A → Prop) (Q : B → Prop) (m : M S A) (k : A → M S B) :
  moves R P m → (∀ a, P a → moves R Q (k a)) → moves R Q (m ≫= k).
Proof using Type*.
  intros Hm Hk s. apply wp_bind. eapply wp_mono; [|apply Hm]. intros [a|e] s' [Hr Ha]; [|by split].
  eapply wp_mono; [|by apply Hk, Ha]. intros r s2 [Hr2 Hq]. split; [by etrans|done].
Qed.
Lemma moves_except {A} (P : A → Prop) (m : M S A) cs k :
  moves R P m → moves R P k → moves R P (except m cs k).
Proof using Type*.
  intros Hm Hk s. apply wp_except. eapply wp_mono; [|apply Hm]. intros [a|e] s' [Hr Ha]; [by split|].
  destruct (caught e cs); [|by split]. eapply wp_mono; [|by apply Hk]. intros r s2 [Hr2 Hq]. split; [by etrans|done].
Qed.
Lemma moves_try {A} (P : A → Prop) (m : M S A) k :
  moves R P m → (∀ e, moves R P (k e)) → moves R P (try_with m k).
Proof using Type*.
  intros Hm Hk s. unfold wp, try_with. destruct (Hm s) as [Hr Hv]. destruct (m s) as [s' [a|e]]; [by split|].
  cbn [fst] in Hr. destruct (Hk e s') as [Hr' Hv']. split; [by etrans|done].
Qed.
End moves.
End operations.

#[export] Hint Resolve keeps_pure keeps_ret keeps_gets keeps_raise : pipa.

(** One rule of the calculus per construct of the code. *)
Ltac wp_step :=
  lazymatch goal with
  | |- wp (_ ≫= _) _ _ => apply wp_bind
  | |- wp (mret _) _ _ => apply wp_ret
  | |- wp (raise _) _ _ => apply wp_raise
  | |- wp (lift _) _ _ => apply wp_lift
  | |- wp (gets _) _ _ => apply wp_gets
  | |- wp (modify _) _ _ => apply wp_modify
  | |- wp (except _ _ _) _ _ => apply wp_except
  | |- wp (zoom _ _ _) _ _ => apply wp_zoom
  end.
Ltac keeps_step :=
  lazymatch goal with
  | |- keeps _ (_ ≫= _) => apply keeps_bind; [|intros ?]
  | |- keeps _ (except _ _ _) => apply keeps_except
  | |- keeps _ (if ?b then _ else _) => destruct b eqn:?
  | |- keeps _ (match ?x with _ => _ end) => destruct x eqn:?
  | |- keeps _ _ => solve [eauto with pipa]
  end.
