(* ===== verification/Encoding.v ===== *)
(** * Base64url

    [base64.urlsafe_b64encode] without padding and [base64.urlsafe_b64decode]
    as the protocol layers of the program call them. *)
From S2P Require Import Prelude.

(** ** base64url *)
Module Base64.
(** ["ABC...Zabc...z0123456789-_"[v]] *)
Definition char_of (v : Z) : Z :=
  if v <? 26 then 65 + v
  else if v <? 52 then 97 + (v - 26)
  else if v <? 62 then 48 + (v - 52)
  else if v =? 62 then 45 else 95.

(** The reverse table; other characters have no value. *)
Definition value_of (c : Z) : option Z :=
  if ascii_upper c then Some (c - 65)
  else if ascii_lower c then Some (c - 97 + 26)
  else if ascii_digit c then Some (c - 48 + 52)
  else if c =? 45 then Some 62
  else if c =? 95 then Some 63
  else None.

Definition alphabet (c : Z) : bool := ascii_alnum c || (c =? 45) || (c =? 95).

(** [base64.urlsafe_b64encode(b).decode("ascii").rstrip("=")] *)
Fixpoint encode (b : bytes) : pystr :=
  match b with
  | b0 :: b1 :: b2 :: r =>
    char_of (b0 / 4) :: char_of (b0 mod 4 * 16 + b1 / 16)
    :: char_of (b1 mod 16 * 4 + b2 / 64) :: char_of (b2 mod 64) :: encode r
  | [b0; b1] => [char_of (b0 / 4); char_of (b0 mod 4 * 16 + b1 / 16); char_of (b1 mod 16 * 4)]
  | [b0] => [char_of (b0 / 4); char_of (b0 mod 4 * 16)]
  | [] => []
  end.

(** [binascii.a2b_base64] in its default, non-strict mode: [quad] is the
    position in the current group of four, [left] the pending bits, [pads]
    the padding characters seen since the last data character. *)
Fixpoint a2b (quad : Z) (left : Z) (pads : Z) (s : pystr) : option bytes :=
  match s with
  | [] => if quad =? 0 then Some [] else None
  | c :: s' =>
    if c =? 61 then
      if 2 <=? quad then
        if 4 <=? quad + pads + 1 then Some [] else a2b quad left (pads + 1) s'
      else a2b quad left pads s'
    else match value_of c with
    | None => a2b quad left pads s'
    | Some v =>
      if quad =? 0 then a2b 1 v 0 s'
      else if quad =? 1 then cons_opt (left * 4 + v / 16) (a2b 2 (v mod 16) 0 s')
      else if quad =? 2 then cons_opt (left * 16 + v / 4) (a2b 3 (v mod 4) 0 s')
      else cons_opt (left * 64 + v) (a2b 0 0 0 s')
    end
  end.

(** ["=" * (-len(s) % 4)] *)
Definition padding (s : pystr) : pystr := repeat 61 (Z.to_nat ((- len s) mod 4)).

(** [base64.urlsafe_b64decode(s + "=" * (-len(s) % 4))] *)
Definition decode_padded (s : pystr) : option bytes := a2b 0 0 0 (s ++ padding s).

(** The five ranges of the alphabet. *)
Ltac char_ranges v :=
  unfold char_of; destruct (Z.ltb_spec v 26); [|destruct (Z.ltb_spec v 52);
    [|destruct (Z.ltb_spec v 62); [|destruct (Z.eqb_spec v 62)]]].
Ltac decide_bool b x := replace b with x by (symmetry;
  first [apply Z.leb_le | apply Z.leb_gt | apply Z.eqb_eq | apply Z.eqb_neq]; lia).
Ltac decide_bools :=
  repeat match goal with
  | |- context [?a <=? ?b] => first [decide_bool (a <=? b) true | decide_bool (a <=? b) false]
  | |- context [?a =? ?b] => first [decide_bool (a =? b) true | decide_bool (a =? b) false]
  end; cbn [andb orb].

Lemma value_of_char_of v : 0 <= v < 64 → value_of (char_of v) = Some v.
Proof.
  intros Hv. char_ranges v; unfold value_of, ascii_upper, ascii_lower, ascii_digit;
    decide_bools; f_equal; lia.
Qed.

Lemma alphabet_char_of v : 0 <= v < 64 → alphabet (char_of v) = true.
Proof.
  intros Hv. char_ranges v;
    unfold alphabet, ascii_alnum, ascii_alpha, ascii_upper, ascii_lower, ascii_digit;
    by decide_bools.
Qed.

Lemma char_of_not_pad v : 0 <= v < 64 → (char_of v =? 61) = false.
Proof.
  intros Hv. apply Z.eqb_neq. char_ranges v; lia.
Qed.

Lemma a2b_data quad left pads v s :
  0 <= v < 64 →
  a2b quad left pads (char_of v :: s) =
    (if quad =? 0 then a2b 1 v 0 s
     else if quad =? 1 then cons_opt (left * 4 + v / 16) (a2b 2 (v mod 16) 0 s)
     else if quad =? 2 then cons_opt (left * 16 + v / 4) (a2b 3 (v mod 4) 0 s)
     else cons_opt (left * 64 + v) (a2b 0 0 0 s)).
Proof.
  intros Hv. cbn [a2b]. by rewrite char_of_not_pad, value_of_char_of.
Qed.

(** Three-at-a-time induction. *)
Lemma triple_ind (P : bytes → Prop) :
  P [] → (∀ a, P [a]) → (∀ a b, P [a; b]) → (∀ a b c l, P l → P (a :: b :: c :: l)) → ∀ l, P l.
Proof.
  intros H0 H1 H2 H3 l.
  assert (P l ∧ (∀ a, P (a :: l)) ∧ (∀ a b, P (a :: b :: l))) as [? _]; [|done].
  induction l as [|x l (IH0 & IH1 & IH2)]; split_and!; auto.
Qed.

Ltac data_step := rewrite a2b_data by lia; cbn [Z.eqb Pos.eqb].

Lemma decode_encode b : Forall is_octet b → decode_padded (encode b) = Some b.
Proof.
  unfold decode_padded, padding. intros Hb.
  induction b as [|a|a b|a b c l IH] using triple_ind;
    rewrite ?Forall_cons in Hb; unfold is_octet in Hb; destruct_and?; cbn [encode app].
  - done.
  - do 2 data_step. simpl. do 2 f_equal. lia.
  - do 3 data_step. simpl. do 2 f_equal; [lia|]. f_equal. lia.
  - specialize (IH ltac:(done)).
    replace (- len (_ :: _ :: _ :: _ :: encode l)) with (- len (encode l) + (-1) * 4)
      by (autorewrite with len; lia).
    rewrite Z_mod_plus_full. do 4 data_step. rewrite IH. simpl.
    do 2 f_equal; [lia|]. f_equal; [lia|]. f_equal; lia.
Qed.

Lemma encode_alphabet b : Forall is_octet b → forallb alphabet (encode b) = true.
Proof.
  induction b as [|a|a b|a b c l IH] using triple_ind; intros Hb; cbn [encode forallb];
    rewrite ?Forall_cons in Hb; unfold is_octet in Hb; rewrite ?alphabet_char_of by lia;
    [done..|]. apply IH. tauto.
Qed.
End Base64.
