(* ===== verification/Json.v ===== *)
(** * [json.dumps] with compact separators

    The serializer behind the request digest, the argument size limit, the
    signed handshake transcripts and every frame: [ensure_ascii=False],
    [separators=(",", ":")], with and without [sort_keys] and [allow_nan].
    Floats are printed by [float.__repr__] (the shortest decimal that reads
    back as the same double), ints in decimal with the interpreter's limit of
    4300 digits.  Recursion depth is not modelled. *)
From S2P Require Import Prelude Dict Value.

(** ** Decimal integers *)

Fixpoint digits_fuel (fuel : nat) (n : Z) (acc : pystr) : pystr :=
  match fuel with
  | O => acc
  | S f =>
    let acc' := (48 + n mod 10) :: acc in
    if n <? 10 then acc' else digits_fuel f (n / 10) acc'
  end.
(** The decimal digits of [n >= 0]; [log2 n + 1] steps are more than enough. *)
Definition digits (n : Z) : pystr := digits_fuel (S (Z.to_nat (Z.log2 n))) n [].

(** [sys.int_info.default_max_str_digits] *)
Definition MAX_STR_DIGITS : Z := 4300.

(** [str(n)] *)
Definition int_repr (n : Z) : result pystr :=
  let d := digits (Z.abs n) in
  if MAX_STR_DIGITS <? len d then Raise ValueError
  else Ok (if n <? 0 then 45 :: d else d).

(** ** Floats: [float.__repr__] *)
Module Float.
(** Mantissa and exponent of the double [m * 2^e], with the exponent of its
    last place. *)
Definition normalize (m e : Z) : Z * Z :=
  let q := Z.max (e + Z.log2 m - 52) (-1074) in
  (if q <=? e then m * 2 ^ (e - q) else m / 2 ^ (q - e), q).

(** [x * 2^a * 10^k <= y * 2^b] over the rationals. *)
Definition scaled_le (x a k y b : Z) : bool :=
  x * 2 ^ Z.max 0 (a - b) * 10 ^ Z.max 0 k
    <=? y * 2 ^ Z.max 0 (b - a) * 10 ^ Z.max 0 (- k).
Definition scaled_lt (x a k y b : Z) : bool :=
  x * 2 ^ Z.max 0 (a - b) * 10 ^ Z.max 0 k
    <? y * 2 ^ Z.max 0 (b - a) * 10 ^ Z.max 0 (- k).

(** Does [d * 10^k] read back as the double [m * 2^q]?  It does when it lies
    in the rounding interval, whose ends belong to even mantissas. *)
Definition reads_back (m q d k : Z) : bool :=
  let down := if (m =? 2 ^ 52) && (-1074 <? q) then 1 else 2 in
  let lo := 4 * m - down in
  let hi := 4 * m + 2 in
  if Z.even m then scaled_le d 0 k hi (q - 2) && negb (scaled_lt d 0 k lo (q - 2))
  else scaled_lt d 0 k hi (q - 2) && negb (scaled_le d 0 k lo (q - 2)).

(** [floor (m * 2^q / 10^k)] *)
Definition floor_scaled (m q k : Z) : Z :=
  (m * 2 ^ Z.max 0 q * 10 ^ Z.max 0 (- k)) / (2 ^ Z.max 0 (- q) * 10 ^ Z.max 0 k).

(** The decimal exponent [p] with [10^p <= m * 2^q < 10^(p+1)]. *)
Definition decimal_exponent (m q : Z) : Z :=
  let p := (Z.log2 m + q) * 30103 / 100000 in
  if 1 <=? floor_scaled m q (p + 1) then p + 1
  else if 1 <=? floor_scaled m q p then p else p - 1.

(** Among the [n]-digit decimals around the value, the one that reads back
    and is closest. *)
Definition candidate (m q k : Z) : option Z :=
  let d := floor_scaled m q k in
  (* 2 * (m 2^q - d 10^k) <= 10^k, i.e. 2 m 2^q <= (2 d + 1) 10^k *)
  let low_closer := negb (scaled_lt (2 * d + 1) 0 k (2 * m) q) in
  match reads_back m q d k, reads_back m q (d + 1) k with
  | true, true => Some (if low_closer then d else d + 1)
  | true, false => Some d
  | false, true => Some (d + 1)
  | false, false => None
  end.

Fixpoint shortest (fuel : nat) (m q p n : Z) : Z * Z :=
  let k := p - n + 1 in
  match fuel with
  | O => (floor_scaled m q k, k)
  | S f =>
    match candidate m q k with
    | Some d => (d, k)
    | None => shortest f m q p (n + 1)
    end
  end.

Fixpoint strip_zeros (fuel : nat) (d k : Z) : Z * Z :=
  match fuel with
  | O => (d, k)
  | S f => if (d mod 10 =? 0) && (0 <? d) then strip_zeros f (d / 10) (k + 1) else (d, k)
  end.

Definition zeros (n : Z) : pystr := repeat 48 (Z.to_nat n).

(** Fixed notation between [1e-4] and [1e16], exponent notation outside. *)
Definition layout (d k : Z) : pystr :=
  let ds := digits d in
  let pt := len ds + k in
  if (-4 <? pt) && (pt <=? 16) then
    if pt <=? 0 then [48; 46] ++ zeros (- pt) ++ ds
    else if len ds <=? pt then ds ++ zeros (pt - len ds) ++ [46; 48]
    else slice_to pt ds ++ [46] ++ drop (Z.to_nat pt) ds
  else
    let x := pt - 1 in
    let xs := digits (Z.abs x) in
    slice_to 1 ds ++ (if 1 <? len ds then 46 :: drop 1 ds else [])
    ++ [101; if x <? 0 then 45 else 43]
    ++ (if len xs <? 2 then 48 :: xs else xs).

Definition repr (neg : bool) (m e : Z) : pystr :=
  (if neg : bool then [45] else []) ++
  if m =? 0 then [48; 46; 48]
  else
    let '(m', q) := normalize m e in
    let '(d, k) := shortest 17 m' q (decimal_exponent m' q) 1 in
    let '(d', k') := strip_zeros 17 d k in
    layout d' k'.
End Float.

(** ** Strings: the [ESCAPE_DCT] table of [json.encoder] *)

Definition hex_digit (n : Z) : Z := if n <? 10 then 48 + n else 87 + n.

Definition escape_char (c : Z) : pystr :=
  if c =? 34 then [92; 34]
  else if c =? 92 then [92; 92]
  else if c =? 10 then [92; 110]
  else if c =? 13 then [92; 114]
  else if c =? 9 then [92; 116]
  else if c =? 12 then [92; 102]
  else if c =? 8 then [92; 98]
  else if c <? 32 then [92; 117; 48; 48; hex_digit (c / 16); hex_digit (c mod 16)]
  else [c].

Definition dump_str (s : pystr) : pystr := [34] ++ concat (escape_char <$> s) ++ [34].

(** ** Objects *)

(** The order of [sorted(d.items())]: strings compare by code points. *)
Fixpoint pystr_leb (a b : pystr) : bool :=
  match a, b with
  | [], _ => true
  | _ :: _, [] => false
  | x :: a', y :: b' => (x <? y) || ((x =? y) && pystr_leb a' b')
  end.
Definition key_le {A} (a b : pystr * A) : Prop := pystr_leb a.1 b.1 = true.
#[global] Instance key_le_dec {A} (a b : pystr * A) : Decision (key_le a b).
Proof. unfold key_le. apply _. Defined.

Fixpoint join (sep : Z) (l : list pystr) : pystr :=
  match l with
  | [] => []
  | [x] => x
  | x :: l' => x ++ [sep] ++ join sep l'
  end.

Definition dump_items (sort_keys : bool) (items : list (pystr * pystr)) : pystr :=
  let items := if sort_keys : bool then merge_sort key_le items else items in
  [123] ++ join 44 ((λ kv, dump_str kv.1 ++ [58] ++ kv.2) <$> items) ++ [125].

Section dumps.
Variables (sort_keys allow_nan : bool).

Definition dump_float (f : pyfloat) : result pystr :=
  match f with
  | FFin neg m e => Ok (Float.repr neg m e)
  | FNan => if allow_nan then Ok (u "NaN") else Raise ValueError
  | FInf neg =>
    if allow_nan then Ok (if neg : bool then u "-Infinity" else u "Infinity")
    else Raise ValueError
  end.

Fixpoint dumps (v : value) : result pystr :=
  match v with
  | VNone => Ok (u "null")
  | VBool true => Ok (u "true")
  | VBool false => Ok (u "false")
  | VInt z => int_repr z
  | VFloat f => dump_float f
  | VStr s => Ok (dump_str s)
  | VList l =>
    xs ← (fix go l := match l with
          | [] => Ok []
          | x :: l' => y ← dumps x; ys ← go l'; Ok (y :: ys)
          end) l;
    Ok ([91] ++ join 44 xs ++ [93])
  | VDict d =>
    items ← (fix go d := match d with
             | [] => Ok []
             | (k, x) :: d' => y ← dumps x; ys ← go d'; Ok ((k, y) :: ys)
             end) d;
    Ok (dump_items sort_keys items)
  end.

(** [json.dumps(v, ...).encode("utf-8")] *)
Definition dump_bytes (v : value) : result bytes :=
  s ← dumps v;
  match utf8_encode s with
  | Some b => Ok b
  | None => Raise UnicodeEncodeError
  end.
End dumps.

(** Serializing can only fail with a [ValueError] (a non-finite float, a
    surrogate, an int of more than 4300 digits): the [except (TypeError,
    ValueError, ...)] clauses of the program catch every failure. *)
Lemma dumps_raises s a v e : dumps s a v = Raise e → e = ValueError.
Proof.
  revert e. induction v as [|[]|z|[]|str|l IH|d IH] using value_nested_ind; intros x; simpl;
    try done; unfold int_repr; try (repeat case_match; naive_solver);
    unfold mbind, result_bind at 1; case_match eqn:E; try done; intros [= <-].
  - revert e E. induction IH as [|y l Hy Hl IHl]; [done|]. intros e0.
    unfold mbind, result_bind. destruct (dumps s a y) eqn:Ey; [|naive_solver].
    case_match eqn:El; [done|]. intros [= <-]. by eapply IHl.
  - revert e E. induction IH as [|[k y] d Hy Hd IHd]; [done|]. intros e0. simpl in *.
    unfold mbind, result_bind. destruct (dumps s a y) eqn:Ey; [|naive_solver].
    case_match eqn:El; [done|]. intros [= <-]. by eapply IHd.
Qed.

Lemma dump_bytes_value_error s a v e : dump_bytes s a v = Raise e → is_a e ValueError = true.
Proof.
  unfold dump_bytes, mbind, result_bind. destruct (dumps s a v) eqn:E.
  - case_match; [done|]. by intros [= <-].
  - intros [= <-]. apply dumps_raises in E as ->. done.
Qed.

Lemma dump_bytes_raises s a v e :
  dump_bytes s a v = Raise e → caught e [TypeError; ValueError] = true.
Proof. intros H%dump_bytes_value_error. unfold caught. cbn [existsb]. rewrite H. by rewrite orb_true_r. Qed.

Example float_repr_examples :
  Float.repr false 1 (-1) = u "0.5" ∧ Float.repr false 3602879701896397 (-55) = u "0.1"
  ∧ Float.repr true 5 20 = u "-5242880.0" ∧ Float.repr false 1 (-1074) = u "5e-324"
  ∧ Float.repr false 1 100 = u "1.2676506002282294e+30".
Proof. by_compute. Qed.

(** ** ASCII documents

    Identifiers, base64 text and machine integers always serialize, to ASCII
    bytes. *)

Definition ascii (c : Z) : Prop := 0 <= c < 128.

(** Every string in the value consists of characters of [P]. *)
Fixpoint value_text (P : Z → Prop) (v : value) : Prop :=
  match v with
  | VNone | VBool _ => True
  | VInt z => len (digits (Z.abs z)) <= MAX_STR_DIGITS
  | VFloat _ => False
  | VStr s => Forall P s
  | VList l => (fix go l := match l with [] => True | x :: l' => value_text P x ∧ go l' end) l
  | VDict d =>
    (fix go d := match d with [] => True | (k, x) :: d' => Forall P k ∧ value_text P x ∧ go d' end) d
  end.
Abbreviation value_ascii := (value_text ascii).

(** The code points UTF-8 encodes. *)
Definition scalar (c : Z) : Prop := 0 <= c <= 0x10FFFF ∧ surrogate c = false.

Lemma utf8_encode_ascii s : Forall ascii s → utf8_encode s = Some s.
Proof.
  induction 1 as [|c s Hc _ IH]; [done|]. simpl. rewrite IH. unfold utf8_encode_char, surrogate, ascii in *.
  rewrite (proj2 (Z.ltb_ge c 0)), (proj2 (Z.ltb_ge 1114111 c)), (proj2 (Z.leb_gt 55296 c)),
    (proj2 (Z.ltb_lt c 128)) by lia. done.
Qed.

Lemma digits_fuel_shape f n acc :
  0 <= n → Forall ascii acc →
  Forall ascii (digits_fuel f n acc) ∧ len (digits_fuel f n acc) <= Z.of_nat f + len acc.
Proof.
  revert n acc. induction f as [|f IH]; intros n acc Hn Hacc; cbn [digits_fuel]; [split; [done|lia]|].
  assert (Forall ascii ((48 + n mod 10) :: acc)) as Hacc' by (constructor; [unfold ascii; lia|done]).
  destruct (n <? 10) eqn:E10; reflect.
  - split; [constructor; [unfold ascii; lia|done]|]. rewrite len_cons. lia.
  - destruct (IH (n / 10) ((48 + n mod 10) :: acc)) as [H1 H2]; [lia|done|].
    split; [done|]. rewrite len_cons in H2. lia.
Qed.

Lemma digits_ascii n : 0 <= n → Forall ascii (digits n).
Proof. intros. by apply digits_fuel_shape. Qed.

Lemma len_digits n : 0 <= n → len (digits n) <= Z.log2 n + 1.
Proof.
  intros Hn. unfold digits. destruct (digits_fuel_shape (S (Z.to_nat (Z.log2 n))) n []) as [_ H]; [done|done|].
  pose proof (Z.log2_nonneg n). autorewrite with len in H. lia.
Qed.

Lemma int_repr_ascii z : len (digits (Z.abs z)) <= MAX_STR_DIGITS → ∃ s, int_repr z = Ok s ∧ Forall ascii s.
Proof.
  intros H. unfold int_repr. rewrite (proj2 (Z.ltb_ge _ _)) by done. eexists. split; [done|].
  pose proof (digits_ascii (Z.abs z) ltac:(lia)). case_match; [constructor; done|done].
Qed.

Lemma escape_char_ascii c : 0 <= c → escape_char c = [c] ∨ Forall ascii (escape_char c).
Proof.
  unfold ascii, escape_char. intros Hc.
  repeat case_match; reflect; try (by left); right; rewrite ?Forall_cons, ?Forall_nil; unfold hex_digit;
    repeat case_match; reflect; split_and?; try done; lia.
Qed.

Section Text.
Context (P : Z → Prop) (HP : ∀ c, ascii c → P c) (HN : ∀ c, P c → 0 <= c).

Lemma ascii_text s : Forall ascii s → Forall P s.
Proof using HP. intros H. eapply Forall_impl; [exact H|done]. Qed.

Lemma escape_char_text c : P c → Forall P (escape_char c).
Proof using HP HN.
  intros Hc. destruct (escape_char_ascii c) as [->|H]; [by apply HN|by apply Forall_singleton|by apply ascii_text].
Qed.

Lemma dump_str_text s : Forall P s → Forall P (dump_str s).
Proof using HP HN.
  intros Hs. unfold dump_str. repeat (apply Forall_app; split); [by apply ascii_text, Forall_singleton| |by apply ascii_text, Forall_singleton].
  induction Hs as [|c s Hc _ IH]; csimpl; [constructor|]. apply Forall_app. split; [|done].
  by apply escape_char_text.
Qed.

Lemma join_text sep l : P sep → Forall (Forall P) l → Forall P (join sep l).
Proof using HP HN.
  intros Hs. induction 1 as [|x l Hx Hl IH]; [constructor|]. destruct l as [|y l]; [done|].
  cbn [join]. rewrite !Forall_app. split_and!; [done|by apply Forall_singleton|done].
Qed.

Lemma dump_items_text sk items :
  Forall (λ kv, Forall P kv.1 ∧ Forall P kv.2) items → Forall P (dump_items sk items).
Proof using HP HN.
  intros H. unfold dump_items. rewrite !Forall_app. split_and!; [by apply ascii_text, Forall_singleton| |by apply ascii_text, Forall_singleton].
  apply join_text; [by apply HP|]. apply Forall_fmap.
  assert (Forall (λ kv, Forall P kv.1 ∧ Forall P kv.2)
    (if sk then merge_sort key_le items else items)) as H'.
  { destruct sk; [|done]. by rewrite merge_sort_Permutation. }
  eapply Forall_impl; [exact H'|]. intros kv [Hk Hv]. unfold compose. rewrite !Forall_app.
  split_and!; [by apply dump_str_text|by apply ascii_text, Forall_singleton|done].
Qed.

Lemma dumps_text sk an v : value_text P v → ∃ s, dumps sk an v = Ok s ∧ Forall P s.
Proof using HP HN.
  induction v as [|b|z|f|s|l IH|d IH] using value_nested_ind; intros Hv.
  - eexists. split; [done|]. by apply ascii_text; repeat constructor.
  - destruct b; eexists; (split; [done|]); by apply ascii_text; repeat constructor.
  - destruct (int_repr_ascii z Hv) as (s & Hs & Ha). exists s. split; [done|by apply ascii_text].
  - done.
  - eexists. split; [done|]. by apply dump_str_text.
  - cut (∃ xs, (fix go l := match l with
          | [] => Ok []
          | x :: l' => y ← dumps sk an x; ys ← go l'; Ok (y :: ys)
          end) l = Ok xs ∧ Forall (Forall P) xs).
    { intros (xs & Hxs & Hall). cbn [dumps]. rewrite Hxs. eexists. split; [done|].
      rewrite !Forall_app. split_and!; [by apply ascii_text, Forall_singleton|apply join_text; [by apply HP|done]|by apply ascii_text, Forall_singleton]. }
    induction IH as [|x l Hx _ IHl]; [by exists []|]. destruct Hv as [Hvx Hvl].
    destruct (Hx Hvx) as (y & Hy & Hay). destruct (IHl Hvl) as (ys & Hys & Hays).
    exists (y :: ys). split; [|by constructor]. rewrite Hy. simpl. by rewrite Hys.
  - cut (∃ xs, (fix go d := match d with
             | [] => Ok []
             | (k, x) :: d' => y ← dumps sk an x; ys ← go d'; Ok ((k, y) :: ys)
             end) d = Ok xs ∧ Forall (λ kv, Forall P kv.1 ∧ Forall P kv.2) xs).
    { intros (xs & Hxs & Hall). cbn [dumps]. rewrite Hxs. eexists. split; [done|]. by apply dump_items_text. }
    induction IH as [|[k x] d Hx _ IHd]; [by exists []|]. destruct Hv as (Hk & Hvx & Hvd).
    simpl in Hx. destruct (Hx Hvx) as (y & Hy & Hay). destruct (IHd Hvd) as (ys & Hys & Hays).
    exists ((k, y) :: ys). split; [|by constructor]. rewrite Hy. simpl. by rewrite Hys.
Qed.
End Text.

Lemma dumps_ascii sk an v : value_ascii v → ∃ s, dumps sk an v = Ok s ∧ Forall ascii s.
Proof. apply dumps_text; [done|by intros c []]. Qed.

Definition is_scalar (c : Z) : bool := (0 <=? c) && (c <=? 0x10FFFF) && negb (surrogate c).
Lemma scalar_text s : forallb is_scalar s = true → Forall scalar s.
Proof.
  rewrite forallb_forall, Forall_forall. intros H c Hc%list_elem_of_In. specialize (H c Hc).
  unfold is_scalar in H. unfold scalar. destruct (surrogate c); reflect; done.
Qed.
Lemma ascii_scalar c : ascii c → scalar c.
Proof.
  intros [? ?]. split; [lia|]. unfold surrogate. by rewrite (proj2 (Z.leb_gt 55296 c)) by lia.
Qed.

Lemma utf8_encode_scalar s : Forall scalar s → ∃ b, utf8_encode s = Some b.
Proof.
  induction 1 as [|c s [Hc Hs] _ [b IH]]; [by exists []|]. cbn [utf8_encode]. rewrite IH. unfold utf8_encode_char.
  rewrite Hs, (proj2 (Z.ltb_ge c 0)), (proj2 (Z.ltb_ge 1114111 c)) by lia. cbn [orb]. repeat case_match; eauto.
Qed.

(** Text without surrogates always serializes. *)
Lemma dump_bytes_text sk an v : value_text scalar v → ∃ b, dump_bytes sk an v = Ok b.
Proof.
  intros Hv. destruct (dumps_text scalar) with (sk := sk) (an := an) (v := v) as (s & Hs & Ha); [apply ascii_scalar|by intros c [[]]|done|].
  apply utf8_encode_scalar in Ha as [b Hb]. exists b. unfold dump_bytes. rewrite Hs. cbn [mbind result_bind]. by rewrite Hb.
Qed.

Lemma dump_bytes_ascii sk an v : value_ascii v → ∃ b, dump_bytes sk an v = Ok b ∧ Forall ascii b.
Proof.
  intros (s & Hs & Ha)%(dumps_ascii sk an). exists s. split; [|done].
  unfold dump_bytes. rewrite Hs. simpl. by rewrite utf8_encode_ascii.
Qed.

(** A machine integer has few digits. *)
Lemma small_int_ascii z : Z.abs z < 2 ^ 64 → value_ascii (VInt z).
Proof.
  intros Hz. simpl. etransitivity; [apply len_digits; lia|].
  assert (Z.log2 (Z.abs z) <= 64) by (destruct (decide (Z.abs z = 0)) as [->|]; [done|];
    apply Z.lt_le_incl, Z.log2_lt_pow2; lia).
  unfold MAX_STR_DIGITS. lia.
Qed.
