(* ===== verification/JsonParse.v ===== *)
(** * [json.loads] with an [object_pairs_hook]

    The decoder in front of every protocol handler: the C scanner of the
    [json] module, strict mode, on a string.  The hook builds each object from
    its list of pairs; the program's hooks refuse repeated names.  Recursion
    depth is not modelled.  [None] is the model running out of fuel, which
    [parse_terminates] excludes. *)
From S2P Require Import Prelude Dict Value Json.

(** ** Lexical scanners *)

Definition json_space (c : Z) : bool := (c =? 32) || (c =? 9) || (c =? 10) || (c =? 13).
Fixpoint skip_ws (s : pystr) : pystr :=
  match s with
  | c :: s' => if json_space c then skip_ws s' else s
  | [] => []
  end.

Definition hex_value (c : Z) : option Z :=
  if (48 <=? c) && (c <=? 57) then Some (c - 48)
  else if (97 <=? c) && (c <=? 102) then Some (c - 87)
  else if (65 <=? c) && (c <=? 70) then Some (c - 55)
  else None.
Definition hex4 (a b c d : Z) : option Z :=
  match hex_value a, hex_value b, hex_value c, hex_value d with
  | Some a, Some b, Some c, Some d => Some (((a * 16 + b) * 16 + c) * 16 + d)
  | _, _, _, _ => None
  end.
Definition high_surrogate (c : Z) : bool := (0xD800 <=? c) && (c <=? 0xDBFF).
Definition low_surrogate (c : Z) : bool := (0xDC00 <=? c) && (c <=? 0xDFFF).
Definition join_surrogates (h l : Z) : Z := 0x10000 + (h - 0xD800) * 1024 + (l - 0xDC00).

(** The one-letter escapes. *)
Definition simple_escape (x : Z) : option Z :=
  if (x =? 34) || (x =? 92) || (x =? 47) then Some x
  else if x =? 98 then Some 8
  else if x =? 102 then Some 12
  else if x =? 110 then Some 10
  else if x =? 114 then Some 13
  else if x =? 116 then Some 9
  else None.

Definition push (c : Z) (r : result (pystr * pystr)) : result (pystr * pystr) :=
  match r with Ok (s, rest) => Ok (c :: s, rest) | Raise e => Raise e end.

(** A string after its opening quote: its characters and what follows the
    closing quote. *)
Fixpoint scan_string (s : pystr) : result (pystr * pystr) :=
  match s with
  | [] => Raise JSONDecodeError
  | c :: r =>
    if c =? 34 then Ok ([], r)
    else if c <=? 31 then Raise JSONDecodeError
    else if negb (c =? 92) then push c (scan_string r)
    else match r with
    | [] => Raise JSONDecodeError
    | x :: r1 =>
      if negb (x =? 117) then
        match simple_escape x with
        | Some y => push y (scan_string r1)
        | None => Raise JSONDecodeError
        end
      else match r1 with
      | a :: b :: c :: d :: r2 =>
        match hex4 a b c d with
        | None => Raise JSONDecodeError
        | Some n =>
          if high_surrogate n then
            match r2 with
            | p :: q :: e :: f :: g :: h :: r3 =>
              if (p =? 92) && (q =? 117) then
                match hex4 e f g h with
                | None => Raise JSONDecodeError
                | Some n2 =>
                  if low_surrogate n2 then push (join_surrogates n n2) (scan_string r3)
                  else push n (scan_string r2)
                end
              else push n (scan_string r2)
            | _ => push n (scan_string r2)
            end
          else push n (scan_string r2)
        end
      | _ => Raise JSONDecodeError
      end
    end
  end.

(** The longest prefix of ASCII digits, and the rest. *)
Fixpoint take_digits (s : pystr) : pystr * pystr :=
  match s with
  | c :: s' => if ascii_digit c then let '(ds, r) := take_digits s' in (c :: ds, r) else ([], s)
  | [] => ([], [])
  end.
Definition digits_value (ds : pystr) : Z := foldl (λ n c, n * 10 + (c - 48)) 0 ds.

(** ** Floats: the double nearest to [d * 10^k], ties to even *)
Definition round_ratio (neg : bool) (n den : Z) : pyfloat :=
  let e0 := Z.log2 n - Z.log2 den in
  (* n / den lies between 2^l and 2^(l+1) *)
  let l := if den * 2 ^ Z.max 0 e0 <=? n * 2 ^ Z.max 0 (- e0) then e0 else e0 - 1 in
  let q := Z.max (l - 52) (-1074) in
  let num := n * 2 ^ Z.max 0 (- q) in
  let d := den * 2 ^ Z.max 0 q in
  let m := num / d in
  let r := num mod d in
  let m := if (d <? 2 * r) || ((2 * r =? d) && negb (Z.even m)) then m + 1 else m in
  let '(m, q) := if m =? 2 ^ 53 then (2 ^ 52, q + 1) else (m, q) in
  if 971 <? q then FInf neg else FFin neg m q.

Definition decimal_float (neg : bool) (ds : pystr) (k : Z) : pyfloat :=
  let d := digits_value ds in
  if d =? 0 then FFin neg 0 0
  else if 310 <? len ds + k then
    (* leading zeros do not count towards the magnitude *)
    if 310 <? len (digits d) + k then FInf neg
    else round_ratio neg (d * 10 ^ Z.max 0 k) (10 ^ Z.max 0 (- k))
  else if len ds + k <? -330 then FFin neg 0 0
  else round_ratio neg (d * 10 ^ Z.max 0 k) (10 ^ Z.max 0 (- k)).

(** ** Numbers *)

Definition scan_fraction (s : pystr) : pystr * pystr :=
  match s with
  | p :: c :: _ => if (p =? 46) && ascii_digit c then take_digits (tail s) else ([], s)
  | _ => ([], s)
  end.
(** The exponent digits with their sign, when there is a whole exponent. *)
Definition scan_exponent (s : pystr) : option (bool * pystr) * pystr :=
  match s with
  | e :: r =>
    if (e =? 101) || (e =? 69) then
      let '(neg, r1) := match r with
                        | c :: r' => if c =? 45 then (true, r') else if c =? 43 then (false, r') else (false, r)
                        | [] => (false, r)
                        end in
      let '(ds, r2) := take_digits r1 in
      if nonempty ds then (Some (neg, ds), r2) else (None, s)
    else (None, s)
  | [] => (None, s)
  end.

Definition scan_number (s : pystr) : result (value * pystr) :=
  let '(neg, r) := match s with c :: r => if c =? 45 then (true, r) else (false, s) | [] => (false, s) end in
  let '(ds, r1) := match r with c :: r' => if c =? 48 then ([48], r') else take_digits r | [] => ([], r) end in
  if negb (nonempty ds) then Raise JSONDecodeError
  else
    let '(fs, r2) := scan_fraction r1 in
    let '(ex, r3) := scan_exponent r2 in
    match fs, ex with
    | [], None =>
      if MAX_STR_DIGITS <? len ds then Raise ValueError
      else Ok (VInt (if neg : bool then - digits_value ds else digits_value ds), r3)
    | _, _ =>
      let k := match ex with
               | Some (eneg, es) => if eneg : bool then - digits_value es else digits_value es
               | None => 0
               end in
      Ok (VFloat (decimal_float neg (ds ++ fs) (k - len fs)), r3)
    end.

(** [s] starts with the literal: what follows it. *)
Fixpoint after_prefix (p s : pystr) : option pystr :=
  match p, s with
  | [], _ => Some s
  | c :: p', x :: s' => if c =? x then after_prefix p' s' else None
  | _ :: _, [] => None
  end.

Definition CONSTANTS : list (literal * value) :=
  [("null", VNone); ("true", VBool true); ("false", VBool false); ("NaN", VFloat FNan);
   ("Infinity", VFloat (FInf false)); ("-Infinity", VFloat (FInf true))]%string.
Fixpoint scan_constant (cs : list (literal * value)) (s : pystr) : option (value * pystr) :=
  match cs with
  | [] => None
  | (lit, v) :: cs' =>
    match after_prefix (u lit) s with
    | Some r => Some (v, r)
    | None => scan_constant cs' s
    end
  end.

(** ** Values *)

Section Loads.
Context (hook : list (pystr * value) → result object).

Definition parsing (A : Type) : Type := option (result A).
Definition pok {A} (a : A) : parsing A := Some (Ok a).
Definition pfail {A} : parsing A := Some (Raise JSONDecodeError).
Definition pbind {A B} (m : parsing A) (k : A → parsing B) : parsing B :=
  match m with
  | Some (Ok a) => k a
  | Some (Raise e) => Some (Raise e)
  | None => None
  end.

Definition close_object (pairs : list (pystr * value)) (r : pystr) : parsing (value * pystr) :=
  Some (d ← hook pairs; Ok (VDict d, r)).

Fixpoint parse_value (fuel : nat) (s : pystr) : parsing (value * pystr) :=
  match fuel with
  | O => None
  | S f =>
    match s with
    | [] => pfail
    | c :: r =>
      if c =? 34 then Some ('(str, r1) ← scan_string r; Ok (VStr str, r1))
      else if c =? 123 then
        match skip_ws r with
        | c1 :: r1 => if c1 =? 125 then close_object [] r1 else parse_members f [] (c1 :: r1)
        | [] => pfail
        end
      else if c =? 91 then
        match skip_ws r with
        | c1 :: r1 => if c1 =? 93 then pok (VList [], r1) else parse_elements f [] (c1 :: r1)
        | [] => pfail
        end
      else match scan_constant CONSTANTS s with
           | Some out => pok out
           | None => Some (scan_number s)
           end
    end
  end
with parse_members (fuel : nat) (acc : list (pystr * value)) (s : pystr) : parsing (value * pystr) :=
  match fuel with
  | O => None
  | S f =>
    match s with
    | [] => pfail
    | c :: r =>
      if negb (c =? 34) then pfail
      else pbind (Some (scan_string r)) (λ kr,
        match skip_ws kr.2 with
        | c1 :: r1 =>
          if negb (c1 =? 58) then pfail
          else pbind (parse_value f (skip_ws r1)) (λ vr,
            match skip_ws vr.2 with
            | c2 :: r2 =>
              if c2 =? 125 then close_object (acc ++ [(kr.1, vr.1)]) r2
              else if c2 =? 44 then parse_members f (acc ++ [(kr.1, vr.1)]) (skip_ws r2)
              else pfail
            | [] => pfail
            end)
        | [] => pfail
        end)
    end
  end
with parse_elements (fuel : nat) (acc : list value) (s : pystr) : parsing (value * pystr) :=
  match fuel with
  | O => None
  | S f =>
    pbind (parse_value f s) (λ vr,
      match skip_ws vr.2 with
      | c2 :: r2 =>
        if c2 =? 93 then pok (VList (acc ++ [vr.1]), r2)
        else if c2 =? 44 then parse_elements f (acc ++ [vr.1]) (skip_ws r2)
        else pfail
      | [] => pfail
      end)
  end.

(** A document: a value between white space, and nothing else; a byte order
    mark is refused. *)
Definition parse_document (s : pystr) : parsing value :=
  match s with
  | c :: _ => if c =? 0xFEFF then pfail else
    let s := skip_ws s in
    pbind (parse_value (2 * length s + 1) s) (λ vr,
      match skip_ws vr.2 with [] => pok vr.1 | _ => pfail end)
  | [] => pfail
  end.

(** [json.loads(s, object_pairs_hook=hook)] *)
Definition loads (s : pystr) : result value :=
  match parse_document s with Some r => r | None => Raise RuntimeError end.

(** [json.loads(b.decode("utf-8"), object_pairs_hook=hook)] *)
Definition loads_utf8 (b : bytes) : result value :=
  match utf8_decode b with Some s => loads s | None => Raise UnicodeDecodeError end.
End Loads.

(** The hooks of the program: [raise e] at the first repeated name. *)
Fixpoint reject_duplicates (e : exn) (pairs : list (pystr * value)) (d : object) : result object :=
  match pairs with
  | [] => Ok d
  | (k, v) :: pairs' => if dmem k d then Raise e else reject_duplicates e pairs' (dset k v d)
  end.

(** [json.loads(s)] without a hook: the last of repeated names wins. *)
Definition keep_last (pairs : list (pystr * value)) : result object :=
  Ok (foldl (λ d kv, dset kv.1 kv.2 d) [] pairs).

(** ** What the scanners consume *)

Lemma skip_ws_suffix s : ∃ p, s = p ++ skip_ws s.
Proof.
  induction s as [|c s [p IH]]; [by exists []|]. simpl. destruct (json_space c); [|by exists []].
  exists (c :: p). simpl. by f_equal.
Qed.

Lemma skip_ws_length s : (length (skip_ws s) <= length s)%nat.
Proof. destruct (skip_ws_suffix s) as [p Hp]. rewrite Hp at 2. rewrite length_app. lia. Qed.

Lemma take_digits_split s ds r :
  take_digits s = (ds, r) → s = ds ++ r ∧ Forall (λ c, ascii_digit c = true) ds.
Proof.
  revert ds r. induction s as [|c s IH]; intros ds r; simpl; [by intros [= <- <-]|].
  destruct (ascii_digit c) eqn:E; [|by intros [= <- <-]]. destruct (take_digits s) as [ds' r'].
  intros [= <- <-]. destruct (IH ds' r' eq_refl) as [-> ?]. split; [done|by constructor].
Qed.

Lemma after_prefix_app p s r : after_prefix p s = Some r ↔ s = p ++ r.
Proof.
  revert s. induction p as [|c p IH]; intros s; simpl; [split; congruence|].
  destruct s as [|x s]; [done|]. destruct (c =? x) eqn:E; reflect.
  - subst. rewrite IH. split; congruence.
  - split; congruence.
Qed.

Section Shorter.
Context (P : exn → Prop) (HJ : P JSONDecodeError) (HV : P ValueError).

(** A scan leaves strictly less text, or raises one of [P]. *)
Definition shorter {A} (n : nat) (m : parsing (A * pystr)) : Prop :=
  match m with
  | None => False
  | Some (Ok (_, r)) => (length r < n)%nat
  | Some (Raise e) => P e
  end.

Lemma shorter_pfail {A} n : shorter n (pfail : parsing (A * pystr)).
Proof using HJ. done. Qed.

Lemma push_shorter n c m : shorter n (Some m) → shorter n (Some (push c m)).
Proof. by destruct m as [[]|]. Qed.

Lemma shorter_le {A} n n' (m : parsing (A * pystr)) : (n <= n')%nat → shorter n m → shorter n' m.
Proof. destruct m as [[[? ?]|]|]; simpl; try done. lia. Qed.

Lemma scan_string_shorter s : shorter (length s) (Some (scan_string s)).
Proof using HJ.
  remember (length s) as n eqn:Hn. revert s Hn. induction (lt_wf n) as [n _ IH]; intros s ->.
  assert (∀ c r, (length r < length s)%nat → shorter (length s) (Some (push c (scan_string r)))) as Hpush.
  { intros c r Hr. apply push_shorter, (shorter_le (length r)); [lia|]. by eapply IH. }
  destruct s as [|c r]; [done|]. cbn [scan_string].
  repeat first [ apply shorter_pfail | apply Hpush; simpl; lia | simpl; lia | case_match; simplify_eq ].
Qed.

Lemma scan_constant_shorter s v r : scan_constant CONSTANTS s = Some (v, r) → (length r < length s)%nat.
Proof.
  unfold CONSTANTS. cbn [scan_constant].
  repeat match goal with
  | |- context [after_prefix ?p s] => destruct (after_prefix p s) eqn:E;
      [apply after_prefix_app in E as ->; intros [= _ <-]; rewrite length_app; simpl; lia|clear E]
  end.
  done.
Qed.

Lemma scan_number_shorter s : shorter (length s) (Some (scan_number s)).
Proof using HJ HV.
  unfold scan_number.
  destruct (match s with [] => _ | _ => _ end) as [neg r] eqn:Es.
  assert (length r <= length s)%nat as Hr by (destruct s as [|c s]; [|destruct (c =? 45)]; simplify_eq; simpl; lia).
  destruct (match r with [] => _ | _ => _ end) as [ds r1] eqn:Er.
  destruct (nonempty ds) eqn:Eds; [|done]. cbn [negb].
  assert (length r1 < length r)%nat as Hr1.
  { destruct r as [|c r']; [simplify_eq|]. destruct (c =? 48); [simplify_eq; simpl; lia|].
    apply take_digits_split in Er as [-> _]. rewrite length_app. destruct ds; [done|]. simpl. lia. }
  destruct (scan_fraction r1) as [fs r2] eqn:Ef.
  assert (length r2 <= length r1)%nat as Hr2.
  { unfold scan_fraction in Ef. destruct r1 as [|p [|c r1]]; simplify_eq; try done.
    destruct (_ && _); simplify_eq; [|done]. apply take_digits_split in Ef as [Ef _].
    apply (f_equal length) in Ef. rewrite length_app in Ef. simpl in *. lia. }
  destruct (scan_exponent r2) as [ex r3] eqn:Ex.
  assert (length r3 <= length r2)%nat as Hr3.
  { unfold scan_exponent in Ex. destruct r2 as [|e r0]; simplify_eq; [done|].
    destruct (_ || _); [|by simplify_eq].
    destruct (match r0 with [] => _ | _ => _ end) as [en r4] eqn:E4.
    assert (length r4 <= length r0)%nat
      by (destruct r0 as [|c r5]; [|destruct (c =? 45); [|destruct (c =? 43)]]; simplify_eq; simpl; lia).
    destruct (take_digits r4) as [ds' r5] eqn:E5. apply take_digits_split in E5 as [-> _].
    destruct (nonempty ds'); simplify_eq; [|done]. rewrite length_app in *. simpl. lia. }
  unfold shorter. repeat case_match; simplify_eq; try done; lia.
Qed.

Context (hook : list (pystr * value) → result object) (Hhook : ∀ pairs, raises_only P (hook pairs)).
Abbreviation parse_value := (parse_value hook).
Abbreviation parse_members := (parse_members hook).
Abbreviation parse_elements := (parse_elements hook).

Lemma pbind_shorter {A B} n n' (m : parsing (A * pystr)) (k : A * pystr → parsing (B * pystr)) :
  shorter n m → (∀ a r, (length r < n)%nat → shorter n' (k (a, r))) → shorter n' (pbind m k).
Proof using Type. destruct m as [[[a r]|e]|]; simpl; auto. Qed.

Lemma close_object_shorter n pairs r : (length r < n)%nat → shorter n (close_object hook pairs r).
Proof using Hhook.
  intros. unfold close_object. specialize (Hhook pairs). destruct (hook pairs); [done|by apply Hhook].
Qed.

(** Twice the length of the text is fuel enough, and every parser consumes. *)
Lemma parse_shorter f :
  (∀ s, (2 * length s < f)%nat → shorter (length s) (parse_value f s)) ∧
  (∀ acc s, (2 * length s < f)%nat → shorter (length s) (parse_members f acc s)) ∧
  (∀ acc s, (2 * length s + 1 < f)%nat → shorter (length s) (parse_elements f acc s)).
Proof using HJ HV Hhook.
  induction f as [|f (IHv & IHm & IHe)]; [split_and!; intros; lia|]. split_and!.
  - intros [|c r] Hf; [done|]. cbn [JsonParse.parse_value]. simpl in Hf.
    destruct (c =? 34).
    { pose proof (scan_string_shorter r) as Hs. destruct (scan_string r) as [[str r1]|]; [|done]. simpl in *. lia. }
    pose proof (skip_ws_length r) as Hw. destruct (c =? 123); [|destruct (c =? 91)].
    + destruct (skip_ws r) as [|c1 r1]; [done|]. simpl in Hw.
      destruct (c1 =? 125); [apply close_object_shorter; simpl; lia|].
      apply (shorter_le (length (c1 :: r1))); [simpl; lia|]. apply IHm. simpl. lia.
    + destruct (skip_ws r) as [|c1 r1]; [done|]. simpl in Hw. destruct (c1 =? 93); [simpl; lia|].
      apply (shorter_le (length (c1 :: r1))); [simpl; lia|]. apply IHe. simpl. lia.
    + destruct (scan_constant CONSTANTS (c :: r)) as [[v r1]|] eqn:E.
      * by apply scan_constant_shorter in E.
      * apply scan_number_shorter.
  - intros acc [|c r] Hf; [done|]. cbn [JsonParse.parse_members]. simpl in Hf.
    destruct (negb (c =? 34)); [done|].
    apply (pbind_shorter (length r)); [apply scan_string_shorter|]. intros k r1 Hr1. cbn [fst snd].
    pose proof (skip_ws_length r1). destruct (skip_ws r1) as [|c1 r2]; [done|]. simpl in *.
    destruct (negb (c1 =? 58)); [done|]. pose proof (skip_ws_length r2).
    apply (pbind_shorter (length (skip_ws r2))); [apply IHv; lia|]. intros v r3 Hr3. cbn [fst snd].
    pose proof (skip_ws_length r3). destruct (skip_ws r3) as [|c2 r4]; [done|]. simpl in *.
    destruct (c2 =? 125); [apply close_object_shorter; lia|]. destruct (c2 =? 44); [|done].
    pose proof (skip_ws_length r4). apply (shorter_le (length (skip_ws r4))); [lia|]. apply IHm. lia.
  - intros acc s Hf. cbn [JsonParse.parse_elements].
    apply (pbind_shorter (length s)); [apply IHv; lia|]. intros v r Hr. cbn [fst snd].
    pose proof (skip_ws_length r). destruct (skip_ws r) as [|c2 r2]; [done|]. simpl in *.
    destruct (c2 =? 93); [simpl; lia|]. destruct (c2 =? 44); [|done].
    pose proof (skip_ws_length r2). apply (shorter_le (length (skip_ws r2))); [lia|]. apply IHe. lia.
Qed.

Lemma parse_document_ends s : ∃ r, parse_document hook s = Some r ∧ raises_only P r.
Proof using HJ HV Hhook.
  unfold parse_document. destruct s as [|c s]; [by exists (Raise JSONDecodeError); split; [|intros e [= <-]]|].
  destruct (c =? 65279); [by exists (Raise JSONDecodeError); split; [|intros e [= <-]]|].
  set (t := skip_ws (c :: s)). cbn zeta.
  assert (shorter (length t) (parse_value (2 * length t + 1) t)) as Hs by (apply parse_shorter; lia).
  destruct (parse_value _ _) as [[[v r]|e]|]; simpl in *; [| |done].
  - destruct (skip_ws r); eexists; (split; [done|]); by intros e [= <-].
  - eexists. split; [done|]. by intros e' [= <-].
Qed.

(** [loads] raises what the scanner and the hook raise. *)
Lemma loads_raises s : raises_only P (loads hook s).
Proof using HJ HV Hhook. unfold loads. by destruct (parse_document_ends s) as (r & -> & ?). Qed.
End Shorter.

(** Decoding always ends: on every text and for every hook the fuel the
    decoder starts with is enough, and [loads] is the value or the error the
    scanner produces. *)
Lemma parse_terminates hook s : ∃ r, parse_document hook s = Some r ∧ loads hook s = r.
Proof.
  destruct (parse_document_ends (λ _, True) Logic.I Logic.I hook) with (s := s) as (r & Hr & _); [done|].
  exists r. split; [done|]. unfold loads. by rewrite Hr.
Qed.

Lemma reject_duplicates_raises e pairs d : raises_only (λ x, x = e) (reject_duplicates e pairs d).
Proof.
  revert d. induction pairs as [|[k v] pairs IH]; intros d; simpl; [done|].
  destruct (dmem k d); [by intros x [= <-]|apply IH].
Qed.
