(* ===== verification/JsonRoundtrip.v ===== *)
(** * [json.loads] inverts [json.dumps]

    Every float-free value the serializer prints is read back unchanged: what
    one end of a channel writes is what the other end works on.  Floats are
    excluded because the shortest-decimal printer is not proved to invert the
    reader. *)
From S2P Require Import Prelude Dict Value Json JsonParse.

(** ** Decimal integers *)

Lemma digits_value_snoc ds c : digits_value (ds ++ [c]) = digits_value ds * 10 + (c - 48).
Proof. unfold digits_value. by rewrite foldl_app. Qed.

(** No leading zero but in [0] itself. *)
Definition numeral (n : Z) (ds : pystr) : Prop :=
  Forall (λ c, ascii_digit c = true) ds ∧ digits_value ds = n ∧
  match ds with [] => False | c :: ds' => c = 48 → ds' = [] end.

Lemma numeral_snoc n ds :
  0 < n → numeral n ds → ∀ c, ascii_digit c = true → numeral (n * 10 + (c - 48)) (ds ++ [c]).
Proof.
  intros Hn (Hd & Hv & Hh) c Hc. split_and!.
  - apply Forall_app. split; [done|by apply Forall_singleton].
  - by rewrite digits_value_snoc, Hv.
  - destruct ds as [|c0 ds]; [done|]. simpl. intros H48. rewrite (Hh H48) in Hv.
    subst. unfold digits_value in Hn. simpl in Hn. lia.
Qed.

Lemma digits_fuel_numeral f n acc :
  0 <= n < 2 ^ Z.of_nat f → (1 <= f)%nat → ∃ ds, digits_fuel f n acc = ds ++ acc ∧ numeral n ds.
Proof.
  revert n acc. induction f as [|f IH]; intros n acc Hn Hf; [lia|]. cbn [digits_fuel].
  assert (ascii_digit (48 + n mod 10) = true) as Hdig by (unfold ascii_digit; lia).
  destruct (n <? 10) eqn:E; reflect.
  - exists [48 + n mod 10]. split; [done|]. split_and!; [by apply Forall_singleton| |done].
    unfold digits_value. simpl. lia.
  - rewrite Nat2Z.inj_succ, Z.pow_succ_r in Hn by lia.
    assert (0 < 2 ^ Z.of_nat f) by lia.
    destruct f as [|f']; [simpl in *; lia|].
    destruct (IH (n / 10) ((48 + n mod 10) :: acc)) as (ds & -> & Hds); [lia|lia|].
    exists (ds ++ [48 + n mod 10]). split; [by rewrite <- app_assoc|].
    replace n with (n / 10 * 10 + (48 + n mod 10 - 48)) at 1 by lia. apply numeral_snoc; [lia|done|done].
Qed.

Lemma digits_numeral n : 0 <= n → numeral n (digits n).
Proof.
  intros Hn. unfold digits.
  destruct (digits_fuel_numeral (S (Z.to_nat (Z.log2 n))) n []) as (ds & -> & H); [|lia|by rewrite app_nil_r].
  split; [done|]. pose proof (Z.log2_nonneg n). rewrite Nat2Z.inj_succ, Z2Nat.id by done.
  destruct (decide (n = 0)) as [->|]; [done|]. apply Z.log2_spec. lia.
Qed.

(** A text that ends a value: nothing, a comma, a closing bracket or the end of
    the line. *)
Definition ends (s : pystr) : Prop :=
  match s with [] => True | c :: _ => c = 44 ∨ c = 93 ∨ c = 125 ∨ c = 10 end.

Lemma take_digits_app ds r :
  Forall (λ c, ascii_digit c = true) ds → ends r → take_digits (ds ++ r) = (ds, r).
Proof.
  intros Hd Hr. induction Hd as [|c ds Hc _ IH]; cbn [app take_digits].
  - destruct r as [|c r]; [done|]. by destruct Hr as [->|[->|[->| ->]]].
  - by rewrite Hc, IH.
Qed.

Lemma scan_fraction_ends rest : ends rest → scan_fraction rest = ([], rest).
Proof. destruct rest as [|c [|c' rest]]; [done..|]. by intros [->|[->|[->| ->]]]. Qed.

Lemma scan_exponent_ends rest : ends rest → scan_exponent rest = (None, rest).
Proof. destruct rest as [|c rest]; [done|]. by intros [->|[->|[->| ->]]]. Qed.

(** The digits of a numeral, after an optional sign. *)
Lemma scan_digits n ds rest :
  numeral n ds → ends rest →
  match ds ++ rest with c :: r' => if c =? 48 then ([48], r') else take_digits (ds ++ rest) | [] => ([], ds ++ rest) end
  = (ds, rest).
Proof.
  intros (Hd & _ & Hh) Hr. destruct ds as [|c ds]; [done|]. cbn [app].
  destruct (c =? 48) eqn:E; reflect.
  - by rewrite (Hh E), E.
  - by apply (take_digits_app (c :: ds)).
Qed.

Lemma scan_number_int z s rest :
  int_repr z = Ok s → ends rest → scan_number (s ++ rest) = Ok (VInt z, rest).
Proof.
  unfold int_repr. pose proof (digits_numeral (Z.abs z) ltac:(lia)) as Hn. set (ds := digits (Z.abs z)) in *.
  destruct (MAX_STR_DIGITS <? len ds) eqn:El; [done|]. intros [= <-] Hr.
  assert (ds ≠ [] ∧ ∀ c ds', ds = c :: ds' → (c =? 45) = false) as [Hne H45].
  { destruct Hn as (Hd & _ & Hh). split; [by intros ->|]. intros c ds' ->. inversion Hd as [|? ? Hc]; subst.
    unfold ascii_digit in Hc. lia. }
  unfold scan_number. destruct (z <? 0) eqn:Ez; [apply Z.ltb_lt in Ez|apply Z.ltb_ge in Ez].
  - cbn [app]. rewrite Z.eqb_refl, (scan_digits _ _ _ Hn Hr), (proj2 (nonempty_ne ds)) by done. cbn [negb].
    rewrite scan_fraction_ends, scan_exponent_ends, El by done.
    destruct Hn as (_ & -> & _). do 3 f_equal. lia.
  - pose proof (scan_digits _ _ rest Hn Hr) as Hs. destruct ds as [|c ds'] eqn:Eds; [done|].
    cbn [app] in *. rewrite (H45 c ds' eq_refl), Hs. cbn [nonempty negb].
    rewrite scan_fraction_ends, scan_exponent_ends, El by done.
    destruct Hn as (_ & -> & _). do 3 f_equal. lia.
Qed.

(** ** Strings *)

Lemma hex_control c :
  0 <= c < 32 → hex4 48 48 (hex_digit (c / 16)) (hex_digit (c mod 16)) = Some c ∧ high_surrogate c = false.
Proof.
  intros Hc. split; [|unfold high_surrogate; lia].
  assert (∀ x, 0 <= x < 16 → hex_value (hex_digit x) = Some x) as Hx.
  { intros x Hx. unfold hex_digit, hex_value. repeat (case_match; reflect); try lia; f_equal; lia. }
  unfold hex4. rewrite !Hx by lia. cbn. f_equal. lia.
Qed.

Lemma scan_escaped c s k r :
  0 <= c → scan_string s = Ok (k, r) → scan_string (escape_char c ++ s) = Ok (c :: k, r).
Proof.
  intros Hc Hs. unfold escape_char.
  repeat match goal with
  | |- context [c =? ?x] => destruct (c =? x) eqn:?; [reflect; subst; cbn; by rewrite Hs|]
  end.
  destruct (c <? 32) eqn:E; reflect.
  - destruct (hex_control c) as [H4 Hh]; [lia|].
    cbn [app scan_string]. cbn [Z.eqb Z.leb Z.compare Pos.compare Pos.compare_cont Pos.eqb negb]. by rewrite H4, Hh, Hs.
  - cbn [app scan_string]. rewrite (proj2 (Z.eqb_neq c 34)), (proj2 (Z.eqb_neq c 92)), (proj2 (Z.leb_gt c 31)) by lia.
    cbn [negb]. by rewrite Hs.
Qed.

(** A string is read back whatever follows its closing quote. *)
Lemma scan_dump_str s rest :
  Forall (λ c, 0 <= c) s → scan_string (concat (escape_char <$> s) ++ [34] ++ rest) = Ok (s, rest).
Proof.
  induction 1 as [|c s Hc _ IH]; [done|]. csimpl. rewrite <- app_assoc. by apply scan_escaped.
Qed.

(** ** Values *)

(** No floats, strings of code points, and no repeated name. *)
Fixpoint plain (v : value) : Prop :=
  match v with
  | VFloat _ => False
  | VStr s => Forall (λ c, 0 <= c) s
  | VList l => (fix go l := match l with [] => True | x :: l' => plain x ∧ go l' end) l
  | VDict d =>
    dwf d ∧ (fix go d := match d with [] => True | (k, x) :: d' => Forall (λ c, 0 <= c) k ∧ plain x ∧ go d' end) d
  | _ => True
  end.

Lemma plain_list l : plain (VList l) → Forall plain l.
Proof. simpl. induction l as [|x l IH]; [by constructor|]. intros [? ?]. constructor; auto. Qed.

Lemma plain_dict d : plain (VDict d) → dwf d ∧ Forall (λ kv, Forall (λ c, 0 <= c) kv.1 ∧ plain kv.2) d.
Proof.
  intros [Hwf Hd]. split; [done|]. clear Hwf. induction d as [|[k x] d IH]; [by constructor|].
  destruct Hd as (? & ? & ?). constructor; auto.
Qed.

Lemma dumps_list sk an l t :
  dumps sk an (VList l) = Ok t →
  ∃ ts, Forall2 (λ x t, dumps sk an x = Ok t) l ts ∧ t = [91] ++ join 44 ts ++ [93].
Proof.
  cbn [dumps]. unfold mbind, result_bind. case_match eqn:E; [|done]. intros [= <-].
  eexists. split; [|done]. rename a into ts. revert ts E. induction l as [|x l IH]; intros ts; [by intros [= <-]|].
  destruct (dumps sk an x) eqn:Ex; [|done]. case_match eqn:El; [|done]. intros [= <-]. constructor; [done|]. by apply IH.
Qed.

Lemma dumps_dict an d t :
  dumps false an (VDict d) = Ok t →
  ∃ ts, Forall2 (λ kv kt, kt.1 = kv.1 ∧ dumps false an kv.2 = Ok kt.2) d ts ∧
    t = [123] ++ join 44 ((λ kt, dump_str kt.1 ++ [58] ++ kt.2) <$> ts) ++ [125].
Proof.
  cbn [dumps]. unfold mbind, result_bind. case_match eqn:E; [|done]. intros [= <-].
  eexists. split; [|done]. rename a into ts. revert ts E. induction d as [|[k x] d IH]; intros ts; [by intros [= <-]|].
  destruct (dumps false an x) eqn:Ex; [|done]. case_match eqn:El; [|done]. intros [= <-].
  constructor; [done|]. by apply IH.
Qed.

Section Read.
Context (hook : list (pystr * value) → result object) (Hhook : ∀ d, dwf d → hook d = Ok d).
Context (allow_nan : bool).
Abbreviation dumps := (dumps false allow_nan).

(** The first character of a serialized value. *)
Definition opens (c : Z) : Prop := json_space c = false ∧ c ≠ 93 ∧ c ≠ 125 ∧ c ≠ 0xFEFF.

Lemma dumps_opens v t : dumps v = Ok t → plain v → ∃ c t', t = c :: t' ∧ opens c.
Proof using Type.
  intros Hd Hp. destruct v as [|[]|z|f|s|l|d]; try done.
  - injection Hd as <-. by eexists _, _.
  - injection Hd as <-. by eexists _, _.
  - injection Hd as <-. by eexists _, _.
  - simpl in Hd. unfold int_repr in Hd. destruct (_ <? _); [done|].
    pose proof (digits_numeral (Z.abs z) ltac:(lia)) as (Hds & _ & Hne). destruct (z <? 0); injection Hd as <-.
    + by eexists _, _.
    + destruct (digits (Z.abs z)) as [|c ds]; [done|]. eexists _, _. split; [done|].
      inversion Hds as [|? ? Hc]; subst. unfold ascii_digit, opens, json_space in *. lia.
  - injection Hd as <-. by eexists _, _.
  - apply dumps_list in Hd as (ts & _ & ->). by eexists _, _.
  - apply dumps_dict in Hd as (ts & _ & ->). by eexists _, _.
Qed.

Lemma skip_ws_opens c t : opens c → skip_ws (c :: t) = c :: t.
Proof using Type. intros (H & _). simpl. by rewrite H. Qed.

Lemma skip_ws_ends c t : c = 44 ∨ c = 93 ∨ c = 125 → skip_ws (c :: t) = c :: t.
Proof using Type. by intros [->|[->| ->]]. Qed.

(** [t] is read as [v] wherever it stands. *)
Definition reads (v : value) (t : pystr) : Prop :=
  ∀ f rest, (2 * length t < f)%nat → ends rest → parse_value hook f (t ++ rest) = pok (v, rest).

Lemma join_cons_cons sep t t2 ts : join sep (t :: t2 :: ts) = t ++ sep :: join sep (t2 :: ts).
Proof using Type. done. Qed.

Lemma join_opens c t' ts : ∃ w, join 44 ((c :: t') :: ts) = c :: w.
Proof using Type. destruct ts; by eexists. Qed.

Lemma parse_elements_run l ts acc rest f :
  Forall2 (λ x t, reads x t ∧ ∃ c t', t = c :: t' ∧ opens c) l ts → l ≠ [] →
  (2 * length (join 44 ts) + 1 < f)%nat →
  parse_elements hook f acc (join 44 ts ++ 93 :: rest) = pok (VList (acc ++ l), rest).
Proof using Type.
  intros Hl. revert acc f. induction Hl as [|x t l ts [Hx Ho] Hl IH]; intros acc f Hne Hf; [done|].
  destruct f as [|f]; [lia|]. cbn [parse_elements].
  destruct Hl as [|y t2 l ts [Hy (c & t' & -> & Hc)] Hl].
  - cbn [join] in *. rewrite Hx; [|lia|by right; left]. done.
  - rewrite join_cons_cons in *. rewrite length_app in Hf. cbn [length] in Hf. rewrite <- app_assoc. cbn [app].
    rewrite Hx; [|lia|by left]. cbn [pbind pok fst snd]. rewrite skip_ws_ends by auto. cbn [Z.eqb Pos.eqb].
    specialize (IH (acc ++ [x]) f ltac:(done) ltac:(lia)). rewrite <- app_assoc in IH. cbn [app] in IH. rewrite <- IH.
    destruct (join_opens c t' ts) as [w Hw]. rewrite Hw. cbn [app]. by rewrite skip_ws_opens.
Qed.

Definition dump_member (kt : pystr * pystr) : pystr := dump_str kt.1 ++ [58] ++ kt.2.

(** One [name: value] and what follows it. *)
Lemma member_step k x t acc s f :
  Forall (λ c, 0 <= c) k → reads x t → (∃ c t', t = c :: t' ∧ opens c) → ends s →
  (2 * length (dump_member (k, t)) < S f)%nat →
  parse_members hook (S f) acc (dump_member (k, t) ++ s) =
    match skip_ws s with
    | c2 :: r2 =>
      if c2 =? 125 then close_object hook (acc ++ [(k, x)]) r2
      else if c2 =? 44 then parse_members hook f (acc ++ [(k, x)]) (skip_ws r2) else pfail
    | [] => pfail
    end.
Proof using Type.
  intros Hk Hx (c & t' & -> & Hc) Hs Hf. unfold dump_member, dump_str in *. cbn [fst snd] in *.
  rewrite !length_app in Hf. cbn [length] in Hf.
  cbn [app parse_members]. cbn [Z.eqb Pos.eqb negb]. rewrite <- !app_assoc.
  rewrite scan_dump_str by done. cbn [pbind fst snd app skip_ws json_space Z.eqb Pos.eqb orb negb].
  destruct Hc as [Hc _]. rewrite Hc. change (c :: t' ++ s) with ((c :: t') ++ s). rewrite Hx; [done| |done].
  cbn [length]. lia.
Qed.

Lemma parse_members_run d ts acc rest f :
  Forall2 (λ kv kt, kt.1 = kv.1 ∧ reads kv.2 kt.2 ∧ (∃ c t', kt.2 = c :: t' ∧ opens c) ∧ Forall (λ c, 0 <= c) kv.1) d ts →
  d ≠ [] → (2 * length (join 44 (dump_member <$> ts)) < f)%nat →
  parse_members hook f acc (join 44 (dump_member <$> ts) ++ 125 :: rest) = close_object hook (acc ++ d) rest.
Proof using Type.
  intros Hd. revert acc f. induction Hd as [|[k x] [k' t] d ts (Hk & Hx & Ho & Hks) Hd IH]; intros acc f Hne Hf; [done|].
  cbn [fst snd] in *. subst k'. destruct f as [|f]; [lia|].
  destruct Hd as [|[k2 y] [k2' t2] d ts H2 Hd].
  - cbn [fmap list_fmap join] in *. rewrite (member_step k x); [done..|by right; right; left|lia].
  - rewrite !fmap_cons, join_cons_cons in *. rewrite length_app in Hf. cbn [length] in Hf.
    rewrite <- app_assoc. cbn [app]. rewrite (member_step k x); [|done..|by left|lia].
    rewrite skip_ws_ends by auto. cbn [Z.eqb Pos.eqb].
    specialize (IH (acc ++ [(k, x)]) f ltac:(done) ltac:(lia)). rewrite <- app_assoc in IH. cbn [app] in IH.
    rewrite <- IH. f_equal.
    destruct (join_opens 34 (tail (dump_member (k2', t2))) (dump_member <$> ts)) as [w Hw].
    change (34 :: tail (dump_member (k2', t2))) with (dump_member (k2', t2)) in Hw. by rewrite Hw.
Qed.

Lemma after_prefix_other x p c s : x ≠ c → after_prefix (x :: p) (c :: s) = None.
Proof using Type. intros Hx. simpl. by rewrite (proj2 (Z.eqb_neq x c)). Qed.

(** A literal that starts with another character. *)
Ltac other_prefix :=
  match goal with
  | |- context [after_prefix (u ?lit) (?c :: ?s)] =>
    let p := eval vm_compute in (u lit) in
    change (after_prefix (u lit) (c :: s)) with (after_prefix p (c :: s));
    try rewrite after_prefix_other by lia
  end.

Lemma int_repr_head z t rest :
  int_repr z = Ok t → scan_constant CONSTANTS (t ++ rest) = None ∧
  ∃ c t', t = c :: t' ∧ (c =? 34) = false ∧ (c =? 123) = false ∧ (c =? 91) = false.
Proof using Type.
  unfold int_repr. destruct (_ <? len _); [done|].
  pose proof (digits_numeral (Z.abs z) ltac:(lia)) as (Hds & _ & Hne).
  destruct (digits (Z.abs z)) as [|c ds]; [done|]. inversion Hds as [|? ? Hc _]; subst.
  unfold ascii_digit in Hc. apply andb_prop in Hc as [Hc1%Z.leb_le Hc2%Z.leb_le].
  assert (∀ s, scan_constant CONSTANTS (c :: s) = None ∧ scan_constant CONSTANTS (45 :: c :: s) = None) as Hnone.
  { intros s. unfold CONSTANTS. cbn [scan_constant]. split; repeat other_prefix; try done.
    cbn [after_prefix]. by rewrite Z.eqb_refl, (proj2 (Z.eqb_neq 73 c)) by lia. }
  destruct (z <? 0); intros [= <-]; (split; [apply Hnone|eexists _, _; split; [done|]; split_and!; done || lia]).
Qed.

Lemma Forall2_reads l ts :
  Forall (λ v, ∀ t, plain v → dumps v = Ok t → reads v t) l → Forall plain l →
  Forall2 (λ x t, dumps x = Ok t) l ts → Forall2 (λ x t, reads x t ∧ ∃ c t', t = c :: t' ∧ opens c) l ts.
Proof using Type.
  intros IH Hp Hts. induction Hts as [|x t l ts Hx _ IHts]; [constructor|].
  apply Forall_cons in IH as [Hr IH], Hp as [Hpx Hp]. constructor; [|by apply IHts].
  split; [by apply Hr|by apply (dumps_opens x)].
Qed.

Lemma Forall2_members d ts :
  Forall (λ kv, ∀ t, plain kv.2 → dumps kv.2 = Ok t → reads kv.2 t) d →
  Forall (λ kv, Forall (λ c, 0 <= c) kv.1 ∧ plain kv.2) d →
  Forall2 (λ kv kt, kt.1 = kv.1 ∧ dumps kv.2 = Ok kt.2) d ts →
  Forall2 (λ kv kt, kt.1 = kv.1 ∧ reads kv.2 kt.2 ∧ (∃ c t', kt.2 = c :: t' ∧ opens c) ∧ Forall (λ c, 0 <= c) kv.1) d ts.
Proof using Type.
  intros IH Hp Hts. induction Hts as [|x t l ts [Hk Hx] _ IHts]; [constructor|].
  apply Forall_cons in IH as [Hr IH], Hp as [[Hpk Hpx] Hp]. constructor; [|by apply IHts].
  split_and!; [done|by apply Hr|by apply (dumps_opens x.2)|done].
Qed.

Lemma reads_value v t : plain v → dumps v = Ok t → reads v t.
Proof using Hhook.
  revert t. induction v as [|[]|z|fl|s|l IH|d IH] using value_nested_ind; intros t Hp Hd f rest Hf Hr;
    (destruct f as [|f]; [lia|]).
  - injection Hd as <-. done.
  - injection Hd as <-. done.
  - injection Hd as <-. done.
  - destruct (int_repr_head z t rest Hd) as (Hn & c & t' & -> & H34 & H123 & H91). cbn [app parse_value].
    rewrite H34, H123, H91. cbn [app] in Hn. rewrite Hn.
    pose proof (scan_number_int z (c :: t') rest Hd Hr) as Hs. cbn [app] in Hs. by rewrite Hs.
  - done.
  - injection Hd as <-. unfold dump_str. cbn [app parse_value]. cbn [Z.eqb Pos.eqb].
    rewrite <- app_assoc, scan_dump_str by done. done.
  - apply dumps_list in Hd as (ts & Hts & ->). apply plain_list in Hp.
    pose proof (Forall2_reads l ts IH Hp Hts) as Hall. rewrite !length_app in Hf. cbn [length] in Hf.
    cbn [app parse_value]. cbn [Z.eqb Pos.eqb]. rewrite <- app_assoc. cbn [app].
    destruct (decide (l = [])) as [->|Hne]; [by inversion Hall; subst|].
    pose proof (parse_elements_run l ts [] rest f Hall Hne ltac:(lia)) as Hrun.
    destruct Hall as [|x t l ts [_ (c & t' & -> & Hc)] Hall]; [done|].
    destruct (join_opens c t' ts) as [w Hw]. rewrite Hw in *. cbn [app] in *. rewrite skip_ws_opens by done.
    destruct Hc as (_ & H93 & _). rewrite (proj2 (Z.eqb_neq c 93)) by done. exact Hrun.
  - apply dumps_dict in Hd as (ts & Hts & ->). apply plain_dict in Hp as [Hwf Hp].
    pose proof (Forall2_members d ts IH Hp Hts) as Hall.
    fold dump_member in *. change (λ kt, dump_str kt.1 ++ [58] ++ kt.2) with dump_member in *.
    rewrite !length_app in Hf. cbn [length] in Hf.
    cbn [app parse_value]. cbn [Z.eqb Pos.eqb]. rewrite <- app_assoc. cbn [app].
    destruct (decide (d = [])) as [->|Hne]; [inversion Hall; subst; cbn; unfold close_object; by rewrite Hhook|].
    pose proof (parse_members_run d ts [] rest f Hall Hne ltac:(lia)) as Hrun.
    destruct Hall as [|x kt d ts _ Hall]; [done|]. rewrite fmap_cons in *.
    destruct (join_opens 34 (tail (dump_member kt)) (dump_member <$> ts)) as [w Hw].
    change (34 :: tail (dump_member kt)) with (dump_member kt) in Hw. rewrite Hw in *. cbn [app] in *.
    rewrite skip_ws_opens by done. cbn [Z.eqb Pos.eqb]. rewrite Hrun. unfold close_object. by rewrite Hhook.
Qed.

(** A document, alone or with a newline at its end. *)
Lemma loads_dumps v t w :
  plain v → dumps v = Ok t → w = [] ∨ w = [10] → loads hook (t ++ w) = Ok v.
Proof using Hhook.
  intros Hp Hd Hw. destruct (dumps_opens v t Hd Hp) as (c & t' & Ht & Hc). unfold loads, parse_document.
  assert (ends w ∧ skip_ws w = []) as [He Hs] by (destruct Hw as [->| ->]; simpl; auto).
  pose proof (reads_value v t Hp Hd (2 * length (t ++ w) + 1)%nat w) as Hr.
  rewrite Ht in *. cbn [app] in *. rewrite (proj2 (Z.eqb_neq c 65279)) by apply Hc.
  rewrite skip_ws_opens by done. rewrite Hr; [|simpl; rewrite length_app; lia|done].
  cbn [pbind pok fst snd]. by rewrite Hs.
Qed.
End Read.

(** The hooks accept objects without repeated names, unchanged. *)
Lemma reject_duplicates_wf e pairs d :
  dwf (d ++ pairs) → reject_duplicates e pairs d = Ok (d ++ pairs).
Proof.
  revert d. induction pairs as [|[k v] pairs IH]; intros d Hd; simpl; [by rewrite app_nil_r|].
  assert (dget k d = None) as Hn.
  { apply dget_None. intros Hin. unfold dwf, dkeys in Hd. rewrite fmap_app in Hd.
    apply NoDup_app in Hd as (_ & Hdis & _). apply (Hdis k Hin). rewrite fmap_cons. by left. }
  rewrite (proj2 (dmem_false k d) Hn), dset_fresh by done.
  rewrite IH; by rewrite <- app_assoc.
Qed.

(** ** Sorted keys

    [sort_keys=True] prints the value with the names of every object sorted. *)

Section merge_sort.
Context {A B : Type} (R : relation A) (R' : relation B) `{∀ x y, Decision (R x y)} `{∀ x y, Decision (R' x y)}.
Context (S : A → B → Prop) (HS : ∀ x x' y y', S x x' → S y y' → R x y ↔ R' x' y').

Lemma list_merge_Forall2 l1 l2 k1 k2 :
  Forall2 S l1 k1 → Forall2 S l2 k2 → Forall2 S (list_merge R l1 l2) (list_merge R' k1 k2).
Proof using HS.
  intros H1. revert l2 k2. induction H1 as [|x x' l1 k1 Hx H1 IH1]; intros l2 k2 H2; [by rewrite !list_merge_nil_l|].
  induction H2 as [|y y' l2 k2 Hy H2 IH2]; [rewrite !list_merge_nil_r; by constructor|]. rewrite !list_merge_cons.
  pose proof (HS x x' y y' Hx Hy). repeat case_decide; try tauto; constructor; auto.
Qed.

Definition stack_rel : list (option (list A)) → list (option (list B)) → Prop := Forall2 (option_Forall2 (Forall2 S)).

Lemma merge_list_to_stack_Forall2 st st' l k :
  stack_rel st st' → Forall2 S l k → stack_rel (merge_list_to_stack R st l) (merge_list_to_stack R' st' k).
Proof using HS.
  intros Hst. revert l k. induction Hst as [|[x|] [x'|] st st' Hx Hst IH]; intros l k Hl; simpl;
    [by repeat constructor|inversion Hx; subst..].
  - constructor; [constructor|]. apply IH. by apply list_merge_Forall2.
  - constructor; [by constructor|done].
Qed.

Lemma merge_stack_Forall2 st st' : stack_rel st st' → Forall2 S (merge_stack R st) (merge_stack R' st').
Proof using HS.
  unfold stack_rel. induction 1 as [|[x|] [x'|] st st' Hx Hst IH]; simpl; [constructor| | | |done];
    inversion Hx; subst. by apply list_merge_Forall2.
Qed.

(** Sorting commutes with a map that keeps the order. *)
Lemma merge_sort_Forall2 l k : Forall2 S l k → Forall2 S (merge_sort R l) (merge_sort R' k).
Proof using HS.
  unfold merge_sort. intros Hl. assert (stack_rel [] []) as Hst by constructor.
  revert Hst. generalize (@nil (option (list A))) (@nil (option (list B))).
  induction Hl as [|x x' l k Hx Hl IH]; intros st st' Hst; simpl; [by apply merge_stack_Forall2|].
  apply IH, merge_list_to_stack_Forall2; [done|by repeat constructor].
Qed.
End merge_sort.

Fixpoint sorted_value (v : value) : value :=
  match v with
  | VList l => VList (sorted_value <$> l)
  | VDict d => VDict (merge_sort key_le ((λ kv, (kv.1, sorted_value kv.2)) <$> d))
  | _ => v
  end.

Definition same_key {A B} (x : pystr * A) (y : pystr * B) : Prop := x.1 = y.1.

Lemma same_key_le {A B} (x : pystr * A) (x' : pystr * B) y y' :
  same_key x x' → same_key y y' → key_le x y ↔ key_le x' y'.
Proof. unfold same_key, key_le. by intros -> ->. Qed.

Lemma dumps_items sk an d :
  dumps sk an (VDict d) =
    (items ← traverse (λ kv, t ← dumps sk an kv.2; Ok (kv.1, t)) d; Ok (dump_items sk items)).
Proof.
  cbn [dumps]. f_equal. induction d as [|[k x] d IH]; [done|]. cbn [traverse fst snd]. rewrite IH.
  unfold mbind, result_bind. by destruct (dumps sk an x).
Qed.

Lemma dumps_dict_ok sk an d t :
  dumps sk an (VDict d) = Ok t ↔
  ∃ items, Forall2 (λ kv kt, kv.1 = kt.1 ∧ dumps sk an kv.2 = Ok kt.2) d items ∧ t = dump_items sk items.
Proof.
  rewrite dumps_items. split.
  - unfold mbind at 1, result_bind at 1. case_match eqn:E; [|done]. intros [= <-]. apply traverse_ok in E.
    eexists. split; [|done]. eapply Forall2_impl; [exact E|]. intros kv kt. unfold mbind, result_bind.
    destruct (dumps sk an kv.2); [|done]. by intros [= <-].
  - intros (items & Hi & ->). assert (traverse (λ kv, t ← dumps sk an kv.2; Ok (kv.1, t)) d = Ok items) as ->; [|done].
    apply traverse_ok. eapply Forall2_impl; [exact Hi|]. intros [k x] [k' t] [Hk Ht]. simpl in *. subst. by rewrite Ht.
Qed.

Lemma dumps_list_ok sk an l t :
  dumps sk an (VList l) = Ok t ↔ ∃ ts, Forall2 (λ x t, dumps sk an x = Ok t) l ts ∧ t = [91] ++ join 44 ts ++ [93].
Proof.
  split; [apply dumps_list|]. intros (ts & Hts & ->). cbn [dumps].
  match goal with |- (?m ≫= _) = _ => assert (m = Ok ts) as ->; [|done] end.
  induction Hts as [|x t l ts Hx _ IH]; [done|]. by rewrite Hx, IH.
Qed.

(** Printing with sorted names is printing the sorted value. *)
Lemma dumps_sorted an v t : dumps true an v = Ok t → dumps false an (sorted_value v) = Ok t.
Proof.
  revert t. induction v as [|[]|z|f|s|l IH|d IH] using value_nested_ind; intros t; try done.
  - intros (ts & Hts & ->)%dumps_list_ok. apply dumps_list_ok. exists ts. split; [|done].
    induction Hts as [|x t l ts Hx _ IHts]; [constructor|]. apply Forall_cons in IH as [Hx' IH].
    constructor; auto.
  - intros (items & Hi & ->)%dumps_dict_ok. apply dumps_dict_ok. exists (merge_sort key_le items). split; [|done].
    apply merge_sort_Forall2; [by intros x x' y y' [Hx _] [Hy _]; apply same_key_le|].
    induction Hi as [|[k x] [k' t] d items [Hk Hx] _ IHi]; [constructor|]. apply Forall_cons in IH as [Hx' IH].
    constructor; [|by apply IHi]. split; [done|by apply Hx'].
Qed.

Lemma plain_list_intro l : Forall plain l → plain (VList l).
Proof. induction 1; simpl; [done|by split]. Qed.

Lemma plain_dict_intro d :
  dwf d → Forall (λ kv, Forall (λ c, 0 <= c) kv.1 ∧ plain kv.2) d → plain (VDict d).
Proof.
  intros Hwf Hd. split; [done|]. clear Hwf. induction Hd as [|[k x] d [? ?] _ IH]; [done|]. by split_and!.
Qed.

Lemma plain_sorted v : plain v → plain (sorted_value v).
Proof.
  induction v as [|b|z|f|s|l IH|d IH] using value_nested_ind; try done.
  - intros Hl%plain_list. apply plain_list_intro. rewrite Forall_fmap, Forall_forall in *. intros x Hx. simpl. eauto.
  - intros [Hwf Hd]%plain_dict. apply plain_dict_intro.
    + unfold dwf, dkeys. rewrite (fmap_Permutation fst _ _ (merge_sort_Permutation key_le _)).
      by rewrite <- list_fmap_compose.
    + rewrite merge_sort_Permutation, Forall_fmap, Forall_forall in *. intros kv Hkv. simpl.
      destruct (Hd kv Hkv). split; [done|]. by apply IH.
Qed.

(** Decoding with the program's hooks gives back a printed value, its names in
    the order printed. *)
Lemma loads_dump_text sk e allow_nan v b :
  plain v → dump_bytes sk allow_nan v = Ok b →
  ∃ t, utf8_encode t = Some b ∧ dumps sk allow_nan v = Ok t ∧ ∀ w, w = [] ∨ w = [10] →
    loads (λ pairs, reject_duplicates e pairs []) (t ++ w) = Ok (if sk : bool then sorted_value v else v).
Proof.
  intros Hp Hd. unfold dump_bytes, mbind, result_bind in Hd.
  destruct (dumps sk allow_nan v) as [t|] eqn:Et; [|done].
  destruct (utf8_encode t) as [b'|] eqn:Eb; [|done]. injection Hd as <-.
  exists t. split_and!; [done|done|]. intros w Hw. apply loads_dumps with (allow_nan := allow_nan); [| | |done].
  - intros d Hwf. by apply (reject_duplicates_wf e d []).
  - destruct sk; [by apply plain_sorted|done].
  - destruct sk; [by apply dumps_sorted|done].
Qed.

Lemma loads_utf8_dump sk e allow_nan v b :
  plain v → dump_bytes sk allow_nan v = Ok b →
  loads_utf8 (λ pairs, reject_duplicates e pairs []) b = Ok (if sk : bool then sorted_value v else v).
Proof.
  intros Hp Hd. destruct (loads_dump_text sk e allow_nan v b Hp Hd) as (t & Hb & _ & Hl).
  unfold loads_utf8. rewrite (utf8_roundtrip false t b Hb). specialize (Hl [] (or_introl eq_refl)). by rewrite app_nil_r in Hl.
Qed.

Lemma nonneg_text s : forallb (Z.leb 0) s = true → Forall (λ c, 0 <= c) s.
Proof. rewrite forallb_forall, Forall_forall. intros H c Hc. by apply Z.leb_le, H, list_elem_of_In. Qed.

(** [plain], decided. *)
Fixpoint is_plain (v : value) : bool :=
  match v with
  | VFloat _ => false
  | VStr s => forallb (Z.leb 0) s
  | VList l => (fix go l := match l with [] => true | x :: l' => is_plain x && go l' end) l
  | VDict d =>
    bool_decide (dwf d) &&
    (fix go d := match d with [] => true | (k, x) :: d' => forallb (Z.leb 0) k && is_plain x && go d' end) d
  | _ => true
  end.

Lemma is_plain_ok v : is_plain v = true → plain v.
Proof.
  induction v as [|b|z|f|s|l IH|d IH] using value_nested_ind; try done.
  - apply nonneg_text.
  - intros H. apply plain_list_intro. induction IH as [|x l Hx _ IHl]; [constructor|].
    cbn [is_plain] in H. apply andb_true_iff in H as [H1 H2]. constructor; [by apply Hx|by apply IHl].
  - cbn [is_plain]. intros [Hwf H]%andb_true_iff. apply plain_dict_intro; [by apply bool_decide_eq_true in Hwf|].
    clear Hwf. induction IH as [|[k x] d Hx _ IHd]; [constructor|].
    apply andb_true_iff in H as [[Hk H1]%andb_true_iff H2].
    constructor; [split; [by apply nonneg_text|by apply Hx]|by apply IHd].
Qed.
