(* ===== verification/JsonIndent.v ===== *)
(** * [json.dumps(v, ensure_ascii=False, indent=2)]

    The layout of the configuration files the agent writes, and that
    [json.loads] reads it back. *)
From S2P Require Import Prelude Dict Value Json JsonParse JsonRoundtrip.

Fixpoint join_with (sep : pystr) (l : list pystr) : pystr :=
  match l with
  | [] => []
  | [x] => x
  | x :: l' => x ++ sep ++ join_with sep l'
  end.

(** A new line at a nesting level. *)
Definition newline (level : nat) : pystr := 10 :: replicate (2 * level) 32.

Definition separator (level : nat) : pystr := 44 :: newline (S level).

(** The items of a list or an object between their brackets. *)
Definition indented (level : nat) (left right : Z) (ts : list pystr) : pystr :=
  match ts with
  | [] => [left; right]
  | _ => left :: newline (S level) ++ join_with (separator level) ts ++ newline level ++ [right]
  end.
Definition indent_member (kt : pystr * pystr) : pystr := dump_str kt.1 ++ [58; 32] ++ kt.2.

Fixpoint dumps_indent (level : nat) (v : value) : result pystr :=
  match v with
  | VList l =>
    xs ← (fix go l := match l with
          | [] => Ok []
          | x :: l' => y ← dumps_indent (S level) x; ys ← go l'; Ok (y :: ys)
          end) l;
    Ok (indented level 91 93 xs)
  | VDict d =>
    items ← (fix go d := match d with
             | [] => Ok []
             | (k, x) :: d' => y ← dumps_indent (S level) x; ys ← go d'; Ok ((k, y) :: ys)
             end) d;
    Ok (indented level 123 125 (indent_member <$> items))
  | _ => dumps false true v
  end.

(** The bytes of a file: the text and a line feed. *)
Definition indent_bytes (v : value) : result bytes :=
  t ← dumps_indent 0 v;
  match utf8_encode (t ++ [10]) with Some b => Ok b | None => Raise UnicodeEncodeError end.

Lemma dumps_indent_list level l t :
  dumps_indent level (VList l) = Ok t →
  ∃ ts, Forall2 (λ x t, dumps_indent (S level) x = Ok t) l ts ∧ t = indented level 91 93 ts.
Proof.
  cbn [dumps_indent]. unfold mbind, result_bind. case_match eqn:E; [|done]. intros [= <-].
  eexists. split; [|done]. rename a into ts. revert ts E. induction l as [|x l IH]; intros ts; [by intros [= <-]|].
  destruct (dumps_indent (S level) x) eqn:Ex; [|done]. case_match eqn:El; [|done]. intros [= <-].
  constructor; [done|]. by apply IH.
Qed.

Lemma dumps_indent_dict level d t :
  dumps_indent level (VDict d) = Ok t →
  ∃ ts, Forall2 (λ kv kt, kt.1 = kv.1 ∧ dumps_indent (S level) kv.2 = Ok kt.2) d ts ∧
    t = indented level 123 125 (indent_member <$> ts).
Proof.
  cbn [dumps_indent]. unfold mbind, result_bind. case_match eqn:E; [|done]. intros [= <-].
  eexists. split; [|done]. rename a into ts. revert ts E. induction d as [|[k x] d IH]; intros ts; [by intros [= <-]|].
  destruct (dumps_indent (S level) x) eqn:Ex; [|done]. case_match eqn:El; [|done]. intros [= <-].
  constructor; [done|]. by apply IH.
Qed.

(** ** White space *)

Lemma skip_newline level s : skip_ws (newline level ++ s) = skip_ws s.
Proof. unfold newline. cbn [app skip_ws]. change (json_space 10) with true. cbv iota. by induction (2 * level)%nat. Qed.

Lemma skip_ws_json_space c s : json_space c = false → skip_ws (c :: s) = c :: s.
Proof. intros H. cbn [skip_ws]. by rewrite H. Qed.

Lemma ends_newline level s : ends (newline level ++ s).
Proof. right. right. by right. Qed.

Lemma join_with_cons sep t t2 ts : join_with sep (t :: t2 :: ts) = t ++ sep ++ join_with sep (t2 :: ts).
Proof. done. Qed.

Lemma join_with_head sep c t' ts : ∃ w, join_with sep ((c :: t') :: ts) = c :: w.
Proof. destruct ts; by eexists. Qed.

Lemma length_separator level : (length (newline (S level)) < length (separator level))%nat.
Proof. simpl. lia. Qed.

(** A non-empty run of items, the text of the first one at its front. *)
Lemma indented_run level left right c t' ts :
  ∃ w, indented level left right ((c :: t') :: ts) = left :: newline (S level) ++ c :: w ∧
    c :: w = join_with (separator level) ((c :: t') :: ts) ++ newline level ++ [right].
Proof.
  destruct (join_with_head (separator level) c t' ts) as [w Hw]. eexists. split; [|by rewrite Hw].
  unfold indented. by rewrite Hw.
Qed.

Section Read.
Context (hook : list (pystr * value) → result object) (Hhook : ∀ d, dwf d → hook d = Ok d).

Abbreviation reads := (reads hook).
Definition opened (t : pystr) : Prop := ∃ c t', t = c :: t' ∧ opens c.

Lemma indent_opens level v t : dumps_indent level v = Ok t → plain v → opened t.
Proof using Type.
  intros Hd Hp. destruct v as [|b|z|f|s|l|d]; try (by eapply dumps_opens).
  - apply dumps_indent_list in Hd as (ts & _ & ->). destruct ts; by eexists _, _.
  - apply dumps_indent_dict in Hd as (ts & _ & ->). destruct ts; by eexists _, _.
Qed.

Lemma indent_elements l ts level acc rest f :
  Forall2 (λ x t, reads x t ∧ opened t) l ts → l ≠ [] →
  (2 * length (join_with (separator level) ts ++ newline level) + 1 < f)%nat →
  parse_elements hook f acc (join_with (separator level) ts ++ newline level ++ 93 :: rest)
    = pok (VList (acc ++ l), rest).
Proof using Type.
  intros Hl. revert acc f. induction Hl as [|x t l ts [Hx Ho] Hl IH]; intros acc f Hne Hf; [done|].
  destruct f as [|f]; [lia|]. cbn [parse_elements].
  destruct Hl as [|y t2 l ts [Hy (c & t' & -> & Hc)] Hl].
  - cbn [join_with] in *. rewrite length_app in Hf. rewrite Hx; [|lia|apply ends_newline].
    cbn [pbind pok fst snd]. rewrite skip_newline, skip_ws_json_space by done. done.
  - rewrite join_with_cons in *. rewrite <- !app_assoc in *. rewrite !length_app in Hf. pose proof (length_separator level).
    rewrite Hx; [|lia|by left]. unfold separator at 1. cbn [pbind pok fst snd app]. rewrite skip_ws_json_space by done. cbn [Z.eqb Pos.eqb].
    specialize (IH (acc ++ [x]) f ltac:(done) ltac:(rewrite length_app; lia)).
    rewrite <- app_assoc in IH. cbn [app] in IH. rewrite <- IH.
    destruct (join_with_head (separator level) c t' ts) as [w Hw]. rewrite Hw. cbn [app].
    by rewrite skip_newline, skip_ws_opens.
Qed.

(** One [name: value] and what follows it. *)
Lemma indent_member_step k x t acc s f :
  Forall (λ c, 0 <= c) k → reads x t → opened t → ends s →
  (2 * length (indent_member (k, t)) < S f)%nat →
  parse_members hook (S f) acc (indent_member (k, t) ++ s) =
    match skip_ws s with
    | c2 :: r2 =>
      if c2 =? 125 then close_object hook (acc ++ [(k, x)]) r2
      else if c2 =? 44 then parse_members hook f (acc ++ [(k, x)]) (skip_ws r2) else pfail
    | [] => pfail
    end.
Proof using Type.
  intros Hk Hx (c & t' & -> & Hc) Hs Hf. unfold indent_member, dump_str in *. cbn [fst snd] in *.
  rewrite !length_app in Hf. cbn [length] in Hf.
  cbn [app parse_members]. cbn [Z.eqb Pos.eqb negb]. rewrite <- !app_assoc.
  rewrite scan_dump_str by done. cbn [pbind fst snd app skip_ws json_space Z.eqb Pos.eqb orb negb].
  destruct Hc as [Hc _]. rewrite Hc. change (c :: t' ++ s) with ((c :: t') ++ s). rewrite Hx; [done| |done].
  cbn [length]. lia.
Qed.

Lemma indent_members d ts level acc rest f :
  Forall2 (λ kv kt, kt.1 = kv.1 ∧ reads kv.2 kt.2 ∧ opened kt.2 ∧ Forall (λ c, 0 <= c) kv.1) d ts → d ≠ [] →
  (2 * length (join_with (separator level) (indent_member <$> ts) ++ newline level) < f)%nat →
  parse_members hook f acc (join_with (separator level) (indent_member <$> ts) ++ newline level ++ 125 :: rest)
    = close_object hook (acc ++ d) rest.
Proof using Type.
  intros Hd. revert acc f. induction Hd as [|[k x] [k' t] d ts (Hk & Hx & Ho & Hks) Hd IH]; intros acc f Hne Hf; [done|].
  cbn [fst snd] in *. subst k'. destruct f as [|f]; [lia|].
  destruct Hd as [|[k2 y] [k2' t2] d ts H2 Hd].
  - cbn [fmap list_fmap join_with] in *. rewrite length_app in Hf.
    rewrite (indent_member_step k x); [|done..|apply ends_newline|lia].
    by rewrite skip_newline, skip_ws_json_space.
  - rewrite !fmap_cons, join_with_cons in *. rewrite <- !app_assoc in *. rewrite !length_app in Hf. pose proof (length_separator level).
    rewrite (indent_member_step k x); [|done..|by left|lia].
    unfold separator at 1. cbn [app]. rewrite skip_ws_json_space by done. cbn [Z.eqb Pos.eqb].
    specialize (IH (acc ++ [(k, x)]) f ltac:(done) ltac:(rewrite length_app; lia)).
    rewrite <- app_assoc in IH. cbn [app] in IH. rewrite <- IH. f_equal.
    destruct (join_with_head (separator level) 34 (tail (indent_member (k2', t2))) (indent_member <$> ts)) as [w Hw].
    change (34 :: tail (indent_member (k2', t2))) with (indent_member (k2', t2)) in Hw. rewrite Hw. cbn [app].
    by rewrite skip_newline, skip_ws_json_space.
Qed.

Lemma indent_reads v level t : plain v → dumps_indent level v = Ok t → reads v t.
Proof using Hhook.
  revert level t. induction v as [|b|z|fl|s|l IH|d IH] using value_nested_ind; intros level t Hp Hd;
    try (by apply (reads_value hook Hhook true)).
  - intros f rest Hf Hr. destruct f as [|f]; [lia|].
    apply dumps_indent_list in Hd as (ts & Hts & ->). apply plain_list in Hp.
    assert (Forall2 (λ x t, reads x t ∧ opened t) l ts) as Hall.
    { clear -IH Hp Hts. induction Hts as [|x t l ts Hx _ IHts]; [constructor|].
      apply Forall_cons in IH as [Hr IH], Hp as [Hpx Hp]. constructor; [|by apply IHts].
      split; [by eapply Hr|by eapply indent_opens]. }
    destruct Hall as [|x t l ts [Hx (c & t' & -> & Hc)] Hall]; [done|].
    destruct (indented_run level 91 93 c t' ts) as (w & Hw & Hrun). rewrite Hw in *.
    cbn [app parse_value]. cbn [Z.eqb Pos.eqb]. rewrite <- app_assoc, skip_newline.
    change ((c :: w) ++ rest) with (c :: (w ++ rest)). rewrite skip_ws_opens by done.
    rewrite (proj2 (Z.eqb_neq c 93)) by apply Hc.
    change (c :: (w ++ rest)) with ((c :: w) ++ rest). rewrite Hrun, <- !app_assoc. cbn [app].
    apply (indent_elements (x :: l)); [|done|].
    + constructor; [|done]. split; [done|]. by eexists _, _.
    + rewrite Hrun in Hf. cbn [length] in Hf. rewrite !length_app in Hf. cbn [length] in Hf. rewrite length_app. lia.
  - intros f rest Hf Hr. destruct f as [|f]; [lia|].
    apply dumps_indent_dict in Hd as (ts & Hts & ->). apply plain_dict in Hp as [Hwf Hp].
    assert (Forall2 (λ kv kt, kt.1 = kv.1 ∧ reads kv.2 kt.2 ∧ opened kt.2 ∧ Forall (λ c, 0 <= c) kv.1) d ts) as Hall.
    { clear -IH Hp Hts. induction Hts as [|x t d ts [Hk Hx] _ IHts]; [constructor|].
      apply Forall_cons in IH as [Hr IH], Hp as [[Hpk Hpx] Hp]. constructor; [|by apply IHts].
      split_and!; [done|by eapply Hr|by eapply indent_opens|done]. }
    destruct Hall as [|x t d ts Hx Hall]; [cbn; unfold close_object; by rewrite Hhook|].
    rewrite fmap_cons in *.
    destruct (indented_run level 123 125 34 (tail (indent_member t)) (indent_member <$> ts)) as (w & Hw & Hrun).
    change (34 :: tail (indent_member t)) with (indent_member t) in Hw, Hrun. rewrite Hw in *.
    cbn [app parse_value]. cbn [Z.eqb Pos.eqb]. rewrite <- app_assoc, skip_newline.
    change ((34 :: w) ++ rest) with (34 :: (w ++ rest)). rewrite skip_ws_json_space by done. cbn [Z.eqb Pos.eqb].
    change (34 :: (w ++ rest)) with ((34 :: w) ++ rest). rewrite Hrun, <- !app_assoc. cbn [app].
    rewrite <- fmap_cons. rewrite (indent_members (x :: d)); [unfold close_object; by rewrite Hhook|by constructor|done|].
    rewrite Hrun in Hf. cbn [length] in Hf. rewrite !length_app in Hf. cbn [length] in Hf.
    rewrite fmap_cons, length_app. lia.
Qed.

(** What the agent writes it reads back. *)
Lemma loads_indent v t : plain v → dumps_indent 0 v = Ok t → loads hook (t ++ [10]) = Ok v.
Proof using Hhook.
  intros Hp Hd. destruct (indent_opens 0 v t Hd Hp) as (c & t' & Ht & Hc). unfold loads, parse_document.
  pose proof (indent_reads v 0 t Hp Hd (2 * length (t ++ [10%Z]) + 1)%nat [10]) as Hr.
  rewrite Ht in *. cbn [app] in *. rewrite (proj2 (Z.eqb_neq c 65279)) by apply Hc.
  rewrite skip_ws_opens by done. rewrite Hr; [done|simpl; rewrite length_app; lia|].
  right. right. by right.
Qed.
End Read.

(** A written file is read back by the readers of the program. *)
Lemma indent_bytes_ok v b :
  indent_bytes v = Ok b → ∃ t, dumps_indent 0 v = Ok t ∧ utf8_encode (t ++ [10]) = Some b.
Proof.
  unfold indent_bytes, mbind, result_bind. destruct (dumps_indent 0 v) as [t|]; [|done].
  destruct (utf8_encode _) eqn:E; [|done]. intros [= <-]. by exists t.
Qed.

Lemma loads_utf8_indent e v b :
  plain v → indent_bytes v = Ok b → loads_utf8 (λ pairs, reject_duplicates e pairs []) b = Ok v.
Proof.
  intros Hp (t & Ht & Hb)%indent_bytes_ok. unfold loads_utf8. rewrite (utf8_roundtrip false _ _ Hb).
  apply loads_indent; [|done|done]. intros d Hwf. by apply (reject_duplicates_wf e d []).
Qed.
