(* ===== verification/Sha256.v ===== *)
(** * [hashlib.sha256]

    FIPS 180-4 on byte strings, executable: request digests, handshake
    transcripts and key fingerprints of the program are its output. *)
From S2P Require Import Prelude.

Definition mask32 (x : Z) : Z := Z.land x 0xFFFFFFFF.
Definition add32 (x y : Z) : Z := mask32 (x + y).
Definition rotr (n x : Z) : Z := Z.lor (Z.shiftr x n) (mask32 (Z.shiftl x (32 - n))).
Definition not32 (x : Z) : Z := Z.lxor x 0xFFFFFFFF.

Definition ch (x y z : Z) : Z := Z.lxor (Z.land x y) (Z.land (not32 x) z).
Definition maj (x y z : Z) : Z := Z.lxor (Z.land x y) (Z.lxor (Z.land x z) (Z.land y z)).
Definition big_sigma0 (x : Z) : Z := Z.lxor (rotr 2 x) (Z.lxor (rotr 13 x) (rotr 22 x)).
Definition big_sigma1 (x : Z) : Z := Z.lxor (rotr 6 x) (Z.lxor (rotr 11 x) (rotr 25 x)).
Definition small_sigma0 (x : Z) : Z := Z.lxor (rotr 7 x) (Z.lxor (rotr 18 x) (Z.shiftr x 3)).
Definition small_sigma1 (x : Z) : Z := Z.lxor (rotr 17 x) (Z.lxor (rotr 19 x) (Z.shiftr x 10)).

(** The constants of the function are the first 32 bits of the fractional parts
    of the square and cube roots of the first primes. *)
Fixpoint primes_from (fuel : nat) (n : Z) (found : list Z) : list Z :=
  match fuel with
  | O => rev found
  | S f => primes_from f (n + 1)
             (if forallb (λ p, negb (n mod p =? 0)) found then n :: found else found)
  end.
(** The 64 primes below 312. *)
Definition primes : list Z := Eval vm_compute in primes_from 310 2 [].

(** The integer cube root of [n], below [2 ^ bits], bit by bit. *)
Fixpoint cube_root (bits : nat) (n acc : Z) : Z :=
  match bits with
  | O => acc
  | S b => let x := acc + 2 ^ Z.of_nat b in
           cube_root b n (if x * x * x <=? n then x else acc)
  end.

Definition round_constants : list Z :=
  Eval vm_compute in (λ p, mask32 (cube_root 36 (p * 2 ^ 96) 0)) <$> primes.
Definition initial_hash : list Z :=
  Eval vm_compute in (λ p, mask32 (Z.sqrt (p * 2 ^ 64))) <$> take 8 primes.

Fixpoint words (b : bytes) : list Z :=
  match b with
  | a :: b :: c :: d :: r => (((a * 256 + b) * 256 + c) * 256 + d) :: words r
  | _ => []
  end.

(** The message schedule, newest word first: [w] holds the last sixteen. *)
Fixpoint schedule (n : nat) (w : list Z) : list Z :=
  match n with
  | O => []
  | S n' =>
    match rev w with
    | [w0; w1; w2; w3; w4; w5; w6; w7; w8; w9; w10; w11; w12; w13; w14; w15] =>
      let next := add32 (add32 (small_sigma1 w14) w9) (add32 (small_sigma0 w1) w0) in
      w0 :: schedule n' (rev [w1; w2; w3; w4; w5; w6; w7; w8; w9; w10; w11; w12; w13; w14; w15; next])
    | _ => []
    end
  end.

Definition round (st : list Z) (kw : Z * Z) : list Z :=
  match st with
  | [a; b; c; d; e; f; g; h] =>
    let t1 := add32 h (add32 (big_sigma1 e) (add32 (ch e f g) (add32 kw.1 kw.2))) in
    let t2 := add32 (big_sigma0 a) (maj a b c) in
    [add32 t1 t2; a; b; c; add32 d t1; e; f; g]
  | _ => st
  end.

Definition compress (hash : list Z) (block : bytes) : list Z :=
  let w := schedule 64 (rev (words block)) in
  zip_with add32 hash (foldl round hash (zip round_constants w)).

Fixpoint blocks (fuel : nat) (hash : list Z) (b : bytes) : list Z :=
  match fuel with
  | O => hash
  | S f => match b with [] => hash | _ => blocks f (compress hash (take 64 b)) (drop 64 b) end
  end.

Definition be_bytes (n : nat) (x : Z) : bytes :=
  (λ i, (x / 256 ^ Z.of_nat i) mod 256) <$> rev (seq 0 n).

Definition pad (b : bytes) : bytes :=
  b ++ [0x80] ++ repeat 0 (Z.to_nat ((55 - len b) mod 64)) ++ be_bytes 8 (8 * len b).

(** [hashlib.sha256(b).digest()] *)
Definition sha256 (b : bytes) : bytes :=
  let p := pad b in concat (be_bytes 4 <$> blocks (S (length p)) initial_hash p).

Definition hex_char (n : Z) : Z := if n <? 10 then 48 + n else 87 + n.
(** [hexdigest()] *)
Definition hexdigest (b : bytes) : pystr :=
  concat ((λ x, [hex_char (x / 16); hex_char (x mod 16)]) <$> sha256 b).

Example sha256_abc :
  hexdigest (u "abc") = u "ba7816bf8f01cfea414140de5dae2223b00361a396177a9cb410ff61f20015ad".
Proof. by_compute. Qed.

Example sha256_two_blocks :
  hexdigest (u "abcdbcdecdefdefgefghfghighijhijkijkljklmklmnlmnomnopnopq")
  = u "248d6a61d20638b8e5c026930c3e6039a33ce45964ff2167f6ecedd419db06c1".
Proof. by_compute. Qed.

(** ** The digest is 64 lowercase hexadecimal characters *)

Lemma length_be_bytes n x : length (be_bytes n x) = n.
Proof. unfold be_bytes. by rewrite length_fmap, length_rev, length_seq. Qed.

Lemma be_bytes_octets n x : Forall is_octet (be_bytes n x).
Proof.
  unfold be_bytes, is_octet. apply Forall_fmap, Forall_forall. intros i _. simpl.
  pose proof (Z.mod_pos_bound (x / 256 ^ Z.of_nat i) 256). lia.
Qed.

Lemma be_bytes_S n x : be_bytes (S n) x = (x / 256 ^ Z.of_nat n) mod 256 :: be_bytes n x.
Proof. unfold be_bytes. by rewrite seq_S, rev_app_distr. Qed.

(** Big-endian encoding is injective on the integers that fit. *)
Lemma be_bytes_inj n x y :
  0 <= x < 256 ^ Z.of_nat n → 0 <= y < 256 ^ Z.of_nat n → be_bytes n x = be_bytes n y → x = y.
Proof.
  cut (be_bytes n x = be_bytes n y → x mod 256 ^ Z.of_nat n = y mod 256 ^ Z.of_nat n).
  { intros H Hx Hy He. specialize (H He). by rewrite !Z.mod_small in H. }
  induction n as [|n IH]; [intros _; by rewrite !Z.mod_1_r|].
  rewrite !be_bytes_S. intros [= Hd Hr]. specialize (IH Hr).
  rewrite Nat2Z.inj_succ, Z.pow_succ_r, (Z.mul_comm 256) by lia.
  rewrite !Z.rem_mul_r by lia. by rewrite IH, Hd.
Qed.

Lemma length_round st kw : length st = 8%nat → length (round st kw) = 8%nat.
Proof. intros H. unfold round. by repeat (case_match; simpl in H; try lia). Qed.

Lemma length_foldl_round st l : length st = 8%nat → length (foldl round st l) = 8%nat.
Proof. revert st. induction l as [|kw l IH]; intros st H; simpl; [done|]. by apply IH, length_round. Qed.

Lemma length_compress h b : length h = 8%nat → length (compress h b) = 8%nat.
Proof. intros H. unfold compress. rewrite length_zip_with, length_foldl_round; lia. Qed.

Lemma length_blocks f h b : length h = 8%nat → length (blocks f h b) = 8%nat.
Proof.
  revert h b. induction f as [|f IH]; intros h b H; simpl; [done|].
  destruct b; [done|]. by apply IH, length_compress.
Qed.

Lemma length_concat_const {A B} (f : A → list B) n l :
  (∀ x, length (f x) = n) → length (concat (f <$> l)) = (length l * n)%nat.
Proof. intros Hf. induction l as [|x l IH]; csimpl; [done|]. rewrite length_app, Hf, IH. lia. Qed.

Lemma length_sha256 b : len (sha256 b) = 32.
Proof.
  unfold sha256, len. rewrite (length_concat_const _ 4); [|intros; apply length_be_bytes].
  by rewrite length_blocks.
Qed.

Lemma sha256_octets b : Forall is_octet (sha256 b).
Proof.
  unfold sha256. generalize (blocks (S (length (pad b))) initial_hash (pad b)). intros l.
  induction l as [|x l IH]; [constructor|]. change (Forall is_octet (be_bytes 4 x ++ concat (be_bytes 4 <$> l))).
  apply Forall_app. split; [apply be_bytes_octets|done].
Qed.

Definition lower_hex (c : Z) : bool := ascii_digit c || ((97 <=? c) && (c <=? 102)).

Lemma lower_hex_char n : 0 <= n < 16 → lower_hex (hex_char n) = true.
Proof.
  intros Hn. unfold hex_char, lower_hex, ascii_digit.
  destruct (Z.ltb_spec n 10); apply orb_true_iff; [left|right]; apply andb_true_iff;
    split; apply Z.leb_le; lia.
Qed.

Lemma hexdigest_shape b : matches_class lower_hex 64 64 (hexdigest b) = true.
Proof.
  unfold matches_class. assert (len (hexdigest b) = 64) as ->.
  { pose proof (length_sha256 b). unfold hexdigest, len in *.
    rewrite (length_concat_const _ 2) by done. lia. }
  rewrite !andb_true_r. unfold hexdigest.
  pose proof (sha256_octets b) as Ho. induction Ho as [|x l Hx Hl IH]; csimpl; [done|].
  unfold is_octet in Hx. by rewrite !lower_hex_char, IH by lia.
Qed.
