(* ===== verification/TextPolicy.v ===== *)
(** * Text policies

    [windows-agent/tools/text_policy.py] (the bounds on user text that reaches
    browsers, messages and transcripts) and the identifier patterns the other
    modules compile with [re]. *)
From S2P Require Import Prelude Dict Value.

(** The code points [validate_bounded_text] refuses. *)
Definition forbidden_code_point (allow_line_feed : bool) (c : Z) : bool :=
  ((c <? 0x20) && negb (allow_line_feed && (c =? 0x0A)))
  || ((0x7F <=? c) && (c <=? 0x9F))
  || ((0x200B <=? c) && (c <=? 0x200F))
  || ((0x202A <=? c) && (c <=? 0x202E))
  || ((0x2060 <=? c) && (c <=? 0x2069))
  || (c =? 0xFEFF)
  || ((0xE000 <=? c) && (c <=? 0xF8FF)).

Definition validate_bounded_text (v : value) (maximum_bytes : Z) (allow_line_feed : bool)
  : result pystr :=
  match v with
  | VStr s =>
    if negb (nonempty (strip s)) then Raise ValueError
    else if maximum_bytes <=? 0 then Raise ValueError
    else match utf8_encode s with
    | None => Raise UnicodeEncodeError
    | Some b =>
      if maximum_bytes <? len b then Raise ValueError
      else if existsb (forbidden_code_point allow_line_feed) s then Raise ValueError
      else Ok s
    end
  | _ => Raise ValueError
  end.

(** Control characters of the wire protocol: [ord(c) < 0x20 or ord(c) == 0x7F]. *)
Definition control_char (c : Z) : bool := (c <? 0x20) || (c =? 0x7F).

(** [backend/pipa_core/core.py: _is_safe_catalog_text] *)
Definition is_safe_catalog_text (s : pystr) : bool :=
  negb (existsb (λ c,
    (c <? 0x20)
    || ((0x7F <=? c) && (c <=? 0x9F))
    || ((0x200B <=? c) && (c <=? 0x200F))
    || ((0x202A <=? c) && (c <=? 0x202E))
    || ((0x2060 <=? c) && (c <=? 0x2069))
    || (c =? 0xFEFF)) s).

(** [re.compile(r"^[A-Za-z][A-Za-z0-9_-]{0,63}$")] *)
Definition word_char (c : Z) : bool := ascii_alnum c || (c =? 95) || (c =? 45).
Definition is_parameter_name (s : pystr) : bool :=
  match s with
  | c :: s' => ascii_alpha c && matches_class word_char 0 63 s'
  | [] => false
  end.

(** What an accepted text satisfies. *)
Definition bounded_text (maximum_bytes : Z) (allow_line_feed : bool) (s : pystr) : Prop :=
  strip s ≠ [] ∧
  (∃ b, utf8_encode s = Some b ∧ len b <= maximum_bytes) ∧
  Forall (λ c, forbidden_code_point allow_line_feed c = false) s.

(** The validator accepts exactly the bounded texts and returns them
    unchanged. *)
Lemma validate_bounded_text_spec v n lf s :
  validate_bounded_text v n lf = Ok s ↔ v = VStr s ∧ bounded_text n lf s.
Proof.
  unfold bounded_text. split.
  - intros H. unfold validate_bounded_text in H. result_inv. reflect.
    split; [done|]. apply nonempty_ne in Heqb. split; [done|]. split; [eauto with lia|].
    by apply existsb_false_Forall.
  - intros [-> (Hs & (b & Hb & Hle) & Hf)]. unfold validate_bounded_text.
    apply nonempty_ne in Hs. rewrite Hs, Hb. cbn [negb].
    assert (0 < len b).
    { destruct s as [|c s]; [done|]. simpl in Hb. destruct (utf8_encode_char c) as [bc|] eqn:E; [|done].
      destruct (utf8_encode s); [|done]. injection Hb as <-. rewrite len_app.
      unfold utf8_encode_char in E. pose proof (len_nonneg l).
      repeat (case_match; simplify_eq); autorewrite with len; pose proof (len_nonneg l); lia. }
    rewrite (proj2 (Z.leb_gt n 0)) by lia. rewrite (proj2 (Z.ltb_ge n (len b))) by lia.
    by rewrite (proj2 (existsb_false_Forall _ _)).
Qed.

(** Every failure is a [ValueError]. *)
Lemma validate_bounded_text_raises v n lf e :
  validate_bounded_text v n lf = Raise e → is_a e ValueError = true.
Proof. unfold validate_bounded_text. repeat case_match; naive_solver. Qed.
