(* ===== verification/Protocol.v ===== *)
(** * The device protocol: [backend/pipa_core/protocol.py]

    [parse_client_message] turns a decoded JSON value into a [ClientMessage]
    whose [fields] are checked and normalised, or raises [ProtocolError];
    [server_message] builds every response envelope under a per-type
    allowlist.  [message] is the abstract message the fields stand for, and
    [view] reads it back with the accessors the Core uses. *)
From S2P Require Import Prelude Dict Value Json TextPolicy.

Definition PROTOCOL_VERSION : Z := 1.
Definition MAX_TEXT_LENGTH : Z := 4000.
Definition MAX_TOOL_NAME_LENGTH : Z := 80.
Definition MAX_ARGUMENTS_BYTES : Z := 4096.
Definition MAX_CAPABILITIES : Z := 16.

Definition TEXT_SOURCES := ["voice"; "touch"; "mobile"; "debug"; "unknown"]%string.
Definition AUDIO_STATES :=
  ["disabled"; "probe_only"; "codec_ready"; "listening"; "draining"; "error"]%string.
Definition GESTURES := ["tap"; "double_tap"; "swipe_left"; "swipe_right"]%string.

Definition COMMON_FIELDS : list pystr := [u "protocol_version"; u "type"].

(** [_MESSAGE_FIELDS] *)
Definition MESSAGE_FIELDS : dict pystr (list pystr) :=
  [(u "challenge_request", [u "device_id"]);
   (u "hello", [u "device_id"; u "challenge_id"; u "signature"; u "firmware_version"; u "capabilities"]);
   (u "device_hello", [u "firmware_version"; u "capabilities"]);
   (u "catalog_request", []);
   (u "text_input", [u "text"; u "source"]);
   (u "wake", []); (u "hold_start", []); (u "hold_end", []); (u "audio_end", []); (u "abort", []);
   (u "ping", [u "request_id"]);
   (u "device_status", [u "audio_state"; u "battery_percent"; u "wifi_rssi"]);
   (u "gesture", [u "gesture"]);
   (u "tool_call", [u "name"; u "arguments"; u "call_id"; u "request_digest"]);
   (u "confirm", [u "confirmation_id"; u "accepted"])].

(** ** Field readers *)

Definition _string (payload : object) (name : pystr) (maximum : Z) : result pystr :=
  match get name payload with
  | VStr s =>
    if negb (nonempty (strip s)) || (maximum <? len s) || existsb control_char s
    then Raise ProtocolError else Ok (strip s)
  | _ => Raise ProtocolError
  end.

Definition _protocol_version (payload : object) : result value :=
  let version := get (u "protocol_version") payload in
  if eq_int version PROTOCOL_VERSION then Ok version else Raise ProtocolError.

Definition _optional_string (payload : object) (name : pystr) (maximum : Z)
  : result (option pystr) :=
  match get name payload with
  | VNone => Ok None
  | _ => s ← _string payload name maximum; Ok (Some s)
  end.

(** 64 characters of ["0123456789abcdef"]. *)
Definition digest_char (c : Z) : bool := ascii_digit c || ((97 <=? c) && (c <=? 102)).

Definition _optional_request_digest (payload : object) : result (option pystr) :=
  match get (u "request_digest") payload with
  | VNone => Ok None
  | VStr s =>
    if negb (len s =? 64) || existsb (λ c, negb (digest_char c)) s
    then Raise ProtocolError else Ok (Some s)
  | _ => Raise ProtocolError
  end.

(** [len(set(l)) == len(l)] *)
Definition no_duplicates (l : list pystr) : bool := bool_decide (NoDup l).

Definition parse_capability (v : value) : result pystr :=
  match v with
  | VStr s =>
    if negb (nonempty (strip s)) || (32 <? len s) || existsb control_char s
    then Raise ProtocolError else Ok (strip s)
  | _ => Raise ProtocolError
  end.

Definition _capabilities (payload : object) : result (list pystr) :=
  match get_or (u "capabilities") (VList []) payload with
  | VList capabilities =>
    if MAX_CAPABILITIES <? len capabilities then Raise ProtocolError
    else
      parsed ← traverse parse_capability capabilities;
      if no_duplicates parsed then Ok parsed else Raise ProtocolError
  | _ => Raise ProtocolError
  end.

(** ** Client messages *)

Record client_message := ClientMessage { msg_type : pystr; fields : object }.

Definition str_list (l : list pystr) : value := VList (VStr <$> l).

(** [fields[k] = v], only when [v] is not [None] *)
Definition set_some (k : pystr) (o : option pystr) (f : object) : object :=
  match o with Some s => dset k (VStr s) f | None => f end.

Definition parse_device_status (payload f : object) : result object :=
  let audio_state := get (u "audio_state") payload in
  _ ← ensure match audio_state with
             | VNone => true
             | VStr s => one_of s AUDIO_STATES
             | _ => false
             end ProtocolError;
  let battery_percent := get (u "battery_percent") payload in
  _ ← ensure match battery_percent with
             | VNone => true
             | VInt z => (0 <=? z) && (z <=? 100)
             | _ => false
             end ProtocolError;
  let wifi_rssi := get (u "wifi_rssi") payload in
  _ ← ensure match wifi_rssi with
             | VNone => true
             | VInt z => (-127 <=? z) && (z <=? 0)
             | _ => false
             end ProtocolError;
  Ok (dset (u "wifi_rssi") wifi_rssi
       (dset (u "battery_percent") battery_percent
         (dset (u "audio_state") audio_state f))).

Definition parse_tool_call (payload f : object) : result object :=
  name ← _string payload (u "name") MAX_TOOL_NAME_LENGTH;
  match get_or (u "arguments") (VDict []) payload with
  | VDict arguments =>
    encoded ← reraise [TypeError; ValueError] ProtocolError
                (dump_bytes false false (VDict arguments));
    if MAX_ARGUMENTS_BYTES <? len encoded then Raise ProtocolError
    else
      call_id ← _optional_string payload (u "call_id") 128;
      request_digest ← _optional_request_digest payload;
      Ok (set_some (u "request_digest") request_digest
           (set_some (u "call_id") call_id
             (dset (u "arguments") (VDict arguments) (dset (u "name") (VStr name) f))))
  | _ => Raise ProtocolError
  end.

Definition parse_hello (payload f : object) : result object :=
  device_id ← _string payload (u "device_id") 64;
  challenge_id ← _string payload (u "challenge_id") 128;
  signature ← _string payload (u "signature") 256;
  firmware_version ← _optional_string payload (u "firmware_version") 32;
  capabilities ← _capabilities payload;
  Ok (dset (u "capabilities") (str_list capabilities)
       (set_some (u "firmware_version") firmware_version
         (dset (u "signature") (VStr signature)
           (dset (u "challenge_id") (VStr challenge_id)
             (dset (u "device_id") (VStr device_id) f))))).

Definition parse_challenge_request (payload f : object) : result object :=
  device_id ← _string payload (u "device_id") 64;
  Ok (dset (u "device_id") (VStr device_id) f).

Definition parse_device_hello (payload f : object) : result object :=
  firmware_version ← _optional_string payload (u "firmware_version") 32;
  capabilities ← _capabilities payload;
  Ok (dset (u "capabilities") (str_list capabilities)
       (set_some (u "firmware_version") firmware_version f)).

Definition parse_text_input (payload f : object) : result object :=
  text ← _string payload (u "text") MAX_TEXT_LENGTH;
  match get_or (u "source") (VStr (u "unknown")) payload with
  | VStr source =>
    if one_of source TEXT_SOURCES
    then Ok (dset (u "source") (VStr source) (dset (u "text") (VStr text) f))
    else Raise ProtocolError
  | _ => Raise ProtocolError
  end.

Definition parse_ping (payload f : object) : result object :=
  request_id ← _optional_string payload (u "request_id") 64;
  Ok (set_some (u "request_id") request_id f).

Definition parse_gesture (payload f : object) : result object :=
  gesture ← _string payload (u "gesture") 32;
  if one_of gesture GESTURES then Ok (dset (u "gesture") (VStr gesture) f)
  else Raise ProtocolError.

Definition parse_confirm (payload f : object) : result object :=
  confirmation_id ← _string payload (u "confirmation_id") 128;
  match get (u "accepted") payload with
  | VBool accepted =>
    Ok (dset (u "accepted") (VBool accepted)
         (dset (u "confirmation_id") (VStr confirmation_id) f))
  | _ => Raise ProtocolError
  end.

(** The message types without fields of their own. *)
Definition SIGNALS :=
  ["catalog_request"; "wake"; "hold_start"; "hold_end"; "audio_end"; "abort"]%string.

Definition parse_fields (t : pystr) (payload f : object) : result object :=
  if t =s "challenge_request" then parse_challenge_request payload f
  else if t =s "hello" then parse_hello payload f
  else if t =s "device_hello" then parse_device_hello payload f
  else if t =s "text_input" then parse_text_input payload f
  else if one_of t SIGNALS then Ok f
  else if t =s "ping" then parse_ping payload f
  else if t =s "device_status" then parse_device_status payload f
  else if t =s "gesture" then parse_gesture payload f
  else if t =s "tool_call" then parse_tool_call payload f
  else if t =s "confirm" then parse_confirm payload f
  else Ok f.

Definition parse_client_message (v : value) : result client_message :=
  match v with
  | VDict payload =>
    match get (u "type") payload with
    | VStr t =>
      match dget t MESSAGE_FIELDS with
      | None => Raise ProtocolError
      | Some allowed =>
        if keys_within (COMMON_FIELDS ++ allowed) payload then
          version ← _protocol_version payload;
          f ← parse_fields t payload [(u "protocol_version", version)];
          Ok (ClientMessage t f)
        else Raise ProtocolError
      end
    | _ => Raise ProtocolError
    end
  | _ => Raise ProtocolError
  end.

(** ** Server messages *)

(** [SERVER_MESSAGE_FIELDS] *)
Definition SERVER_MESSAGE_FIELDS : dict pystr (list pystr) :=
  [(u "challenge", [u "challenge"]);
   (u "error", [u "code"; u "message"]);
   (u "ready", [u "session_id"; u "ui_state"]);
   (u "catalog", [u "commands"; u "capabilities"]);
   (u "confirm_request",
     [u "confirmation_id"; u "tool_name"; u "summary"; u "expires_at"; u "call_id"; u "request_digest"]);
   (u "tool_result", [u "tool_name"; u "status"; u "success"; u "call_id"]);
   (u "ui_state", [u "state"; u "caption"; u "focus_remaining"]);
   (u "pong", [u "request_id"]);
   (u "status_ack", []); (u "device_hello_ack", []);
   (u "gesture_ack", [u "gesture"]);
   (u "tts_aborted", [])].

(** [SERVER_MESSAGE_REQUIRED_FIELDS] *)
Definition SERVER_MESSAGE_REQUIRED_FIELDS : dict pystr (list pystr) :=
  [(u "challenge", [u "challenge"]);
   (u "error", [u "code"]);
   (u "ready", [u "session_id"; u "ui_state"]);
   (u "catalog", [u "commands"]);
   (u "confirm_request", [u "confirmation_id"; u "tool_name"; u "summary"; u "expires_at"]);
   (u "tool_result", [u "tool_name"; u "status"; u "success"]);
   (u "ui_state", [u "state"]);
   (u "pong", []);
   (u "status_ack", []); (u "device_hello_ack", []);
   (u "gesture_ack", [u "gesture"]);
   (u "tts_aborted", [])].

Definition MOBILE_SERVER_MESSAGE_TYPES : list literal :=
  ["device_hello_ack"; "catalog"; "confirm_request"; "tool_result"; "ui_state"; "error";
   "pong"; "status_ack"; "gesture_ack"; "tts_aborted"]%string.

Definition server_message (message_type : pystr) (fields : object) : result object :=
  if negb (nonempty (strip message_type)) then Raise ValueError
  else if dmem (u "type") fields || dmem (u "protocol_version") fields then Raise ValueError
  else match dget message_type SERVER_MESSAGE_FIELDS,
             dget message_type SERVER_MESSAGE_REQUIRED_FIELDS with
  | Some allowed_fields, Some required_fields =>
    if negb (keys_within allowed_fields fields) then Raise ValueError
    else if negb (keys_cover required_fields fields) then Raise ValueError
    else Ok ([(u "protocol_version", VInt PROTOCOL_VERSION); (u "type", VStr message_type)] ++ fields)
  | _, _ => Raise ValueError
  end.

(** The wire contract of a response. *)
Definition envelope_ok (r : object) : Prop :=
  ∃ t allowed required,
    get (u "type") r = VStr t ∧
    get (u "protocol_version") r = VInt PROTOCOL_VERSION ∧
    dget t SERVER_MESSAGE_FIELDS = Some allowed ∧
    dget t SERVER_MESSAGE_REQUIRED_FIELDS = Some required ∧
    (∀ k, k ∈ dkeys r → k ∈ COMMON_FIELDS ++ allowed) ∧
    (∀ k, k ∈ required → k ∈ dkeys r).

Lemma server_message_envelope t f r : server_message t f = Ok r → envelope_ok r.
Proof.
  unfold server_message. intros H. result_inv. reflect.
  exists t, l, l0. split_and!; try done.
  - intros k. unfold dkeys, COMMON_FIELDS. csimpl. rewrite !elem_of_cons.
    intros [->|[->|Hk]]; [by left | by right; left|]. do 2 right.
    by eapply keys_within_spec.
  - intros k Hk. eapply keys_cover_spec in Hk as [v Hv]; [|done].
    unfold dkeys. csimpl. do 2 right. apply dget_elem in Hv. apply list_elem_of_fmap.
    by exists (k, v).
Qed.

(** ** Abstract messages *)

Inductive message :=
| MChallengeRequest (device_id : pystr)
| MHello (device_id challenge_id signature : pystr) (firmware_version : option pystr)
    (capabilities : list pystr)
| MDeviceHello (firmware_version : option pystr) (capabilities : list pystr)
| MTextInput (text source : pystr)
| MSignal (name : pystr)
| MPing (request_id : option pystr)
| MDeviceStatus (audio_state : option pystr) (battery_percent wifi_rssi : option Z)
| MGesture (gesture : pystr)
| MToolCall (name : pystr) (arguments : object) (call_id request_digest : option pystr)
| MConfirm (confirmation_id : pystr) (accepted : bool).

(** [message.fields.get(k)] on a field that is absent or a string. *)
Definition opt_str (k : pystr) (f : object) : option (option pystr) :=
  match dget k f with
  | None => Some None
  | Some (VStr s) => Some (Some s)
  | _ => None
  end.

(** The normalised field set each message stands for. *)
Definition encode_fields (m : message) (version : value) : object :=
  let f := [(u "protocol_version", version)] in
  match m with
  | MChallengeRequest d => dset (u "device_id") (VStr d) f
  | MHello d c s fw caps =>
    dset (u "capabilities") (str_list caps)
       (set_some (u "firmware_version") fw
         (dset (u "signature") (VStr s)
           (dset (u "challenge_id") (VStr c)
             (dset (u "device_id") (VStr d) f))))
  | MDeviceHello fw caps =>
    dset (u "capabilities") (str_list caps) (set_some (u "firmware_version") fw f)
  | MTextInput t s => dset (u "source") (VStr s) (dset (u "text") (VStr t) f)
  | MSignal _ => f
  | MPing r => set_some (u "request_id") r f
  | MDeviceStatus a b w =>
    dset (u "wifi_rssi") (default VNone (VInt <$> w))
      (dset (u "battery_percent") (default VNone (VInt <$> b))
        (dset (u "audio_state") (default VNone (VStr <$> a)) f))
  | MGesture g => dset (u "gesture") (VStr g) f
  | MToolCall n a c r =>
    set_some (u "request_digest") r
      (set_some (u "call_id") c
        (dset (u "arguments") (VDict a) (dset (u "name") (VStr n) f)))
  | MConfirm c b =>
    dset (u "accepted") (VBool b) (dset (u "confirmation_id") (VStr c) f)
  end.

Definition type_of (m : message) : pystr :=
  match m with
  | MChallengeRequest _ => u "challenge_request"
  | MHello _ _ _ _ _ => u "hello"
  | MDeviceHello _ _ => u "device_hello"
  | MTextInput _ _ => u "text_input"
  | MSignal n => n
  | MPing _ => u "ping"
  | MDeviceStatus _ _ _ => u "device_status"
  | MGesture _ => u "gesture"
  | MToolCall _ _ _ _ => u "tool_call"
  | MConfirm _ _ => u "confirm"
  end.

(** A non-empty, stripped, control-free string of bounded length. *)
Definition clean (n : Z) (s : pystr) : Prop :=
  strip s = s ∧ s ≠ [] ∧ len s <= n ∧ Forall (λ c, control_char c = false) s.
Definition clean_opt (n : Z) (o : option pystr) : Prop := ∀ s, o = Some s → clean n s.
Definition clean_caps (l : list pystr) : Prop :=
  len l <= MAX_CAPABILITIES ∧ Forall (clean 32) l ∧ NoDup l.
Definition in_range (lo hi : Z) (o : option Z) : Prop := ∀ z, o = Some z → lo <= z <= hi.
Definition digest_shape (o : option pystr) : Prop :=
  ∀ s, o = Some s → len s = 64 ∧ Forall (λ c, digest_char c = true) s.

(** The bounds every accepted message satisfies. *)
Definition message_ok (m : message) : Prop :=
  match m with
  | MChallengeRequest d => clean 64 d
  | MHello d c s fw caps =>
    clean 64 d ∧ clean 128 c ∧ clean 256 s ∧ clean_opt 32 fw ∧ clean_caps caps
  | MDeviceHello fw caps => clean_opt 32 fw ∧ clean_caps caps
  | MTextInput t s => clean MAX_TEXT_LENGTH t ∧ one_of s TEXT_SOURCES = true
  | MSignal n => one_of n SIGNALS = true
  | MPing r => clean_opt 64 r
  | MDeviceStatus a b w =>
    (∀ s, a = Some s → one_of s AUDIO_STATES = true) ∧ in_range 0 100 b ∧ in_range (-127) 0 w
  | MGesture g => clean 32 g ∧ one_of g GESTURES = true
  | MToolCall n a c r =>
    clean MAX_TOOL_NAME_LENGTH n ∧ clean_opt 128 c ∧ digest_shape r ∧
    ∃ b, dump_bytes false false (VDict a) = Ok b ∧ len b <= MAX_ARGUMENTS_BYTES
  | MConfirm c _ => clean 128 c
  end.

(** [m] is the message [cm] carries. *)
Definition carries (cm : client_message) (m : message) : Prop :=
  msg_type cm = type_of m ∧
  ∃ version, eq_int version PROTOCOL_VERSION = true ∧ fields cm = encode_fields m version.

(** ** Reader lemmas *)

Lemma _string_ok payload k n s : _string payload k n = Ok s → clean n s.
Proof.
  unfold _string, clean. intros H. result_inv. reflect.
  rewrite strip_idemp. split_and!; [done|by apply nonempty_ne| |].
  - etransitivity; [apply len_strip_le|lia].
  - by apply strip_Forall, existsb_false_Forall.
Qed.

Lemma _string_raises payload k n e : _string payload k n = Raise e → e = ProtocolError.
Proof. unfold _string. repeat case_match; naive_solver. Qed.

Lemma _protocol_version_raises payload e : _protocol_version payload = Raise e → e = ProtocolError.
Proof. unfold _protocol_version. case_match; naive_solver. Qed.

Lemma _optional_string_ok payload k n o : _optional_string payload k n = Ok o → clean_opt n o.
Proof.
  unfold _optional_string, clean_opt. intros H s ->.
  result_inv; by eapply _string_ok.
Qed.

Lemma _optional_string_raises payload k n e :
  _optional_string payload k n = Raise e → e = ProtocolError.
Proof.
  unfold _optional_string, mbind, result_bind.
  repeat case_match; intros; simplify_eq; eauto using _string_raises.
Qed.

Lemma parse_capability_ok v s : parse_capability v = Ok s → clean 32 s.
Proof.
  unfold parse_capability. intros H. apply (_string_ok [(u "capability", v)] (u "capability")).
  done.
Qed.

Lemma traverse_Forall {A B} (f : A → result B) (P : B → Prop) l k :
  (∀ x y, f x = Ok y → P y) → traverse f l = Ok k → Forall P k ∧ length k = length l.
Proof.
  intros Hf. revert k. induction l as [|x l IH]; intros k; simpl; [by intros [= <-]|].
  intros H. result_inv. destruct (IH a0) as [??]; [done|]. split; [|simpl; lia].
  constructor; eauto.
Qed.

Lemma traverse_raises {A B} (f : A → result B) l e :
  traverse f l = Raise e → ∃ x, x ∈ l ∧ f x = Raise e.
Proof.
  induction l as [|x l IH]; simpl; [done|]. unfold mbind, result_bind.
  destruct (f x) eqn:Ef.
  - destruct (traverse f l); [done|]. intros [= <-]. destruct IH as (y & ? & ?); [done|].
    exists y. split; [by right|done].
  - intros [= <-]. exists x. split; [by left|done].
Qed.

Lemma _capabilities_ok payload l : _capabilities payload = Ok l → clean_caps l.
Proof.
  unfold _capabilities, clean_caps, no_duplicates. intros H. result_inv. reflect.
  destruct (traverse_Forall parse_capability (clean 32) l0 l) as [??]; eauto using parse_capability_ok.
  split_and!; [unfold len in *; lia|done|done].
Qed.

Lemma _capabilities_raises payload e : _capabilities payload = Raise e → e = ProtocolError.
Proof.
  unfold _capabilities, mbind, result_bind. intros H.
  repeat case_match; simplify_eq; try done.
  match goal with H : traverse _ _ = Raise _ |- _ => apply traverse_raises in H as (x & _ & Hx) end.
  unfold parse_capability in Hx. repeat case_match; naive_solver.
Qed.

Lemma _optional_request_digest_ok payload o :
  _optional_request_digest payload = Ok o → digest_shape o.
Proof.
  unfold _optional_request_digest, digest_shape. intros H s ->. result_inv. reflect.
  split; [done|]. apply existsb_false_Forall in H0. eapply Forall_impl; [exact H0|].
  intros c Hc. by apply negb_false_iff.
Qed.

Lemma _optional_request_digest_raises payload e :
  _optional_request_digest payload = Raise e → e = ProtocolError.
Proof. unfold _optional_request_digest. repeat case_match; naive_solver. Qed.

Lemma reraise_dump_raises v e e' :
  reraise [TypeError; ValueError] e (dump_bytes false false v) = Raise e' → e' = e.
Proof.
  unfold reraise. destruct (dump_bytes false false v) eqn:E; [done|].
  apply dump_bytes_raises in E as ->. congruence.
Qed.

(** ** The parser produces well-formed messages *)

Ltac readers :=
  eauto using _string_ok, _optional_string_ok, _capabilities_ok, _optional_request_digest_ok.

Lemma parse_device_status_ok payload v f :
  parse_device_status payload [(u "protocol_version", v)] = Ok f →
  ∃ a b w, f = encode_fields (MDeviceStatus a b w) v ∧ message_ok (MDeviceStatus a b w).
Proof.
  unfold parse_device_status, message_ok, in_range.
  destruct (get (u "audio_state") payload) as [| | | |sa| |] eqn:Ea; try done;
  destruct (get (u "battery_percent") payload) as [| |zb| | | |] eqn:Eb; try (intros; by result_inv);
  destruct (get (u "wifi_rssi") payload) as [| |zw| | | |] eqn:Ew; try (intros; by result_inv);
  intros H; result_inv; reflect;
  [exists None, None, None | exists None, None, (Some zw) | exists None, (Some zb), None
  |exists None, (Some zb), (Some zw) | exists (Some sa), None, None | exists (Some sa), None, (Some zw)
  |exists (Some sa), (Some zb), None | exists (Some sa), (Some zb), (Some zw)];
  (split; [done|]); split_and!; intros ? ?; simplify_eq; done.
Qed.

Lemma parse_tool_call_ok payload v f :
  parse_tool_call payload [(u "protocol_version", v)] = Ok f →
  ∃ n a c r, f = encode_fields (MToolCall n a c r) v ∧ message_ok (MToolCall n a c r).
Proof.
  unfold parse_tool_call, message_ok. unfold mbind, result_bind.
  destruct (_string payload (u "name") _) as [n|] eqn:En; [|done].
  destruct (get_or _ _ _) as [| | | | | |a]; try done.
  destruct (dump_bytes false false (VDict a)) as [b|] eqn:Eb;
    [|intros H; unfold reraise in H; by result_inv].
  cbn [reraise]. destruct (MAX_ARGUMENTS_BYTES <? len b) eqn:El; [done|].
  destruct (_optional_string payload (u "call_id") _) as [c|] eqn:Ec; [|done].
  destruct (_optional_request_digest payload) as [r|] eqn:Er; [|done].
  intros [= <-]. exists n, a, c, r. split; [done|]. reflect.
  split_and!; [by readers..|]. by exists b.
Qed.

(** A type that passes none of the tests of [parse_fields] is not in the
    message table. *)
Lemma MESSAGE_FIELDS_known t allowed :
  dget t MESSAGE_FIELDS = Some allowed →
  t ∈ [u "challenge_request"; u "hello"; u "device_hello"; u "text_input"; u "ping"; u "device_status";
       u "gesture"; u "tool_call"; u "confirm"] ∨ one_of t SIGNALS = true.
Proof.
  intros H. apply dget_elem in H.
  assert (t ∈ dkeys MESSAGE_FIELDS) as Hk by (apply list_elem_of_fmap; by exists (t, allowed)).
  unfold dkeys in Hk. csimpl in Hk. rewrite !elem_of_cons in Hk. rewrite !elem_of_cons.
  destruct_or! Hk; subst; try tauto; right; by_compute.
Qed.

Lemma parse_fields_ok t payload v f allowed :
  dget t MESSAGE_FIELDS = Some allowed →
  parse_fields t payload [(u "protocol_version", v)] = Ok f →
  ∃ m, type_of m = t ∧ f = encode_fields m v ∧ message_ok m.
Proof.
  intros Ht H. unfold parse_fields in H.
  destruct (t =s "challenge_request") eqn:E1; [apply is_lit_true in E1; subst t; clear -H; unfold parse_challenge_request in H; result_inv|].
  { exists (MChallengeRequest a). split_and!; [done..|]. simpl. by readers. }
  destruct (t =s "hello") eqn:E2; [apply is_lit_true in E2; subst t; clear -H; unfold parse_hello in H; result_inv|].
  { exists (MHello a a0 a1 a2 a3). split_and!; [done..|]. simpl. split_and!; by readers. }
  destruct (t =s "device_hello") eqn:E3; [apply is_lit_true in E3; subst t; clear -H; unfold parse_device_hello in H; result_inv|].
  { exists (MDeviceHello a a0). split_and!; [done..|]. simpl. split_and!; by readers. }
  destruct (t =s "text_input") eqn:E4; [apply is_lit_true in E4; subst t; clear -H; unfold parse_text_input in H; result_inv|].
  { exists (MTextInput a s). split_and!; [done..|]. simpl. split_and!; [by readers|done]. }
  destruct (one_of t SIGNALS) eqn:E5; [result_inv; by exists (MSignal t)|].
  destruct (t =s "ping") eqn:E6; [apply is_lit_true in E6; subst t; clear -H; unfold parse_ping in H; result_inv|].
  { exists (MPing a). split_and!; [done..|]. simpl. by readers. }
  destruct (t =s "device_status") eqn:E7; [reflect; subst|].
  { apply parse_device_status_ok in H as (a & b & w & ? & ?). by exists (MDeviceStatus a b w). }
  destruct (t =s "gesture") eqn:E8; [apply is_lit_true in E8; subst t; clear -H; unfold parse_gesture in H; result_inv|].
  { exists (MGesture a). split_and!; [done..|]. simpl. split_and!; [by readers|done]. }
  destruct (t =s "tool_call") eqn:E9; [reflect; subst|].
  { apply parse_tool_call_ok in H as (n & a & c & r & ? & ?). by exists (MToolCall n a c r). }
  destruct (t =s "confirm") eqn:E10; [apply is_lit_true in E10; subst t; clear -H; unfold parse_confirm in H; result_inv|].
  { exists (MConfirm a b). split_and!; [done..|]. simpl. by readers. }
  reflect. apply MESSAGE_FIELDS_known in Ht as [Ht|Ht]; [set_solver|congruence].
Qed.

Lemma parse_fields_raises t payload v e :
  parse_fields t payload [(u "protocol_version", v)] = Raise e → e = ProtocolError.
Proof.
  unfold parse_fields, parse_challenge_request, parse_hello, parse_device_hello, parse_text_input,
    parse_ping, parse_device_status, parse_gesture, parse_tool_call, parse_confirm.
  unfold mbind, result_bind. intros H.
  repeat match type of H with
  | (if ?b then _ else _) = _ => destruct b
  | (match ?r with Ok _ => _ | Raise _ => _ end) = _ =>
      let E := fresh "E" in destruct r eqn:E; simplify_eq
  | (match ?v with VNone => _ | _ => _ end) = _ => destruct v
  end; simplify_eq; try done;
  eauto using _string_raises, _optional_string_raises, _capabilities_raises,
    _optional_request_digest_raises, ensure_raises, reraise_dump_raises.
Qed.

Lemma parse_client_message_carries v cm :
  parse_client_message v = Ok cm →
  ∃ m payload allowed, v = VDict payload ∧ carries cm m ∧ message_ok m ∧
    dget (type_of m) MESSAGE_FIELDS = Some allowed ∧
    (∀ k, k ∈ dkeys payload → k ∈ COMMON_FIELDS ++ allowed).
Proof.
  unfold parse_client_message, _protocol_version. intros H. result_inv.
  rename s into t, d into payload, l into allowed, a0 into f.
  destruct (parse_fields_ok t payload (get (u "protocol_version") payload) f allowed)
    as (m & <- & -> & Hm); [done..|].
  exists m, payload, allowed. split_and!; [done| |done|done|].
  - split; [done|]. by exists (get (u "protocol_version") payload).
  - by apply keys_within_spec.
Qed.

Lemma parse_client_message_raises v e :
  parse_client_message v = Raise e → e = ProtocolError.
Proof.
  unfold parse_client_message, mbind, result_bind. intros H.
  repeat match type of H with
  | (if ?b then _ else _) = _ => destruct b
  | (match ?r with Ok _ => _ | Raise _ => _ end) = _ =>
      let E := fresh "E" in destruct r eqn:E; simplify_eq
  | (match ?v with _ => _ end) = _ => destruct v
  end; simplify_eq; try done; eauto using parse_fields_raises, _protocol_version_raises.
Qed.

(** ** Every well-formed message is accepted as it is *)

Lemma _string_clean payload k n s :
  get k payload = VStr s → clean n s → _string payload k n = Ok s.
Proof.
  unfold _string, clean. intros -> (Hs & Hne & Hlen & Hc). rewrite Hs.
  apply nonempty_ne in Hne. rewrite Hne. rewrite (proj2 (Z.ltb_ge n (len s))) by done.
  by rewrite (proj2 (existsb_false_Forall _ _)).
Qed.

Lemma _optional_string_clean payload k n o :
  get k payload = default VNone (VStr <$> o) → clean_opt n o →
  _optional_string payload k n = Ok o.
Proof.
  unfold _optional_string. intros Hg Ho. destruct o as [s|]; simpl in Hg; [|by rewrite Hg].
  rewrite Hg, (_string_clean payload k n s) by eauto. done.
Qed.

Lemma parse_capability_clean s : clean 32 s → parse_capability (VStr s) = Ok s.
Proof. intros Hs. by apply (_string_clean [(u "capability", VStr s)] (u "capability")). Qed.

Lemma traverse_capability_clean l :
  Forall (clean 32) l → traverse parse_capability (VStr <$> l) = Ok l.
Proof.
  induction 1 as [|s l Hs _ IH]; [done|]. rewrite fmap_cons. cbn [traverse].
  by rewrite parse_capability_clean, IH.
Qed.

Lemma _capabilities_clean payload l :
  get_or (u "capabilities") (VList []) payload = str_list l → clean_caps l →
  _capabilities payload = Ok l.
Proof.
  unfold _capabilities, str_list, clean_caps, no_duplicates. intros -> (Hlen & Hl & Hnd).
  assert (len (VStr <$> l) = len l) as -> by (unfold len; by rewrite length_fmap).
  rewrite (proj2 (Z.ltb_ge _ (len l))) by done.
  rewrite traverse_capability_clean by done. cbn [mbind result_bind].
  by rewrite bool_decide_true.
Qed.

Lemma _request_digest_clean payload o :
  get (u "request_digest") payload = default VNone (VStr <$> o) → digest_shape o →
  _optional_request_digest payload = Ok o.
Proof.
  unfold _optional_request_digest. intros Hg Ho. destruct o as [s|]; simpl in Hg; rewrite Hg; [|done].
  destruct (Ho s eq_refl) as [Hlen Hs]. rewrite Hlen. simpl.
  rewrite (proj2 (existsb_false_Forall _ _)); [done|].
  eapply Forall_impl; [exact Hs|]. intros c Hc. by rewrite Hc.
Qed.

(** The wire form of a message. *)
Definition encode_message (m : message) (version : value) : value :=
  VDict ((u "type", VStr (type_of m)) :: encode_fields m version).

(** The dispatch of [parse_fields] on a literal type, and of a signal. *)
Ltac dispatch t p := change (parse_fields t) with p.

Lemma parse_fields_signal n payload f : one_of n SIGNALS = true → parse_fields n payload f = Ok f.
Proof.
  intros Hn. unfold parse_fields.
  destruct (n =s "challenge_request") eqn:E1; [reflect; by subst|].
  destruct (n =s "hello") eqn:E2; [reflect; by subst|].
  destruct (n =s "device_hello") eqn:E3; [reflect; by subst|].
  destruct (n =s "text_input") eqn:E4; [reflect; by subst|].
  by rewrite Hn.
Qed.

Lemma parse_device_status_encode a b w v :
  message_ok (MDeviceStatus a b w) →
  let p := (u "type", VStr (u "device_status")) :: encode_fields (MDeviceStatus a b w) v in
  parse_device_status p [(u "protocol_version", v)] = Ok (encode_fields (MDeviceStatus a b w) v).
Proof.
  intros (Ha & Hb & Hw) p. unfold parse_device_status.
  change (get (u "audio_state") p) with (default VNone (VStr <$> a)).
  change (get (u "battery_percent") p) with (default VNone (VInt <$> b)).
  change (get (u "wifi_rssi") p) with (default VNone (VInt <$> w)).
  assert (match default VNone (VStr <$> a) with
          | VNone => true | VStr s => one_of s AUDIO_STATES | _ => false end = true) as ->
    by (destruct a as [sa|]; [exact (Ha sa eq_refl)|done]).
  assert (match default VNone (VInt <$> b) with
          | VNone => true | VInt z => (0 <=? z) && (z <=? 100) | _ => false end = true) as ->
    by (destruct b as [z|]; [specialize (Hb z eq_refl); apply andb_true_iff; lia|done]).
  assert (match default VNone (VInt <$> w) with
          | VNone => true | VInt z => (-127 <=? z) && (z <=? 0) | _ => false end = true) as ->
    by (destruct w as [z|]; [specialize (Hw z eq_refl); apply andb_true_iff; lia|done]).
  done.
Qed.

Lemma parse_tool_call_encode n a c r v :
  message_ok (MToolCall n a c r) →
  parse_tool_call ((u "type", VStr (u "tool_call")) :: encode_fields (MToolCall n a c r) v)
    [(u "protocol_version", v)] = Ok (encode_fields (MToolCall n a c r) v).
Proof.
  intros (Hn & Hc & Hr & b & Hb & Hlen). unfold parse_tool_call, mbind, result_bind.
  rewrite (_string_clean _ _ MAX_TOOL_NAME_LENGTH n); [|by destruct c, r|done].
  assert (∀ d, get_or (u "arguments") d
    ((u "type", VStr (u "tool_call")) :: encode_fields (MToolCall n a c r) v) = VDict a) as ->
    by (intros; by destruct c, r).
  rewrite Hb. cbn [reraise]. rewrite (proj2 (Z.ltb_ge _ (len b))) by done.
  rewrite (_optional_string_clean _ _ 128 c), (_request_digest_clean _ r); try done; by destruct c, r.
Qed.

Lemma parse_fields_encode m v :
  message_ok m →
  parse_fields (type_of m) ((u "type", VStr (type_of m)) :: encode_fields m v)
    [(u "protocol_version", v)] = Ok (encode_fields m v).
Proof.
  destruct m as [d|d c s fw caps|fw caps|t s|n|r|a b w|g|n a c r|c b]; intros Hok;
    cbn [type_of].
  - dispatch (u "challenge_request") parse_challenge_request. unfold parse_challenge_request.
    by rewrite (_string_clean _ _ 64 d).
  - destruct Hok as (Hd & Hc & Hs & Hfw & Hcaps).
    dispatch (u "hello") parse_hello. unfold parse_hello.
    rewrite (_string_clean _ _ 64 d), (_string_clean _ _ 128 c), (_string_clean _ _ 256 s),
      (_optional_string_clean _ _ 32 fw), (_capabilities_clean _ caps); try done; by destruct fw.
  - destruct Hok as (Hfw & Hcaps). dispatch (u "device_hello") parse_device_hello.
    unfold parse_device_hello.
    rewrite (_optional_string_clean _ _ 32 fw), (_capabilities_clean _ caps); try done; by destruct fw.
  - destruct Hok as (Ht & Hs). dispatch (u "text_input") parse_text_input. unfold parse_text_input.
    rewrite (_string_clean _ _ MAX_TEXT_LENGTH t) by done. unfold mbind, result_bind.
    change (get_or (u "source") _ _) with (VStr s). cbv iota. by rewrite Hs.
  - by apply parse_fields_signal.
  - dispatch (u "ping") parse_ping. unfold parse_ping.
    rewrite (_optional_string_clean _ _ 64 r); [done| |done]. by destruct r.
  - dispatch (u "device_status") parse_device_status. by apply parse_device_status_encode.
  - destruct Hok as (Hg & Hg'). dispatch (u "gesture") parse_gesture. unfold parse_gesture.
    rewrite (_string_clean _ _ 32 g) by done. unfold mbind, result_bind. by rewrite Hg'.
  - dispatch (u "tool_call") parse_tool_call. by apply parse_tool_call_encode.
  - dispatch (u "confirm") parse_confirm. unfold parse_confirm.
    by rewrite (_string_clean _ _ 128 c).
Qed.

Lemma encode_fields_keys m v :
  message_ok m →
  ∃ allowed, dget (type_of m) MESSAGE_FIELDS = Some allowed ∧
    keys_within (COMMON_FIELDS ++ allowed)
      ((u "type", VStr (type_of m)) :: encode_fields m v) = true.
Proof.
  destruct m as [d|d c s fw caps|fw caps|t s|n|r|a b w|g|n a c r|c b]; intros Hok;
    cbn [type_of]; try (eexists; split; [reflexivity|by_compute]);
    try (by destruct fw; eexists; (split; [reflexivity|by_compute])).
  - exists []. split; [|by_compute]. simpl in Hok. unfold SIGNALS, one_of in Hok. simpl in Hok.
    rewrite !orb_true_iff in Hok. destruct_or! Hok; reflect; by subst.
  - destruct r; eexists; (split; [reflexivity|by_compute]).
  - destruct c, r; eexists; (split; [reflexivity|by_compute]).
Qed.

(** ** Properties *)

Lemma SERVER_MESSAGE_FIELDS_nonblank t allowed :
  dget t SERVER_MESSAGE_FIELDS = Some allowed → strip t ≠ [].
Proof.
  intros H%dget_elem. unfold SERVER_MESSAGE_FIELDS in H.
  rewrite !elem_of_cons in H. destruct_or! H; simplify_eq; first [set_solver|vm_compute; discriminate].
Qed.

Lemma required_not_common t required k :
  dget t SERVER_MESSAGE_REQUIRED_FIELDS = Some required → k ∈ required → k ∉ COMMON_FIELDS.
Proof.
  intros H%dget_elem. unfold SERVER_MESSAGE_REQUIRED_FIELDS in H.
  assert (Forall (λ kv : pystr * list pystr, forallb (λ k, negb (bool_decide (k ∈ COMMON_FIELDS))) kv.2 = true)
    SERVER_MESSAGE_REQUIRED_FIELDS) as Hall by (repeat constructor).
  rewrite Forall_forall in Hall. apply Hall in H. simpl in H. rewrite forallb_forall in H.
  intros Hk%list_elem_of_In. apply H in Hk. apply negb_true_iff in Hk. by apply bool_decide_eq_false in Hk.
Qed.

Definition server_header (t : pystr) : object :=
  [(u "protocol_version", VInt PROTOCOL_VERSION); (u "type", VStr t)].

Lemma get_header_type t f : get (u "type") (server_header t ++ f) = VStr t.
Proof. done. Qed.

Lemma server_message_complete t f :
  (∀ k, k ∈ COMMON_FIELDS → k ∉ dkeys f) → envelope_ok (server_header t ++ f) →
  server_message t f = Ok (server_header t ++ f).
Proof.
  intros Hc (t' & allowed & required & Ht & _ & Ha & Hr & Hall & Hreq).
  rewrite get_header_type in Ht. injection Ht as <-. unfold server_message.
  assert (nonempty (strip t) = true) as ->
    by (by eapply nonempty_ne, SERVER_MESSAGE_FIELDS_nonblank).
  assert (dmem (u "type") f = false) as ->
    by (apply dmem_false, dget_None, Hc; unfold COMMON_FIELDS; set_solver).
  assert (dmem (u "protocol_version") f = false) as ->
    by (apply dmem_false, dget_None, Hc; unfold COMMON_FIELDS; set_solver).
  cbn [negb orb]. rewrite Ha, Hr.
  assert (keys_within allowed f = true) as ->.
  { apply keys_within_spec. intros k Hk. specialize (Hc k).
    destruct (proj1 (elem_of_app _ _ _) (Hall k ltac:(do 2 right; exact Hk))); [tauto|done]. }
  assert (keys_cover required f = true) as ->; [|done].
  apply keys_cover_spec. intros k Hk. pose proof (required_not_common t required k Hr Hk) as Hn.
  specialize (Hreq k Hk). destruct (dget k f) as [v|] eqn:E; [by exists v|].
  apply dget_None in E. unfold dkeys in Hreq. csimpl in Hreq. unfold COMMON_FIELDS in Hn.
  rewrite !elem_of_cons in Hreq. rewrite !not_elem_of_cons in Hn. clear -Hreq Hn E. tauto.
Qed.

Lemma server_message_raises t f : raises_only (λ e, e = ValueError) (server_message t f).
Proof. unfold server_message. by repeat raises_step. Qed.

(** C8: A decoded JSON value is either refused with [ProtocolError] and no
    other exception, or it is an object with only the keys the allowlist of its
    type permits and the accepted message carries a well-formed abstract
    message: stripped, control-free, bounded strings, unique bounded
    capabilities, percentages and signal levels in range, arguments of at most
    4096 encoded bytes and a hexadecimal digest. *)
Theorem parse_client_message_sound v :
  match parse_client_message v with
  | Ok cm =>
    ∃ m payload allowed, v = VDict payload ∧ carries cm m ∧ message_ok m ∧
      dget (type_of m) MESSAGE_FIELDS = Some allowed ∧
      (∀ k, k ∈ dkeys payload → k ∈ COMMON_FIELDS ++ allowed)
  | Raise e => e = ProtocolError
  end.
Proof.
  destruct (parse_client_message v) eqn:E;
    [by apply parse_client_message_carries | by eapply parse_client_message_raises].
Qed.

(** Every well-formed message is accepted, and its fields come back as
    they were sent: parsing is a left inverse of the wire form. *)
Lemma parse_encode_message m version :
  message_ok m → eq_int version PROTOCOL_VERSION = true →
  parse_client_message (encode_message m version) =
    Ok (ClientMessage (type_of m) (encode_fields m version)).
Proof.
  intros Hm Hv. unfold parse_client_message, encode_message.
  change (get (u "type") _) with (VStr (type_of m)). cbv iota.
  destruct (encode_fields_keys m version Hm) as (allowed & -> & Hk). cbv iota. rewrite Hk.
  unfold _protocol_version.
  assert (get (u "protocol_version") ((u "type", VStr (type_of m)) :: encode_fields m version) = version) as ->.
  { destruct m as [|? ? ? fw ?|fw ?| | |r| | |? ? c r|]; try reflexivity;
      first [by destruct fw | by destruct c, r | by destruct r]. }
  rewrite Hv. unfold mbind, result_bind. by rewrite parse_fields_encode.
Qed.

(** [server_message] builds an envelope exactly when the fields avoid the
    header's names and the result meets the wire contract of its type; it
    returns the header followed by the fields untouched, and can only raise
    [ValueError]. *)
Theorem server_message_exact t f r :
  (server_message t f = Ok r ↔
    r = server_header t ++ f ∧ (∀ k, k ∈ COMMON_FIELDS → k ∉ dkeys f) ∧ envelope_ok r) ∧
  (∀ e, server_message t f = Raise e → e = ValueError).
Proof.
  split; [split|].
  - intros H. pose proof (server_message_envelope _ _ _ H) as He. unfold server_message in H.
    result_inv. reflect. split_and!; [done| |done].
    intros k Hk. unfold COMMON_FIELDS in Hk. rewrite !elem_of_cons in Hk.
    destruct_or! Hk; [subst; by apply dget_None, dmem_false..|by apply not_elem_of_nil in Hk].
  - intros (-> & Hc & He). by apply server_message_complete.
  - apply server_message_raises.
Qed.
