(* ===== verification/Wire.v ===== *)
(** * One JSON object off the wire: [protocol.py: parse_json_object]

    A text frame (WebSocket) or a byte line (serial) becomes one object with
    distinct names or a [ProtocolError].  Byte input is decoded as [json.loads]
    does: UTF-8, UTF-16 or UTF-32 by its first bytes, surrogates passed. *)
From S2P Require Import Prelude Dict Value Json JsonParse JsonRoundtrip JsonIndent Protocol.

(** ** [json.detect_encoding] and the three decoders *)

(** Two-byte units, most significant byte first when [big]. *)
Fixpoint units16 (big : bool) (b : bytes) : option (list Z) :=
  match b with
  | [] => Some []
  | x :: y :: b' => cons_opt (if big then x * 256 + y else y * 256 + x) (units16 big b')
  | _ => None
  end.
(** A high surrogate joins a low one that follows; alone it is passed. *)
Fixpoint join_units (l : list Z) : pystr :=
  match l with
  | [] => []
  | h :: r =>
    match r with
    | lo :: r' =>
      if high_surrogate h && low_surrogate lo then join_surrogates h lo :: join_units r'
      else h :: join_units r
    | [] => [h]
    end
  end.
Definition utf16_decode (big : bool) (b : bytes) : option pystr := join_units <$> units16 big b.

Fixpoint utf32_decode (big : bool) (b : bytes) : option pystr :=
  match b with
  | [] => Some []
  | w :: x :: y :: z :: b' =>
    let c := if big then ((w * 256 + x) * 256 + y) * 256 + z else ((z * 256 + y) * 256 + x) * 256 + w in
    if 0x10FFFF <? c then None else cons_opt c (utf32_decode big b')
  | _ => None
  end.

(** [b.decode(json.detect_encoding(b), "surrogatepass")] *)
Definition json_decode (b : bytes) : option pystr :=
  match b with
  | 0 :: 0 :: 0xFE :: 0xFF :: b' => utf32_decode true b'
  | 0xFF :: 0xFE :: 0 :: 0 :: b' => utf32_decode false b'
  | 0xFE :: 0xFF :: b' => utf16_decode true b'
  | 0xFF :: 0xFE :: b' => utf16_decode false b'
  | 0xEF :: 0xBB :: 0xBF :: b' => utf8_decode_with true b'
  | 0 :: x :: _ :: _ :: _ => if x =? 0 then utf32_decode true b else utf16_decode true b
  | _ :: 0 :: y :: z :: _ => if (y =? 0) && (z =? 0) then utf32_decode false b else utf16_decode false b
  | [0; _] => utf16_decode true b
  | [_; 0] => utf16_decode false b
  | _ => utf8_decode_with true b
  end.

(** ** The object *)

Definition _reject_duplicate_fields (pairs : list (pystr * value)) : result object :=
  reject_duplicates ProtocolError pairs [].

(** What [parse_json_object] is given. *)
Inductive raw_message := RawText (s : pystr) | RawBytes (b : bytes).

Definition json_loads (raw : raw_message) : result value :=
  match raw with
  | RawText s => loads _reject_duplicate_fields s
  | RawBytes b =>
    match json_decode b with
    | Some s => loads _reject_duplicate_fields s
    | None => Raise UnicodeDecodeError
    end
  end.

Definition parse_json_object (raw : raw_message) : result object :=
  payload ← reraise [TypeError; UnicodeDecodeError; JSONDecodeError] ProtocolError (json_loads raw);
  match payload with VDict d => Ok d | _ => Raise ProtocolError end.

(** ** Which errors reach the transports *)

Lemma json_loads_raises raw :
  raises_only (λ e, e = ProtocolError ∨ e = JSONDecodeError ∨ e = UnicodeDecodeError ∨ e = ValueError) (json_loads raw).
Proof.
  assert (∀ s, raises_only (λ e, e = ProtocolError ∨ e = JSONDecodeError ∨ e = UnicodeDecodeError ∨ e = ValueError)
    (loads _reject_duplicate_fields s)) as Hl.
  { intros s. apply loads_raises; [by auto..|]. intros pairs e He. left. by eapply reject_duplicates_raises. }
  destruct raw as [s|b]; simpl; [apply Hl|]. destruct (json_decode b); [apply Hl|]. intros e [= <-]. auto.
Qed.

(** A frame is an object or [ProtocolError]; only an integer too long to
    convert escapes as a bare [ValueError]. *)
Lemma parse_json_object_raises raw : raises_only (λ e, e = ProtocolError ∨ e = ValueError) (parse_json_object raw).
Proof.
  unfold parse_json_object. apply raises_only_bind.
  - apply raises_only_reraise; [by left|]. eapply raises_only_weaken; [apply json_loads_raises|].
    intros e He Hc. destruct He as [->|[->|[->| ->]]]; auto; done.
  - intros v. destruct v; repeat raises_step; auto.
Qed.

Definition long_integer_frame : pystr := u "[" ++ repeat 49 4301 ++ u "]".
Theorem long_integer_escapes :
  parse_json_object (RawText long_integer_frame) = Raise ValueError ∧ caught ValueError [ProtocolError] = false.
Proof. split; vm_compute; reflexivity. Qed.

(** The text a frame carries. *)
Definition frame_text (raw : raw_message) : option pystr :=
  match raw with RawText s => Some s | RawBytes b => json_decode b end.

(** Decoding a frame ends on every input: either its bytes are no text and
    it is a [ProtocolError], or the scanner gets to a value or an error within
    the fuel it starts with, and the frame is the object that value is or an
    error; no error but [ProtocolError] and, for an integer of more than 4300
    digits, [ValueError] comes out. *)
Theorem parse_json_object_total raw :
  match frame_text raw with
  | None => parse_json_object raw = Raise ProtocolError
  | Some s => ∃ r, parse_document _reject_duplicate_fields s = Some r ∧
      match parse_json_object raw with
      | Ok d => r = Ok (VDict d)
      | Raise e => e = ProtocolError ∨ (e = ValueError ∧ r = Raise ValueError)
      end
  end.
Proof.
  assert (∀ s, json_loads raw = loads _reject_duplicate_fields s →
    ∃ r, parse_document _reject_duplicate_fields s = Some r ∧
      match parse_json_object raw with
      | Ok d => r = Ok (VDict d)
      | Raise e => e = ProtocolError ∨ (e = ValueError ∧ r = Raise ValueError)
      end) as Hs.
  { intros s Hraw. destruct (parse_terminates _reject_duplicate_fields s) as (r & Hr & Hl). exists r. split; [done|].
    pose proof (json_loads_raises raw) as He. unfold parse_json_object. rewrite Hraw, Hl in *.
    destruct r as [v|e]; [destruct v; simpl; auto|]. specialize (He e eq_refl).
    destruct He as [->|[->|[->| ->]]]; simpl; auto. }
  destruct raw as [s|b]; cbn [frame_text]; [by apply Hs|].
  destruct (json_decode b) as [s|] eqn:Hb; [apply Hs; simpl; by rewrite Hb|].
  unfold parse_json_object. simpl. by rewrite Hb.
Qed.

(** ** From the device to the parser *)

Lemma json_decode_object t b :
  utf8_encode t = Some b → (∃ c t', t = 123 :: c :: t' ∧ 0 < c < 0x80) → json_decode b = Some t.
Proof.
  intros Hb (c & t' & -> & Hc). pose proof (utf8_roundtrip true _ _ Hb) as Hd. cbn [utf8_encode] in Hb.
  change (utf8_encode_char 123) with (Some [123]) in Hb.
  assert (utf8_encode_char c = Some [c]) as Hcc.
  { unfold utf8_encode_char, surrogate. rewrite (proj2 (Z.ltb_ge c 0)), (proj2 (Z.ltb_ge 1114111 c)),
      (proj2 (Z.leb_gt 55296 c)), (proj2 (Z.ltb_lt c 128)) by lia. done. }
  rewrite Hcc in Hb. destruct (utf8_encode t') as [b'|]; [|done]. injection Hb as <-. cbn [app] in *.
  unfold json_decode. destruct c as [|p|p]; [lia| |lia]. destruct b' as [|x [|y b']]; exact Hd.
Qed.

Lemma utf8_encode_app s t b b' :
  utf8_encode s = Some b → utf8_encode t = Some b' → utf8_encode (s ++ t) = Some (b ++ b').
Proof.
  revert b. induction s as [|c s IH]; intros b; simpl; [by intros [= <-]|].
  destruct (utf8_encode_char c) as [bc|]; [|done]. destruct (utf8_encode s) as [bs|] eqn:Es; [|done].
  intros [= <-] Ht. by rewrite (IH bs eq_refl Ht), app_assoc.
Qed.

(** The text of an object starts with a brace and a quote or a brace. *)
Lemma dumps_object_head sk an d t : dumps sk an (VDict d) = Ok t → ∃ c t', t = 123 :: c :: t' ∧ 0 < c < 0x80.
Proof.
  rewrite dumps_items. unfold mbind, result_bind. case_match; [|done]. intros [= <-]. unfold dump_items.
  set (items := if sk then _ else _). destruct items as [|kt items]; [by exists 125, []|].
  rewrite fmap_cons. destruct (join_opens 34 (tail (dump_str kt.1 ++ [58] ++ kt.2))
    ((λ kv, dump_str kv.1 ++ [58] ++ kv.2) <$> items)) as [w Hw].
  change (34 :: tail (dump_str kt.1 ++ [58] ++ kt.2)) with (dump_str kt.1 ++ [58] ++ kt.2) in Hw.
  rewrite Hw. by eexists 34, _.
Qed.

(** A printed object is read back from text and from bytes, with or without the
    newline that ends a line. *)
Lemma parse_json_object_dump d b :
  plain (VDict d) → dump_bytes false false (VDict d) = Ok b →
  ∃ t, utf8_encode t = Some b ∧ parse_json_object (RawText t) = Ok d ∧ parse_json_object (RawBytes b) = Ok d ∧
    parse_json_object (RawBytes (b ++ [10])) = Ok d.
Proof.
  intros Hp Hd. destruct (loads_dump_text false ProtocolError false (VDict d) b Hp Hd) as (t & Hb & Ht & Hl).
  apply dumps_object_head in Ht as (c & t' & Hhead & Hc).
  assert (∀ w, w = [] ∨ w = [10] → parse_json_object (RawText (t ++ w)) = Ok d) as Htext.
  { intros w Hw. unfold parse_json_object, json_loads, _reject_duplicate_fields. by rewrite Hl. }
  assert (∀ s x, utf8_encode s = Some x → (∃ c t', s = 123 :: c :: t' ∧ 0 < c < 0x80) →
    parse_json_object (RawText s) = Ok d → parse_json_object (RawBytes x) = Ok d) as Hbytes.
  { intros s x Hs Hh Hr. unfold parse_json_object, json_loads in *. by rewrite (json_decode_object s x Hs Hh). }
  exists t. pose proof (Htext [] (or_introl eq_refl)) as H0. rewrite app_nil_r in H0.
  split_and!; [done|done|apply (Hbytes t); [done|by exists c, t'|done]|].
  apply (Hbytes (t ++ [10])); [by apply utf8_encode_app| |by apply Htext; right].
  exists c, (t' ++ [10]). by rewrite Hhead.
Qed.

(** So is an object laid out as a configuration file. *)
Lemma parse_json_object_indent d b :
  plain (VDict d) → indent_bytes (VDict d) = Ok b → parse_json_object (RawBytes b) = Ok d.
Proof.
  intros Hp (t & Ht & Hb)%indent_bytes_ok. unfold parse_json_object, json_loads.
  rewrite (json_decode_object (t ++ [10]) b Hb).
  - unfold _reject_duplicate_fields. rewrite (loads_indent _ (λ d, reject_duplicates_wf ProtocolError d []) (VDict d)) by done.
    done.
  - apply dumps_indent_dict in Ht as (ts & _ & ->). destruct (indent_member <$> ts); by eexists _, _.
Qed.

(** C29: A message a device serializes as one line, or one text frame, arrives
    as that message: the line is decoded to the fields it carried and the
    parser accepts them unchanged.  The message is well formed and its values
    are [plain]: they hold no float, whose decimal notation is not modelled,
    the names of an object are distinct and a text is made of code points. *)
Theorem wire_roundtrip m version b (Hm : message_ok m) (Hv : eq_int version PROTOCOL_VERSION = true)
    (Hp : plain (encode_message m version)) (Hd : dump_bytes false false (encode_message m version) = Ok b) :
  ∃ t, utf8_encode t = Some b ∧ ∀ raw, raw ∈ [RawText t; RawBytes b; RawBytes (b ++ [10])] →
    (payload ← parse_json_object raw; parse_client_message (VDict payload)) =
      Ok (ClientMessage (type_of m) (encode_fields m version)).
Proof.
  destruct (parse_json_object_dump _ b Hp Hd) as (t & Hb & Ht & Hb1 & Hb2). exists t. split; [done|].
  intros raw Hraw.
  assert (parse_json_object raw = Ok ((u "type", VStr (type_of m)) :: encode_fields m version)) as ->.
  { apply elem_of_cons in Hraw as [->|Hraw]; [done|]. apply elem_of_cons in Hraw as [->|Hraw]; [done|].
    by apply list_elem_of_singleton in Hraw as ->. }
  by apply parse_encode_message.
Qed.

Definition sample_hello : message := MDeviceHello (Some (u "1.0.0")) [u "display"; u "touch"].
Definition sample_line : bytes := ok_or [] (dump_bytes false false (encode_message sample_hello (VInt 1))).

Lemma sample_hello_ok : message_ok sample_hello.
Proof.
  split.
  - intros s [= <-]. split_and!; [reflexivity|discriminate|vm_compute; discriminate|repeat constructor].
  - split_and!; [vm_compute; discriminate| |apply (bool_decide_unpack _); reflexivity].
    repeat constructor; vm_compute; discriminate.
Qed.

Lemma wire_roundtrip_witness :
  ∃ t, utf8_encode t = Some sample_line ∧ ∀ raw, raw ∈ [RawText t; RawBytes sample_line; RawBytes (sample_line ++ [10])] →
    (payload ← parse_json_object raw; parse_client_message (VDict payload)) =
      Ok (ClientMessage (u "device_hello") (encode_fields sample_hello (VInt 1))).
Proof.
  apply (wire_roundtrip sample_hello (VInt 1) sample_line sample_hello_ok); [reflexivity| |apply ok_or_eq; by vm_compute].
  split; [apply (bool_decide_unpack _); by vm_compute|].
  repeat first [apply nonneg_text; by vm_compute | apply conj | exact Logic.I].
Defined.
