(* ===== verification/Sessions.v ===== *)
(** * Device sessions: [backend/pipa_core/state.py]

    [DeviceSession] is the UI state of one authenticated connection,
    [SessionRegistry] the bounded table of them.  [registry_ok] is its
    invariant: at most 32 sessions, at most two per device, each stored under
    its own identifier. *)
From S2P Require Import Prelude Dict Value Effects Protocol.

Definition UI_STATES :=
  ["idle"; "listening"; "thinking"; "confirm"; "speaking"; "focus"; "dashboard"]%string.
Definition MAX_SESSIONS : Z := 32.
Definition MAX_SESSIONS_PER_DEVICE : Z := 2.
Definition MAX_SESSION_IDLE_SECONDS : Z := 15 * 60.

(** The fields a [device_status] or [device_hello] message assigns hold what
    the message carried. *)
Record DeviceSession := mkSession {
  session_id : pystr;
  device_id : pystr;
  connected_at : Z;
  state : pystr;
  caption : option pystr;
  focus_remaining : option Z;
  firmware_version : value;
  capabilities : list value;
  capabilities_initialized : bool;
  last_seen_at : option Z;
  audio_state : value;
  battery_percent : value;
  wifi_rssi : value
}.

(** Attribute assignments. *)
Definition with_last_seen (now : Z) (s : DeviceSession) : DeviceSession :=
  mkSession (session_id s) (device_id s) (connected_at s) (state s) (caption s) (focus_remaining s)
    (firmware_version s) (capabilities s) (capabilities_initialized s) (Some now)
    (audio_state s) (battery_percent s) (wifi_rssi s).
Definition with_ui (st : pystr) (c : option pystr) (s : DeviceSession) : DeviceSession :=
  mkSession (session_id s) (device_id s) (connected_at s) st c (focus_remaining s)
    (firmware_version s) (capabilities s) (capabilities_initialized s) (last_seen_at s)
    (audio_state s) (battery_percent s) (wifi_rssi s).
Definition with_status (a b w : value) (s : DeviceSession) : DeviceSession :=
  mkSession (session_id s) (device_id s) (connected_at s) (state s) (caption s) (focus_remaining s)
    (firmware_version s) (capabilities s) (capabilities_initialized s) (last_seen_at s) a b w.
Definition with_hello (fw : value) (caps : list value) (s : DeviceSession) : DeviceSession :=
  mkSession (session_id s) (device_id s) (connected_at s) (state s) (caption s) (focus_remaining s)
    fw caps true (last_seen_at s) (audio_state s) (battery_percent s) (wifi_rssi s).

Definition touch (now : Z) (s : DeviceSession) : DeviceSession := with_last_seen now s.

Definition set_state (st : pystr) (c : option pystr) (s : DeviceSession) : result DeviceSession :=
  if one_of st UI_STATES then Ok (with_ui st c s) else Raise ValueError.

Definition of_opt_str (o : option pystr) : value := default VNone (VStr <$> o).
Definition of_opt_int (o : option Z) : value := default VNone (VInt <$> o).

Definition ui_message (s : DeviceSession) : result object :=
  server_message (u "ui_state")
    [(u "state", VStr (state s)); (u "caption", of_opt_str (caption s));
     (u "focus_remaining", of_opt_int (focus_remaining s))].

(** ** The registry *)

Abbreviation registry := (dict pystr DeviceSession).

(** [session.last_seen_at is not None and now - session.last_seen_at >= MAX_SESSION_IDLE_SECONDS] *)
Definition idle (now : Z) (s : DeviceSession) : Prop :=
  match last_seen_at s with Some t => MAX_SESSION_IDLE_SECONDS <= now - t | None => False end.
#[global] Instance idle_dec now s : Decision (idle now s).
Proof. unfold idle. destruct (last_seen_at s); apply _. Defined.

Definition _prune (now : Z) : M registry (list pystr) := λ r,
  let expired := keys_where (idle now) r in (ddel_all expired r, Ok expired).

Definition prune (now : Z) : M registry (list pystr) := _prune now.

Definition of_device (d : pystr) (s : DeviceSession) : Prop := device_id s = d.
#[global] Instance of_device_dec d s : Decision (of_device d s).
Proof. unfold of_device. apply _. Defined.

(** A new session, with the identifier [secrets.token_urlsafe(16)] drew. *)
Definition new_session (d : pystr) (fw : value) (caps : list value) (initialized : bool)
    (now : Z) (token : pystr) : DeviceSession :=
  mkSession token d now (u "idle") None None fw caps initialized (Some now) VNone VNone VNone.

Definition create (d : pystr) (fw : value) (caps : list value) (initialized : bool)
    (now : Z) (token : pystr) : M registry DeviceSession :=
  let session := new_session d fw caps initialized now token in
  _prune now ≫= λ _,
  gets len ≫= λ n,
  if MAX_SESSIONS <=? n then raise SessionLimitError
  else
    gets (dcount (of_device d)) ≫= λ sessions_for_device,
    if MAX_SESSIONS_PER_DEVICE <=? sessions_for_device then raise SessionLimitError
    else modify (dset token session) ≫= λ _, mret session.

Definition get_session (sid : pystr) (r : registry) : option DeviceSession := dget sid r.
Definition remove (sid : pystr) : M registry unit := modify (ddel sid).
Definition count (r : registry) : Z := len r.

(** Writing through the reference [get] returned. *)
Definition store (s : DeviceSession) (r : registry) : registry := dalter (λ _, s) (session_id s) r.

(** ** Invariant *)

Definition session_ok (s : DeviceSession) : Prop := one_of (state s) UI_STATES = true.

Record registry_ok (r : registry) : Prop := {
  ok_wf : dwf r;
  ok_len : len r <= MAX_SESSIONS;
  ok_device : ∀ d, dcount (of_device d) r <= MAX_SESSIONS_PER_DEVICE;
  ok_ids : ∀ k s, (k, s) ∈ r → session_id s = k;
  ok_states : ∀ k s, (k, s) ∈ r → session_ok s
}.

Lemma registry_ok_empty : registry_ok [].
Proof. split; try by intros ? ? ?%not_elem_of_nil. - constructor. - done. - done. Qed.

Lemma registry_ok_filter (P : pystr * DeviceSession → Prop) `{!∀ x, Decision (P x)} r :
  registry_ok r → registry_ok (filter P r).
Proof.
  intros [Hwf Hlen Hdev Hids Hst]. split.
  - by apply filter_sublist_wf.
  - pose proof (len_filter_le P r). lia.
  - intros d. etransitivity; [apply dcount_filter_le|apply Hdev].
  - intros k s [_ Hin]%list_elem_of_filter. eauto.
  - intros k s [_ Hin]%list_elem_of_filter. eauto.
Qed.

Lemma prune_sessions_run now r :
  dwf r → prune now r = (filter (λ kv, ¬ idle now kv.2) r, Ok (keys_where (idle now) r)).
Proof. intros Hwf. unfold prune, _prune. by rewrite ddel_keys_where. Qed.

Lemma keeps_prune_sessions now : keeps registry_ok (prune now).
Proof.
  intros r Hr. unfold wp. rewrite prune_sessions_run by apply Hr. by apply registry_ok_filter.
Qed.

Lemma keeps_remove sid : keeps registry_ok (remove sid).
Proof. apply keeps_modify. intros r Hr. by apply registry_ok_filter. Qed.

Lemma registry_ok_dset token s r :
  registry_ok r → session_id s = token → session_ok s → len r < MAX_SESSIONS →
  dcount (of_device (device_id s)) r < MAX_SESSIONS_PER_DEVICE → registry_ok (dset token s r).
Proof.
  intros [Hwf Hlen Hdev Hids Hst] Hid Hok Hl Hd. split.
  - by apply dset_wf.
  - pose proof (len_dset_le token s r). lia.
  - intros d. etransitivity; [apply dcount_dset_le|]. specialize (Hdev d).
    case_decide as E; [|lia]. unfold of_device in E. subst d. lia.
  - intros k s' [[-> ->]|Hin]%dset_elem; eauto.
  - intros k s' [[-> ->]|Hin]%dset_elem; eauto.
Qed.

Lemma keeps_create_session d fw caps ini now token : keeps registry_ok (create d fw caps ini now token).
Proof.
  intros r Hr. unfold create. wp_step. eapply wp_mono; [|by apply keeps_prune_sessions].
  intros [expired|e] r' Hr'; [|done]. repeat wp_step. case_match; repeat wp_step; [done|].
  case_match; repeat wp_step; [done|]. reflect. by apply registry_ok_dset.
Qed.

Lemma store_ok s r :
  registry_ok r → session_ok s →
  (∀ s0, dget (session_id s) r = Some s0 → device_id s0 = device_id s) →
  registry_ok (store s r).
Proof.
  intros [Hwf Hlen Hdev Hids Hst] Hok Hdv. unfold store. split.
  - by apply dalter_wf.
  - by rewrite len_dalter.
  - intros d. rewrite dcount_dalter; [apply Hdev|].
    intros s0 Hs0. unfold of_device. by rewrite (Hdv s0).
  - intros k s' [?|(-> & s0 & -> & ?)]%dalter_elem; eauto.
  - intros k s' [?|(-> & s0 & -> & ?)]%dalter_elem; eauto.
Qed.

(** ** Properties *)

(** The operations of the registry, in the order the lock serialises them. *)
Inductive registry_op :=
| OpCreate (d : pystr) (fw : value) (caps : list value) (initialized : bool) (now : Z) (token : pystr)
| OpPrune (now : Z)
| OpRemove (sid : pystr)
| OpTouch (sid : pystr) (now : Z)
| OpSetState (sid st : pystr) (c : option pystr).

(** A method call on the object [get] returned. *)
Definition on_session (sid : pystr) (f : DeviceSession → result DeviceSession) : M registry unit := λ r,
  match get_session sid r with
  | Some s => match f s with
              | Ok s' => (store s' r, Ok tt)
              | Raise e => (r, Raise e)
              end
  | None => (r, Ok tt)
  end.

Definition run_op (op : registry_op) : M registry unit :=
  match op with
  | OpCreate d fw caps i now token => create d fw caps i now token ≫= λ _, mret tt
  | OpPrune now => prune now ≫= λ _, mret tt
  | OpRemove sid => remove sid
  | OpTouch sid now => on_session sid (λ s, Ok (touch now s))
  | OpSetState sid st c => on_session sid (set_state st c)
  end.

(** A history of calls; a call that raises leaves its state behind. *)
Definition run_ops (ops : list registry_op) (r : registry) : registry :=
  foldl (λ r op, (run_op op r).1) r ops.

Lemma keeps_on_session sid f :
  (∀ s s', f s = Ok s' → session_id s' = session_id s ∧ device_id s' = device_id s ∧
    (session_ok s → session_ok s')) →
  keeps registry_ok (on_session sid f).
Proof.
  intros Hf r Hr. unfold wp, on_session, get_session.
  destruct (dget sid r) as [s|] eqn:Hs; [|done]. destruct (f s) as [s'|] eqn:E; [|done].
  destruct (Hf _ _ E) as (Hid & Hdv & Hok).
  assert (session_id s = sid) as Hsid by (eapply ok_ids; [done|by apply dget_elem]).
  simpl. apply store_ok; [done| |].
  - eapply Hok, ok_states; [exact Hr|by apply dget_elem].
  - intros s0. rewrite Hid, Hsid, Hs. by intros [= <-].
Qed.

Lemma set_state_ok st c s s' :
  set_state st c s = Ok s' → s' = with_ui st c s ∧ session_ok s'.
Proof. unfold set_state, session_ok. case_match; naive_solver. Qed.

Lemma keeps_run_op op : keeps registry_ok (run_op op).
Proof.
  destruct op; simpl.
  - keeps_step; [apply keeps_create_session|auto with pipa].
  - keeps_step; [apply keeps_prune_sessions|auto with pipa].
  - apply keeps_remove.
  - apply keeps_on_session. intros s s' [= <-]. auto.
  - apply keeps_on_session. intros s s' [-> ?]%set_state_ok. auto.
Qed.

Lemma run_ops_ok ops r : registry_ok r → registry_ok (run_ops ops r).
Proof.
  revert r. induction ops as [|op ops IH]; intros r Hr; simpl; [done|]. by apply IH, keeps_run_op.
Qed.

Lemma idle_new d fw caps i now token : ¬ idle now (new_session d fw caps i now token).
Proof. unfold idle, new_session, MAX_SESSION_IDLE_SECONDS. simpl. lia. Qed.

(** Whatever sequence of calls the transports make, from the empty
    registry, there are never more than 32 sessions nor more than two of one
    device, every session is stored under its own identifier and its UI state
    is one of the seven of the protocol. *)
Theorem registry_bounds ops : registry_ok (run_ops ops []).
Proof. apply run_ops_ok, registry_ok_empty. Qed.

Lemma create_session_run d fw caps i now token r :
  registry_ok r →
  let live := filter (λ kv, ¬ idle now kv.2) r in
  let s := new_session d fw caps i now token in
  (create d fw caps i now token r = (dset token s live, Ok s) ∧
     len live < MAX_SESSIONS ∧ dcount (of_device d) live < MAX_SESSIONS_PER_DEVICE) ∨
  (create d fw caps i now token r = (live, Raise SessionLimitError) ∧
     (len live = MAX_SESSIONS ∨ dcount (of_device d) live = MAX_SESSIONS_PER_DEVICE)).
Proof.
  intros Hr live s. pose proof (registry_ok_filter (λ kv, ¬ idle now kv.2) r Hr) as Hlive. fold live in Hlive.
  unfold create. unfold mbind, M_bind. change (_prune now r) with (prune now r).
  rewrite prune_sessions_run by apply Hr. fold live. unfold gets, raise, modify, mret, M_ret.
  pose proof (ok_len _ Hlive) as Hl. pose proof (ok_device _ Hlive d) as Hd.
  destruct (MAX_SESSIONS <=? len live) eqn:E; reflect; [right; split; [done|left; lia]|].
  destruct (MAX_SESSIONS_PER_DEVICE <=? _) eqn:E'; reflect; [right; split; [done|right; lia]|].
  by left.
Qed.

(** Creating a session first drops exactly the sessions idle for fifteen
    minutes.  It then either stores the fresh session and leaves the live ones
    as they were, or raises [SessionLimitError] and stores nothing, which
    happens only when 32 live sessions, or two of that device, remain. *)
Theorem create_session_spec d fw caps i now token r
    (Hr : registry_ok r) (Hfresh : dget token r = None) :
  let live := filter (λ kv, ¬ idle now kv.2) r in
  match create d fw caps i now token r with
  | (r', Ok s) =>
    s = new_session d fw caps i now token ∧ r' = live ++ [(token, s)] ∧
    len live < MAX_SESSIONS ∧ dcount (of_device d) live < MAX_SESSIONS_PER_DEVICE
  | (r', Raise e) =>
    e = SessionLimitError ∧ r' = live ∧
    (len live = MAX_SESSIONS ∨ dcount (of_device d) live = MAX_SESSIONS_PER_DEVICE)
  end.
Proof.
  intros live. destruct (create_session_run d fw caps i now token r Hr) as [(-> & ? & ?)|(-> & ?)]; split_and!; try done.
  by apply dset_fresh, dget_filter_None.
Qed.

Definition sample_registry : registry :=
  run_ops [OpCreate (u "esp32") VNone [] true 100 (u "a"); OpCreate (u "esp32") VNone [] true 900 (u "b")] [].

Lemma create_session_spec_witness :
  create (u "esp32") VNone [] true 1000 (u "c") sample_registry
  = (filter (λ kv, ¬ idle 1000 kv.2) sample_registry
       ++ [(u "c", new_session (u "esp32") VNone [] true 1000 (u "c"))],
     Ok (new_session (u "esp32") VNone [] true 1000 (u "c"))).
Proof.
  assert (registry_ok sample_registry) as H by (apply run_ops_ok, registry_ok_empty).
  pose proof (create_session_spec (u "esp32") VNone [] true 1000 (u "c") sample_registry H eq_refl) as Hs.
  destruct (create _ _ _ _ _ _ _) as [r' [s|e]] eqn:E; [|vm_compute in E; discriminate].
  destruct Hs as (-> & -> & _). reflexivity.
Defined.
