(* ===== verification/Binding.v ===== *)
(** * Request bindings: [backend/pipa_core/request_binding.py]

    The canonical bytes of one structured tool request and their SHA-256
    digest, which the mobile client signs off and the Core compares. *)
From S2P Require Import Prelude Dict Value Json Sha256.

Definition REQUEST_DIGEST_LENGTH : Z := 64.

(** [_REQUEST_DIGEST_PATTERN.fullmatch] on a string. *)
Definition digest_pattern (s : pystr) : bool :=
  matches_class lower_hex REQUEST_DIGEST_LENGTH REQUEST_DIGEST_LENGTH s.

Definition is_valid_request_digest (v : value) : bool :=
  match v with VStr s => digest_pattern s | _ => false end.

Definition canonical_tool_call (name : pystr) (arguments : object) : result bytes :=
  reraise [TypeError; ValueError] ValueError
    (dump_bytes true false (VDict [(u "arguments", VDict arguments); (u "name", VStr name)])).

Definition compute_request_digest (name : pystr) (arguments : object) : result pystr :=
  hexdigest <$> canonical_tool_call name arguments.

Lemma compute_request_digest_raises name a e :
  compute_request_digest name a = Raise e → e = ValueError.
Proof.
  unfold compute_request_digest, canonical_tool_call, reraise. intros H.
  destruct (dump_bytes _ _ _) eqn:E; [done|].
  apply dump_bytes_raises in E. rewrite E in H. simpl in H. congruence.
Qed.

Lemma compute_request_digest_valid name a d :
  compute_request_digest name a = Ok d → digest_pattern d = true.
Proof.
  unfold compute_request_digest. destruct (canonical_tool_call name a); simpl; [|done].
  intros [= <-]. apply hexdigest_shape.
Qed.
