(* ===== verification/OneShot.v ===== *)
(** * One-use identifiers

    Confirmations, unlock challenges and unlock tickets share one discipline:
    a call may draw a fresh identifier, the identifier is live until it is
    spent, cancelled or pruned, and spending it removes it.  [OneShot] is what
    such a component promises; [spent_once] is what its clients get: in any
    history whose drawn identifiers do not repeat, no identifier is spent
    twice. *)
From S2P Require Import Prelude.

Section OneShot.
Context {S C E : Type} (step : C → S → S * E).

(** The events so far and the state, after the calls in order. *)
Definition history_step (h : list E * S) (c : C) : list E * S :=
  let '(s', ev) := step c h.2 in (h.1 ++ [ev], s').
Definition history_from (s : S) (calls : list C) : list E * S := foldl history_step ([], s) calls.

Class OneShot (inv : S → Prop) (live : S → list pystr) (drawn : C → list pystr)
    (spent : E → list pystr) : Prop := {
  os_inv c s : inv s → inv (step c s).1;
  os_live c s s' ev k : inv s → step c s = (s', ev) → k ∈ live s' → k ∈ live s ∨ k ∈ drawn c;
  os_spent c s s' ev k : inv s → step c s = (s', ev) → k ∈ spent ev →
    k ∈ live s ∧ k ∉ live s' ∧ drawn c = [] ∧ spent ev = [k]
}.

(** An invariant of the events and the state holds after every history. *)
Lemma history_invariant (I : list E → S → Prop) s calls :
  I [] s → (∀ past s c, I past s → I (past ++ [(step c s).2]) (step c s).1) →
  I (history_from s calls).1 (history_from s calls).2.
Proof.
  intros H0 Hstep. unfold history_from.
  assert (∀ h, I h.1 h.2 →
    I (foldl history_step h calls).1 (foldl history_step h calls).2) as H; [|by apply (H ([], s))].
  induction calls as [|c calls IH]; intros [past t] Hh; [done|]. simpl. apply IH.
  specialize (Hstep past t c Hh). unfold history_step. simpl. by destruct (step c t).
Qed.

Context (inv : S → Prop) (live : S → list pystr) (drawn : C → list pystr) (spent : E → list pystr).
Context `{!OneShot inv live drawn spent}.

(** From any state whose live identifiers are not drawn again. *)
Lemma spent_once_from calls past s :
  inv s → NoDup (calls ≫= drawn) → (∀ k, k ∈ live s → k ∉ calls ≫= drawn) →
  ∃ evs, (foldl history_step (past, s) calls).1 = past ++ evs ∧ NoDup (evs ≫= spent) ∧
    ∀ k, k ∈ evs ≫= spent → k ∈ live s ∨ k ∈ calls ≫= drawn.
Proof using All.
  revert past s. induction calls as [|c calls IH]; intros past s Hs Hnd Hfr.
  - exists []. split_and!; [by rewrite app_nil_r|constructor|by intros ? ?%not_elem_of_nil].
  - csimpl in *. apply NoDup_app in Hnd as (_ & Hdis & Hnd).
    unfold history_step at 2. simpl. destruct (step c s) as [s' ev] eqn:E1.
    pose proof (os_inv c s Hs) as Hs'. rewrite E1 in Hs'. simpl in *.
    destruct (IH (past ++ [ev]) s') as (evs & -> & Hn & Hsub); [done|done| |].
    { intros k Hk Hin. destruct (os_live c s s' ev k Hs E1 Hk) as [Hk'|Hk'].
      - apply (Hfr k Hk'). set_solver.
      - by apply (Hdis k Hk'). }
    exists (ev :: evs). csimpl.
    assert (∀ k, k ∈ spent ev → k ∉ evs ≫= spent) as Hd.
    { intros k Hk Hin. destruct (os_spent c s s' ev k Hs E1 Hk) as (Hk1 & Hk2 & Hdr & _).
      destruct (Hsub k Hin) as [?|?]; [done|]. apply (Hfr k Hk1). set_solver. }
    split_and!.
    + by rewrite <- app_assoc.
    + apply NoDup_app. split_and!; [|exact Hd|done].
      destruct (spent ev) as [|k l] eqn:El; [constructor|].
      destruct (os_spent c s s' ev k Hs E1) as (_ & _ & _ & Heq); [rewrite El; by left|].
      rewrite <- El, Heq. apply NoDup_singleton.
    + intros k [Hk|Hk]%elem_of_app.
      * left. by destruct (os_spent c s s' ev k Hs E1 Hk).
      * destruct (Hsub k Hk) as [Hk'|?]; [|set_solver].
        destruct (os_live c s s' ev k Hs E1 Hk'); set_solver.
Qed.

Lemma spent_once s calls :
  inv s → live s = [] → NoDup (calls ≫= drawn) → NoDup ((history_from s calls).1 ≫= spent).
Proof using All.
  intros Hs Hl Hnd.
  destruct (spent_once_from calls [] s) as (evs & E1 & Hn & _); [done|done|by rewrite Hl; intros ? ?%not_elem_of_nil|].
  unfold history_from. by rewrite E1.
Qed.
End OneShot.
