(* ===== verification/Confirmations.v ===== *)
(** * Short-lived, one-use confirmations: [backend/pipa_core/confirmations.py]

    The table of outward actions that wait for the user.  [pending_ok] is its
    invariant; [run_calls] runs a history of calls, and the theorems about it
    say that a confirmation is consumed at most once, by its owner, before it
    expires. *)
From S2P Require Import Prelude Dict Value Effects Json Binding OneShot.

Definition DEFAULT_CONFIRMATION_TTL : Z := 30.
Definition MAX_PENDING_CONFIRMATIONS : Z := 128.
Definition MAX_PENDING_PER_OWNER : Z := 4.

Record PendingConfirmation := mkPending {
  confirmation_id : pystr;
  owner_id : option pystr;
  tool_name : pystr;
  arguments : object;
  summary : pystr;
  created_at : Z;
  expires_at : Z;
  call_id : option pystr;
  request_digest : option pystr;
  execution_arguments : option object
}.

Definition opt_field (k : pystr) (o : option pystr) : object :=
  match o with Some s => [(k, VStr s)] | None => [] end.

Definition as_dict (p : PendingConfirmation) : object :=
  [(u "confirmation_id", VStr (confirmation_id p)); (u "tool_name", VStr (tool_name p));
   (u "summary", VStr (summary p)); (u "created_at", VInt (created_at p));
   (u "expires_at", VInt (expires_at p))]
  ++ opt_field (u "call_id") (call_id p) ++ opt_field (u "request_digest") (request_digest p).

Abbreviation pending_table := (dict pystr PendingConfirmation).

(** [ConfirmationManager.__init__] *)
Definition check_ttl (ttl_seconds : Z) : result Z :=
  if (ttl_seconds <? 1) || (300 <? ttl_seconds) then Raise ValueError else Ok ttl_seconds.

Definition expired (now : Z) (p : PendingConfirmation) : Prop := expires_at p <= now.
#[global] Instance expired_dec now p : Decision (expired now p).
Proof. unfold expired. apply _. Defined.

Definition owned_by (o : option pystr) (p : PendingConfirmation) : Prop := owner_id p = o.
#[global] Instance owned_by_dec o p : Decision (owned_by o p).
Proof. unfold owned_by. apply _. Defined.

Definition _prune (now : Z) : M pending_table unit :=
  modify (λ t, ddel_all (keys_where (expired now) t) t).

(** [call_id is not None and (not isinstance(call_id, str) or ...)] is an error. *)
Definition check_call_id (v : value) : result (option pystr) :=
  match v with
  | VNone => Ok None
  | VStr s => if negb (nonempty (strip s)) || (128 <? len s) then Raise ConfirmationError else Ok (Some s)
  | _ => Raise ConfirmationError
  end.

Definition check_digest (v : value) : result (option pystr) :=
  match v with
  | VNone => Ok None
  | VStr s => if is_valid_request_digest v then Ok (Some s) else Raise ConfirmationError
  | _ => Raise ConfirmationError
  end.

Definition check_summary (v : value) : result pystr :=
  match v with
  | VStr s => if nonempty (strip s) then Ok s else Raise ConfirmationError
  | _ => Raise ConfirmationError
  end.

(** [execution_arguments] is already a mapping: the only caller converts it. *)
Definition create (ttl_seconds : Z) (tool : pystr) (args : object) (summary : value)
    (owner : option pystr) (call_id request_digest : value) (exec : option object)
    (now : Z) (token : pystr) : M pending_table PendingConfirmation :=
  lift (check_summary summary) ≫= λ summary,
  lift (check_call_id call_id) ≫= λ call_id,
  lift (check_digest request_digest) ≫= λ request_digest,
  let record := mkPending token owner tool args (slice_to 240 summary) now (now + ttl_seconds)
                  call_id request_digest exec in
  _prune now ≫= λ _,
  gets len ≫= λ n,
  if MAX_PENDING_CONFIRMATIONS <=? n then raise ConfirmationError
  else
    gets (match owner with
          | Some _ => dcount (owned_by owner)
          | None => λ _, -1
          end) ≫= λ owned,
    if MAX_PENDING_PER_OWNER <=? owned then raise ConfirmationError
    else modify (dset token record) ≫= λ _, mret record.

Definition consume (cid : pystr) (owner : option pystr) (now : Z) : M pending_table PendingConfirmation := λ t,
  match dget cid t with
  | None => (t, Raise ConfirmationError)
  | Some record =>
    if expires_at record <=? now then (t, Raise ConfirmationError)
    else if match owner_id record with
            | Some o => negb (bool_decide (Some o = owner))
            | None => false
            end
    then (t, Raise ConfirmationError)
    else (ddel cid t, Ok record)
  end.

Definition cancel_for_owner (owner : pystr) : M pending_table Z := λ t,
  if negb (nonempty owner) then (t, Ok 0)
  else
    let cancelled := keys_where (owned_by (Some owner)) t in
    (ddel_all cancelled t, Ok (len cancelled)).

(** ** Invariant *)

Record pending_ok (t : pending_table) : Prop := {
  p_wf : dwf t;
  p_len : len t <= MAX_PENDING_CONFIRMATIONS;
  p_owner : ∀ o, dcount (owned_by (Some o)) t <= MAX_PENDING_PER_OWNER;
  p_ids : ∀ k p, (k, p) ∈ t → confirmation_id p = k
}.

Lemma pending_ok_empty : pending_ok [].
Proof. split; try by intros ? ? ?%not_elem_of_nil. - constructor. - done. - done. Qed.

Lemma pending_ok_filter (P : pystr * PendingConfirmation → Prop) `{!∀ x, Decision (P x)} t :
  pending_ok t → pending_ok (filter P t).
Proof.
  intros [Hwf Hlen Ho Hids]. split.
  - by apply filter_sublist_wf.
  - pose proof (len_filter_le P t). lia.
  - intros o. etransitivity; [apply dcount_filter_le|apply Ho].
  - intros k p [_ Hin]%list_elem_of_filter. eauto.
Qed.

Lemma prune_confirmations_run now t : dwf t → _prune now t = (filter (λ kv, ¬ expired now kv.2) t, Ok tt).
Proof. intros Hwf. unfold _prune, modify. by rewrite ddel_keys_where. Qed.

Lemma cancel_run o t :
  dwf t → nonempty o = true →
  (cancel_for_owner o t).1 = filter (λ kv, ¬ owned_by (Some o) kv.2) t.
Proof. intros Hwf Ho. unfold cancel_for_owner. rewrite Ho. simpl. by rewrite ddel_keys_where. Qed.

Lemma keeps_prune_confirmations now : keeps pending_ok (_prune now).
Proof. intros t Ht. unfold wp. rewrite prune_confirmations_run by apply Ht. by apply pending_ok_filter. Qed.

Lemma keeps_cancel o : keeps pending_ok (cancel_for_owner o).
Proof.
  intros t Ht. unfold wp. destruct (nonempty o) eqn:E.
  - rewrite cancel_run by (done || apply Ht). by apply pending_ok_filter.
  - unfold cancel_for_owner. by rewrite E.
Qed.

Lemma keeps_consume cid o now : keeps pending_ok (consume cid o now).
Proof.
  intros t Ht. unfold wp, consume. destruct (dget cid t) as [p|]; [|done].
  destruct (expires_at p <=? now); [done|].
  destruct (match owner_id p with Some _ => _ | None => _ end); [done|]. by apply pending_ok_filter.
Qed.

Lemma pending_ok_dset token p t :
  pending_ok t → confirmation_id p = token → len t < MAX_PENDING_CONFIRMATIONS →
  (∀ o, owner_id p = Some o → dcount (owned_by (Some o)) t < MAX_PENDING_PER_OWNER) →
  pending_ok (dset token p t).
Proof.
  intros [Hwf Hlen Ho Hids] Hid Hl Hp. split.
  - by apply dset_wf.
  - pose proof (len_dset_le token p t). lia.
  - intros o. etransitivity; [apply dcount_dset_le|]. specialize (Ho o).
    case_decide as E; [|lia]. specialize (Hp o E). lia.
  - intros k s [[-> ->]|Hin]%dset_elem; eauto.
Qed.

Lemma keeps_create_confirmation ttl tool args s owner c d exec now token :
  keeps pending_ok (create ttl tool args s owner c d exec now token).
Proof.
  intros t Ht. unfold create. wp_step. wp_step. destruct (check_summary s); [|done].
  wp_step. wp_step. destruct (check_call_id c); [|done].
  wp_step. wp_step. destruct (check_digest d); [|done].
  wp_step. eapply wp_mono; [|by apply keeps_prune_confirmations]. intros [[]|] t' Ht'; [|done].
  repeat wp_step. case_match; repeat wp_step; [done|].
  case_match; repeat wp_step; [done|]. reflect.
  apply pending_ok_dset; [done..|]. simpl. intros o ->. done.
Qed.

(** ** Histories of calls *)

Inductive call :=
| CCreate (ttl_seconds : Z) (tool : pystr) (args : object) (summary : value) (owner : option pystr)
    (call_id request_digest : value) (exec : option object) (now : Z) (token : pystr)
| CConsume (cid : pystr) (owner : option pystr) (now : Z)
| CCancel (owner : pystr).

Inductive event :=
| Created (p : PendingConfirmation)
| Consumed (p : PendingConfirmation) (owner : option pystr) (now : Z)
| Cancelled (owner : pystr)
| Failed (e : exn).

Definition run_call (c : call) (t : pending_table) : pending_table * event :=
  match c with
  | CCreate ttl tool args s owner c d exec now token =>
    let '(t', r) := create ttl tool args s owner c d exec now token t in
    (t', match r with Ok p => Created p | Raise e => Failed e end)
  | CConsume cid owner now =>
    let '(t', r) := consume cid owner now t in
    (t', match r with Ok p => Consumed p owner now | Raise e => Failed e end)
  | CCancel owner => ((cancel_for_owner owner t).1, Cancelled owner)
  end.

(** The events and the table after the calls, from the empty table. *)
Definition history : list call → list event * pending_table := history_from run_call [].

(** The identifiers [secrets.token_urlsafe] drew, in order. *)
Definition drawn (c : call) : list pystr :=
  match c with CCreate _ _ _ _ _ _ _ _ _ token => [token] | _ => [] end.
Definition tokens (calls : list call) : list pystr := calls ≫= drawn.

Definition consumed_id (ev : event) : list pystr :=
  match ev with Consumed p _ _ => [confirmation_id p] | _ => [] end.
Definition consumed_ids (evs : list event) : list pystr := evs ≫= consumed_id.

(** *** What one call does *)

Lemma create_run ttl tool args s owner c d exec now token t t' r :
  dwf t → create ttl tool args s owner c d exec now token t = (t', r) →
  match r with
  | Ok p =>
    t' = dset token p (filter (λ kv, ¬ expired now kv.2) t) ∧ confirmation_id p = token ∧
    owner_id p = owner ∧ tool_name p = tool ∧ arguments p = args ∧ execution_arguments p = exec ∧
    created_at p = now ∧ expires_at p = now + ttl ∧
    len (filter (λ kv, ¬ expired now kv.2) t) < MAX_PENDING_CONFIRMATIONS ∧
    check_call_id c = Ok (call_id p) ∧ check_digest d = Ok (request_digest p)
  | Raise e => e = ConfirmationError ∧ (t' = t ∨ t' = filter (λ kv, ¬ expired now kv.2) t)
  end.
Proof.
  intros Hwf. unfold create, lift, gets, raise, modify, mret, M_ret.
  unfold mbind, M_bind. intros H.
  destruct (check_summary s) as [s'|] eqn:Es;
    [|unfold check_summary in Es; repeat case_match; simplify_eq; by auto].
  destruct (check_call_id c) as [c'|] eqn:Ec;
    [|unfold check_call_id in Ec; repeat case_match; simplify_eq; by auto].
  destruct (check_digest d) as [d'|] eqn:Ed;
    [|unfold check_digest in Ed; repeat case_match; simplify_eq; by auto].
  rewrite prune_confirmations_run in H by done.
  repeat case_match; simplify_eq; reflect; simpl; eauto 20.
Qed.

Lemma consume_run cid owner now t t' r :
  consume cid owner now t = (t', r) →
  match r with
  | Ok p => dget cid t = Some p ∧ t' = ddel cid t ∧ now < expires_at p ∧
            (owner_id p = None ∨ owner_id p = owner)
  | Raise e => e = ConfirmationError ∧ t' = t
  end.
Proof.
  unfold consume. destruct (dget cid t) as [p|] eqn:Ep; [|by intros [= <- <-]].
  destruct (expires_at p <=? now) eqn:E; [by intros [= <- <-]|]. reflect.
  destruct (owner_id p) as [o|] eqn:Eo; [|intros [= <- <-]; by eauto].
  destruct (negb _) eqn:En; intros [= <- <-]; [done|]. reflect. subst. by eauto 10.
Qed.

Lemma keeps_run_call c t : pending_ok t → pending_ok (run_call c t).1.
Proof.
  intros Ht. destruct c as [ttl tool args s o ci d ex now tk|cid o now|o]; simpl.
  - pose proof (keeps_create_confirmation ttl tool args s o ci d ex now tk t Ht) as H. unfold wp in H.
    by destruct (create _ _ _ _ _ _ _ _ _ _ _).
  - pose proof (keeps_consume cid o now t Ht) as H. unfold wp in H. by destruct (consume _ _ _ _).
  - exact (keeps_cancel o t Ht).
Qed.

(** Where the table's entries come from after a call. *)
Lemma run_call_entries c t t' ev k p :
  pending_ok t → run_call c t = (t', ev) → (k, p) ∈ t' →
  ev = Created p ∨
  ((k, p) ∈ t ∧ (∀ q o n, ev = Consumed q o n → confirmation_id q ≠ k) ∧
   (∀ o, ev = Cancelled o → o ≠ [] → owner_id p ≠ Some o)).
Proof.
  intros Ht H Hin. destruct c as [ttl tool args s o ci d ex now tk|cid o now|o]; simpl in H.
  - destruct (create _ _ _ _ _ _ _ _ _ _ t) as [t1 [q|e]] eqn:E; simplify_eq;
      apply create_run in E; [|by apply Ht| |by apply Ht].
    + destruct E as (-> & _). apply dset_elem in Hin as [[-> ->]|Hin]; [by left|].
      apply list_elem_of_filter in Hin as [_ Hin]. right. by split_and!.
    + right. split_and!; [|done..]. destruct E as [_ [->| ->]]; [done|].
      by apply list_elem_of_filter in Hin as [_ Hin].
  - destruct (consume _ _ _ t) as [t1 [q|e]] eqn:E; simplify_eq; apply consume_run in E; right.
    + destruct E as (Hg & -> & _). apply ddel_elem in Hin as [Hne Hin]. split_and!; [done| |done].
      intros q' o' n' [= <- _ _] Heq. apply Hne.
      by rewrite <- (p_ids t Ht cid q) by by apply dget_elem.
    + destruct E as [_ ->]. by split_and!.
  - simplify_eq. right. destruct (nonempty o) eqn:Eo.
    + rewrite cancel_run in Hin by (done || apply Ht).
      apply list_elem_of_filter in Hin as [Hn Hin]. split_and!; [done..|]. by intros o' [= <-] _ Ho.
    + unfold cancel_for_owner in Hin. rewrite Eo in Hin. split_and!; [done..|].
      intros o' [= <-] Hne. by apply nonempty_ne in Hne; congruence.
Qed.

(** [p] was created earlier in [past], and since then neither consumed nor
    cancelled for its owner. *)
Definition outstanding (past : list event) (p : PendingConfirmation) : Prop :=
  ∃ pre mid, past = pre ++ Created p :: mid ∧
    (∀ q o n, Consumed q o n ∈ mid → confirmation_id q ≠ confirmation_id p) ∧
    (∀ o, Cancelled o ∈ mid → o ≠ [] → owner_id p ≠ Some o).

Record history_ok (past : list event) (t : pending_table) : Prop := {
  h_table : pending_ok t;
  h_outstanding : ∀ k p, (k, p) ∈ t → outstanding past p;
  h_consumed : ∀ pre p o n post, past = pre ++ Consumed p o n :: post →
    outstanding pre p ∧ n < expires_at p ∧ (owner_id p = None ∨ owner_id p = o)
}.

Lemma outstanding_created past p : outstanding (past ++ [Created p]) p.
Proof. exists past, []. split_and!; [done|by intros ? ? ? ?%not_elem_of_nil|by intros ? ?%not_elem_of_nil]. Qed.

Lemma outstanding_snoc past p ev :
  outstanding past p →
  (∀ q o n, ev = Consumed q o n → confirmation_id q ≠ confirmation_id p) →
  (∀ o, ev = Cancelled o → o ≠ [] → owner_id p ≠ Some o) →
  outstanding (past ++ [ev]) p.
Proof.
  intros (pre & mid & -> & Hc & Hk) H1 H2. exists pre, (mid ++ [ev]).
  split_and!; [by rewrite <- app_assoc| |].
  - intros q o n [?|?%list_elem_of_singleton]%elem_of_app; eauto.
  - intros o [?|?%list_elem_of_singleton]%elem_of_app; eauto.
Qed.

Lemma history_ok_step past t c :
  history_ok past t → history_ok (past ++ [(run_call c t).2]) (run_call c t).1.
Proof.
  intros [Ht Ho Hc]. pose proof (keeps_run_call c t Ht) as Ht'.
  destruct (run_call c t) as [t' ev] eqn:E. simpl in *. split; [done| |].
  - intros k p Hin. destruct (run_call_entries c t t' ev k p Ht E Hin) as [->|(Hin' & H1 & H2)].
    + apply outstanding_created.
    + assert (confirmation_id p = k) as Hk by (by eapply p_ids).
      apply outstanding_snoc; [by eapply Ho|by rewrite Hk|done].
  - intros pre p o n post Heq. destruct post as [|x post _] using rev_ind.
    + apply app_inj_tail in Heq as [<- ->]. destruct c as [| cid o' now|]; simpl in E.
      1: destruct (create _ _ _ _ _ _ _ _ _ _ t) as [? []]; simplify_eq.
      2: simplify_eq.
      destruct (consume cid o' now t) as [t1 [q|e]] eqn:E'; simplify_eq.
      apply consume_run in E' as (Hg & _ & Hn & Hw). split_and!; [|done..].
      by eapply Ho, dget_elem.
    + rewrite app_comm_cons, app_assoc in Heq. apply app_inj_tail in Heq as [-> _]. by eapply Hc.
Qed.

Lemma history_is_ok calls : history_ok (history calls).1 (history calls).2.
Proof.
  apply (history_invariant run_call history_ok); [|apply history_ok_step]. split.
  - apply pending_ok_empty.
  - by intros ? ? ?%not_elem_of_nil.
  - intros pre ? ? ? ? H0. by destruct pre.
Qed.

(** *** One use *)

Lemma run_call_keys c t t' ev k :
  pending_ok t → run_call c t = (t', ev) → k ∈ dkeys t' → k ∈ dkeys t ∨ k ∈ drawn c.
Proof.
  intros Ht H Hk. unfold dkeys in Hk.
  apply list_elem_of_fmap in Hk as ([k' p] & -> & Hin). simpl.
  destruct (run_call_entries c t t' ev k' p Ht H Hin) as [->|(Hin' & _)].
  - right. assert (confirmation_id p = k') as Hid.
    { eapply p_ids; [|exact Hin]. pose proof (keeps_run_call c t Ht) as Hok. by rewrite H in Hok. }
    destruct c as [ttl tool args s o ci d ex now tk| |]; simpl in H.
    + destruct (create _ _ _ _ _ _ _ _ _ _ t) as [t1 [q|e]] eqn:E; simplify_eq.
      apply create_run in E as (_ & <- & _); [|by apply Ht]. by left.
    + destruct (consume _ _ _ t) as [? []]; simplify_eq.
    + simplify_eq.
  - left. apply list_elem_of_fmap. by exists (k', p).
Qed.

Lemma run_call_consumed c t t' ev k :
  pending_ok t → run_call c t = (t', ev) → k ∈ consumed_id ev →
  k ∈ dkeys t ∧ k ∉ dkeys t' ∧ drawn c = [] ∧ consumed_id ev = [k].
Proof.
  intros Ht H Hk. destruct c as [ttl tool args s o ci d ex now tk|cid o now|o]; simpl in H.
  - destruct (create _ _ _ _ _ _ _ _ _ _ t) as [? []]; simplify_eq; by apply not_elem_of_nil in Hk.
  - destruct (consume cid o now t) as [t1 [q|e]] eqn:E; simplify_eq; [|by apply not_elem_of_nil in Hk].
    apply consume_run in E as (Hg & -> & _). apply dget_elem in Hg as Hin.
    apply list_elem_of_singleton in Hk. rewrite (p_ids t Ht _ _ Hin) in Hk. subst k.
    split_and!; [|by apply dget_None, dget_ddel_eq|done|simpl; by rewrite (p_ids t Ht _ _ Hin)].
    apply list_elem_of_fmap. by exists (cid, q).
  - simplify_eq. by apply not_elem_of_nil in Hk.
Qed.

#[global] Instance confirmations_one_shot : OneShot run_call pending_ok dkeys drawn consumed_id.
Proof. split; eauto using keeps_run_call, run_call_keys, run_call_consumed. Qed.

(** ** Properties *)

(** C10: In any history of calls from the empty table whose drawn identifiers
    do not repeat, every confirmation identifier is consumed at most once. *)
Theorem confirmation_one_use calls (Hfresh : NoDup (tokens calls)) :
  NoDup (consumed_ids (history calls).1).
Proof.
  by apply (spent_once run_call pending_ok dkeys drawn consumed_id); [apply pending_ok_empty|..].
Qed.

Definition sample_create (token : pystr) (now : Z) : call :=
  CCreate 30 (u "open_app") [] (VStr (u "Abrir")) (Some (u "s1")) VNone VNone None now token.

Lemma confirmation_one_use_witness :
  NoDup [u "a"; u "b"] ∧
  NoDup (consumed_ids (history [sample_create (u "a") 10; sample_create (u "b") 11;
    CConsume (u "a") (Some (u "s1")) 12; CConsume (u "a") (Some (u "s1")) 13;
    CConsume (u "b") (Some (u "s1")) 13]).1).
Proof.
  split; [apply (bool_decide_unpack _); reflexivity|].
  apply confirmation_one_use. apply (bool_decide_unpack _). reflexivity.
Defined.

(** A confirmation that is consumed was created earlier in the history
    with exactly that record, has been neither consumed nor cancelled for its
    owner since, is consumed before it expires and by the session that owns
    it (a confirmation without owner may be consumed by anyone). *)
Theorem confirmation_provenance calls pre p owner now post
    (Hev : (history calls).1 = pre ++ Consumed p owner now :: post) :
  outstanding pre p ∧ now < expires_at p ∧ (owner_id p = None ∨ owner_id p = owner).
Proof. by eapply h_consumed; [apply history_is_ok|]. Qed.

Lemma confirmation_provenance_witness :
  let p := mkPending (u "a") (Some (u "s1")) (u "open_app") [] (u "Abrir") 10 40 None None None in
  outstanding [Created p] p ∧ 12 < 40 ∧ (owner_id p = None ∨ owner_id p = Some (u "s1")).
Proof.
  intros p.
  apply (confirmation_provenance [sample_create (u "a") 10; CConsume (u "a") (Some (u "s1")) 12]
           [Created p] p (Some (u "s1")) 12 []).
  reflexivity.
Defined.

(** After any history there are at most 128 pending confirmations, at most
    four of one owner, each stored under its own identifier. *)
Theorem confirmation_bounds calls : pending_ok (history calls).2.
Proof. apply history_is_ok. Qed.

(** Creating a confirmation never replaces a live one: it fails with
    [ConfirmationError], or adds exactly the new record to the entries that
    have not expired; cancelling an owner leaves none of that owner's. *)
Theorem create_confirmation_spec ttl tool args s owner c d exec now token t t' r
    (Ht : pending_ok t) (Hfresh : dget token t = None)
    (Hrun : create ttl tool args s owner c d exec now token t = (t', r)) :
  match r with
  | Ok p => t' = filter (λ kv, ¬ expired now kv.2) t ++ [(token, p)] ∧
            expires_at p = now + ttl ∧ owner_id p = owner ∧ tool_name p = tool ∧ arguments p = args
  | Raise e => e = ConfirmationError ∧ len t' <= len t
  end ∧
  (∀ o k p, o ≠ [] → (k, p) ∈ (cancel_for_owner o t').1 → owner_id p ≠ Some o).
Proof.
  pose proof (keeps_create_confirmation ttl tool args s owner c d exec now token t Ht) as Hk.
  unfold wp in Hk. rewrite Hrun in Hk. simpl in Hk. apply create_run in Hrun; [|by apply Ht]. split.
  - destruct r as [p|e].
    + destruct Hrun as (-> & Hid & Ho & Htn & Ha & _ & _ & He & _). split_and!; [|done..].
      by apply dset_fresh, dget_filter_None.
    + destruct Hrun as [-> [->| ->]]; split; try done. apply len_filter_le.
  - intros o k p Ho Hin. rewrite cancel_run in Hin by (apply Hk || by apply nonempty_ne).
    by apply list_elem_of_filter in Hin as [? _].
Qed.

Lemma create_confirmation_spec_witness :
  let p := mkPending (u "a") (Some (u "s1")) (u "open_app") [] (u "Abrir") 10 40 None None None in
  pending_ok [] ∧ [(u "a", p)] = filter (λ kv, ¬ expired 10 kv.2) ([] : pending_table) ++ [(u "a", p)].
Proof.
  intros p. split; [apply pending_ok_empty|].
  apply (create_confirmation_spec 30 (u "open_app") [] (VStr (u "Abrir")) (Some (u "s1")) VNone VNone None
    10 (u "a") [] [(u "a", p)] (Ok p) pending_ok_empty); reflexivity.
Defined.
