(* ===== verification/Memory.v ===== *)
(** * Device facts: [backend/pipa_core/memory.py]

    The process-local memory: per device, the last hundred distinct facts. *)
From S2P Require Import Prelude Dict Value Effects.

Definition MAX_FACT_LENGTH : Z := 500.
Definition MAX_FACTS_PER_DEVICE : Z := 100.
Definition MAX_MEMORY_DEVICES : Z := 256.

Abbreviation facts_table := (dict pystr (list pystr)).

(** [del facts[:-n]] *)
Definition keep_last {A} (n : Z) (l : list A) : list A := drop (length l - Z.to_nat n) l.

Definition remember_facts (fact : pystr) (facts : list pystr) : list pystr :=
  keep_last MAX_FACTS_PER_DEVICE (if decide (fact ∈ facts) then facts else facts ++ [fact]).

Definition remember (device_id fact : pystr) : M facts_table object := λ t,
  if negb (nonempty (strip fact)) || (MAX_FACT_LENGTH <? len fact) then (t, Raise ValueError)
  else
    let normalized := strip fact in
    if negb (dmem device_id t) && (MAX_MEMORY_DEVICES <=? len t) then (t, Raise ValueError)
    else
      let facts := remember_facts normalized (default [] (dget device_id t)) in
      (dset device_id facts t,
       Ok [(u "success", VBool true); (u "fact", VStr normalized); (u "count", VInt (len facts))]).

Definition recall (device_id : pystr) (t : facts_table) : object :=
  [(u "success", VBool true);
   (u "facts", VList (VStr <$> default [] (dget device_id t)))].

(** ** Invariant *)

Definition fact_ok (f : pystr) : Prop := strip f = f ∧ f ≠ [] ∧ len f <= MAX_FACT_LENGTH.

Record memory_ok (t : facts_table) : Prop := {
  m_wf : dwf t;
  m_len : len t <= MAX_MEMORY_DEVICES;
  m_facts : ∀ d l, (d, l) ∈ t → len l <= MAX_FACTS_PER_DEVICE ∧ NoDup l ∧ Forall fact_ok l
}.

Lemma memory_ok_empty : memory_ok [].
Proof. split; [constructor|done|by intros ? ? ?%not_elem_of_nil]. Qed.

Lemma keep_last_len {A} n (l : list A) : 0 <= n → len (keep_last n l) <= n.
Proof. intros. unfold keep_last, len. rewrite length_drop. lia. Qed.

Lemma keep_last_elem {A} n (l : list A) x : x ∈ keep_last n l → x ∈ l.
Proof. intros H. rewrite <- (take_drop (length l - Z.to_nat n) l). apply elem_of_app. by right. Qed.

Lemma keep_last_NoDup {A} n (l : list A) : NoDup l → NoDup (keep_last n l).
Proof.
  intros H. rewrite <- (take_drop (length l - Z.to_nat n) l) in H. by apply NoDup_app in H as (_ & _ & ?).
Qed.

Lemma keep_last_all {A} n (l : list A) : len l <= n → keep_last n l = l.
Proof. unfold keep_last, len. intros. by replace (length l - Z.to_nat n)%nat with 0%nat by lia. Qed.

(** The newest item survives. *)
Lemma keep_last_snoc {A} n (l : list A) x : 1 <= n → ∃ k, keep_last n (l ++ [x]) = k ++ [x].
Proof.
  intros Hn. unfold keep_last. rewrite length_app. simpl.
  exists (drop (length l + 1 - Z.to_nat n) l). apply drop_app_le. lia.
Qed.

(** One more item pushes out at most the oldest. *)
Lemma keep_last_old {A} n (x y g : A) l :
  len (x :: l) <= n → g ∈ l → g ∈ keep_last n ((x :: l) ++ [y]).
Proof.
  intros Hl Hg. unfold keep_last, len in *. rewrite length_app. simpl in *.
  destruct (S (length l + 1) - Z.to_nat n)%nat as [|[|k]] eqn:E; [| |lia]; simpl;
    rewrite ?drop_0, ?elem_of_cons, elem_of_app; auto.
Qed.

Lemma remember_facts_NoDup f l : NoDup l → NoDup (remember_facts f l).
Proof.
  intros H. apply keep_last_NoDup. case_decide; [done|].
  apply NoDup_app. split_and!; [done|set_solver|apply NoDup_singleton].
Qed.

Lemma remember_facts_Forall (P : pystr → Prop) f l : P f → Forall P l → Forall P (remember_facts f l).
Proof.
  rewrite !Forall_forall. intros Hf Hl x Hx%keep_last_elem. revert Hx. case_decide; [auto|].
  rewrite elem_of_app, list_elem_of_singleton. naive_solver.
Qed.

Lemma facts_of_ok t d :
  memory_ok t → let l := default [] (dget d t) in
  len l <= MAX_FACTS_PER_DEVICE ∧ NoDup l ∧ Forall fact_ok l.
Proof.
  intros Ht. destruct (dget d t) as [l|] eqn:E; simpl.
  - eapply m_facts; [done|by apply dget_elem].
  - split_and!; [done|constructor|constructor].
Qed.

Lemma len_dset_mem {V} k (v : V) (d : dict pystr V) : dmem k d = true → len (dset k v d) = len d.
Proof.
  intros H. pose proof (dkeys_dset k v d) as E. rewrite H in E.
  apply (f_equal length) in E. unfold dkeys in E. rewrite !length_fmap in E. unfold len. lia.
Qed.

Lemma keeps_remember d f : keeps memory_ok (remember d f).
Proof.
  intros t Ht. unfold wp, remember.
  destruct (negb (nonempty (strip f)) || _) eqn:E; [done|].
  destruct (negb (dmem d t) && _) eqn:E'; [done|]. reflect. simpl.
  destruct (facts_of_ok t d Ht) as (Hl & Hn & Hall). split.
  - apply dset_wf, Ht.
  - destruct E' as [E'|E']; reflect.
    + rewrite len_dset_mem by done. apply Ht.
    + pose proof (len_dset_le d (remember_facts (strip f) (default [] (dget d t))) t). lia.
  - intros k l [[-> ->]|Hin]%dset_elem; [|by eapply m_facts]. split_and!.
    + by apply keep_last_len.
    + by apply remember_facts_NoDup.
    + apply remember_facts_Forall; [|done]. unfold fact_ok. rewrite strip_idemp.
      split_and!; [done|by apply nonempty_ne|]. pose proof (len_strip_le f). lia.
Qed.

Lemma remember_raises d f t t' e : remember d f t = (t', Raise e) → e = ValueError ∧ t' = t.
Proof. unfold remember. repeat case_match; naive_solver. Qed.

(** ** Properties *)

(** The facts remembered by a sequence of calls. *)
Definition remember_all (calls : list (pystr * pystr)) (t : facts_table) : facts_table :=
  foldl (λ t c, (remember c.1 c.2 t).1) t calls.

Lemma remember_all_ok calls t : memory_ok t → memory_ok (remember_all calls t).
Proof.
  revert t. induction calls as [|c calls IH]; intros t Ht; simpl; [done|].
  apply IH. by apply (keeps_remember c.1 c.2).
Qed.

(** However many facts are sent, the memory holds at most 256 devices and
    at most 100 facts of each, all distinct, stripped, non-empty and at most
    500 characters long. *)
Theorem memory_bounds calls : memory_ok (remember_all calls []).
Proof. apply remember_all_ok, memory_ok_empty. Qed.

(** Remembering a fact that is accepted makes it recallable for that
    device (as the newest one when it was not known), does not touch any other
    device's facts, and forgets at most the oldest fact; a refused fact
    changes nothing and raises [ValueError]. *)
Theorem remember_recall d f t (Ht : memory_ok t) :
  match remember d f t with
  | (t', Ok _) =>
    (∃ l, dget d t' = Some l ∧ strip f ∈ l ∧
       l = remember_facts (strip f) (default [] (dget d t)) ∧
       (∀ g, g ∈ default [] (dget d t) → g ∈ l ∨ Some g = head (default [] (dget d t)))) ∧
    (∀ d', d' ≠ d → recall d' t' = recall d' t)
  | (t', Raise e) => t' = t ∧ e = ValueError
  end.
Proof.
  destruct (remember d f t) as [t' [a|e]] eqn:E; [|by apply remember_raises in E as [-> ->]].
  destruct (facts_of_ok t d Ht) as (Hl & _ & _). unfold remember in E.
  repeat case_match; simplify_eq. split.
  - set (old := default [] (dget d t)) in *. exists (remember_facts (strip f) old).
    rewrite dget_dset_eq. split_and!; [done| |done|].
    + unfold remember_facts. case_decide; [by rewrite keep_last_all|].
      destruct (keep_last_snoc MAX_FACTS_PER_DEVICE old (strip f)) as [k ->]; [done|].
      apply elem_of_app. right. by left.
    + intros g Hg. unfold remember_facts. case_decide; [rewrite keep_last_all by done; by left|].
      destruct old as [|x old]; [by apply not_elem_of_nil in Hg|].
      apply elem_of_cons in Hg as [->|Hg]; [by right|left].
      by apply (keep_last_old _ x).
  - intros d' Hd'. unfold recall. by rewrite dget_dset_ne.
Qed.

Lemma remember_recall_witness :
  memory_ok [] ∧ recall (u "b") (remember (u "a") (u " x ") []).1 = recall (u "b") [].
Proof.
  split; [apply memory_ok_empty|].
  apply (proj2 (remember_recall (u "a") (u " x ") [] memory_ok_empty)). discriminate.
Defined.
