(* ===== verification/Timers.v ===== *)
(** * Timers: [windows-agent/tools/timers.py]

    The process-local timers: a bounded table of records that a background
    [threading.Timer] may fire and a client may cancel.  A firing is an input
    of the model: it may come at any time and for any identifier. *)
From S2P Require Import Prelude Dict Value Effects OneShot TextPolicy.

Definition MAX_TIMER_SECONDS : Z := 7 * 24 * 60 * 60.
Definition MAX_ACTIVE_TIMERS : Z := 128.
Definition MAX_TIMER_RECORDS : Z := 256.

(** [_TIMER_ID.fullmatch] *)
Definition is_timer_id (s : pystr) : bool := matches_class word_char 1 32 s.

Definition validate_timer_id (v : value) : result pystr :=
  match v with
  | VStr s => if is_timer_id s then Ok s else Raise ValueError
  | _ => Raise ValueError
  end.

Record TimerRecord := mkTimer {
  timer_id : pystr;
  label : pystr;
  created_at : Z;
  due_at : Z;
  status : pystr;
  timer_cancelled : bool    (* [_timer.cancel()] was called *)
}.
Definition with_status (st : pystr) (r : TimerRecord) : TimerRecord :=
  mkTimer (timer_id r) (label r) (created_at r) (due_at r) st (timer_cancelled r).
Definition cancel_thread (r : TimerRecord) : TimerRecord :=
  mkTimer (timer_id r) (label r) (created_at r) (due_at r) (status r) true.

Definition as_dict (r : TimerRecord) : object :=
  [(u "timer_id", VStr (timer_id r)); (u "label", VStr (label r)); (u "created_at", VInt (created_at r));
   (u "due_at", VInt (due_at r)); (u "status", VStr (status r))].

Abbreviation timer_table := (dict pystr TimerRecord).

Definition is_pending (r : TimerRecord) : Prop := status r = u "pending".
#[global] Instance is_pending_dec r : Decision (is_pending r).
Proof. unfold is_pending. apply _. Defined.
Definition is_completed (r : TimerRecord) : Prop := status r ∈ [u "fired"; u "cancelled"].
#[global] Instance is_completed_dec r : Decision (is_completed r).
Proof. unfold is_completed. apply _. Defined.

Definition _prune_completed_locked (t : timer_table) : timer_table :=
  if len t <=? MAX_TIMER_RECORDS then t
  else ddel_all (slice_to (len t - MAX_TIMER_RECORDS) (keys_where is_completed t)) t.

(** [secrets.token_urlsafe(8)] drew [token] and [int(time.time())] read [now]. *)
Definition create (seconds lbl : value) (token : pystr) (now : Z) : M timer_table object :=
  match seconds with
  | VInt seconds =>
    if (seconds <? 1) || (MAX_TIMER_SECONDS <? seconds) then raise ValueError
    else
      match lbl with
      | VStr lbl =>
        if negb (nonempty (strip lbl)) || (120 <? len lbl) then raise ValueError
        else
          let record := mkTimer token (strip lbl) now (now + seconds) (u "pending") false in
          modify _prune_completed_locked ≫= λ _,
          gets (λ t, MAX_ACTIVE_TIMERS <=? dcount is_pending t) ≫= λ full,
          if full : bool then raise ValueError
          else modify (dset token record) ≫= λ _, mret (as_dict record)
      | _ => raise ValueError
      end
  | _ => raise ValueError
  end.

Definition list_timers (t : timer_table) : list object := as_dict <$> dvalues t.

Definition cancel (v : value) : M timer_table object :=
  lift (validate_timer_id v) ≫= λ k,
  gets (dget k) ≫= λ record,
  match record with
  | None => raise TimerNotFoundError
  | Some r =>
    if bool_decide (is_pending r) then
      modify (dalter (λ r, with_status (u "cancelled") (cancel_thread r)) k) ≫= λ _,
      mret (as_dict (with_status (u "cancelled") (cancel_thread r)))
    else mret (as_dict r)
  end.

Definition _fire (k : pystr) : M timer_table unit :=
  gets (dget k) ≫= λ record,
  match record with
  | Some r => if bool_decide (is_pending r) then modify (dalter (with_status (u "fired")) k) else mret tt
  | None => mret tt
  end.

(** ** The reference: a ledger that never forgets

    Every accepted timer with its status, in order of creation. *)

Abbreviation ledger := (list (pystr * pystr)).

Definition pending_entry (e : pystr * pystr) : Prop := e.2 = u "pending".
#[global] Instance pending_entry_dec e : Decision (pending_entry e).
Proof. unfold pending_entry. apply _. Defined.

Definition settle (k st : pystr) (m : ledger) : ledger :=
  (λ e, if decide (e.1 = k ∧ pending_entry e) then (k, st) else e) <$> m.

(** The arguments [create] takes. *)
Definition timer_arguments (seconds lbl : value) : bool :=
  match seconds, lbl with
  | VInt s, VStr l =>
    (1 <=? s) && (s <=? MAX_TIMER_SECONDS) && nonempty (strip l) && (len l <=? 120)
  | _, _ => false
  end.

Inductive timer_call :=
| TCreate (seconds lbl : value) (token : pystr) (now : Z)
| TCancel (id : value)
| TFire (id : pystr).

Definition run_timer (t : timer_table) (c : timer_call) : timer_table :=
  match c with
  | TCreate s l token now => (create s l token now t).1
  | TCancel v => (cancel v t).1
  | TFire k => (_fire k t).1
  end.

Definition spec_timer (m : ledger) (c : timer_call) : ledger :=
  match c with
  | TCreate s l token _ =>
    if timer_arguments s l && (len (filter pending_entry m) <? MAX_ACTIVE_TIMERS)
    then m ++ [(token, u "pending")] else m
  | TCancel v => match validate_timer_id v with Ok k => settle k (u "cancelled") m | Raise _ => m end
  | TFire k => settle k (u "fired") m
  end.

Definition timer_drawn (c : timer_call) : list pystr :=
  match c with TCreate _ _ token _ => [token] | _ => [] end.

Definition statuses (t : timer_table) : ledger := (λ kr, (kr.1, status kr.2)) <$> t.

(** ** How the table follows the ledger *)

Definition known_status (e : pystr * pystr) : Prop := e.2 ∈ [u "pending"; u "fired"; u "cancelled"].

Record follows (t : timer_table) (m : ledger) : Prop := {
  f_wf : dwf t;
  f_ids : ∀ k r, (k, r) ∈ t → timer_id r = k;
  f_sub : statuses t `sublist_of` m;
  f_pending : filter pending_entry (statuses t) = filter pending_entry m;
  f_len : len t <= MAX_TIMER_RECORDS + 1;
  f_active : len (filter pending_entry m) <= MAX_ACTIVE_TIMERS;
  f_known : Forall known_status m;
  f_all : len m <= MAX_TIMER_RECORDS → statuses t = m
}.

Lemma len_statuses t : len (statuses t) = len t.
Proof. apply len_fmap. Qed.

Lemma dcount_statuses t : dcount is_pending t = len (filter pending_entry (statuses t)).
Proof.
  induction t as [|[k r] t IH]; [done|]. rewrite dcount_cons. unfold statuses in *. csimpl. rewrite filter_cons.
  unfold is_pending, pending_entry in *. cbn [snd] in *. do 2 case_decide; try done; rewrite ?len_cons; lia.
Qed.

Lemma settled_pending k st m :
  st ≠ u "pending" → filter pending_entry (settle k st m) = filter (λ e, e.1 ≠ k) (filter pending_entry m).
Proof.
  intros Hst. induction m as [|[k' s] m IH]; [done|]. unfold settle. csimpl. fold (settle k st m).
  rewrite !filter_cons, IH. unfold pending_entry in *. cbn [fst snd].
  destruct (decide (k' = k ∧ s = u "pending")) as [[-> ->]|Hn]; cbn [snd].
  - rewrite decide_False, decide_True by done. rewrite filter_cons_False; [done|]. naive_solver.
  - case_decide; [|done]. rewrite filter_cons_True; [done|]. naive_solver.
Qed.

Lemma settle_absent k st m : Forall (λ e, e.1 ≠ k) (filter pending_entry m) → settle k st m = m.
Proof.
  induction m as [|e m IH]; [done|]. rewrite filter_cons. unfold settle. csimpl. fold (settle k st m).
  intros H. rewrite IH; [|case_decide; [by inversion H|done]]. f_equal.
  destruct (decide (e.1 = k ∧ pending_entry e)) as [[Hk Hp]|]; [|done].
  rewrite decide_True in H by done. by inversion H.
Qed.

Lemma settle_known k st m : st ∈ [u "fired"; u "cancelled"] → Forall known_status m → Forall known_status (settle k st m).
Proof.
  intros Hst H. apply Forall_fmap. eapply Forall_impl; [exact H|]. intros e He. simpl. case_decide; [|done].
  unfold known_status. cbn [snd]. set_solver.
Qed.

Lemma statuses_dalter f k t r st :
  dwf t → dget k t = Some r → is_pending r → (∀ r, status (f r) = st) →
  statuses (dalter f k t) = settle k st (statuses t).
Proof.
  unfold dwf. induction t as [|[k' r'] t IH]; [done|]. csimpl. intros [Hk Hwf]%NoDup_cons Hg Hr Hst.
  unfold statuses, settle. csimpl. destruct (decide (k = k')) as [->|Hne].
  - injection Hg as ->. csimpl. rewrite decide_True by done. rewrite Hst. f_equal.
    symmetry. fold (statuses t). apply settle_absent, Forall_forall. intros e [_ He]%list_elem_of_filter Heq.
    apply Hk. rewrite <- Heq. apply list_elem_of_fmap in He as (kr & -> & Hin). apply list_elem_of_fmap. by exists kr.
  - csimpl. rewrite decide_False by naive_solver. f_equal. by apply IH.
Qed.

Lemma pending_filter (Q : pystr * TimerRecord → Prop) `{!∀ kr, Decision (Q kr)} t :
  (∀ kr, kr ∈ t → is_pending kr.2 → Q kr) →
  filter pending_entry (statuses (filter Q t)) = filter pending_entry (statuses t).
Proof.
  induction t as [|kr t IH]; intros Hq; [done|].
  assert (filter pending_entry (statuses (filter Q t)) = filter pending_entry (statuses t)) as IHt
    by (apply IH; intros ? Hin; apply Hq; by right).
  rewrite (filter_cons Q). unfold statuses in *. case_decide as HQ; csimpl; rewrite ?filter_cons, IHt; [done|].
  case_decide as Hp; [|done]. exfalso. apply HQ, Hq; [by left|done].
Qed.

Lemma follows_nil : follows [] [].
Proof. split; try done; try constructor. by intros ? ? ?%not_elem_of_nil. Qed.

(** An entry of the table is not pending in the ledger unless it is there. *)
Lemma not_pending k t m :
  follows t m → (∀ r, dget k t = Some r → ¬ is_pending r) → Forall (λ e, e.1 ≠ k) (filter pending_entry m).
Proof.
  intros F H. rewrite <- (f_pending t m F). apply Forall_forall. intros e [Hp He]%list_elem_of_filter <-.
  apply list_elem_of_fmap in He as ([k r] & -> & Hin). apply elem_dget in Hin; [|apply F]. by apply (H r).
Qed.

Lemma follows_settle f k st r t m :
  follows t m → dget k t = Some r → is_pending r → (∀ r, timer_id (f r) = timer_id r) → (∀ r, status (f r) = st) →
  st ∈ [u "fired"; u "cancelled"] → follows (dalter f k t) (settle k st m).
Proof.
  intros F Hg Hr Hi Hf Hst. assert (st ≠ u "pending") as Hne by (intros ->; by apply (bool_decide_pack _) in Hst).
  pose proof (statuses_dalter f k t r st (f_wf t m F) Hg Hr Hf) as Heq. split.
  - apply dalter_wf, F.
  - intros k' r' [Hin|(-> & r0 & -> & Hin)]%dalter_elem; [by apply F|]. rewrite Hi. by apply F.
  - rewrite Heq. apply fmap_sublist, F.
  - rewrite Heq, !settled_pending by done. by rewrite (f_pending t m F).
  - rewrite len_dalter. apply F.
  - rewrite settled_pending by done. etransitivity; [apply len_filter_le|apply F].
  - by apply settle_known, F.
  - unfold settle at 1. rewrite len_fmap. intros Hl. by rewrite Heq, (f_all t m F).
Qed.

Lemma list_filter_all_elem {A} (P : A → Prop) `{!∀ x, Decision (P x)} (l : list A) :
  (∀ x, x ∈ l → P x) → filter P l = l.
Proof.
  induction l as [|x l IH]; intros H0; [done|]. rewrite filter_cons_True by (apply H0; by left). f_equal.
  apply IH. intros y Hy. apply H0. by right.
Qed.

Lemma completed_exists t m : follows t m → MAX_TIMER_RECORDS < len t → keys_where is_completed t ≠ [].
Proof.
  intros F Hl Hn. pose proof (f_active t m F) as Ha. rewrite <- (f_pending t m F) in Ha.
  assert (filter pending_entry (statuses t) = statuses t) as Heq.
  { apply list_filter_all_elem. intros e He. pose proof (f_known t m F) as Hk.
    rewrite Forall_forall in Hk. specialize (Hk e (elem_of_sublist _ _ _ He (f_sub t m F))). apply list_elem_of_fmap in He as (kr & -> & Hin).
    unfold known_status, pending_entry in *. cbn [snd] in *. apply elem_of_cons in Hk as [Hk|Hk]; [done|].
    exfalso. apply (not_elem_of_nil kr.1). rewrite <- Hn. apply list_elem_of_fmap. exists kr. split; [done|].
    by apply list_elem_of_filter. }
  rewrite Heq, len_statuses in Ha. unfold MAX_ACTIVE_TIMERS, MAX_TIMER_RECORDS in *. lia.
Qed.

(** Pruning forgets completed records only and makes room for one more. *)
Lemma follows_prune t m :
  follows t m → follows (_prune_completed_locked t) m ∧ len (_prune_completed_locked t) <= MAX_TIMER_RECORDS.
Proof.
  intros F. unfold _prune_completed_locked. case_match eqn:Hl; reflect; [done|].
  pose proof (f_len t m F) as Hlen. replace (len t - MAX_TIMER_RECORDS) with 1 by lia.
  destruct (keys_where is_completed t) as [|k ks] eqn:Hk; [by eapply completed_exists in Hk; [|done|lia]|].
  assert (k ∈ keys_where is_completed t) as Hin by (rewrite Hk; by left).
  apply list_elem_of_fmap in Hin as ([k' r] & -> & [Hr Hin]%list_elem_of_filter). cbn [fst snd] in *.
  change (slice_to 1 (k' :: ks)) with [k']. change (ddel_all [k'] t) with (ddel k' t).
  pose proof (elem_dget _ _ _ (f_wf t m F) Hin) as Hg.
  assert (len (ddel k' t) <= MAX_TIMER_RECORDS) as Hl'.
  { pose proof (len_ddel_lt k' t) as Hd. rewrite dmem_true in Hd. specialize (Hd ltac:(by exists r)). lia. }
  assert (¬ len m <= MAX_TIMER_RECORDS) as Hm.
  { intros Hm. pose proof (f_all t m F Hm) as Heq. apply (f_equal len) in Heq. rewrite len_statuses in Heq. lia. }
  split; [split|done]; try apply F.
  - apply ddel_wf, F.
  - intros k0 r0 [_ ?]%ddel_elem. by apply F.
  - etransitivity; [|apply (f_sub t m F)]. apply fmap_sublist, sublist_filter.
  - rewrite <- (f_pending t m F). apply pending_filter. intros [k0 v] Hkv Hp Heq. cbn [fst snd] in *. subst k0.
    apply elem_dget in Hkv; [|apply F]. simplify_eq. unfold is_pending, is_completed in *. rewrite Hp in Hr.
    by apply (bool_decide_pack _) in Hr.
  - lia.
  - done.
Qed.

(** What [create] does once its arguments are checked. *)
Definition insert_timer (record : TimerRecord) : M timer_table object :=
  modify _prune_completed_locked ≫= λ _,
  gets (λ t, MAX_ACTIVE_TIMERS <=? dcount is_pending t) ≫= λ full,
  if full : bool then raise ValueError
  else modify (dset (timer_id record) record) ≫= λ _, mret (as_dict record).

Lemma create_checked s l token now t :
  if timer_arguments s l
  then ∃ sec lbl, s = VInt sec ∧ l = VStr lbl ∧
    create s l token now t = insert_timer (mkTimer token (strip lbl) now (now + sec) (u "pending") false) t
  else create s l token now t = (t, Raise ValueError).
Proof.
  unfold create, timer_arguments. destruct s as [| |sec| | | |]; try done.
  destruct l as [| | | |lbl| |]; try (by case_match).
  replace ((1 <=? sec) && (sec <=? MAX_TIMER_SECONDS)) with (negb ((sec <? 1) || (MAX_TIMER_SECONDS <? sec)))
    by (by rewrite negb_orb, !Z.leb_antisym).
  rewrite (Z.leb_antisym 120 (len lbl)).
  destruct (_ || _); [done|]. cbn [negb andb]. destruct (nonempty (strip lbl)), (120 <? len lbl); try done.
  by exists sec, lbl.
Qed.

Lemma follows_create s l token now t m :
  follows t m → token ∉ m.*1 → follows (create s l token now t).1 (spec_timer m (TCreate s l token now)).
Proof.
  intros F Hfr. pose proof (create_checked s l token now t) as Hc. cbn [spec_timer].
  destruct (timer_arguments s l); [|by rewrite Hc]. destruct Hc as (sec & lbl & _ & _ & ->).
  set (r := mkTimer _ _ _ _ _ _). cbn [andb]. unfold insert_timer, mbind, M_bind, modify, gets.
  destruct (follows_prune t m F) as [F' Hl]. set (t' := _prune_completed_locked t) in *.
  rewrite dcount_statuses, (f_pending t' m F'), Z.ltb_antisym.
  destruct (Z.leb_spec MAX_ACTIVE_TIMERS (len (filter pending_entry m))) as [?|Hact]; [done|].
  cbn [negb fst mret M_ret]. change (timer_id r) with token.
  assert (dget token t' = None) as Hg.
  { apply dget_None. intros [[k v] [Hkt Hin]]%list_elem_of_fmap. apply Hfr. rewrite Hkt. apply list_elem_of_fmap.
    exists (k, status v). split; [done|]. eapply elem_of_sublist; [|apply F']. apply list_elem_of_fmap. by exists (k, v). }
  assert (statuses (dset token r t') = statuses t' ++ [(token, u "pending")]) as Hst.
  { rewrite dset_fresh by done. unfold statuses. by rewrite fmap_app. }
  split; rewrite ?Hst.
  - apply dset_wf, F'.
  - intros k0 r0 [[-> ->]|Hin]%dset_elem; [done|by apply F'].
  - apply sublist_app; [apply F'|done].
  - rewrite !filter_app. by rewrite (f_pending t' m F').
  - etransitivity; [apply len_dset_le|]. lia.
  - rewrite filter_app, len_app. change (len (filter pending_entry [(token, u "pending")])) with 1. lia.
  - apply Forall_app. split; [apply F'|]. repeat constructor.
  - rewrite len_app. intros. f_equal. apply F'. pose proof (len_nonneg [(token, u "pending")]). lia.
Qed.

Lemma follows_step t m c :
  follows t m → (∀ k, k ∈ timer_drawn c → k ∉ m.*1) → follows (run_timer t c) (spec_timer m c).
Proof.
  intros F Hfr. destruct c as [s l token now|v|k]; [apply follows_create; [done|]; apply Hfr; by left|..]; cbn [run_timer spec_timer].
  - unfold cancel, mbind, M_bind, lift, gets. destruct (validate_timer_id v) as [k|e]; [|done].
    destruct (dget k t) as [r|] eqn:Hg.
    + case_bool_decide as Hr; cbn [fst mbind M_bind modify mret M_ret].
      * eapply follows_settle; [done..|by apply (bool_decide_unpack _)].
      * rewrite settle_absent; [done|]. eapply not_pending; [done|]. intros. by simplify_eq.
    + rewrite settle_absent; [done|]. eapply not_pending; [done|]. intros. by simplify_eq.
  - unfold _fire, mbind, M_bind, gets. destruct (dget k t) as [r|] eqn:Hg.
    + case_bool_decide as Hr; cbn [fst modify mret M_ret].
      * eapply follows_settle; [done..|by apply (bool_decide_unpack _)].
      * rewrite settle_absent; [done|]. eapply not_pending; [done|]. intros. by simplify_eq.
    + rewrite settle_absent; [done|]. eapply not_pending; [done|]. intros. by simplify_eq.
Qed.

(** What [list] shows of each timer, and what it would show of the ledger. *)
Definition listed (t : timer_table) : list (value * value) :=
  (λ o, (get (u "timer_id") o, get (u "status") o)) <$> list_timers t.
Definition shown (m : ledger) : list (value * value) := (λ e, (VStr e.1, VStr e.2)) <$> m.

Lemma listed_statuses t : (∀ k r, (k, r) ∈ t → timer_id r = k) → listed t = shown (statuses t).
Proof.
  unfold listed, shown, list_timers, statuses, dvalues. induction t as [|[k r] t IH]; intros H; [done|]. csimpl. f_equal.
  - transitivity (VStr (timer_id r), VStr (status r)); [done|]. by rewrite (H k r) by (by left).
  - apply IH. intros k' r' Hin. apply H. by right.
Qed.

Lemma spec_timer_keys m c k : k ∈ (spec_timer m c).*1 → k ∈ m.*1 ∨ k ∈ timer_drawn c.
Proof.
  assert (∀ k st, (settle k st m).*1 = m.*1) as Hs.
  { intros k' st. unfold settle. rewrite <- list_fmap_compose. apply list_fmap_ext. intros _ e _. simpl.
    case_decide; naive_solver. }
  destruct c as [s l token now|v|k']; cbn [spec_timer].
  - case_match; [|by left]. rewrite fmap_app, elem_of_app. intros [?|?]; [by left|by right].
  - destruct (validate_timer_id v); [rewrite Hs|]; by left.
  - rewrite Hs. by left.
Qed.

(** C11: Whatever timers are created, cancelled and fired, in any order, the
    table shows what a ledger that never forgets would show, but for completed
    timers it may have dropped: every timer still pending is listed, nothing
    that was not created is, a status once settled never changes, and the
    first 256 timers are all there.  At most 128 timers are pending and at
    most 257 records are kept. *)
Theorem timers_follow_ledger calls (Hfresh : NoDup (calls ≫= timer_drawn)) :
  let t := foldl run_timer [] calls in
  let m := foldl spec_timer [] calls in
  listed t = shown (statuses t) ∧ statuses t `sublist_of` m ∧
  filter pending_entry (statuses t) = filter pending_entry m ∧
  (len m <= MAX_TIMER_RECORDS → statuses t = m) ∧
  len (filter pending_entry m) <= MAX_ACTIVE_TIMERS ∧ len t <= MAX_TIMER_RECORDS + 1.
Proof.
  assert (∀ t m, follows t m → NoDup (calls ≫= timer_drawn) → (∀ k, k ∈ calls ≫= timer_drawn → k ∉ m.*1) →
    follows (foldl run_timer t calls) (foldl spec_timer m calls)) as H.
  { induction calls as [|c calls IH]; intros t m F Hn Hfr; [done|]. csimpl in *.
    apply NoDup_app in Hn as (_ & Hd & Hn). apply IH; [by apply NoDup_app in Hfresh as (_ & _ & ?)|..|done|].
    - apply follows_step; [done|]. intros k Hk. apply Hfr. set_solver.
    - intros k Hk Hin. apply spec_timer_keys in Hin as [Hin|Hin]; [|by apply (Hd k)].
      apply (Hfr k); [set_solver|done]. }
  intros t m. assert (follows t m) as F.
  { apply H; [apply follows_nil|done|]. intros k _. apply not_elem_of_nil. }
  split_and!; [by apply listed_statuses, F|apply F..].
Qed.

(** ** Four timers, one cancelled, one fired twice, one of ten minutes too many *)

Definition sample_timer_calls : list timer_call :=
  [TCreate (VInt 60) (VStr (u " Pasta ")) (u "t1") 1000; TCreate (VInt 5) (VStr (u "Pipα timer")) (u "t2") 1001;
   TCreate (VBool true) (VStr (u "nada")) (u "t3") 1002; TFire (u "t2"); TCancel (VStr (u "t2"));
   TCancel (VStr (u "t1")); TFire (u "t1"); TCreate (VInt MAX_TIMER_SECONDS) (VStr (u "semana")) (u "t4") 1003].

Lemma timers_follow_ledger_witness :
  NoDup (sample_timer_calls ≫= timer_drawn) ∧
  statuses (foldl run_timer [] sample_timer_calls) =
    [(u "t1", u "cancelled"); (u "t2", u "fired"); (u "t4", u "pending")].
Proof.
  assert (NoDup (sample_timer_calls ≫= timer_drawn)) as Hn by (apply (bool_decide_unpack _); reflexivity).
  split; [exact Hn|].
  destruct (timers_follow_ledger sample_timer_calls Hn) as (_ & _ & _ & Hall & _).
  exact (Hall ltac:(discriminate)).
Defined.

(** The bound on the records is reached: pruning runs before the new record is
    inserted and only above [MAX_TIMER_RECORDS], so one more is kept. *)
Definition crowded : list timer_call :=
  seq 0 260 ≫= λ i, [TCreate (VInt 1) (VStr (u "x")) [Z.of_nat i] 0; TFire [Z.of_nat i]].
Lemma records_over_limit : len (foldl run_timer [] crowded) = MAX_TIMER_RECORDS + 1.
Proof. by_compute. Qed.
