(* ===== verification/Tools.v ===== *)
(** * Tool catalog and confirmation-aware router: [backend/pipa_core/tools.py]

    A tool's callables are code of the application: a validator, a summary
    and a preparer read the outside world [W], the handler may change it.
    [ToolRouter] is the only place that runs a handler; the theorems say that
    an unsafe handler runs only on a confirmation it consumes. *)
From S2P Require Import Prelude Dict Value Effects Confirmations.

Section Tools.
Context {W : Type}.

Record ToolDefinition := mkTool {
  name : pystr;
  handler : object → M W object;
  safety : pystr;
  confirm_summary : option (object → W → result value);
  argument_validator : option (object → W → result unit);
  confirmation_preparer : option (object → W → result value)
}.

(** [ToolDefinition.__post_init__] *)
Definition post_init (d : ToolDefinition) : result ToolDefinition :=
  if negb (one_of (safety d) ["safe"; "unsafe"]%string) then Raise ValueError
  else match confirm_summary d with
       | None => if safety d =s "unsafe" then Raise ValueError else Ok d
       | Some _ => Ok d
       end.

Definition unsafe (d : ToolDefinition) : bool := safety d =s "unsafe".

(** [None], a mapping, or anything else. *)
Definition argument_values (arguments : value) : result object :=
  match arguments with
  | VNone => Ok []
  | VDict d => Ok d
  | _ => Raise ValueError
  end.

Definition validate_arguments (d : ToolDefinition) (arguments : value) (w : W) : result object :=
  values ← argument_values arguments;
  match argument_validator d with
  | Some v => _ ← v values w; Ok values
  | None => Ok values
  end.

(** ** The catalog *)

Abbreviation ToolCatalog := (dict pystr ToolDefinition).

Definition register (d : ToolDefinition) (c : ToolCatalog) : result ToolCatalog :=
  if dmem (name d) c then Raise ValueError else Ok (dset (name d) d c).

(** [ToolCatalog.__init__]: every definition has passed [__post_init__]. *)
Fixpoint register_all (ds : list ToolDefinition) (c : ToolCatalog) : result ToolCatalog :=
  match ds with
  | [] => Ok c
  | d :: ds' => d ← post_init d; c ← register d c; register_all ds' c
  end.
Definition new_catalog (ds : list ToolDefinition) : result ToolCatalog := register_all ds [].

Definition get_tool (n : pystr) (c : ToolCatalog) : result ToolDefinition :=
  match dget n c with Some d => Ok d | None => Raise KeyError end.

(** [sorted(self._definitions)] *)
Definition str_le (a b : pystr) : Prop := Json.pystr_leb a b = true.
#[global] Instance str_le_dec a b : Decision (str_le a b).
Proof. unfold str_le. apply _. Defined.
Definition names (c : ToolCatalog) : list pystr := merge_sort str_le (dkeys c).

(** What a registered definition satisfies. *)
Definition tool_ok (d : ToolDefinition) : Prop :=
  one_of (safety d) ["safe"; "unsafe"]%string = true ∧ (unsafe d = true → confirm_summary d ≠ None).
Record catalog_ok (c : ToolCatalog) : Prop := {
  c_wf : dwf c;
  c_names : ∀ n d, dget n c = Some d → name d = n;
  c_tools : ∀ n d, dget n c = Some d → tool_ok d
}.

Lemma post_init_ok d d' : post_init d = Ok d' → d' = d ∧ tool_ok d.
Proof.
  unfold post_init, tool_ok, unsafe. intros H. result_inv; reflect; split; try done; split; try done.
Qed.

Lemma register_all_ok ds c c' : catalog_ok c → register_all ds c = Ok c' → catalog_ok c'.
Proof.
  revert c. induction ds as [|d ds IH]; intros c Hc H; simpl in H; [by simplify_eq|].
  unfold mbind, result_bind in H. destruct (post_init d) as [d'|] eqn:Ep; [|done].
  apply post_init_ok in Ep as [-> Hd]. destruct (register d c) as [c1|] eqn:Er; [|done].
  apply (IH c1); [|done]. unfold register in Er. destruct (dmem (name d) c); simplify_eq.
  destruct Hc as [Hwf Hn Ht]. split.
  - by apply dset_wf.
  - intros n d'. rewrite dget_dset. case_decide; [by intros; simplify_eq|apply Hn].
  - intros n d'. rewrite dget_dset. case_decide; [by intros; simplify_eq|apply Ht].
Qed.

Lemma register_ok d c c' :
  register d c = Ok c' → dget (name d) c = None ∧ c' = dset (name d) d c.
Proof.
  unfold register. destruct (dmem (name d) c) eqn:E; [done|]. intros [= <-]. by apply dmem_false in E.
Qed.

Lemma register_all_spec ds c :
  catalog_ok c →
  match register_all ds c with
  | Ok c' => catalog_ok c' ∧ NoDup (name <$> ds) ∧ (∀ d, d ∈ ds → dget (name d) c' = Some d)
  | Raise e => e = ValueError
  end.
Proof.
  intros Hc. cut (match register_all ds c with
    | Ok c' => NoDup (name <$> ds) ∧ (∀ n d, dget n c = Some d → dget n c' = Some d) ∧
               (∀ d, d ∈ ds → dget (name d) c' = Some d ∧ dget (name d) c = None)
    | Raise e => e = ValueError
    end).
  { destruct (register_all ds c) as [c'|] eqn:E; [|done]. intros (? & _ & H).
    split_and!; [by eapply register_all_ok|done|]. intros d Hd. by apply H. }
  clear Hc. revert c. induction ds as [|d ds IH]; intros c; simpl.
  - split_and!; [constructor|done|by intros ? ?%not_elem_of_nil].
  - unfold mbind, result_bind. destruct (post_init d) as [d'|] eqn:Ep;
      [apply post_init_ok in Ep as [-> _]|unfold post_init in Ep; by repeat case_match; simplify_eq].
    destruct (register d c) as [c1|] eqn:Er; [|unfold register in Er; by case_match; simplify_eq].
    apply register_ok in Er as [Hn ->]. specialize (IH (dset (name d) d c)).
    destruct (register_all ds _) as [c'|]; [|done]. destruct IH as (Hnd & Hold & Hnew).
    assert (∀ d', d' ∈ ds → name d' ≠ name d ∧ dget (name d') c = None) as Hne.
    { intros d' Hd'. apply Hnew in Hd' as [_ Hd']. rewrite dget_dset in Hd'. by case_decide. }
    csimpl. split_and!.
    + apply NoDup_cons. split; [|done]. intros (d' & Heq & Hd')%list_elem_of_fmap. by apply Hne in Hd' as [? _].
    + intros n d' Hd'. apply Hold. rewrite dget_dset_ne; [done|]. intros ->. congruence.
    + intros d' [->|Hd']%elem_of_cons.
      * split; [|done]. apply Hold, dget_dset_eq.
      * split; [by apply Hnew|by apply Hne].
Qed.

Lemma catalog_ok_empty : catalog_ok [].
Proof. split; [constructor|done|done]. Qed.

(** ** The router *)

(** The clock reading and the identifier of one call. *)
Record call_env := { now : Z; token : pystr }.

Record router_state := mkRouter { pending : pending_table; world : W }.
Definition set_pending (t : pending_table) (s : router_state) : router_state := mkRouter t (world s).
Definition set_world (w : W) (s : router_state) : router_state := mkRouter (pending s) w.
Definition on_pending {A} (m : M pending_table A) : M router_state A := zoom pending set_pending m.
Definition on_world {A} (m : M W A) : M router_state A := zoom world set_world m.
(** A callable that only reads the world. *)
Definition reads {A} (f : W → result A) : M router_state A := λ s, (s, f (world s)).

Context (ttl_seconds : Z) (catalog : ToolCatalog).

Definition _execute (d : ToolDefinition) (arguments : object) : M router_state object :=
  on_world (handler d arguments) ≫= λ r,
  mret [(u "status", VStr (u "completed")); (u "result", VDict r)].

(** [confirmation_preparer(values)], which must return a mapping. *)
Definition prepare (d : ToolDefinition) (values : object) : M router_state (option object) :=
  match confirmation_preparer d with
  | None => mret None
  | Some p =>
    reads (p values) ≫= λ prepared,
    match prepared with
    | VDict o => mret (Some o)
    | _ => raise ConfirmationError
    end
  end.

Definition ask (env : call_env) (d : ToolDefinition) (n : pystr) (values : object)
    (owner : option pystr) (call_id request_digest : value) : M router_state object :=
  match confirm_summary d with
  | None => raise ConfirmationError
  | Some summary_of =>
    prepare d values ≫= λ execution_arguments,
    reads (summary_of values) ≫= λ summary,
    on_pending (create ttl_seconds n values summary owner call_id request_digest execution_arguments
                  (now env) (token env)) ≫= λ p,
    mret [(u "status", VStr (u "needs_confirmation")); (u "confirmation", VDict (as_dict p))]
  end.

Definition invoke (env : call_env) (n : pystr) (arguments : value) (cid : option pystr)
    (owner : option pystr) (call_id request_digest : value) : M router_state object :=
  lift (get_tool n catalog) ≫= λ d,
  reads (validate_arguments d arguments) ≫= λ values,
  match unsafe d, cid with
  | true, None => ask env d n values owner call_id request_digest
  | true, Some cid =>
    on_pending (consume cid owner (now env)) ≫= λ p,
    if bool_decide (tool_name p = n) then
      _execute d (default (Confirmations.arguments p) (execution_arguments p))
    else raise ConfirmationError
  | false, _ => _execute d values
  end.

Definition with_call_id (p : PendingConfirmation) (r : object) : object :=
  match Confirmations.call_id p with Some c => dset (u "call_id") (VStr c) r | None => r end.

Definition resolve_confirmation (env : call_env) (cid : pystr) (accepted : bool)
    (owner : option pystr) : M router_state object :=
  on_pending (consume cid owner (now env)) ≫= λ p,
  if negb accepted then
    mret (with_call_id p
      [(u "status", VStr (u "rejected")); (u "tool_name", VStr (tool_name p));
       (u "message", VStr (u "Acción cancelada por el usuario."))])
  else
    lift (get_tool (tool_name p) catalog) ≫= λ d,
    match execution_arguments p with
    | Some values => mret values
    | None => reads (validate_arguments d (VDict (Confirmations.arguments p)))
    end ≫= λ values,
    _execute d values ≫= λ r,
    mret (with_call_id p ((u "tool_name", VStr (tool_name p)) :: r)).

Definition cancel_pending (owner : pystr) : M router_state Z := on_pending (cancel_for_owner owner).

(** ** What the router does *)

Implicit Types (s : router_state) (d : ToolDefinition) (p : PendingConfirmation).

Lemma reads_run {A} (f : W → result A) s : reads f s = (s, f (world s)).
Proof. done. Qed.

Lemma prepare_run d values s :
  prepare d values s =
    (s, match confirmation_preparer d with
        | None => Ok None
        | Some f => match f values (world s) with
                    | Ok (VDict o) => Ok (Some o)
                    | Ok _ => Raise ConfirmationError
                    | Raise e => Raise e
                    end
        end).
Proof.
  unfold prepare. destruct (confirmation_preparer d) as [f|]; [|done].
  unfold reads, mbind, M_bind. destruct (f values (world s)) as [[]|]; done.
Qed.

Lemma execute_run d values s :
  _execute d values s =
    (set_world (handler d values (world s)).1 s,
     match (handler d values (world s)).2 with
     | Ok r => Ok [(u "status", VStr (u "completed")); (u "result", VDict r)]
     | Raise e => Raise e
     end).
Proof.
  unfold _execute, on_world, zoom, mbind, M_bind. by destruct (handler d values (world s)) as [w [r|e]].
Qed.

(** Asking for a confirmation never touches the world. *)
Lemma ask_run env d n values owner c r s s' out :
  dwf (pending s) → ask env d n values owner c r s = (s', out) →
  world s' = world s ∧
  match out with
  | Ok o => ∃ p,
      o = [(u "status", VStr (u "needs_confirmation")); (u "confirmation", VDict (as_dict p))] ∧
      pending s' = dset (token env) p (filter (λ kv, ¬ expired (now env) kv.2) (pending s)) ∧
      confirmation_id p = token env ∧ owner_id p = owner ∧ tool_name p = n ∧
      Confirmations.arguments p = values ∧ created_at p = now env ∧ expires_at p = now env + ttl_seconds ∧
      check_call_id c = Ok (Confirmations.call_id p) ∧ check_digest r = Ok (Confirmations.request_digest p) ∧
      match confirmation_preparer d with
      | None => execution_arguments p = None
      | Some f => ∃ e, f values (world s) = Ok (VDict e) ∧ execution_arguments p = Some e
      end
  | Raise e => pending s' = pending s ∨ pending s' = filter (λ kv, ¬ expired (now env) kv.2) (pending s)
  end.
Proof.
  intros Hwf. unfold ask. destruct (confirm_summary d) as [f|]; [|by intros [= <- <-]; auto].
  unfold mbind, M_bind. rewrite prepare_run.
  destruct (match confirmation_preparer d with Some _ => _ | None => _ end) as [e|] eqn:Ep;
    [|intros [= <- <-]; auto].
  rewrite reads_run. destruct (f values (world s)) as [sm|]; [|intros [= <- <-]; auto].
  unfold on_pending, zoom.
  destruct (create _ _ _ _ _ _ _ _ _ _ (pending s)) as [t [p|x]] eqn:Ec;
    apply create_run in Ec; try done; intros [= <- <-]; (split; [done|]).
  - exists p. destruct Ec as (-> & ? & ? & ? & ? & Hx & ? & ? & _ & ? & ?). split_and!; try done.
    repeat case_match; simplify_eq; eauto.
  - destruct Ec as [_ [-> | ->]]; auto.
Qed.

Lemma invoke_unfold env n args cid owner c r s :
  invoke env n args cid owner c r s =
  match get_tool n catalog with
  | Raise e => (s, Raise e)
  | Ok d =>
    match validate_arguments d args (world s) with
    | Raise e => (s, Raise e)
    | Ok values =>
      match unsafe d, cid with
      | true, None => ask env d n values owner c r s
      | true, Some cid =>
        match consume cid owner (now env) (pending s) with
        | (t, Ok p) =>
          if bool_decide (tool_name p = n)
          then _execute d (default (Confirmations.arguments p) (execution_arguments p)) (set_pending t s)
          else (set_pending t s, Raise ConfirmationError)
        | (t, Raise e) => (set_pending t s, Raise e)
        end
      | false, _ => _execute d values s
      end
    end
  end.
Proof.
  unfold invoke, lift, mbind, M_bind. destruct (get_tool n catalog) as [d|]; [|done].
  rewrite reads_run. destruct (validate_arguments d args (world s)); [|done].
  destruct (unsafe d), cid as [cid|]; try done. unfold on_pending, zoom.
  destruct (consume cid owner (now env) (pending s)) as [t [p|]]; [|done]. by case_bool_decide.
Qed.

(** The arguments an accepted confirmation executes. *)
Definition accepted_values d p (w : W) : result object :=
  match execution_arguments p with
  | Some values => Ok values
  | None => validate_arguments d (VDict (Confirmations.arguments p)) w
  end.

Definition completed p (r : object) : object :=
  with_call_id p
    ((u "tool_name", VStr (tool_name p))
       :: [(u "status", VStr (u "completed")); (u "result", VDict r)]).
Definition rejected p : object :=
  with_call_id p
    [(u "status", VStr (u "rejected")); (u "tool_name", VStr (tool_name p));
     (u "message", VStr (u "Acción cancelada por el usuario."))].

Lemma resolve_unfold env cid accepted owner s :
  resolve_confirmation env cid accepted owner s =
  match consume cid owner (now env) (pending s) with
  | (t, Raise e) => (set_pending t s, Raise e)
  | (t, Ok p) =>
    let s1 := set_pending t s in
    if negb accepted then (s1, Ok (rejected p))
    else match get_tool (tool_name p) catalog with
    | Raise e => (s1, Raise e)
    | Ok d =>
      match accepted_values d p (world s) with
      | Raise e => (s1, Raise e)
      | Ok values =>
        (set_world (handler d values (world s)).1 s1,
         match (handler d values (world s)).2 with
         | Ok r => Ok (completed p r)
         | Raise e => Raise e
         end)
      end
    end
  end.
Proof.
  unfold resolve_confirmation, on_pending, zoom, lift, mbind, M_bind, accepted_values.
  destruct (consume cid owner (now env) (pending s)) as [t [p|]]; [|done].
  destruct (negb accepted); [done|].
  destruct (get_tool (tool_name p) catalog) as [d|]; [|done].
  destruct (execution_arguments p) as [values|]; unfold mret, M_ret.
  - rewrite execute_run. cbn [world set_pending set_world]. by destruct (handler d values (world s)).2.
  - rewrite reads_run. cbn [world set_pending].
    destruct (validate_arguments d _ (world s)) as [values|]; [|done].
    rewrite execute_run. cbn [world set_pending set_world]. by destruct (handler d values (world s)).2.
Qed.

(** ** The pending table stays well-formed *)

Lemma keeps_on_pending {A} (m : M pending_table A) :
  keeps pending_ok m → keeps (λ s, pending_ok (pending s)) (on_pending m).
Proof. intros Hm s Hs. apply wp_zoom. exact (Hm _ Hs). Qed.

Lemma keeps_on_world {A} (m : M W A) : keeps (λ s, pending_ok (pending s)) (on_world m).
Proof. intros s Hs. by apply wp_zoom. Qed.

Lemma keeps_reads {A} (f : W → result A) : keeps (λ s, pending_ok (pending s)) (reads f).
Proof. by intros s Hs. Qed.

Hint Resolve keeps_on_pending keeps_on_world keeps_reads keeps_create_confirmation keeps_consume
  keeps_cancel : pipa.

Lemma keeps_execute d a : keeps (λ s, pending_ok (pending s)) (_execute d a).
Proof. unfold _execute. repeat keeps_step. Qed.
Hint Resolve keeps_execute : pipa.

Lemma keeps_ask env d n v o c r : keeps (λ s, pending_ok (pending s)) (ask env d n v o c r).
Proof. unfold ask, prepare. repeat keeps_step. Qed.
Hint Resolve keeps_ask : pipa.

Lemma keeps_invoke env n a cid o c r : keeps (λ s, pending_ok (pending s)) (invoke env n a cid o c r).
Proof. unfold invoke. repeat keeps_step. Qed.

Lemma keeps_resolve env cid acc o : keeps (λ s, pending_ok (pending s)) (resolve_confirmation env cid acc o).
Proof. unfold resolve_confirmation. repeat keeps_step. Qed.

End Tools.
Arguments ToolDefinition : clear implicits.
Arguments router_state : clear implicits.

(** ** Properties *)

Section properties.
Context {W : Type} (ttl_seconds : Z) (catalog : dict pystr (ToolDefinition W)).
Implicit Types (s : router_state W) (d : ToolDefinition W).

(** Invoking an unsafe tool changes the outside world only if the call
    names a pending confirmation of that tool, unexpired and owned by the
    caller; that confirmation is spent, and the handler receives the
    arguments kept in it, not those of the call. *)
Theorem invoke_unsafe_gate env n args cid owner c r s s' out d
    (Hs : pending_ok (pending s)) (Hd : get_tool n catalog = Ok d) (Hu : unsafe d = true)
    (Hrun : invoke ttl_seconds catalog env n args cid owner c r s = (s', out)) :
  world s' = world s ∨
  ∃ id p, cid = Some id ∧ dget id (pending s) = Some p ∧ tool_name p = n ∧
    now env < expires_at p ∧ (owner_id p = None ∨ owner_id p = owner) ∧
    pending s' = ddel id (pending s) ∧
    world s' = (handler d (default (Confirmations.arguments p) (execution_arguments p)) (world s)).1.
Proof.
  rewrite invoke_unfold, Hd in Hrun. destruct (validate_arguments d args (world s)); [|by simplify_eq; left].
  rewrite Hu in Hrun. destruct cid as [id|]; [|left; by apply ask_run in Hrun as [? _]; [|apply Hs]].
  destruct (consume id owner (now env) (pending s)) as [t [p|]] eqn:E; [|by simplify_eq; left].
  case_bool_decide; [|by simplify_eq; left]. right.
  rewrite execute_run in Hrun. simplify_eq. apply consume_run in E as (? & -> & ? & ?). by eauto 10.
Qed.

(** Resolving a confirmation, on every branch: a missing, expired or
    foreign one raises [ConfirmationError] and changes nothing; any other is
    spent exactly once and then either reported as rejected without touching
    the world, or its tool's handler runs once on the accepted arguments and
    its result is wrapped with the tool's name, or (unknown tool, refused
    arguments) nothing runs. *)
Theorem resolve_confirmation_spec env cid accepted owner s :
  let '(s', out) := resolve_confirmation catalog env cid accepted owner s in
  (s' = s ∧ out = Raise ConfirmationError ∧
    ∀ p, dget cid (pending s) = Some p →
      expires_at p <= now env ∨ (owner_id p ≠ None ∧ owner_id p ≠ owner)) ∨
  ∃ p, dget cid (pending s) = Some p ∧ now env < expires_at p ∧
    (owner_id p = None ∨ owner_id p = owner) ∧ pending s' = ddel cid (pending s) ∧
    if accepted then
      match get_tool (tool_name p) catalog with
      | Raise e => world s' = world s ∧ out = Raise KeyError
      | Ok d =>
        match accepted_values d p (world s) with
        | Raise e => world s' = world s ∧ out = Raise e
        | Ok values => world s' = (handler d values (world s)).1 ∧
                       out = completed p <$> (handler d values (world s)).2
        end
      end
    else world s' = world s ∧ out = Ok (rejected p).
Proof.
  rewrite resolve_unfold. destruct (consume cid owner (now env) (pending s)) as [t [p|e]] eqn:E.
  - apply consume_run in E as (Hg & -> & Hn & Ho). destruct accepted; simpl; [|right; by eauto 10].
    unfold get_tool. destruct (dget (tool_name p) catalog) as [d|] eqn:Ed; simpl;
      [|right; exists p; by rewrite Ed].
    destruct (accepted_values d p (world s)) as [values|e] eqn:Ev; right; exists p; rewrite Ed, Ev.
    + by split_and!.
    + by split_and!.
  - left. split_and!; [|by apply consume_run in E as [-> _]|].
    + apply consume_run in E as [_ ->]. by destruct s.
    + intros p Hp. unfold consume in E. rewrite Hp in E.
      destruct (expires_at p <=? now env) eqn:Ee; reflect; [by left|right].
      destruct (owner_id p) as [o|]; [|done]. destruct (negb _) eqn:En; [|done]. reflect. split; congruence.
Qed.

(** What was previewed is what runs.  After an unsafe invocation asks
    for a confirmation, accepting it within its lifetime from the same owner
    runs the handler on the snapshot the preparer computed at preview time,
    whatever happened to the world in between (without a preparer, on the
    previewed arguments once they validate again). *)
Theorem preview_then_accept env env' n args owner c r s s' s2 out d
    (Hs : pending_ok (pending s)) (Hd : get_tool n catalog = Ok d) (Hu : unsafe d = true)
    (Hask : invoke ttl_seconds catalog env n args None owner c r s = (s', Ok out))
    (Hkept : dget (token env) (pending s2) = dget (token env) (pending s'))
    (Htime : now env' < now env + ttl_seconds) :
  ∃ values, validate_arguments d args (world s) = Ok values ∧
    match confirmation_preparer d with
    | Some f => ∃ snapshot, f values (world s) = Ok (VDict snapshot) ∧
        world (resolve_confirmation catalog env' (token env) true owner s2).1
          = (handler d snapshot (world s2)).1
    | None => ∀ values', validate_arguments d (VDict values) (world s2) = Ok values' →
        world (resolve_confirmation catalog env' (token env) true owner s2).1
          = (handler d values' (world s2)).1
    end.
Proof.
  rewrite invoke_unfold, Hd in Hask. destruct (validate_arguments d args (world s)) as [values|]; [|done].
  rewrite Hu in Hask. exists values. split; [done|].
  apply ask_run in Hask as (_ & p & -> & Hp & _ & Ho & Ht & Ha & _ & He & _ & _ & Hx); [|by apply Hs].
  rewrite Hp, dget_dset_eq in Hkept.
  assert (consume (token env) owner (now env') (pending s2) = (ddel (token env) (pending s2), Ok p)) as Hc.
  { unfold consume. rewrite Hkept. rewrite (proj2 (Z.leb_gt _ _)) by lia.
    destruct (owner_id p) as [o|]; [|done]. by rewrite Ho, bool_decide_true. }
  assert (∀ v, accepted_values d p (world s2) = Ok v →
    world (resolve_confirmation catalog env' (token env) true owner s2).1 = (handler d v (world s2)).1) as Hv.
  { intros v Hv. rewrite resolve_unfold, Hc. simpl. rewrite Ht, Hd, Hv. done. }
  unfold accepted_values in Hv. destruct (confirmation_preparer d) as [f|].
  - destruct Hx as (e & Hf & Hx). exists e. split; [done|]. apply Hv. by rewrite Hx.
  - intros v Hval. apply Hv. by rewrite Hx, Ha.
Qed.

(** A catalog that is built holds well-formed definitions under their
    own names, every unsafe one with a summary, and building it fails with
    [ValueError] whenever two definitions share a name. *)
Theorem new_catalog_spec (ds : list (ToolDefinition W)) :
  match new_catalog ds with
  | Ok c => catalog_ok c ∧ NoDup (name <$> ds) ∧ (∀ d, d ∈ ds → dget (name d) c = Some d)
  | Raise e => e = ValueError
  end.
Proof. apply register_all_spec, catalog_ok_empty. Qed.
End properties.

(** A one-tool catalog over a log of the handler's arguments. *)
Definition sample_tool : ToolDefinition (list object) :=
  mkTool (u "open_app") (λ a w, (w ++ [a], Ok [(u "success", VBool true)])) (u "unsafe")
    (Some (λ _ _, Ok (VStr (u "Abrir")))) None
    (Some (λ a _, Ok (VDict ((u "resolved", VBool true) :: a)))).
Definition sample_catalog : dict pystr (ToolDefinition (list object)) := [(u "open_app", sample_tool)].
Definition sample_env (t : Z) : call_env := {| now := t; token := u "tok" |}.
Definition asked : router_state (list object) :=
  (invoke 30 sample_catalog (sample_env 10) (u "open_app") (VDict []) None (Some (u "s")) VNone VNone
     (mkRouter [] [])).1.

Lemma asked_ok : pending_ok (pending asked).
Proof.
  pose proof (keeps_create_confirmation 30 (u "open_app") [] (VStr (u "Abrir")) (Some (u "s")) VNone VNone
    (Some [(u "resolved", VBool true)]) 10 (u "tok") [] pending_ok_empty) as H. exact H.
Qed.

Lemma invoke_unsafe_gate_witness :
  let out := invoke 30 sample_catalog (sample_env 20) (u "open_app") VNone (Some (u "tok")) (Some (u "s"))
               VNone VNone asked in
  world out.1 ≠ world asked ∧
  (world out.1 = world asked ∨
   ∃ id p, Some (u "tok") = Some id ∧ dget id (pending asked) = Some p ∧ tool_name p = u "open_app" ∧
      now (sample_env 20) < expires_at p ∧ (owner_id p = None ∨ owner_id p = Some (u "s")) ∧
      pending out.1 = ddel id (pending asked) ∧
      world out.1 = (handler sample_tool (default (Confirmations.arguments p) (execution_arguments p)) (world asked)).1).
Proof.
  intros out. split; [vm_compute; discriminate|].
  apply (invoke_unsafe_gate 30 sample_catalog (sample_env 20) (u "open_app") VNone (Some (u "tok"))
           (Some (u "s")) VNone VNone asked out.1 out.2); [apply asked_ok|reflexivity..].
Defined.

Lemma preview_then_accept_witness :
  ∃ values, validate_arguments sample_tool (VDict []) [] = Ok values ∧
    ∃ snapshot, Ok (VDict ((u "resolved", VBool true) :: values)) = Ok (VDict snapshot) ∧
      world (resolve_confirmation sample_catalog (sample_env 39) (u "tok") true (Some (u "s"))
               (set_world [[]] asked)).1
        = (handler sample_tool snapshot [[]]).1.
Proof.
  apply (preview_then_accept 30 sample_catalog (sample_env 10) (sample_env 39) (u "open_app") (VDict [])
    (Some (u "s")) VNone VNone (mkRouter [] []) asked (set_world [[]] asked)
    [(u "status", VStr (u "needs_confirmation"));
     (u "confirmation", VDict (as_dict (mkPending (u "tok") (Some (u "s")) (u "open_app") [] (u "Abrir") 10 40
        None None (Some [(u "resolved", VBool true)]))))]
    sample_tool pending_ok_empty); reflexivity.
Defined.
