(* ===== verification/Catalog.v ===== *)
(** * Catalog metadata: [backend/pipa_core/core.py] and [capability_contract.py]

    The validators that decide which command and capability metadata may reach
    a device, and the loop of [PipaCore._catalog_response] that checks each
    command against the registered tool it names. *)
From S2P Require Import Prelude Dict Value TextPolicy Protocol Confirmations Tools.

Definition MAX_CATALOG_COMMANDS : Z := 64.
Definition MAX_CATALOG_FIELD_LENGTH : Z := 256.
Definition MAX_CATALOG_PARAMETERS : Z := 8.
Definition MAX_CATALOG_PARAMETER_OPTIONS : Z := 16.
Definition MAX_CATALOG_PARAMETER_TEXT_LENGTH : Z := 128.
Definition MAX_CAPABILITY_GROUPS : Z := 16.
Definition MAX_CAPABILITY_FIELDS : Z := 16.
Definition MAX_CAPABILITY_KEY_LENGTH : Z := 64.
Definition MAX_CAPABILITY_TEXT_LENGTH : Z := 128.

Definition CATALOG_FIELDS : list pystr :=
  [u "id"; u "tool_name"; u "phrase"; u "description"; u "safety"; u "requires_confirmation";
   u "parameters"; u "default_arguments"].
Definition CATALOG_PARAMETER_FIELDS : list pystr :=
  [u "name"; u "label"; u "kind"; u "max_length"; u "options"].
Definition CATALOG_PARAMETER_KINDS :=
  ["text"; "message"; "phone"; "integer"; "queue"; "action"; "app"; "contact"; "channel_id";
   "guild_id"; "url"]%string.

Definition CAPABILITY_GROUPS :=
  ["web_search"; "apple_music"; "whatsapp"; "discord"; "league"; "codex"]%string.
Definition CAPABILITY_BOOLEAN_FIELDS :=
  ["available"; "app_configured"; "launcher_resolved"; "search"; "playback"; "media_control";
   "requires_manual_selection"; "open_web"; "open_contact"; "contact_aliases_configured";
   "prepare_message"; "send_message"; "requires_manual_send"; "open_app"; "open_channel";
   "start_call"; "requires_manual_call"; "client_ready"; "open_client"; "matchmaking";
   "cancel_matchmaking"; "accept_match"; "requires_manual_accept"; "writes_to_chat";
   "requires_confirmation"]%string.
Definition CAPABILITY_STRING_FIELDS := ["execution"]%string.
Definition CAPABILITY_LIST_FIELDS := ["queues"]%string.

(** ** Command parameters *)

(** A non-blank string of at most [n] characters that passes [safe]. *)
Definition text_within (n : Z) (safe : pystr → bool) (s : pystr) : bool :=
  nonempty (strip s) && (len s <=? n) && safe s.
Definition catalog_text (s : pystr) : bool :=
  text_within MAX_CATALOG_PARAMETER_TEXT_LENGTH is_safe_catalog_text s.

Definition check (b : bool) : result unit := ensure b ValueError.

(** A list all of whose items are strings that satisfy [p]. *)
Fixpoint strings_where (p : pystr → bool) (l : list value) : option (list pystr) :=
  match l with
  | [] => Some []
  | VStr s :: l' => if p s then cons_opt s (strings_where p l') else None
  | _ :: _ => None
  end.

Definition parameter_options (options : value) : result (list pystr) :=
  match options with
  | VList l =>
    if MAX_CATALOG_PARAMETER_OPTIONS <? len l then Raise ValueError
    else match strings_where catalog_text l with
         | Some options => if no_duplicates options then Ok options else Raise ValueError
         | None => Raise ValueError
         end
  | _ => Raise ValueError
  end.

Definition validate_parameter (seen_names : list pystr) (v : value) : result (pystr * object) :=
  match v with
  | VDict parameter =>
    if negb (keys_within CATALOG_PARAMETER_FIELDS parameter) then Raise ValueError
    else match get (u "name") parameter, get (u "label") parameter, get (u "kind") parameter,
               get (u "max_length") parameter with
    | VStr name, VStr label, VStr kind, VInt max_length =>
      _ ← check (is_parameter_name name && negb (bool_decide (name ∈ seen_names)) && catalog_text label
                 && one_of kind CATALOG_PARAMETER_KINDS && (1 <=? max_length) && (max_length <=? 4096));
      options ← parameter_options (get_or (u "options") (VList []) parameter);
      let normalized := [(u "name", VStr name); (u "label", VStr (strip label)); (u "kind", VStr kind);
                         (u "max_length", VInt max_length)] in
      Ok (name, if nonempty options
                then normalized ++ [(u "options", str_list (strip <$> options))]
                else normalized)
    | _, _, _, _ => Raise ValueError
    end
  | _ => Raise ValueError
  end.

Fixpoint validate_parameters (seen_names : list pystr) (l : list value) : result (list object) :=
  match l with
  | [] => Ok []
  | v :: l' =>
    p ← validate_parameter seen_names v;
    rest ← validate_parameters (p.1 :: seen_names) l';
    Ok (p.2 :: rest)
  end.

Definition _validate_catalog_parameters (v : value) : result (list object) :=
  match v with
  | VList l => if MAX_CATALOG_PARAMETERS <? len l then Raise ValueError else validate_parameters [] l
  | _ => Raise ValueError
  end.

(** ** Fixed arguments *)

Definition default_argument (kv : pystr * value) : result (pystr * pystr) :=
  match kv.2 with
  | VStr argument =>
    if is_parameter_name kv.1 && catalog_text argument then Ok (kv.1, strip argument)
    else Raise ValueError
  | _ => Raise ValueError
  end.

Definition str_dict (d : list (pystr * pystr)) : object := (λ kv, (kv.1, VStr kv.2)) <$> d.

Definition _validate_catalog_default_arguments (v : value) : result object :=
  match v with
  | VDict d =>
    if negb (nonempty d) || (MAX_CATALOG_PARAMETERS <? len d) then Raise ValueError
    else validated ← traverse default_argument d; Ok (str_dict validated)
  | _ => Raise ValueError
  end.

(** ** Capabilities *)

Definition printable (s : pystr) : bool := negb (existsb control_char s).
Definition capability_text (s : pystr) : bool := text_within MAX_CAPABILITY_TEXT_LENGTH printable s.

(** [field_name], stripped, with its checked value. *)
Definition capability_field (kv : pystr * value) : result (pystr * value) :=
  let name := strip kv.1 in
  if negb (nonempty name) || (MAX_CAPABILITY_KEY_LENGTH <? len kv.1)
     || negb (one_of name CAPABILITY_BOOLEAN_FIELDS || one_of name CAPABILITY_STRING_FIELDS
              || one_of name CAPABILITY_LIST_FIELDS)
  then Raise ValueError
  else match kv.2 with
  | VBool b => if one_of name CAPABILITY_BOOLEAN_FIELDS then Ok (name, VBool b) else Raise ValueError
  | VStr s =>
    if one_of name CAPABILITY_STRING_FIELDS && capability_text s then Ok (name, VStr (strip s))
    else Raise ValueError
  | VList l =>
    if one_of name CAPABILITY_LIST_FIELDS && (len l <=? MAX_CAPABILITY_FIELDS)
    then match strings_where capability_text l with
         | Some items => Ok (name, str_list (strip <$> items))
         | None => Raise ValueError
         end
    else Raise ValueError
  | _ => Raise ValueError
  end.

(** [for k, v in d.items(): out[f(k)] = g(v)] *)
Fixpoint collect (f : pystr * value → result (pystr * value)) (d : list (pystr * value)) (out : object)
  : result object :=
  match d with
  | [] => Ok out
  | kv :: d' => kv' ← f kv; collect f d' (dset kv'.1 kv'.2 out)
  end.

Definition capability_group (kv : pystr * value) : result (pystr * value) :=
  match kv.2 with
  | VDict fields =>
    if negb (nonempty (strip kv.1)) || (MAX_CAPABILITY_KEY_LENGTH <? len kv.1)
       || negb (one_of (strip kv.1) CAPABILITY_GROUPS) || (MAX_CAPABILITY_FIELDS <? len fields)
    then Raise ValueError
    else safe_fields ← collect capability_field fields []; Ok (strip kv.1, VDict safe_fields)
  | _ => Raise ValueError
  end.

Definition _validate_capability_catalog (v : value) : result object :=
  match v with
  | VDict groups =>
    if MAX_CAPABILITY_GROUPS <? len groups then Raise ValueError
    else collect capability_group groups []
  | _ => Raise ValueError
  end.

(** ** Commands *)

Section Commands.
Context {W : Type} (catalog : dict pystr (ToolDefinition W)).

(** [_validate_x(value[k]) if k in value else None] *)
Definition optional_field {A} (f : value → result A) (k : pystr) (d : object) : result (option A) :=
  match dget k d with
  | Some v => a ← f v; Ok (Some a)
  | None => Ok None
  end.

Definition command_text (v : value) : result pystr :=
  match v with
  | VStr s => if nonempty (strip s) && (len s <=? MAX_CATALOG_FIELD_LENGTH) then Ok s else Raise ValueError
  | _ => Raise ValueError
  end.

Definition command_safety (v : value) : result pystr :=
  match v with
  | VStr s => if one_of s ["safe"; "unsafe"]%string then Ok s else Raise ValueError
  | _ => Raise ValueError
  end.

Definition command_flag (v : value) : result bool :=
  match v with VBool b => Ok b | _ => Raise ValueError end.

Definition opt_item {A} (k : pystr) (f : A → value) (o : option A) : object :=
  match o with Some a => [(k, f a)] | None => [] end.

Definition catalog_command (seen_ids : list pystr) (v : value) : result (pystr * object) :=
  match v with
  | VDict d =>
    if negb (keys_within CATALOG_FIELDS d) then Raise ValueError
    else
      parameters ← optional_field _validate_catalog_parameters (u "parameters") d;
      default_arguments ← optional_field _validate_catalog_default_arguments (u "default_arguments") d;
      _ ← check (match default_arguments, parameters with
                 | Some _, Some (_ :: _) => false
                 | _, _ => true
                 end);
      command_id ← command_text (get (u "id") d);
      tool_name ← command_text (get (u "tool_name") d);
      phrase ← command_text (get (u "phrase") d);
      description ← command_text (get (u "description") d);
      safety ← command_safety (get (u "safety") d);
      requires_confirmation ← command_flag (get (u "requires_confirmation") d);
      definition ← get_tool (strip tool_name) catalog;
      _ ← check (bool_decide (safety = Tools.safety definition)
                 && eqb requires_confirmation (unsafe definition));
      let command_id := strip command_id in
      if bool_decide (command_id ∈ seen_ids) then Raise ValueError
      else Ok (command_id,
        [(u "id", VStr command_id); (u "tool_name", VStr (strip tool_name));
         (u "phrase", VStr (strip phrase)); (u "description", VStr (strip description));
         (u "safety", VStr safety); (u "requires_confirmation", VBool requires_confirmation)]
        ++ opt_item (u "parameters") (λ l, VList (VDict <$> l)) parameters
        ++ opt_item (u "default_arguments") VDict default_arguments)
  | _ => Raise ValueError
  end.

Fixpoint catalog_commands (seen_ids : list pystr) (l : list value) : result (list object) :=
  match l with
  | [] => Ok []
  | v :: l' =>
    c ← catalog_command seen_ids v;
    rest ← catalog_commands (c.1 :: seen_ids) l';
    Ok (c.2 :: rest)
  end.

(** The [try] block of [_catalog_response] over the value the provider returned. *)
Definition check_commands (values : value) : result (list object) :=
  match values with
  | VList l => if MAX_CATALOG_COMMANDS <? len l then Raise ValueError else catalog_commands [] l
  | _ => Raise ValueError
  end.
End Commands.

(** ** What the validators let through *)

Definition stripped_text (n : Z) (safe : pystr → bool) (s : pystr) : Prop :=
  strip s = s ∧ text_within n safe s = true.

(** The character filters judge every character on its own. *)
Definition pointwise (safe : pystr → bool) : Prop :=
  ∃ bad : Z → bool, ∀ s, safe s = negb (existsb bad s).

Lemma pointwise_safe_text : pointwise is_safe_catalog_text.
Proof. by eexists. Qed.
Lemma pointwise_printable : pointwise printable.
Proof. by exists control_char. Qed.

Lemma text_within_strip n safe s :
  pointwise safe → text_within n safe s = true → stripped_text n safe (strip s).
Proof.
  intros [bad Hbad] H. unfold stripped_text, text_within in *. rewrite strip_idemp. split; [done|].
  reflect. rewrite Hbad in *. rewrite !andb_true_iff. split_and!; [done| |].
  - apply Z.leb_le. pose proof (len_strip_le s). lia.
  - reflect. apply negb_true_iff, existsb_false_Forall, strip_Forall. by apply existsb_false_Forall.
Qed.

Lemma strings_where_spec p l ss :
  strings_where p l = Some ss ↔ l = VStr <$> ss ∧ Forall (λ s, p s = true) ss.
Proof.
  revert ss. induction l as [|v l IH]; intros ss; simpl.
  - split; [by intros [= <-]|]. intros [H _]. by destruct ss.
  - split.
    + destruct v; try done. destruct (p s) eqn:Ep; [|done].
      destruct (strings_where p l) as [ss'|] eqn:E; [|done]. intros [= <-].
      destruct (proj1 (IH ss') eq_refl) as [-> ?]. split; [done|by constructor].
    + intros [H Hall]. destruct ss as [|s ss]; [done|]. csimpl in H. simplify_eq.
      apply Forall_cons in Hall as [-> Hall]. by rewrite (proj2 (IH ss)).
Qed.

Lemma strings_where_strip p n safe l ss :
  (∀ s, p s = text_within n safe s) → pointwise safe → strings_where p l = Some ss →
  Forall (stripped_text n safe) (strip <$> ss).
Proof.
  intros Hp Hs [_ H]%strings_where_spec. apply Forall_fmap. eapply Forall_impl; [exact H|].
  intros s Hps. apply text_within_strip; [done|]. by rewrite <- Hp.
Qed.

(** *** Capabilities *)

(** The only shapes a capability value can have. *)
Definition capability_value_ok (k : pystr) (v : value) : Prop :=
  (one_of k CAPABILITY_BOOLEAN_FIELDS = true ∧ ∃ b, v = VBool b) ∨
  (one_of k CAPABILITY_STRING_FIELDS = true ∧
   ∃ s, v = VStr s ∧ stripped_text MAX_CAPABILITY_TEXT_LENGTH printable s) ∨
  (one_of k CAPABILITY_LIST_FIELDS = true ∧
   ∃ l, v = str_list l ∧ len l <= MAX_CAPABILITY_FIELDS ∧
     Forall (stripped_text MAX_CAPABILITY_TEXT_LENGTH printable) l).

Definition capability_key_ok (k : pystr) : Prop :=
  strip k = k ∧ k ≠ [] ∧ len k <= MAX_CAPABILITY_KEY_LENGTH.

Definition capability_fields_ok (d : object) : Prop :=
  dwf d ∧ len d <= MAX_CAPABILITY_FIELDS ∧
  ∀ k v, (k, v) ∈ d → capability_key_ok k ∧ capability_value_ok k v.

Definition capability_catalog_ok (d : object) : Prop :=
  dwf d ∧ len d <= MAX_CAPABILITY_GROUPS ∧
  ∀ k v, (k, v) ∈ d → capability_key_ok k ∧ one_of k CAPABILITY_GROUPS = true ∧
    ∃ fields, v = VDict fields ∧ capability_fields_ok fields.

Lemma collect_ok (P : pystr → value → Prop) f d out r :
  (∀ kv k v, f kv = Ok (k, v) → P k v) → dwf out → (∀ k v, (k, v) ∈ out → P k v) →
  collect f d out = Ok r →
  dwf r ∧ len r <= len out + len d ∧ (∀ k v, (k, v) ∈ r → P k v).
Proof.
  intros Hf. revert out. induction d as [|kv d IH]; intros out Hwf Hout H; simpl in H.
  - simplify_eq. split_and!; [done| |done]. autorewrite with len. lia.
  - unfold mbind, result_bind in H. destruct (f kv) as [[k v]|] eqn:E; [|done]. simpl in H.
    destruct (IH (dset k v out)) as (? & ? & ?); [by apply dset_wf| |done|].
    + intros k' v' [[-> ->]|?]%dset_elem; eauto.
    + split_and!; [done| |done]. pose proof (len_dset_le k v out). autorewrite with len. lia.
Qed.

Lemma collect_fixed f d out :
  dwf (out ++ d) → (∀ kv, kv ∈ d → f kv = Ok kv) → collect f d out = Ok (out ++ d).
Proof.
  revert out. induction d as [|[k v] d IH]; intros out Hwf Hf; simpl; [by rewrite app_nil_r|].
  rewrite Hf by by left. unfold mbind, result_bind. cbn [fst snd]. rewrite dset_fresh.
  - rewrite IH; rewrite <- ?app_assoc; [done|done|]. intros kv Hkv. apply Hf. by right.
  - apply dget_None. unfold dwf in Hwf. rewrite fmap_app in Hwf. csimpl in Hwf.
    apply NoDup_app in Hwf as (_ & Hd & _). intros Hk. apply (Hd k Hk). by left.
Qed.

Lemma capability_key_strip s :
  nonempty (strip s) = true → len s <= MAX_CAPABILITY_KEY_LENGTH → capability_key_ok (strip s).
Proof.
  intros ? ?. unfold capability_key_ok. rewrite strip_idemp. split_and!; [done|by apply nonempty_ne|].
  pose proof (len_strip_le s). lia.
Qed.

Lemma capability_field_ok kv k v :
  capability_field kv = Ok (k, v) → capability_key_ok k ∧ capability_value_ok k v.
Proof.
  unfold capability_field. destruct kv as [k0 v0]. simpl. intros H.
  destruct (_ || _ || _) eqn:E; [done|]. reflect.
  assert (capability_key_ok (strip k0)) as Hk by by apply capability_key_strip.
  destruct v0 as [|b| | |s|l|]; try done; unfold capability_value_ok.
  - destruct (one_of _ _) eqn:Ef; simplify_eq. split; [done|]. left. eauto.
  - destruct (_ && _) eqn:Ef; simplify_eq. reflect. split; [done|]. right; left. split; [done|].
    eexists; split; [done|]. by apply text_within_strip; [apply pointwise_printable|].
  - destruct (_ && _) eqn:Ef; [|done]. reflect.
    destruct (strings_where _ _) as [ss|] eqn:Es; simplify_eq. split; [done|]. right; right. split; [done|].
    eexists; split_and!; [done| |].
    + apply strings_where_spec in Es as [-> _]. by autorewrite with len in *.
    + by eapply (strings_where_strip capability_text); [|apply pointwise_printable|].
Qed.

(** Every capability field name is of one kind. *)
Lemma capability_kinds k :
  one_of k CAPABILITY_BOOLEAN_FIELDS || one_of k CAPABILITY_STRING_FIELDS
    || one_of k CAPABILITY_LIST_FIELDS = true ↔
  one_of k CAPABILITY_BOOLEAN_FIELDS = true ∨ one_of k CAPABILITY_STRING_FIELDS = true
    ∨ one_of k CAPABILITY_LIST_FIELDS = true.
Proof. rewrite !orb_true_iff. tauto. Qed.

Lemma strings_where_stripped p n safe l :
  (∀ s, p s = text_within n safe s) → Forall (stripped_text n safe) l →
  strings_where p (VStr <$> l) = Some l ∧ strip <$> l = l.
Proof.
  intros Hp Hl. split.
  - apply strings_where_spec. split; [done|]. eapply Forall_impl; [exact Hl|].
    intros s [_ Hs]. by rewrite Hp.
  - induction Hl as [|s l [Hs _] _ IH]; [done|]. csimpl. by rewrite Hs, IH.
Qed.

Lemma capability_field_fixed k v :
  capability_key_ok k → capability_value_ok k v → capability_field (k, v) = Ok (k, v).
Proof.
  intros (Hk & Hne & Hlen) Hv. unfold capability_field. simpl. rewrite Hk.
  apply nonempty_ne in Hne. rewrite Hne. rewrite (proj2 (Z.ltb_ge _ _)) by done.
  assert (one_of k CAPABILITY_BOOLEAN_FIELDS || one_of k CAPABILITY_STRING_FIELDS
    || one_of k CAPABILITY_LIST_FIELDS = true) as ->.
  { apply capability_kinds. unfold capability_value_ok in Hv. tauto. }
  simpl. destruct Hv as [(Hf & b & ->)|[(Hf & s & -> & Hs & Ht)|(Hf & l & -> & Hl & Ht)]].
  - by rewrite Hf.
  - unfold capability_text. by rewrite Hf, Ht, Hs.
  - unfold str_list. destruct (strings_where_stripped capability_text _ _ l (λ _, eq_refl) Ht) as [-> ->].
    rewrite Hf, (proj2 (Z.leb_le _ _)); [done|]. by autorewrite with len.
Qed.

Lemma capability_group_ok kv k v :
  capability_group kv = Ok (k, v) →
  capability_key_ok k ∧ one_of k CAPABILITY_GROUPS = true ∧
  ∃ fields, v = VDict fields ∧ capability_fields_ok fields.
Proof.
  unfold capability_group. destruct kv as [k0 v0]. simpl. destruct v0 as [| | | | | |fields]; try done.
  intros H. destruct (_ || _ || _ || _) eqn:E; [done|]. reflect.
  unfold mbind, result_bind in H. destruct (collect _ _ _) as [safe|] eqn:Ec; simplify_eq.
  split_and!; [by apply capability_key_strip|done|].
  eexists; split; [done|].
  apply (collect_ok (λ k v, capability_key_ok k ∧ capability_value_ok k v)) in Ec
    as (? & Hl & ?); [|apply capability_field_ok|constructor|by intros ? ? ?%not_elem_of_nil].
  split_and!; [done| |done]. autorewrite with len in Hl. lia.
Qed.

Lemma capability_group_fixed k v :
  capability_key_ok k → one_of k CAPABILITY_GROUPS = true →
  (∃ fields, v = VDict fields ∧ capability_fields_ok fields) →
  capability_group (k, v) = Ok (k, v).
Proof.
  intros (Hk & Hne & Hlen) Hg (fields & -> & Hwf & Hl & Hall). unfold capability_group. simpl.
  rewrite Hk, Hg. apply nonempty_ne in Hne. rewrite Hne.
  rewrite !(proj2 (Z.ltb_ge _ _)) by done. simpl.
  rewrite collect_fixed; [done|done|]. intros [k' v'] Hin. apply Hall in Hin as [??].
  by apply capability_field_fixed.
Qed.

Lemma validate_capability_catalog_raises v e :
  _validate_capability_catalog v = Raise e → e = ValueError.
Proof.
  assert (∀ f d out e, (∀ kv e, f kv = Raise e → e = ValueError) →
    collect f d out = Raise e → e = ValueError) as Hc.
  { intros f d. induction d as [|kv d IH]; intros out x Hf H; simpl in H; [done|].
    unfold mbind, result_bind in H. destruct (f kv) as [[]|] eqn:E; [by eapply IH|].
    simplify_eq. by eapply Hf. }
  unfold _validate_capability_catalog. destruct v; try (by intros [= <-]).
  destruct (_ <? _); [by intros [= <-]|]. apply Hc. intros [k w] x. unfold capability_group. simpl.
  destruct w; try (by intros [= <-]). destruct (_ || _); [by intros [= <-]|].
  unfold mbind, result_bind. destruct (collect _ _ _) eqn:E; [done|]. intros [= <-].
  eapply Hc; [|exact E]. intros kv y. unfold capability_field. repeat case_match; naive_solver.
Qed.

(** *** Parameters and commands *)

Definition catalog_text_ok : pystr → Prop :=
  stripped_text MAX_CATALOG_PARAMETER_TEXT_LENGTH is_safe_catalog_text.

Definition parameter_ok (name : pystr) (p : object) : Prop :=
  ∃ label kind max_length options,
    p = [(u "name", VStr name); (u "label", VStr label); (u "kind", VStr kind); (u "max_length", VInt max_length)]
        ++ (if nonempty options then [(u "options", str_list options)] else []) ∧
    is_parameter_name name = true ∧ catalog_text_ok label ∧
    one_of kind CATALOG_PARAMETER_KINDS = true ∧ 1 <= max_length <= 4096 ∧
    len options <= MAX_CATALOG_PARAMETER_OPTIONS ∧ Forall catalog_text_ok options.

(** Eight parameters at most, all well-formed, no name twice. *)
Definition parameters_ok (l : list object) : Prop :=
  len l <= MAX_CATALOG_PARAMETERS ∧ ∃ names, NoDup names ∧ Forall2 parameter_ok names l.

Definition default_arguments_ok (d : object) : Prop :=
  1 <= len d <= MAX_CATALOG_PARAMETERS ∧
  ∀ k v, (k, v) ∈ d → is_parameter_name k = true ∧ ∃ s, v = VStr s ∧ catalog_text_ok s.

Lemma parameter_options_ok v l :
  parameter_options v = Ok l → len l <= MAX_CATALOG_PARAMETER_OPTIONS ∧ Forall catalog_text_ok (strip <$> l).
Proof.
  unfold parameter_options. intros H. result_inv. reflect.
  match goal with H : strings_where _ _ = _ |- _ => rename H into Hs end. split.
  - apply strings_where_spec in Hs as [-> _]. by autorewrite with len in *.
  - eapply (strings_where_strip catalog_text); [done|apply pointwise_safe_text|exact Hs].
Qed.

Lemma validate_parameter_ok seen v n p :
  validate_parameter seen v = Ok (n, p) → n ∉ seen ∧ parameter_ok n p.
Proof.
  unfold validate_parameter, check. intros H.
  destruct v as [| | | | | |d]; try done. destruct (negb _); [done|].
  destruct (get (u "name") d) as [| | | |name| |]; try done.
  destruct (get (u "label") d) as [| | | |label| |]; try done.
  destruct (get (u "kind") d) as [| | | |kind| |]; try done.
  destruct (get (u "max_length") d) as [| |m| | | |]; try done.
  destruct (ensure _ _) eqn:Ee; [|done]. apply ensure_ok in Ee. reflect.
  unfold mbind, result_bind in H.
  destruct (parameter_options _) as [options|] eqn:Eo; [|done].
  apply parameter_options_ok in Eo as [Hlen Hopt]. simplify_eq. split; [done|].
  exists (strip label), kind, m, (strip <$> options). split_and!; try done.
  - by destruct options.
  - by apply text_within_strip; [apply pointwise_safe_text|].
  - by autorewrite with len.
Qed.

Lemma validate_parameters_ok seen l ps :
  validate_parameters seen l = Ok ps →
  length ps = length l ∧
  ∃ names, NoDup names ∧ (∀ n, n ∈ names → n ∉ seen) ∧ Forall2 parameter_ok names ps.
Proof.
  revert seen ps. induction l as [|v l IH]; intros seen ps H; simpl in H.
  - simplify_eq. split; [done|]. exists []. split_and!; [constructor|by intros ? ?%not_elem_of_nil|constructor].
  - unfold mbind, result_bind in H. destruct (validate_parameter seen v) as [[n p]|] eqn:E; [|done].
    destruct (validate_parameters _ l) as [rest|] eqn:Er; simplify_eq.
    apply validate_parameter_ok in E as [Hn Hp]. apply IH in Er as (Hlen & names & Hnd & Hfr & Hall).
    split; [simpl; lia|]. exists (n :: names). split_and!; [|set_solver|by constructor].
    apply NoDup_cons. split; [|done]. intros Hin. apply (Hfr n Hin). by left.
Qed.

Lemma validate_catalog_parameters_ok v ps : _validate_catalog_parameters v = Ok ps → parameters_ok ps.
Proof.
  unfold _validate_catalog_parameters. destruct v as [| | | | |l|]; try done.
  destruct (_ <? _) eqn:E; [done|]. reflect. intros (Hlen & names & ? & _ & ?)%validate_parameters_ok.
  split; [unfold len in *; lia|]. eauto.
Qed.

Lemma default_arguments_validated v d :
  _validate_catalog_default_arguments v = Ok d → default_arguments_ok d.
Proof.
  unfold _validate_catalog_default_arguments. destruct v as [| | | | | |d0]; try done.
  destruct (_ || _) eqn:E; [done|]. reflect. unfold mbind, result_bind.
  destruct (traverse _ _) as [l|] eqn:Et; [|done]. intros [= <-].
  apply (traverse_Forall default_argument (λ kv, is_parameter_name kv.1 = true ∧ catalog_text_ok kv.2)) in Et
    as [Hall Hlen].
  - unfold default_arguments_ok, str_dict. autorewrite with len. split.
    + unfold len in *. rewrite Hlen. destruct d0; simpl in *; [done|]. lia.
    + intros k w ([k' s] & [= -> ->] & Hin)%list_elem_of_fmap. rewrite Forall_forall in Hall.
      apply Hall in Hin as [??]. simpl in *. eauto.
  - intros [k w] kv Hd. unfold default_argument in Hd. result_inv. reflect. split; [done|].
    by apply text_within_strip; [apply pointwise_safe_text|].
Qed.

Definition command_text_ok (s : pystr) : Prop :=
  strip s = s ∧ s ≠ [] ∧ len s <= MAX_CATALOG_FIELD_LENGTH.

Lemma command_text_strip v s : command_text v = Ok s → command_text_ok (strip s).
Proof.
  unfold command_text, command_text_ok. intros H. result_inv. reflect. rewrite strip_idemp.
  split_and!; [done|by apply nonempty_ne|]. pose proof (len_strip_le s). lia.
Qed.

(** A command that may be shown: bounded texts, a registered tool whose safety
    and confirmation requirement are stated truthfully, and either parameters
    to fill in or fixed arguments. *)
Definition command_ok {W} (catalog : dict pystr (ToolDefinition W)) (cid : pystr) (c : object) : Prop :=
  ∃ tool phrase description d parameters defaults,
    c = [(u "id", VStr cid); (u "tool_name", VStr tool); (u "phrase", VStr phrase);
         (u "description", VStr description); (u "safety", VStr (Tools.safety d));
         (u "requires_confirmation", VBool (unsafe d))]
        ++ opt_item (u "parameters") (λ l, VList (VDict <$> l)) parameters
        ++ opt_item (u "default_arguments") VDict defaults ∧
    dget tool catalog = Some d ∧
    command_text_ok cid ∧ command_text_ok tool ∧ command_text_ok phrase ∧ command_text_ok description ∧
    (∀ l, parameters = Some l → parameters_ok l) ∧
    (∀ a, defaults = Some a → default_arguments_ok a ∧ (parameters = None ∨ parameters = Some [])).

Lemma optional_field_ok {A} (f : value → result A) (P : A → Prop) k d o :
  (∀ v a, f v = Ok a → P a) → optional_field f k d = Ok o → ∀ a, o = Some a → P a.
Proof.
  intros Hf H a ->. unfold optional_field, mbind, result_bind in H.
  destruct (dget k d) as [v|]; [|done]. destruct (f v) eqn:E; simplify_eq. eauto.
Qed.

Lemma catalog_command_ok {W} (catalog : dict pystr (ToolDefinition W)) seen v cid c :
  catalog_command catalog seen v = Ok (cid, c) → cid ∉ seen ∧ command_ok catalog cid c.
Proof.
  unfold catalog_command, check, mbind, result_bind. intros H.
  destruct v as [| | | | | |d]; try done. destruct (negb _); [done|].
  destruct (optional_field _validate_catalog_parameters _ d) as [ps|] eqn:Ep; [|done].
  destruct (optional_field _validate_catalog_default_arguments _ d) as [ds|] eqn:Ed; [|done].
  destruct (ensure _ _) eqn:Ex; [|done]. apply ensure_ok in Ex.
  destruct (command_text (get (u "id") d)) as [i|] eqn:Ei; [|done].
  destruct (command_text (get (u "tool_name") d)) as [t|] eqn:Et; [|done].
  destruct (command_text (get (u "phrase") d)) as [p|] eqn:Eph; [|done].
  destruct (command_text (get (u "description") d)) as [de|] eqn:Ede; [|done].
  destruct (command_safety _) as [s|]; [|done]. destruct (command_flag _) as [rc|]; [|done].
  unfold get_tool in H. destruct (dget (strip t) catalog) as [def|] eqn:Edef; [|done].
  destruct (ensure (_ && _) _) eqn:Ec; [|done]. apply ensure_ok in Ec. reflect.
  match goal with H : eqb _ _ = true |- _ => apply eqb_prop in H as -> end. subst s.
  case_bool_decide; [done|]. simplify_eq. split; [done|].
  exists (strip t), (strip p), (strip de), def, ps, ds.
  split_and!; try done; eauto using command_text_strip.
  - eapply optional_field_ok; [|exact Ep]. apply validate_catalog_parameters_ok.
  - intros a' ->. split.
    + by eapply (optional_field_ok _ default_arguments_ok _ _ _ default_arguments_validated Ed).
    + destruct ps as [[|]|]; auto. done.
Qed.

Lemma catalog_commands_ok {W} (catalog : dict pystr (ToolDefinition W)) seen l cs :
  catalog_commands catalog seen l = Ok cs →
  length cs = length l ∧
  ∃ ids, NoDup ids ∧ (∀ i, i ∈ ids → i ∉ seen) ∧ Forall2 (command_ok catalog) ids cs.
Proof.
  revert seen cs. induction l as [|v l IH]; intros seen cs H; simpl in H.
  - simplify_eq. split; [done|]. exists []. split_and!; [constructor|by intros ? ?%not_elem_of_nil|constructor].
  - unfold mbind, result_bind in H. destruct (catalog_command catalog seen v) as [[i c]|] eqn:E; [|done].
    destruct (catalog_commands catalog _ l) as [rest|] eqn:Er; simplify_eq.
    apply catalog_command_ok in E as [Hn Hp]. apply IH in Er as (Hlen & ids & Hnd & Hfr & Hall).
    split; [simpl; lia|]. exists (i :: ids). split_and!; [|set_solver|by constructor].
    apply NoDup_cons. split; [|done]. intros Hin. apply (Hfr i Hin). by left.
Qed.

(** ** Properties *)

(** The capability matrix that leaves the Core holds only allowlisted
    groups and fields, each field a boolean, a short printable string or a
    short list of them, never a nested object or a number; validating it again
    returns it unchanged, and a refused matrix raises [ValueError]. *)
Theorem capability_catalog_contract v :
  match _validate_capability_catalog v with
  | Ok d => capability_catalog_ok d ∧ _validate_capability_catalog (VDict d) = Ok d
  | Raise e => e = ValueError
  end.
Proof.
  destruct (_validate_capability_catalog v) as [d|e] eqn:E;
    [|by eapply validate_capability_catalog_raises].
  assert (capability_catalog_ok d) as (Hwf & Hlen & Hall).
  { unfold _validate_capability_catalog in E. destruct v as [| | | | | |g]; try done.
    destruct (_ <? _) eqn:El; [done|]. reflect.
    apply (collect_ok (λ k v, capability_key_ok k ∧ one_of k CAPABILITY_GROUPS = true ∧
      ∃ fields, v = VDict fields ∧ capability_fields_ok fields)) in E as (? & Hl & ?);
      [|apply capability_group_ok|constructor|by intros ? ? ?%not_elem_of_nil].
    split_and!; [done| |done]. autorewrite with len in Hl. lia. }
  split; [done|]. unfold _validate_capability_catalog. rewrite (proj2 (Z.ltb_ge _ _)) by done.
  apply (collect_fixed capability_group d []); [done|]. intros [k w] Hin.
  apply Hall in Hin as (? & ? & ?). by apply capability_group_fixed.
Qed.

(** The commands that leave the Core are at most 64, with distinct
    identifiers; each has bounded texts, names a registered tool, states that
    tool's safety and whether it needs a confirmation truthfully, and carries
    well-formed parameters or fixed arguments but not both. *)
Theorem command_catalog_contract {W} (catalog : dict pystr (ToolDefinition W)) v cs
    (Hcs : check_commands catalog v = Ok cs) :
  len cs <= MAX_CATALOG_COMMANDS ∧ ∃ ids, NoDup ids ∧ Forall2 (command_ok catalog) ids cs.
Proof.
  unfold check_commands in Hcs. destruct v as [| | | | |l|]; try done.
  destruct (_ <? _) eqn:E; [done|]. reflect.
  apply catalog_commands_ok in Hcs as (Hlen & ids & Hnd & _ & Hall).
  split; [unfold len in *; lia|]. eauto.
Qed.

Definition sample_command : value :=
  VDict [(u "id", VStr (u "abrir ")); (u "tool_name", VStr (u "open_app")); (u "phrase", VStr (u "abre <app>"));
         (u "description", VStr (u "Abrir")); (u "safety", VStr (u "unsafe"));
         (u "requires_confirmation", VBool true);
         (u "parameters", VList [VDict [(u "name", VStr (u "app")); (u "label", VStr (u "App"));
            (u "kind", VStr (u "app")); (u "max_length", VInt 64)]])].

Lemma command_catalog_contract_witness :
  ∃ cs, check_commands sample_catalog (VList [sample_command]) = Ok cs ∧ len cs = 1 ∧
    len cs <= MAX_CATALOG_COMMANDS ∧ ∃ ids, NoDup ids ∧ Forall2 (command_ok sample_catalog) ids cs.
Proof.
  eexists. split; [reflexivity|]. split; [reflexivity|].
  apply (command_catalog_contract sample_catalog (VList [sample_command])). reflexivity.
Defined.

(** Two options that differ only in surrounding blanks pass the duplicate test
    and are shown as the same option. *)
Lemma options_collapse :
  parameter_options (VList [VStr (u "a"); VStr (u " a")]) = Ok [u "a"; u " a"] ∧
  strip <$> [u "a"; u " a"] = [u "a"; u "a"].
Proof. by_compute. Qed.
