(* ===== verification/Crypto.v ===== *)
(** * Interfaces of the [cryptography] package

    The program calls Ed25519, X25519, HKDF-SHA256 and ChaCha20-Poly1305 from
    the third-party [cryptography] package.  Each is a class of operations
    with the functional laws its documentation states (signatures of the
    matching key verify, both ends of a key exchange agree, decryption inverts
    encryption and accepts nothing but the encryption of its result); no
    computational hardness is assumed.  The instances at the end show that the
    laws can hold together. *)
From S2P Require Import Prelude Sha256.

Class Ed25519 (SK PK : Type) := {
  ed_public : SK → PK;
  ed_sign : SK → bytes → bytes;
  (** [verify(signature, data)] returns; it raises [InvalidSignature] otherwise. *)
  ed_verify : PK → bytes → bytes → bool;
  ed_raw : PK → bytes;
  (** [from_public_bytes] on 32 bytes. *)
  ed_from_raw : bytes → PK
}.

Class Ed25519Laws {SK PK} (E : Ed25519 SK PK) : Prop := {
  ed_verify_sign sk m : ed_verify (ed_public sk) (ed_sign sk m) m = true;
  ed_sign_len sk m : len (ed_sign sk m) = 64;
  ed_sign_octets sk m : Forall is_octet (ed_sign sk m);
  ed_raw_len pk : len (ed_raw pk) = 32;
  ed_raw_octets pk : Forall is_octet (ed_raw pk);
  ed_from_raw_raw pk : ed_from_raw (ed_raw pk) = pk
}.

Class X25519 (XSK XPK : Type) := {
  x_public : XSK → XPK;
  (** [exchange]: raises [ValueError] when the shared point is zero. *)
  x_exchange : XSK → XPK → result bytes;
  x_raw : XPK → bytes;
  x_from_raw : bytes → XPK
}.

Class X25519Laws {XSK XPK} (X : X25519 XSK XPK) : Prop := {
  x_agree a b : x_exchange a (x_public b) = x_exchange b (x_public a);
  x_exchange_raises a p e : x_exchange a p = Raise e → e = ValueError;
  x_exchange_len a p s : x_exchange a p = Ok s → len s = 32;
  x_raw_len p : len (x_raw p) = 32;
  x_raw_octets p : Forall is_octet (x_raw p);
  x_from_raw_raw p : x_from_raw (x_raw p) = p
}.

(** [HKDF(SHA256, length, salt, info).derive(key_material)] *)
Class HKDF := hkdf : bytes → bytes → Z → bytes → bytes.
Class HKDFLaws (H : HKDF) : Prop :=
  hkdf_len salt info n ikm : 0 <= n <= 255 * 32 → len (hkdf salt info n ikm) = n.

Class AEAD := {
  (** [ChaCha20Poly1305(key).encrypt(nonce, data, associated_data)] *)
  aead_encrypt : bytes → bytes → bytes → bytes → bytes;
  (** [decrypt]: [None] is [InvalidTag]. *)
  aead_decrypt : bytes → bytes → bytes → bytes → option bytes
}.
Class AEADLaws (A : AEAD) : Prop := {
  aead_decrypt_encrypt k n m a : aead_decrypt k n (aead_encrypt k n m a) a = Some m;
  aead_decrypt_only k n c a m : aead_decrypt k n c a = Some m → c = aead_encrypt k n m a;
  aead_encrypt_len k n m a : len (aead_encrypt k n m a) = len m + 16;
  aead_encrypt_octets k n m a : Forall is_octet m → Forall is_octet (aead_encrypt k n m a)
}.

(** Encryption under one key and nonce is injective in the message and the
    associated data is checked by decryption. *)
Lemma aead_encrypt_inj {A : AEAD} {HA : AEADLaws A} k n a m m' :
  aead_encrypt k n m a = aead_encrypt k n m' a → m = m'.
Proof.
  intros E. assert (Some m = Some m') as [=]; [|done].
  by rewrite <- (aead_decrypt_encrypt k n m a), E, aead_decrypt_encrypt.
Qed.

(** ** Models of the laws *)

(** A polynomial checksum of 24 bits stands for the cryptography: cheap to
    evaluate, since the kernel evaluates the samples of every protocol. *)
Definition checksum (n : nat) (b : bytes) : bytes :=
  replicate (n - 3) 0 ++ be_bytes (n `min` 3) (foldl (λ a x, Z.land (a * 257 + x) 0xFFFFFF) 1 b).

Lemma length_checksum n b : length (checksum n b) = n.
Proof. unfold checksum. rewrite length_app, length_replicate, length_be_bytes. lia. Qed.

Lemma len_checksum n b : len (checksum n b) = Z.of_nat n.
Proof. unfold len. by rewrite length_checksum. Qed.

Lemma checksum_octets n b : Forall is_octet (checksum n b).
Proof. apply Forall_app. split; [by apply Forall_replicate|apply be_bytes_octets]. Qed.

Definition toy_raw (b : bool) : bytes := replicate 31 0 ++ [if b then 1 else 2].

#[global] Arguments checksum : simpl never.
#[global] Arguments toy_raw : simpl never.

Lemma len_toy_raw b : len (toy_raw b) = 32.
Proof. by destruct b. Qed.

Lemma toy_raw_octets b : Forall is_octet (toy_raw b).
Proof. apply (bool_decide_unpack _). by destruct b. Qed.

#[global] Instance toy_ed25519 : Ed25519 bool bool := {|
  ed_public b := b;
  ed_sign b m := checksum 64 (toy_raw b ++ m);
  ed_verify b s m := bool_decide (s = checksum 64 (toy_raw b ++ m));
  ed_raw := toy_raw;
  ed_from_raw r := bool_decide (r = toy_raw true)
|}.

#[global] Instance toy_ed25519_laws : Ed25519Laws toy_ed25519.
Proof.
  split; cbn [ed_public ed_sign ed_verify ed_raw ed_from_raw toy_ed25519].
  - intros. by apply bool_decide_true.
  - intros. apply len_checksum.
  - intros. apply checksum_octets.
  - apply len_toy_raw.
  - apply toy_raw_octets.
  - intros []; [by apply bool_decide_true|by apply bool_decide_false].
Qed.

#[global] Instance toy_x25519 : X25519 bool bool := {|
  x_public b := b;
  x_exchange a b := Ok (toy_raw (xorb a b));
  x_raw := toy_raw;
  x_from_raw r := bool_decide (r = toy_raw true)
|}.

#[global] Instance toy_x25519_laws : X25519Laws toy_x25519.
Proof.
  split; cbn [x_public x_exchange x_raw x_from_raw toy_x25519].
  - intros a b. by rewrite xorb_comm.
  - done.
  - intros a p s [= <-]. apply len_toy_raw.
  - apply len_toy_raw.
  - apply toy_raw_octets.
  - intros []; [by apply bool_decide_true|by apply bool_decide_false].
Qed.

#[global] Instance toy_hkdf : HKDF := λ salt info n ikm,
  checksum (Z.to_nat n) (salt ++ info ++ ikm).
#[global] Instance toy_hkdf_laws : HKDFLaws toy_hkdf.
Proof. intros salt info n ikm Hn. unfold hkdf, toy_hkdf. rewrite len_checksum. lia. Qed.

Definition toy_tag (k n m a : bytes) : bytes := checksum 16 (k ++ n ++ m ++ a).

#[global] Instance toy_aead : AEAD := {|
  aead_encrypt k n m a := m ++ toy_tag k n m a;
  aead_decrypt k n c a :=
    let m := take (length c - 16) c in
    if bool_decide (drop (length c - 16) c = toy_tag k n m a) then Some m else None
|}.

#[global] Instance toy_aead_laws : AEADLaws toy_aead.
Proof.
  assert (∀ k n m a, length (toy_tag k n m a) = 16%nat) as Htag
    by (intros; apply length_checksum).
  split; cbn [aead_encrypt aead_decrypt toy_aead].
  - intros k n m a. rewrite length_app, Htag. replace (length m + 16 - 16)%nat with (length m) by lia.
    rewrite take_app_length, drop_app_length. by rewrite bool_decide_true.
  - intros k n c a m. case_bool_decide as E; [|done]. intros [= <-]. rewrite <- E. symmetry. apply take_drop.
  - intros k n m a. unfold len. rewrite length_app, Htag. lia.
  - intros k n m a Hm. apply Forall_app. split; [done|]. apply checksum_octets.
Qed.
