(* ===== verification/Challenge.v ===== *)
(** * Challenge-response authorization: [windows-agent/trusted_unlock_protocol.py]

    [AuthorizationVerifier] issues one-time challenges to paired devices and
    accepts one valid Ed25519 response to each.  [verifier_ok] is the
    invariant of its three tables; the theorems cover acceptance, one-time
    use, the memory bounds and the round trip with a paired device. *)
From S2P Require Import Prelude Dict Value Effects Encoding Json Crypto OneShot.

Definition PROTOCOL_VERSION : Z := 1.
Definition AUDIENCE : pystr := u "pipa-trusted-unlock".
Definition UNLOCK_OPERATION : pystr := u "unlock".
Definition DEFAULT_TTL_SECONDS : Z := 30.
Definition MAX_TTL_SECONDS : Z := 60.
Definition DEFAULT_CLOCK_SKEW_SECONDS : Z := 5.
Definition NONCE_BYTES : Z := 32.
Definition MAX_PENDING_CHALLENGES : Z := 256.
Definition MAX_PENDING_PER_DEVICE : Z := 8.
Definition MAX_CONSUMED_CHALLENGES : Z := 4096.

(** [_IDENTIFIER_PATTERN] *)
Definition identifier_char (c : Z) : bool :=
  ascii_alnum c || (c =? 95) || (c =? 46) || (c =? 58) || (c =? 45).
Definition is_identifier (s : pystr) : bool := matches_class identifier_char 1 128 s.

Definition _validate_identifier (s : pystr) : result unit := ensure (is_identifier s) ValueError.

Definition _encode_base64url (b : bytes) : pystr := Base64.encode b.

(** [_BASE64URL_PATTERN]: alphabet characters, then at most two [=]. *)
Fixpoint strip_pads (n : nat) (s : pystr) : pystr :=
  match n, s with
  | S n', 61 :: s' => strip_pads n' s'
  | _, _ => s
  end.
Definition is_base64url (s : pystr) : bool :=
  let body := strip_pads 2 (reverse s) in nonempty body && forallb Base64.alphabet body.

Definition _decode_base64url (s : pystr) : result bytes :=
  if is_base64url s then
    match Base64.decode_padded s with Some b => Ok b | None => Raise ValueError end
  else Raise ValueError.

Record Challenge := mkChallenge {
  challenge_id : pystr;
  device_id : pystr;
  nonce : pystr;
  issued_at : Z;
  expires_at : Z;
  operation : pystr;
  audience : pystr;
  protocol_version : Z
}.

(** [Challenge.__post_init__] *)
Definition check_challenge (c : Challenge) : result Challenge :=
  _ ← _validate_identifier (challenge_id c);
  _ ← _validate_identifier (device_id c);
  _ ← _validate_identifier (operation c);
  _ ← _validate_identifier (audience c);
  _ ← ensure (protocol_version c =? PROTOCOL_VERSION) ValueError;
  _ ← ensure (issued_at c <? expires_at c) ValueError;
  n ← reraise [ValueError] ValueError (_decode_base64url (nonce c));
  _ ← ensure (len n =? NONCE_BYTES) ValueError;
  Ok c.

Definition challenge_dict (c : Challenge) : object :=
  [(u "audience", VStr (audience c)); (u "challenge_id", VStr (challenge_id c));
   (u "device_id", VStr (device_id c)); (u "expires_at", VInt (expires_at c));
   (u "issued_at", VInt (issued_at c)); (u "nonce", VStr (nonce c));
   (u "operation", VStr (operation c)); (u "protocol_version", VInt (protocol_version c))].

Definition signing_bytes (c : Challenge) : result bytes := dump_bytes true true (VDict (challenge_dict c)).

Record SignedChallenge := mkSigned {
  signed_challenge_id : pystr;
  signed_device_id : pystr;
  signature : pystr
}.

(** [SignedChallenge.__post_init__] *)
Definition check_signed (r : SignedChallenge) : result SignedChallenge :=
  _ ← _validate_identifier (signed_challenge_id r);
  _ ← _validate_identifier (signed_device_id r);
  s ← reraise [ValueError] ValueError (_decode_base64url (signature r));
  _ ← ensure (len s =? 64) ValueError;
  Ok r.

Definition signature_bytes (r : SignedChallenge) : result bytes := _decode_base64url (signature r).

Record VerifiedAuthorization := mkAuthorization {
  auth_challenge_id : pystr;
  auth_device_id : pystr;
  auth_operation : pystr;
  verified_at : Z;
  auth_expires_at : Z
}.

(** The readings and draws of one [create_challenge]: the clock and the
    results of [secrets.token_bytes(16)] and [secrets.token_bytes(32)]. *)
Record challenge_env := { env_now : Z; id_bytes : bytes; nonce_bytes : bytes }.

(** What [secrets.token_bytes] documents. *)
Definition env_ok (env : challenge_env) : Prop :=
  len (id_bytes env) = 16 ∧ Forall is_octet (id_bytes env) ∧
  len (nonce_bytes env) = 32 ∧ Forall is_octet (nonce_bytes env).

Section Verifier.
Context {SK PK : Type} `{E : Ed25519 SK PK}.

Definition public_key_to_base64 (pk : PK) : pystr := _encode_base64url (ed_raw pk).

Definition public_key_from_base64 (s : pystr) : result PK :=
  raw ← _decode_base64url s;
  if len raw =? 32 then Ok (ed_from_raw raw) else Raise ValueError.

Definition create_signed_response (c : Challenge) (sk : SK) : result SignedChallenge :=
  b ← signing_bytes c;
  check_signed (mkSigned (challenge_id c) (device_id c) (_encode_base64url (ed_sign sk b))).

(** ** The verifier *)

Record verifier_state := mkVerifier {
  trusted : dict pystr PK;
  pending : dict pystr Challenge;
  consumed : dict pystr Z
}.
Definition with_trusted (t : dict pystr PK) (v : verifier_state) := mkVerifier t (pending v) (consumed v).
Definition with_pending (p : dict pystr Challenge) (v : verifier_state) := mkVerifier (trusted v) p (consumed v).
Definition with_consumed (c : dict pystr Z) (v : verifier_state) := mkVerifier (trusted v) (pending v) c.

Definition register_device (d : pystr) (pk : PK) : M verifier_state unit :=
  lift (_validate_identifier d) ≫= λ _, modify (λ v, with_trusted (dset d pk (trusted v)) v).

Definition revoke_device (d : pystr) : M verifier_state unit :=
  modify (λ v, with_trusted (ddel d (trusted v)) v).

Definition challenge_expired (now : Z) (c : Challenge) : Prop := expires_at c <= now.
#[global] Instance challenge_expired_dec now c : Decision (challenge_expired now c).
Proof. unfold challenge_expired. apply _. Defined.

Definition _prune (now : Z) (v : verifier_state) : verifier_state :=
  mkVerifier (trusted v)
    (ddel_all (keys_where (challenge_expired now) (pending v)) (pending v))
    (ddel_all (keys_where (λ e, e <= now) (consumed v)) (consumed v)).

Definition for_device (d : pystr) (c : Challenge) : Prop := device_id c = d.
#[global] Instance for_device_dec d c : Decision (for_device d c).
Proof. unfold for_device. apply _. Defined.

(** [Challenge(...)] with the drawn identifier and nonce. *)
Definition new_challenge (env : challenge_env) (d : pystr) (ttl : Z) (op : pystr) : Challenge :=
  mkChallenge (_encode_base64url (id_bytes env)) d (_encode_base64url (nonce_bytes env))
    (env_now env) (env_now env + ttl) op AUDIENCE PROTOCOL_VERSION.

Definition create_challenge (env : challenge_env) (d : pystr) (ttl_seconds : Z) (op : pystr)
  : M verifier_state Challenge :=
  lift (_validate_identifier d) ≫= λ _,
  lift (_validate_identifier op) ≫= λ _,
  if (ttl_seconds <? 1) || (MAX_TTL_SECONDS <? ttl_seconds) then raise ValueError
  else
    lift (check_challenge (new_challenge env d ttl_seconds op)) ≫= λ c,
    modify (_prune (env_now env)) ≫= λ _,
    gets (λ v, dmem d (trusted v)) ≫= λ known,
    if negb known then raise UnknownDeviceError
    else
      gets (λ v, (MAX_PENDING_CHALLENGES <=? len (pending v))
                 || (MAX_PENDING_PER_DEVICE <=? dcount (for_device d) (pending v))) ≫= λ full,
      if full : bool then raise ChallengeLimitError
      else
        modify (λ v, with_pending (dset (challenge_id c) c (pending v)) v) ≫= λ _,
        mret c.

(** [public_key.verify(response.signature_bytes(), challenge.signing_bytes())] *)
Definition check_signature (pk : PK) (r : SignedChallenge) (c : Challenge) : result unit :=
  reraise [InvalidSignature; ValueError] InvalidResponseError
    (s ← signature_bytes r;
     b ← signing_bytes c;
     ensure (ed_verify pk s b) InvalidSignature).

(** [if len(consumed) >= MAX: consumed.pop(next(iter(consumed)))], then the
    new entry. *)
Definition remember_consumed (c : Challenge) (t : dict pystr Z) : dict pystr Z :=
  dset (challenge_id c) (expires_at c) (if MAX_CONSUMED_CHALLENGES <=? len t then dpop_oldest t else t).

Context (clock_skew_seconds : Z).

Definition verify_response (r : SignedChallenge) (now : Z) : M verifier_state VerifiedAuthorization :=
  gets (λ v, dmem (signed_challenge_id r) (consumed v)) ≫= λ seen,
  if seen : bool then raise ReplayDetectedError
  else
    gets (λ v, dget (signed_challenge_id r) (pending v)) ≫= λ challenge,
    match challenge with
    | None => modify (_prune now) ≫= λ _, raise UnknownChallengeError
    | Some c =>
      if expires_at c <=? now then
        gets (λ v, ddel_strict (challenge_id c) (pending v)) ≫= λ p,
        lift p ≫= λ p,
        modify (with_pending p) ≫= λ _,
        modify (_prune now) ≫= λ _, raise ExpiredChallengeError
      else
        modify (_prune now) ≫= λ _,
        if negb (bool_decide (signed_device_id r = device_id c)) then raise ChallengeMismatchError
        else if now <? issued_at c - clock_skew_seconds then raise ExpiredChallengeError
        else
          gets (λ v, dget (device_id c) (trusted v)) ≫= λ key,
          match key with
          | None => raise UnknownDeviceError
          | Some pk =>
            lift (check_signature pk r c) ≫= λ _,
            gets (λ v, ddel_strict (challenge_id c) (pending v)) ≫= λ p,
            lift p ≫= λ p,
            modify (with_pending p) ≫= λ _,
            modify (λ v, with_consumed (remember_consumed c (consumed v)) v) ≫= λ _,
            mret (mkAuthorization (challenge_id c) (device_id c) (operation c) now (expires_at c))
          end
    end.

Definition pending_count (v : verifier_state) : Z := len (pending v).

End Verifier.
Arguments verifier_state PK : clear implicits.

Section Lemmas.
Context {SK PK : Type} `{E : Ed25519 SK PK}.
Context (clock_skew_seconds : Z).
Implicit Types (v : verifier_state PK).

(** ** Invariant *)

Record verifier_ok v : Prop := {
  v_pending_wf : dwf (pending v);
  v_consumed_wf : dwf (consumed v);
  v_pending_len : len (pending v) <= MAX_PENDING_CHALLENGES;
  v_pending_device : ∀ d, dcount (for_device d) (pending v) <= MAX_PENDING_PER_DEVICE;
  v_consumed_len : len (consumed v) <= MAX_CONSUMED_CHALLENGES;
  v_ids : ∀ k c, (k, c) ∈ pending v → challenge_id c = k
}.

Lemma verifier_ok_empty t : verifier_ok (mkVerifier t [] []).
Proof. split; simpl; try done; try constructor; by intros ? ? ?%not_elem_of_nil. Qed.

Definition live_pending (now : Z) v : dict pystr Challenge :=
  filter (λ kv, ¬ challenge_expired now kv.2) (pending v).
Definition live_consumed (now : Z) v : dict pystr Z := filter (λ kv, ¬ kv.2 <= now) (consumed v).

Lemma prune_eq now v :
  verifier_ok v → _prune now v = mkVerifier (trusted v) (live_pending now v) (live_consumed now v).
Proof.
  intros Hv. unfold _prune, live_pending, live_consumed.
  rewrite (ddel_keys_where (challenge_expired now)) by apply Hv.
  by rewrite (ddel_keys_where (λ e, e <= now)) by apply Hv.
Qed.

Lemma verifier_ok_prune now v : verifier_ok v → verifier_ok (_prune now v).
Proof.
  intros Hv. rewrite prune_eq by done. destruct Hv as [Hp Hc Hpl Hpd Hcl Hid]. split; simpl.
  - by apply filter_sublist_wf.
  - by apply filter_sublist_wf.
  - etransitivity; [apply len_filter_le|done].
  - intros d. etransitivity; [apply dcount_filter_le|apply Hpd].
  - etransitivity; [apply len_filter_le|done].
  - intros k c [_ Hin]%list_elem_of_filter. eauto.
Qed.

Lemma verifier_ok_trusted t v : verifier_ok v → verifier_ok (with_trusted t v).
Proof. intros []. by split. Qed.

(** ** Issuing *)

Lemma check_challenge_ok c c' : check_challenge c = Ok c' → c' = c.
Proof. unfold check_challenge, mbind, result_bind. intros H. repeat case_match; by simplify_eq. Qed.

Lemma decode_base64url_raises s : raises_only (λ e, e = ValueError) (_decode_base64url s).
Proof. unfold _decode_base64url. by repeat raises_step. Qed.

Lemma check_challenge_raises c : raises_only (λ e, e = ValueError) (check_challenge c).
Proof.
  unfold check_challenge, _validate_identifier. repeat raises_step; try done.
  eapply raises_only_weaken; [apply decode_base64url_raises|]. by intros e ->.
Qed.

Lemma check_signed_id r r' : check_signed r = Ok r' → r' = r.
Proof. unfold check_signed. intros. by result_inv. Qed.

Lemma check_signed_raises r : raises_only (λ e, e = ValueError) (check_signed r).
Proof.
  unfold check_signed, _validate_identifier. repeat raises_step; try done.
  eapply raises_only_weaken; [apply decode_base64url_raises|]. by intros e ->.
Qed.

Lemma check_signature_raises pk r c :
  raises_only (λ e, e = InvalidResponseError) (check_signature pk r c).
Proof.
  unfold check_signature, signature_bytes, signing_bytes. repeat raises_step; try done.
  - eapply raises_only_weaken; [apply decode_base64url_raises|]. by intros e ->.
  - intros e He%dump_bytes_value_error. unfold caught. cbn [existsb]. rewrite He. by rewrite orb_true_r.
Qed.

Lemma create_challenge_run env d ttl op v v' out :
  verifier_ok v → create_challenge env d ttl op v = (v', out) →
  match out with
  | Ok c =>
    c = new_challenge env d ttl op ∧ is_identifier d = true ∧ 1 <= ttl <= MAX_TTL_SECONDS ∧
    dmem d (trusted v) = true ∧ len (live_pending (env_now env) v) < MAX_PENDING_CHALLENGES ∧
    dcount (for_device d) (live_pending (env_now env) v) < MAX_PENDING_PER_DEVICE ∧
    v' = with_pending (dset (challenge_id c) c (live_pending (env_now env) v)) (_prune (env_now env) v)
  | Raise e =>
    (e = ValueError ∧ v' = v) ∨
    (e = UnknownDeviceError ∧ dmem d (trusted v) = false ∧ v' = _prune (env_now env) v) ∨
    (e = ChallengeLimitError ∧ v' = _prune (env_now env) v ∧
     (len (live_pending (env_now env) v) = MAX_PENDING_CHALLENGES ∨
      dcount (for_device d) (live_pending (env_now env) v) = MAX_PENDING_PER_DEVICE))
  end.
Proof.
  intros Hv. unfold create_challenge, lift, gets, raise, modify, mret, M_ret, mbind, M_bind.
  unfold _validate_identifier, ensure.
  destruct (is_identifier d) eqn:Ed; [|intros [= <- <-]; by left].
  destruct (is_identifier op) eqn:Eo; [|intros [= <- <-]; by left].
  destruct ((ttl <? 1) || (MAX_TTL_SECONDS <? ttl)) eqn:Et; [intros [= <- <-]; by left|].
  destruct (check_challenge _) as [c|e] eqn:Ec;
    [|apply check_challenge_raises in Ec as ->; intros [= <- <-]; by left].
  apply check_challenge_ok in Ec as ->.
  pose proof (verifier_ok_prune (env_now env) v Hv) as Hp. rewrite prune_eq in * by done. simpl.
  destruct (dmem d (trusted v)) eqn:Em; [|intros [= <- <-]; by right; left].
  simpl. pose proof (v_pending_len _ Hp) as Hl. pose proof (v_pending_device _ Hp d) as Hd. simpl in *.
  destruct ((MAX_PENDING_CHALLENGES <=? _) || _) eqn:Ef; intros [= <- <-]; reflect.
  - right; right. split_and!; [done..|]. destruct Ef; reflect; [left|right]; lia.
  - by split_and!.
Qed.

Lemma keeps_create_challenge env d ttl op : keeps verifier_ok (create_challenge (PK := PK) env d ttl op).
Proof.
  intros v Hv. apply wp_intro. intros v' [c|e] H; apply create_challenge_run in H; try done.
  - destruct H as (-> & _ & _ & _ & Hl & Hd & ->).
    pose proof (verifier_ok_prune (env_now env) v Hv) as Hp. rewrite prune_eq in * by done.
    destruct Hp as [Hpw Hcw Hpl Hpd Hcl Hid]. simpl in *. split; simpl; try done.
    + by apply dset_wf.
    + match goal with |- len (dset ?k ?x ?t) <= _ => pose proof (len_dset_le k x t) end. lia.
    + intros d'. etransitivity; [apply dcount_dset_le|]. specialize (Hpd d').
      case_decide as Ed; [|lia]. unfold for_device in Ed. simpl in Ed. subst d'. lia.
    + intros k c [[-> ->]|Hin]%dset_elem; eauto.
  - destruct H as [[_ ->]|[(_ & _ & ->)|(_ & -> & _)]]; auto using verifier_ok_prune.
Qed.

(** ** Verifying *)

(** Deleting an expired challenge before pruning is pruning. *)
Lemma ddel_expired_prune now v k c :
  verifier_ok v → dget k (pending v) = Some c → expires_at c <= now →
  _prune now (with_pending (ddel k (pending v)) v) = _prune now v.
Proof.
  intros Hv Hk He. unfold _prune. simpl. f_equal.
  rewrite !(ddel_keys_where (challenge_expired now)); [|by apply Hv|apply ddel_wf, Hv].
  unfold ddel. rewrite list_filter_filter. apply filter_ext_elem. intros [k' c'] Hin. simpl. split; [tauto|].
  intros Hn. split; [done|]. intros ->. apply Hn. apply elem_dget in Hin; [|by apply Hv].
  by simplify_eq.
Qed.

Lemma live_pending_dget now v k c :
  verifier_ok v → dget k (pending v) = Some c → now < expires_at c → dget k (live_pending now v) = Some c.
Proof.
  intros Hv Hk Ht. apply elem_dget; [apply filter_sublist_wf, Hv|].
  apply list_elem_of_filter. split; [unfold challenge_expired; simpl; lia|by apply dget_elem].
Qed.

(** The accepting branch of [verify_response]. *)
Record accepted (r : SignedChallenge) (now : Z) v (v' : verifier_state PK) (a : VerifiedAuthorization)
    (c : Challenge) (pk : PK) : Prop := {
  acc_pending : dget (signed_challenge_id r) (pending v) = Some c;
  acc_unused : dmem (signed_challenge_id r) (consumed v) = false;
  acc_device : signed_device_id r = device_id c;
  acc_time : issued_at c - clock_skew_seconds <= now < expires_at c;
  acc_trusted : dget (device_id c) (trusted v) = Some pk;
  acc_signature : check_signature pk r c = Ok tt;
  acc_state : v' = mkVerifier (trusted v) (ddel (challenge_id c) (live_pending now v))
                     (remember_consumed c (live_consumed now v));
  acc_result : a = mkAuthorization (challenge_id c) (device_id c) (operation c) now (expires_at c)
}.

Lemma verify_response_run r now v v' out :
  verifier_ok v → verify_response clock_skew_seconds r now v = (v', out) →
  match out with
  | Ok a => ∃ c pk, accepted r now v v' a c pk
  | Raise e => is_a e TrustedUnlockError = true ∧ (v' = v ∨ v' = _prune now v)
  end.
Proof.
  intros Hv. unfold verify_response, lift, gets, raise, modify, mret, M_ret, mbind, M_bind.
  destruct (dmem _ (consumed v)) eqn:Eu; [intros [= <- <-]; by auto|].
  destruct (dget _ (pending v)) as [c|] eqn:Ep; [|intros [= <- <-]; by auto].
  assert (challenge_id c = signed_challenge_id r) as Hid by (eapply v_ids; [done|by apply dget_elem]).
  destruct (expires_at c <=? now) eqn:Ee; reflect.
  { unfold ddel_strict. rewrite Hid. unfold dmem at 1. rewrite Ep.
    rewrite (ddel_expired_prune now v _ c) by done. intros [= <- <-]. by auto. }
  rewrite prune_eq by done.
  destruct (negb _) eqn:Ed; reflect; [intros [= <- <-]; by auto|].
  destruct (now <? _) eqn:Es; reflect; [intros [= <- <-]; by auto|]. simpl.
  destruct (dget (device_id c) (trusted v)) as [pk|] eqn:Ek; [|intros [= <- <-]; by auto].
  destruct (check_signature pk r c) as [[]|e] eqn:Ec;
    [|apply check_signature_raises in Ec as ->; intros [= <- <-]; by auto].
  unfold ddel_strict. rewrite Hid at 1. unfold dmem at 1.
  rewrite (live_pending_dget now v _ c) by done. intros [= <- <-]. exists c, pk. by split.
Qed.

(** Every response that meets the conditions is accepted. *)
Lemma verify_response_complete r now v c pk :
  verifier_ok v → dget (signed_challenge_id r) (pending v) = Some c →
  dmem (signed_challenge_id r) (consumed v) = false → signed_device_id r = device_id c →
  issued_at c - clock_skew_seconds <= now < expires_at c →
  dget (device_id c) (trusted v) = Some pk → check_signature pk r c = Ok tt →
  (verify_response clock_skew_seconds r now v).2 =
    Ok (mkAuthorization (challenge_id c) (device_id c) (operation c) now (expires_at c)).
Proof.
  intros Hv Hp Hu Hd Ht Hk Hs.
  assert (challenge_id c = signed_challenge_id r) as Hid by (eapply v_ids; [done|by apply dget_elem]).
  unfold verify_response, lift, gets, raise, modify, mret, M_ret, mbind, M_bind.
  rewrite Hu, Hp, (proj2 (Z.leb_gt (expires_at c) now)) by lia.
  rewrite bool_decide_true by done. rewrite (proj2 (Z.ltb_ge now _)) by lia.
  rewrite prune_eq by done. cbn [negb trusted pending]. rewrite Hk, Hs.
  unfold ddel_strict. rewrite Hid. unfold dmem. by rewrite (live_pending_dget now v _ c) by (done || lia).
Qed.

Lemma remember_consumed_wf c t : dwf t → dwf (remember_consumed c t).
Proof. intros. unfold remember_consumed. apply dset_wf. case_match; auto using dpop_oldest_wf. Qed.

Lemma remember_consumed_len c t :
  len t <= MAX_CONSUMED_CHALLENGES → len (remember_consumed c t) <= MAX_CONSUMED_CHALLENGES.
Proof.
  intros Hl. unfold remember_consumed. etransitivity; [apply len_dset_le|].
  destruct (_ <=? _) eqn:Em; reflect; [|lia].
  assert (t ≠ []) as Hne by (intros ->; unfold MAX_CONSUMED_CHALLENGES in *; autorewrite with len in *; lia).
  pose proof (len_dpop_oldest t Hne). lia.
Qed.

Lemma keeps_verify r now : keeps verifier_ok (verify_response clock_skew_seconds r now).
Proof.
  intros v Hv. apply wp_intro. intros v' [a|e] H; apply verify_response_run in H; try done.
  - destruct H as (c & pk & H). rewrite (acc_state _ _ _ _ _ _ _ H).
    pose proof (verifier_ok_prune now v Hv) as Hp. rewrite prune_eq in Hp by done.
    destruct Hp as [Hpw Hcw Hpl Hpd Hcl Hid]. simpl in *. split; simpl.
    + by apply ddel_wf.
    + by apply remember_consumed_wf.
    + pose proof (len_ddel_le (challenge_id c) (live_pending now v)). lia.
    + intros d. etransitivity; [apply dcount_filter_le|apply Hpd].
    + by apply remember_consumed_len.
    + intros k c' [_ Hin]%ddel_elem. eauto.
  - destruct H as [_ [-> | ->]]; auto using verifier_ok_prune.
Qed.
End Lemmas.

(** ** Encodings of identifiers, keys and signatures *)

Lemma identifier_ascii s : is_identifier s = true → Forall ascii s.
Proof.
  unfold is_identifier, matches_class. intros H. reflect.
  apply Forall_forall. intros c Hc%list_elem_of_In.
  match goal with H : forallb _ _ = true |- _ => rewrite forallb_forall in H; apply H in Hc end.
  unfold identifier_char, ascii_alnum, ascii_alpha, ascii_upper, ascii_lower, ascii_digit, ascii in *.
  lia.
Qed.

Lemma alphabet_identifier c : Base64.alphabet c = true → identifier_char c = true.
Proof. unfold Base64.alphabet, identifier_char. destruct (ascii_alnum c); [done|]. simpl. lia. Qed.

Lemma alphabet_ascii c : Base64.alphabet c = true → ascii c.
Proof.
  unfold Base64.alphabet, ascii_alnum, ascii_alpha, ascii_upper, ascii_lower, ascii_digit, ascii. lia.
Qed.

Lemma encode_ascii b : Forall is_octet b → Forall ascii (_encode_base64url b).
Proof.
  intros Hb%Base64.encode_alphabet. apply Forall_forall. intros c Hc%list_elem_of_In.
  rewrite forallb_forall in Hb. by apply alphabet_ascii, Hb.
Qed.

Lemma len_encode b : len b <= 96 → len (_encode_base64url b) <= 128 ∧ (b ≠ [] → 1 <= len (_encode_base64url b)).
Proof.
  unfold _encode_base64url. intros Hb.
  cut (3 * len (Base64.encode b) <= 4 * len b + 2 ∧ (b ≠ [] → 1 <= len (Base64.encode b))); [|clear Hb].
  { intros [? ?]. split; [lia|done]. }
  induction b as [|x|x y|x y z l [IH _]] using Base64.triple_ind; cbn [Base64.encode];
    autorewrite with len; split; try lia; try done. intros _.
  pose proof (len_nonneg (Base64.encode l)). lia.
Qed.

Lemma encode_identifier b :
  Forall is_octet b → b ≠ [] → len b <= 96 → is_identifier (_encode_base64url b) = true.
Proof.
  intros Hb Hne Hlen. destruct (len_encode b Hlen) as [Hl1 Hl2]. unfold is_identifier, matches_class.
  apply andb_true_iff. split; [apply andb_true_iff; split|].
  - apply forallb_forall. intros c Hc. apply Base64.encode_alphabet in Hb.
    rewrite forallb_forall in Hb. by apply alphabet_identifier, Hb.
  - apply Z.leb_le. auto.
  - by apply Z.leb_le.
Qed.

Lemma strip_pads_alphabet n s : forallb Base64.alphabet s = true → strip_pads n s = s.
Proof.
  destruct s as [|c s]; [by destruct n|]. cbn [forallb]. intros H. reflect. destruct n; [done|]. simpl.
  destruct (decide (c = 61)) as [->|]; [done|]. by repeat case_match.
Qed.

(** Decoding inverts encoding on every non-empty byte string. *)
Lemma decode_encode_base64url b :
  Forall is_octet b → b ≠ [] → _decode_base64url (_encode_base64url b) = Ok b.
Proof.
  intros Hb Hne. unfold _decode_base64url, _encode_base64url, is_base64url.
  pose proof (Base64.encode_alphabet b Hb) as Ha.
  rewrite strip_pads_alphabet; [|by rewrite forallb_reverse].
  rewrite forallb_reverse, Ha, Base64.decode_encode by done.
  destruct (nonempty (reverse (Base64.encode b))) eqn:En; [done|]. exfalso.
  destruct (reverse (Base64.encode b)) eqn:Er; [|done]. apply (f_equal len) in Er.
  rewrite len_reverse in Er. by destruct b as [|x [|y [|z l]]].
Qed.

Section Roundtrip.
Context {SK PK : Type} `{E : Ed25519 SK PK} {HE : Ed25519Laws E}.

Lemma nonempty_len {A} (l : list A) n : len l = n → 0 < n → l ≠ [].
Proof. intros H ? ->. rewrite len_nil in H. lia. Qed.

Lemma public_key_roundtrip (pk : PK) : public_key_from_base64 (public_key_to_base64 pk) = Ok pk.
Proof using HE.
  unfold public_key_from_base64, public_key_to_base64. pose proof (ed_raw_len pk) as Hl.
  rewrite decode_encode_base64url; [|apply ed_raw_octets|by eapply nonempty_len].
  unfold mbind, result_bind. rewrite Hl. simpl. by rewrite ed_from_raw_raw.
Qed.

(** A challenge of bounded timestamps always has signing bytes. *)
Lemma signing_bytes_ok env d ttl op :
  env_ok env → is_identifier d = true → is_identifier op = true →
  0 <= env_now env < 2 ^ 62 → 0 <= ttl <= MAX_TTL_SECONDS →
  ∃ b, signing_bytes (new_challenge env d ttl op) = Ok b.
Proof using Type.
  intros (_ & Hid & _ & Hn) Hd Ho Ht Hl.
  destruct (dump_bytes_ascii true true (VDict (challenge_dict (new_challenge env d ttl op)))) as (b & Hb & _);
    [|by exists b].
  unfold MAX_TTL_SECONDS in *.
  assert (2 ^ 62 + 60 < 2 ^ 64) by done.
  cbn [value_text challenge_dict new_challenge audience challenge_id device_id expires_at issued_at nonce
       operation protocol_version].
  split_and!; try (apply small_int_ascii; lia); try (by apply encode_ascii);
    try (by apply identifier_ascii); try done.
Qed.

Lemma check_signed_ok cid d s :
  is_identifier cid = true → is_identifier d = true → Forall is_octet s → len s = 64 →
  check_signed (mkSigned cid d (_encode_base64url s)) = Ok (mkSigned cid d (_encode_base64url s)).
Proof using Type.
  intros Hc Hd Hs Hl. unfold check_signed, _validate_identifier. cbn [signed_challenge_id signed_device_id signature].
  rewrite Hc, Hd. rewrite decode_encode_base64url; [|done|by eapply nonempty_len].
  unfold mbind, result_bind, ensure, reraise. by rewrite Hl.
Qed.
End Roundtrip.

(** ** Histories of calls *)

Section Histories.
Context {SK PK : Type} `{E : Ed25519 SK PK}.
Context (clock_skew_seconds : Z).
Implicit Types (v : verifier_state PK).

Inductive vcall :=
| VCreate (env : challenge_env) (d : pystr) (ttl_seconds : Z) (op : pystr)
| VVerify (r : SignedChallenge) (now : Z)
| VRegister (d : pystr) (pk : PK)
| VRevoke (d : pystr).

Inductive vevent :=
| Issued (c : Challenge)
| Accepted (r : SignedChallenge) (now : Z) (a : VerifiedAuthorization)
| Registered (d : pystr) (pk : PK)
| Revoked (d : pystr)
| Refused (e : exn).

Definition outcome {A} (f : A → vevent) (r : result A) : vevent :=
  match r with Ok a => f a | Raise e => Refused e end.

Definition run_vcall (c : vcall) (v : verifier_state PK) : verifier_state PK * vevent :=
  match c with
  | VCreate env d ttl op => let '(v', r) := create_challenge env d ttl op v in (v', outcome Issued r)
  | VVerify r now =>
    let '(v', o) := verify_response clock_skew_seconds r now v in (v', outcome (Accepted r now) o)
  | VRegister d pk => let '(v', r) := register_device d pk v in (v', outcome (λ _, Registered d pk) r)
  | VRevoke d => let '(v', r) := revoke_device d v in (v', outcome (λ _, Revoked d) r)
  end.

Definition vdrawn (c : vcall) : list pystr :=
  match c with VCreate env _ _ _ => [_encode_base64url (id_bytes env)] | _ => [] end.
Definition vspent (ev : vevent) : list pystr :=
  match ev with Accepted _ _ a => [auth_challenge_id a] | _ => [] end.

Lemma keeps_run_vcall c v : verifier_ok v → verifier_ok (run_vcall c v).1.
Proof using Type.
  intros Hv. destruct c as [env d ttl op|r now|d pk|d]; simpl.
  - pose proof (keeps_create_challenge env d ttl op v Hv) as H. unfold wp in H.
    by destruct (create_challenge _ _ _ _ _).
  - pose proof (keeps_verify clock_skew_seconds r now v Hv) as H. unfold wp in H.
    by destruct (verify_response _ _ _ _).
  - unfold register_device, lift, modify, mbind, M_bind.
    destruct (_validate_identifier d); [by apply verifier_ok_trusted|done].
  - by apply verifier_ok_trusted.
Qed.

(** Where the pending challenges come from after a call. *)
Lemma run_vcall_pending c v v' ev k ch :
  verifier_ok v → run_vcall c v = (v', ev) → (k, ch) ∈ pending v' →
  (ev = Issued ch ∧ vdrawn c = [k]) ∨ (k, ch) ∈ pending v.
Proof using Type.
  intros Hv H Hin. destruct c as [env d ttl op|r now|d pk|d]; simpl in H.
  - destruct (create_challenge _ _ _ _ v) as [v1 [c|e]] eqn:E1; simplify_eq;
      apply create_challenge_run in E1; try done.
    + destruct E1 as (-> & _ & _ & _ & _ & _ & ->). simpl in Hin.
      apply dset_elem in Hin as [[-> ->]|Hin]; [by left|].
      right. by apply list_elem_of_filter in Hin as [_ ?].
    + right. destruct E1 as [[_ ->]|[(_ & _ & ->)|(_ & -> & _)]]; [done| |];
        rewrite prune_eq in Hin by done; by apply list_elem_of_filter in Hin as [_ ?].
  - right. destruct (verify_response _ _ _ v) as [v1 [a|e]] eqn:E1; simplify_eq;
      apply verify_response_run in E1; try done.
    + destruct E1 as (c & pk & H). rewrite (acc_state _ _ _ _ _ _ _ _ H) in Hin. simpl in Hin.
      apply ddel_elem in Hin as [_ Hin]. by apply list_elem_of_filter in Hin as [_ ?].
    + destruct E1 as [_ [-> | ->]]; [done|]. rewrite prune_eq in Hin by done.
      by apply list_elem_of_filter in Hin as [_ ?].
  - right. unfold register_device, lift, modify, mbind, M_bind in H.
    destruct (_validate_identifier d); by simplify_eq.
  - right. by simplify_eq.
Qed.

Lemma run_vcall_accepted c v v' ev k :
  verifier_ok v → run_vcall c v = (v', ev) → k ∈ vspent ev →
  k ∈ dkeys (pending v) ∧ k ∉ dkeys (pending v') ∧ vdrawn c = [] ∧ vspent ev = [k].
Proof using Type.
  intros Hv H Hk. destruct c as [env d ttl op|r now|d pk|d]; simpl in H.
  - destruct (create_challenge _ _ _ _ v) as [? []]; simplify_eq; by apply not_elem_of_nil in Hk.
  - destruct (verify_response _ _ _ v) as [v1 [a|e]] eqn:E1; simplify_eq; [|by apply not_elem_of_nil in Hk].
    apply verify_response_run in E1 as (c & pk & H); [|done].
    assert (challenge_id c = signed_challenge_id r) as Hid
      by (eapply v_ids; [done|by apply dget_elem, (acc_pending _ _ _ _ _ _ _ _ H)]).
    rewrite (acc_result _ _ _ _ _ _ _ _ H) in *. apply list_elem_of_singleton in Hk. simpl in Hk. subst k.
    rewrite (acc_state _ _ _ _ _ _ _ _ H). split_and!; [|by apply dget_None, dget_ddel_eq|done|done].
    rewrite Hid. apply list_elem_of_fmap. eexists (_, c). split; [|by apply dget_elem, (acc_pending _ _ _ _ _ _ _ _ H)].
    done.
  - destruct (register_device d pk v) as [? []]; simplify_eq; by apply not_elem_of_nil in Hk.
  - simplify_eq. by apply not_elem_of_nil in Hk.
Qed.

#[global] Instance verifier_one_shot :
  OneShot run_vcall verifier_ok (λ v, dkeys (pending v)) vdrawn vspent.
Proof using Type.
  split.
  - apply keeps_run_vcall.
  - intros c v v' ev k Hv H Hk. unfold dkeys in Hk.
    apply list_elem_of_fmap in Hk as ([k' ch] & -> & Hin).
    destruct (run_vcall_pending c v v' ev k' ch Hv H Hin) as [[_ ->]|Hin']; [right; by left|left].
    apply list_elem_of_fmap. by exists (k', ch).
  - apply run_vcall_accepted.
Qed.

(** [d] was paired with [pk] in [past], and neither revoked nor paired again
    since. *)
Definition paired (past : list vevent) (d : pystr) (pk : PK) : Prop :=
  ∃ pre mid, past = pre ++ Registered d pk :: mid ∧ Revoked d ∉ mid ∧ ∀ pk', Registered d pk' ∉ mid.

(** What an accepted response proves about the events before it. *)
Definition authorized (past : list vevent) (r : SignedChallenge) (now : Z) (a : VerifiedAuthorization) : Prop :=
  ∃ c pk s b, Issued c ∈ past ∧ paired past (device_id c) pk ∧
    signed_challenge_id r = challenge_id c ∧ signed_device_id r = device_id c ∧
    issued_at c - clock_skew_seconds <= now < expires_at c ∧
    signature_bytes r = Ok s ∧ signing_bytes c = Ok b ∧ ed_verify pk s b = true ∧
    a = mkAuthorization (challenge_id c) (device_id c) (operation c) now (expires_at c).

Record vhistory_ok (past : list vevent) v : Prop := {
  vh_ok : verifier_ok v;
  vh_issued : ∀ k c, (k, c) ∈ pending v → Issued c ∈ past;
  vh_paired : ∀ d pk, dget d (trusted v) = Some pk → paired past d pk;
  vh_accepted : ∀ pre r now a post, past = pre ++ Accepted r now a :: post → authorized pre r now a
}.

Lemma paired_snoc past d pk ev :
  paired past d pk → ev ≠ Revoked d → (∀ pk', ev ≠ Registered d pk') → paired (past ++ [ev]) d pk.
Proof using Type.
  intros (pre & mid & -> & H1 & H2) Hr Hg. exists pre, (mid ++ [ev]).
  split_and!; [by rewrite <- app_assoc| |].
  - intros [?|Heq%list_elem_of_singleton]%elem_of_app; congruence.
  - intros pk' [?|Heq%list_elem_of_singleton]%elem_of_app; [by eapply H2|]. by eapply Hg.
Qed.

(** How a call changes the pairings. *)
Lemma run_vcall_trusted c v d pk :
  verifier_ok v → dget d (trusted (run_vcall c v).1) = Some pk →
  (run_vcall c v).2 = Registered d pk ∨
  (dget d (trusted v) = Some pk ∧ (run_vcall c v).2 ≠ Revoked d ∧ ∀ pk', (run_vcall c v).2 ≠ Registered d pk').
Proof using Type.
  intros Hv. destruct c as [env d' ttl op|r now|d' pk'|d']; simpl.
  - destruct (create_challenge _ _ _ _ v) as [v1 [c|e]] eqn:E1; apply create_challenge_run in E1; try done;
      simpl; intros Hd; right; (split; [|done]).
    + destruct E1 as (_ & _ & _ & _ & _ & _ & ->). by rewrite prune_eq in Hd.
    + destruct E1 as [[_ ->]|[(_ & _ & ->)|(_ & -> & _)]]; rewrite ?prune_eq in Hd by done; done.
  - destruct (verify_response _ _ _ v) as [v1 [a|e]] eqn:E1; apply verify_response_run in E1; try done;
      simpl; intros Hd; right; (split; [|done]).
    + destruct E1 as (c & pk0 & H). by rewrite (acc_state _ _ _ _ _ _ _ _ H) in Hd.
    + destruct E1 as [_ [-> | ->]]; rewrite ?prune_eq in Hd by done; done.
  - unfold register_device, lift, modify, mbind, M_bind.
    destruct (_validate_identifier d'); simpl; [|by right].
    rewrite dget_dset. case_decide; [intros [= <-]; subst; by left|]. intros ?. right. split_and!; try done.
    intros pk0 [= ? _]. congruence.
  - rewrite dget_ddel. case_decide; [done|]. intros ?. right. split_and!; try done. congruence.
Qed.

Lemma check_signature_ok pk r c :
  check_signature pk r c = Ok tt →
  ∃ s b, signature_bytes r = Ok s ∧ signing_bytes c = Ok b ∧ ed_verify pk s b = true.
Proof using Type.
  unfold check_signature, mbind, result_bind. destruct (signature_bytes r) as [s|]; [|unfold reraise; by case_match].
  destruct (signing_bytes c) as [b|]; [|unfold reraise; by case_match].
  unfold ensure. destruct (ed_verify pk s b) eqn:Ev; [|done]. intros _. by exists s, b.
Qed.

Lemma vhistory_ok_step past v c :
  vhistory_ok past v → vhistory_ok (past ++ [(run_vcall c v).2]) (run_vcall c v).1.
Proof using Type.
  intros [Hv Hi Hp Ha]. split.
  - by apply keeps_run_vcall.
  - intros k ch Hin. destruct (run_vcall c v) as [v' ev] eqn:E1. simpl in *. apply elem_of_app.
    destruct (run_vcall_pending c v v' ev k ch Hv E1 Hin) as [[-> _]|?]; [right; by left|left; eauto].
  - intros d pk Hd. destruct (run_vcall_trusted c v d pk Hv Hd) as [->|(Hd' & H1 & H2)].
    + exists past, []. split_and!; [done|by apply not_elem_of_nil|by intros ? ?%not_elem_of_nil].
    + apply paired_snoc; auto.
  - intros pre r now a post Heq. destruct post as [|x post _] using rev_ind.
    + apply app_inj_tail in Heq as [<- Hev]. destruct c as [env d ttl op|r' now'|d pk|d]; simpl in Hev.
      * by destruct (create_challenge _ _ _ _ v) as [? []].
      * destruct (verify_response _ _ _ v) as [v1 [a'|e]] eqn:E1; simpl in Hev; simplify_eq.
        apply verify_response_run in E1 as (c & pk & H); [|done].
        destruct (check_signature_ok _ _ _ (acc_signature _ _ _ _ _ _ _ _ H)) as (s & b & Hs & Hb & Hver).
        pose proof (dget_elem _ _ _ (acc_pending _ _ _ _ _ _ _ _ H)) as Hin.
        exists c, pk, s, b. split_and!; try done; try apply H.
        -- by eapply Hi.
        -- by apply Hp, H.
        -- symmetry. by eapply v_ids.
      * by destruct (register_device d pk v) as [? []].
      * done.
    + rewrite app_comm_cons, app_assoc in Heq. apply app_inj_tail in Heq as [-> _]. by eapply Ha.
Qed.

Lemma vhistory_is_ok calls :
  let h := history_from run_vcall (mkVerifier [] [] []) calls in vhistory_ok h.1 h.2.
Proof using Type.
  apply (history_invariant run_vcall vhistory_ok); [|apply vhistory_ok_step]. split; simpl.
  - apply verifier_ok_empty.
  - by intros ? ? ?%not_elem_of_nil.
  - done.
  - intros pre ? ? ? ? H0. by destruct pre.
Qed.
End Histories.

(** ** Properties *)

Section Properties.
Context {SK PK : Type} `{E : Ed25519 SK PK}.
Context (clock_skew_seconds : Z).

(** The state after a history of calls, and its events. *)
Definition verifier_history (calls : list (vcall (PK := PK))) : list vevent * verifier_state PK :=
  history_from (run_vcall clock_skew_seconds) (mkVerifier [] [] []) calls.

(** C7: In any history of calls whose drawn challenge identifiers do not
    repeat, each challenge is accepted at most once. *)
Theorem challenge_one_time calls (Hfresh : NoDup (calls ≫= vdrawn)) :
  NoDup ((verifier_history calls).1 ≫= vspent).
Proof.
  by apply (spent_once (run_vcall clock_skew_seconds) verifier_ok (λ v, dkeys (pending v)) vdrawn vspent);
    [apply verifier_ok_empty|..].
Qed.

(** C6: A response is accepted only for a challenge this verifier issued
    earlier, to the device it names, inside its time window, under a signature
    that verifies with the key the device is paired with at that moment: paired
    by the latest registration and not revoked since. *)
Theorem acceptance_authorized calls pre r now a post
    (Hev : (verifier_history calls).1 = pre ++ Accepted r now a :: post) :
  authorized clock_skew_seconds pre r now a.
Proof. by eapply vh_accepted; [apply vhistory_is_ok|]. Qed.

(** After any history there are at most 256 pending challenges, at most
    eight of one device, and at most 4096 remembered identifiers; each pending
    challenge is stored under its own identifier. *)
Theorem verifier_bounds calls : verifier_ok (verifier_history calls).2.
Proof. apply vhistory_is_ok. Qed.

(** Verification always ends in an authorization or in an exception of
    the [TrustedUnlockError] family (never a [KeyError] from the tables), and
    a refused response leaves the pairings alone and at most forgets what had
    expired. *)
Theorem verify_response_total r now v v' out (Hv : verifier_ok v)
    (Hrun : verify_response clock_skew_seconds r now v = (v', out)) :
  match out with
  | Ok a => ∃ c pk, accepted clock_skew_seconds r now v v' a c pk
  | Raise e => is_a e TrustedUnlockError = true ∧
      (v' = v ∨ v' = mkVerifier (trusted v) (live_pending now v) (live_consumed now v))
  end.
Proof.
  apply verify_response_run in Hrun; [|done]. destruct out; [done|]. by rewrite prune_eq in Hrun.
Qed.

(** A paired device can always log in: the challenge it is issued can be
    signed with its key and the response is accepted at any time inside the
    window. *)
Theorem challenge_roundtrip {HE : Ed25519Laws E} env d ttl op sk v v' c now
    (Hv : verifier_ok v) (Henv : env_ok env) (Htime : 0 <= env_now env < 2 ^ 62)
    (Hkey : dget d (trusted v) = Some (ed_public sk))
    (Hcreate : create_challenge env d ttl op v = (v', Ok c))
    (Hunused : dmem (challenge_id c) (consumed v) = false)
    (Hop : is_identifier op = true)
    (Hnow : issued_at c - clock_skew_seconds <= now < expires_at c) :
  ∃ r, create_signed_response c sk = Ok r ∧
    (verify_response clock_skew_seconds r now v').2 =
      Ok (mkAuthorization (challenge_id c) d op now (expires_at c)).
Proof using Type.
  pose proof (keeps_create_challenge env d ttl op v Hv) as Hv'. unfold wp in Hv'. rewrite Hcreate in Hv'.
  apply create_challenge_run in Hcreate as (-> & Hd & Httl & _ & _ & _ & ->); [|done]. simpl in Hv'.
  destruct (signing_bytes_ok env d ttl op Henv Hd Hop Htime ltac:(lia)) as [b Hb].
  set (c := new_challenge env d ttl op) in *. set (sg := ed_sign sk b).
  exists (mkSigned (challenge_id c) (device_id c) (_encode_base64url sg)).
  assert (_decode_base64url (_encode_base64url sg) = Ok sg) as Hsg.
  { apply decode_encode_base64url; [apply ed_sign_octets|]. eapply nonempty_len; [apply ed_sign_len|done]. }
  split.
  - unfold create_signed_response. rewrite Hb. unfold mbind, result_bind. fold sg.
    apply check_signed_ok; [|done|apply ed_sign_octets|apply ed_sign_len].
    destruct Henv as (Hl & Ho & _). apply encode_identifier; [done| |lia].
    by eapply nonempty_len.
  - apply (verify_response_complete _ _ _ _ c (ed_public sk)); rewrite prune_eq in * by done; try done.
    + apply dget_dset_eq.
    + by apply dmem_false, dget_filter_None, dmem_false.
    + unfold check_signature, signature_bytes. cbn [signature]. rewrite Hsg, Hb.
      cbn [mbind result_bind]. unfold sg. by rewrite ed_verify_sign.
Qed.
End Properties.

(** ** A paired device, over the model of the signature laws *)

Definition sample_challenge_env (i t : Z) : challenge_env :=
  {| env_now := t; id_bytes := replicate 16 i; nonce_bytes := replicate 32 7 |}.

Lemma sample_challenge_env_ok i t : is_octet i → env_ok (sample_challenge_env i t).
Proof.
  intros Hi. split_and!; [done|by apply Forall_replicate|done|by apply Forall_replicate].
Qed.

Definition paired_state : verifier_state bool := mkVerifier [(u "esp32", true)] [] [].
Definition sample_challenge : Challenge := new_challenge (sample_challenge_env 1 1000) (u "esp32") 30 (u "session").
Definition sample_response : SignedChallenge :=
  match create_signed_response sample_challenge true with
  | Ok r => r
  | Raise _ => mkSigned [] [] []
  end.
Definition sample_calls : list (vcall (PK := bool)) :=
  [VRegister (u "esp32") true; VCreate (sample_challenge_env 1 1000) (u "esp32") 30 (u "session");
   VCreate (sample_challenge_env 2 1001) (u "esp32") 30 (u "session");
   VVerify sample_response 1005; VVerify sample_response 1006].
Definition sample_authorization : VerifiedAuthorization :=
  mkAuthorization (challenge_id sample_challenge) (u "esp32") (u "session") 1005 1030.

Lemma challenge_one_time_witness :
  NoDup (sample_calls ≫= vdrawn) ∧
  NoDup ((verifier_history 5 sample_calls).1 ≫= vspent).
Proof.
  split; [apply (bool_decide_unpack _); reflexivity|].
  apply (challenge_one_time 5 sample_calls). apply (bool_decide_unpack _). reflexivity.
Defined.

Lemma acceptance_authorized_witness :
  authorized 5 [Registered (u "esp32") true; Issued sample_challenge;
     Issued (new_challenge (sample_challenge_env 2 1001) (u "esp32") 30 (u "session"))]
    sample_response 1005 sample_authorization.
Proof.
  apply (acceptance_authorized 5 sample_calls _ _ _ _ [Refused ReplayDetectedError]).
  vm_compute. reflexivity.
Defined.

Lemma verify_response_total_witness :
  verifier_ok paired_state ∧
  is_a UnknownChallengeError TrustedUnlockError = true ∧
  (paired_state = paired_state ∨
   paired_state = mkVerifier (trusted paired_state) (live_pending 5 paired_state) (live_consumed 5 paired_state)).
Proof.
  split; [apply verifier_ok_empty|].
  apply (verify_response_total 5 sample_response 5 paired_state paired_state (Raise UnknownChallengeError));
    [apply verifier_ok_empty|]. vm_compute. reflexivity.
Defined.

Lemma challenge_roundtrip_witness :
  ∃ r, create_signed_response sample_challenge true = Ok r ∧
    (verify_response 5 r 1029
       (create_challenge (sample_challenge_env 1 1000) (u "esp32") 30 (u "session") paired_state).1).2 =
    Ok (mkAuthorization (challenge_id sample_challenge) (u "esp32") (u "session") 1029 1030).
Proof.
  apply (challenge_roundtrip 5 (sample_challenge_env 1 1000) (u "esp32") 30 (u "session") true paired_state _
    sample_challenge 1029); try reflexivity.
  - apply verifier_ok_empty.
  - by apply sample_challenge_env_ok.
  - split; [discriminate|reflexivity].
  - split; [discriminate|reflexivity].
Defined.
