(* ===== verification/PyText.v ===== *)
(** * Text functions of the Python library

    What the natural-language parsers of the program use of [str] and
    [unicodedata]: case mapping, compatibility decomposition, decimal digits,
    [str.split], [str.startswith] and [int].  The tables of the Unicode
    database are the class [UnicodeText]; [UnicodeTextLaws] states the part of
    their documented behaviour the proofs use. *)
From S2P Require Import Prelude Dict.

Class UnicodeText := {
  lower_text : pystr → pystr;
  casefold_text : pystr → pystr;
  (** [unicodedata.normalize("NFKD", s)] *)
  nfkd : pystr → pystr;
  (** [unicodedata.combining(c)], as a truth value *)
  combining : Z → bool;
  (** two characters one of which is not ASCII match under [re.IGNORECASE] *)
  case_alike : Z → Z → bool;
  (** the decimal value of a non-ASCII digit (category Nd) *)
  decimal : Z → option Z
}.

(** [s.lower()] on ASCII *)
Definition lower_ascii (c : Z) : Z := if ascii_upper c then c + 32 else c.
Definition is_ascii (c : Z) : bool := (0 <=? c) && (c <? 128).

(** The decimal value of a digit, the characters of [\d]. *)
Definition digit_value `{UnicodeText} (c : Z) : option Z :=
  if is_ascii c then (if ascii_digit c then Some (c - 48) else None) else decimal c.
Definition is_decimal `{UnicodeText} (c : Z) : bool :=
  match digit_value c with Some _ => true | None => false end.

Class UnicodeTextLaws (T : UnicodeText) : Prop := {
  lower_text_ascii s : forallb is_ascii s = true → lower_text s = lower_ascii <$> s;
  casefold_text_ascii s : forallb is_ascii s = true → casefold_text s = lower_ascii <$> s;
  (** lower-casing a text does not change its case folding *)
  casefold_lower s : casefold_text (lower_text s) = casefold_text s;
  nfkd_ascii s : forallb is_ascii s = true → nfkd s = s;
  combining_ascii c : is_ascii c = true → combining c = false;
  decimal_range c d : decimal c = Some d → 0 <= d <= 9;
  decimal_visible c : is_decimal c = true → is_space c = false;
  (** only letters have a case, and no letter is white space *)
  case_alike_letter a c : is_ascii a = true → case_alike a c = true →
    ascii_alpha a = true ∧ is_space c = false;
  (** a decomposed text has no more decimal digits than its source has octets
      of UTF-8 *)
  nfkd_decimals s b : utf8_encode s = Some b →
    len (filter (λ c, is_decimal c = true) (nfkd (lower_text s))) <= len b
}.

(** The text functions of a database that knows ASCII only. *)
Definition ascii_text : UnicodeText := {|
  lower_text s := lower_ascii <$> s;
  casefold_text s := lower_ascii <$> s;
  nfkd s := s;
  combining _ := false;
  case_alike _ _ := false;
  decimal _ := None
|}.

Lemma utf8_encode_length s b : utf8_encode s = Some b → len s <= len b.
Proof.
  revert b. induction s as [|c s IH]; intros b; simpl.
  - intros [= <-]. done.
  - destruct (utf8_encode_char c) as [bc|] eqn:E; [|done]. destruct (utf8_encode s) as [bs|]; [|done].
    intros [= <-]. specialize (IH _ eq_refl). rewrite len_app, len_cons.
    assert (1 <= len bc); [|lia].
    unfold utf8_encode_char in E. repeat (case_match; simplify_eq); autorewrite with len; lia.
Qed.

#[export] Instance ascii_text_laws : UnicodeTextLaws ascii_text.
Proof.
  split; try done.
  { intros s. cbn [casefold_text lower_text ascii_text]. rewrite <- list_fmap_compose. apply list_fmap_ext.
    intros i c _. unfold compose, lower_ascii, ascii_upper. repeat case_match; lia. }
  { intros c. unfold is_decimal, digit_value, is_space. cbn [decimal ascii_text].
    destruct (is_ascii c); [|done]. destruct (ascii_digit c) eqn:E; [|done]. unfold ascii_digit in E. lia. }
  intros s b Hb. apply utf8_encode_length in Hb.
  etrans; [apply len_filter_le|]. cbn [nfkd lower_text ascii_text]. by rewrite len_fmap.
Qed.

(** ** Words *)

(** [s.split()]: the maximal runs of characters that are not white space. *)
Fixpoint split_words (s : pystr) : list pystr :=
  match s with
  | [] => []
  | c :: s' =>
    if is_space c then split_words s'
    else match s' with
         | d :: _ =>
           if is_space d then [c] :: split_words s'
           else match split_words s' with w :: ws => (c :: w) :: ws | [] => [[c]] end
         | [] => [[c]]
         end
  end.

(** [" ".join(words)] *)
Fixpoint join_words (ws : list pystr) : pystr :=
  match ws with
  | [] => []
  | [w] => w
  | w :: ws' => w ++ [32] ++ join_words ws'
  end.

(** [s.startswith(p)] *)
Definition startswith (p s : pystr) : bool := bool_decide (take (length p) s = p).

(** [s.partition(c)]: the text before the first [c], whether there is one, and
    the text after it. *)
Fixpoint partition_at (c : Z) (s : pystr) : pystr * bool * pystr :=
  match s with
  | [] => ([], false, [])
  | d :: s' =>
    if d =? c then ([], true, s')
    else let '(a, found, b) := partition_at c s' in (d :: a, found, b)
  end.

(** [s.rpartition(c)] *)
Definition rpartition_at (c : Z) (s : pystr) : pystr * bool * pystr :=
  let '(b, found, a) := partition_at c (reverse s) in
  if found : bool then (reverse a, true, reverse b) else ([], false, s).

(** The text up to the first character of a set, and the rest. *)
Fixpoint span_until (stop : Z → bool) (s : pystr) : pystr * pystr :=
  match s with
  | [] => ([], [])
  | c :: s' => if stop c then ([], s) else let '(a, b) := span_until stop s' in (c :: a, b)
  end.

(** [s.split(c)] for one character. *)
Fixpoint split_on (c : Z) (s : pystr) : list pystr :=
  match s with
  | [] => [[]]
  | d :: s' =>
    if d =? c then [] :: split_on c s'
    else match split_on c s' with w :: ws => (d :: w) :: ws | [] => [[d]] end
  end.

Lemma partition_at_absent c s : existsb (Z.eqb c) s = false → partition_at c s = (s, false, []).
Proof.
  induction s as [|d s IH]; [done|]. cbn [existsb partition_at]. rewrite Z.eqb_sym.
  intros [-> Hs]%orb_false_iff. by rewrite IH.
Qed.

Lemma rpartition_at_absent c s : existsb (Z.eqb c) s = false → rpartition_at c s = ([], false, s).
Proof.
  intros Hs. unfold rpartition_at. rewrite partition_at_absent; [done|].
  apply existsb_false_Forall, Forall_reverse. by apply existsb_false_Forall.
Qed.

Lemma span_until_app stop a b :
  forallb (λ c, negb (stop c)) a = true → match b with c :: _ => stop c = true | [] => True end →
  span_until stop (a ++ b) = (a, b).
Proof.
  intros Ha Hb. induction a as [|c a IH]; cbn in *.
  - destruct b as [|c b]; [done|]. cbn. by rewrite Hb.
  - apply andb_true_iff in Ha as [Hc Ha]. apply negb_true_iff in Hc. by rewrite Hc, IH.
Qed.

Lemma partition_at_found c s a b : partition_at c s = (a, true, b) → s = a ++ c :: b.
Proof.
  revert a b. induction s as [|d s IH]; intros a b; cbn [partition_at]; [done|].
  destruct (d =? c) eqn:E; [intros [= <- <-]; apply Z.eqb_eq in E as ->; done|].
  destruct (partition_at c s) as [[a' f] b']. intros [= <- -> <-]. cbn. f_equal. by apply IH.
Qed.

Lemma partition_at_missing c s a b : partition_at c s = (a, false, b) → existsb (Z.eqb c) s = false.
Proof.
  revert a b. induction s as [|d s IH]; intros a b; cbn [partition_at existsb]; [done|].
  rewrite (Z.eqb_sym c d). destruct (d =? c); [done|]. destruct (partition_at c s) as [[a' f] b'].
  intros [= <- -> <-]. by eapply IH.
Qed.

Lemma rpartition_at_missing c s a b : rpartition_at c s = (a, false, b) → existsb (Z.eqb c) s = false.
Proof.
  unfold rpartition_at. destruct (partition_at c (reverse s)) as [[x []] y] eqn:E; [done|]. intros _.
  apply partition_at_missing in E. apply existsb_false_Forall in E. apply existsb_false_Forall.
  rewrite <- (reverse_involutive s). by apply Forall_reverse.
Qed.

Lemma span_until_spec stop s a b :
  span_until stop s = (a, b) →
  s = a ++ b ∧ forallb (λ c, negb (stop c)) a = true ∧ match b with c :: _ => stop c = true | [] => True end.
Proof.
  revert a b. induction s as [|c s IH]; intros a b; cbn [span_until]; [by intros [= <- <-]|].
  destruct (stop c) eqn:E; [by intros [= <- <-]|]. destruct (span_until stop s) as [a' b'].
  intros [= <- <-]. destruct (IH a' b' eq_refl) as (-> & Ha & Hb). cbn. by rewrite E.
Qed.

(** [s.isspace()] *)
Definition all_space (s : pystr) : bool := nonempty s && forallb is_space s.

(** ** [int(s)] *)

(** Decimal digits, single underscores between them. *)
Fixpoint read_digits `{UnicodeText} (acc : Z) (s : pystr) : option Z :=
  match s with
  | [] => Some acc
  | c :: s' =>
    match digit_value c with
    | Some d => read_digits (10 * acc + d) s'
    | None =>
      if c =? 95 then
        match s' with
        | c' :: s'' =>
          match digit_value c' with Some d => read_digits (10 * acc + d) s'' | None => None end
        | [] => None
        end
      else None
    end
  end.

Definition read_number `{UnicodeText} (s : pystr) : option Z :=
  match s with
  | c :: s' => match digit_value c with Some d => read_digits d s' | None => None end
  | [] => None
  end.

Definition count_digits `{UnicodeText} (s : pystr) : Z := len (filter (λ c, is_decimal c = true) s).

(** The conversion refuses more than 4300 digits
    ([sys.get_int_max_str_digits]). *)
Definition int_of_text `{UnicodeText} (s : pystr) : result Z :=
  let s := strip s in
  if 4300 <? count_digits s then Raise ValueError
  else match s with
  | 45 :: s' => match read_number s' with Some z => Ok (- z) | None => Raise ValueError end
  | 43 :: s' => match read_number s' with Some z => Ok z | None => Raise ValueError end
  | _ => match read_number s with Some z => Ok z | None => Raise ValueError end
  end.

Section Facts.
Context `{T : UnicodeText} {HT : UnicodeTextLaws T}.

Lemma digit_value_range c d : digit_value c = Some d → 0 <= d <= 9.
Proof using HT.
  unfold digit_value. destruct (is_ascii c); [|apply decimal_range].
  destruct (ascii_digit c) eqn:E; [|done]. unfold ascii_digit in E. intros [= <-]. lia.
Qed.

Lemma is_decimal_value c : is_decimal c = true → ∃ d, digit_value c = Some d ∧ 0 <= d <= 9.
Proof using HT.
  unfold is_decimal. destruct (digit_value c) as [d|] eqn:E; [|done].
  intros _. exists d. split; [done|]. by eapply digit_value_range.
Qed.

(** A run of [n] digits reads as a number below [10^n]. *)
Lemma read_digits_run acc s :
  0 <= acc → Forall (λ c, is_decimal c = true) s →
  ∃ z, read_digits acc s = Some z ∧ 0 <= z < (acc + 1) * 10 ^ len s.
Proof using HT.
  revert acc. induction s as [|c s IH]; intros acc Ha Hs.
  - exists acc. split; [done|]. change (len []) with 0. rewrite Z.pow_0_r. lia.
  - apply Forall_cons in Hs as [(d & Hd & Hr)%is_decimal_value Hs].
    destruct (IH (10 * acc + d)) as (z & Hz & Hb); [lia|done|].
    exists z. cbn [read_digits]. rewrite Hd. split; [done|].
    rewrite len_cons, Z.pow_add_r by (pose proof (len_nonneg s); lia).
    pose proof (len_nonneg s). assert (0 < 10 ^ len s) by (apply Z.pow_pos_nonneg; lia). nia.
Qed.

Lemma visible_lstrip s : Forall (λ c, is_space c = false) s → lstrip s = s.
Proof using Type. intros [|c s' Hc _]; [done|]. cbn. by rewrite Hc. Qed.

Lemma visible_strip s : Forall (λ c, is_space c = false) s → strip s = s.
Proof using Type.
  intros Hs. unfold strip. rewrite (visible_lstrip s) by done.
  rewrite visible_lstrip, reverse_involutive; [done|]. by apply Forall_reverse.
Qed.

Lemma read_number_run s :
  s ≠ [] → Forall (λ c, is_decimal c = true) s → ∃ z, read_number s = Some z ∧ 0 <= z < 10 ^ len s.
Proof using HT.
  intros Hne Hs. destruct s as [|c s]; [done|].
  apply Forall_cons in Hs as [(d & Hd & Hr)%is_decimal_value Hs].
  destruct (read_digits_run d s) as (z & Hz & Hb); [lia|done|].
  exists z. cbn [read_number]. rewrite Hd. split; [done|].
  rewrite len_cons, Z.pow_add_r by (pose proof (len_nonneg s); lia).
  pose proof (len_nonneg s). assert (0 < 10 ^ len s) by (apply Z.pow_pos_nonneg; lia). nia.
Qed.

(** [int] of a run of at most 4300 digits. *)
Lemma int_of_digits s :
  s ≠ [] → Forall (λ c, is_decimal c = true) s → count_digits s <= 4300 →
  ∃ z, int_of_text s = Ok z ∧ 0 <= z < 10 ^ len s.
Proof using HT.
  intros Hne Hs Hc. destruct (read_number_run s Hne Hs) as (z & Hz & Hb). exists z. split; [|done].
  unfold int_of_text. rewrite visible_strip; [|by eapply Forall_impl; [done|apply decimal_visible]].
  rewrite (proj2 (Z.ltb_ge _ _)) by done. destruct s as [|c s]; [done|]. rewrite Hz.
  apply Forall_cons in Hs as [Hd _]. repeat (case_match; try done).
Qed.
End Facts.

Lemma utf8_encode_concat a b : utf8_encode (a ++ b) =
  match utf8_encode a, utf8_encode b with Some x, Some y => Some (x ++ y) | _, _ => None end.
Proof.
  induction a as [|c a IH]; simpl; [by destruct (utf8_encode b)|]. rewrite IH.
  destruct (utf8_encode_char c), (utf8_encode a), (utf8_encode b); try done. by rewrite app_assoc.
Qed.

(** A piece of a text takes no more octets than the text. *)
Lemma utf8_encode_piece x s y b : utf8_encode (x ++ s ++ y) = Some b →
  ∃ b', utf8_encode s = Some b' ∧ len b' <= len b.
Proof.
  rewrite !utf8_encode_concat. destruct (utf8_encode x) as [bx|], (utf8_encode s) as [bs|], (utf8_encode y) as [by_|]; try done.
  intros [= <-]. exists bs. split; [done|]. rewrite !len_app. pose proof (len_nonneg bx). pose proof (len_nonneg by_). lia.
Qed.

Lemma utf8_char_pos c b : utf8_encode_char c = Some b → 1 <= len b.
Proof.
  intros E. assert (utf8_encode [c] = Some b) as Hb by (simpl; by rewrite E, app_nil_r).
  apply utf8_encode_length in Hb. by rewrite len_cons, len_nil in Hb.
Qed.

(** Nor do its words, a space apart; white space at the front is saved. *)
Definition leading_space (s : pystr) : Z := match s with d :: _ => if is_space d then 1 else 0 | [] => 0 end.

Lemma utf8_encode_words_saved s b : utf8_encode s = Some b →
  ∃ b', utf8_encode (join_words (split_words s)) = Some b' ∧ len b' + leading_space s <= len b.
Proof.
  revert b. induction s as [|c s IH]; intros b Hb; [exists b; split; [done|cbn; lia]|].
  simpl in Hb. destruct (utf8_encode_char c) as [bc|] eqn:Ec; [|done].
  destruct (utf8_encode s) as [bs|] eqn:Es; [|done]. injection Hb as <-.
  destruct (IH _ eq_refl) as (b' & Hb' & Hle). pose proof (utf8_char_pos _ _ Ec) as Hpos.
  rewrite len_app. cbn [split_words leading_space].
  assert (0 <= leading_space s) by (unfold leading_space; repeat case_match; lia).
  destruct (is_space c); [exists b'; split; [done|lia]|].
  assert (∀ r, utf8_encode (c :: r) = match utf8_encode r with Some x => Some (bc ++ x) | None => None end) as Hcons
    by (intros r; simpl; by rewrite Ec).
  assert (∃ b', utf8_encode [c] = Some b' ∧ len b' + 0 <= len bc + len bs) as Hone.
  { exists bc. rewrite Hcons. cbn. rewrite app_nil_r. split; [done|]. pose proof (len_nonneg bs). lia. }
  destruct s as [|d s]; [done|]. cbn [leading_space] in Hle.
  destruct (is_space d), (split_words (d :: s)) as [|w ws]; try done.
  - change (join_words ([c] :: w :: ws)) with (c :: 32 :: join_words (w :: ws)). rewrite Hcons.
    change (utf8_encode (32 :: join_words (w :: ws))) with
      (match utf8_encode (join_words (w :: ws)) with Some x => Some (32 :: x) | None => None end).
    rewrite Hb'. eexists. split; [done|]. rewrite len_app, len_cons. lia.
  - assert (join_words ((c :: w) :: ws) = c :: join_words (w :: ws)) as -> by by destruct ws.
    exists (bc ++ b'). rewrite Hcons, Hb'. split; [done|rewrite len_app; lia].
Qed.

Lemma utf8_encode_words s b : utf8_encode s = Some b →
  ∃ b', utf8_encode (join_words (split_words s)) = Some b' ∧ len b' <= len b.
Proof.
  intros (b' & Hb' & Hle)%utf8_encode_words_saved. exists b'. split; [done|].
  unfold leading_space in Hle. repeat case_match; lia.
Qed.

Example words_example : join_words (split_words (u "  pon   la  luz ")) = u "pon la luz".
Proof. by_compute. Qed.

Example int_example (T := ascii_text) :
  int_of_text (u " 1_20 ") = Ok 120 ∧ int_of_text (u "-7") = Ok (-7)
  ∧ int_of_text (u "1__2") = Raise ValueError ∧ int_of_text [] = Raise ValueError.
Proof. by_compute. Qed.
