(* ===== verification/Regex.v ===== *)
(** * Regular expressions: the part of [re] the program uses

    Patterns stay the strings of the source: [compile] reads a pattern text
    and [run] is the backtracking search, as the list of the ways to match in
    the order [re] tries them.  [Matches] is what a pattern means; [run_spec]
    shows that the search finds exactly the matches.  The second half is what
    the callers use: what a group of a match can hold. *)
From S2P Require Import Prelude Dict PyText.

(** ** Patterns *)

Inductive item :=
| One (c : Z)
| Range (a b : Z)
| Space
| Decimal.

Inductive atom :=
| Dot
| Lit (c : Z)
| Set_ (negated : bool) (items : list item).

Inductive regex :=
| Empty
| Chr (a : atom)
| Seq (r s : regex)
| Alt (r s : regex)
| Rep (greedy : bool) (lo : nat) (hi : option nat) (a : atom)
| Group (n : nat) (r : regex)
| Bos
| Eos.

(** ** Reading a pattern *)

(** An escape stands for a class or for the character itself; the other
    letters and digits after a backslash are not used by the program. *)
Definition escape (c : Z) : option atom :=
  if c =? 115 then Some (Set_ false [Space])
  else if c =? 83 then Some (Set_ true [Space])
  else if c =? 100 then Some (Set_ false [Decimal])
  else if ascii_alnum c then None
  else Some (Lit c).

(** The items of a class, up to the bracket that closes it. *)
Fixpoint read_class (s : pystr) : option (list item * pystr) :=
  match s with
  | 93 :: s' => Some ([], s')
  | 92 :: 115 :: s' => '(l, r) ← read_class s'; Some (Space :: l, r)
  | 92 :: 100 :: s' => '(l, r) ← read_class s'; Some (Decimal :: l, r)
  | 92 :: _ | 91 :: _ => None
  | a :: ((45 :: ((b :: s') as s2)) as s1) =>
    if b =? 93 then '(l, r) ← read_class s1; Some (One a :: l, r)
    else if (b =? 92) || (b <? a) then None
    else '(l, r) ← read_class s'; Some (Range a b :: l, r)
  | a :: s' => '(l, r) ← read_class s'; Some (One a :: l, r)
  | [] => None
  end.

Fixpoint read_nat (acc : nat) (s : pystr) : nat * pystr :=
  match s with
  | c :: s' => if ascii_digit c then read_nat (10 * acc + Z.to_nat (c - 48)) s' else (acc, s)
  | [] => (acc, [])
  end.

(** The bounds of a quantifier. *)
Definition read_bounds (s : pystr) : option ((nat * option nat) * pystr) :=
  match s with
  | 63 :: s' => Some ((0%nat, Some 1%nat), s')
  | 42 :: s' => Some ((0%nat, None), s')
  | 43 :: s' => Some ((1%nat, None), s')
  | 123 :: s' =>
    let '(lo, r) := read_nat 0 s' in
    match r with
    | 44 :: r' => let '(hi, r'') := read_nat 0 r' in
                  match r'' with 125 :: k => Some ((lo, Some hi), k) | _ => None end
    | 125 :: k => Some ((lo, Some lo), k)
    | _ => None
    end
  | _ => None
  end.

Definition quantifier_char (c : Z) : bool := (c =? 63) || (c =? 42) || (c =? 43) || (c =? 123).
Definition starts_quantifier (s : pystr) : bool :=
  match s with c :: _ => quantifier_char c | [] => false end.

(** The quantifier after a single character and after a group; the program
    quantifies a group with [?] only. *)
Definition quantify_atom (a : atom) (s : pystr) : option (regex * pystr) :=
  if starts_quantifier s then
    '(b, k) ← read_bounds s;
    let '(greedy, k) := match k with
                        | c :: k' => if c =? 63 then (false, k') else (true, k)
                        | [] => (true, k)
                        end in
    if starts_quantifier k then None else Some (Rep greedy b.1 b.2 a, k)
  else Some (Chr a, s).

Definition quantify_group (r : regex) (s : pystr) : option (regex * pystr) :=
  match s with
  | c :: k =>
    if c =? 63 then (if starts_quantifier k then None else Some (Alt r Empty, k))
    else if quantifier_char c then None else Some (r, s)
  | [] => Some (r, s)
  end.

Fixpoint sequence (l : list regex) : regex :=
  match l with
  | [] => Empty
  | [r] => r
  | r :: l' => Seq r (sequence l')
  end.

Fixpoint alternatives (r : regex) (l : list regex) : regex :=
  match l with
  | [] => r
  | r' :: l' => Alt r (alternatives r' l')
  end.

(** Alternatives separated by bars, up to the end of the text or a closing
    parenthesis.  [done] and [here] hold, last first, the alternatives read and
    the items of the present one; [n] numbers the next group. *)
Fixpoint read (fuel n : nat) (done here : list regex) (s : pystr) : option (regex * nat * pystr) :=
  let close := match reverse (sequence (reverse here) :: done) with
               | r :: l => alternatives r l
               | [] => Empty
               end in
  match fuel with
  | O => None
  | S fuel =>
    let atom a k := '(q, k) ← quantify_atom a k; read fuel n done (q :: here) k in
    let parenthesis n k wrap :=
      '(r, n, k) ← read fuel n [] [] k;
      match k with
      | c :: k => if c =? 41 then '(q, k) ← quantify_group (wrap r) k; read fuel n done (q :: here) k else None
      | [] => None
      end in
    match s with
    | [] => Some (close, n, s)
    | c :: k =>
      if c =? 41 then Some (close, n, s)
      else if c =? 124 then read fuel n (sequence (reverse here) :: done) [] k
      else if c =? 40 then
        if startswith [63; 58] k then parenthesis n (drop 2 k) id
        else if startswith [63] k then None
        else parenthesis (S n) k (Group n)
      else if c =? 94 then read fuel n done (Bos :: here) k
      else if c =? 36 then read fuel n done (Eos :: here) k
      else if c =? 46 then atom Dot k
      else if c =? 91 then
        let negated := startswith [94] k in
        '(l, k) ← read_class (if negated then drop 1 k else k); atom (Set_ negated l) k
      else if c =? 92 then
        match k with
        | c' :: k => a ← escape c'; atom a k
        | [] => None
        end
      else if quantifier_char c then None
      else atom (Lit c) k
    end
  end.

(** [re.compile(pattern)]: the fuel is one step per character. *)
Definition compile (pattern : pystr) : option regex :=
  match read (S (length pattern)) 1 [] [] pattern with
  | Some (r, _, []) => Some r
  | _ => None
  end.

(** ** Matching *)

(** A point of the search: the index in the text, the text that is left and
    the groups closed so far, last first. *)
Record point := At { index : nat; ahead : pystr; groups : list (nat * pystr) }.

Definition item_match `{UnicodeText} (ignore_case : bool) (i : item) (c : Z) : bool :=
  let same a := if ignore_case
                then (lower_ascii a =? lower_ascii c) || (negb (is_ascii a && is_ascii c) && case_alike a c)
                else a =? c in
  match i with
  | One a => same a
  | Range a b => if ignore_case then existsb same (seqZ a (b - a + 1)) else (a <=? c) && (c <=? b)
  | Space => is_space c
  | Decimal => is_decimal c
  end.

Definition atom_match `{UnicodeText} (ignore_case : bool) (a : atom) (c : Z) : bool :=
  match a with
  | Dot => negb (c =? 10)
  | Lit a => item_match ignore_case (One a) c
  | Set_ negated l => xorb negated (existsb (λ i, item_match ignore_case i c) l)
  end.

Definition at_most (hi : option nat) : bool := match hi with Some O => false | _ => true end.

(** The places where a run of characters can end: the longest first when the
    quantifier is greedy. *)
Fixpoint rep_ends (ok : Z → bool) (greedy : bool) (lo : nat) (hi : option nat) (i : nat) (s : pystr)
  : list (nat * pystr) :=
  let stop := match lo with O => [(i, s)] | S _ => [] end in
  let more := match s with
              | c :: s' => if at_most hi && ok c then rep_ends ok greedy (pred lo) (pred <$> hi) (S i) s' else []
              | [] => []
              end in
  if greedy then more ++ stop else stop ++ more.

Section Matching.
Context `{UnicodeText} (ignore_case : bool).

Fixpoint run (r : regex) (p : point) : list point :=
  match r with
  | Empty => [p]
  | Chr a => match ahead p with
             | c :: s => if atom_match ignore_case a c then [At (S (index p)) s (groups p)] else []
             | [] => []
             end
  | Seq r s => run r p ≫= run s
  | Alt r s => run r p ++ run s p
  | Rep greedy lo hi a =>
    (λ e : nat * pystr, At e.1 e.2 (groups p)) <$>
      rep_ends (atom_match ignore_case a) greedy lo hi (index p) (ahead p)
  | Group n r =>
    (λ q, At (index q) (ahead q) ((n, take (index q - index p) (ahead p)) :: groups q)) <$> run r p
  | Bos => if (index p =? 0)%nat then [p] else []
  | Eos => match ahead p with [] | [10] => [p] | _ => [] end
  end.

Definition complete (p : point) : bool := negb (nonempty (ahead p)).

(** [re.fullmatch(r, text)]: the groups of the first way to match it all. *)
Definition fullmatch (r : regex) (text : pystr) : option (list (nat * pystr)) :=
  groups <$> find complete (run r (At 0 text [])).

(** The matches of [re.finditer], left to right: where each starts and ends.
    The patterns the program searches for never match the empty text. *)
Fixpoint finditer (r : regex) (i skip : nat) (s : pystr) : list (nat * nat) :=
  let here := match skip with O => head (run r (At i s [])) | S _ => None end in
  match s with
  | [] => match here with Some q => [(i, index q)] | None => [] end
  | _ :: s' =>
    match here with
    | Some q => (i, index q) :: finditer r (S i) (index q - i - 1) s'
    | None => finditer r (S i) (pred skip) s'
    end
  end.
End Matching.

(** [match.group(n)] *)
Definition group (n : nat) (g : list (nat * pystr)) : option pystr := dget n g.

(** The text between two indices. *)
Definition between (i j : nat) (s : pystr) : pystr := take (j - i) (drop i s).

(** The pieces of a text between the given spans. *)
Fixpoint outside (cursor : nat) (spans : list (nat * nat)) (s : pystr) : list pystr :=
  match spans with
  | [] => [drop cursor s]
  | (i, j) :: spans' => between cursor i s :: outside j spans' s
  end.

(** [re.sub(r, "", s)] *)
Definition erase `{UnicodeText} (r : regex) (s : pystr) : pystr :=
  concat (outside 0 (finditer false r 0 0 s) s).

(** [re.split("(" + r + ")", s)]: the pieces and what separates them. *)
Fixpoint split_at (cursor : nat) (spans : list (nat * nat)) (s : pystr) : list pystr :=
  match spans with
  | [] => [drop cursor s]
  | (i, j) :: spans' => between cursor i s :: between i j s :: split_at j spans' s
  end.

(** [re.escape(s)] *)
Definition special_chars : pystr :=
  [40; 41; 91; 93; 123; 125; 63; 42; 43; 45; 124; 94; 36; 92; 46; 38; 126; 35; 32; 9; 10; 13; 11; 12].
Definition re_escape (s : pystr) : pystr :=
  concat ((λ c, if bool_decide (c ∈ special_chars) then [92; c] else [c]) <$> s).

(** ** What a pattern means *)

Section Meaning.
Context `{UnicodeText} (ignore_case : bool).
Local Abbreviation atom_match := (atom_match ignore_case).

Inductive Matches : regex → point → point → Prop :=
| M_Empty p : Matches Empty p p
| M_Chr a i c s g : atom_match a c = true → Matches (Chr a) (At i (c :: s) g) (At (S i) s g)
| M_Seq r s p q o : Matches r p q → Matches s q o → Matches (Seq r s) p o
| M_AltL r s p q : Matches r p q → Matches (Alt r s) p q
| M_AltR r s p q : Matches s p q → Matches (Alt r s) p q
| M_Rep greedy lo hi a i w s g :
    Forall (λ c, atom_match a c = true) w → (lo <= length w)%nat →
    (∀ m, hi = Some m → (length w <= m)%nat) →
    Matches (Rep greedy lo hi a) (At i (w ++ s) g) (At (i + length w) s g)
| M_Group n r i w s g g' :
    Matches r (At i (w ++ s) g) (At (i + length w) s g') →
    Matches (Group n r) (At i (w ++ s) g) (At (i + length w) s ((n, w) :: g'))
| M_Bos s g : Matches Bos (At 0 s g) (At 0 s g)
| M_Eos i s g : s = [] ∨ s = [10] → Matches Eos (At i s g) (At i s g).

Lemma rep_ends_spec a greedy lo hi i s j t :
  (j, t) ∈ rep_ends (atom_match a) greedy lo hi i s ↔
  ∃ w, s = w ++ t ∧ j = (i + length w)%nat ∧ Forall (λ c, atom_match a c = true) w ∧
       (lo <= length w)%nat ∧ ∀ m, hi = Some m → (length w <= m)%nat.
Proof.
  assert (∀ b (l k : list (nat * pystr)) x, x ∈ (if b : bool then l ++ k else k ++ l) ↔ x ∈ l ∨ x ∈ k) as Happ.
  { intros [] l k x; rewrite elem_of_app; tauto. }
  revert lo hi i. induction s as [|c s IH]; intros lo hi i; cbn [rep_ends]; rewrite Happ.
  - split.
    + intros [H0|H0]; [by apply not_elem_of_nil in H0|]. destruct lo; [|by apply not_elem_of_nil in H0].
      apply list_elem_of_singleton in H0. simplify_eq. exists []. cbn. split_and!; try done; intros; lia.
    + intros (w & Hw & -> & _ & Hlo & _). symmetry in Hw. apply app_nil in Hw as [-> ->].
      cbn in *. assert (lo = 0%nat) as -> by lia. right. rewrite Nat.add_0_r. by left.
  - split.
    + intros [H0|H0].
      * destruct (at_most hi && atom_match a c) eqn:E; [|by apply not_elem_of_nil in H0].
        apply andb_true_iff in E as [Eh Ec]. apply IH in H0 as (w & -> & -> & Hw & Hlo & Hhi).
        exists (c :: w). cbn. split_and!; [done|lia|by constructor|lia|].
        intros m ->. destruct m as [|m]; [done|]. specialize (Hhi m eq_refl). lia.
      * destruct lo; [|by apply not_elem_of_nil in H0].
        apply list_elem_of_singleton in H0. simplify_eq. exists []. cbn. split_and!; try done; intros; lia.
    + intros (w & Hw & -> & Hall & Hlo & Hhi). destruct w as [|c' w]; cbn in *.
      * right. subst t. destruct lo; [|lia]. rewrite Nat.add_0_r. by left.
      * left. injection Hw as <- ->. apply Forall_cons in Hall as [Hc Hall].
        assert (at_most hi = true) as ->. { destruct hi as [[|m]|]; try done. specialize (Hhi 0%nat eq_refl). lia. }
        rewrite Hc. cbn [andb]. apply IH. exists w. split_and!; [done|lia|done|lia|].
        intros m Hm. destruct hi as [[|h]|]; simplify_eq/=.
        -- specialize (Hhi 0%nat eq_refl). lia.
        -- specialize (Hhi _ eq_refl). lia.
Qed.

(** A match moves forward over the text it consumes. *)
Lemma matches_consumes r p q :
  Matches r p q → ∃ w, ahead p = w ++ ahead q ∧ index q = (index p + length w)%nat.
Proof.
  induction 1 as [p|a i c s g Hc|r s p q o _ (w & Hw & Hi) _ (v & Hv & Hj)| | |greedy lo hi a i w s g|n r i w s g g'| |];
    cbn in *; try done.
  - exists []. split; [done|cbn; lia].
  - exists [c]. split; [done|cbn; lia].
  - exists (w ++ v). rewrite Hw, Hv, app_assoc, Hj, Hi, length_app. split; [done|lia].
  - by exists w.
  - exists []. split; [done|cbn; lia].
  - exists []. split; [done|cbn; lia].
Qed.

(** The search finds exactly the matches. *)
Lemma run_spec r p q : q ∈ run ignore_case r p ↔ Matches r p q.
Proof.
  revert p q. induction r as [|a|r IHr s IHs|r IHr s IHs|greedy lo hi a|n r IHr| |]; intros p q; cbn [run].
  - rewrite list_elem_of_singleton. split; [intros ->; constructor|by inversion 1].
  - destruct p as [i [|c s] g]; cbn.
    + split; [by intros ?%not_elem_of_nil|by inversion 1].
    + destruct (Regex.atom_match ignore_case a c) eqn:E.
      * rewrite list_elem_of_singleton. split; [intros ->; by constructor|by inversion 1].
      * split; [by intros ?%not_elem_of_nil|inversion 1; congruence].
  - rewrite list_elem_of_bind. split.
    + intros (o & Ho & Hq). apply IHr in Hq. apply IHs in Ho. by econstructor.
    + inversion 1; subst. eexists. by rewrite IHs, IHr.
  - rewrite elem_of_app, IHr, IHs. split; [intros [?|?]; by constructor|inversion 1; auto].
  - rewrite list_elem_of_fmap. split.
    + intros ([j t] & -> & (w & Hs & -> & Hw)%rep_ends_spec). destruct p as [i s g]; cbn in *. subst s.
      apply M_Rep; apply Hw.
    + inversion 1; subst. eexists (_, _). split; [reflexivity|]. apply rep_ends_spec. by eexists.
  - rewrite list_elem_of_fmap. split.
    + intros (o & -> & Ho%IHr). destruct p as [i s g], o as [j t g']; cbn in *.
      destruct (matches_consumes _ _ _ Ho) as (w & Hw & Hj); cbn in *. subst s j.
      replace (i + length w - i)%nat with (length w) by lia. rewrite take_app_length. by constructor.
    + inversion 1 as [| | | | | |n' r' i w s g g' Hm| |]; subst. eexists. split; [|by apply IHr]. cbn.
      replace (i + length w - i)%nat with (length w) by lia. by rewrite take_app_length.
  - destruct p as [[|i] s g]; cbn.
    + rewrite list_elem_of_singleton. split; [intros ->; constructor|by inversion 1].
    + split; [by intros ?%not_elem_of_nil|by inversion 1].
  - destruct p as [i s g]; cbn. assert (s = [] ∨ s = [10] ∨ (s ≠ [] ∧ s ≠ [10])) as [->|[->|[H1 H2]]].
    { destruct (decide (s = [])), (decide (s = [10])); auto. }
    + rewrite list_elem_of_singleton. split; [intros ->; constructor; by left|by inversion 1].
    + rewrite list_elem_of_singleton. split; [intros ->; constructor; by right|by inversion 1].
    + replace (match s with [] | [10] => [At i s g] | _ => [] end) with ([] : list point).
      2:{ destruct s as [|c [|]]; [done| |by repeat case_match]. repeat (case_match; try done). }
      split; [by intros ?%not_elem_of_nil|inversion 1; tauto].
Qed.
(** ** Groups *)

(** The regular expressions of group [n]. *)
Fixpoint bodies (n : nat) (r : regex) : list regex :=
  match r with
  | Seq r s | Alt r s => bodies n r ++ bodies n s
  | Group m r => (if (m =? n)%nat then [r] else []) ++ bodies n r
  | _ => []
  end.

(** Every match of [r] closes group [n]. *)
Fixpoint closes (n : nat) (r : regex) : bool :=
  match r with
  | Seq r s => closes n r || closes n s
  | Alt r s => closes n r && closes n s
  | Group m r => (m =? n)%nat || closes n r
  | _ => false
  end.

(** [w] is a text [r] can consume. *)
Definition consumes (r : regex) (w : pystr) : Prop :=
  ∃ i s g g', Matches r (At i (w ++ s) g) (At (i + length w) s g').

(** What a group holds after a match was matched by the group's expression,
    and is a piece of the text. *)
Lemma matches_groups r p q n w :
  Matches r p q → (n, w) ∈ groups q →
  (n, w) ∈ groups p ∨ (∃ b, b ∈ bodies n r ∧ consumes b w) ∧ ∃ x y, ahead p = x ++ w ++ y.
Proof.
  induction 1 as [p|a i c s g Hc|r s p q o Hpq IHr Hqo IHs|r s p q _ IH|r s p q _ IH|greedy lo hi a i v s g|m r i v s g g' Hm IH| |];
    cbn [groups bodies ahead] in *; intros Hin; try (by left).
  - apply IHs in Hin as [Hin|[(b & Hb & Hw) (x & y & Hxy)]].
    + apply IHr in Hin as [Hin|[(b & Hb & Hw) Hxy]]; [by left|]. right. split; [|done].
      exists b. rewrite elem_of_app. auto.
    + right. split; [exists b; rewrite elem_of_app; auto|].
      apply matches_consumes in Hpq as (v & Hv & _). exists (v ++ x), y. by rewrite Hv, Hxy, app_assoc.
  - apply IH in Hin as [Hin|[(b & Hb & Hw) Hxy]]; [by left|]. right. split; [|done].
    exists b. rewrite elem_of_app. auto.
  - apply IH in Hin as [Hin|[(b & Hb & Hw) Hxy]]; [by left|]. right. split; [|done].
    exists b. rewrite elem_of_app. auto.
  - apply elem_of_cons in Hin as [[= -> ->]|Hin].
    + right. rewrite Nat.eqb_refl. split; [|by exists [], s]. exists r. split; [by left|]. by exists i, s, g, g'.
    + apply IH in Hin as [Hin|[(b & Hb & Hw) Hxy]]; [by left|]. right. split; [|done].
      exists b. rewrite elem_of_app. auto.
Qed.

Lemma matches_keeps r p q n : Matches r p q → (∃ w, (n, w) ∈ groups p) → ∃ w, (n, w) ∈ groups q.
Proof.
  induction 1; cbn [groups] in *; eauto. intros [v Hv]. destruct IHMatches as [x Hx]; [by eexists|].
  exists x. by right.
Qed.

Lemma matches_closes r p q n : Matches r p q → closes n r = true → ∃ w, (n, w) ∈ groups q.
Proof.
  induction 1 as [p|a i c s g Hc|r s p q o Hpq IHr Hqo IHs|r s p q _ IH|r s p q _ IH|greedy lo hi a i v s g|m r i v s g g' Hm IH| |];
    cbn [closes groups]; try done.
  - intros [Hr|Hs]%orb_true_iff; [|by apply IHs]. eapply matches_keeps; [done|by apply IHr].
  - intros [Hr _]%andb_true_iff. by apply IH.
  - intros [_ Hs]%andb_true_iff. by apply IH.
  - intros [->%Nat.eqb_eq|Hr]%orb_true_iff.
    + exists v. by left.
    + apply IH in Hr as [x Hx]. exists x. by right.
Qed.

Lemma group_elem n g w : group n g = Some w → (n, w) ∈ g.
Proof. apply dget_elem. Qed.

Lemma group_closed n g : (∃ w, (n, w) ∈ g) → ∃ w, group n g = Some w.
Proof.
  intros [w Hw]. unfold group. destruct (dget n g) as [v|] eqn:E; [by exists v|].
  exfalso. apply dget_None in E. apply E. apply list_elem_of_fmap. by exists (n, w).
Qed.

(** A full match is a match of the whole text, and the reverse. *)
Lemma fullmatch_matches r text g :
  fullmatch ignore_case r text = Some g → Matches r (At 0 text []) (At (length text) [] g).
Proof.
  unfold fullmatch. intros (q & Hq & ->)%fmap_Some. apply find_some in Hq as [Hin Hq].
  apply list_elem_of_In, run_spec in Hin. destruct (matches_consumes _ _ _ Hin) as (w & Hw & Hi).
  destruct q as [j s g]; unfold complete in Hq; cbn in *. destruct s; [|done].
  rewrite app_nil_r in Hw. by subst.
Qed.

Lemma fullmatch_complete r text g :
  Matches r (At 0 text []) (At (length text) [] g) → ∃ g', fullmatch ignore_case r text = Some g'.
Proof.
  intros Hm%run_spec. unfold fullmatch. destruct (find complete _) as [q|] eqn:E; [by eexists|].
  apply list_elem_of_In in Hm. by pose proof (find_none _ _ E _ Hm).
Qed.

(** A group every match closes. *)
Lemma group_defined r text g n :
  fullmatch ignore_case r text = Some g → closes n r = true → ∃ w, group n g = Some w.
Proof. intros Hm%fullmatch_matches Hc. apply group_closed. by apply (matches_closes _ _ _ _ Hm). Qed.

(** What a group of a full match holds. *)
Lemma group_holds r text g n w :
  fullmatch ignore_case r text = Some g → group n g = Some w →
  (∃ b, b ∈ bodies n r ∧ consumes b w) ∧ ∃ x y, text = x ++ w ++ y.
Proof.
  intros Hm%fullmatch_matches Hg%group_elem. eapply matches_groups in Hm as [Hin|H0]; [|done|done].
  by apply not_elem_of_nil in Hin.
Qed.

(** *** What the expressions of the groups consume *)

Lemma consumes_rep greedy lo hi a w :
  consumes (Rep greedy lo hi a) w →
  Forall (λ c, atom_match a c = true) w ∧ (lo <= length w)%nat ∧ ∀ m, hi = Some m → (length w <= m)%nat.
Proof.
  intros (i & s & g & g' & Hm). inversion Hm as [| | | | |gr lo' hi' a' i' v t g0 Hv Hlo Hhi| | |]; subst.
  assert (v = w) as -> by (by eapply app_inv_tail).
  done.
Qed.

Lemma consumes_chr a w : consumes (Chr a) w → ∃ c, w = [c] ∧ atom_match a c = true.
Proof.
  intros (i & s & g & g' & Hm). inversion Hm as [|a' i' c t g0 Hc| | | | | | |]; subst.
  destruct w as [|d [|]]; cbn in *; simplify_eq/=; try lia. by exists d.
Qed.

Lemma consumes_seq r s w : consumes (Seq r s) w → ∃ v x, w = v ++ x ∧ consumes r v ∧ consumes s x.
Proof.
  intros (i & t & g & g' & Hm). inversion Hm as [| |r' s' p q o Hr Hs| | | | | |]; subst.
  destruct (matches_consumes _ _ _ Hr) as (v & Hv & Hi), (matches_consumes _ _ _ Hs) as (x & Hx & Hj).
  destruct q as [j a h]; cbn in *. subst a j.
  assert (w = v ++ x) as ->.
  { rewrite app_assoc in Hv. by eapply app_inv_tail. }
  exists v, x. split; [done|]. split.
  - exists i, (x ++ t), g, h. by rewrite app_assoc.
  - eexists _, t, h, g'. by rewrite <- Hj.
Qed.

Lemma consumes_alt r s w : consumes (Alt r s) w → consumes r w ∨ consumes s w.
Proof. intros (i & t & g & g' & Hm). inversion Hm; subst; [left|right]; by eexists _, _, _, _. Qed.

Lemma consumes_empty w : consumes Empty w → w = [].
Proof. intros (i & t & g & g' & Hm). inversion Hm. destruct w; [done|cbn in *; lia]. Qed.
End Meaning.
