(* ===== verification/PyStr.v ===== *)
(** * [str(v)] of a decoded value

    The Core stores [str(arguments.get("fact", ""))]: a string is itself, any
    other JSON value is its [repr].  Which non-ASCII characters print as
    themselves is a table of the Unicode database, [isprintable]. *)
From S2P Require Import Prelude Dict Value Json.

(** [str.isprintable] on one non-ASCII character. *)
Class UnicodeData := isprintable : Z → bool.

Section PyStr.
Context `{UnicodeData}.

(** [n] hexadecimal digits of [c], lower case. *)
Fixpoint hex_digits (n : nat) (c : Z) : pystr :=
  match n with
  | O => []
  | S n' => hex_digits n' (c / 16) ++ [hex_digit (c mod 16)]
  end.

Definition repr_char (quote c : Z) : pystr :=
  if (c =? quote) || (c =? 92) then [92; c]
  else if c =? 9 then [92; 116]
  else if c =? 10 then [92; 110]
  else if c =? 13 then [92; 114]
  else if (c <? 32) || (c =? 127) then [92; 120] ++ hex_digits 2 c
  else if c <? 127 then [c]
  else if isprintable c then [c]
  else if c <? 256 then [92; 120] ++ hex_digits 2 c
  else if c <? 0x10000 then [92; 117] ++ hex_digits 4 c
  else [92; 85] ++ hex_digits 8 c.

(** Single quotes, unless the string holds a single and no double quote. *)
Definition repr_str (s : pystr) : pystr :=
  let quote := if existsb (Z.eqb 39) s && negb (existsb (Z.eqb 34) s) then 34 else 39 in
  [quote] ++ concat (repr_char quote <$> s) ++ [quote].

Definition repr_float (f : pyfloat) : pystr :=
  match f with
  | FNan => u "nan"
  | FInf neg => if neg : bool then u "-inf" else u "inf"
  | FFin neg m e => Float.repr neg m e
  end.

(** Items separated by a comma and a space. *)
Fixpoint join_items (l : list pystr) : pystr :=
  match l with
  | [] => []
  | [x] => x
  | x :: l' => x ++ [44; 32] ++ join_items l'
  end.

Fixpoint repr (v : value) : result pystr :=
  match v with
  | VNone => Ok (u "None")
  | VBool b => Ok (if b then u "True" else u "False")
  | VInt z => int_repr z
  | VFloat f => Ok (repr_float f)
  | VStr s => Ok (repr_str s)
  | VList l =>
    xs ← (fix go l := match l with
          | [] => Ok []
          | x :: l' => y ← repr x; ys ← go l'; Ok (y :: ys)
          end) l;
    Ok ([91] ++ join_items xs ++ [93])
  | VDict d =>
    xs ← (fix go d := match d with
          | [] => Ok []
          | (k, x) :: d' => y ← repr x; ys ← go d'; Ok ((repr_str k ++ [58; 32] ++ y) :: ys)
          end) d;
    Ok ([123] ++ join_items xs ++ [125])
  end.

Definition str_of (v : value) : result pystr :=
  match v with VStr s => Ok s | _ => repr v end.

Lemma str_of_str s : str_of (VStr s) = Ok s.
Proof. done. Qed.

(** Only an integer of more than 4300 digits has no [str]. *)
Lemma repr_raises v : raises_only (λ e, e = ValueError) (repr v).
Proof.
  induction v as [|b|z|f|s|l IH|d IH] using value_nested_ind; cbn [repr]; repeat raises_step; try done.
  - unfold int_repr. by repeat raises_step.
  - induction IH as [|x l Hx _ IHl]; by repeat raises_step.
  - induction IH as [|[k x] d Hx _ IHd]; [done|]. by repeat raises_step.
Qed.

Lemma str_of_raises v : raises_only (λ e, e = ValueError) (str_of v).
Proof. destruct v; try apply repr_raises. apply raises_only_ok. Qed.
End PyStr.

Example repr_examples (H : UnicodeData) :
  str_of (VList [VInt 1; VStr (u "it's"); VBool true; VNone]) = Ok (u "[1, " ++ [34] ++ u "it's" ++ [34] ++ u ", True, None]")
  ∧ str_of (VDict [(u "a", VStr (u "b"))]) = Ok (u "{'a': 'b'}").
Proof. by_compute. Qed.
