(* ===== verification/Captions.v ===== *)
(** * What a device is told about a tool: [backend/pipa_core/core.py]

    Fixed confirmation labels, the completion envelope and the coarse result
    captions: the only parts of a tool's outcome that leave the Core. *)
From S2P Require Import Prelude Dict Value Json Protocol PyStr.

(** [_DEVICE_CONFIRMATION_SUMMARIES] *)
Definition DEVICE_CONFIRMATION_SUMMARIES : dict pystr pystr :=
  [(u "open_app", u "Abrir una aplicación configurada.");
   (u "open_codex", u "Abrir Codex.");
   (u "web_search", u "Buscar en Internet.");
   (u "music_search", u "Buscar en Apple Music.");
   (u "music_open", u "Abrir Apple Music.");
   (u "league_open", u "Abrir League of Legends.");
   (u "discord_open_app", u "Abrir Discord.");
   (u "discord_open", u "Abrir un canal de Discord.");
   (u "discord_call_channel", u "Preparar una llamada de Discord; el inicio será manual.");
   (u "discord_contact", u "Abrir un contacto de Discord.");
   (u "discord_call", u "Preparar una llamada de Discord; el inicio será manual.");
   (u "whatsapp_compose", u "Preparar o enviar un mensaje de WhatsApp según la configuración local.");
   (u "whatsapp_contact", u "Preparar o enviar un mensaje de WhatsApp según la configuración local.");
   (u "whatsapp_contact_open", u "Abrir un chat de WhatsApp.");
   (u "whatsapp_phone_open", u "Abrir un chat de WhatsApp.");
   (u "whatsapp_open", u "Abrir WhatsApp Web.");
   (u "league_search", u "Buscar una partida en League.");
   (u "league_cancel", u "Cancelar la búsqueda de League.");
   (u "system_lock", u "Bloquear el ordenador.");
   (u "open_url", u "Abrir una URL validada.")].

Definition _device_confirmation_summary (tool_name : pystr) : pystr :=
  default (u "Confirmar acción externa.") (dget tool_name DEVICE_CONFIRMATION_SUMMARIES).

Section Result.
Context `{UnicodeData}.

Definition _device_tool_result (tool_name : pystr) (invocation : object) (call_id : value) : result object :=
  status ← str_of (get_or (u "status") (VStr (u "completed")) invocation);
  let failed := match get (u "result") invocation with
                | VDict r => is_false (get (u "success") r)
                | _ => false
                end in
  let success := (status =s "completed") && negb failed in
  server_message (u "tool_result")
    ([(u "tool_name", VStr tool_name); (u "status", VStr status); (u "success", VBool success)]
     ++ match call_id with VNone => [] | _ => [(u "call_id", call_id)] end).
End Result.

(** The [captions] table of [_safe_result_caption]. *)
Definition CAPTIONS : dict pystr pystr :=
  [(u "system_status", u "Estado del ordenador consultado.");
   (u "integration_status", u "Estado de integraciones consultado.");
   (u "system_network", u "Estado de red consultado.");
   (u "web_search", u "Búsqueda web abierta.");
   (u "music_open", u "Apple Music abierto.");
   (u "music_search", u "Búsqueda musical abierta; elige la pista.");
   (u "whatsapp_open", u "WhatsApp abierto.");
   (u "whatsapp_compose", u "Chat preparado; pulsa Enviar.");
   (u "whatsapp_contact", u "Chat preparado; pulsa Enviar.");
   (u "whatsapp_contact_open", u "Chat de WhatsApp abierto.");
   (u "whatsapp_phone_open", u "Chat de WhatsApp abierto.");
   (u "discord_open_app", u "Discord abierto.");
   (u "discord_open", u "Canal abierto; inicia la llamada.");
   (u "discord_call_channel", u "Canal de llamada abierto; pulsa Llamar.");
   (u "discord_contact", u "Canal abierto; inicia la llamada.");
   (u "discord_call", u "Canal de llamada abierto; pulsa Llamar.");
   (u "league_open", u "League of Legends abierto.");
   (u "league_cancel", u "Búsqueda de partida cancelada.");
   (u "timer_create", u "Temporizador creado.");
   (u "timer_cancel", u "Temporizador cancelado.");
   (u "media_action", u "Control multimedia enviado.");
   (u "open_url", u "URL abierta en el navegador.");
   (u "open_app", u "Aplicación abierta.");
   (u "system_lock", u "Ordenador bloqueado.")].

(** [isinstance(v, int) and not isinstance(v, bool) and 0 <= v <= 100] *)
Definition percent_of (v : value) : option Z :=
  match v with VInt z => if (0 <=? z) && (z <=? 100) then Some z else None | _ => None end.

Definition power_caption (r : object) : pystr :=
  if is_false (get (u "available") r) then u "Batería no disponible en este PC."
  else match percent_of (get (u "percent") r) with
  | Some percent =>
    let state := if is_true (get (u "plugged") r) then u "conectado a corriente" else u "sin corriente" in
    u "Batería: " ++ digits percent ++ u "%; " ++ state ++ u "."
  | None => u "Estado de batería consultado."
  end.

Definition search_status_caption (r : object) : pystr :=
  if is_false (get (u "supported") r) then u "El estado de búsqueda de League no está disponible."
  else if is_true (get (u "match_found") r) then u "League ha encontrado una partida; acéptala manualmente."
  else if is_true (get (u "searching") r) then u "League está buscando partida."
  else if eq_str (get (u "state") r) (u "unknown")
  then u "No se pudo confirmar el estado de búsqueda de League."
  else u "League no está buscando partida.".

Definition league_status_caption (r : object) : pystr :=
  match get (u "search") r with
  | VDict search =>
    if is_true (get (u "match_found") search) then u "League ha encontrado una partida; acéptala manualmente."
    else if is_true (get (u "searching") search) then u "League está buscando partida."
    else if is_false (get (u "supported") search) then u "League listo; matchmaking no disponible."
    else u "Estado de League consultado."
  | _ => u "Estado de League consultado."
  end.

(** The branches of the chain that may fall through to the table. *)
Definition specific_caption (tool_name : pystr) (r : object) : option pystr :=
  if tool_name =s "audio_volume" then
    (λ volume, u "Volumen: " ++ digits volume ++ u "%.") <$> percent_of (get (u "volume") r)
  else if one_of tool_name ["audio_mute"; "audio_unmute"]%string then
    match get (u "muted") r with
    | VBool muted => Some (if muted then u "Audio silenciado." else u "Audio activado.")
    | _ => None
    end
  else if tool_name =s "timer_list" then
    match get (u "timers") r with
    | VList timers => Some (u "Temporizadores registrados: " ++ digits (len timers) ++ u ".")
    | _ => None
    end
  else if tool_name =s "league_search" then
    if truthy (get (u "already_searching") r) then Some (u "Ya había una búsqueda activa.")
    else if truthy (get (u "started") r) then Some (u "Búsqueda de partida iniciada.")
    else None
  else if tool_name =s "league_wait" then
    if is_true (get (u "found") r) then Some (u "League ha encontrado una partida; acéptala manualmente.")
    else if is_true (get (u "timed_out") r)
    then Some (u "No apareció una partida durante el tiempo indicado; la búsqueda sigue activa.")
    else if is_false (get (u "searching") r) then Some (u "League ya no está buscando partida.")
    else None
  else if (tool_name =s "league_cancel") && is_true (get (u "already_not_searching") r)
  then Some (u "League no estaba buscando partida.")
  else None.

Definition _safe_result_caption (tool_name : pystr) (r : object) : pystr :=
  if is_false (get (u "success") r) then u "No se pudo completar la acción."
  else if one_of tool_name ["whatsapp_compose"; "whatsapp_contact"]%string && is_true (get (u "sent") r)
  then u "Mensaje de WhatsApp enviado."
  else if tool_name =s "system_power" then power_caption r
  else if tool_name =s "league_search_status" then search_status_caption r
  else if tool_name =s "league_status" then league_status_caption r
  else default (default (u "Acción completada.") (dget tool_name CAPTIONS)) (specific_caption tool_name r).

(** ** What a caption can show *)

(** The captions that are not in the table. *)
Definition OTHER_CAPTIONS : list pystr :=
  [u "No se pudo completar la acción."; u "Mensaje de WhatsApp enviado."; u "Batería no disponible en este PC.";
   u "Estado de batería consultado."; u "El estado de búsqueda de League no está disponible.";
   u "League ha encontrado una partida; acéptala manualmente."; u "League está buscando partida.";
   u "No se pudo confirmar el estado de búsqueda de League."; u "League no está buscando partida.";
   u "League listo; matchmaking no disponible."; u "Estado de League consultado."; u "Audio silenciado.";
   u "Audio activado."; u "Ya había una búsqueda activa."; u "Búsqueda de partida iniciada.";
   u "No apareció una partida durante el tiempo indicado; la búsqueda sigue activa.";
   u "League ya no está buscando partida."; u "League no estaba buscando partida."; u "Acción completada."].

(** A fixed sentence, or one that shows a percentage or the length of a list. *)
Inductive caption_shape : pystr → Prop :=
| caption_fixed c : c ∈ OTHER_CAPTIONS ∨ c ∈ CAPTIONS.*2 → caption_shape c
| caption_battery z st : 0 <= z <= 100 → st ∈ [u "conectado a corriente"; u "sin corriente"] →
    caption_shape (u "Batería: " ++ digits z ++ u "%; " ++ st ++ u ".")
| caption_volume z : 0 <= z <= 100 → caption_shape (u "Volumen: " ++ digits z ++ u "%.")
| caption_timers (timers : list value) :
    caption_shape (u "Temporizadores registrados: " ++ digits (len timers) ++ u ".").

Ltac fixed_now := apply caption_fixed; left; apply (bool_decide_unpack _); vm_compute; exact I.

Lemma percent_of_range v z : percent_of v = Some z → 0 <= z <= 100.
Proof. unfold percent_of. destruct v; try done. case_match; [|done]. intros [= <-]. reflect. lia. Qed.

Lemma power_caption_shape r : caption_shape (power_caption r).
Proof.
  unfold power_caption. case_match; [fixed_now|].
  destruct (percent_of _) as [z|] eqn:E; [|fixed_now]. apply caption_battery; [by eapply percent_of_range|].
  case_match; [by left|by right; left].
Qed.

Lemma specific_caption_shape n r c : specific_caption n r = Some c → caption_shape c.
Proof.
  unfold specific_caption. case_match.
  { destruct (percent_of _) as [z|] eqn:E; intros [= <-]. apply caption_volume. by eapply percent_of_range. }
  case_match; [destruct (get (u "muted") r) as [|[]|?|?|?|?|?]; intros [= <-]; fixed_now|].
  case_match; [destruct (get (u "timers") r); intros [= <-]; apply caption_timers|].
  repeat case_match; intros [= <-]; fixed_now.
Qed.

(** Whatever a handler returns, the caption shown on the device is one of
    the fixed sentences of the program, or shows at most one percentage between
    0 and 100 or the number of timers: no text of the result reaches the
    screen. *)
Theorem safe_caption_closed n r : caption_shape (_safe_result_caption n r).
Proof.
  unfold _safe_result_caption. case_match; [fixed_now|]. case_match; [fixed_now|].
  case_match; [apply power_caption_shape|].
  case_match; [unfold search_status_caption; repeat case_match; fixed_now|].
  case_match; [unfold league_status_caption; repeat case_match; fixed_now|].
  destruct (specific_caption n r) as [c|] eqn:E; [by eapply specific_caption_shape|].
  unfold default at 1, from_option at 1, id.
  destruct (dget n CAPTIONS) as [c|] eqn:Ec; [|fixed_now].
  apply caption_fixed. right. apply dget_elem in Ec. by apply (list_elem_of_fmap_2 snd) in Ec.
Qed.
