(* ===== verification/Core.v ===== *)
(** * The orchestration core: [backend/pipa_core/core.py], class [PipaCore]

    [PipaCore] owns the session registry, the tool router with its pending
    confirmations, the memory and the challenge verifier.  [handle] is the
    whole dispatcher of authenticated messages, [_run_tool] the confirmation
    gate, [_route_transcript] the text path.  The verifier and the intent
    parsers are reached through the interfaces [VerifierI] and [IntentParser]. *)
From S2P Require Import Prelude Dict Value Effects TextPolicy Protocol Binding Sessions.
From S2P Require Import Confirmations Memory Tools Catalog Challenge PyStr Captions.

(** What the Core uses of [AuthorizationVerifier]. *)
Class VerifierI (V : Type) := {
  vi_create_challenge : challenge_env → pystr → pystr → M V Challenge;
  vi_verify_response : SignedChallenge → Z → M V VerifiedAuthorization;
  vi_inv : V → Prop
}.

(** What it relies on. *)
Class VerifierLaws {V} (I : VerifierI V) : Prop := {
  vi_create_keeps env d op : keeps vi_inv (vi_create_challenge env d op);
  vi_verify_keeps r now : keeps vi_inv (vi_verify_response r now);
  vi_verify_device r now v v' a :
    vi_inv v → vi_verify_response r now v = (v', Ok a) → auth_device_id a = signed_device_id r;
  vi_create_raises env d op v v' e :
    vi_inv v → vi_create_challenge env d op v = (v', Raise e) → caught e [TrustedUnlockError; ValueError] = true;
  vi_verify_raises r now v v' e :
    vi_inv v → vi_verify_response r now v = (v', Raise e) → is_a e TrustedUnlockError = true
}.

(** [intents.py: ParsedIntent] *)
Record ParsedIntent := mkIntent { intent_tool : pystr; intent_arguments : object }.

(** The two parsers of [intents.py].  Matching a catalog phrase can fail on a
    malformed catalog value; the parser of free text answers every text the
    Core accepts. *)
Class IntentParser := {
  parse_catalog_intent : pystr → value → result (option ParsedIntent);
  parse_text_intent : pystr → result (option ParsedIntent);
  text_intent_total b : bounded_text 4000 false b → ∃ i, parse_text_intent b = Ok i
}.

Definition CONFIRMATION_CAPABILITIES : list pystr := [u "display"; u "touch"].
Definition PRE_HELLO_MESSAGE_TYPES := ["ping"; "device_status"; "device_hello"; "abort"]%string.

(** [d[k]] on a value. *)
Definition subscript (v : value) (k : pystr) : result value :=
  match v with VDict d => getitem k d | _ => Raise TypeError end.
(** [v.get(k, dflt)] on a value. *)
Definition method_get (v : value) (k : pystr) (dflt : value) : result value :=
  match v with VDict d => Ok (get_or k dflt d) | _ => Raise AttributeError end.
(** [tuple(v)] *)
Definition py_tuple (v : value) : result (list value) :=
  match v with
  | VList l => Ok l
  | VStr s => Ok ((λ c, VStr [c]) <$> s)
  | VDict d => Ok (VStr <$> dkeys d)
  | _ => Raise TypeError
  end.

(** The clock readings and the draw of one call of the Core. *)
Record core_env := {
  t_prune : Z;
  t_touch : Z;
  t_verify : Z;
  t_session : Z;
  t_confirm : Z;
  session_token : pystr;
  confirm_token : pystr
}.

Section Core.
Context {W V : Type} `{I : VerifierI V} `{UnicodeData} `{IntentParser}.
Context (ttl_seconds : Z) (catalog : dict pystr (ToolDefinition W)).
Context (command_catalog capability_catalog : option (W → result value)).
Context (command_catalog_authoritative : bool).

Record core_state := mkCore {
  sessions : registry;
  router : router_state W;
  facts : facts_table;
  verifier : V
}.
Definition on_sessions {A} (m : M registry A) : M core_state A :=
  zoom sessions (λ r s, mkCore r (router s) (facts s) (verifier s)) m.
Definition on_router {A} (m : M (router_state W) A) : M core_state A :=
  zoom router (λ r s, mkCore (sessions s) r (facts s) (verifier s)) m.
Definition on_facts {A} (m : M facts_table A) : M core_state A :=
  zoom facts (λ f s, mkCore (sessions s) (router s) f (verifier s)) m.
Definition on_verifier {A} (m : M V A) : M core_state A :=
  zoom verifier (λ v s, mkCore (sessions s) (router s) (facts s) v) m.
Definition the_world (s : core_state) : W := world (router s).
(** A provider of catalog values reads the world. *)
Definition provide (f : W → result value) : M core_state value := λ s, (s, f (the_world s)).

(** [try: m] with the outcome kept as a value. *)
Definition attempt {A} (m : M core_state A) : M core_state (result A) := λ s,
  let '(s', r) := m s in (s', Ok r).

Definition router_env (env : core_env) : call_env :=
  {| now := t_confirm env; token := confirm_token env |}.

(** A list display of responses, built left to right. *)
Definition reply (l : list (result object)) : M core_state (list object) := lift (traverse id l).
Definition error (code : literal) (message : pystr) : result object :=
  server_message (u "error") [(u "code", VStr (u code)); (u "message", VStr message)].
Definition bare_error (code : literal) : result object :=
  server_message (u "error") [(u "code", VStr (u code))].

Arguments error code%_string_scope message.
Arguments bare_error code%_string_scope.

(** ** Sessions *)

(** Assignments through the reference to a registered session. *)
Definition save (session : DeviceSession) : M core_state DeviceSession :=
  on_sessions (modify (store session)) ≫= λ _, mret session.
Definition set_ui (session : DeviceSession) (st : pystr) (c : option pystr) : M core_state DeviceSession :=
  lift (set_state st c session) ≫= save.

Definition _prune_stale_sessions (env : core_env) : M core_state unit :=
  on_sessions (prune (t_prune env)) ≫= λ ids,
  for_each (λ sid, on_router (cancel_pending sid) ≫= λ _, mret tt) ids.

Definition create_challenge (cenv : challenge_env) (d : pystr) : M core_state Challenge :=
  on_verifier (vi_create_challenge cenv d (u "session")).

(** [sorted({*self.router.catalog.names(), "remember_fact", "recall_memory"})] *)
Definition tool_names : list pystr :=
  merge_sort str_le (remove_dups (names catalog ++ [u "remember_fact"; u "recall_memory"])).

(** [capabilities or ()] *)
Definition or_empty (v : value) : value := if truthy v then v else VList [].

Definition authenticate (env : core_env) (d challenge signature : pystr) (fw caps : value)
  : M core_state DeviceSession :=
  _prune_stale_sessions env ≫= λ _,
  lift (check_signed (mkSigned challenge d signature)) ≫= λ response,
  on_verifier (vi_verify_response response (t_verify env)) ≫= λ authorization,
  lift (py_tuple (or_empty caps)) ≫= λ caps,
  on_sessions (Sessions.create (auth_device_id authorization) fw caps true (t_session env) (session_token env)).

Definition close (sid : pystr) : M core_state unit :=
  on_router (cancel_pending sid) ≫= λ _, on_sessions (remove sid).

(** ** Tools *)

Definition has_capability (caps : list value) (c : pystr) : bool := existsb (λ v, eq_str v c) caps.

(** [self.memory.remember(session.device_id, str(arguments.get("fact", "")))] *)
Definition remember_call (session : DeviceSession) (arguments : value) : M core_state object :=
  lift (method_get arguments (u "fact") (VStr [])) ≫= λ v,
  lift (str_of v) ≫= λ fact,
  on_facts (remember (Sessions.device_id session) fact).

Definition completed_result (r : object) : object :=
  [(u "status", VStr (u "completed")); (u "result", VDict r)].

Definition remember_tool (session : DeviceSession) (arguments : value) : M core_state (list object) :=
  except (remember_call session arguments ≫= λ r, mret (Some r)) [ValueError] (mret None) ≫= λ out,
  match out with
  | None =>
    set_ui session (u "idle") (Some (u "No se pudo guardar la memoria.")) ≫= λ session,
    reply [error "memory_failed" (u "No se pudo guardar la memoria."); ui_message session]
  | Some r =>
    set_ui session (u "idle") None ≫= λ session,
    reply [_device_tool_result (u "remember_fact") (completed_result r) VNone; ui_message session]
  end.

Definition recall_tool (session : DeviceSession) : M core_state (list object) :=
  gets (λ s, recall (Sessions.device_id session) (facts s)) ≫= λ r,
  set_ui session (u "idle") None ≫= λ session,
  reply [_device_tool_result (u "recall_memory") (completed_result r) VNone; ui_message session].

(** [if confirmation.get(k) is not None: fields[k] = confirmation[k]] *)
Definition optional_item (k : pystr) (d : value) : result object :=
  v ← method_get d k VNone;
  match v with VNone => Ok [] | _ => v ← subscript d k; Ok [(k, v)] end.

Definition confirm_request (confirmation : value) : result object :=
  cid ← subscript confirmation (u "confirmation_id");
  tool ← subscript confirmation (u "tool_name");
  name ← str_of tool;
  expires ← subscript confirmation (u "expires_at");
  call_id ← optional_item (u "call_id") confirmation;
  digest ← optional_item (u "request_digest") confirmation;
  server_message (u "confirm_request")
    ([(u "confirmation_id", cid); (u "tool_name", tool);
      (u "summary", VStr (_device_confirmation_summary name)); (u "expires_at", expires)]
     ++ call_id ++ digest).

Definition result_caption (tool_name : pystr) (v : value) : result pystr :=
  match v with VDict r => Ok (_safe_result_caption tool_name r) | _ => Raise AttributeError end.

(** What [_run_tool] does with the outcome of [invoke]. *)
Definition after_invoke (session : DeviceSession) (tool_name : pystr) (call_id : value)
    (invocation : result object) : M core_state (list object) :=
  match invocation with
  | Raise e =>
    let text := if caught e [KeyError; ValueError; ConfirmationError]
                then u "No he podido ejecutar esa acción." else u "La herramienta ha fallado." in
    set_ui session (u "idle") (Some text) ≫= λ session,
    reply [error "tool_failed" text; ui_message session]
  | Ok invocation =>
    lift (getitem (u "status") invocation) ≫= λ status,
    if eq_str status (u "needs_confirmation") then
      set_ui session (u "confirm") None ≫= λ session,
      lift (getitem (u "confirmation") invocation) ≫= λ confirmation,
      reply [confirm_request confirmation; ui_message session]
    else
      lift (getitem (u "result") invocation) ≫= λ r,
      lift (result_caption tool_name r) ≫= λ caption,
      set_ui session (u "idle") (Some caption) ≫= λ session,
      reply [_device_tool_result tool_name invocation call_id; ui_message session]
  end.

Definition _run_tool (env : core_env) (session : DeviceSession) (tool_name : pystr) (arguments : value)
    (call_id request_digest : value) : M core_state (list object) :=
  set_ui session (u "thinking") None ≫= λ session,
  if tool_name =s "remember_fact" then remember_tool session arguments
  else if tool_name =s "recall_memory" then recall_tool session
  else if match get_tool tool_name catalog with
          | Ok d => unsafe d && negb (forallb (has_capability (Sessions.capabilities session))
                                        CONFIRMATION_CAPABILITIES)
          | Raise _ => false
          end
  then
    set_ui session (u "idle") (Some (u "Falta la pantalla táctil de confirmación.")) ≫= λ session,
    reply [error "confirmation_unavailable" (u "La acción requiere pantalla y toque disponibles.");
           ui_message session]
  else
    attempt (on_router (invoke ttl_seconds catalog (router_env env) tool_name arguments None
               (Some (session_id session)) call_id request_digest)) ≫= λ invocation,
    after_invoke session tool_name call_id invocation.

(** ** Text *)

(** What a set can hold. *)
Definition hashable (v : value) : bool := match v with VList _ | VDict _ => false | _ => true end.

(** [{command.get("tool_name") for command in catalog_commands}] contains [t]. *)
Definition enables (commands : value) (t : pystr) : result bool :=
  match commands with
  | VList l =>
    tools ← traverse (λ c, method_get c (u "tool_name") VNone) l;
    if forallb hashable tools then Ok (existsb (λ v, eq_str v t) tools) else Raise TypeError
  | _ => Raise TypeError
  end.

Definition catalog_intent (bounded : pystr) (commands : option value) : result (option ParsedIntent) :=
  match commands with
  | Some c => parse_catalog_intent bounded c
  | None => Ok None
  end.

Definition find_intent (bounded : pystr) (commands : option value) : result (option ParsedIntent) :=
  intent ← catalog_intent bounded commands;
  intent ← match intent with Some i => Ok (Some i) | None => parse_text_intent bounded end;
  match command_catalog_authoritative, commands, intent with
  | true, Some c, Some i => ok ← enables c (intent_tool i); Ok (if ok : bool then Some i else None)
  | _, _, _ => Ok intent
  end.

(** The catalog of the moment: a provider that fails to read disables every
    command. *)
Definition current_commands : M core_state (option value) :=
  match command_catalog with
  | None => mret None
  | Some f => except (provide f ≫= λ c, mret (Some c)) [OSError; ValueError] (mret (Some (VList [])))
  end.

Definition _route_transcript (env : core_env) (session : DeviceSession) (transcript : value)
  : M core_state (list object) :=
  match validate_bounded_text transcript 4000 false with
  | Raise _ =>
    set_ui session (u "idle") (Some (u "La transcripción no es válida.")) ≫= λ session,
    reply [error "invalid_transcript" (u "La transcripción no es válida."); ui_message session]
  | Ok bounded =>
    current_commands ≫= λ commands,
    lift (find_intent bounded commands) ≫= λ intent,
    match intent with
    | None =>
      set_ui session (u "idle") (Some (u "Todavía no conozco ese comando.")) ≫= λ session,
      reply [error "unsupported_text_intent"
               (u "Comando no reconocido; usa un tool_call o una frase compatible.");
             ui_message session]
    | Some i => _run_tool env session (intent_tool i) (VDict (intent_arguments i)) VNone VNone
    end
  end.

(** ** Catalog *)

Definition catalog_reply (commands : list object) : M core_state (list object) :=
  let fields := [(u "commands", VList (VDict <$> commands))] in
  match capability_catalog with
  | None => reply [server_message (u "catalog") fields]
  | Some f =>
    attempt (provide f ≫= λ v, lift (_validate_capability_catalog v)) ≫= λ caps,
    match caps with
    | Ok c => reply [server_message (u "catalog") (fields ++ [(u "capabilities", VDict c)])]
    | Raise _ => reply [bare_error "catalog_unavailable"]
    end
  end.

Definition _catalog_response : M core_state (list object) :=
  match command_catalog with
  | None => catalog_reply []
  | Some f =>
    attempt (provide f ≫= λ v, lift (check_commands catalog v)) ≫= λ commands,
    match commands with
    | Ok c => catalog_reply c
    | Raise _ => reply [bare_error "catalog_unavailable"]
    end
  end.

(** ** Messages *)

Definition on_tool_call (env : core_env) (session : DeviceSession) (f : object) : M core_state (list object) :=
  let supplied := get (u "request_digest") f in
  lift (match supplied with
        | VNone => Ok true
        | _ =>
          n ← getitem (u "name") f;
          n ← str_of n;
          a ← getitem (u "arguments") f;
          match (match a with VDict a => compute_request_digest n a | _ => Raise ValueError end) with
          | Ok expected => Ok (eq_str supplied expected)
          | Raise e => if caught e [ValueError] then Ok false else Raise e
          end
        end) ≫= λ bound,
  if negb bound then
    set_ui session (u "idle") (Some (u "La solicitud no es válida.")) ≫= λ session,
    reply [error "request_binding_failed" (u "La solicitud no es válida."); ui_message session]
  else
    lift (n ← getitem (u "name") f; n ← str_of n; a ← getitem (u "arguments") f; Ok (n, a)) ≫= λ na,
    _run_tool env session na.1 na.2 (get (u "call_id") f) supplied.

Definition resolve_call (env : core_env) (session : DeviceSession) (f : object) : M core_state object :=
  lift (c ← getitem (u "confirmation_id") f; c ← str_of c;
        a ← getitem (u "accepted") f; Ok (c, truthy a)) ≫= λ ca,
  on_router (resolve_confirmation catalog (router_env env) ca.1 ca.2 (Some (session_id session))).

Definition on_confirm (env : core_env) (session : DeviceSession) (f : object) : M core_state (list object) :=
  attempt (resolve_call env session f) ≫= λ out,
  match out with
  | Raise e =>
    let expected := caught e [ConfirmationError; KeyError; ValueError] in
    let text := if expected then u "La confirmación ha caducado o no es válida."
                else u "La herramienta ha fallado." in
    on_router (cancel_pending (session_id session)) ≫= λ _,
    set_ui session (u "idle") (Some text) ≫= λ session,
    reply [error (if expected then "confirmation_failed" else "tool_failed")%string text; ui_message session]
  | Ok r =>
    lift (status ← getitem (u "status") r;
          tool ← getitem (u "tool_name") r;
          tool ← str_of tool;
          caption ← (if eq_str status (u "rejected") then Ok (u "Acción cancelada.")
                     else v ← getitem (u "result") r; result_caption tool v);
          Ok (tool, caption)) ≫= λ tc,
    set_ui session (u "idle") (Some tc.2) ≫= λ session,
    reply [_device_tool_result tc.1 r (get (u "call_id") r); ui_message session]
  end.

Definition on_device_status (session : DeviceSession) (f : object) : M core_state (list object) :=
  lift (getitem (u "audio_state") f) ≫= λ a,
  lift (getitem (u "battery_percent") f) ≫= λ b,
  lift (getitem (u "wifi_rssi") f) ≫= λ w,
  save (with_status a b w session) ≫= λ _,
  reply [server_message (u "status_ack") []].

Definition on_device_hello (session : DeviceSession) (f : object) : M core_state (list object) :=
  if capabilities_initialized session then reply [bare_error "device_hello_not_expected"]
  else
    lift (v ← getitem (u "capabilities") f; py_tuple v) ≫= λ caps,
    save (with_hello (get (u "firmware_version") f) caps session) ≫= λ _,
    reply [server_message (u "device_hello_ack") []].

Definition confirmation_required (session : DeviceSession) : M core_state (list object) :=
  reply [error "confirmation_required" (u "Responde a la confirmación pendiente antes de continuar.");
         ui_message session].

Definition dispatch_message (env : core_env) (session : DeviceSession) (t : pystr) (f : object)
  : M core_state (list object) :=
  if t =s "ping" then reply [server_message (u "pong") [(u "request_id", get (u "request_id") f)]]
  else if t =s "device_status" then on_device_status session f
  else if t =s "device_hello" then on_device_hello session f
  else if negb (capabilities_initialized session) && negb (one_of t PRE_HELLO_MESSAGE_TYPES)
  then reply [error "device_hello_required" (u "El dispositivo aún no está listo.")]
  else if t =s "catalog_request" then _catalog_response
  else if (Sessions.state session =s "confirm")
          && negb (one_of t ["ping"; "device_status"; "abort"; "confirm"]%string)
  then confirmation_required session
  else if one_of t ["wake"; "hold_start"]%string then
    set_ui session (u "listening") None ≫= λ session, reply [ui_message session]
  else if one_of t ["hold_end"; "audio_end"]%string then
    set_ui session (u "idle") (Some (u "La voz aún no está disponible.")) ≫= λ session,
    reply [error "voice_unavailable" (u "La voz aún no está disponible."); ui_message session]
  else if t =s "abort" then
    on_router (cancel_pending (session_id session)) ≫= λ _,
    set_ui session (u "idle") None ≫= λ session,
    reply [server_message (u "tts_aborted") []; ui_message session]
  else if t =s "gesture" then
    lift (getitem (u "gesture") f) ≫= λ g, reply [server_message (u "gesture_ack") [(u "gesture", g)]]
  else if t =s "text_input" then
    lift (getitem (u "text") f) ≫= λ text, _route_transcript env session text
  else if t =s "tool_call" then on_tool_call env session f
  else if t =s "confirm" then on_confirm env session f
  else reply [error "unsupported_message" t].

Definition handle (env : core_env) (sid : pystr) (message : client_message) : M core_state (list object) :=
  _prune_stale_sessions env ≫= λ _,
  gets (λ s, get_session sid (sessions s)) ≫= λ session,
  match session with
  | None => reply [error "unknown_session" (u "Sesión desconocida.")]
  | Some session =>
    save (touch (t_touch env) session) ≫= λ session,
    dispatch_message env session (msg_type message) (fields message)
  end.

Definition handle_transcript (env : core_env) (sid : pystr) (transcript : value) : M core_state (list object) :=
  gets (λ s, get_session sid (sessions s)) ≫= λ session,
  match session with
  | None => reply [error "unknown_session" (u "Sesión desconocida.")]
  | Some session =>
    save (touch (t_touch env) session) ≫= λ session,
    if negb (capabilities_initialized session)
    then reply [error "device_hello_required" (u "El dispositivo aún no está listo.")]
    else if Sessions.state session =s "confirm" then confirmation_required session
    else _route_transcript env session transcript
  end.
End Core.
Arguments core_state W V : clear implicits.
Arguments error code%_string_scope message.
Arguments bare_error code%_string_scope.
