(* ===== verification/Intents.v ===== *)
(** * The Spanish intent adapter: [backend/pipa_core/intents.py], free text

    [parse_text_intent] tries a fixed sequence of phrases and patterns on the
    text of the user and returns the tool call of the first that answers.  Each
    rule of that sequence is a definition named after the variable that holds
    its match; the patterns are the strings of the source, read by
    [Regex.compile].  [IntentFacts] proves what the parser promises. *)
From S2P Require Import Prelude Dict Value PyText Regex Core.

(** Long patterns are written as the adjacent literals of the source. *)
Local Infix "++" := Stdlib.Strings.String.append (right associativity, at level 60) : string_scope.

Section Intents.
Context `{UnicodeText}.

Definition _LEAGUE_QUEUE_ALIASES : dict pystr pystr := [
  (u "", u "normal_draft");
  (u "normal", u "normal_draft");
  (u "normal draft", u "normal_draft");
  (u "normal_draft", u "normal_draft");
  (u "draft", u "normal_draft");
  (u "clasificatoria", u "ranked_solo");
  (u "clasificatoria solo", u "ranked_solo");
  (u "clasificatoria flex", u "ranked_flex");
  (u "ranked", u "ranked_solo");
  (u "ranked solo", u "ranked_solo");
  (u "ranked flex", u "ranked_flex");
  (u "solo", u "ranked_solo");
  (u "flex", u "ranked_flex");
  (u "aram", u "aram");
  (u "swiftplay", u "swiftplay")].

Definition _fold_phrase (v : pystr) : pystr := filter (λ c, combining c = false) (nfkd (lower_text v)).

(** [re.fullmatch(pattern, text, flags)]: the groups, if the text matches. *)
Definition re_fullmatch (ignore_case : bool) (pattern text : pystr) : result (option (list (nat * pystr))) :=
  match compile pattern with
  | Some r => Ok (fullmatch ignore_case r text)
  | None => Raise PatternError
  end.

(** [re.sub(pattern, "", text)] *)
Definition re_erase (pattern text : pystr) : result pystr :=
  match compile pattern with Some r => Ok (erase r text) | None => Raise PatternError end.

Definition intent (tool : literal) (arguments : list (literal * value)) : ParsedIntent :=
  mkIntent (u tool) ((λ a, (u a.1, a.2)) <$> arguments).

Arguments intent tool%_string_scope arguments.

(** ** Helpers *)

(** The first of the connectors that starts the folded term. *)
Fixpoint drop_prefix (prefixes : list pystr) (folded term : pystr) : pystr :=
  match prefixes with
  | [] => term
  | p :: ps => if startswith p folded then strip (drop (length p) term) else drop_prefix ps folded term
  end.

Definition _clean_music_term (v : pystr) : pystr :=
  let term := strip v in
  drop_prefix [u "música de "; u "musica de "; u "de "] (casefold_text term) term.

Definition _music_intent (v : pystr) : ParsedIntent :=
  let term := _clean_music_term v in
  let folded := _fold_phrase term in
  if one_of folded [""; "musica"; "apple music"; "en musica"; "en apple music"]%string
  then intent "music_open" []
  else intent "music_search" [("term"%string, VStr term)].

Definition PHONE_PATTERN : literal := "[+\d][\d\s().-]{6,24}"%string.

Definition _whatsapp_recipient_intent (recipient message : pystr) : result ParsedIntent :=
  let recipient := strip recipient in
  phone ← re_fullmatch false (u PHONE_PATTERN) recipient;
  Ok (match phone with
      | Some _ => intent "whatsapp_compose" [("phone"%string, VStr recipient); ("message"%string, VStr (strip message))]
      | None => intent "whatsapp_contact" [("contact"%string, VStr recipient); ("message"%string, VStr (strip message))]
      end).

Definition QUEUE_SUFFIX : literal :=
  ("(?:^|\s+)(?:(?:en|dentro de|de)\s+(?:el\s+)?|"
   ++ "(?:en el|dentro del|del)\s+)"
   ++ "(?:lol|league(?: of legends)?)$")%string.

Definition _league_queue_intent (queue_text : pystr) : result (option ParsedIntent) :=
  let queue_text := strip queue_text in
  queue_text ← re_erase (u QUEUE_SUFFIX) queue_text;
  let queue_text := strip queue_text in
  queue_text ← re_erase (u "^(?:de|en)\s+") queue_text;
  let queue_text := strip queue_text in
  Ok (match dget queue_text _LEAGUE_QUEUE_ALIASES with
      | None => None
      | Some queue => Some (intent "league_search" [("queue"%string, VStr queue)])
      end).

Definition _league_wait_intent (seconds_text : option pystr) : result (option ParsedIntent) :=
  seconds ← match seconds_text with
            | None | Some [] => Ok 120
            | Some s => int_of_text s
            end;
  if (1 <=? seconds) && (seconds <=? 300)
  then Ok (Some (intent "league_wait" [("seconds"%string, VInt seconds)]))
  else Ok None.

(** ** Rules

    A rule sees the text and its folded form.  It returns [Some answer] when
    the parser returns at that point, [None] when it goes on. *)
Definition rule := pystr → pystr → result (option (option ParsedIntent)).

Definition answer (i : ParsedIntent) : result (option (option ParsedIntent)) := Ok (Some (Some i)).

(** [if normalized in {...}: return intent] *)
Definition phrases (set : list literal) (i : ParsedIntent) : rule := λ _ normalized,
  if one_of normalized set then answer i else Ok None.

(** [m = re.fullmatch(pattern, text, flags); if m: act] *)
Definition when_match (ignore_case : bool) (pattern : literal)
  (act : list (nat * pystr) → result (option (option ParsedIntent))) (text : pystr)
  : result (option (option ParsedIntent)) :=
  m ← re_fullmatch ignore_case (u pattern) text;
  match m with Some g => act g | None => Ok None end.
Definition on_original pattern act : rule := λ original _, when_match true pattern act original.
Definition on_normalized pattern act : rule := λ _ normalized, when_match false pattern act normalized.

(** [m.group(n)] where a method of [str] is called on it. *)
Definition group_text (n : nat) (g : list (nat * pystr)) : result pystr :=
  match group n g with Some w => Ok w | None => Raise AttributeError end.
(** [m.group(n)] as a value. *)
Definition group_value (n : nat) (g : list (nat * pystr)) : value :=
  match group n g with Some w => VStr w | None => VNone end.
(** [int(m.group(n))] *)
Definition group_int (n : nat) (g : list (nat * pystr)) : result Z :=
  match group n g with Some w => int_of_text w | None => Raise TypeError end.

(** [return ParsedIntent(tool, {name: m.group(1).strip()})] *)
Definition with_text (tool name : literal) : list (nat * pystr) → result (option (option ParsedIntent)) := λ g,
  w ← group_text 1 g; answer (intent tool [(name, VStr (strip w))]).
(** The same with a message in the second group. *)
Definition with_message (tool name : literal) : list (nat * pystr) → result (option (option ParsedIntent)) := λ g,
  w ← group_text 1 g; m ← group_text 2 g;
  answer (intent tool [(name, VStr (strip w)); ("message"%string, VStr (strip m))]).
(** [return _whatsapp_recipient_intent(m.group(1), m.group(2))] *)
Definition to_recipient : list (nat * pystr) → result (option (option ParsedIntent)) := λ g,
  w ← group_text 1 g; m ← group_text 2 g; i ← _whatsapp_recipient_intent w m; answer i.
(** [return _music_intent(m.group(1))] *)
Definition to_music : list (nat * pystr) → result (option (option ParsedIntent)) := λ g,
  w ← group_text 1 g; answer (_music_intent w).
(** [return ParsedIntent(tool, {"guild_id": m.group(a), "channel_id": m.group(b)})] *)
Definition to_channel (tool : literal) (guild channel : nat) : list (nat * pystr) → result (option (option ParsedIntent)) :=
  λ g, answer (intent tool [("guild_id"%string, group_value guild g); ("channel_id"%string, group_value channel g)]).
(** [return ParsedIntent(tool, {name: m.group(1)})] *)
Definition with_group (tool name : literal) : list (nat * pystr) → result (option (option ParsedIntent)) :=
  λ g, answer (intent tool [(name, group_value 1 g)]).
Arguments on_original pattern%_string_scope act.
Arguments on_normalized pattern%_string_scope act.
Arguments with_text (tool name)%_string_scope.
Arguments with_message (tool name)%_string_scope.
Arguments with_group (tool name)%_string_scope.
Arguments to_channel tool%_string_scope (guild channel)%_nat_scope.

Definition media_phrases : list rule := [
  phrases ["pausa"; "pausa la musica"; "pausa la cancion"; "pausa la pista"; "continua";
           "continua la musica"; "continua la cancion"; "continua la pista"; "reanuda";
           "reanuda la musica"; "reanuda la cancion"; "reanuda la pista"; "reproduce";
           "reproduce la cancion"; "reproduce la cancion seleccionada"; "reproduce la pista";
           "reproduce la pista seleccionada"; "reproduce la seleccion";
           "reproduce la cancion elegida"; "reproduce el tema seleccionado";
           "pon la cancion seleccionada"; "pon la cancion elegida"; "pon la cancion"; "dale al play";
           "dale play"]%string
    (intent "media_action" [("action"%string, VStr (u "play_pause"))]);
  phrases ["para la musica"; "para la cancion"; "para la pista"; "deten la musica";
           "deten la cancion"; "deten la pista"; "deten la reproduccion"]%string
    (intent "media_action" [("action"%string, VStr (u "stop"))]);
  phrases ["siguiente cancion"; "siguiente"]%string
    (intent "media_action" [("action"%string, VStr (u "next"))]);
  phrases ["cancion anterior"; "anterior"]%string
    (intent "media_action" [("action"%string, VStr (u "previous"))])].

Definition device_phrases : list rule := [
  phrases ["estado del ordenador"; "estado del pc"; "estado del sistema"]%string
    (intent "system_status" []);
  phrases ["estado de integraciones"; "estado de las integraciones"; "que integraciones hay";
           "qué integraciones hay"; "integraciones disponibles"]%string
    (intent "integration_status" []);
  phrases ["estado de bateria"; "nivel de bateria"; "estado de la bateria"]%string
    (intent "system_power" []);
  phrases ["estado de red"; "estado de la red"; "estado de internet"]%string
    (intent "system_network" []);
  phrases ["silencia el ordenador"; "silencia el pc"; "quita el sonido"]%string
    (intent "audio_mute" []);
  phrases ["activa el sonido"; "activa el audio"; "quita el silencio"]%string
    (intent "audio_unmute" []);
  phrases ["bloquea el pc"; "bloquea el ordenador"; "bloquear el pc"]%string
    (intent "system_lock" []);
  phrases ["abre discord"; "abrir discord"]%string
    (intent "discord_open_app" []);
  phrases ["llama a discord"; "llamar a discord"]%string
    (intent "discord_open_app" []);
  phrases ["abre whatsapp"; "abrir whatsapp"; "abre whatsapp web"; "abrir whatsapp web";
           "abre un whatsapp"; "abrir un whatsapp"]%string
    (intent "whatsapp_open" [])].

Definition open_phrases : list rule := [
  phrases ["abre apple music"; "abrir apple music"; "abre musica"; "abrir musica"]%string
    (intent "music_open" []);
  phrases ["abre league"; "abrir league"; "abre league of legends"; "abrir league of legends";
           "abre lol"; "abrir lol"]%string
    (intent "league_open" []);
  phrases ["abre codex"; "abrir codex"]%string
    (intent "open_codex" [])].

Definition configured_app : rule := on_original
  "(?:abre|abrir) (?:(?:la|una) )?(?:aplicaci[oó]n|app)(?: configurada)? (.+)"
  (with_text "open_app" "app").

Definition whatsapp_compose : rule := on_original
  ("(?:prepara|abre|escribe en|manda|env[ií]a)(?: un)? whatsapp "
   ++ "(?:para|a) ([+\d][\d\s().-]{6,24}) "
   ++ "(?:y dile|dile|con el mensaje|diciendo|que diga) (.+)")%string
  (with_message "whatsapp_compose" "phone").

Definition whatsapp_colon_direct : rule := on_original
  ("(?:prepara|abre|escribe en|manda|env[ií]a)(?: un)? whatsapp "
   ++ "(?:para|a|con) ([^:]+?)\s*:\s*(.+)")%string
  to_recipient.

Definition whatsapp_colon_message : rule := on_original
  ("(?:manda|env[ií]a|escribe)(?: un)? mensaje (?:para|a) (.+?) "
   ++ "(?:por|en|de) whatsapp\s*:\s*(.+)")%string
  to_recipient.

Definition whatsapp_colon_service : rule := on_original
  ("(?:prepara|abre|escribe(?:le)?|manda|env[ií]a) (?:para|a) (.+?) "
   ++ "(?:por|en|de) whatsapp\s*:\s*(.+)")%string
  to_recipient.

Definition whatsapp_message_colon : rule := on_original
  ("(?:prepara|abre|escribe|manda|env[ií]a)(?: un)? mensaje "
   ++ "(?:de|por|en) whatsapp (?:para|a) (.+?)\s*:\s*(.+)")%string
  to_recipient.

Definition whatsapp_open_and_write_colon : rule := on_original
  ("(?:abre|abrir) (?:el )?whatsapp y (?:escribe|dile) (?:a|para) "
   ++ "(.+?)\s*:\s*(.+)")%string
  to_recipient.

Definition whatsapp_message : rule := on_original
  ("(?:manda|env[ií]a|escribe)(?: un)? mensaje (?:para|a) "
   ++ "([+\d][\d\s().-]{6,24}) (?:por|en|de) whatsapp "
   ++ "(?:y dile|dile|con el mensaje|diciendo|que diga) (.+)")%string
  (with_message "whatsapp_compose" "phone").

Definition whatsapp_message_prefix : rule := on_original
  ("(?:manda|env[ií]a|escribe)(?: un)? mensaje (?:por|en|de) whatsapp "
   ++ "(?:para|a) ([+\d][\d\s().-]{6,24}) "
   ++ "(?:y dile|dile|con el mensaje|diciendo|que diga) (.+)")%string
  (with_message "whatsapp_compose" "phone").

Definition whatsapp_message_service_first_phone : rule := on_original
  ("(?:manda|env[ií]a|escribe)(?: un)? mensaje (?:de|por|en) whatsapp "
   ++ "(?:para|a) ([+\d][\d\s().-]{6,24}) "
   ++ "(?:y dile|dile|con el mensaje|diciendo|que diga) (.+)")%string
  (with_message "whatsapp_compose" "phone").

Definition whatsapp_message_service_first_contact : rule := on_original
  ("(?:manda|env[ií]a|escribe)(?: un)? mensaje (?:de|por|en) whatsapp "
   ++ "(?:para|a) (.+?) (?:y dile|dile|con el mensaje|diciendo|que diga) (.+)")%string
  (with_message "whatsapp_contact" "contact").

Definition whatsapp_contact_alternative : rule := on_original
  ("(?:prepara|abre|escribe(?:le)?|manda|env[ií]a) (?:para|a) (.+?) "
   ++ "(?:por|en|de) whatsapp (?:y dile|dile|con el mensaje|diciendo|que diga) (.+)")%string
  (with_message "whatsapp_contact" "contact").

Definition whatsapp_contact_message : rule := on_original
  ("(?:manda|env[ií]a|escribe)(?: un)? mensaje (?:para|a) (.+?) "
   ++ "(?:por|en|de) whatsapp (?:y dile|dile|con el mensaje|diciendo|que diga) (.+)")%string
  (with_message "whatsapp_contact" "contact").

Definition whatsapp_contact_message_prefix : rule := on_original
  ("(?:manda|env[ií]a|escribe)(?: un)? mensaje (?:por|en|de) whatsapp "
   ++ "(?:para|a) (.+?) (?:y dile|dile|con el mensaje|diciendo|que diga) (.+)")%string
  (with_message "whatsapp_contact" "contact").

Definition whatsapp_contact : rule := on_original
  ("(?:prepara|abre|escribe en|manda|env[ií]a)(?: un)? whatsapp (?:para|a|con) (.+?) "
   ++ "(?:y dile|y escribe|dile|con el mensaje|diciendo|que diga) (.+)")%string
  (with_message "whatsapp_contact" "contact").

Definition whatsapp_chat_open : rule := on_original
  "(?:abre|abrir) (?:el )?chat de (.+?) (?:en|por) whatsapp"
  (with_text "whatsapp_contact_open" "contact").

Definition whatsapp_phone_open : rule := on_original
  "(?:abre|abrir) (?:el )?whatsapp (?:para|a) ([+\d][\d\s().-]{6,24})"
  (with_text "whatsapp_phone_open" "phone").

Definition whatsapp_contact_open : rule := on_original
  "(?:abre|abrir) (?:el )?whatsapp (?:para|a) (.+)"
  (with_text "whatsapp_contact_open" "contact").

Definition discord_call_contact : rule := on_original
  ("(?:(?:quiero|puedes) )?(?:llama(?:r)?|haz una llamada|inicia(?:r)? una llamada|empieza(?:r)? una llamada) "
   ++ "(?:a|con) (?:el )?(.+?) (?:por|en|de) discord")%string
  (with_text "discord_call" "contact").

Definition discord_call_contact_prefix : rule := on_original
  ("(?:(?:quiero|puedes) )?(?:llama(?:r)?|haz una llamada|inicia(?:r)? una llamada|empieza(?:r)? una llamada) "
   ++ "(?:por|en|de) discord (?:a|al|con) (.+)")%string
  (with_text "discord_call" "contact").

Definition discord_call_contact_service_first : rule := on_original
  ("(?:(?:quiero|puedes) )?(?:llama(?:r)?|haz una llamada|inicia(?:r)? una llamada|"
   ++ "empieza(?:r)? una llamada) a discord (?:a|al|con) (.+)")%string
  (with_text "discord_call" "contact").

Definition discord_call_contact_flexible : rule := on_original
  ("(?:(?:quiero|puedes) )?(?:llama(?:r)?|haz una llamada|"
   ++ "inicia(?:r)?(?: una)? llamada|empieza(?:r)?(?: una)? llamada) "
   ++ "(?:a|con) (?:el )?(.+?) (?:por|en|de) discord(?: (?:ahora|por favor))?")%string
  (with_text "discord_call" "contact").

Definition discord_call_server_channel_suffix : rule := on_normalized
  ("(?:llama(?:r)?|haz una llamada) (?:al|a(?:l)? )?(?:canal )?([0-9]{17,20}) "
   ++ "(?:del|de|en el) (?:servidor|guild) ([0-9]{17,20}) (?:por|en|de) discord")%string
  (to_channel "discord_call_channel" 2 1).

Definition discord_call_channel_suffix : rule := on_normalized
  ("(?:llama(?:r)?|haz una llamada) (?:al|a(?:l)? )?(?:canal )?([0-9]{17,20}) "
   ++ "(?:por|en|de) discord")%string
  (with_group "discord_call_channel" "channel_id").

Definition discord_open_server_channel_suffix : rule := on_normalized
  ("(?:abre|abrir) (?:el )?(?:canal )?([0-9]{17,20}) "
   ++ "(?:del|de|en el) (?:servidor|guild) ([0-9]{17,20}) (?:por|en|de) discord")%string
  (to_channel "discord_open" 2 1).

Definition discord_open_channel_suffix : rule := on_normalized
  "(?:abre|abrir) (?:el )?(?:canal )?([0-9]{17,20}) (?:por|en|de) discord"
  (with_group "discord_open" "channel_id").

Definition discord_channel_contact : rule := on_original
  "(?:abre|abrir) (?:el )?canal de (.+?) (?:por|en|de) discord"
  (with_text "discord_contact" "contact").

Definition discord_chat_contact : rule := on_original
  "(?:abre|abrir) (?:el )?chat de (.+?) (?:por|en|de) discord"
  (with_text "discord_contact" "contact").

Definition discord_contact_short : rule := on_original
  "(?:abre|abrir) discord (?:a|al|con|para) (.+)"
  (with_text "discord_contact" "contact").

Definition discord_call_server_channel : rule := on_normalized
  ("llama(?:r)? (?:a |al )?(?:canal )?discord (?:servidor|guild) ([0-9]{17,20}) "
   ++ "(?:canal )?([0-9]{17,20})")%string
  (to_channel "discord_call_channel" 1 2).

Definition discord_call_channel : rule := on_normalized
  "llama(?:r)? (?:a |al )?(?:canal )?discord (?:canal )?([0-9]{17,20})"
  (with_group "discord_call_channel" "channel_id").

Definition discord_contact : rule := on_original
  "abre (?:el )?(.+?) (?:por|en|de) discord"
  (with_text "discord_contact" "contact").

Definition discord_server_channel : rule := on_normalized
  ("(?:abre|abrir|llama a) (?:el )?discord (?:servidor|guild) ([0-9]{17,20}) "
   ++ "(?:canal )?([0-9]{17,20})")%string
  (to_channel "discord_open" 1 2).

Definition discord_channel : rule := on_normalized
  "(?:abre|abrir|llama a) (?:el )?(?:canal )?discord (?:canal )?([0-9]{17,20})"
  (with_group "discord_open" "channel_id").

Definition league_cancel : rule := on_normalized
  ("cancela(?: (?:la|el))? (?:busqueda|cola|matchmaking)"
   ++ "(?:(?: de(?:l)?| en el) (?:league|lol))?")%string
  (λ _, answer (intent "league_cancel" [])).

Definition league_queue_status : rule := on_normalized
  ("estado de la cola"
   ++ "(?:(?: de(?:l)?| en el) (?:league|lol))?")%string
  (λ _, answer (intent "league_search_status" [])).

Definition league_status_phrases : list rule := [
  phrases ["estado de busqueda de league"; "estado de busqueda de lol";
           "estado de matchmaking de league"]%string
    (intent "league_search_status" []);
  phrases ["estado de league"; "estado de la partida"; "estado de busqueda"; "estado del matchmaking";
           "estado de matchmaking"]%string
    (intent "league_status" [])].

Definition timer_list : rule := λ _ normalized,
  m ← re_fullmatch false (u "(?:lista|muestra|ensena|enseña) (?:los )?temporizadores(?: activos)?") normalized;
  if (match m with Some _ => true | None => one_of normalized ["temporizadores"; "temporizadores activos"]%string end)
  then answer (intent "timer_list" []) else Ok None.

Definition timer_cancel : rule := on_original
  "(?:cancela|elimina) (?:el )?temporizador ([A-Za-z0-9_-]{1,32})"
  (with_group "timer_cancel" "timer_id").

Definition open_url : rule := on_original
  "(?:abre|abrir) (?:(?:la|una) )?(?:url|enlace)(?: validada)? (https?://\S+)"
  (with_group "open_url" "url").

Definition media_action : rule := on_normalized
  "control multimedia (play_pause|next|previous|stop)"
  (with_group "media_action" "action").

Definition search : rule := on_original
  ("(?:b(?:u|ú)sca(?:me)?|buscar|consulta)(?: en| por)? "
   ++ "(?:internet|la web|web|online|google) (.+)")%string
  (with_text "web_search" "query").

Definition search_suffix : rule := on_original
  ("(?:b(?:u|ú)sca(?:me)?|buscar|consulta) (.+) "
   ++ "(?:en|por) (?:internet|la web|web|online|google)")%string
  (with_text "web_search" "query").

Definition search_subject : rule := on_original
  ("(?:b(?:u|ú)sca(?:me)?|buscar|consulta) algo (?:en|por) "
   ++ "(?:internet|la web|web|online|google) "
   ++ "(?:(?:sobre|acerca de|de) )?(.+)")%string
  (with_text "web_search" "query").

Definition music_open_phrases : list rule := [
  phrases ["busca musica"; "buscar musica"; "busca la musica"; "buscar la musica";
           "busca una cancion"; "buscar una cancion"; "busca la cancion"; "buscar la cancion"]%string
    (intent "music_open" [])].

Definition music_search : rule := on_original
  "(?:b(?:u|ú)sca(?:me)?|buscar) (?:en )?(?:apple music|música|musica) (.+)"
  to_music.

Definition music_search_natural : rule := on_original
  ("(?:b(?:u|ú)sca(?:me)?|buscar) (?:la )?m[uú]sica (?:de )?"
   ++ "(.+?)(?: en (?:apple music|m[uú]sica|musica))?")%string
  to_music.

Definition music_request : rule := on_original
  ("(?:pon(?:me)?|reproduce|reproducir) "
   ++ "(?:(?:(?:la|el|una|un) )?(?:canci[oó]n|tema)(?: de )?)?"
   ++ "(.+?) (?:en )?apple music")%string
  to_music.

Definition music_request_natural : rule := on_original
  ("(?:pon(?:me)?|reproduce|reproducir) (?:la )?m[uú]sica (?:de )?"
   ++ "(.+?)(?: en (?:apple music|m[uú]sica|musica))?")%string
  to_music.

Definition SELECTED : list literal := ["seleccionada"; "seleccionado"; "elegida"; "elegido"]%string.

Definition music_request_without_service : rule := on_original
  ("(?:pon(?:me)?|reproduce|reproducir) "
   ++ "(?:(?:(?:la|el|una|un) )?(?:canci[oó]n|tema)(?: de )?)"
   ++ "(.+)")%string
  (λ g,
    w ← group_text 1 g;
    let term := _clean_music_term w in
    if one_of (casefold_text term) SELECTED then Ok None else answer (_music_intent term)).

(** A term that names the selected song plays it; another is searched. *)
Definition to_selected (g : list (nat * pystr)) : result (option (option ParsedIntent)) :=
  w ← group_text 1 g;
  let term := _clean_music_term w in
  if one_of (casefold_text term) SELECTED then answer (intent "media_action" [("action"%string, VStr (u "play_pause"))])
  else answer (_music_intent term).

Definition music_deictic : rule := on_original
  ("(?:pon(?:me)?|reproduce|reproducir) la de (.+?)"
   ++ "(?: en (?:apple music|m[uú]sica|musica))?")%string
  to_selected.

Definition music_listen : rule := on_original
  ("(?:quiero|me gustaría|me gustaria) escuchar "
   ++ "(?:(?:la|una) )?(?:(?:canci[oó]n|tema) de )?(.+?)"
   ++ "(?: en (?:apple music|m[uú]sica|musica))?")%string
  to_selected.

Definition song_search : rule := on_original
  ("(?:b(?:u|ú)sca(?:me)?|buscar) (?:(?:la|una) )?(?:canción|cancion|tema) (?:de )?"
   ++ "(.+?)(?: en (?:apple music|música|musica))?")%string
  (λ g, w ← group_text 1 g; answer (_music_intent (strip w))).

Definition music_search_suffix : rule := on_original
  "(?:b(?:u|ú)sca(?:me)?|buscar) (.+?) (?:en )?(?:apple music|m[uú]sica|musica)"
  to_music.

Definition league_wait : rule := on_normalized
  ("(?:espera|avisame|avisa(?:me)?) (?:a que|cuando) "
   ++ "(?:(?:el )?(?:league|lol) )?(?:encuentre|aparezca|salga) "
   ++ "(?:una )?(?:partida|match)(?: durante (\d{1,3}) segundos?)?")%string
  (λ g, i ← _league_wait_intent (group 1 g); Ok (Some i)).

Definition league_search_pattern : literal :=
  ("(?:(?:quiero(?: que)? )?(?:busca(?:me)?|buscar|encuentra|inicia(?:r)?|empieza(?:r)?|comienza(?:r)?|juega|jugar)) "
   ++ "(?:una )?(?:partida|busqueda(?: de partida)?)(?: (.+))?")%string.
Definition league_enter_pattern : literal :=
  "(?:ponme|meteme|entra(?:r)?) en cola(?: de)?(?: (.+))?"%string.
Definition league_matchmaking_pattern : literal :=
  "(?:inicia|empieza|comienza) (?:el )?matchmaking(?: (?:en|de))?(?: (.+))?"%string.

(** The first of the three patterns that matches; an unknown queue goes on. *)
Definition league_search : rule := λ _ normalized,
  m ← re_fullmatch false (u league_search_pattern) normalized;
  m ← match m with Some g => Ok (Some g) | None => re_fullmatch false (u league_enter_pattern) normalized end;
  m ← match m with Some g => Ok (Some g) | None => re_fullmatch false (u league_matchmaking_pattern) normalized end;
  match m with
  | Some g =>
    parsed_queue ← _league_queue_intent (default [] (group 1 g));
    Ok (match parsed_queue with Some i => Some (Some i) | None => None end)
  | None => Ok None
  end.

Definition volume : rule := on_normalized
  "(?:pon|ajusta) el volumen (\d{1,3})"
  (λ g, n ← group_int 1 g; answer (intent "audio_volume" [("percent"%string, VInt n)])).

Definition timer_seconds : rule := on_normalized
  "(?:crea|crear) (?:un )?temporizador (\d+)"
  (λ g, n ← group_int 1 g;
    answer (intent "timer_create" [("seconds"%string, VInt n); ("label"%string, VStr (u "Pipα timer"))])).

Definition timer : rule := on_normalized
  "temporizador de (\d+) minutos?"
  (λ g, n ← group_int 1 g;
    answer (intent "timer_create" [("seconds"%string, VInt (n * 60)); ("label"%string, VStr (u "Pipα timer"))])).

Definition configured_process : rule := on_original
  ("(?:abre|abrir|inicia|iniciar|ejecuta|ejecutar) "
   ++ "(?:(?:el|la|un|una) )?(?:(?:proceso|programa|app|aplicaci[oó]n) )?(.+)")%string
  (with_text "open_app" "app").

(** The sequence of the parser. *)
Definition rules : list rule :=
  media_phrases
  ++ device_phrases
  ++ open_phrases
  ++ [configured_app; whatsapp_compose; whatsapp_colon_direct; whatsapp_colon_message; whatsapp_colon_service;
   whatsapp_message_colon; whatsapp_open_and_write_colon; whatsapp_message; whatsapp_message_prefix;
   whatsapp_message_service_first_phone; whatsapp_message_service_first_contact;
   whatsapp_contact_alternative; whatsapp_contact_message; whatsapp_contact_message_prefix;
   whatsapp_contact; whatsapp_chat_open; whatsapp_phone_open; whatsapp_contact_open; discord_call_contact;
   discord_call_contact_prefix; discord_call_contact_service_first; discord_call_contact_flexible;
   discord_call_server_channel_suffix; discord_call_channel_suffix; discord_open_server_channel_suffix;
   discord_open_channel_suffix; discord_channel_contact; discord_chat_contact; discord_contact_short;
   discord_call_server_channel; discord_call_channel; discord_contact; discord_server_channel;
   discord_channel; league_cancel; league_queue_status]
  ++ league_status_phrases
  ++ [timer_list; timer_cancel; open_url; media_action; search; search_suffix; search_subject]
  ++ music_open_phrases
  ++ [music_search; music_search_natural; music_request; music_request_natural; music_request_without_service;
   music_deictic; music_listen; song_search; music_search_suffix; league_wait; league_search; volume;
   timer_seconds; timer; configured_process].

(** The first rule that answers. *)
Fixpoint first_answer (l : list rule) (original normalized : pystr) : result (option ParsedIntent) :=
  match l with
  | [] => Ok None
  | r :: l' =>
    d ← r original normalized;
    match d with Some i => Ok i | None => first_answer l' original normalized end
  end.

Definition original_text (text : pystr) : pystr := join_words (split_words (strip text)).

Definition parse_text_intent (text : pystr) : result (option ParsedIntent) :=
  let original := original_text text in
  let normalized := _fold_phrase original in
  if negb (nonempty normalized) then Ok None else first_answer rules original normalized.
End Intents.
Arguments intent tool%_string_scope arguments.
Arguments with_text (tool name)%_string_scope.
Arguments with_message (tool name)%_string_scope.
Arguments with_group (tool name)%_string_scope.
Arguments to_channel tool%_string_scope (guild channel)%_nat_scope.
