(* ===== verification/IntentFacts.v ===== *)
(** * What the intent adapter promises

    Every text the Core accepts gets an answer, and the answer is a call of one
    of a fixed set of tools with arguments of a fixed shape: pieces of the
    text, identifiers of 17 to 20 digits, bounded numbers.  The parsers form
    the instance of the interface [IntentParser] of the Core. *)
From S2P Require Import Prelude Dict Value TextPolicy PyText Regex Core Intents.

(** A verbatim part of a text. *)
Definition piece (text w : pystr) : Prop := ∃ x y, text = x ++ w ++ y.

Lemma piece_trans a b c : piece a b → piece b c → piece a c.
Proof. intros (x & y & ->) (v & z & ->). exists (x ++ v), (z ++ y). by rewrite <- !app_assoc. Qed.
Lemma piece_strip a w : piece a w → piece a (strip w).
Proof. intros Hw. eapply piece_trans; [done|]. destruct (strip_segment w) as (p & q & Hs). by exists p, q. Qed.
Lemma piece_drop a w n : piece a w → piece a (drop n w).
Proof. intros Hw. eapply piece_trans; [done|]. exists (take n w), []. by rewrite app_nil_r, take_drop. Qed.

#[export] Hint Resolve piece_strip piece_drop : pipa.

(** Membership in a list that is written out. *)
Ltac listed := cbv; repeat first [apply list_elem_of_here | apply list_elem_of_further].

(** Calls without arguments. *)
Definition PLAIN_TOOLS : list literal :=
  ["system_status"; "integration_status"; "system_power"; "system_network"; "audio_mute"; "audio_unmute";
   "system_lock"; "discord_open_app"; "whatsapp_open"; "music_open"; "league_open"; "open_codex";
   "league_cancel"; "league_search_status"; "league_status"; "timer_list"]%string.
(** Calls with one argument, a piece of the text. *)
Definition TEXT_TOOLS : list (literal * literal) :=
  [("open_app", "app"); ("whatsapp_contact_open", "contact"); ("discord_call", "contact");
   ("discord_contact", "contact"); ("web_search", "query"); ("music_search", "term")]%string.
Definition MEDIA_ACTIONS : list literal := ["play_pause"; "next"; "previous"; "stop"]%string.
Definition LEAGUE_QUEUES : list literal :=
  ["normal_draft"; "ranked_solo"; "ranked_flex"; "aram"; "swiftplay"]%string.
Definition CHANNEL_TOOLS : list literal := ["discord_open"; "discord_call_channel"]%string.

Definition snowflake (w : pystr) : Prop := Forall (λ c, ascii_digit c = true) w ∧ 17 <= len w <= 20.
Definition phone_char `{UnicodeText} (c : Z) : Prop :=
  c = 43 ∨ is_decimal c = true ∨ is_space c = true ∨ c ∈ u "().-".
Definition phone_text `{UnicodeText} (w : pystr) : Prop := Forall phone_char w ∧ len w <= 25.

Section Facts.
Context `{T : UnicodeText} {HT : UnicodeTextLaws T}.

(** The calls the parser may make of a text. *)
Inductive intent_ok (text : pystr) : ParsedIntent → Prop :=
| plain_ok tool : tool ∈ PLAIN_TOOLS → intent_ok text (intent tool [])
| text_ok tool name w : (tool, name) ∈ TEXT_TOOLS → piece text w → intent_ok text (intent tool [(name, VStr w)])
| contact_ok w m : piece text w → piece text m →
    intent_ok text (intent "whatsapp_contact" [("contact"%string, VStr w); ("message"%string, VStr m)])
| compose_ok w m : piece text w → phone_text w → piece text m →
    intent_ok text (intent "whatsapp_compose" [("phone"%string, VStr w); ("message"%string, VStr m)])
| phone_ok w : piece text w → phone_text w → intent_ok text (intent "whatsapp_phone_open" [("phone"%string, VStr w)])
| media_ok action : action ∈ MEDIA_ACTIONS → intent_ok text (intent "media_action" [("action"%string, VStr (u action))])
| channel_ok tool c : tool ∈ CHANNEL_TOOLS → snowflake c → intent_ok text (intent tool [("channel_id"%string, VStr c)])
| guild_ok tool g c : tool ∈ CHANNEL_TOOLS → snowflake g → snowflake c →
    intent_ok text (intent tool [("guild_id"%string, VStr g); ("channel_id"%string, VStr c)])
| url_ok w : piece text w → Forall (λ c, is_space c = false) w → intent_ok text (intent "open_url" [("url"%string, VStr w)])
| timer_id_ok w : piece text w → 1 <= len w <= 32 → intent_ok text (intent "timer_cancel" [("timer_id"%string, VStr w)])
| queue_ok queue : queue ∈ LEAGUE_QUEUES → intent_ok text (intent "league_search" [("queue"%string, VStr (u queue))])
| wait_ok n : 1 <= n <= 300 → intent_ok text (intent "league_wait" [("seconds"%string, VInt n)])
| volume_ok n : 0 <= n <= 999 → intent_ok text (intent "audio_volume" [("percent"%string, VInt n)])
| timer_ok n : 0 <= n →
    intent_ok text (intent "timer_create" [("seconds"%string, VInt n); ("label"%string, VStr (u "Pipα timer"))]).

(** ** Patterns *)

Definition sure (pattern : literal) (n : nat) : bool :=
  match compile (u pattern) with Some r => closes n r | None => false end.
Definition group_bodies (pattern : literal) (n : nat) : list regex :=
  match compile (u pattern) with Some r => bodies n r | None => [] end.
Definition well_formed (pattern : literal) : bool :=
  match compile (u pattern) with Some _ => true | None => false end.

Lemma re_fullmatch_total ic pattern text : well_formed pattern = true → ∃ m, re_fullmatch ic (u pattern) text = Ok m.
Proof using Type. unfold well_formed, re_fullmatch. destruct (compile (u pattern)); [by eexists|done]. Qed.

Lemma sure_well_formed pattern n : sure pattern n = true → well_formed pattern = true.
Proof using Type. unfold sure, well_formed. by destruct (compile (u pattern)). Qed.

(** What is known of a group of a match. *)
Lemma matched_group ic pattern text g n w :
  re_fullmatch ic (u pattern) text = Ok (Some g) → group n g = Some w →
  piece text w ∧ ∃ b, b ∈ group_bodies pattern n ∧ consumes ic b w.
Proof using Type.
  unfold re_fullmatch, group_bodies. destruct (compile (u pattern)) as [r|]; [|done].
  intros [= Hm] Hg. by destruct (group_holds _ _ _ _ _ _ Hm Hg) as [Hb Hp].
Qed.

Lemma matched_sure ic pattern text g n :
  re_fullmatch ic (u pattern) text = Ok (Some g) → sure pattern n = true → ∃ w, group n g = Some w.
Proof using Type.
  unfold re_fullmatch, sure. destruct (compile (u pattern)) as [r|]; [|done].
  intros [= Hm] Hs. by eapply group_defined.
Qed.

(** The text of group [n], with the one expression the group has. *)
Lemma matched_body ic pattern text g n b :
  re_fullmatch ic (u pattern) text = Ok (Some g) → sure pattern n = true → group_bodies pattern n = [b] →
  ∃ w, group n g = Some w ∧ piece text w ∧ consumes ic b w.
Proof using Type.
  intros Hm Hs Hb. destruct (matched_sure _ _ _ _ _ Hm Hs) as [w Hw].
  destruct (matched_group _ _ _ _ _ _ Hm Hw) as (Hp & b' & Hin & Hc).
  rewrite Hb in Hin. apply list_elem_of_singleton in Hin as ->. by exists w.
Qed.

Lemma matched_text ic pattern text g n :
  re_fullmatch ic (u pattern) text = Ok (Some g) → sure pattern n = true → ∃ w, group n g = Some w ∧ piece text w.
Proof using Type.
  intros Hm Hs. destruct (matched_sure _ _ _ _ _ Hm Hs) as [w Hw]. exists w. split; [done|].
  by apply (matched_group _ _ _ _ _ _ Hm Hw).
Qed.

(** *** The expressions of the groups that are not free text *)

Definition phone_body : regex :=
  Seq (Chr (Set_ false [One 43; Decimal]))
      (Rep true 6 (Some 24%nat) (Set_ false [Decimal; Space; One 40; One 41; One 46; One 45])).
Definition snowflake_body : regex := Rep true 17 (Some 20%nat) (Set_ false [Range 48 57]).
Definition digits_body (hi : option nat) : regex := Rep true 1 hi (Set_ false [Decimal]).
Definition literal_body (l : literal) : regex := sequence ((λ c, Chr (Lit c)) <$> u l).
Arguments literal_body l%_string_scope.

(** A character without case matches itself only. *)
Lemma one_match ic a c :
  is_ascii a = true → ascii_alpha a = false → item_match ic (One a) c = true → c = a.
Proof using HT.
  intros Ha Hn. unfold item_match. destruct ic; [|lia]. intros [Hc|[_ Hc]%andb_true_iff]%orb_true_iff.
  - unfold lower_ascii, ascii_alpha, ascii_upper, ascii_lower, is_ascii in *. repeat case_match; lia.
  - apply (case_alike_letter a c Ha) in Hc as [Hc _]. congruence.
Qed.

Lemma phone_body_char ic c :
  existsb (λ i, item_match ic i c) [Decimal; Space; One 40; One 41; One 46; One 45] = true ∨
  existsb (λ i, item_match ic i c) [One 43; Decimal] = true → phone_char c.
Proof using HT.
  unfold phone_char. intros [Hc|Hc]; apply existsb_exists in Hc as (i & Hi & Hc); cbn [In] in Hi;
    repeat destruct Hi as [<-|Hi]; try done;
    first [by right; left | by right; right; left | apply one_match in Hc as ->; [|done|done]];
    [right; right; right; apply (bool_decide_unpack _); by vm_compute..|by left].
Qed.

Lemma consumes_phone ic w : consumes ic phone_body w → phone_text w.
Proof using HT.
  intros (v & x & -> & (c & -> & Hc)%consumes_chr & (Hx & _ & Hhi)%consumes_rep)%consumes_seq.
  split.
  - constructor; [apply (phone_body_char ic); by right|].
    eapply Forall_impl; [exact Hx|]. intros d Hd. apply (phone_body_char ic). by left.
  - specialize (Hhi _ eq_refl). unfold len. cbn [length app]. lia.
Qed.

Lemma consumes_snowflake w : consumes false snowflake_body w → snowflake w.
Proof using Type.
  intros (Hw & Hlo & Hhi)%consumes_rep. specialize (Hhi _ eq_refl). split; [|unfold len; lia].
  eapply Forall_impl; [exact Hw|]. intros c Hc. cbn in Hc. by rewrite orb_false_r in Hc.
Qed.

Lemma consumes_digits ic hi w :
  consumes ic (digits_body hi) w →
  w ≠ [] ∧ Forall (λ c, is_decimal c = true) w ∧ ∀ m, hi = Some m → (length w <= m)%nat.
Proof using Type.
  intros (Hw & Hlo & Hhi)%consumes_rep. split_and!; [by destruct w; cbn in *; [lia|]| |done].
  eapply Forall_impl; [exact Hw|]. intros c Hc. cbn in Hc. by rewrite orb_false_r in Hc.
Qed.

Lemma consumes_letters l w : consumes false (sequence ((λ c, Chr (Lit c)) <$> l)) w → w = l.
Proof using Type.
  revert w. induction l as [|c l IH]; intros w; [apply consumes_empty|].
  assert (∀ v, consumes false (Chr (Lit c)) v → v = [c]) as Hone.
  { intros v (d & -> & Hd)%consumes_chr. cbn in Hd. f_equal. lia. }
  destruct l as [|c' l]; [apply Hone|].
  intros (v & x & -> & Hv%Hone & Hx%IH)%consumes_seq. by subst.
Qed.

(** ** Rules *)

(** What a rule may do with a text: go on, refuse, or make a call. *)
Definition good (text : pystr) (d : result (option (option ParsedIntent))) : Prop :=
  ∃ o, d = Ok o ∧ ∀ i, o = Some (Some i) → intent_ok text i.

Definition rule_ok (r : rule) : Prop := ∀ original normalized,
  count_digits normalized <= 4300 → good original (r original normalized).

Lemma good_on text : good text (Ok None).
Proof using Type. by eexists. Qed.
Lemma good_answer text i : intent_ok text i → good text (answer i).
Proof using Type. intros Hi. eexists. split; [done|]. by intros ? [= <-]. Qed.

Lemma phrases_ok set i : (∀ text, intent_ok text i) → rule_ok (phrases set i).
Proof using Type.
  intros Hi original normalized _. unfold phrases. destruct (one_of normalized set); [by apply good_answer|apply good_on].
Qed.

Lemma when_match_ok ic pattern act text original :
  well_formed pattern = true →
  (∀ g, re_fullmatch ic (u pattern) text = Ok (Some g) → good original (act g)) →
  good original (when_match ic pattern act text).
Proof using Type.
  intros Hw Hact. unfold when_match, mbind, result_bind.
  destruct (re_fullmatch_total ic pattern text Hw) as [[g|] Hm]; rewrite Hm; [by apply Hact|apply good_on].
Qed.

Lemma on_original_ok pattern act :
  well_formed pattern = true →
  (∀ text g, re_fullmatch true (u pattern) text = Ok (Some g) → good text (act g)) →
  rule_ok (on_original pattern act).
Proof using Type.
  intros Hw Hact original normalized _. apply when_match_ok; [done|]. by apply Hact.
Qed.

Lemma on_normalized_ok pattern act :
  well_formed pattern = true →
  (∀ original text g, count_digits text <= 4300 →
    re_fullmatch false (u pattern) text = Ok (Some g) → good original (act g)) →
  rule_ok (on_normalized pattern act).
Proof using Type. intros Hw Hact original normalized Hd. apply when_match_ok; [done|]. intros g. by apply Hact. Qed.

Ltac group_step H :=
  match type of H with ∃ w, group ?n ?g = Some w ∧ _ => destruct H as (? & H & ?) end.

Lemma group_text_bind text n g (k : pystr → result (option (option ParsedIntent))) w :
  group n g = Some w → good text (k w) → good text (w ← group_text n g; k w).
Proof using Type. unfold group_text, mbind, result_bind. by intros ->. Qed.

Lemma with_text_ok pattern tool name :
  sure pattern 1 = true → (tool, name) ∈ TEXT_TOOLS → rule_ok (on_original pattern (with_text tool name)).
Proof using Type.
  intros Hs Hin. apply on_original_ok; [by eapply sure_well_formed|]. intros text g Hm.
  destruct (matched_text _ _ _ _ _ Hm Hs) as (w & Hw & Hp).
  eapply group_text_bind; [done|]. apply good_answer. apply text_ok; auto with pipa.
Qed.

Lemma phone_text_strip w : phone_text w → phone_text (strip w).
Proof using Type. intros [Hf Hl]. split; [by apply strip_Forall|]. pose proof (len_strip_le w). lia. Qed.

Lemma with_phone_message_ok pattern :
  sure pattern 1 = true → sure pattern 2 = true → group_bodies pattern 1 = [phone_body] →
  rule_ok (on_original pattern (with_message "whatsapp_compose" "phone")).
Proof using HT.
  intros H1 H2 Hb. apply on_original_ok; [by eapply sure_well_formed|]. intros text g Hm.
  destruct (matched_body _ _ _ _ _ _ Hm H1 Hb) as (w & Hw & Hp & Hc%consumes_phone).
  destruct (matched_text _ _ _ _ _ Hm H2) as (m & Hg & Hpm).
  eapply group_text_bind; [done|]. eapply group_text_bind; [done|].
  apply good_answer, compose_ok; auto using phone_text_strip with pipa.
Qed.

Lemma with_contact_message_ok pattern :
  sure pattern 1 = true → sure pattern 2 = true →
  rule_ok (on_original pattern (with_message "whatsapp_contact" "contact")).
Proof using Type.
  intros H1 H2. apply on_original_ok; [by eapply sure_well_formed|]. intros text g Hm.
  destruct (matched_text _ _ _ _ _ Hm H1) as (w & Hw & Hp), (matched_text _ _ _ _ _ Hm H2) as (m & Hg & Hpm).
  eapply group_text_bind; [done|]. eapply group_text_bind; [done|].
  apply good_answer, contact_ok; auto with pipa.
Qed.

Lemma with_phone_ok pattern :
  sure pattern 1 = true → group_bodies pattern 1 = [phone_body] →
  rule_ok (on_original pattern (with_text "whatsapp_phone_open" "phone")).
Proof using HT.
  intros H1 Hb. apply on_original_ok; [by eapply sure_well_formed|]. intros text g Hm.
  destruct (matched_body _ _ _ _ _ _ Hm H1 Hb) as (w & Hw & Hp & Hc%consumes_phone).
  eapply group_text_bind; [done|]. apply good_answer, phone_ok; auto using phone_text_strip with pipa.
Qed.

(** A recipient is a telephone number or a local alias. *)
Lemma recipient_ok text w m :
  piece text w → piece text m → ∃ i, _whatsapp_recipient_intent w m = Ok i ∧ intent_ok text i.
Proof using HT.
  intros Hw Hm. unfold _whatsapp_recipient_intent, mbind, result_bind.
  assert (compile (u PHONE_PATTERN) = Some phone_body) as Hc by by vm_compute.
  unfold re_fullmatch. rewrite Hc.
  destruct (fullmatch false phone_body (strip w)) as [g|] eqn:E; eexists; (split; [done|]).
  - apply compose_ok; auto with pipa. apply (consumes_phone false).
    apply fullmatch_matches in E. exists 0%nat, [], [], g. by rewrite app_nil_r.
  - apply contact_ok; auto with pipa.
Qed.

Lemma to_recipient_ok pattern :
  sure pattern 1 = true → sure pattern 2 = true → rule_ok (on_original pattern to_recipient).
Proof using HT.
  intros H1 H2. apply on_original_ok; [by eapply sure_well_formed|]. intros text g Hm.
  destruct (matched_text _ _ _ _ _ Hm H1) as (w & Hw & Hp), (matched_text _ _ _ _ _ Hm H2) as (m & Hg & Hpm).
  eapply group_text_bind; [done|]. eapply group_text_bind; [done|].
  destruct (recipient_ok text w m Hp Hpm) as (i & Hi & Hok). unfold mbind, result_bind. rewrite Hi. by apply good_answer.
Qed.

(** A music request opens the catalogue or searches for a piece of the text. *)
Lemma clean_music_piece text w : piece text w → piece text (_clean_music_term w).
Proof using Type.
  intros Hw. unfold _clean_music_term. generalize [u "música de "; u "musica de "; u "de "] as ps. intros ps.
  induction ps as [|p ps IH]; cbn [drop_prefix]; [auto with pipa|]. destruct (startswith p _); auto with pipa.
Qed.

Lemma music_ok text w : piece text w → intent_ok text (_music_intent w).
Proof using Type.
  intros Hw. unfold _music_intent. destruct (one_of _ _); [apply plain_ok|apply text_ok; [|by apply clean_music_piece]]; listed.
Qed.

Lemma to_music_ok pattern : sure pattern 1 = true → rule_ok (on_original pattern to_music).
Proof using Type.
  intros H1. apply on_original_ok; [by eapply sure_well_formed|]. intros text g Hm.
  destruct (matched_text _ _ _ _ _ Hm H1) as (w & Hw & Hp).
  eapply group_text_bind; [done|]. by apply good_answer, music_ok.
Qed.

Lemma to_selected_ok pattern : sure pattern 1 = true → rule_ok (on_original pattern to_selected).
Proof using Type.
  intros H1. apply on_original_ok; [by eapply sure_well_formed|]. intros text g Hm.
  destruct (matched_text _ _ _ _ _ Hm H1) as (w & Hw & Hp).
  eapply group_text_bind; [done|]. destruct (one_of _ SELECTED); apply good_answer.
  - apply media_ok. listed.
  - by apply music_ok, clean_music_piece.
Qed.

Lemma with_snowflake_ok pattern tool :
  sure pattern 1 = true → group_bodies pattern 1 = [snowflake_body] → tool ∈ CHANNEL_TOOLS →
  rule_ok (on_normalized pattern (with_group tool "channel_id")).
Proof using Type.
  intros H1 Hb Ht. apply on_normalized_ok; [by eapply sure_well_formed|]. intros original text g _ Hm.
  destruct (matched_body _ _ _ _ _ _ Hm H1 Hb) as (w & Hw & _ & Hc%consumes_snowflake).
  unfold with_group, group_value. rewrite Hw. by apply good_answer, channel_ok.
Qed.

Lemma to_channel_ok pattern tool a b :
  sure pattern a = true → group_bodies pattern a = [snowflake_body] →
  sure pattern b = true → group_bodies pattern b = [snowflake_body] → tool ∈ CHANNEL_TOOLS →
  rule_ok (on_normalized pattern (to_channel tool a b)).
Proof using Type.
  intros Ha HA Hb HB Ht. apply on_normalized_ok; [by eapply sure_well_formed|]. intros original text g _ Hm.
  destruct (matched_body _ _ _ _ _ _ Hm Ha HA) as (v & Hv & _ & Hcv%consumes_snowflake).
  destruct (matched_body _ _ _ _ _ _ Hm Hb HB) as (w & Hw & _ & Hcw%consumes_snowflake).
  unfold to_channel, group_value. rewrite Hv, Hw. by apply good_answer, guild_ok.
Qed.

(** A group of digits reads as a number. *)
Lemma group_int_ok pattern hi text g :
  count_digits text <= 4300 → re_fullmatch false (u pattern) text = Ok (Some g) →
  sure pattern 1 = true → group_bodies pattern 1 = [digits_body hi] →
  ∃ n, group_int 1 g = Ok n ∧ 0 <= n ∧ ∀ m, hi = Some m → n < 10 ^ Z.of_nat m.
Proof using HT.
  intros Hd Hm Hs Hb. destruct (matched_body _ _ _ _ _ _ Hm Hs Hb) as (w & Hw & (x & y & ->) & Hc).
  apply consumes_digits in Hc as (Hne & Hw' & Hhi).
  destruct (int_of_digits w Hne Hw') as (n & Hn & Hr).
  { unfold count_digits in *. rewrite !filter_app, !len_app in Hd.
    pose proof (len_nonneg (filter (λ c, is_decimal c = true) x)).
    pose proof (len_nonneg (filter (λ c, is_decimal c = true) y)). lia. }
  exists n. unfold group_int. rewrite Hw. split_and!; [done|lia|]. intros m ->. specialize (Hhi _ eq_refl).
  apply (Z.lt_le_trans _ (10 ^ len w)); [lia|]. apply Z.pow_le_mono_r; unfold len; lia.
Qed.

(** *** The rules with a shape of their own *)

Lemma league_cancel_ok : rule_ok league_cancel.
Proof using Type. apply on_normalized_ok; [by vm_compute|]. intros. apply good_answer, plain_ok. listed. Qed.

Lemma league_queue_status_ok : rule_ok league_queue_status.
Proof using Type. apply on_normalized_ok; [by vm_compute|]. intros. apply good_answer, plain_ok. listed. Qed.

Lemma timer_list_ok : rule_ok timer_list.
Proof using Type.
  intros original normalized _. unfold timer_list, mbind, result_bind.
  edestruct (re_fullmatch_total false) as [m Hm]; [|rewrite Hm; clear Hm]; [by vm_compute|].
  destruct (match m with Some _ => true | None => _ end); [|apply good_on]. apply good_answer, plain_ok. listed.
Qed.

Lemma timer_cancel_ok : rule_ok timer_cancel.
Proof using Type.
  apply on_original_ok; [by vm_compute|]. intros text g Hm.
  edestruct (λ b, matched_body _ _ _ _ 1 b Hm) as (w & Hw & Hp & Hc); [by vm_compute|by vm_compute|].
  apply consumes_rep in Hc as (_ & Hlo & Hhi). specialize (Hhi _ eq_refl).
  unfold with_group, group_value. rewrite Hw. apply good_answer, timer_id_ok; [done|]. unfold len. lia.
Qed.

(** A character of a literal is not white space when it is a letter or has no
    case. *)
Lemma visible_char ic a c :
  is_ascii a = true → is_space a = false → atom_match ic (Lit a) c = true → is_space c = false.
Proof using HT.
  intros Ha Hs. unfold atom_match, item_match. destruct ic; [|intros ->%Z.eqb_eq; done].
  intros [Hc|[_ Hc]%andb_true_iff]%orb_true_iff; [|by apply (case_alike_letter a c Ha)].
  unfold lower_ascii, ascii_upper, is_ascii, is_space in *. repeat case_match; lia.
Qed.

Lemma consumes_visible ic l w :
  forallb (λ c, is_ascii c && negb (is_space c)) l = true →
  consumes ic (sequence ((λ c, Chr (Lit c)) <$> l)) w → Forall (λ c, is_space c = false) w.
Proof using HT.
  revert w. induction l as [|c l IH]; intros w; [by intros _ ->%consumes_empty; constructor|].
  cbn [forallb]. intros [[Ha Hs%negb_true_iff]%andb_true_iff Hl]%andb_true_iff.
  assert (∀ v, consumes ic (Chr (Lit c)) v → Forall (λ c, is_space c = false) v) as Hone.
  { intros v (d & -> & Hd)%consumes_chr. repeat constructor. by eapply visible_char. }
  destruct l as [|c' l]; [apply Hone|].
  intros (v & x & -> & Hv%Hone & Hx)%consumes_seq. apply Forall_app. split; [done|]. by apply IH.
Qed.

(** [https?://\S+] *)
Definition url_body : regex :=
  Seq (Chr (Lit 104)) (Seq (Chr (Lit 116)) (Seq (Chr (Lit 116)) (Seq (Chr (Lit 112))
    (Seq (Rep true 0 (Some 1%nat) (Lit 115)) (Seq (Chr (Lit 58)) (Seq (Chr (Lit 47)) (Seq (Chr (Lit 47))
      (Rep true 1 None (Set_ true [Space]))))))))).

Lemma consumes_url w : consumes true url_body w → Forall (λ c, is_space c = false) w.
Proof using HT.
  assert (∀ a v, is_ascii a && negb (is_space a) = true → consumes true (Chr (Lit a)) v →
    Forall (λ c, is_space c = false) v) as Hone.
  { intros a v Ha Hv. apply (consumes_visible true [a]); [cbn; by rewrite Ha|done]. }
  unfold url_body. intros Hw.
  repeat match goal with
  | H : consumes _ (Seq _ _) _ |- _ => apply consumes_seq in H as (? & ? & -> & ? & ?)
  end.
  rewrite !Forall_app. split_and!; try match goal with H : consumes _ (Chr _) ?v |- Forall _ ?v => eapply Hone; [|exact H]; done end.
  - match goal with H : consumes _ (Rep _ _ _ (Lit _)) _ |- _ => apply consumes_rep in H as [Hs _] end.
    eapply Forall_impl; [exact Hs|]. intros c. by apply visible_char.
  - match goal with H : consumes _ (Rep _ _ _ (Set_ _ _)) _ |- _ => apply consumes_rep in H as [Hs _] end.
    eapply Forall_impl; [exact Hs|]. intros c. cbn. rewrite orb_false_r. by destruct (is_space c).
Qed.

Lemma open_url_ok : rule_ok open_url.
Proof using HT.
  apply on_original_ok; [by vm_compute|]. intros text g Hm.
  edestruct (λ b, matched_body _ _ _ _ 1 b Hm) as (w & Hw & Hp & Hc); [by vm_compute|by instantiate (1 := url_body); vm_compute|].
  apply consumes_url in Hc. unfold with_group, group_value. rewrite Hw. by apply good_answer, url_ok.
Qed.

Lemma media_action_ok : rule_ok media_action.
Proof using Type.
  apply on_normalized_ok; [by vm_compute|]. intros original text g _ Hm.
  edestruct (λ b, matched_body _ _ _ _ 1 b Hm) as (w & Hw & _ & Hc); [by vm_compute| |].
  { instantiate (1 := Alt (literal_body "play_pause") (Alt (literal_body "next")
      (Alt (literal_body "previous") (literal_body "stop")))). by vm_compute. }
  assert (∃ a, a ∈ MEDIA_ACTIONS ∧ w = u a) as (a & Ha & ->).
  { repeat apply consumes_alt in Hc as [Hc|Hc]; apply consumes_letters in Hc as ->; eexists; (split; [|reflexivity]); listed. }
  unfold with_group, group_value. rewrite Hw. by apply good_answer, media_ok.
Qed.

Lemma music_request_without_service_ok : rule_ok music_request_without_service.
Proof using Type.
  apply on_original_ok; [by vm_compute|]. intros text g Hm.
  edestruct (matched_text _ _ _ _ 1 Hm) as (w & Hw & Hp); [by vm_compute|].
  eapply group_text_bind; [done|]. destruct (one_of _ SELECTED); [apply good_on|].
  by apply good_answer, music_ok, clean_music_piece.
Qed.

Lemma song_search_ok : rule_ok song_search.
Proof using Type.
  apply on_original_ok; [by vm_compute|]. intros text g Hm.
  edestruct (matched_text _ _ _ _ 1 Hm) as (w & Hw & Hp); [by vm_compute|].
  eapply group_text_bind; [done|]. apply good_answer, music_ok. auto with pipa.
Qed.

(** The watcher runs for 1 to 300 seconds or not at all. *)
Lemma league_wait_intent_ok text w :
  (∀ s, w = Some s → ∃ n, int_of_text s = Ok n) →
  good text (i ← _league_wait_intent w; Ok (Some i)).
Proof using Type.
  intros Hw. unfold _league_wait_intent, mbind, result_bind.
  assert (∃ n, match w with None | Some [] => Ok 120 | Some s => int_of_text s end = Ok n) as [n ->].
  { destruct w as [[|c s]|]; [by eexists|by apply Hw|by eexists]. }
  destruct ((1 <=? n) && (n <=? 300)) eqn:E; (eexists; split; [done|]); intros i [= <-].
  apply wait_ok. lia.
Qed.

Lemma league_wait_ok : rule_ok league_wait.
Proof using HT.
  apply on_normalized_ok; [by vm_compute|]. intros original text g Hd Hm.
  apply league_wait_intent_ok. intros s Hs.
  destruct (matched_group _ _ _ _ _ _ Hm Hs) as (Hp & b & Hin & Hc).
  assert (b = digits_body (Some 3%nat)) as ->.
  { match type of Hin with _ ∈ ?l => assert (l = [digits_body (Some 3%nat)]) as El by by vm_compute end.
    rewrite El in Hin. by apply list_elem_of_singleton in Hin. }
  apply consumes_digits in Hc as (Hne & Hf & Hhi). specialize (Hhi _ eq_refl).
  destruct (int_of_digits s Hne Hf) as (n & Hn & _); [|by exists n].
  unfold count_digits. etrans; [apply len_filter_le|]. unfold len. lia.
Qed.

(** A queue is one of the five of the table. *)
Lemma queue_alias k q : dget k _LEAGUE_QUEUE_ALIASES = Some q → ∃ a, a ∈ LEAGUE_QUEUES ∧ q = u a.
Proof using Type.
  intros Hq%dget_elem. unfold _LEAGUE_QUEUE_ALIASES in Hq.
  repeat (apply elem_of_cons in Hq as [[= _ ->]|Hq]; [eexists; (split; [|reflexivity]); listed|]).
  by apply not_elem_of_nil in Hq.
Qed.

Lemma queue_intent_ok text w :
  ∃ o, _league_queue_intent w = Ok o ∧ ∀ i, o = Some i → intent_ok text i.
Proof using Type.
  unfold _league_queue_intent, re_erase, mbind, result_bind.
  destruct (compile (u QUEUE_SUFFIX)) as [r|] eqn:E; [|by vm_compute in E].
  destruct (compile (u "^(?:de|en)\s+")) as [r'|] eqn:E'; [|by vm_compute in E'].
  eexists. split; [done|]. destruct (dget _ _) as [q|] eqn:Eq; [|done].
  apply queue_alias in Eq as (a & Ha & ->). intros i [= <-]. by apply queue_ok.
Qed.

Lemma league_search_ok : rule_ok league_search.
Proof using Type.
  intros original normalized _. unfold league_search, mbind, result_bind.
  destruct (re_fullmatch_total false league_search_pattern normalized) as [m1 ->]; [by vm_compute|].
  destruct (re_fullmatch_total false league_enter_pattern normalized) as [m2 E2]; [by vm_compute|].
  destruct (re_fullmatch_total false league_matchmaking_pattern normalized) as [m3 E3]; [by vm_compute|].
  assert (∃ m, match m1 with Some g => Ok (Some g) | None => re_fullmatch false (u league_enter_pattern) normalized end = Ok m)
    as [m ->] by (destruct m1; rewrite ?E2; by eexists).
  assert (∃ m', match m with Some g => Ok (Some g) | None => re_fullmatch false (u league_matchmaking_pattern) normalized end = Ok m')
    as [[g|] ->] by (destruct m; rewrite ?E3; by eexists); [|apply good_on].
  destruct (queue_intent_ok original (default [] (group 1 g))) as ([i|] & -> & Hi); [|apply good_on].
  eexists. split; [done|]. intros ? [= <-]. by apply Hi.
Qed.

Lemma volume_ok' : rule_ok volume.
Proof using HT.
  apply on_normalized_ok; [by vm_compute|]. intros original text g Hd Hm.
  edestruct group_int_ok as (n & Hn & Hlo & Hhi); [exact Hd|exact Hm|by vm_compute| |].
  { instantiate (1 := Some 3%nat). by vm_compute. }
  unfold mbind, result_bind. rewrite Hn. apply good_answer, volume_ok. specialize (Hhi _ eq_refl). lia.
Qed.

Lemma timer_seconds_ok : rule_ok timer_seconds.
Proof using HT.
  apply on_normalized_ok; [by vm_compute|]. intros original text g Hd Hm.
  edestruct group_int_ok as (n & Hn & Hlo & _); [exact Hd|exact Hm|by vm_compute| |].
  { instantiate (1 := None). by vm_compute. }
  unfold mbind, result_bind. rewrite Hn. by apply good_answer, timer_ok.
Qed.

Lemma timer_minutes_ok : rule_ok timer.
Proof using HT.
  apply on_normalized_ok; [by vm_compute|]. intros original text g Hd Hm.
  edestruct group_int_ok as (n & Hn & Hlo & _); [exact Hd|exact Hm|by vm_compute| |].
  { instantiate (1 := None). by vm_compute. }
  unfold mbind, result_bind. rewrite Hn. apply good_answer, timer_ok. lia.
Qed.

(** ** The parser *)

Ltac rule_step :=
  match goal with
  | |- rule_ok (phrases _ (intent "media_action"%string _)) => apply phrases_ok; intros; apply media_ok; listed
  | |- rule_ok (phrases _ _) => apply phrases_ok; intros; apply plain_ok; listed
  | |- rule_ok (on_original _ (with_text "whatsapp_phone_open" _)) => apply with_phone_ok; by vm_compute
  | |- rule_ok (on_original _ (with_text _ _)) => apply with_text_ok; [by vm_compute|listed]
  | |- rule_ok (on_original _ (with_message "whatsapp_compose" _)) => apply with_phone_message_ok; by vm_compute
  | |- rule_ok (on_original _ (with_message _ _)) => apply with_contact_message_ok; by vm_compute
  | |- rule_ok (on_original _ to_recipient) => apply to_recipient_ok; by vm_compute
  | |- rule_ok (on_original _ to_music) => apply to_music_ok; by vm_compute
  | |- rule_ok (on_original _ to_selected) => apply to_selected_ok; by vm_compute
  | |- rule_ok (on_normalized _ (with_group _ _)) => apply with_snowflake_ok; [by vm_compute..|listed]
  | |- rule_ok (on_normalized _ (to_channel _ _ _)) => apply to_channel_ok; [by vm_compute..|listed]
  | |- rule_ok league_cancel => apply league_cancel_ok
  | |- rule_ok league_queue_status => apply league_queue_status_ok
  | |- rule_ok timer_list => apply timer_list_ok
  | |- rule_ok timer_cancel => apply timer_cancel_ok
  | |- rule_ok open_url => apply open_url_ok
  | |- rule_ok media_action => apply media_action_ok
  | |- rule_ok music_request_without_service => apply music_request_without_service_ok
  | |- rule_ok song_search => apply song_search_ok
  | |- rule_ok league_wait => apply league_wait_ok
  | |- rule_ok league_search => apply league_search_ok
  | |- rule_ok volume => apply volume_ok'
  | |- rule_ok timer_seconds => apply timer_seconds_ok
  | |- rule_ok timer => apply timer_minutes_ok
  | |- rule_ok ?r => let r' := eval red in r in change (rule_ok r'); rule_step
  end.

Lemma rules_ok : Forall rule_ok rules.
Proof using HT.
  unfold rules, media_phrases, device_phrases, open_phrases, league_status_phrases, music_open_phrases.
  repeat apply Forall_app_2; repeat (apply Forall_cons; split; [rule_step|]); apply Forall_nil_2.
Qed.

Lemma first_answer_ok l original normalized :
  Forall rule_ok l → count_digits normalized <= 4300 →
  ∃ r, first_answer l original normalized = Ok r ∧ ∀ i, r = Some i → intent_ok original i.
Proof using Type.
  intros Hl Hd. induction Hl as [|r l Hr _ IH]; [by exists None|]. cbn [first_answer].
  destruct (Hr original normalized Hd) as ([o|] & E & Ho); unfold mbind, result_bind; rewrite E; [|done].
  exists o. split; [done|]. intros i ->. by apply Ho.
Qed.

Lemma len_filter_twice (P Q : Z → Prop) `{!∀ x, Decision (P x)} `{!∀ x, Decision (Q x)} (l : list Z) :
  len (filter P (filter Q l)) <= len (filter P l).
Proof using Type.
  induction l as [|c l IH]; [done|]. rewrite !filter_cons.
  repeat case_decide; rewrite ?filter_cons; repeat case_decide; rewrite ?len_cons; try done; lia.
Qed.

Lemma bounded_digits text : bounded_text 4000 false text → count_digits (_fold_phrase (original_text text)) <= 4300.
Proof using HT.
  intros (_ & (b & Hb & Hlen) & _). unfold original_text.
  destruct (strip_segment text) as (p & q & Hs). rewrite Hs in Hb.
  apply utf8_encode_piece in Hb as (b1 & Hb1 & Hle1). apply utf8_encode_words in Hb1 as (b2 & Hb2 & Hle2).
  apply nfkd_decimals in Hb2. unfold count_digits, _fold_phrase.
  etrans; [apply len_filter_twice|]. lia.
Qed.

(** C17: the parser of free text answers every text the Core accepts, and what
    it answers is one of the calls of [intent_ok]: a tool of a fixed set with
    its own arguments, where a text is a piece, character for character, of the
    user's text with its white space collapsed ([original_text]), an identifier
    has 17 to 20 digits, a queue is one of five, a wait lasts 1 to 300 seconds,
    a volume has at most three digits and a timer's length is not negative.
    The parser leaves the upper bound of a timer to the tool that sets it. *)
Theorem text_intents_sound text :
  bounded_text 4000 false text →
  ∃ r, parse_text_intent text = Ok r ∧ ∀ i, r = Some i → intent_ok (original_text text) i.
Proof using HT.
  intros Hb. unfold parse_text_intent. destruct (negb _); [by exists None|].
  apply first_answer_ok; [apply rules_ok|by apply bounded_digits].
Qed.
End Facts.

Lemma text_intents_sound_witness :
  let text := u "pon el volumen 40" in
  ∃ r, parse_text_intent (H := ascii_text) text = Ok r ∧
    ∀ i, r = Some i → intent_ok (T := ascii_text) (original_text text) i.
Proof.
  apply (text_intents_sound (T := ascii_text)). apply (validate_bounded_text_spec (VStr (u "pon el volumen 40"))). by vm_compute.
Defined.

(** Inputs of the tests of the repository. *)
Example parser_answers (T := ascii_text) :
  parse_text_intent (u "pon el  volumen 40") = Ok (Some (intent "audio_volume" [("percent"%string, VInt 40)]))
  ∧ parse_text_intent (u "abre WhatsApp para mama")
    = Ok (Some (intent "whatsapp_contact_open" [("contact"%string, VStr (u "mama"))]))
  ∧ parse_text_intent (u "busca partida solo")
    = Ok (Some (intent "league_search" [("queue"%string, VStr (u "ranked_solo"))]))
  ∧ parse_text_intent (u "hola") = Ok None.
Proof. by_compute. Qed.
