(* ===== verification/Machine.v ===== *)
(** * The machine the agent runs on

    Files, processes, clocks, the browser, the speakers, the local League
    client and the messaging service are code outside the repository.  The
    tools reach them through the operations [op]; [Machine] answers each one,
    returning or raising, from the whole history of operations before it, so
    a theorem that holds for every [Machine] holds however the outside world
    changes between two operations. *)
From S2P Require Import Prelude Dict Value Effects Timers.

(** The local files of [windows-agent/config]. *)
Inductive config_file := AppsLocal | AppsDefault | ContactsLocal | ControlLocal.
#[global] Instance config_file_eq_dec : EqDecision config_file.
Proof. solve_decision. Defined.

(** [process.info] of [psutil.process_iter(["name", "cmdline", "username"])] *)
Record process := mkProcess {
  process_name : option pystr;
  cmdline : option (list pystr);
  username : option pystr
}.

(** [credential.get("CredentialBlob")] *)
Inductive credential_blob := BlobBytes (b : bytes) | BlobText (s : pystr) | BlobOther.

(** [psutil.sensors_battery()]; [None] for a time unknown or unlimited. *)
Record battery := mkBattery { percent : Z; plugged : option bool; secsleft : option Z }.

(** [psutil], [platform] and [socket] in [get_system_status]. *)
Record system_readings := mkReadings {
  boot_time : pyfloat;
  now : pyfloat;
  host_name : pystr;
  os_name : pystr;
  os_version : pystr;
  cpu_percent : pyfloat;
  memory_percent : pyfloat;
  memory_available : Z;
  disk_percent : pyfloat;
  disk_free : Z
}.

Inductive op : Set → Type :=
(* configuration files *)
| FileExists (f : config_file) : op bool
| ReadFile (f : config_file) (limit : Z) : op bytes
| MakeDirectory : op unit
| MakeTemporary (f : config_file) : op pystr
| WriteTemporary (name : pystr) (content : bytes) : op unit
| ReplaceFile (name : pystr) (f : config_file) : op unit
| Unlink (name : pystr) : op unit
(* the access token of the messaging service *)
| TokenVariable : op (option pystr)
| ReadCredential : op credential_blob
| WriteCredential (token : pystr) : op unit
| DeleteCredential : op (option Z)   (* the error code of a failure that has one *)
(* readings *)
| Which (launcher : pystr) : op (option pystr)
| Processes : op (list process)
| CurrentUser : op pystr
| Monotonic : op Z
| WallClock : op Z
| DrawToken : op pystr
| Battery : op (option battery)
| NetworkInterfaces : op (list (pystr * (bool * Z)))
| SystemReadings : op system_readings
| VolumeReading : op (pystr * pyfloat * bool)
(* actions *)
| Sleep (ticks : Z) : op unit
| Popen (argv : list pystr) (no_window : bool) (cwd : option pystr) : op unit
| OpenBrowser (url : pystr) : op bool
| PressKey (key flags : Z) : op unit
| OpenAudio : op unit
| CloseAudio : op unit
| SetVolume (percent : Z) : op unit
| SetMute (muted : bool) : op unit
| LockStation : op unit
(* the local League client and the messaging service *)
| LeagueCall (port : Z) (authorization method path : pystr) (body : option value) : op (Z * bytes)
| CloudCall (endpoint token : pystr) (body : value) : op (Z * bytes).

Inductive event := | Event (A : Set) (o : op A).
Arguments Event {A} o.
Abbreviation history := (list event).

(** The answers, newest event first; [windows] is [os.name == "nt"]. *)
Class Machine := {
  windows : bool;
  answer {A : Set} : history → op A → result A
}.

(** Ticks of the monotonic clock in a second. *)
Definition SECOND : Z := 1000000000.

(** The clock never goes back, and sleeping takes at least the time asked. *)
Class ClockLaws (W : Machine) := {
  clock : history → Z;
  clock_read h : answer h Monotonic = Ok (clock h);
  clock_monotone h new : clock h <= clock (new ++ h);
  clock_sleep h d : 0 <= d → answer h (Sleep d) = Ok tt ∧ clock h + d <= clock (Event (Sleep d) :: h)
}.

(** The state of the agent's tools: what they did, and the timers. *)
Record desktop := mkDesktop { events : history; active_timers : timer_table }.
Definition log (e : event) (w : desktop) : desktop := mkDesktop (e :: events w) (active_timers w).
Definition set_timers (t : timer_table) (w : desktop) : desktop := mkDesktop (events w) t.

Section Machine.
Context `{W : Machine}.

Definition call {A : Set} (o : op A) : M desktop A := λ w, (log (Event o) w, answer (events w) o).

Definition on_timers {A} (m : M timer_table A) : M desktop A := zoom active_timers set_timers m.

(** A run whose state is thrown away: what code that only reads returns. *)
Definition observe {A} (m : M desktop A) (w : desktop) : result A := (m w).2.

(** ** What a run may do

    [does P m]: every operation [m] performs is one of [P]. *)

Definition grows (P : event → Prop) (w w' : desktop) : Prop :=
  ∃ new, events w' = new ++ events w ∧ Forall P new.

#[global] Instance grows_preorder P : PreOrder (grows P).
Proof.
  split.
  - intros w. by exists [].
  - intros w1 w2 w3 (n1 & H1 & F1) (n2 & H2 & F2). exists (n2 ++ n1). split; [by rewrite H2, H1, app_assoc|].
    by apply Forall_app.
Qed.

Definition does (P : event → Prop) {A} (m : M desktop A) : Prop := moves (grows P) (λ _, True) m.

Lemma does_call P {A : Set} (o : op A) : P (Event o) → does P (call o).
Proof using Type. intros Ho w. split; [|done]. exists [Event o]. split; [done|by apply Forall_singleton]. Qed.
(** The value of an operation is the machine's answer. *)
Lemma moves_call P {A : Set} (o : op A) :
  P (Event o) → moves (grows P) (λ a, ∃ h, answer h o = Ok a) (call o).
Proof using Type.
  intros Ho w. split; [exists [Event o]; split; [done|by apply Forall_singleton]|]. intros a Ha. by exists (events w).
Qed.
Lemma does_moves P {A} (Q : A → Prop) (m : M desktop A) : moves (grows P) Q m → does P m.
Proof using Type. intros Hm w. destruct (Hm w) as [Hr _]. by split. Qed.
Lemma does_bind_value P {A B} (Q : A → Prop) (m : M desktop A) (k : A → M desktop B) :
  moves (grows P) Q m → (∀ a, Q a → does P (k a)) → does P (m ≫= k).
Proof using Type. intros Hm Hk. eapply moves_bind; [apply _|done|done]. Qed.
Lemma does_ret P {A} (a : A) : does P (mret a).
Proof using Type. by apply moves_ret; [apply _|]. Qed.
Lemma does_raise P {A} e : does P (raise e : M desktop A).
Proof using Type. apply moves_raise, _. Qed.
Lemma does_lift P {A} (r : result A) : does P (lift r).
Proof using Type. by apply moves_lift; [apply _|]. Qed.
Lemma does_bind P {A B} (m : M desktop A) (k : A → M desktop B) :
  does P m → (∀ a, does P (k a)) → does P (m ≫= k).
Proof using Type. intros Hm Hk. eapply moves_bind; [apply _|done|]. intros a _. apply Hk. Qed.
Lemma does_except P {A} (m : M desktop A) cs k : does P m → does P k → does P (except m cs k).
Proof using Type. apply moves_except, _. Qed.
Lemma does_try P {A} (m : M desktop A) k : does P m → (∀ e, does P (k e)) → does P (try_with m k).
Proof using Type. apply moves_try, _. Qed.
Lemma does_finally P {A} (m : M desktop A) k : does P m → does P k → does P (finally m k).
Proof using Type.
  intros Hm Hk w. unfold wp, finally. destruct (Hm w) as [Hr _]. destruct (m w) as [w' r].
  cbn [fst] in Hr. destruct (Hk w') as [Hr' _]. destruct (k w'). split; [by etrans|done].
Qed.
Lemma does_timers P {A} (m : M timer_table A) : does P (on_timers m).
Proof using Type.
  intros w. apply wp_zoom. split; [|done]. by exists [].
Qed.
Lemma does_weaken (P Q : event → Prop) {A} (m : M desktop A) : (∀ e, P e → Q e) → does P m → does Q m.
Proof using Type.
  intros HPQ Hm w. destruct (Hm w) as [(new & Hn & Hf) _]. split; [|done]. exists new. split; [done|].
  by eapply Forall_impl.
Qed.
Lemma does_run P {A} (m : M desktop A) w : does P m → ∃ new, events (m w).1 = new ++ events w ∧ Forall P new.
Proof using Type. intros Hm. by destruct (Hm w) as [Hr _]. Qed.
End Machine.

#[export] Hint Resolve does_ret does_raise does_lift does_timers : pipa.

(** ** Files the agent wrote *)

Section Files.
Context `{W : Machine}.

(** The text last written to a temporary file. *)
Fixpoint written (name : pystr) (h : history) : option bytes :=
  match h with
  | [] => None
  | Event o :: h' =>
    match o with
    | WriteTemporary n b => if bool_decide (n = name) && is_ok (answer h' o) then Some b else written name h'
    | _ => written name h'
    end
  end.

(** The text of a configuration file since the agent last replaced it. *)
Fixpoint stored (f : config_file) (h : history) : option bytes :=
  match h with
  | [] => None
  | Event o :: h' =>
    match o with
    | ReplaceFile n g => if bool_decide (g = f) && is_ok (answer h' o) then written n h' else stored f h'
    | _ => stored f h'
    end
  end.

(** Writing a configuration file: the whole text goes to a temporary file that
    then takes the place of the old one; it is removed when that fails. *)
Definition replace_file (f : config_file) (encoded : bytes) (e : exn) : M desktop unit :=
  call MakeDirectory ≫= λ _,
  except
    (call (MakeTemporary f) ≫= λ temporary,
     cleanup (call (WriteTemporary temporary encoded) ≫= λ _, call (ReplaceFile temporary f)) [Exception]
       (except (call (Unlink temporary)) [OSError] (mret tt)))
    [OSError] (raise e).

(** The file holds the new text when the call returns and what it held before
    when it raises: never a part of the text. *)
Lemma replace_file_atomic f encoded e w w' r :
  replace_file f encoded e w = (w', r) →
  stored f (events w') = (if is_ok r then Some encoded else stored f (events w)) ∧ active_timers w' = active_timers w.
Proof using Type.
  unfold replace_file, mbind, M_bind, except, cleanup, raise, mret, M_ret, call, log. intros H.
  destruct (answer (events w) MakeDirectory); [|by injection H as <- <-].
  cbn [events active_timers] in H. set (h1 := Event MakeDirectory :: events w) in *.
  destruct (answer h1 (MakeTemporary f)) as [t|x].
  2:{ destruct (caught x [OSError]); by injection H as <- <-. }
  set (h2 := Event (MakeTemporary f) :: h1) in *.
  destruct (answer h2 (WriteTemporary t encoded)) as [[]|x] eqn:Ew.
  - cbn [events active_timers] in H. set (h3 := Event (WriteTemporary t encoded) :: h2) in *.
    destruct (answer h3 (ReplaceFile t f)) as [[]|x] eqn:Er.
    + injection H as <- <-. cbn [events stored is_ok active_timers]. rewrite Er, bool_decide_true by done.
      unfold h3. cbn [written is_ok andb]. by rewrite Ew, bool_decide_true.
    + assert (stored f (Event (ReplaceFile t f) :: h3) = stored f (events w)) as Hs.
      { cbn [stored]. by rewrite Er, andb_false_r. }
      destruct (caught x [Exception]); [|destruct (caught x [OSError]); injection H as <- <-; by cbn [events]].
      cbn [events active_timers] in H.
      destruct (answer _ (Unlink t)) as [|y]; [|destruct (caught y [OSError])]; cbn in H;
        repeat (case_match; try done); injection H as <- <-; by split.
  - destruct (caught x [Exception]); [|destruct (caught x [OSError]); injection H as <- <-; by cbn [events]].
    cbn [events active_timers] in H.
    destruct (answer _ (Unlink t)) as [|y]; [|destruct (caught y [OSError])]; cbn in H;
      repeat (case_match; try done); injection H as <- <-; by split.
Qed.
End Files.

(** No other program edits the configuration files: what the agent stored is
    there to read. *)
Class FileLaws (W : Machine) := {
  stored_exists f h b : stored f h = Some b → answer h (FileExists f) = Ok true;
  stored_read f h b n : stored f h = Some b → answer h (ReadFile f n) = Ok (slice_to n b)
}.

(** [shutil.which] gives a path or [None]. *)
Class LookupLaws (W : Machine) := { which_returns h launcher : is_ok (answer h (Which launcher)) = true }.

(** One rule per construct; what an operation must satisfy is left as a goal. *)
Ltac does_step :=
  lazymatch goal with
  | |- does _ (_ ≫= _) => apply does_bind; [|intros ?]
  | |- does _ (except _ _ _) => apply does_except
  | |- does _ (try_with _ _) => apply does_try; [|intros ?]
  | |- does _ (finally _ _) => apply does_finally
  | |- does _ (call _) => apply does_call
  | |- does _ (if ?b then _ else _) => destruct b eqn:?
  | |- does _ (match ?x with _ => _ end) => destruct x eqn:?
  | |- does _ _ => solve [eauto with pipa]
  end.

(** ** A sample machine

    Every operation succeeds; the files are [files] until the agent replaces
    them, and [league] answers for the local client. *)

Section Sample.
Context (files : config_file → option bytes) (league : history → pystr → pystr → result (Z * bytes)).

Fixpoint last_written (name : pystr) (h : history) : option bytes :=
  match h with
  | [] => None
  | Event o :: h' =>
    match o with
    | WriteTemporary n b => if bool_decide (n = name) then Some b else last_written name h'
    | _ => last_written name h'
    end
  end.
Fixpoint last_stored (f : config_file) (h : history) : option bytes :=
  match h with
  | [] => files f
  | Event o :: h' =>
    match o with
    | ReplaceFile n g => if bool_decide (g = f) then last_written n h' else last_stored f h'
    | _ => last_stored f h'
    end
  end.

Fixpoint slept (h : history) : Z :=
  match h with
  | [] => 0
  | Event o :: h' => match o with Sleep d => Z.max 0 d + slept h' | _ => slept h' end
  end.

Definition sample_answer {A : Set} (h : history) (o : op A) : result A :=
  match o with
  | FileExists f => Ok (match last_stored f h with Some _ => true | None => false end)
  | ReadFile f n => match last_stored f h with Some b => Ok (slice_to n b) | None => Raise FileNotFoundError end
  | MakeDirectory => Ok tt
  | MakeTemporary _ => Ok (u "config.tmp")
  | WriteTemporary _ _ | ReplaceFile _ _ | Unlink _ => Ok tt
  | TokenVariable => Ok (Some (u "EAAG-token-0123456789"))
  | ReadCredential => Ok BlobOther
  | WriteCredential _ => Ok tt
  | DeleteCredential => Ok None
  | Which launcher => Ok (Some (u "C:\Programs\" ++ launcher))
  | Processes => Ok [mkProcess (Some (u "LeagueClientUx.exe"))
      (Some [u "LeagueClientUx.exe"; u "--app-port=2999"; u "--remoting-auth-token=secret"]) (Some (u "PC\ana"))]
  | CurrentUser => Ok (u "Ana")
  | Monotonic => Ok (slept h)
  | WallClock => Ok 1700000000
  | DrawToken => Ok (u "abcdefghijk")
  | Battery => Ok None
  | NetworkInterfaces => Ok []
  | SystemReadings => Ok (mkReadings (FFin false 1000 0) (FFin false 4601 0) (u "PC") (u "Windows") (u "10.0") (FFin false 5 0)
      (FFin false 40 0) (6 * 2 ^ 30) (FFin false 50 0) (100 * 2 ^ 30))
  | VolumeReading => Ok (u "Speakers", FFin false 1 (-1), false)
  | Sleep _ | Popen _ _ _ | PressKey _ _ | OpenAudio | CloseAudio | SetVolume _ | SetMute _ | LockStation => Ok tt
  | OpenBrowser _ => Ok true
  | LeagueCall _ _ method path _ => league h method path
  | CloudCall _ _ _ => Ok (200, [])
  end.

Definition sample_machine : Machine := {| windows := true; answer A := @sample_answer A |}.

Lemma slept_nonneg h : 0 <= slept h.
Proof using Type. clear. induction h as [|[A o] h IH]; cbn [slept]; [lia|]. destruct o; lia. Qed.

#[export] Instance sample_clock : ClockLaws sample_machine.
Proof using files league.
  refine {| clock := slept : list event → Z |}.
  - done.
  - intros h new. induction new as [|[A o] new IH]; cbn [app slept]; [lia|]. destruct o; lia.
  - intros h d Hd. split; [done|]. cbn [slept]. lia.
Defined.

Lemma written_last name h : written (W := sample_machine) name h = last_written name h.
Proof using files league. induction h as [|[A o] h IH]; [done|]. cbn [written last_written]. destruct o; try done. by rewrite andb_true_r, IH. Qed.

Lemma stored_last f h b : stored (W := sample_machine) f h = Some b → last_stored f h = Some b.
Proof using files league.
  induction h as [|[A o] h IH]; [done|]. cbn [stored last_stored]. destruct o; try done.
  rewrite andb_true_r. case_bool_decide; [|done]. by rewrite written_last.
Qed.

#[export] Instance sample_files : FileLaws sample_machine.
Proof using files league.
  split.
  - intros f h b Hs%stored_last. cbn. by rewrite Hs.
  - intros f h b n Hs%stored_last. cbn. by rewrite Hs.
Qed.
#[export] Instance sample_lookup : LookupLaws sample_machine.
Proof using files league. by split. Qed.
End Sample.
