(* ===== verification/Apps.v ===== *)
(** * The application allowlist: [windows-agent/tools/apps.py]

    The configuration file that says which programs the agent may start, its
    validator, the search for an application by name and the launch.  Paths
    are those of [pathlib.PureWindowsPath] and [ntpath] (Python 3.12). *)
From S2P Require Import Prelude Dict Value Effects Json JsonParse JsonRoundtrip JsonIndent TextPolicy PyText Wire.
From S2P Require Import Machine.

(** [unicodedata.category] *)
Class UnicodeCategories := category : Z → pystr.

(** Some categories, the others being letters. *)
Definition plain_categories : UnicodeCategories := λ c,
  if (c <? 32) || ((127 <=? c) && (c <=? 159)) then u "Cc"
  else if ((0x200B <=? c) && (c <=? 0x200F)) || ((0x202A <=? c) && (c <=? 0x202E))
    || ((0x2060 <=? c) && (c <=? 0x2069)) || (c =? 0xFEFF) then u "Cf"
  else if surrogate c then u "Cs" else u "Lo".

(** ** Windows paths *)

Definition is_separator (c : Z) : bool := (c =? 92) || (c =? 47).
Definition backslashes (p : pystr) : pystr := (λ c, if c =? 47 then 92 else c) <$> p.

(** [ntpath.splitroot]: drive, root and the rest. *)
Definition splitroot (p : pystr) : pystr * pystr * pystr :=
  match backslashes p with
  | 92 :: 92 :: _ =>
    let start := if bool_decide (lower_ascii <$> take 8 (backslashes p) = u "\\?\unc\") then 8%nat else 2%nat in
    let '(server, r) := span_until is_separator (drop start p) in
    let '(share, r2) := span_until is_separator (drop 1 r) in
    match r, r2 with
    | _ :: _, sep :: r3 => (take (length p - length r2) p, [sep], r3)
    | _, _ => (p, [], [])
    end
  | 92 :: _ => ([], take 1 p, drop 1 p)
  | _ :: 58 :: 92 :: _ => (take 2 p, take 1 (drop 2 p), drop 3 p)
  | _ :: 58 :: _ => (take 2 p, [], drop 2 p)
  | _ => ([], [], p)
  end.

(** [Path(p).name]: the last part that is not empty and not a dot. *)
Definition path_name (p : pystr) : pystr :=
  let '(_, _, rel) := splitroot (backslashes p) in
  default [] (last (filter (λ x, x ≠ [] ∧ x ≠ u ".") (split_on 92 rel))).

(** [Path(p).suffix] *)
Definition path_suffix (p : pystr) : pystr :=
  let '(stem, found, ext) := rpartition_at 46 (path_name p) in
  if found && nonempty stem && nonempty ext then 46 :: ext else [].

(** [os.path.dirname(p)] *)
Definition rstrip_separators (p : pystr) : pystr :=
  let '(_, r) := span_until (λ c, negb (is_separator c)) (reverse p) in reverse r.
Definition dirname (p : pystr) : pystr :=
  let '(d, r, rest) := splitroot p in
  let '(_, head) := span_until is_separator (reverse rest) in
  d ++ r ++ rstrip_separators (reverse head).

(** ** The policy *)

Definition MAX_APP_ID_LENGTH : Z := 64.
Definition MAX_APPS : Z := 64.
Definition MAX_CONFIG_FILE_BYTES : Z := 128 * 1024.
Definition MAX_ALIASES_PER_APP : Z := 32.
Definition MAX_ALIAS_LENGTH : Z := 80.
Definition MAX_COMMAND_ARGUMENTS : Z := 32.
Definition MAX_COMMAND_ARGUMENT_LENGTH : Z := 1024.
Definition _APP_FIELDS : list pystr := u <$> ["aliases"; "command"; "enabled"]%string.
Definition _BLOCKED_LAUNCHERS : list literal := [
  "cmd"; "cmd.exe"; "command.com"; "powershell"; "powershell.exe"; "pwsh"; "pwsh.exe"; "wscript"; "wscript.exe";
  "cscript"; "cscript.exe"; "bash"; "bash.exe"; "sh"; "sh.exe"; "python"; "python.exe"; "python3"; "python3.exe";
  "py"; "py.exe"; "node"; "node.exe"; "nodejs"; "nodejs.exe"; "perl"; "perl.exe"; "ruby"; "ruby.exe"; "php";
  "php.exe"; "java"; "java.exe"; "javaw"; "javaw.exe"; "dotnet"; "dotnet.exe"; "wsl"; "wsl.exe"; "mshta";
  "mshta.exe"; "rundll32"; "rundll32.exe"; "regsvr32"; "regsvr32.exe"; "installutil"; "installutil.exe"; "csi";
  "csi.exe"]%string.
Definition _BLOCKED_SHELL_SWITCHES : list literal := ["/c"; "/k"; "-command"; "-encodedcommand"; "-file"]%string.
Definition _BLOCKED_SCRIPT_SUFFIXES : list literal := [
  ".bat"; ".cmd"; ".hta"; ".js"; ".jse"; ".ps1"; ".psm1"; ".sh"; ".vbe"; ".vbs"; ".wsh"; ".wsf"]%string.

(** A validated entry of the file. *)
Record app_entry := mkApp { aliases : list pystr; command : list pystr; enabled : bool }.
Abbreviation app_table := (dict pystr app_entry).

Section Apps.
Context `{T : UnicodeText} `{C : UnicodeCategories} `{W : Machine}.

Definition _is_forbidden_label_character (c : Z) : bool :=
  one_of (category c) ["Cc"; "Cf"; "Cs"; "Co"; "Cn"]%string.

(** [command] is not empty wherever this is called. *)
Definition _uses_shell_launcher (command : list pystr) : bool :=
  let launcher_path := default [] (head command) in
  one_of (casefold_text (path_name launcher_path)) _BLOCKED_LAUNCHERS
  || one_of (casefold_text (path_suffix launcher_path)) _BLOCKED_SCRIPT_SUFFIXES
  || existsb (λ argument, one_of (casefold_text argument) _BLOCKED_SHELL_SWITCHES) (tail command).

Definition resolve_launcher (launcher : pystr) : M desktop (option pystr) :=
  if negb (nonempty launcher) || _uses_shell_launcher [launcher] then mret None
  else
    call (Which launcher) ≫= λ resolved,
    mret (match resolved with
          | Some r => if _uses_shell_launcher [r] then None else Some r
          | None => None
          end).

(** ** The validator *)

Definition app_id_ok (app_id : pystr) : bool :=
  nonempty (strip app_id) && bool_decide (app_id = strip app_id) && (len app_id <=? MAX_APP_ID_LENGTH)
  && negb (existsb _is_forbidden_label_character app_id).

Definition alias_ok (alias : pystr) : bool :=
  nonempty (strip alias) && bool_decide (alias = strip alias) && (len alias <=? MAX_ALIAS_LENGTH)
  && negb (existsb _is_forbidden_label_character alias).

Definition argument_ok (argument : pystr) : bool :=
  nonempty argument && (len argument <=? MAX_COMMAND_ARGUMENT_LENGTH) && negb (existsb control_char argument).

(** The strings of a list, when there is nothing else in it. *)
Definition strings (v : value) : option (list pystr) := as_list v ≫= mapM as_str.

(** One entry of the file, before its labels are compared with the others'. *)
Definition validate_app (app_data : value) : option app_entry :=
  match app_data with
  | VDict d =>
    if negb (keys_within _APP_FIELDS d) then None
    else
      match strings (get (u "aliases") d), strings (get (u "command") d), as_bool (get_or (u "enabled") (VBool true) d) with
      | Some aliases, Some command, Some enabled =>
        if nonempty aliases && (len aliases <=? MAX_ALIASES_PER_APP) && forallb alias_ok aliases
          && nonempty command && (len command <=? MAX_COMMAND_ARGUMENTS) && forallb argument_ok command
          && negb (_uses_shell_launcher command)
        then Some (mkApp aliases command enabled) else None
      | _, _, _ => None
      end
  | _ => None
  end.

(** The aliases of one application; one of them may repeat its identifier,
    once. *)
Fixpoint claim_aliases (app_id app_folded : pystr) (seen_own : bool) (aliases : list pystr) (seen_labels : dict pystr pystr)
  : result (dict pystr pystr) :=
  match aliases with
  | [] => Ok seen_labels
  | alias :: aliases' =>
    let folded := casefold_text alias in
    if bool_decide (folded = app_folded) then
      if seen_own then Raise AppsConfigError else claim_aliases app_id app_folded true aliases' seen_labels
    else if dmem folded seen_labels then Raise AppsConfigError
    else claim_aliases app_id app_folded seen_own aliases' (dset folded app_id seen_labels)
  end.

Definition claim_labels (app_id : pystr) (a : app_entry) (seen_labels : dict pystr pystr) : result (dict pystr pystr) :=
  let app_folded := casefold_text app_id in
  if dmem app_folded seen_labels then Raise AppsConfigError
  else claim_aliases app_id app_folded false (aliases a) (dset app_folded app_id seen_labels).

Fixpoint validate_entries (items : object) (validated : app_table) (seen_labels : dict pystr pystr) : result app_table :=
  match items with
  | [] => Ok validated
  | (app_id, app_data) :: items' =>
    if negb (app_id_ok app_id) then Raise AppsConfigError
    else match validate_app app_data with
         | None => Raise AppsConfigError
         | Some a =>
           seen_labels ← claim_labels app_id a seen_labels;
           validate_entries items' (dset app_id a validated) seen_labels
         end
  end.

Definition validate_apps_config (apps : value) : result app_table :=
  match apps with
  | VDict d => if MAX_APPS <? len d then Raise AppsConfigError else validate_entries d [] []
  | _ => Raise AppsConfigError
  end.

(** ** Loading and saving *)

Definition _get_apps_file : M desktop config_file :=
  call (FileExists AppsLocal) ≫= λ local, mret (if local : bool then AppsLocal else AppsDefault).

Definition load_apps (include_disabled : bool) : M desktop app_table :=
  _get_apps_file ≫= λ apps_file,
  except
    (call (ReadFile apps_file (MAX_CONFIG_FILE_BYTES + 1)) ≫= λ raw,
     if MAX_CONFIG_FILE_BYTES <? len raw then raise AppsConfigError
     else lift (d ← parse_json_object (RawBytes raw); validate_apps_config (VDict d)) ≫= λ apps,
     mret (if include_disabled then apps else filter (λ kv, enabled kv.2 = true) apps))
    [FileNotFoundError; OSError; UnicodeDecodeError; ProtocolError]
    (raise AppsConfigError).

Definition app_value (a : app_entry) : value :=
  VDict [(u "aliases", VList (VStr <$> aliases a)); (u "command", VList (VStr <$> command a));
         (u "enabled", VBool (enabled a))].
Definition apps_value (t : app_table) : value := VDict ((λ kv, (kv.1, app_value kv.2)) <$> t).

Definition save_apps (apps : value) : M desktop app_table :=
  lift (validate_apps_config apps) ≫= λ validated,
  lift (indent_bytes (apps_value validated)) ≫= λ encoded,
  if MAX_CONFIG_FILE_BYTES <? len encoded then raise AppsConfigError
  else replace_file AppsLocal encoded AppsConfigError ≫= λ _, mret validated.

(** ** Finding and opening *)

(** A name or an alias of the entry, without regard to case. *)
Definition answers_to (query : pystr) (app_id : pystr) (a : app_entry) : bool :=
  bool_decide (query = lower_text app_id) || existsb (λ alias, bool_decide (query = lower_text alias)) (aliases a).

Fixpoint search_apps (query : pystr) (apps : app_table) : option (pystr * app_entry) :=
  match apps with
  | [] => None
  | (app_id, a) :: apps' => if answers_to query app_id a then Some (app_id, a) else search_apps query apps'
  end.

Definition find_app (app_name : pystr) : M desktop (option (pystr * app_entry)) :=
  let app_name := strip (lower_text app_name) in
  load_apps false ≫= λ apps, mret (search_apps app_name apps).

Definition message (s : pystr) : pystr * value := (u "message", VStr s).

Definition open_app (app_name : pystr) : M desktop object :=
  find_app app_name ≫= λ found,
  match found with
  | None => mret [(u "success", VBool false); message (u "No conozco la aplicación '" ++ app_name ++ u "'.")]
  | Some (app_id, a) =>
    resolve_launcher (default [] (head (command a))) ≫= λ launcher,
    match launcher with
    | None =>
      mret [(u "success", VBool false); (u "app", VStr app_id);
            message (u "No he podido resolver el lanzador de '" ++ app_id ++ u "'.")]
    | Some launcher =>
      except
        (let cwd := if windows && nonempty (dirname launcher) then Some (dirname launcher) else None in
         call (Popen (launcher :: tail (command a)) windows cwd) ≫= λ _,
         mret [(u "success", VBool true); (u "app", VStr app_id); message (u "Aplicación '" ++ app_id ++ u "' abierta.")])
        [OSError]
        (mret [(u "success", VBool false); (u "app", VStr app_id);
               message (u "No he podido abrir '" ++ app_id ++ u "'.")])
    end
  end.
End Apps.

(** ** The validator *)

Lemma strings_ok v l : strings v = Some l ↔ v = VList (VStr <$> l).
Proof.
  unfold strings. split.
  - destruct v as [| | | | |vs|]; try done. cbn. intros H. f_equal. apply mapM_Some in H.
    induction H as [|x y vs l Hx _ IH]; [done|]. csimpl. rewrite <- IH. destruct x; try done. by injection Hx as ->.
  - intros ->. cbn. apply mapM_Some. induction l; csimpl; by constructor.
Qed.

Section Facts.
Context `{T : UnicodeText} {HT : UnicodeTextLaws T} `{C : UnicodeCategories} `{W : Machine}.

(** What a validated entry satisfies. *)
Record app_ok (a : app_entry) : Prop := {
  a_aliases : nonempty (aliases a) && (len (aliases a) <=? MAX_ALIASES_PER_APP) && forallb alias_ok (aliases a) = true;
  a_command : nonempty (command a) && (len (command a) <=? MAX_COMMAND_ARGUMENTS) && forallb argument_ok (command a) = true;
  a_direct : _uses_shell_launcher (command a) = false
}.

Lemma validate_app_ok v a : validate_app v = Some a → app_ok a.
Proof using Type.
  unfold validate_app. destruct v; try done. destruct (negb _); [done|].
  destruct (strings _) as [al|]; [|done]. destruct (strings _) as [co|]; [|done]. destruct (as_bool _) as [en|]; [|done].
  destruct (_ && _) eqn:E; [|done]. intros [= <-]. rewrite !andb_true_iff, negb_true_iff in E.
  destruct E as ((((((H1 & H2) & H3) & H4) & H5) & H6) & H7).
  split; cbn; [by rewrite H1, H2, H3|by rewrite H4, H5, H6|done].
Qed.

Lemma validate_app_value a : app_ok a → validate_app (app_value a) = Some a.
Proof using Type.
  intros [Ha Hc Hd]. unfold validate_app, app_value.
  assert (∀ v1 v2 v3 : value, keys_within _APP_FIELDS [(u "aliases", v1); (u "command", v2); (u "enabled", v3)] = true) as Hkeys by done.
  rewrite Hkeys. cbn [negb]. assert (∀ v1 v2 v3 : value, get (u "aliases") [(u "aliases", v1); (u "command", v2); (u "enabled", v3)] = v1 ∧
    get (u "command") [(u "aliases", v1); (u "command", v2); (u "enabled", v3)] = v2 ∧
    get_or (u "enabled") (VBool true) [(u "aliases", v1); (u "command", v2); (u "enabled", v3)] = v3) as Hget by done.
  destruct (Hget (VList (VStr <$> aliases a)) (VList (VStr <$> command a)) (VBool (enabled a))) as (-> & -> & ->).
  rewrite !(proj2 (strings_ok _ _) eq_refl). cbn [as_bool].
  rewrite !andb_true_iff in Ha, Hc. destruct Ha as [[-> ->] ->], Hc as [[-> ->] ->]. rewrite Hd. by destruct a.
Qed.

Definition labels (app_id : pystr) (a : app_entry) : list pystr := app_id :: aliases a.

Lemma claim_aliases_ok app_id app_folded seen_own al seen seen' :
  dget app_folded seen = Some app_id → claim_aliases app_id app_folded seen_own al seen = Ok seen' →
  (∀ k v, dget k seen = Some v → dget k seen' = Some v) ∧ (∀ l, l ∈ al → dget (casefold_text l) seen' = Some app_id).
Proof using Type.
  revert seen_own seen. induction al as [|alias al IH]; intros own seen Hown; cbn [claim_aliases].
  { intros [= <-]. split; [done|]. by intros l ?%not_elem_of_nil. }
  case_bool_decide as Hf.
  - destruct own; [done|]. intros [Hk Hl]%IH; [|done]. split; [done|].
    intros l [->|Hin]%elem_of_cons; [|by apply Hl]. rewrite Hf. by apply Hk.
  - destruct (dmem _ seen) eqn:Em; [done|]. apply dmem_false in Em. intros [Hk Hl]%IH.
    + split.
      * intros k v Hkv. apply Hk. rewrite dget_dset. case_decide; [congruence|done].
      * intros l [->|Hin]%elem_of_cons; [|by apply Hl]. apply Hk, dget_dset_eq.
    + rewrite dget_dset. case_decide; [congruence|done].
Qed.

Lemma claim_labels_ok app_id a seen seen' :
  claim_labels app_id a seen = Ok seen' →
  dget (casefold_text app_id) seen = None ∧ (∀ k v, dget k seen = Some v → dget k seen' = Some v) ∧
  (∀ l, l ∈ labels app_id a → dget (casefold_text l) seen' = Some app_id).
Proof using Type.
  unfold claim_labels. cbv zeta. destruct (dmem _ seen) eqn:Em; [done|]. apply dmem_false in Em.
  intros [Hk Hl]%claim_aliases_ok; [|apply dget_dset_eq]. split; [done|]. split.
  - intros k v Hkv. apply Hk. rewrite dget_dset. case_decide; [congruence|done].
  - intros l [->|Hin]%elem_of_cons; [|by apply Hl]. apply Hk, dget_dset_eq.
Qed.

(** Every label of the table is claimed by its application. *)
Definition claimed (apps : app_table) (seen : dict pystr pystr) : Prop :=
  ∀ id a l, (id, a) ∈ apps → l ∈ labels id a → dget (casefold_text l) seen = Some id.

Lemma validate_entries_ok items apps seen apps' :
  dwf apps → claimed apps seen → Forall (λ kv, app_id_ok kv.1 = true ∧ app_ok kv.2) apps →
  validate_entries items apps seen = Ok apps' →
  ∃ seen' new, claimed apps' seen' ∧ apps' = apps ++ new ∧ dwf apps' ∧ dkeys new = dkeys items ∧
    Forall (λ kv, app_id_ok kv.1 = true ∧ app_ok kv.2) apps'.
Proof using Type.
  revert apps seen. induction items as [|[id v] items IH]; intros apps seen Hwf Hcl Hok; cbn [validate_entries].
  { intros [= <-]. exists seen, []. by rewrite app_nil_r. }
  destruct (negb _) eqn:Ei; [done|]. apply negb_false_iff in Ei.
  destruct (validate_app v) as [a|] eqn:Ea; [|done]. apply validate_app_ok in Ea.
  destruct (claim_labels id a seen) as [seen1|] eqn:El; [|done]. cbn [mbind result_bind].
  apply claim_labels_ok in El as (Hnew & Hkeep & Hlab).
  assert (dget id apps = None) as Hid.
  { apply dget_None. intros ([id' a'] & -> & Hin)%list_elem_of_fmap. cbn in Hnew.
    specialize (Hcl id' a' id' Hin ltac:(by left)). congruence. }
  rewrite dset_fresh by done. intros H.
  destruct (IH (apps ++ [(id, a)]) seen1) as (seen' & new & Hcl' & -> & Hwf' & Hk & Hok'); [..|done|].
  - rewrite <- dset_fresh by done. by apply dset_wf.
  - intros id' a' l [Hin|Hin]%elem_of_app Hl.
    + by eapply Hkeep, Hcl.
    + apply list_elem_of_singleton in Hin as [= -> ->]. by apply Hlab.
  - apply Forall_app. split; [done|]. by apply Forall_singleton.
  - exists seen', ((id, a) :: new). rewrite <- app_assoc in *. cbn [app] in *. split_and!; try done. cbn. by f_equal.
Qed.

Lemma validate_apps_ok v apps :
  validate_apps_config v = Ok apps →
  ∃ d seen, v = VDict d ∧ claimed apps seen ∧ dwf apps ∧ dkeys apps = dkeys d ∧ len apps <= MAX_APPS ∧
    Forall (λ kv, app_id_ok kv.1 = true ∧ app_ok kv.2) apps.
Proof using Type.
  unfold validate_apps_config. destruct v as [| | | | | |d]; try done. destruct (MAX_APPS <? len d) eqn:El; [done|].
  intros H. destruct (validate_entries_ok d [] [] apps) as (seen & new & Hcl & -> & Hwf & Hk & Hok); try done.
  - constructor.
  - by intros ? ? ? ?%not_elem_of_nil.
  - exists d, seen. split_and!; try done. cbn [app] in *. apply (f_equal len) in Hk. unfold dkeys in Hk. rewrite !len_fmap in Hk. lia.
Qed.

(** ** Names find one application *)

Lemma answers_to_label q id a : answers_to q id a = true ↔ ∃ l, l ∈ labels id a ∧ q = lower_text l.
Proof using Type.
  unfold answers_to, labels. rewrite orb_true_iff, bool_decide_eq_true, existsb_exists. split.
  - intros [->|(l & Hl & Hq)]; [exists id; split; [by left|done]|]. reflect. exists l. split; [|done].
    right. by apply list_elem_of_In.
  - intros (l & [->|Hl]%elem_of_cons & ->); [by left|]. right. exists l. split; [by apply list_elem_of_In|].
    by apply bool_decide_eq_true.
Qed.

Lemma search_apps_some q apps id a :
  search_apps q apps = Some (id, a) → (id, a) ∈ apps ∧ answers_to q id a = true.
Proof using Type.
  induction apps as [|[id' a'] apps IH]; cbn [search_apps]; [done|].
  destruct (answers_to q id' a') eqn:E; [intros [= -> ->]; split; [by left|done]|].
  intros [? ?]%IH. split; [by right|done].
Qed.

Lemma search_apps_none q apps id a : search_apps q apps = None → (id, a) ∈ apps → answers_to q id a = false.
Proof using Type.
  induction apps as [|[id' a'] apps IH]; cbn [search_apps]; [by intros _ ?%not_elem_of_nil|].
  destruct (answers_to q id' a') eqn:E; [done|]. intros Hn [[= -> ->]|Hin]%elem_of_cons; [done|by apply IH].
Qed.

(** A spoken name selects an application without ambiguity: the entry
    found is the only enabled entry of the validated file that bears the name,
    whatever the order of the file, and no such entry is missed. *)
Theorem app_names_unambiguous v apps q id a :
  validate_apps_config v = Ok apps →
  search_apps q (filter (λ kv, enabled kv.2 = true) apps) = Some (id, a) ↔
  (id, a) ∈ apps ∧ enabled a = true ∧ answers_to q id a = true.
Proof using HT.
  intros (d & seen & _ & Hcl & Hwf & _)%validate_apps_ok. split.
  - intros [Hin Ha]%search_apps_some. by apply list_elem_of_filter in Hin as [? ?].
  - intros (Hin & Hen & Ha).
    destruct (search_apps q _) as [[id' a']|] eqn:E.
    + apply search_apps_some in E as [Hin' Ha']. apply list_elem_of_filter in Hin' as [_ Hin'].
      apply answers_to_label in Ha as (l & Hl & ->), Ha' as (l' & Hl' & Hq). apply (f_equal casefold_text) in Hq.
      rewrite !casefold_lower in Hq. pose proof (Hcl _ _ _ Hin Hl) as H1. pose proof (Hcl _ _ _ Hin' Hl') as H2.
      rewrite Hq, H2 in H1. injection H1 as ->. do 2 f_equal.
      apply (elem_dget _ _ _ Hwf) in Hin, Hin'. congruence.
    + eapply search_apps_none in E; [by rewrite Ha in E|]. by apply list_elem_of_filter.
Qed.

(** ** What opening an application does *)

(** Between the histories [h0] and [h1] the machine was asked [o] and answered
    [x]. *)
Definition asked {A : Set} (h0 h1 : history) (o : op A) (x : A) : Prop :=
  ∃ h, h0 `suffix_of` h ∧ Event o :: h `suffix_of` h1 ∧ answer h o = Ok x.

(** The enabled applications of the configuration read in between. *)
Definition configured (h0 h1 : history) (apps : app_table) : Prop :=
  ∃ f raw d all, f ∈ [AppsLocal; AppsDefault] ∧
    asked h0 h1 (ReadFile f (MAX_CONFIG_FILE_BYTES + 1)) raw ∧ len raw <= MAX_CONFIG_FILE_BYTES ∧
    parse_json_object (RawBytes raw) = Ok d ∧ validate_apps_config (VDict d) = Ok all ∧
    apps = filter (λ kv, enabled kv.2 = true) all.

(** The command line of an entry that bears the name, its own launcher
    resolved. *)
Definition allowlisted (h0 h1 : history) (name : pystr) (argv : list pystr) : Prop :=
  ∃ apps id a original arguments launcher,
    configured h0 h1 apps ∧ (id, a) ∈ apps ∧ answers_to (strip (lower_text name)) id a = true ∧
    command a = original :: arguments ∧ asked h0 h1 (Which original) (Some launcher) ∧
    argv = launcher :: arguments ∧ _uses_shell_launcher argv = false.

Definition app_event (launches : list pystr → Prop) (e : event) : Prop :=
  match e with
  | Event o =>
    match o with
    | FileExists f => f = AppsLocal
    | ReadFile f n => (f = AppsLocal ∨ f = AppsDefault) ∧ n = MAX_CONFIG_FILE_BYTES + 1
    | Which _ => True
    | Popen argv _ _ => launches argv
    | _ => False
    end
  end.

(** The readings of [open_app]. *)
Abbreviation app_reading := (app_event (λ _, False)).

Lemma asked_more {A : Set} h0 h1 h2 (o : op A) x : h1 `suffix_of` h2 → asked h0 h1 o x → asked h0 h2 o x.
Proof using Type. intros H12 (h & H0 & H1 & Ha). exists h. split_and!; [done|by etransitivity|done]. Qed.
Lemma configured_more h0 h1 h2 apps : h1 `suffix_of` h2 → configured h0 h1 apps → configured h0 h2 apps.
Proof using Type.
  intros H12 (f & raw & d & all & Hf & Hr & ?). exists f, raw, d, all. split_and!; try naive_solver. by eapply asked_more.
Qed.

Lemma load_apps_run w w1 r :
  load_apps false w = (w1, r) →
  ∃ new, events w1 = new ++ events w ∧ Forall app_reading new ∧ ∀ apps, r = Ok apps → configured (events w) (events w1) apps.
Proof using Type.
  unfold load_apps, _get_apps_file. intros H. unfold mbind at 1, M_bind at 1 in H.
  unfold mbind at 1, M_bind at 1, call at 1 in H.
  destruct (answer (events w) (FileExists AppsLocal)) as [b|e]; cbv beta iota in H.
  2:{ injection H as <- <-. exists [Event (FileExists AppsLocal)]. split_and!; [done|by apply Forall_singleton|done]. }
  unfold mret at 1, M_ret at 1 in H. cbv beta iota in H. set (f := if b : bool then AppsLocal else AppsDefault) in H.
  set (h := Event (FileExists AppsLocal) :: events w). set (o := ReadFile f (MAX_CONFIG_FILE_BYTES + 1)) in H.
  assert (w1 = mkDesktop (Event o :: h) (active_timers w) ∧ ∀ apps, r = Ok apps → ∃ raw d all, answer h o = Ok raw ∧
    len raw <= MAX_CONFIG_FILE_BYTES ∧ parse_json_object (RawBytes raw) = Ok d ∧ validate_apps_config (VDict d) = Ok all ∧
    apps = filter (λ kv, enabled kv.2 = true) all) as [-> Hr].
  { revert H. unfold except, mbind, M_bind, call, lift, raise, mret, M_ret, result_bind. cbn [events log active_timers]. fold h.
    destruct (answer h o) as [raw|e]; [|by case_match; intros [= <- <-]].
    destruct (_ <? len raw) eqn:El; [by intros [= <- <-]|]. reflect.
    destruct (parse_json_object (RawBytes raw)) as [d|e] eqn:Ed; [|by case_match; intros [= <- <-]].
    destruct (validate_apps_config (VDict d)) as [all|e] eqn:Ea; [|by case_match; intros [= <- <-]].
    intros [= <- <-]. split; [done|]. intros apps [= <-]. by exists raw, d, all. }
  exists [Event o; Event (FileExists AppsLocal)]. split_and!; [done| |].
  - apply Forall_cons. split; [|by apply Forall_singleton]. split; [|done]. destruct b; [by left|by right].
  - intros apps Ha. destruct (Hr apps Ha) as (raw & d & all & Hraw & ?). exists f, raw, d, all.
    split_and!; try naive_solver; [destruct b; repeat constructor|]. exists h. split_and!; [|done|done]. by exists [Event (FileExists AppsLocal)].
Qed.

Lemma configured_direct h0 h1 apps id a : configured h0 h1 apps → (id, a) ∈ apps → app_ok a ∧ enabled a = true.
Proof using Type.
  intros (f & raw & d & all & _ & _ & _ & _ & Ha & ->) [He Hin]%list_elem_of_filter.
  apply validate_apps_ok in Ha as (d' & seen & _ & _ & _ & _ & _ & Hok). split; [|done].
  rewrite Forall_forall in Hok. by apply (Hok _ Hin).
Qed.

Lemma direct_command launcher args :
  _uses_shell_launcher [launcher] = false → existsb (λ x, one_of (casefold_text x) _BLOCKED_SHELL_SWITCHES) args = false →
  _uses_shell_launcher (launcher :: args) = false.
Proof using Type.
  unfold _uses_shell_launcher. cbv zeta. cbn [head tail default existsb]. rewrite !orb_false_iff. naive_solver.
Qed.

(** [open_app] reads, and then it may start the command line of the entry. *)
Lemma open_app_run name w w' r :
  open_app name w = (w', r) →
  ∃ reads, Forall app_reading reads ∧
    ((events w' = reads ++ events w ∧ ∀ o, r = Ok o → is_true (get (u "success") o) = false) ∨
     ∃ argv no_window cwd, events w' = Event (Popen argv no_window cwd) :: reads ++ events w ∧
       allowlisted (events w) (reads ++ events w) name argv ∧
       ∀ o, r = Ok o → is_true (get (u "success") o) = is_ok (answer (reads ++ events w) (Popen argv no_window cwd))).
Proof using Type.
  intros H. unfold open_app, find_app in H. unfold mbind at 1, M_bind at 1 in H. unfold mbind at 1, M_bind at 1 in H.
  destruct (load_apps false w) as [w1 r1] eqn:El. destruct (load_apps_run _ _ _ El) as (new & Hn & Hf & Hc).
  destruct r1 as [apps|e]; [|injection H as <- <-; exists new; split; [done|by left]].
  unfold mret at 1, M_ret at 1 in H. cbv beta iota in H. specialize (Hc apps eq_refl).
  destruct (search_apps _ apps) as [[id a]|] eqn:Es; [|injection H as <- <-; exists new; split; [done|left; split; [done|by intros o [= <-]]]].
  apply search_apps_some in Es as [Hin Ha]. destruct (configured_direct _ _ _ _ _ Hc Hin) as [[_ Hne Hd] _].
  destruct (command a) as [|original arguments] eqn:Ecmd; [done|].
  change (default [] (head (original :: arguments))) with original in H. cbn [tail] in H.
  unfold mbind at 1, M_bind at 1, resolve_launcher in H.
  destruct (_ || _); [injection H as <- <-; exists new; split; [done|left; split; [done|by intros o [= <-]]]|].
  unfold mbind at 1, M_bind at 1, call at 1 in H. set (w2 := log (Event (Which original)) w1) in H.
  set (reads := Event (Which original) :: new). assert (events w2 = reads ++ events w) as Hreads by (cbn; by rewrite Hn).
  assert (Forall app_reading reads) as Hrd by by constructor. exists reads. split; [done|]. rewrite <- Hreads.
  destruct (answer (events w1) (Which original)) as [[launcher|]|e] eqn:Ew; cbv beta iota in H;
    [|unfold mret, M_ret in H; cbv beta iota in H; injection H as <- <-; left; split; [done|by intros o [= <-]]|injection H as <- <-; by left].
  unfold mret at 1, M_ret at 1 in H. cbv beta iota in H.
  destruct (_uses_shell_launcher [launcher]) eqn:Eu; [injection H as <- <-; left; split; [done|by intros o [= <-]]|].
  right. set (cwd := if windows && nonempty (dirname launcher) then Some (dirname launcher) else None) in H.
  exists (launcher :: arguments), windows, cwd.
  assert (events w1 `suffix_of` events w2) as Hsuf by by exists [Event (Which original)].
  assert (allowlisted (events w) (events w2) name (launcher :: arguments)) as Hallow.
  { exists apps, id, a, original, arguments, launcher. split_and!; try done.
    - by eapply configured_more.
    - exists (events w1). split_and!; [by exists new|done|done].
    - apply direct_command; [done|]. unfold _uses_shell_launcher in Hd. by apply orb_false_iff in Hd as [_ Hd]. }
  revert H. unfold except, mbind, M_bind, call, mret, M_ret.
  destruct (answer (events w2) (Popen (launcher :: arguments) windows cwd)) as [[]|e] eqn:Ea; cbn [is_ok].
  - intros [= <- <-]. split_and!; [done..|]. by intros o [= <-].
  - destruct (caught e [OSError]); intros [= <- <-]; (split_and!; [done..|]); by intros o [= <-].
Qed.

Lemma open_app_does name : does (app_event (λ argv, ∃ h0 h1, allowlisted h0 h1 name argv)) (open_app name).
Proof using Type.
  intros w. split; [|done]. unfold grows. destruct (open_app name w) as [w' r] eqn:E. cbn [fst].
  destruct (open_app_run _ _ _ _ E) as (reads & Hr & Hcase).
  assert (Forall (app_event (λ argv, ∃ h0 h1, allowlisted h0 h1 name argv)) reads) as Hr'.
  { eapply Forall_impl; [exact Hr|]. intros [A o]. by destruct o. }
  destruct Hcase as [[-> _]|(argv & nw & cwd & -> & Ha & _)]; [by exists reads|].
  exists (Event (Popen argv nw cwd) :: reads). split; [done|]. constructor; [|done]. by eexists _, _.
Qed.

(** ** Saved files *)

Lemma claimed_snoc id a apps seen seen' :
  claimed apps seen → (∀ k v, dget k seen = Some v → dget k seen' = Some v) →
  (∀ l, l ∈ labels id a → dget (casefold_text l) seen' = Some id) → claimed (apps ++ [(id, a)]) seen'.
Proof using Type.
  intros Hcl Hk Hl id' a' l [Hin|Hin]%elem_of_app Hlab; [by eapply Hk, Hcl|].
  apply list_elem_of_singleton in Hin as [= -> ->]. by apply Hl.
Qed.

(** The printed form of a validated table is validated as that table. *)
Lemma validate_entries_again items apps seen apps' :
  claimed apps seen → validate_entries items apps seen = Ok apps' →
  ∃ new, apps' = apps ++ new ∧ validate_entries ((λ kv, (kv.1, app_value kv.2)) <$> new) apps seen = Ok apps'.
Proof using Type.
  revert apps seen. induction items as [|[id v] items IH]; intros apps seen Hcl; cbn [validate_entries].
  { intros [= <-]. exists []. by rewrite app_nil_r. }
  destruct (negb _) eqn:Ei; [done|]. destruct (validate_app v) as [a|] eqn:Ea; [|done]. apply validate_app_ok in Ea.
  destruct (claim_labels id a seen) as [seen1|] eqn:El; [|done]. cbn [mbind result_bind].
  pose proof (claim_labels_ok _ _ _ _ El) as (Hnew & Hkeep & Hlab).
  assert (dget id apps = None) as Hid.
  { apply dget_None. intros ([id' a'] & -> & Hin)%list_elem_of_fmap. cbn in Hnew.
    specialize (Hcl id' a' id' Hin ltac:(by left)). congruence. }
  rewrite dset_fresh by done. intros H.
  destruct (IH (apps ++ [(id, a)]) seen1) as (new & -> & Hagain); [by eapply claimed_snoc|done|].
  exists ((id, a) :: new). rewrite <- app_assoc in *. split; [done|].
  rewrite fmap_cons. cbn [validate_entries fst snd]. rewrite Ei, (validate_app_value _ Ea), El. cbn [mbind result_bind].
  by rewrite dset_fresh.
Qed.

Lemma apps_value_valid v apps : validate_apps_config v = Ok apps → validate_apps_config (apps_value apps) = Ok apps.
Proof using Type.
  intros H. pose proof (validate_apps_ok _ _ H) as (d & _ & -> & _ & _ & _ & Hlen & _).
  unfold validate_apps_config in H. destruct (MAX_APPS <? len d) eqn:El; [done|].
  apply validate_entries_again in H as (new & -> & Hagain); [|by intros ? ? ? ?%not_elem_of_nil].
  cbn [app] in *. unfold validate_apps_config, apps_value. rewrite len_fmap. by rewrite (proj2 (Z.ltb_ge _ _)).
Qed.

Definition code_points (s : pystr) : Prop := Forall (λ c, 0 <= c) s.

Lemma plain_strings v l : plain v → strings v = Some l → Forall code_points l.
Proof using Type. intros Hp ->%strings_ok. apply plain_list in Hp. rewrite Forall_fmap in Hp. done. Qed.

Lemma plain_get k d : plain (VDict d) → plain (get k d).
Proof using Type.
  intros [_ Hd]%plain_dict. unfold get. destruct (dget k d) as [v|] eqn:E; [|done]. apply dget_elem in E.
  rewrite Forall_forall in Hd. by apply (Hd _ E).
Qed.

Lemma plain_app v a : plain v → validate_app v = Some a → plain (app_value a).
Proof using Type.
  intros Hp. unfold validate_app. destruct v as [| | | | | |d]; try done. destruct (negb _); [done|].
  destruct (strings (get (u "aliases") d)) as [al|] eqn:Eal; [|done].
  destruct (strings (get (u "command") d)) as [co|] eqn:Eco; [|done]. destruct (as_bool _) as [en|]; [|done].
  destruct (_ && _); [|done]. intros [= <-].
  apply plain_strings in Eal; [|by apply plain_get]. apply plain_strings in Eco; [|by apply plain_get].
  assert (∀ l, Forall code_points l → plain (VList (VStr <$> l))) as Hl.
  { intros l Hl. apply plain_list_intro. by rewrite Forall_fmap. }
  apply plain_dict_intro; [by apply (bool_decide_unpack _)|].
  repeat constructor; cbn [fst snd aliases command]; try (by apply (bool_decide_unpack _)); by apply Hl.
Qed.

Lemma plain_entries items apps seen apps' :
  Forall (λ kv, code_points kv.1 ∧ plain kv.2) items → Forall (λ kv, code_points kv.1 ∧ plain (app_value kv.2)) apps →
  validate_entries items apps seen = Ok apps' → Forall (λ kv, code_points kv.1 ∧ plain (app_value kv.2)) apps'.
Proof using Type.
  intros Hi. revert apps seen. induction Hi as [|[id v] items [Hc Hp] _ IH]; intros apps seen Ha; cbn [validate_entries].
  { by intros [= <-]. }
  destruct (negb _); [done|]. destruct (validate_app v) as [a|] eqn:Ea; [|done].
  unfold mbind, result_bind. destruct (claim_labels id a seen) as [seen1|]; [|done]. apply IH.
  apply Forall_forall. intros [k b] [[-> ->]|Hin]%dset_elem.
  - split; [done|]. by eapply plain_app.
  - rewrite Forall_forall in Ha. by apply Ha.
Qed.

Lemma plain_apps v apps : plain v → validate_apps_config v = Ok apps → plain (apps_value apps).
Proof using Type.
  intros Hp H. pose proof (validate_apps_ok _ _ H) as (d & seen & -> & _ & Hwf & _).
  apply plain_dict in Hp as [_ Hp]. unfold validate_apps_config in H. destruct (MAX_APPS <? len d); [done|].
  apply plain_entries in H; [|done|constructor]. apply plain_dict_intro; [|by rewrite Forall_fmap].
  unfold dwf. by rewrite <- list_fmap_compose.
Qed.

(** Saving is all or nothing, and a load finds the saved table for as long as
    the file is not replaced. *)
Lemma save_apps_exact `{!FileLaws W} v w w' r :
  plain v → save_apps v w = (w', r) →
  match r with
  | Ok apps => validate_apps_config v = Ok apps ∧
      ∀ w1, stored AppsLocal (events w1) = stored AppsLocal (events w') → (load_apps true w1).2 = Ok apps
  | Raise _ => stored AppsLocal (events w') = stored AppsLocal (events w)
  end.
Proof using Type.
  intros Hp. unfold save_apps, mbind at 1, M_bind at 1, lift.
  destruct (validate_apps_config v) as [apps|e] eqn:Ev; [|by intros [= <- <-]].
  unfold mbind at 1, M_bind at 1. destruct (indent_bytes _) as [b|e] eqn:Eb; [|by intros [= <- <-]].
  destruct (_ <? len b) eqn:El; [by intros [= <- <-]|].
  unfold mbind at 1, M_bind at 1. destruct (replace_file AppsLocal b AppsConfigError w) as [w1 r1] eqn:Er.
  apply replace_file_atomic in Er as [Hs _]. destruct r1 as [[]|e]; intros [= <- <-]; [|done]. split; [done|].
  cbn [is_ok] in Hs. intros w2 Hw2. rewrite Hs in Hw2.
  assert (parse_json_object (RawBytes b) = Ok ((λ kv, (kv.1, app_value kv.2)) <$> apps)) as Hparse.
  { apply parse_json_object_indent; [by eapply plain_apps|done]. }
  unfold load_apps, _get_apps_file, mbind, M_bind, call, except, mret, M_ret, lift.
  cbn [events log]. rewrite (stored_exists AppsLocal _ _ Hw2).
  cbn [events log]. rewrite (stored_read AppsLocal (Event (FileExists AppsLocal) :: events w2) b) by done.
  assert (slice_to (MAX_CONFIG_FILE_BYTES + 1) b = b) as ->.
  { unfold slice_to. apply take_ge. unfold len in El. lia. }
  rewrite El, Hparse. cbn [result_bind]. fold (apps_value apps). by rewrite (apps_value_valid _ _ Ev).
Qed.

(** saving the allowlist is all or nothing, and what it saves is what the
    agent runs from then on.  When the call returns, every later load reads
    back the validated table; when it raises, the file is what it was. *)
Theorem saved_apps_reload `{!FileLaws W} v w w' r :
  plain v → save_apps v w = (w', r) →
  match r with
  | Ok apps => validate_apps_config v = Ok apps ∧ (load_apps true w').2 = Ok apps
  | Raise _ => stored AppsLocal (events w') = stored AppsLocal (events w)
  end.
Proof using Type.
  intros Hp Hs. apply save_apps_exact in Hs; [|done]. destruct r as [apps|e]; [|done]. destruct Hs as [Hv Hl]. split; [done|].
  by apply Hl.
Qed.

(** A table that validates is returned as it is. *)
Lemma validate_app_same a b : validate_app (app_value a) = Some b → b = a.
Proof using Type.
  unfold validate_app, app_value. assert (∀ v1 v2 v3 : value, keys_within _APP_FIELDS [(u "aliases", v1); (u "command", v2); (u "enabled", v3)] = true) as Hkeys by done.
  rewrite Hkeys. cbn [negb].
  change (get (u "aliases") _) with (VList (VStr <$> aliases a)). change (get (u "command") _) with (VList (VStr <$> command a)).
  change (get_or (u "enabled") _ _) with (VBool (enabled a)). rewrite !(proj2 (strings_ok _ _) eq_refl). cbn [as_bool].
  destruct (_ && _); [|done]. intros [= <-]. by destruct a.
Qed.
Lemma validate_entries_same t apps seen apps' :
  claimed apps seen → validate_entries ((λ kv, (kv.1, app_value kv.2)) <$> t) apps seen = Ok apps' → apps' = apps ++ t.
Proof using Type.
  revert apps seen. induction t as [|[id a] t IH]; intros apps seen Hcl; [intros [= <-]; by rewrite app_nil_r|].
  rewrite fmap_cons. cbn [validate_entries fst snd]. destruct (negb _); [done|].
  destruct (validate_app (app_value a)) as [b|] eqn:Eb; [|done]. apply validate_app_same in Eb as ->.
  destruct (claim_labels id a seen) as [seen1|] eqn:El; [|done]. cbn [mbind result_bind].
  pose proof (claim_labels_ok _ _ _ _ El) as (Hnew & Hkeep & Hlab).
  rewrite dset_fresh.
  - intros H. apply IH in H as ->; [by rewrite <- app_assoc|]. by eapply claimed_snoc.
  - apply dget_None. intros ([id' a'] & -> & Hin)%list_elem_of_fmap. cbn in Hnew.
    specialize (Hcl id' a' id' Hin ltac:(by left)). congruence.
Qed.
Lemma apps_value_same t t' : validate_apps_config (apps_value t) = Ok t' → t' = t.
Proof using Type.
  unfold validate_apps_config, apps_value. destruct (_ <? _); [done|].
  intros H%validate_entries_same; [done|]. by intros ? ? ? ?%not_elem_of_nil.
Qed.
Lemma load_apps_valid w w' apps : load_apps true w = (w', Ok apps) → ∃ v, validate_apps_config v = Ok apps.
Proof using Type.
  unfold load_apps, _get_apps_file, mbind, M_bind, except, call, mret, M_ret, lift, raise.
  destruct (answer (events w) _) as [b|]; [|done]. cbn [events log]. destruct (answer _ (ReadFile _ _)) as [raw|x].
  - destruct (_ <? len raw); [done|]. cbn [result_bind]. destruct (parse_json_object _) as [d|x].
    + cbn [result_bind]. destruct (validate_apps_config (VDict d)) as [t|x] eqn:E; [|by repeat case_match].
      intros [= _ <-]. by exists (VDict d).
    + cbn. by repeat case_match.
  - by repeat case_match.
Qed.

Lemma grows_events {A} (m : M desktop A) w : does (λ _, True) m → ∃ new, events (m w).1 = new ++ events w.
Proof using Type. intros [(new & Hn & _) _]%(λ H, H w). by exists new. Qed.

(** C35: opening an application runs no program but one the configuration
    allows.  Whatever the machine answers, the call first only asks for the
    configuration and the path of a launcher; then it starts nothing, and does
    not report success, or it starts one command line: the arguments of an
    enabled entry that bears the name in the configuration it has just read,
    after the path the machine has just given for the entry's own launcher,
    none of them a shell, an interpreter or a script.  Success is reported
    exactly when the machine started it. *)
Theorem open_app_allowlisted name w w' r :
  open_app name w = (w', r) →
  ∃ reads, Forall (app_event (λ _, False)) reads ∧
    ((events w' = reads ++ events w ∧ ∀ o, r = Ok o → is_true (get (u "success") o) = false) ∨
     ∃ argv no_window cwd, events w' = Event (Popen argv no_window cwd) :: reads ++ events w ∧
       allowlisted (events w) (reads ++ events w) name argv ∧
       ∀ o, r = Ok o → is_true (get (u "success") o) = is_ok (answer (reads ++ events w) (Popen argv no_window cwd))).
Proof using Type. exact (open_app_run name w w' r). Qed.
End Facts.

(** ** Samples *)

Definition entry (aliases command : list literal) : value :=
  VDict [(u "aliases", VList (VStr ∘ u <$> aliases)); (u "command", VList (VStr ∘ u <$> command))].
Definition sample_apps : value :=
  VDict [(u "calculator", entry ["Calculadora"; "calculator"] ["calc.exe"]); (u "codex", entry ["Codex"] ["codex"; "--new"])]%string.
Definition sample_table : app_table :=
  [(u "calculator", mkApp [u "Calculadora"; u "calculator"] [u "calc.exe"] true);
   (u "codex", mkApp [u "Codex"] [u "codex"; u "--new"] true)].
Definition sample_files (f : config_file) : option bytes :=
  match f with AppsLocal => match indent_bytes sample_apps with Ok b => Some b | _ => None end | _ => None end.
Definition no_league (_ : history) (_ _ : pystr) : result (Z * bytes) := Raise OSError.
Definition app_machine : Machine := sample_machine sample_files no_league.
Definition start : desktop := mkDesktop [] [].

Lemma app_names_unambiguous_witness :
  let T := ascii_text in let C := plain_categories in
  search_apps (u "calculadora") (filter (λ kv, enabled kv.2 = true) sample_table)
    = Some (u "calculator", mkApp [u "Calculadora"; u "calculator"] [u "calc.exe"] true) ↔
  (u "calculator", mkApp [u "Calculadora"; u "calculator"] [u "calc.exe"] true) ∈ sample_table ∧ true = true ∧
  answers_to (T := ascii_text) (u "calculadora") (u "calculator") (mkApp [u "Calculadora"; u "calculator"] [u "calc.exe"] true) = true.
Proof. apply (app_names_unambiguous (T := ascii_text) (C := plain_categories) sample_apps sample_table). by vm_compute. Defined.

Lemma saved_apps_reload_witness :
  let T := ascii_text in let C := plain_categories in let W := app_machine in
  validate_apps_config sample_apps = Ok sample_table ∧
  (load_apps true (save_apps sample_apps start).1).2 = Ok sample_table.
Proof.
  apply (saved_apps_reload (T := ascii_text) (C := plain_categories) (W := app_machine) sample_apps start _ (Ok sample_table)).
  - apply is_plain_ok. by vm_compute.
  - by vm_compute.
Defined.

Lemma open_app_allowlisted_witness :
  let T := ascii_text in let C := plain_categories in let W := app_machine in
  let run := open_app (u " CODEX") start in
  len (events run.1) = 4 ∧
  ∃ reads, Forall (app_event (λ _, False)) reads ∧
    ((events run.1 = reads ++ [] ∧ ∀ o, run.2 = Ok o → is_true (get (u "success") o) = false) ∨
     ∃ argv no_window cwd, events run.1 = Event (Popen argv no_window cwd) :: reads ++ [] ∧
       allowlisted [] (reads ++ []) (u " CODEX") argv ∧
       ∀ o, run.2 = Ok o → is_true (get (u "success") o) = is_ok (answer (reads ++ []) (Popen argv no_window cwd))).
Proof.
  split; [by vm_compute|].
  apply (open_app_allowlisted (T := ascii_text) (C := plain_categories) (W := app_machine) (u " CODEX") start).
  by rewrite <- surjective_pairing.
Defined.

(** The launch itself, and what the tests of the repository refuse. *)
Example codex_launch :
  let T := ascii_text in let C := plain_categories in let W := app_machine in
  head (events (open_app (u " CODEX") start).1) = Some (Event (Popen [u "C:\Programs\codex"; u "--new"] true (Some (u "C:\Programs")))).
Proof. by vm_compute. Qed.

Example refused_apps :
  let T := ascii_text in let C := plain_categories in
  Forall (λ v, validate_apps_config v = Raise AppsConfigError)
    [VDict [(u "demo", entry ["demo"] ["cmd.exe"; "/c"; "demo.exe"])]; VDict [(u "demo", entry ["demo"] ["C:\tools/Demo.PS1"])];
     VDict [(u "demo", entry ["demo"] ["C:\Windows\py.EXE"])]; VDict [(u "demo", entry ["demo"; "DEMO"; "demo"] ["demo.exe"])];
     VDict [(u " demo", entry ["demo"] ["demo.exe"])]; VDict [(u "demo", entry ["demo"] [String.EmptyString])];
     VDict [(u "first", entry ["shared"] ["first.exe"]); (u "second", entry ["SHARED"] ["second.exe"])]]%string.
Proof. repeat constructor. Qed.

(** The allowlist of blocked names is not closed: an interpreter under another
    file name is accepted. *)
Example windowed_interpreter_accepted :
  let T := ascii_text in let C := plain_categories in
  is_ok (validate_apps_config (VDict [(u "demo", entry ["demo"] ["pythonw.exe"; "payload"])]%string)) = true.
Proof. by vm_compute. Qed.
