(* ===== verification/Contacts.v ===== *)
(** * Local contacts: [windows-agent/tools/contacts.py]

    The private aliases of messaging and voice destinations: the validator of
    the file, and the resolution of a spoken alias.  The theorems: a validated
    file names no two contacts alike, so an alias resolves to one destination,
    and that destination is a well-formed number or channel. *)
From S2P Require Import Prelude Dict Value Effects JsonParse TextPolicy PyText Urls Wire Machine Apps.

Definition MAX_CONTACTS : Z := 64.
Definition MAX_CONFIG_FILE_BYTES : Z := 128 * 1024.
Definition MAX_ALIASES_PER_CONTACT : Z := 16.
Definition MAX_ALIAS_LENGTH : Z := 80.
Definition _CONTACT_FIELDS : list pystr :=
  u <$> ["aliases"; "whatsapp_phone"; "discord_channel_id"; "discord_guild_id"]%string.

Record Contact := mkContact {
  name : pystr;
  aliases : list pystr;
  whatsapp_phone : option pystr;
  discord_channel_id : option pystr;
  discord_guild_id : option pystr
}.
Abbreviation contact_table := (dict pystr Contact).

Section Contacts.
Context `{T : UnicodeText} `{U : UrlData} `{C : UnicodeCategories} `{W : Machine}.

Definition _fold (v : pystr) : pystr := filter (λ c, combining c = false) (nfkd (casefold_text v)).

Definition _text (v : value) (maximum : Z) : result pystr :=
  match v with
  | VStr s =>
    let s := strip s in
    if negb (nonempty s) || (maximum <? len s) || existsb _is_forbidden_label_character s
    then Raise ContactsConfigError else Ok s
  | _ => Raise ContactsConfigError
  end.

(** [None] or a text. *)
Definition optional_text (v : value) (maximum : Z) : result (option pystr) :=
  match v with VNone => Ok None | v => s ← _text v maximum; Ok (Some s) end.
Definition str_or_none (s : option pystr) : value := match s with Some s => VStr s | None => VNone end.

Definition contact_aliases (name : pystr) (d : object) : result (list pystr) :=
  match get_or (u "aliases") (VList [VStr name]) d with
  | VList l =>
    if negb (nonempty l) || (MAX_ALIASES_PER_CONTACT <? len l) then Raise ContactsConfigError
    else
      aliases ← traverse (λ v, _text v MAX_ALIAS_LENGTH) l;
      _ ← ensure (bool_decide (NoDup (_fold <$> aliases))) ContactsConfigError;
      Ok aliases
  | _ => Raise ContactsConfigError
  end.

Definition contact_phone (d : object) : result (option pystr) :=
  match get (u "whatsapp_phone") d with
  | VNone => Ok None
  | v =>
    reraise [ValueError] ContactsConfigError
      (s ← _text v 32; p ← normalize_phone (VStr s); Ok (Some p))
  end.

Definition contact_channel (d : object) : result (option pystr * option pystr) :=
  match get (u "discord_channel_id") d, get (u "discord_guild_id") d with
  | VNone, VNone => Ok (None, None)
  | VNone, _ => Raise ContactsConfigError
  | channel, guild =>
    channel ← _text channel 20;
    guild ← optional_text guild 20;
    _ ← reraise [ValueError] ContactsConfigError (build_discord_channel_url (VStr channel) (str_or_none guild));
    Ok (Some channel, guild)
  end.

Definition validate_contact (raw_name : pystr) (raw_data : value) : result Contact :=
  name ← _text (VStr raw_name) MAX_ALIAS_LENGTH;
  match raw_data with
  | VDict d =>
    _ ← ensure (keys_within _CONTACT_FIELDS d) ContactsConfigError;
    aliases ← contact_aliases name d;
    phone ← contact_phone d;
    '(channel, guild) ← contact_channel d;
    match phone, channel with
    | None, None => Raise ContactsConfigError
    | _, _ => Ok (mkContact name aliases phone channel guild)
    end
  | _ => Raise ContactsConfigError
  end.

Fixpoint claim_aliases (name folded_name : pystr) (aliases : list pystr) (seen_labels : dict pystr pystr)
  : result (dict pystr pystr) :=
  match aliases with
  | [] => Ok seen_labels
  | alias :: aliases' =>
    let folded := _fold alias in
    if bool_decide (folded = folded_name) then claim_aliases name folded_name aliases' seen_labels
    else if dmem folded seen_labels then Raise ContactsConfigError
    else claim_aliases name folded_name aliases' (dset folded name seen_labels)
  end.

Fixpoint validate_entries (items : object) (contacts : contact_table) (seen_labels : dict pystr pystr)
  : result contact_table :=
  match items with
  | [] => Ok contacts
  | (raw_name, raw_data) :: items' =>
    contact ← validate_contact raw_name raw_data;
    let folded_name := _fold (name contact) in
    if dmem folded_name seen_labels then Raise ContactsConfigError
    else
      let contacts := dset folded_name contact contacts in
      seen_labels ← claim_aliases (name contact) folded_name (aliases contact) (dset folded_name (name contact) seen_labels);
      validate_entries items' contacts seen_labels
  end.

Definition validate_contacts (payload : value) : result contact_table :=
  match payload with
  | VDict d => if MAX_CONTACTS <? len d then Raise ContactsConfigError else validate_entries d [] []
  | _ => Raise ContactsConfigError
  end.

Definition load_contacts : M desktop contact_table :=
  call (FileExists ContactsLocal) ≫= λ exists_,
  if negb exists_ then mret []
  else
    except
      (call (ReadFile ContactsLocal (MAX_CONFIG_FILE_BYTES + 1)) ≫= λ raw,
       if MAX_CONFIG_FILE_BYTES <? len raw then raise ContactsConfigError
       else lift (d ← parse_json_object (RawBytes raw); validate_contacts (VDict d)))
      [OSError; UnicodeDecodeError; ProtocolError]
      (raise ContactsConfigError).

(** ** Resolution *)

Definition bears (folded : pystr) (c : Contact) : bool :=
  bool_decide (folded = _fold (name c)) || existsb (λ item, bool_decide (folded = _fold item)) (aliases c).

Definition _find (alias : pystr) : M desktop Contact :=
  lift (reraise [ContactsConfigError] ValueError (_text (VStr alias) MAX_ALIAS_LENGTH)) ≫= λ query,
  load_contacts ≫= λ contacts,
  match List.find (bears (_fold query)) (dvalues contacts) with
  | Some contact => mret contact
  | None => raise ValueError
  end.

Definition resolve_whatsapp_contact (alias : pystr) : M desktop (pystr * pystr) :=
  _find alias ≫= λ contact,
  match whatsapp_phone contact with
  | None => raise ValueError
  | Some phone => mret (name contact, phone)
  end.

Definition resolve_discord_contact (alias : pystr) : M desktop (pystr * pystr * option pystr) :=
  _find alias ≫= λ contact,
  match discord_channel_id contact with
  | None => raise ValueError
  | Some channel => mret (name contact, channel, discord_guild_id contact)
  end.
End Contacts.

Section Facts.
Context `{T : UnicodeText} {HT : UnicodeTextLaws T} `{U : UrlData} `{C : UnicodeCategories} `{W : Machine}.

(** A label a confirmation prompt can show: stripped, bounded, and free of
    invisible characters. *)
Definition clean_label (maximum : Z) (s : pystr) : Prop :=
  s ≠ [] ∧ strip s = s ∧ len s <= maximum ∧ Forall (λ c, _is_forbidden_label_character c = false) s.

Definition phone_ok (p : pystr) : Prop := forallb ascii_digit p = true ∧ 7 <= len p <= 15.
Definition snowflake_ok (s : pystr) : Prop := forallb ascii_digit s = true ∧ 17 <= len s <= 20.

Record contact_ok (c : Contact) : Prop := {
  c_name : clean_label MAX_ALIAS_LENGTH (name c);
  c_aliases : Forall (clean_label MAX_ALIAS_LENGTH) (aliases c);
  c_phone : ∀ p, whatsapp_phone c = Some p → phone_ok p;
  c_channel : ∀ s, discord_channel_id c = Some s → snowflake_ok s;
  c_guild : ∀ s, discord_guild_id c = Some s → snowflake_ok s ∧ discord_channel_id c ≠ None;
  c_reachable : whatsapp_phone c ≠ None ∨ discord_channel_id c ≠ None
}.

Lemma text_clean v n s : _text v n = Ok s → clean_label n s ∧ ∃ t, v = VStr t ∧ s = strip t.
Proof using Type.
  unfold _text. destruct v as [| | | |t| |]; try done. cbv zeta. destruct (_ || _) eqn:E; [done|]. intros [= <-].
  apply orb_false_iff in E as [E Hf]. apply orb_false_iff in E as [Hn Hl]. apply negb_false_iff, nonempty_ne in Hn.
  split; [|by exists t]. split_and!; [done|apply strip_idemp|lia|by apply existsb_false_Forall].
Qed.

Lemma snowflake_clean s n t : _validate_snowflake (VStr s) = Ok t → clean_label n s → t = s.
Proof using Type.
  intros H (_ & Hs & _). unfold _validate_snowflake in H. rewrite Hs in H. cbv zeta in H. result_inv. done.
Qed.

Lemma optional_text_ok v n s : optional_text v n = Ok (Some s) → _text v n = Ok s.
Proof using Type.
  intros H. assert (v ≠ VNone) as Hv by (by intros ->).
  assert (optional_text v n = (s ← _text v n; Ok (Some s))) as E by by destruct v. rewrite E in H.
  destruct (_text v n) as [t|]; [|done]. cbn [mbind result_bind] in H. by injection H as ->.
Qed.

Lemma contact_channel_ok d channel guild :
  contact_channel d = Ok (channel, guild) →
  (∀ s, channel = Some s → snowflake_ok s) ∧ (∀ s, guild = Some s → snowflake_ok s ∧ channel ≠ None).
Proof using Type.
  assert (∀ cv gv, (channel0 ← _text cv 20; guild0 ← optional_text gv 20;
      _ ← reraise [ValueError] ContactsConfigError (build_discord_channel_url (VStr channel0) (str_or_none guild0));
      Ok (Some channel0, guild0)) = Ok (channel, guild) →
    (∀ s, channel = Some s → snowflake_ok s) ∧ (∀ s, guild = Some s → snowflake_ok s ∧ channel ≠ None)) as Hmain.
  { intros cv gv. destruct (_text cv 20) as [ch|] eqn:Ec; [|done]. cbn [mbind result_bind].
    destruct (optional_text gv 20) as [g|] eqn:Eg; [|done]. cbn [mbind result_bind].
    apply text_clean in Ec as [Hc _]. destruct (reraise _ _ _) as [url|] eqn:Er; [|done].
    apply reraise_ok in Er. unfold build_discord_channel_url in Er.
    destruct (_validate_snowflake (VStr ch)) as [ch'|] eqn:Es; [|done]. cbn [mbind result_bind] in *. intros [= <- <-].
    pose proof (snowflake_clean _ _ _ Es Hc) as ->. apply snowflake_digits in Es.
    destruct g as [g|]; cbn [str_or_none] in Er.
    - destruct (_validate_snowflake (VStr g)) as [g'|] eqn:Egs; [|done].
      apply optional_text_ok, text_clean in Eg as [Hg _].
      pose proof (snowflake_clean _ _ _ Egs Hg) as ->. apply snowflake_digits in Egs. split; [by intros s [= <-]|].
      intros s [= <-]. by split.
    - split; [by intros s [= <-]|done]. }
  unfold contact_channel. destruct (get (u "discord_channel_id") d) eqn:E1; try (apply Hmain).
  destruct (get (u "discord_guild_id") d); try done. by intros [= <- <-].
Qed.

Lemma contact_phone_ok d p : contact_phone d = Ok (Some p) → phone_ok p.
Proof using Type.
  unfold contact_phone. destruct (get _ d); try done; intros H%reraise_ok;
    (destruct (_text _ 32) as [t|]; [|done]); cbn [mbind result_bind] in H;
    (destruct (normalize_phone (VStr t)) as [q|] eqn:En; [|done]);
    injection H as <-; by apply normalize_phone_digits in En.
Qed.

Lemma contact_aliases_ok n d l :
  contact_aliases n d = Ok l → Forall (clean_label MAX_ALIAS_LENGTH) l.
Proof using Type.
  unfold contact_aliases. destruct (get_or _ _ d); try done. destruct (_ || _); [done|].
  destruct (traverse _ _) as [al|] eqn:Et; [|done]. cbn [mbind result_bind]. destruct (ensure _ _); [|done].
  intros [= <-]. apply traverse_ok in Et. clear -Et. induction Et as [|v s vs l Hs _ IH]; constructor; [|done].
  by apply text_clean in Hs as [Hs _].
Qed.

Lemma validate_contact_ok raw v c : validate_contact raw v = Ok c → contact_ok c.
Proof using Type.
  unfold validate_contact. destruct (_text (VStr raw) _) as [n|] eqn:En; [|done]. cbn [mbind result_bind].
  destruct v as [| | | | | |d]; try done. destruct (ensure _ _); [|done]. cbn [mbind result_bind].
  destruct (contact_aliases n d) as [al|] eqn:Ea; [|done]. cbn [mbind result_bind].
  destruct (contact_phone d) as [phone|] eqn:Ep; [|done]. cbn [mbind result_bind].
  destruct (contact_channel d) as [[channel guild]|] eqn:Ec; [|done]. cbn [mbind result_bind].
  apply text_clean in En as [Hn _]. apply contact_aliases_ok in Ea. apply contact_channel_ok in Ec as [Hc Hg].
  assert (∀ p, phone = Some p → phone_ok p) as Hp by (intros p ->; by eapply contact_phone_ok).
  intros H. assert (c = mkContact n al phone channel guild ∧ (phone ≠ None ∨ channel ≠ None)) as [-> Hr].
  { destruct phone, channel; try done; injection H as <-; split; try done; by (left + right). }
  by split.
Qed.

Definition labels (c : Contact) : list pystr := name c :: aliases c.

Definition claimed (contacts : contact_table) (seen : dict pystr pystr) : Prop :=
  ∀ k c l, (k, c) ∈ contacts → l ∈ labels c → dget (_fold l) seen = Some (name c).

Lemma contact_claim_aliases_ok n al seen seen' :
  dget (_fold n) seen = Some n → claim_aliases n (_fold n) al seen = Ok seen' →
  (∀ k v, dget k seen = Some v → dget k seen' = Some v) ∧ (∀ l, l ∈ al → dget (_fold l) seen' = Some n).
Proof using Type.
  revert seen. induction al as [|alias al IH]; intros seen Hown; cbn [claim_aliases].
  { intros [= <-]. split; [done|]. by intros l ?%not_elem_of_nil. }
  case_bool_decide as Hf.
  - intros [Hk Hl]%IH; [|done]. split; [done|].
    intros l [->|Hin]%elem_of_cons; [|by apply Hl]. rewrite Hf. by apply Hk.
  - destruct (dmem _ seen) eqn:Em; [done|]. apply dmem_false in Em. intros [Hk Hl]%IH.
    + split.
      * intros k v Hkv. apply Hk. rewrite dget_dset. case_decide; [congruence|done].
      * intros l [->|Hin]%elem_of_cons; [|by apply Hl]. apply Hk, dget_dset_eq.
    + rewrite dget_dset. case_decide; [congruence|done].
Qed.

(** The invariant of the validator's loop. *)
Record table_ok (contacts : contact_table) (seen : dict pystr pystr) : Prop := {
  t_wf : dwf contacts;
  t_keys : Forall (λ kc, kc.1 = _fold (name kc.2)) contacts;
  t_claimed : claimed contacts seen;
  t_contacts : Forall (λ kc, contact_ok kc.2) contacts
}.

Lemma contact_entries_ok items contacts seen contacts' :
  table_ok contacts seen → validate_entries items contacts seen = Ok contacts' → ∃ seen', table_ok contacts' seen'.
Proof using Type.
  revert contacts seen. induction items as [|[raw v] items IH]; intros contacts seen Hok; cbn [validate_entries].
  { intros [= <-]. by exists seen. }
  destruct (validate_contact raw v) as [c|] eqn:Ec; [|done]. cbn [mbind result_bind]. cbv zeta.
  apply validate_contact_ok in Ec. destruct (dmem _ seen) eqn:Em; [done|]. apply dmem_false in Em.
  destruct (claim_aliases _ _ _ _) as [seen1|] eqn:El; [|done]. cbn [mbind result_bind].
  apply contact_claim_aliases_ok in El as [Hk Hl]; [|apply dget_dset_eq]. apply IH. destruct Hok as [Hwf Hkeys Hcl Hcs].
  assert (dget (_fold (name c)) contacts = None) as Hnew.
  { apply dget_None. intros ([k c'] & Hkc & Hin)%list_elem_of_fmap. cbn in Hkc.
    rewrite Forall_forall in Hkeys. pose proof (Hkeys _ Hin) as Hkey. cbn in Hkey.
    pose proof (Hcl _ _ (name c') Hin ltac:(by left)) as Hc'. congruence. }
  split.
  - by apply dset_wf.
  - rewrite dset_fresh by done. apply Forall_app. split; [done|]. by apply Forall_singleton.
  - intros k c' l [[-> ->]|Hin]%dset_elem Hlab.
    + apply elem_of_cons in Hlab as [->|Hlab]; [|by apply Hl]. apply Hk, dget_dset_eq.
    + apply Hk. rewrite dget_dset. case_decide as Hd; [|by eapply Hcl].
      pose proof (Hcl _ _ _ Hin Hlab). congruence.
  - rewrite dset_fresh by done. apply Forall_app. split; [done|]. by apply Forall_singleton.
Qed.

Lemma validate_contacts_ok v contacts : validate_contacts v = Ok contacts → ∃ seen, table_ok contacts seen.
Proof using Type.
  unfold validate_contacts. destruct v; try done. destruct (_ <? _); [done|]. apply contact_entries_ok.
  split; [constructor|constructor| |constructor]. by intros ? ? ? ?%not_elem_of_nil.
Qed.

Lemma bears_label q c : bears q c = true ↔ ∃ l, l ∈ labels c ∧ q = _fold l.
Proof using Type.
  unfold bears, labels. rewrite orb_true_iff, bool_decide_eq_true, existsb_exists. split.
  - intros [->|(l & Hl & Hq)]; [exists (name c); split; [by left|done]|]. reflect. exists l. split; [|done].
    right. by apply list_elem_of_In.
  - intros (l & [->|Hl]%elem_of_cons & ->); [by left|]. right. exists l. split; [by apply list_elem_of_In|].
    by apply bool_decide_eq_true.
Qed.

(** an alias stands for one destination: in a validated contact file the
    search finds a contact exactly when it bears the alias up to case and
    accents, the file's order does not matter, and the number or channel it
    carries is well formed. *)
Theorem contact_alias_exact v contacts q c :
  validate_contacts v = Ok contacts →
  (List.find (bears q) (dvalues contacts) = Some c ↔ c ∈ dvalues contacts ∧ bears q c = true) ∧
  (c ∈ dvalues contacts → contact_ok c).
Proof using Type.
  intros (seen & [Hwf Hkeys Hcl Hcs])%validate_contacts_ok. rewrite Forall_forall in Hkeys, Hcs.
  assert (∀ c1 c2, c1 ∈ dvalues contacts → c2 ∈ dvalues contacts → bears q c1 = true → bears q c2 = true → c1 = c2) as Huniq.
  { intros c1 c2 ([k1 c1'] & -> & H1)%list_elem_of_fmap ([k2 c2'] & -> & H2)%list_elem_of_fmap. cbn [snd].
    intros (l1 & Hl1 & ->)%bears_label (l2 & Hl2 & Hq)%bears_label.
    pose proof (Hcl _ _ _ H1 Hl1) as E1. pose proof (Hcl _ _ _ H2 Hl2) as E2. rewrite Hq, E2 in E1. injection E1 as E.
    pose proof (Hkeys _ H1) as K1. pose proof (Hkeys _ H2) as K2. cbn in K1, K2.
    apply elem_dget in H1, H2; [|done..]. congruence. }
  split; [split|].
  - intros [Hin Hb]%find_some. split; [by apply list_elem_of_In|done].
  - intros [Hin Hb]. destruct (List.find _ _) as [c'|] eqn:E.
    + apply find_some in E as [Hin' Hb']. apply list_elem_of_In in Hin'. f_equal. by apply Huniq.
    + eapply find_none in E; [by rewrite Hb in E|]. by apply list_elem_of_In.
  - intros ([k c'] & -> & Hin)%list_elem_of_fmap. by apply (Hcs _ Hin).
Qed.

(** ** What a resolution does *)

Definition contact_event (e : event) : Prop :=
  match e with
  | Event o => match o with FileExists f | ReadFile f _ => f = ContactsLocal | _ => False end
  end.

Lemma load_contacts_moves : moves (grows contact_event) (λ t, ∃ seen, table_ok t seen) load_contacts.
Proof using Type.
  unfold load_contacts. eapply (moves_bind _ (λ _, True)); [by apply (does_call contact_event)|]. intros [|] _; cbn [negb].
  - apply moves_except; [apply _| |apply moves_raise, _].
    eapply (moves_bind _ (λ _, True)); [by apply (does_call contact_event)|]. intros raw _.
    destruct (_ <? _); [apply moves_raise, _|]. apply moves_lift; [apply _|]. intros t.
    unfold mbind, result_bind. destruct (parse_json_object _); [|done]. apply validate_contacts_ok.
  - apply moves_ret; [apply _|]. exists []. split; [constructor..| |constructor]. by intros ? ? ? ?%not_elem_of_nil.
Qed.

Lemma find_moves alias : moves (grows contact_event) contact_ok (_find alias).
Proof using Type.
  unfold _find. eapply (moves_bind _ (λ _, True)); [by apply moves_lift; [apply _|]|]. intros q _.
  eapply moves_bind; [apply _|apply load_contacts_moves|]. intros t [seen Ht].
  destruct (List.find _ _) as [c|] eqn:E; [|apply moves_raise, _]. apply moves_ret; [apply _|].
  apply find_some in E as [Hin _]. apply list_elem_of_In, list_elem_of_fmap in Hin as ([k c'] & -> & Hin).
  destruct Ht as [_ _ _ Hc]. rewrite Forall_forall in Hc. by apply (Hc _ Hin).
Qed.

(** A resolved number is an international number, a resolved channel an
    identifier, and only the contact file is read. *)
Lemma resolve_whatsapp_moves alias :
  moves (grows contact_event) (λ np, phone_ok np.2) (resolve_whatsapp_contact alias).
Proof using Type.
  unfold resolve_whatsapp_contact. eapply moves_bind; [apply _|apply find_moves|]. intros c Hc.
  destruct (whatsapp_phone c) as [p|] eqn:E; [|apply moves_raise, _]. apply moves_ret; [apply _|].
  by apply (c_phone c Hc).
Qed.

Lemma resolve_discord_moves alias :
  moves (grows contact_event) (λ ncg, snowflake_ok ncg.1.2 ∧ ∀ g, ncg.2 = Some g → snowflake_ok g) (resolve_discord_contact alias).
Proof using Type.
  unfold resolve_discord_contact. eapply moves_bind; [apply _|apply find_moves|]. intros c Hc.
  destruct (discord_channel_id c) as [s|] eqn:E; [|apply moves_raise, _]. apply moves_ret; [apply _|].
  split; [by apply (c_channel c Hc)|]. intros g Hg. by apply (c_guild c Hc).
Qed.
End Facts.

(** ** Samples *)

Definition sample_contacts : value :=
  VDict [(u "Ana", VDict [(u "aliases", VList [VStr (u "ana"); VStr (u "hermana")]); (u "whatsapp_phone", VStr (u "+34 600 123 456"))]);
         (u "Club", VDict [(u "discord_channel_id", VStr (u "123456789012345678"))])].
Definition sample_table : contact_table :=
  [(u "ana", mkContact (u "Ana") [u "ana"; u "hermana"] (Some (u "34600123456")) None None);
   (u "club", mkContact (u "Club") [u "Club"] None (Some (u "123456789012345678")) None)].

Lemma contact_alias_exact_witness :
  let T := ascii_text in let U := plain_urls in let C := plain_categories in
  let ana := mkContact (u "Ana") [u "ana"; u "hermana"] (Some (u "34600123456")) None None in
  (List.find (bears (u "hermana")) (dvalues sample_table) = Some ana ↔ ana ∈ dvalues sample_table ∧ bears (u "hermana") ana = true) ∧
  (ana ∈ dvalues sample_table → contact_ok ana).
Proof.
  apply (contact_alias_exact (T := ascii_text) (U := plain_urls) (C := plain_categories) sample_contacts). by vm_compute.
Defined.

Example refused_contacts (T := ascii_text) (U := plain_urls) (C := plain_categories) :
  Forall (λ v, validate_contacts v = Raise ContactsConfigError)
    [VDict [(u "Ana", VDict [(u "whatsapp_phone", VStr (u "123"))])];
     VDict [(u "Ana", VDict [])];
     VDict [(u "Ana", VDict [(u "discord_guild_id", VStr (u "123456789012345678")); (u "whatsapp_phone", VStr (u "34600123456"))])];
     VDict [(u "Ana", VDict [(u "whatsapp_phone", VStr (u "34600123456"))]); (u "ANA", VDict [(u "whatsapp_phone", VStr (u "34600123457"))])];
     VDict [(u "Ana", VDict [(u "whatsapp_phone", VStr (u "34600123456")); (u "aliases", VList [VStr (u "x"); VStr (u "X")])])]].
Proof. repeat constructor. Qed.
