(* ===== verification/ControlConfig.v ===== *)
(** * The control panel's configuration: [windows-agent/tools/control_config.py]

    Which voice commands are enabled and with what phrase, how messages are
    delivered, and where the access token of the messaging service comes from.
    The theorems: the file the panel saves is read back as it was validated,
    and changing one preference changes that one only. *)
From S2P Require Import Prelude Dict Value Effects Json JsonParse JsonRoundtrip JsonIndent TextPolicy PyText Wire.
From S2P Require Import Machine.

Definition MAX_CONTROL_FILE_BYTES : Z := 64 * 1024.
Definition MAX_COMMAND_OVERRIDES : Z := 64.

(** [_COMMAND_ID], [_PHONE_NUMBER_ID] and [_API_VERSION] *)
Definition is_command_id (s : pystr) : bool :=
  match s with c :: s' => ascii_alpha c && matches_class word_char 0 63 s' | [] => false end.
Definition is_phone_number_id (s : pystr) : bool := matches_class ascii_digit 5 32 s.
Definition is_api_version (s : pystr) : bool :=
  match s with
  | 118 :: c :: s' =>
    let '(major, dot, minor) := partition_at 46 s' in
    (49 <=? c) && (c <=? 57) && dot && matches_class ascii_digit 0 2 major && matches_class ascii_digit 1 2 minor
  | _ => false
  end.

Record preference := mkPreference { enabled : bool; phrase : option pystr }.
Abbreviation preferences := (dict pystr preference).

Record whatsapp_settings := mkWhatsapp { mode : pystr; phone_number_id : pystr; api_version : pystr }.

(** The version is always 1. *)
Record control_config := mkControl { commands : preferences; whatsapp : whatsapp_settings }.

Definition _DEFAULT_CONFIG : control_config := mkControl [] (mkWhatsapp (u "manual") [] (u "v23.0")).

(** The same as the JSON values they are saved as. *)
Definition preference_value (p : preference) : value :=
  VDict ((u "enabled", VBool (enabled p)) :: match phrase p with Some s => [(u "phrase", VStr s)] | None => [] end).
Definition preferences_items (t : preferences) : object := (λ kp, (kp.1, preference_value kp.2)) <$> t.
Definition whatsapp_value (s : whatsapp_settings) : value :=
  VDict [(u "mode", VStr (mode s)); (u "phone_number_id", VStr (phone_number_id s)); (u "api_version", VStr (api_version s))].
Definition config_value (cs : object) (s : value) : value :=
  VDict [(u "version", VInt 1); (u "commands", VDict cs); (u "whatsapp", s)].
Definition control_value (c : control_config) : value :=
  config_value (preferences_items (commands c)) (whatsapp_value (whatsapp c)).

(** ** The validator *)

Definition validate_phrase (v : value) : result pystr :=
  s ← reraise [ValueError] ControlConfigError (validate_bounded_text v 256 false);
  if nonempty (strip s) then Ok (strip s) else Raise ControlConfigError.

Definition validate_preference (command_id : pystr) (v : value) : result preference :=
  match v with
  | VDict d =>
    if negb (is_command_id command_id && keys_within (u <$> ["enabled"; "phrase"]%string) d) then Raise ControlConfigError
    else
      match get_or (u "enabled") (VBool true) d, get (u "phrase") d with
      | VBool enabled, VNone => Ok (mkPreference enabled None)
      | VBool enabled, VStr phrase => s ← validate_phrase (VStr phrase); Ok (mkPreference enabled (Some s))
      | _, _ => Raise ControlConfigError
      end
  | _ => Raise ControlConfigError
  end.

Fixpoint validate_preferences (items : object) (t : preferences) : result preferences :=
  match items with
  | [] => Ok t
  | (command_id, v) :: items' => p ← validate_preference command_id v; validate_preferences items' (dset command_id p t)
  end.

Definition _validate_command_preferences (v : value) : result preferences :=
  match v with
  | VDict d => if MAX_COMMAND_OVERRIDES <? len d then Raise ControlConfigError else validate_preferences d []
  | _ => Raise ControlConfigError
  end.

(** [mode not in {...}]: looking up a list or an object in a set raises. *)
Definition known_mode (v : value) : result bool :=
  match v with
  | VStr s => Ok (one_of s ["manual"; "cloud_api"]%string)
  | VList _ | VDict _ => Raise TypeError
  | _ => Ok false
  end.

Definition _validate_whatsapp_settings (v : value) : result whatsapp_settings :=
  match v with
  | VDict d =>
    if negb (keys_within (u <$> ["mode"; "phone_number_id"; "api_version"]%string) d) then Raise ControlConfigError
    else
      let mode := get_or (u "mode") (VStr (u "manual")) d in
      known ← known_mode mode;
      match mode, get_or (u "phone_number_id") (VStr []) d, get_or (u "api_version") (VStr (u "v23.0")) d with
      | VStr mode, VStr phone_number_id, VStr api_version =>
        if negb known || (nonempty phone_number_id && negb (is_phone_number_id phone_number_id)) || negb (is_api_version api_version)
        then Raise ControlConfigError else Ok (mkWhatsapp mode phone_number_id api_version)
      | _, _, _ => Raise ControlConfigError
      end
  | _ => Raise ControlConfigError
  end.

Definition validate_control_config (v : value) : result control_config :=
  match v with
  | VDict d =>
    if negb (keys_within (u <$> ["version"; "commands"; "whatsapp"]%string) d) then Raise ControlConfigError
    else if negb (eq_int (get_or (u "version") (VInt 1) d) 1) then Raise ControlConfigError
    else
      commands ← _validate_command_preferences (get_or (u "commands") (VDict []) d);
      whatsapp ← _validate_whatsapp_settings (get_or (u "whatsapp") (VDict []) d);
      Ok (mkControl commands whatsapp)
  | _ => Raise ControlConfigError
  end.

Definition _parse_json_object (raw : bytes) : result object :=
  v ← loads_utf8 (λ pairs, reject_duplicates ControlConfigError pairs []) raw;
  match v with VDict d => Ok d | _ => Raise ControlConfigError end.

(** ** Loading and saving *)

Section Control.
Context `{W : Machine}.

Definition load_control_config : M desktop control_config :=
  call (FileExists ControlLocal) ≫= λ exists_,
  if negb exists_ then mret _DEFAULT_CONFIG
  else
    try_with
      (call (ReadFile ControlLocal (MAX_CONTROL_FILE_BYTES + 1)) ≫= λ raw,
       if MAX_CONTROL_FILE_BYTES <? len raw then raise ControlConfigError
       else lift (d ← _parse_json_object raw; validate_control_config (VDict d)))
      (λ e, if is_a e FileNotFoundError then mret _DEFAULT_CONFIG
            else if caught e [OSError; UnicodeDecodeError; JSONDecodeError] then raise ControlConfigError
            else raise e).

Definition save_control_config (v : value) : M desktop control_config :=
  lift (validate_control_config v) ≫= λ validated,
  lift (indent_bytes (control_value validated)) ≫= λ encoded,
  if MAX_CONTROL_FILE_BYTES <? len encoded then raise ControlConfigError
  else replace_file ControlLocal encoded ControlConfigError ≫= λ _, mret validated.

Definition get_command_preferences : M desktop preferences :=
  load_control_config ≫= λ config, mret (commands config).

(** [phrase] is [None] or a text. *)
Definition set_command_preference (command_id : pystr) (enabled : bool) (phrase : option pystr) : M desktop unit :=
  load_control_config ≫= λ config,
  save_control_config
    (config_value (dset command_id (preference_value (mkPreference enabled phrase)) (preferences_items (commands config)))
       (whatsapp_value (whatsapp config))) ≫= λ _, mret tt.

Definition reset_command_preference (command_id : pystr) : M desktop unit :=
  load_control_config ≫= λ config,
  save_control_config
    (config_value (ddel command_id (preferences_items (commands config))) (whatsapp_value (whatsapp config))) ≫= λ _, mret tt.

Definition get_whatsapp_settings : M desktop whatsapp_settings :=
  load_control_config ≫= λ config, mret (whatsapp config).

Definition set_whatsapp_settings (s : whatsapp_settings) : M desktop unit :=
  load_control_config ≫= λ config,
  save_control_config (config_value (preferences_items (commands config)) (whatsapp_value s)) ≫= λ _, mret tt.

(** ** The access token *)

Definition or_none (s : pystr) : option pystr := if nonempty s then Some s else None.

Definition _environment_access_token : M desktop (option pystr) :=
  call TokenVariable ≫= λ v, mret (or_none (strip (default [] v))).

(** [blob.decode("utf-16-le")]: a lone surrogate is an error. *)
Definition utf16_le (b : bytes) : result pystr :=
  match utf16_decode false b with
  | Some s => if existsb surrogate s then Raise UnicodeDecodeError else Ok s
  | None => Raise UnicodeDecodeError
  end.
Definition rstrip_nul (s : pystr) : pystr :=
  let '(_, r) := span_until (λ c, negb (c =? 0)) (reverse s) in reverse r.

Definition _credential_manager_access_token : M desktop (option pystr) :=
  if negb windows then mret None
  else
    except
      (call ReadCredential ≫= λ blob,
       match blob with
       | BlobBytes b => lift (utf16_le b) ≫= λ s, mret (or_none (strip (rstrip_nul s)))
       | BlobText s => mret (or_none (strip s))
       | BlobOther => mret None
       end)
      [Exception] (mret None).

Definition get_whatsapp_access_token : M desktop (option pystr) :=
  _environment_access_token ≫= λ token,
  match token with Some t => mret (Some t) | None => _credential_manager_access_token end.

Definition whatsapp_credential_source : M desktop pystr :=
  _environment_access_token ≫= λ token,
  match token with
  | Some _ => mret (u "environment")
  | None =>
    _credential_manager_access_token ≫= λ token,
    mret (match token with Some _ => u "windows_credential_manager" | None => u "none" end)
  end.

Definition store_whatsapp_access_token (access_token : value) : M desktop unit :=
  lift (s ← reraise [ValueError] ControlConfigError (validate_bounded_text access_token 4096 false); Ok (strip s)) ≫= λ token,
  if len token <? 20 then raise ControlConfigError
  else if negb windows then raise ControlConfigError
  else except (call (WriteCredential token)) [Exception] (raise ControlConfigError).

Definition delete_whatsapp_access_token : M desktop unit :=
  _environment_access_token ≫= λ token,
  match token with
  | Some _ => raise ControlConfigError
  | None =>
    if negb windows then mret tt
    else
      except (call DeleteCredential) [Exception] (raise ControlConfigError) ≫= λ code,
      match code with
      | None => mret tt
      | Some code => if code =? 1168 then mret tt else raise ControlConfigError
      end
  end.

Definition whatsapp_automatic_send_active : M desktop bool :=
  get_whatsapp_settings ≫= λ settings,
  if (mode settings =s "cloud_api") && nonempty (phone_number_id settings)
  then get_whatsapp_access_token ≫= λ token, mret (match token with Some _ => true | None => false end)
  else mret false.

Definition get_whatsapp_public_status : M desktop object :=
  get_whatsapp_settings ≫= λ settings,
  whatsapp_credential_source ≫= λ source,
  whatsapp_automatic_send_active ≫= λ active,
  mret [(u "mode", VStr (mode settings)); (u "automatic_send", VBool (mode settings =s "cloud_api"));
        (u "active", VBool active); (u "phone_number_id", VStr (phone_number_id settings));
        (u "api_version", VStr (api_version settings)); (u "credential_configured", VBool (negb (source =s "none")));
        (u "credential_source", VStr source)].
End Control.

(** ** Validated configurations *)

Definition phrase_ok (s : pystr) : Prop := bounded_text 256 false s ∧ strip s = s.
Definition preference_ok (command_id : pystr) (p : preference) : Prop :=
  is_command_id command_id = true ∧ ∀ s, phrase p = Some s → phrase_ok s.
Record settings_ok (s : whatsapp_settings) : Prop := {
  s_mode : one_of (mode s) ["manual"; "cloud_api"]%string = true;
  s_phone : nonempty (phone_number_id s) && negb (is_phone_number_id (phone_number_id s)) = false;
  s_version : is_api_version (api_version s) = true
}.
Record control_ok (c : control_config) : Prop := {
  k_wf : dwf (commands c);
  k_len : len (commands c) <= MAX_COMMAND_OVERRIDES;
  k_commands : Forall (λ kp, preference_ok kp.1 kp.2) (commands c);
  k_settings : settings_ok (whatsapp c)
}.

Lemma bounded_strip n lf s : bounded_text n lf s → bounded_text n lf (strip s).
Proof.
  intros (Hs & (b & Hb & Hl) & Hf). destruct (strip_segment s) as (x & y & E). split; [by rewrite strip_idemp|]. split.
  - rewrite E in Hb. apply utf8_encode_piece in Hb as (b' & Hb' & Hl'). exists b'. split; [done|lia].
  - rewrite E in Hf. by apply Forall_app in Hf as [_ [Hf _]%Forall_app].
Qed.

Lemma validate_phrase_spec v s : validate_phrase v = Ok s ↔ ∃ t, v = VStr t ∧ bounded_text 256 false t ∧ s = strip t.
Proof.
  unfold validate_phrase. split.
  - destruct (reraise _ _ _) as [t|] eqn:E; [|done]. cbn [mbind result_bind].
    apply reraise_ok, validate_bounded_text_spec in E as [-> Hb]. destruct (nonempty (strip t)); [|done].
    intros [= <-]. by exists t.
  - intros (t & -> & Hb & ->). rewrite (proj2 (validate_bounded_text_spec (VStr t) 256 false t)) by done.
    cbn [reraise mbind result_bind]. destruct Hb as [Hne%nonempty_ne _]. by rewrite Hne.
Qed.

Lemma validate_preference_ok id v p : validate_preference id v = Ok p → preference_ok id p.
Proof.
  unfold validate_preference. destruct v as [| | | | | |d]; try done. destruct (negb _) eqn:Ek; [done|].
  apply negb_false_iff, andb_true_iff in Ek as [Hid _].
  destruct (get_or _ _ d); try done. destruct (get _ d) as [| | | |ph| |] eqn:Ep; try done.
  - intros [= <-]. by split.
  - destruct (validate_phrase (VStr ph)) as [s|] eqn:Es; [|done]. intros [= <-]. split; [done|].
    intros s' [= <-]. apply validate_phrase_spec in Es as (t & _ & Hb & ->).
    split; [by apply bounded_strip|by apply strip_idemp].
Qed.

Lemma validate_preference_value id p en ph :
  is_command_id id = true → (∀ s, ph = Some s → bounded_text 256 false s) →
  p = mkPreference en (strip <$> ph) → validate_preference id (preference_value (mkPreference en ph)) = Ok p.
Proof.
  intros Hid Hph ->. unfold validate_preference, preference_value. destruct ph as [s|]; cbn [phrase enabled].
  - change (keys_within _ _) with true. rewrite Hid. cbn [negb andb].
    change (get_or (u "enabled") (VBool true) [(u "enabled", VBool en); (u "phrase", VStr s)]) with (VBool en).
    change (get (u "phrase") [(u "enabled", VBool en); (u "phrase", VStr s)]) with (VStr s). cbv iota.
    rewrite (proj2 (validate_phrase_spec (VStr s) (strip s))); [done|]. exists s. split_and!; [done|by apply Hph|done].
  - change (keys_within _ _) with true. by rewrite Hid.
Qed.

Lemma validate_preferences_ok items t t' :
  dwf t → Forall (λ kp, preference_ok kp.1 kp.2) t → validate_preferences items t = Ok t' →
  dwf t' ∧ Forall (λ kp, preference_ok kp.1 kp.2) t' ∧ len t' <= len t + len items.
Proof.
  revert t. induction items as [|[id v] items IH]; intros t Hwf Ht; cbn [validate_preferences].
  { intros [= <-]. split_and!; try done. rewrite len_nil. lia. }
  destruct (validate_preference id v) as [p|] eqn:Ep; [|done]. cbn [mbind result_bind]. apply validate_preference_ok in Ep.
  intros H. destruct (IH (dset id p t)) as (? & ? & Hl); [by apply dset_wf| |done|].
  - apply Forall_forall. intros [k q] [[-> ->]|Hin]%dset_elem; [done|]. rewrite Forall_forall in Ht. by apply (Ht _ Hin).
  - split_and!; try done. rewrite len_cons. pose proof (len_dset_le id p t). lia.
Qed.

Lemma validate_control_ok v c : validate_control_config v = Ok c → control_ok c.
Proof.
  unfold validate_control_config. destruct v as [| | | | | |d]; try done. destruct (negb _); [done|].
  destruct (negb _); [done|]. destruct (_validate_command_preferences _) as [cs|] eqn:Ec; [|done]. cbn [mbind result_bind].
  destruct (_validate_whatsapp_settings _) as [st|] eqn:Es; [|done]. intros [= <-].
  unfold _validate_command_preferences in Ec. destruct (get_or (u "commands") _ d) as [| | | | | |cd]; try done.
  destruct (_ <? _) eqn:El; [done|]. apply validate_preferences_ok in Ec as (Hwf & Hok & Hl); [|constructor..].
  split; [done| |done|]; cbn [commands whatsapp].
  - rewrite len_nil in Hl. lia.
  - unfold _validate_whatsapp_settings in Es. destruct (get_or (u "whatsapp") _ d) as [| | | | | |wd]; try done.
    destruct (negb _); [done|]. cbv zeta in Es. destruct (known_mode _) as [k|] eqn:Ek; [|done]. cbn [mbind result_bind] in Es.
    destruct (get_or (u "mode") _ wd) as [| | | |m| |]; try done.
    destruct (get_or (u "phone_number_id") _ wd) as [| | | |ph| |]; try done.
    destruct (get_or (u "api_version") _ wd) as [| | | |av| |]; try done.
    destruct (_ || _) eqn:Eo; [done|]. injection Es as <-. injection Ek as <-.
    apply orb_false_iff in Eo as [[Hm Hp]%orb_false_iff Hv]. apply negb_false_iff in Hm, Hv. by split.
Qed.

(** ** Saved configurations *)

Definition stripped (p : preference) : preference := mkPreference (enabled p) (strip <$> phrase p).

Lemma stripped_ok id p : preference_ok id p → stripped p = p.
Proof.
  intros [_ Hp]. destruct p as [en [s|]]; [|done]. unfold stripped. cbn [enabled phrase fmap option_fmap option_map].
  by destruct (Hp s eq_refl) as [_ ->].
Qed.

Lemma validate_preference_inv id p q : validate_preference id (preference_value p) = Ok q → q = stripped p.
Proof.
  destruct p as [en [s|]]; unfold preference_value; cbn [phrase enabled]; unfold validate_preference;
    destruct (negb _); try done.
  - change (get_or (u "enabled") (VBool true) [(u "enabled", VBool en); (u "phrase", VStr s)]) with (VBool en).
    change (get (u "phrase") [(u "enabled", VBool en); (u "phrase", VStr s)]) with (VStr s). cbv iota.
    destruct (validate_phrase (VStr s)) as [t|] eqn:E; [|done]. intros [= <-].
    by apply validate_phrase_spec in E as (? & [= <-] & _ & ->).
  - by intros [= <-].
Qed.

Abbreviation stripped_all t := ((λ kp, (kp.1, stripped kp.2)) <$> t).

Lemma validate_items_inv t acc t' :
  dwf (acc ++ t) → validate_preferences (preferences_items t) acc = Ok t' → t' = acc ++ stripped_all t.
Proof.
  revert acc. induction t as [|[id p] t IH]; intros acc Hwf; cbn [preferences_items fmap list_fmap validate_preferences fst snd].
  { intros [= <-]. by rewrite app_nil_r. }
  destruct (validate_preference _ _) as [q|] eqn:Eq; [|done]. cbn [mbind result_bind]. apply validate_preference_inv in Eq as ->.
  assert (dget id acc = None) as Hn.
  { apply dget_None. intros Hin. unfold dwf, dkeys in Hwf. rewrite fmap_app in Hwf.
    apply NoDup_app in Hwf as (_ & Hd & _). apply (Hd id Hin). by left. }
  rewrite dset_fresh by done. intros H. apply IH in H; [by rewrite H, <- app_assoc|].
  unfold dwf, dkeys in *. rewrite fmap_app in Hwf. by rewrite !fmap_app, <- app_assoc.
Qed.

Lemma validate_items_ok t acc :
  dwf (acc ++ t) → Forall (λ kp, preference_ok kp.1 kp.2) t → validate_preferences (preferences_items t) acc = Ok (acc ++ t).
Proof.
  revert acc. induction t as [|[id p] t IH]; intros acc Hwf Ht; cbn [preferences_items fmap list_fmap validate_preferences fst snd].
  { by rewrite app_nil_r. }
  apply Forall_cons in Ht as [Hp Ht]. cbn [fst snd] in Hp. destruct p as [en ph]. destruct Hp as [Hid Hph]. cbn [phrase] in Hph.
  rewrite (validate_preference_value id (mkPreference en ph)); [|done|intros s Hs; by apply Hph| ].
  2:{ symmetry. exact (stripped_ok id (mkPreference en ph) (conj Hid Hph)). }
  cbn [mbind result_bind]. assert (dget id acc = None) as Hn.
  { apply dget_None. intros Hin. unfold dwf, dkeys in Hwf. rewrite fmap_app in Hwf.
    apply NoDup_app in Hwf as (_ & Hd & _). apply (Hd id Hin). by left. }
  rewrite dset_fresh by done. specialize (IH (acc ++ [(id, mkPreference en ph)])). rewrite <- app_assoc in IH. by apply IH.
Qed.

Lemma validate_settings_value s : settings_ok s → _validate_whatsapp_settings (whatsapp_value s) = Ok s.
Proof.
  intros [Hm Hp Hv]. destruct s as [m p v]. cbn [mode phone_number_id api_version] in *.
  unfold _validate_whatsapp_settings, whatsapp_value. cbn [mode phone_number_id api_version].
  change (keys_within _ _) with true. cbn [negb]. cbv zeta.
  change (get_or (u "mode") _ _) with (VStr m). change (get_or (u "phone_number_id") _ _) with (VStr p).
  change (get_or (u "api_version") _ _) with (VStr v). cbn [known_mode mbind result_bind].
  by rewrite Hm, Hp, Hv.
Qed.

Lemma validate_config_value cs sv :
  validate_control_config (config_value cs sv) =
    (commands ← _validate_command_preferences (VDict cs); settings ← _validate_whatsapp_settings sv; Ok (mkControl commands settings)).
Proof. done. Qed.

Lemma control_value_valid c : control_ok c → validate_control_config (control_value c) = Ok c.
Proof.
  intros [Hwf Hl Hc Hs]. unfold control_value. rewrite validate_config_value. unfold _validate_command_preferences.
  unfold preferences_items at 1. rewrite len_fmap, (proj2 (Z.ltb_ge _ _)) by done.
  rewrite (validate_items_ok (commands c) []) by done. cbn [mbind result_bind app].
  rewrite validate_settings_value by done. by destruct c.
Qed.

(** *** Texts that can be written *)

Lemma encodes_nonneg s b : utf8_encode s = Some b → Forall (λ c, 0 <= c) s.
Proof.
  revert b. induction s as [|c s IH]; intros b; [constructor|]. cbn [utf8_encode].
  destruct (utf8_encode_char c) as [x|] eqn:Ec; [|done]. destruct (utf8_encode s) as [y|]; [|done]. intros _.
  constructor; [|by eapply IH]. unfold utf8_encode_char in Ec. destruct (c <? 0) eqn:E; [done|lia].
Qed.

Lemma class_nonneg p lo hi s : (∀ c, p c = true → 0 <= c) → matches_class p lo hi s = true → Forall (λ c, 0 <= c) s.
Proof.
  intros Hp H. unfold matches_class in H. rewrite !andb_true_iff in H. destruct H as [[H _] _].
  rewrite forallb_forall in H. apply Forall_forall. intros c Hc%list_elem_of_In. by apply Hp, H.
Qed.

Lemma word_nonneg c : word_char c = true → 0 <= c.
Proof. unfold word_char, ascii_alnum, ascii_alpha, ascii_upper, ascii_lower, ascii_digit. lia. Qed.
Lemma digit_nonneg c : ascii_digit c = true → 0 <= c.
Proof. unfold ascii_digit. lia. Qed.

Lemma command_id_nonneg s : is_command_id s = true → Forall (λ c, 0 <= c) s.
Proof.
  destruct s as [|c s]; [done|]. cbn [is_command_id]. intros [Hc Hs]%andb_true_iff. constructor.
  - apply word_nonneg. unfold word_char, ascii_alnum. by rewrite Hc.
  - by eapply class_nonneg; [apply word_nonneg|].
Qed.

Lemma phrase_nonneg s : bounded_text 256 false s → Forall (λ c, 0 <= c) s.
Proof. intros (_ & (b & Hb & _) & _). by eapply encodes_nonneg. Qed.

Lemma settings_nonneg s : settings_ok s →
  Forall (λ c, 0 <= c) (mode s) ∧ Forall (λ c, 0 <= c) (phone_number_id s) ∧ Forall (λ c, 0 <= c) (api_version s).
Proof.
  intros [Hm Hp Hv]. split_and!.
  - unfold one_of in Hm. cbn [existsb] in Hm. rewrite !orb_true_iff in Hm.
    destruct Hm as [Hm|[Hm|Hm]]; [..|done]; reflect; rewrite Hm; by apply nonneg_text.
  - destruct (phone_number_id s) as [|c p]; [constructor|]. cbn [nonempty andb] in Hp. apply negb_false_iff in Hp.
    by eapply class_nonneg; [apply digit_nonneg|].
  - unfold is_api_version in Hv. destruct (api_version s) as [|x [|c s']]; [done|by destruct x as [|[]|]; repeat case_match|].
    assert (x = 118) as -> by (repeat (case_match; try done)). cbv iota in Hv.
    destruct (partition_at 46 s') as [[major dot] minor] eqn:E. rewrite !andb_true_iff in Hv.
    destruct Hv as ((((Hc & _) & Hd) & H1) & H2). subst dot. apply partition_at_found in E as ->.
    constructor; [lia|]. constructor; [lia|]. apply Forall_app. split; [by eapply class_nonneg; [apply digit_nonneg|]|].
    constructor; [lia|]. by eapply class_nonneg; [apply digit_nonneg|].
Qed.

Lemma plain_preference id p : preference_ok id p → plain (preference_value p).
Proof.
  intros [_ Hp]. destruct p as [en [s|]]; apply plain_dict_intro; cbn [phrase enabled];
    try (by apply (bool_decide_unpack _)); repeat constructor; try (by apply (bool_decide_unpack _)).
  cbn [snd plain]. apply phrase_nonneg. by destruct (Hp s eq_refl).
Qed.

Lemma plain_control c : control_ok c → plain (control_value c).
Proof.
  intros [Hwf _ Hc Hs]. apply settings_nonneg in Hs as (Hm & Hp & Hv).
  apply plain_dict_intro; [by apply (bool_decide_unpack _)|].
  constructor; [by split; [apply nonneg_text|]|]. constructor; [split; [by apply nonneg_text|]|].
  { apply plain_dict_intro; [unfold dwf, preferences_items; by rewrite <- list_fmap_compose|].
    unfold preferences_items. rewrite Forall_fmap. eapply Forall_impl; [exact Hc|]. intros [id p] Hok. cbn [fst snd compose] in *.
    split; [by apply command_id_nonneg, Hok|by eapply plain_preference]. }
  constructor; [split; [by apply nonneg_text|]|constructor].
  apply plain_dict_intro; [by apply (bool_decide_unpack _)|].
  constructor; [by split; [apply nonneg_text|]|]. constructor; [by split; [apply nonneg_text|]|].
  constructor; [by split; [apply nonneg_text|]|constructor].
Qed.

Section Saved.
Context `{W : Machine}.

(** Saving is all or nothing, and a saved configuration is read back. *)
Lemma saved_control_reload v w w' r :
  save_control_config v w = (w', r) →
  match r with
  | Ok c => validate_control_config v = Ok c ∧ (∀ (_ : FileLaws W) w1, stored ControlLocal (events w1) = stored ControlLocal (events w') →
      (load_control_config w1).2 = Ok c)
  | Raise _ => stored ControlLocal (events w') = stored ControlLocal (events w)
  end.
Proof using Type.
  unfold save_control_config, mbind at 1, M_bind at 1, lift.
  destruct (validate_control_config v) as [c|e] eqn:Ev; [|by intros [= <- <-]].
  unfold mbind at 1, M_bind at 1. destruct (indent_bytes _) as [b|e] eqn:Eb; [|by intros [= <- <-]].
  destruct (_ <? len b) eqn:El; [by intros [= <- <-]|].
  unfold mbind at 1, M_bind at 1. destruct (replace_file ControlLocal b ControlConfigError w) as [w1 r1] eqn:Er.
  apply replace_file_atomic in Er as [Hs _]. destruct r1 as [[]|e]; intros [= <- <-]; [|done]. split; [done|].
  intros HF w2 Hw2. cbn [is_ok] in Hs. rewrite Hs in Hw2. apply validate_control_ok in Ev.
  unfold load_control_config, mbind, M_bind, call, try_with, mret, M_ret, lift. cbn [events log].
  rewrite (stored_exists ControlLocal _ _ Hw2). cbn [negb events log].
  rewrite (stored_read ControlLocal (Event (FileExists ControlLocal) :: events w2) b) by done.
  assert (slice_to (MAX_CONTROL_FILE_BYTES + 1) b = b) as ->.
  { unfold slice_to. apply take_ge. unfold len in El. lia. }
  rewrite El. unfold _parse_json_object. rewrite (loads_utf8_indent _ _ _ (plain_control c Ev) Eb).
  pose proof (control_value_valid c Ev) as Hval. unfold control_value, config_value in Hval |- *.
  cbn [mbind result_bind]. by rewrite Hval.
Qed.

Lemma preferences_items_dset id p t : dset id (preference_value p) (preferences_items t) = preferences_items (dset id p t).
Proof using Type.
  induction t as [|[k q] t IH]; [done|]. cbn [preferences_items fmap list_fmap dset fst snd].
  case_decide; [done|]. cbn [fmap list_fmap fst snd]. by f_equal.
Qed.

Lemma load_control_ok w c w' : load_control_config w = (w', Ok c) → control_ok c.
Proof using Type.
  assert (control_ok _DEFAULT_CONFIG) as Hd by (split; [constructor|done|constructor|done]).
  unfold load_control_config, mbind, M_bind, call, try_with, mret, M_ret, lift, raise.
  destruct (answer (events w) (FileExists ControlLocal)) as [ex|]; [|done]. destruct (negb ex); [by intros [= _ <-]|].
  destruct (answer _ (ReadFile _ _)) as [raw|x].
  - destruct (_ <? _); [done|]. destruct (_parse_json_object raw) as [d|x]; cbn [result_bind].
    + destruct (validate_control_config (VDict d)) as [c'|x] eqn:Ec.
      * intros [= _ <-]. by eapply validate_control_ok.
      * destruct (is_a x _); [by intros [= _ <-]|]. by destruct (caught x _).
    + destruct (is_a x _); [by intros [= _ <-]|]. by destruct (caught x _).
  - destruct (is_a x _); [by intros [= _ <-]|]. by destruct (caught x _).
Qed.

(** Reading replaces no file. *)
Definition read_event (e : event) : Prop := match e with Event o => match o with ReplaceFile _ _ => False | _ => True end end.
Lemma reads_stored f new h : Forall read_event new → stored f (new ++ h) = stored f h.
Proof using Type. induction 1 as [|[A o] new Ho _ IH]; [done|]. cbn [app stored]. by destruct o. Qed.

Lemma load_control_stored w w' r : load_control_config w = (w', r) → stored ControlLocal (events w') = stored ControlLocal (events w).
Proof using Type.
  intros H. assert (does read_event load_control_config) as Hd by (unfold load_control_config; repeat does_step; done).
  destruct (does_run _ _ w Hd) as (new & Hn & Hf). rewrite H in Hn. cbn [fst] in Hn. rewrite Hn. by apply reads_stored.
Qed.

Lemma stripped_all_ok t : Forall (λ kp, preference_ok kp.1 kp.2) t → stripped_all t = t.
Proof using Type.
  induction 1 as [|[k q] t Hq _ IH]; [done|]. cbn [fmap list_fmap fst snd] in *. by rewrite (stripped_ok k), IH.
Qed.

(** A load finds this configuration for as long as the file is not replaced. *)
Definition holds (w : desktop) (c : control_config) : Prop :=
  ∀ w1, stored ControlLocal (events w1) = stored ControlLocal (events w) → (load_control_config w1).2 = Ok c.

(** Saving the loaded configuration with other preferences. *)
Lemma edit_saved `{!FileLaws W} before t w w' r :
  control_ok before → dwf t →
  save_control_config (config_value (preferences_items t) (whatsapp_value (whatsapp before))) w = (w', r) →
  match r with
  | Ok _ => holds w' (mkControl (stripped_all t) (whatsapp before))
  | Raise _ => stored ControlLocal (events w') = stored ControlLocal (events w)
  end.
Proof using Type.
  intros [_ _ _ Hs] Hwf H. apply saved_control_reload in H. destruct r as [c|e]; [|done]. destruct H as [Hv Hload].
  intros w1 Hw1. rewrite (Hload ltac:(done) w1 Hw1). f_equal.
  rewrite validate_config_value in Hv. unfold _validate_command_preferences in Hv.
  destruct (_ <? _); [done|]. destruct (validate_preferences _ []) as [t'|] eqn:Et; [|done]. cbn [mbind result_bind] in Hv.
  rewrite validate_settings_value in Hv by done. cbn [mbind result_bind] in Hv. injection Hv as <-.
  by apply validate_items_inv in Et as ->.
Qed.

(** The panel changes one preference at a time.  When the call returns, a
    later load finds the command's new preference, its phrase stripped, every
    other command's preference and the delivery settings as they were; when it
    raises, the stored file is untouched. *)
Lemma preference_set_exact `{!FileLaws W} command_id enabled phrase w w' r :
  set_command_preference command_id enabled phrase w = (w', r) →
  match r with
  | Ok _ => ∃ before, (load_control_config w).2 = Ok before ∧
      holds w' (mkControl (dset command_id (mkPreference enabled (strip <$> phrase)) (commands before)) (whatsapp before))
  | Raise _ => stored ControlLocal (events w') = stored ControlLocal (events w)
  end.
Proof using Type.
  unfold set_command_preference, mbind at 1, M_bind at 1. destruct (load_control_config w) as [w1 [before|e]] eqn:El.
  2:{ intros [= <- <-]. by eapply load_control_stored. }
  unfold mbind at 1, M_bind at 1. rewrite preferences_items_dset. pose proof (load_control_ok _ _ _ El) as Hok.
  destruct (save_control_config _ w1) as [w2 r2] eqn:Es. apply edit_saved in Es; [|done|by apply dset_wf, Hok].
  destruct r2 as [c|e]; intros [= <- <-]; [|rewrite Es; by eapply load_control_stored].
  exists before. split; [done|]. destruct Hok as [_ _ Hc _].
  assert (stripped_all (dset command_id (mkPreference enabled phrase) (commands before)) =
    dset command_id (mkPreference enabled (strip <$> phrase)) (commands before)) as <-; [|exact Es]. clear -Hc.
  induction (commands before) as [|[k q] t IH]; [done|]. apply Forall_cons in Hc as [Hq Hc]. cbn [dset].
  case_decide as Hk; cbn [fmap list_fmap fst snd]; f_equal; [|by rewrite (stripped_ok k)|by apply IH].
  by apply stripped_all_ok.
Qed.

Lemma preference_reset_exact `{!FileLaws W} command_id w w' r :
  reset_command_preference command_id w = (w', r) →
  match r with
  | Ok _ => ∃ before, (load_control_config w).2 = Ok before ∧
      holds w' (mkControl (ddel command_id (commands before)) (whatsapp before))
  | Raise _ => stored ControlLocal (events w') = stored ControlLocal (events w)
  end.
Proof using Type.
  unfold reset_command_preference, mbind at 1, M_bind at 1. destruct (load_control_config w) as [w1 [before|e]] eqn:El.
  2:{ intros [= <- <-]. by eapply load_control_stored. }
  unfold mbind at 1, M_bind at 1. pose proof (load_control_ok _ _ _ El) as Hok.
  assert (ddel command_id (preferences_items (commands before)) = preferences_items (ddel command_id (commands before))) as ->.
  { clear. unfold ddel, preferences_items. induction (commands before) as [|[k q] t IH]; [done|]. csimpl.
    rewrite !filter_cons. cbn [fst]. case_decide; [|done]. csimpl. by f_equal. }
  destruct (save_control_config _ w1) as [w2 r2] eqn:Es. apply edit_saved in Es; [|done|by apply ddel_wf, Hok].
  destruct r2 as [c|e]; intros [= <- <-]; [|rewrite Es; by eapply load_control_stored].
  exists before. split; [done|]. destruct Hok as [_ _ Hc _].
  rewrite stripped_all_ok in Es; [done|].
  unfold ddel. apply Forall_forall. intros kq [_ Hin]%list_elem_of_filter. rewrite Forall_forall in Hc. by apply Hc.
Qed.
End Saved.

(** ** Samples *)

Definition no_files (_ : config_file) : option bytes := None.
Definition control_machine : Machine := sample_machine no_files (λ _ _ _, Raise OSError).
Definition start : desktop := mkDesktop [] [].

(** A mode that is a list or an object escapes the validator as [TypeError],
    and so does a whole load of such a file. *)
Example unhashable_mode_escapes :
  validate_control_config (config_value [] (VDict [(u "mode", VList [])])) = Raise TypeError ∧
  caught TypeError [ControlConfigError; OSError; UnicodeDecodeError; JSONDecodeError] = false.
Proof. done. Qed.

Example refused_control :
  Forall (λ v, validate_control_config v = Raise ControlConfigError)
    [VDict [(u "version", VInt 2)]; VDict [(u "secret", VStr (u "x"))];
     config_value [(u "1bad", VDict [])] (VDict []); config_value [(u "ok", VDict [(u "enabled", VInt 1)])] (VDict []);
     config_value [] (VDict [(u "api_version", VStr (u "23.0"))]); config_value [] (VDict [(u "phone_number_id", VStr (u "12a45"))])].
Proof. repeat constructor. Qed.
