(* ===== verification/League.v ===== *)
(** * The local League client: [windows-agent/tools/league.py]

    Discovery of the running client, the fixed paths of its local API, and the
    matchmaking operations.  Waiting is a loop on the monotonic clock; its fuel
    is the number of polls that fit in the wait.  The lock that serialises
    explicit matchmaking actions is not modelled: a model step is one call. *)
From S2P Require Import Prelude Dict Value Effects Encoding JsonParse TextPolicy PyText Machine.

Definition QUEUE_IDS : list (literal * Z) :=
  [("normal_draft", 400); ("ranked_solo", 420); ("ranked_flex", 440); ("aram", 450); ("swiftplay", 490)]%string.
Definition QUEUE_ALIASES : list (literal * literal) :=
  [("normal", "normal_draft"); ("normal draft", "normal_draft"); ("draft", "normal_draft");
   ("clasificatoria", "ranked_solo"); ("clasificatoria solo", "ranked_solo"); ("solo", "ranked_solo");
   ("flex", "ranked_flex"); ("ranked", "ranked_solo")]%string.

Definition LOBBY : literal := "/lol-lobby/v2/lobby"%string.
Definition SEARCH : literal := "/lol-lobby/v2/lobby/matchmaking/search"%string.
Definition _ALLOWED_ENDPOINTS : list (literal * literal) :=
  [("GET", LOBBY); ("GET", SEARCH); ("POST", LOBBY); ("POST", SEARCH); ("DELETE", SEARCH)]%string.

Definition _CLIENT_NAMES : list literal := ["leagueclientux.exe"; "leagueclientux"]%string.
Definition _MAX_TOKEN_LENGTH : Z := 1024.
Definition _CLIENT_START_TIMEOUT : Z := 30 * SECOND.
Definition _CLIENT_START_POLL : Z := SECOND / 2.
Definition MAX_MATCH_WAIT_SECONDS : Z := 300.
Definition _MATCH_WAIT_POLL : Z := SECOND.
Definition _SEARCHING_STATES : list literal := ["searching"; "inprogress"; "in_progress"]%string.
Definition _MATCH_FOUND_STATES : list literal :=
  ["found"; "match_found"; "matchfound"; "ready"; "ready-check"; "ready_check"; "readycheck"]%string.
Definition _NOT_SEARCHING_STATES : list literal :=
  ["none"; "idle"; "not_searching"; "notsearching"; "cancelled"; "canceled"]%string.

Record LeagueClientConnection := mkConnection { port : Z; token : pystr }.

(** The entry of a table of literals. *)
Fixpoint lookup_literal {A} (s : pystr) (t : list (literal * A)) : option A :=
  match t with
  | [] => None
  | (k, v) :: t' => if is_lit s k then Some v else lookup_literal s t'
  end.
(** [next(name for name, identifier in QUEUE_IDS.items() if identifier == id)] *)
Definition queue_name (id : Z) : option literal :=
  fst <$> List.find (λ kv, kv.2 =? id) QUEUE_IDS.

(** [int(v)] of a decoded JSON value. *)
Definition int_of_float (f : pyfloat) : result Z :=
  match f with
  | FNan => Raise ValueError
  | FInf _ => Raise OverflowError
  | FFin neg m e =>
    let n := if 0 <=? e then m * 2 ^ e else m / 2 ^ (- e) in Ok (if neg : bool then - n else n)
  end.
Definition int_of_value `{UnicodeText} (v : value) : result Z :=
  match v with
  | VBool b => Ok (if b : bool then 1 else 0)
  | VInt z => Ok z
  | VFloat f => int_of_float f
  | VStr s => int_of_text s
  | _ => Raise TypeError
  end.

(** What [search_status] reports. *)
Inductive search_result := Unsupported | Status (searching match_found : bool) (state : pystr).
Definition search_object (s : search_result) : object :=
  match s with
  | Unsupported =>
    [(u "supported", VBool false); (u "searching", VBool false); (u "match_found", VBool false); (u "details", VNone)]
  | Status searching match_found state =>
    [(u "supported", VBool true); (u "searching", VBool searching); (u "match_found", VBool match_found); (u "state", VStr state)]
  end.

(** [d | {name: v}] *)
Definition merged (d : object) (extra : object) : object := foldl (λ d kv, dset kv.1 kv.2 d) d extra.

Section League.
Context `{T : UnicodeText} `{W : Machine}.

(** ** Discovery *)

(** [s.rsplit("\\", 1)[-1].rsplit("/", 1)[-1]] *)
Definition leaf (s : pystr) : pystr :=
  let '(_, _, s) := rpartition_at 92 s in let '(_, _, s) := rpartition_at 47 s in s.

Definition _same_windows_user (username : option pystr) : M desktop bool :=
  match username with
  | Some username =>
    if negb (nonempty (strip username)) then mret false
    else
      except
        (call CurrentUser ≫= λ current,
         let current := strip current in
         mret (nonempty current
               && bool_decide (casefold_text (leaf (strip username)) = casefold_text (leaf current))))
        [KeyError; OSError] (mret false)
  | None => mret false
  end.

Definition resolve_queue_id (queue : value) : result Z :=
  match queue with
  | VStr queue =>
    let normalized := lower_text (strip queue) in
    let normalized := match lookup_literal normalized QUEUE_ALIASES with Some q => u q | None => normalized end in
    match lookup_literal normalized QUEUE_IDS with Some id => Ok id | None => Raise ValueError end
  | _ => Raise ValueError
  end.

(** [[a.removeprefix(p) for a in command_line if a.startswith(p)]] *)
Definition option_values (p : pystr) (command_line : list pystr) : list pystr :=
  drop (length p) <$> filter (λ a, startswith p a = true) command_line.

Definition parse_client_command_line (command_line : list pystr) : result LeagueClientConnection :=
  match option_values (u "--app-port=") command_line, option_values (u "--remoting-auth-token=") command_line with
  | [port_text], [token] =>
    if negb (nonempty port_text && forallb ascii_digit port_text) then Raise LeagueClientError
    else
      port ← int_of_text port_text;
      if negb ((1 <=? port) && (port <=? 65535)) || negb ((1 <=? len token) && (len token <=? _MAX_TOKEN_LENGTH))
        || existsb (λ c, control_char c || is_space c) token
      then Raise LeagueClientError else Ok (mkConnection port token)
  | _, _ => Raise LeagueClientError
  end.

(** An error while looking at a process moves the search to the next one
    ([psutil.Error] is not among the exceptions its readings raise here). *)
Definition examine (p : process) : M desktop (option LeagueClientConnection) :=
  let name := lower_text (default [] (process_name p)) in
  if negb (one_of name _CLIENT_NAMES) then mret None
  else
    _same_windows_user (username p) ≫= λ same,
    if negb same then mret None
    else lift (c ← parse_client_command_line (default [] (cmdline p)); Ok (Some c)).

Fixpoint search_processes (ps : list process) : M desktop LeagueClientConnection :=
  match ps with
  | [] => raise LeagueClientError
  | p :: ps' =>
    except (examine p) [ValueError; LeagueClientError] (mret None) ≫= λ found,
    match found with Some c => mret c | None => search_processes ps' end
  end.

Definition find_client_connection : M desktop LeagueClientConnection :=
  call Processes ≫= λ ps, search_processes ps.

(** ** Requests *)

(** [base64.b64encode(b).decode("ascii")] *)
Definition b64encode (b : bytes) : pystr :=
  let s := Base64.encode b in
  ((λ c, if c =? 45 then 43 else if c =? 95 then 47 else c) <$> s) ++ Base64.padding s.

Definition allowed_endpoint (method path : pystr) : bool :=
  existsb (λ mp, is_lit method mp.1 && is_lit path mp.2) _ALLOWED_ENDPOINTS.

Definition _request (c : LeagueClientConnection) (method path : literal) (body : option value) (accepted_statuses : list Z)
  : M desktop value :=
  let method := u method in let path := u path in
  if negb (allowed_endpoint method path) then raise LeagueClientError
  else
    match utf8_encode (u "riot:" ++ token c) with
    | None => raise UnicodeEncodeError
    | Some credentials =>
      except (call (LeagueCall (port c) (u "Basic " ++ b64encode credentials) method path body))
        [OSError] (raise LeagueClientError) ≫= λ answer,
      let '(status, raw) := answer in
      if bool_decide (status ∈ accepted_statuses) then mret VNone
      else if (status <? 200) || (300 <=? status) then raise LeagueClientError
      else if negb (nonempty raw) then mret VNone
      else lift (reraise [UnicodeDecodeError; JSONDecodeError] LeagueClientError (loads_utf8 keep_last raw))
    end.
Arguments _request c method%_string_scope path%_string_scope body accepted_statuses.

(** ** Operations *)

(** [_safe_lobby]: the only fields of a lobby that leave the adapter. *)
Definition lobby_object (present : bool) (queue_id : option Z) : object :=
  [(u "present", VBool present);
   (u "queue_id", match queue_id with Some z => VInt z | None => VNone end);
   (u "queue", match queue_id ≫= queue_name with Some q => VStr (u q) | None => VNone end)].

Definition lobby_queue (lobby : object) : value :=
  match get (u "gameConfig") lobby with
  | VDict game_config => get (u "queueId") game_config
  | _ => get (u "queueId") lobby
  end.

Definition _safe_lobby (lobby : value) : result object :=
  match lobby with
  | VNone => Ok (lobby_object false None)
  | VDict lobby =>
    match lobby_queue lobby with
    | VNone => Ok (lobby_object true None)
    | raw_queue =>
      match int_of_value raw_queue with
      | Ok id => Ok (lobby_object true (Some id))
      | Raise e => if caught e [TypeError; ValueError] then Ok (lobby_object true None) else Raise e
      end
    end
  | _ => Ok (lobby_object true None)
  end.

Definition classify_state (raw_state : value) : pystr :=
  match raw_state with
  | VStr s =>
    let normalized_state := casefold_text (strip s) in
    if one_of normalized_state _SEARCHING_STATES then u "searching"
    else if one_of normalized_state _MATCH_FOUND_STATES then u "match_found"
    else if one_of normalized_state _NOT_SEARCHING_STATES then u "not_searching"
    else u "unknown"
  | _ => u "unknown"
  end.

Definition read_details (details : value) : search_result :=
  match details with
  | VDict d =>
    let state := classify_state (get_or (u "searchState") (get_or (u "state") (VStr (u "unknown")) d) d) in
    Status ((state =s "searching") || is_true (get (u "searching") d)) (state =s "match_found") state
  | _ => Status false false (u "unknown")
  end.

Definition search_status (c : LeagueClientConnection) : M desktop search_result :=
  except (_request c "GET" SEARCH None [] ≫= λ details, mret (read_details details))
    [LeagueClientError] (mret Unsupported).

Definition status (c : LeagueClientConnection) : M desktop object :=
  _request c "GET" LOBBY None [404] ≫= λ lobby,
  search_status c ≫= λ search,
  lift (_safe_lobby lobby) ≫= λ lobby,
  mret [(u "client", VStr (u "ready")); (u "lobby", VDict lobby); (u "search", VDict (search_object search))].

(** The lobby the search starts from: none, which is created, or one of the
    same queue. *)
Definition ensure_lobby (c : LeagueClientConnection) (current : value) (queue_id : Z) : M desktop unit :=
  match current with
  | VNone => _request c "POST" LOBBY (Some (VDict [(u "queueId", VInt queue_id)])) [] ≫= λ _, mret tt
  | VDict lobby =>
    match lobby_queue lobby with
    | VNone => raise LeagueClientError
    | current_queue =>
      lift (reraise [TypeError; ValueError] LeagueClientError (int_of_value current_queue)) ≫= λ current_queue_id,
      if negb (current_queue_id =? queue_id) then raise LeagueClientError else mret tt
    end
  | _ => raise LeagueClientError
  end.

Definition started_object (queue_id : Z) : object :=
  [(u "started", VBool true); (u "queue", VStr (u (default String.EmptyString (queue_name queue_id)))); (u "queue_id", VInt queue_id)].
Definition already_object (queue_id : Z) : object :=
  [(u "started", VBool false); (u "already_searching", VBool true);
   (u "queue", VStr (u (default String.EmptyString (queue_name queue_id)))); (u "queue_id", VInt queue_id)].

Definition start_search (c : LeagueClientConnection) (queue : value) : M desktop object :=
  lift (resolve_queue_id queue) ≫= λ queue_id,
  _request c "GET" LOBBY None [404] ≫= λ current,
  search_status c ≫= λ search,
  match search with
  | Unsupported => raise LeagueClientError
  | Status searching match_found state =>
    if match_found then raise LeagueClientError
    else if state =s "unknown" then raise LeagueClientError
    else if searching then mret (already_object queue_id)
    else
      ensure_lobby c current queue_id ≫= λ _,
      _request c "POST" SEARCH (Some (VDict [])) [] ≫= λ _,
      search_status c ≫= λ verification,
      match verification with
      | Status true _ _ => mret (started_object queue_id)
      | _ => raise LeagueClientError
      end
  end.

Definition cancel_search (c : LeagueClientConnection) : M desktop object :=
  search_status c ≫= λ before,
  match before with
  | Unsupported => raise LeagueClientError
  | Status searching match_found state =>
    if match_found then raise LeagueClientError
    else if state =s "unknown" then raise LeagueClientError
    else if negb searching then mret [(u "cancelled", VBool false); (u "already_not_searching", VBool true)]
    else
      _request c "DELETE" SEARCH None [404] ≫= λ _,
      search_status c ≫= λ verification,
      match verification with
      | Status false false state =>
        if state =s "not_searching" then mret [(u "cancelled", VBool true)] else raise LeagueClientError
      | _ => raise LeagueClientError
      end
  end.

Definition wait_object (found searching match_found : bool) (state : pystr) (timed_out : bool) : object :=
  [(u "found", VBool found); (u "searching", VBool searching); (u "match_found", VBool match_found);
   (u "state", VStr state); (u "timed_out", VBool timed_out)].

(** The loop of [wait_for_match]; [None] when the fuel runs out. *)
Fixpoint watch (fuel : nat) (c : LeagueClientConnection) (deadline : Z) : M desktop (option object) :=
  match fuel with
  | O => mret None
  | S f =>
    search_status c ≫= λ current,
    match current with
    | Unsupported => raise LeagueClientError
    | Status searching match_found state =>
      if state =s "unknown" then raise LeagueClientError
      else if match_found then mret (Some (wait_object true false true (u "match_found") false))
      else if negb searching then mret (Some (wait_object false false false state false))
      else
        call Monotonic ≫= λ now,
        let remaining := deadline - now in
        if remaining <=? 0 then mret (Some (wait_object false true false (u "searching") true))
        else call (Sleep (Z.min _MATCH_WAIT_POLL remaining)) ≫= λ _, watch f c deadline
    end
  end.

(** The polls a wait has room for, and one more. *)
Definition polls (timeout poll : Z) : nat := Z.to_nat (timeout / poll + 2).

Definition finished {A} (out : option A) : M desktop A :=
  match out with Some a => mret a | None => raise RuntimeError end.

Definition wait_for_match (c : LeagueClientConnection) (timeout_seconds : Z) : M desktop object :=
  if negb ((1 <=? timeout_seconds) && (timeout_seconds <=? MAX_MATCH_WAIT_SECONDS)) then raise ValueError
  else
    call Monotonic ≫= λ now,
    let timeout := timeout_seconds * SECOND in
    watch (polls timeout _MATCH_WAIT_POLL) c (now + timeout) ≫= finished.

(** ** Starting the client *)

Definition with_client {A} (callback : LeagueClientConnection → M desktop A) : M desktop A :=
  find_client_connection ≫= callback.

(** The loop of [wait_for_client_connection]. *)
Fixpoint await_client (fuel : nat) (deadline poll : Z) : M desktop (option LeagueClientConnection) :=
  match fuel with
  | O => mret None
  | S f =>
    except (find_client_connection ≫= λ c, mret (Some c)) [LeagueClientError] (mret None) ≫= λ found,
    match found with
    | Some c => mret (Some c)
    | None =>
      call Monotonic ≫= λ now,
      let remaining := deadline - now in
      if remaining <=? 0 then raise LeagueClientError
      else call (Sleep (Z.min poll remaining)) ≫= λ _, await_client f deadline poll
    end
  end.

(** Called with the default limits only. *)
Definition wait_for_client_connection : M desktop LeagueClientConnection :=
  call Monotonic ≫= λ now,
  await_client (polls _CLIENT_START_TIMEOUT _CLIENT_START_POLL) (now + _CLIENT_START_TIMEOUT) _CLIENT_START_POLL ≫= finished.

(** The connection, and whether the client was started for it. *)
Definition connect_or_launch (launcher : M desktop object) : M desktop (LeagueClientConnection * bool) :=
  try_with (find_client_connection ≫= λ c, mret (c, false)) (λ e,
    if negb (is_a e LeagueClientError) then raise e
    else
      launcher ≫= λ launch_result,
      if negb (is_true (get (u "success") launch_result)) then raise e
      else except wait_for_client_connection [LeagueClientError] (raise LeagueClientError) ≫= λ c, mret (c, true)).

Definition with_client_or_launch (callback : LeagueClientConnection → M desktop object) (launcher : M desktop object)
  : M desktop object :=
  connect_or_launch launcher ≫= λ '(c, client_started),
  callback c ≫= λ result,
  mret (if client_started : bool then merged result [(u "client_started", VBool true)] else result).
End League.
Arguments _request {W} c method%_string_scope path%_string_scope body accepted_statuses.

Section Facts.
Context `{T : UnicodeText} `{W : Machine}.

(** ** What an operation may do *)

Definition READS : list (literal * literal) := [("GET", LOBBY); ("GET", SEARCH)]%string.
Definition STARTS : list (literal * literal) := (("POST", LOBBY) :: ("POST", SEARCH) :: READS)%string.
Definition CANCELS : list (literal * literal) := (("DELETE", SEARCH) :: READS)%string.

(** Looking for the client, reading the clock, sleeping, and calling some of
    the endpoints of the local client. *)
Definition league_event (endpoints : list (literal * literal)) (e : event) : Prop :=
  match e with
  | Event o =>
    match o with
    | Processes | CurrentUser | Monotonic => True
    | Sleep d => 0 < d
    | LeagueCall port _ method path _ =>
      1 <= port <= 65535 ∧ ∃ mp, mp ∈ endpoints ∧ method = u mp.1 ∧ path = u mp.2
    | _ => False
    end
  end.

Definition connection_ok (c : LeagueClientConnection) : Prop := 1 <= port c <= 65535.

Lemma league_event_weaken es es' e : es ⊆ es' → league_event es e → league_event es' e.
Proof using Type.
  intros Hs. destruct e as [A o]. destruct o; try done. intros [Hp (mp & Hin & Hm)]. split; [done|]. exists mp. split; [by apply Hs|done].
Qed.

Lemma does_more es es' {A} (m : M desktop A) : es ⊆ es' → does (league_event es) m → does (league_event es') m.
Proof using Type. intros Hs. apply does_weaken. intros e. by apply league_event_weaken. Qed.

Lemma request_does c m p body acc es :
  connection_ok c → (m, p) ∈ es → does (league_event es) (_request c m p body acc).
Proof using Type.
  intros Hc Hin. unfold _request. cbv zeta. destruct (negb _); [apply does_raise|]. destruct (utf8_encode _); [|apply does_raise].
  apply does_bind; [apply does_except; [|apply does_raise]|].
  - apply does_call. split; [done|]. by exists (m, p).
  - intros [st raw]. repeat does_step.
Qed.

Lemma get_search c es : connection_ok c → READS ⊆ es → does (league_event es) (search_status c).
Proof using Type.
  intros Hc Hs. unfold search_status. apply does_except; [|apply does_ret]. apply does_bind; [|intros; apply does_ret].
  apply request_does; [done|]. apply Hs. right. by left.
Qed.

Lemma status_does c : connection_ok c → does (league_event READS) (status c).
Proof using Type.
  intros Hc. unfold status. apply does_bind; [apply request_does; [done|by left]|]. intros lobby.
  apply does_bind; [by apply get_search|]. intros s. apply does_bind; [apply does_lift|]. intros o. apply does_ret.
Qed.

Lemma ensure_lobby_does c current id : connection_ok c → does (league_event STARTS) (ensure_lobby c current id).
Proof using Type.
  intros Hc. unfold ensure_lobby. destruct current; try apply does_raise.
  - apply does_bind; [|intros; apply does_ret]. apply request_does; [done|by left].
  - destruct (lobby_queue _); try apply does_raise; repeat does_step.
Qed.

Lemma start_does c queue : connection_ok c → does (league_event STARTS) (start_search c queue).
Proof using Type.
  intros Hc. assert (READS ⊆ STARTS) as Hs by (intros x Hx; by right; right).
  unfold start_search. apply does_bind; [apply does_lift|]. intros id.
  apply does_bind; [apply request_does; [done|by right; right; left]|]. intros current.
  apply does_bind; [by apply get_search|]. intros [|s m st]; [apply does_raise|].
  destruct m; [apply does_raise|]. destruct (st =s "unknown"); [apply does_raise|]. destruct s; [apply does_ret|].
  apply does_bind; [by apply ensure_lobby_does|]. intros _.
  apply does_bind; [apply request_does; [done|by right; left]|]. intros _.
  apply does_bind; [by apply get_search|]. intros [|[] m' st']; repeat does_step.
Qed.

Lemma cancel_does c : connection_ok c → does (league_event CANCELS) (cancel_search c).
Proof using Type.
  intros Hc. assert (READS ⊆ CANCELS) as Hs by (intros x Hx; by right).
  unfold cancel_search. apply does_bind; [by apply get_search|]. intros [|s m st]; [apply does_raise|].
  destruct m; [apply does_raise|]. destruct (st =s "unknown"); [apply does_raise|].
  destruct (negb s); [apply does_ret|]. apply does_bind; [apply request_does; [done|by left]|]. intros _.
  apply does_bind; [by apply get_search|]. intros [|[] [] st']; repeat does_step.
Qed.

Lemma watch_does fuel c deadline : connection_ok c → does (league_event READS) (watch fuel c deadline).
Proof using Type.
  intros Hc. induction fuel as [|f IH]; cbn [watch]; [apply does_ret|].
  apply does_bind; [by apply get_search|]. intros [|s m st]; [apply does_raise|].
  destruct (st =s "unknown"); [apply does_raise|]. destruct m; [apply does_ret|]. destruct (negb s); [apply does_ret|].
  apply does_bind; [by apply does_call|]. intros now. cbv zeta. destruct (deadline - now <=? 0) eqn:E; [apply does_ret|].
  apply does_bind; [|done]. apply does_call. unfold league_event, _MATCH_WAIT_POLL, SECOND. lia.
Qed.

Lemma wait_does c seconds : connection_ok c → does (league_event READS) (wait_for_match c seconds).
Proof using Type.
  intros Hc. unfold wait_for_match. destruct (negb _); [apply does_raise|]. apply does_bind; [by apply does_call|].
  intros now. cbv zeta. apply does_bind; [by apply watch_does|]. intros [o|]; repeat does_step.
Qed.

(** *** Discovery *)

Lemma parse_connection_ok l c : parse_client_command_line l = Ok c → connection_ok c.
Proof using Type.
  unfold parse_client_command_line. destruct (option_values _ l) as [|x [|]]; try done.
  destruct (option_values _ l) as [|y [|]]; try done. destruct (negb _); [done|].
  destruct (int_of_text x) as [p|]; [|done]. cbn [mbind result_bind]. destruct (_ || _) eqn:E; [done|]. intros [= <-].
  apply orb_false_iff in E as [[E _]%orb_false_iff _]. unfold connection_ok. cbn [port]. lia.
Qed.

Lemma same_user_does name : does (league_event []) (_same_windows_user name).
Proof using Type. unfold _same_windows_user. repeat does_step; done. Qed.

Lemma find_client_moves : moves (grows (league_event [])) connection_ok find_client_connection.
Proof using Type.
  unfold find_client_connection. eapply (moves_bind _ (λ _, True)); [by apply (does_call (league_event []))|]. intros ps _.
  induction ps as [|p ps IH]; cbn [search_processes]; [apply moves_raise, _|].
  apply (moves_bind _ (λ found, ∀ c, found = Some c → connection_ok c)).
  - apply moves_except; [apply _| |by apply moves_ret; [apply _|]]. unfold examine. cbv zeta.
    destruct (negb _); [by apply moves_ret; [apply _|]|].
    eapply (moves_bind _ (λ _, True)); [apply same_user_does|]. intros same _.
    destruct (negb same); [by apply moves_ret; [apply _|]|]. apply moves_lift; [apply _|]. intros a.
    destruct (parse_client_command_line _) as [c|] eqn:E; [|done]. intros [= <-] c' [= <-]. by eapply parse_connection_ok.
  - intros [c|] Hc; [by apply moves_ret; [apply _|apply Hc]|done].
Qed.

Lemma with_client_does es {A} (callback : LeagueClientConnection → M desktop A) :
  (∀ c, connection_ok c → does (league_event es) (callback c)) → does (league_event es) (with_client callback).
Proof using Type.
  intros Hc. unfold with_client. apply (does_bind_value _ connection_ok); [|done].
  intros w. destruct (find_client_moves w) as [(new & Hn & Hf) Hv]. split; [|done]. exists new. split; [done|].
  eapply Forall_impl; [exact Hf|]. intros e. apply league_event_weaken. apply list_subseteq_nil.
Qed.

(** ** Waiting ends *)

(** A run adds to the history. *)
Definition extends {A} (m : M desktop A) : Prop := ∀ w, ∃ new, events (m w).1 = new ++ events w.

Lemma does_extends {A} (m : M desktop A) es : does (league_event es) m → extends m.
Proof using Type. intros Hm w. destruct (Hm w) as [(new & Hn & _) _]. by exists new. Qed.

Lemma any_request_extends c m p body acc : extends (_request c m p body acc).
Proof using Type.
  intros w. cut (does (λ _, True) (_request c m p body acc)); [by intros [(new & Hn & _) _]%(λ H, H w); exists new|].
  unfold _request. cbv zeta. destruct (negb _); [apply does_raise|]. destruct (utf8_encode _); [|apply does_raise].
  apply does_bind; [apply does_except; [by apply does_call|apply does_raise]|]. intros [st raw]. repeat does_step.
Qed.

Lemma search_status_extends c : extends (search_status c).
Proof using Type.
  intros w. cut (does (λ _, True) (search_status c)); [by intros [(new & Hn & _) _]%(λ H, H w); exists new|].
  unfold search_status. apply does_except; [|apply does_ret]. apply does_bind; [|intros; apply does_ret].
  intros w'. destruct (any_request_extends c "GET"%string SEARCH None [] w') as (new & Hn). split; [|done]. exists new.
  split; [done|]. by apply Forall_forall.
Qed.

Section Clock.
Context `{L : !ClockLaws W}.

Lemma extends_clock {A} (m : M desktop A) w w' r : extends m → m w = (w', r) → clock (events w) <= clock (events w').
Proof using L. intros Hm H. destruct (Hm w) as (new & Hn). rewrite H in Hn. cbn [fst] in Hn. rewrite Hn. apply clock_monotone. Qed.

(** The fuel covers what is left of the wait. *)
Definition enough (fuel : nat) (left poll : Z) : Prop := 1 <= Z.of_nat fuel ∧ left <= (Z.of_nat fuel - 1) * poll.

Lemma enough_polls timeout poll : 0 <= timeout → 0 < poll → enough (polls timeout poll) timeout poll.
Proof using Type.
  intros Ht Hp. unfold enough, polls. pose proof (Z.div_pos timeout poll Ht Hp). rewrite Z2Nat.id by lia.
  pose proof (Z.div_mod timeout poll ltac:(lia)). pose proof (Z.mod_pos_bound timeout poll Hp). nia.
Qed.

(** A sleep of one poll, or of what is left, uses up one unit of fuel. *)
Lemma enough_step fuel left poll now later :
  0 < poll → 0 < left - now → enough (S fuel) (left - now) poll → now + Z.min poll (left - now) <= later →
  enough fuel (left - later) poll.
Proof using Type.
  unfold enough. rewrite Nat2Z.inj_succ. intros Hp Hn [_ Hl] Hs.
  assert (1 <= Z.of_nat fuel) as Hf by (destruct fuel; [cbn in Hl|]; lia). split; [done|].
  replace (Z.succ (Z.of_nat fuel) - 1) with (Z.of_nat fuel) in Hl by lia.
  destruct (Z.min_spec poll (left - now)) as [[_ Hm]|[_ Hm]]; rewrite Hm in Hs; nia.
Qed.

Lemma enough_later fuel left poll now later : now <= later → enough fuel (left - now) poll → enough fuel (left - later) poll.
Proof using Type. unfold enough. lia. Qed.

Lemma watch_ends fuel c deadline w :
  enough fuel (deadline - clock (events w)) _MATCH_WAIT_POLL → (watch fuel c deadline w).2 ≠ Ok None.
Proof using L.
  revert w. induction fuel as [|f IH]; intros w Hf; [by destruct Hf|]. cbn [watch].
  unfold mbind at 1, M_bind at 1. destruct (search_status c w) as [w1 [s|e]] eqn:Es; [|done].
  pose proof (extends_clock _ _ _ _ (search_status_extends c) Es) as H1. apply (enough_later _ _ _ _ _ H1) in Hf.
  destruct s as [|s m st]; [done|]. destruct (st =s "unknown"); [done|]. destruct m; [done|]. destruct (negb s); [done|].
  unfold mbind at 1, M_bind at 1, call. rewrite clock_read. cbv zeta.
  destruct (deadline - clock (events w1) <=? 0) eqn:El; [done|]. apply Z.leb_gt in El.
  unfold mbind at 1, M_bind at 1. set (d := Z.min _MATCH_WAIT_POLL (deadline - clock (events w1))).
  assert (0 <= d) as Hd by (unfold d, _MATCH_WAIT_POLL, SECOND; lia).
  destruct (clock_sleep (events (log (Event Monotonic) w1)) d Hd) as [Ha Hs].
  rewrite Ha. apply IH. cbn [events log] in *.
  pose proof (clock_monotone (events w1) [Event Monotonic]) as Hm. cbn [app] in Hm.
  eapply enough_step; [|exact El|exact Hf|]; [done|]. fold d. lia.
Qed.

Lemma await_ends fuel deadline poll w :
  0 < poll → enough fuel (deadline - clock (events w)) poll → (await_client fuel deadline poll w).2 ≠ Ok None.
Proof using L.
  intros Hp. revert w. induction fuel as [|f IH]; intros w Hf; [by destruct Hf|]. cbn [await_client].
  unfold mbind at 1, M_bind at 1. destruct (except _ _ _ w) as [w1 [found|e]] eqn:Ef; [|done].
  assert (clock (events w) <= clock (events w1)) as H1.
  { eapply extends_clock; [|exact Ef]. apply (does_extends _ []). apply does_except; [|apply does_ret].
    apply does_bind; [|intros; apply does_ret]. apply (does_moves _ _ _ find_client_moves). }
  apply (enough_later _ _ _ _ _ H1) in Hf. destruct found as [c|]; [done|].
  unfold mbind at 1, M_bind at 1, call. rewrite clock_read. cbv zeta.
  destruct (deadline - clock (events w1) <=? 0) eqn:El; [done|]. apply Z.leb_gt in El.
  unfold mbind at 1, M_bind at 1. set (d := Z.min poll (deadline - clock (events w1))).
  assert (0 <= d) as Hd by (unfold d; lia).
  destruct (clock_sleep (events (log (Event Monotonic) w1)) d Hd) as [Ha Hs].
  rewrite Ha. apply IH. cbn [events log] in *.
  pose proof (clock_monotone (events w1) [Event Monotonic]) as Hm. cbn [app] in Hm.
  eapply enough_step; [|exact El|exact Hf|]; [done|]. fold d. lia.
Qed.

(** The answers of a wait: a match, no search, or a search still running when
    the time is up. *)
Definition wait_outcome (deadline later : Z) (o : object) : Prop :=
  o = wait_object true false true (u "match_found") false ∨
  (∃ state, o = wait_object false false false state false) ∨
  o = wait_object false true false (u "searching") true ∧ deadline <= later.

Lemma watch_reports fuel c deadline w w' o :
  watch fuel c deadline w = (w', Ok (Some o)) → wait_outcome deadline (clock (events w')) o.
Proof using Type.
  revert w. induction fuel as [|f IH]; intros w; [done|]. cbn [watch].
  unfold mbind at 1, M_bind at 1. destruct (search_status c w) as [w1 [s|e]]; [|done].
  destruct s as [|s m st]; [done|]. destruct (st =s "unknown"); [done|]. destruct m; [intros [= <- <-]; by left|].
  destruct (negb s); [intros [= <- <-]; right; left; by exists st|].
  unfold mbind at 1, M_bind at 1, call. rewrite clock_read. cbv zeta.
  destruct (deadline - clock (events w1) <=? 0) eqn:El.
  - intros [= <- <-]. right; right. split; [done|]. cbn [events log].
    pose proof (clock_monotone (events w1) [Event Monotonic]) as Hm. cbn [app] in Hm. lia.
  - unfold mbind at 1, M_bind at 1. destruct (answer _ (Sleep _)); [|done]. apply IH.
Qed.

(** C36: watching for a match ends.  For every behaviour of the client, and any
    clock that does not go back and sleeps as long as asked, the loop never
    runs out of its polls; it answers that a match was found, that nothing is
    being searched, or, not before the deadline, that the time is up. *)
Theorem match_wait_ends c seconds w w' r :
  1 <= seconds <= MAX_MATCH_WAIT_SECONDS → wait_for_match c seconds w = (w', r) →
  let deadline := clock (events w) + seconds * SECOND in
  (watch (polls (seconds * SECOND) _MATCH_WAIT_POLL) c deadline (log (Event Monotonic) w)).2 ≠ Ok None ∧
  ∀ o, r = Ok o → wait_outcome deadline (clock (events w')) o.
Proof using Type.
  intros Hs H. cbv zeta. unfold wait_for_match in H.
  rewrite (proj2 (Z.leb_le 1 seconds)), (proj2 (Z.leb_le seconds MAX_MATCH_WAIT_SECONDS)) in H by lia. cbn [negb andb] in H.
  unfold mbind at 1, M_bind at 1, call in H. rewrite clock_read in H. cbv zeta in H.
  unfold mbind, M_bind in H. set (deadline := clock (events w) + seconds * SECOND) in *.
  destruct (watch _ c deadline _) as [w1 out] eqn:Ew. split.
  - change out with ((w1, out).2). rewrite <- Ew. apply watch_ends. cbn [events log].
    pose proof (clock_monotone (events w) [Event Monotonic]) as Hm. cbn [app] in Hm.
    apply (enough_later _ _ _ (clock (events w))); [done|]. unfold deadline.
    replace (clock (events w) + seconds * SECOND - clock (events w)) with (seconds * SECOND) by lia.
    apply enough_polls; [unfold SECOND; lia|done].
  - intros o ->. destruct out as [[o'|]|]; [|done..]. cbn in H. injection H as <- <-. by eapply watch_reports.
Qed.

(** So does the wait for the client to start. *)
Lemma client_wait_ends w :
  let deadline := clock (events w) + _CLIENT_START_TIMEOUT in
  (await_client (polls _CLIENT_START_TIMEOUT _CLIENT_START_POLL) deadline _CLIENT_START_POLL (log (Event Monotonic) w)).2 ≠ Ok None.
Proof using Type.
  cbv zeta. apply await_ends; [done|]. cbn [events log].
  pose proof (clock_monotone (events w) [Event Monotonic]) as Hm. cbn [app] in Hm.
  apply (enough_later _ _ _ (clock (events w))); [done|].
  replace (clock (events w) + _CLIENT_START_TIMEOUT - clock (events w)) with _CLIENT_START_TIMEOUT by lia.
  by apply enough_polls.
Qed.
End Clock.

(** ** Starting a search *)

(** The lobby a search may start from. *)
Definition lobby_of (queue_id : Z) (lobby : value) : Prop :=
  lobby = VNone ∨ ∃ d, lobby = VDict d ∧ int_of_value (lobby_queue d) = Ok queue_id.

(** The answers [search_status] gives. *)
Definition coherent (s : search_result) : Prop :=
  match s with
  | Unsupported => True
  | Status searching found state =>
    found = (state =s "match_found") ∧ (searching = false → (state =s "searching") = false) ∧
    state ∈ [u "searching"; u "match_found"; u "not_searching"; u "unknown"]
  end.

Lemma search_status_coherent c w w' s : search_status c w = (w', Ok s) → coherent s.
Proof using Type.
  assert (∀ v, coherent (read_details v)) as Hc.
  { intros v. unfold read_details. destruct v as [| | | | | |d]; try (split_and!; [done..|by apply (bool_decide_unpack _)]).
    cbv zeta. split_and!; [done| |].
    - by destruct (_ =s _).
    - unfold classify_state. destruct (get_or _ _ d); repeat case_match; by apply (bool_decide_unpack _). }
  unfold search_status, except, mbind, M_bind, mret, M_ret. destruct (_request _ _ _ _ _ w) as [w1 [v|e]].
  - intros [= _ <-]. apply Hc.
  - destruct (caught e _); [|done]. by intros [= _ <-].
Qed.

Lemma idle_state s m st : coherent (Status s m st) → s = false → m = false → (st =s "unknown") = false → st = u "not_searching".
Proof using Type.
  intros (-> & Hs & Hin) -> Hm Hu. specialize (Hs eq_refl). rewrite !elem_of_cons in Hin. reflect.
  destruct Hin as [->|[->|[->|[->|Hin]]]]; try done. by apply not_elem_of_nil in Hin.
Qed.

#[global] Instance lobby_of_dec id lobby : Decision (lobby_of id lobby).
Proof using Type.
  unfold lobby_of. destruct lobby as [| | | | | |d]; try (left; by left); try (right; by intros [|(? & ? & ?)]).
  destruct (int_of_value (lobby_queue d)) as [z|e] eqn:E.
  - destruct (decide (z = id)) as [<-|Hz]; [left; right; by exists d|]. right. intros [|(d' & [= <-] & Hd)]; [done|]. congruence.
  - right. intros [|(d' & [= <-] & Hd)]; [done|]. congruence.
Defined.

Lemma ensure_lobby_of c current id w w' :
  ensure_lobby c current id w = (w', Ok tt) → lobby_of id current.
Proof using Type.
  unfold ensure_lobby, lobby_of. destruct current as [| | | | | |d]; try done; [by left|]. intros H. right. exists d. split; [done|].
  destruct (lobby_queue d); try done; unfold lift, mbind, M_bind in H;
    (destruct (reraise _ _ _) as [q|] eqn:E; [|done]); apply reraise_ok in E; rewrite E;
    (destruct (q =? id) eqn:Ez; cbn [negb] in H; [|done]); by apply Z.eqb_eq in Ez as ->.
Qed.

Lemma ensure_lobby_refuses c current id w :
  ¬ lobby_of id current → events (ensure_lobby c current id w).1 = events w.
Proof using Type.
  unfold ensure_lobby, lobby_of. intros Hn. destruct current as [| | | | | |d]; try done; [exfalso; apply Hn; by left|].
  destruct (lobby_queue d); try done; unfold lift, mbind, M_bind; (destruct (reraise _ _ _) as [q|]; [|done]);
    by destruct (negb (q =? id)).
Qed.

Lemma does_grows es {A} (m : M desktop A) w w' r : does (league_event es) m → m w = (w', r) → grows (league_event es) w w'.
Proof using Type. intros Hm H. destruct (Hm w) as [Hg _]. by rewrite H in Hg. Qed.

(** C37: a search is never started on top of another.  Either the operation
    only reads, or the client had just reported that nothing is being searched
    and no match found, in a lobby of the requested queue or in none; and a
    start is reported only on the client's own word that it is searching. *)
Theorem search_starts_when_idle c queue w w' r :
  connection_ok c → start_search c queue w = (w', r) →
  (grows (league_event READS) w w' ∨
   ∃ queue_id lobby w1 w2, resolve_queue_id queue = Ok queue_id ∧
     _request c "GET" LOBBY None [404] w = (w1, Ok lobby) ∧ lobby_of queue_id lobby ∧
     search_status c w1 = (w2, Ok (Status false false (u "not_searching")))) ∧
  (∀ o, r = Ok o → is_true (get (u "started") o) = true →
    ∃ wv state found, search_status c wv = (w', Ok (Status true found state))).
Proof using Type.
  intros Hc. unfold start_search. unfold mbind at 1, M_bind at 1, lift.
  destruct (resolve_queue_id queue) as [id|e] eqn:Eq; [|by intros [= <- <-]; split; [left|]].
  unfold mbind at 1, M_bind at 1. destruct (_request c "GET" LOBBY None [404] w) as [w1 [lobby|e]] eqn:Eg.
  all: pose proof (does_grows READS _ _ _ _ (request_does c _ _ None [404] READS Hc ltac:(by left)) Eg) as H1.
  2:{ by intros [= <- <-]; split; [left|]. }
  unfold mbind at 1, M_bind at 1. destruct (search_status c w1) as [w2 [s|e]] eqn:Es.
  all: pose proof (does_grows READS _ _ _ _ (get_search c READS Hc ltac:(done)) Es) as H2.
  all: assert (grows (league_event READS) w w2) as H3 by (by etrans).
  2:{ by intros [= <- <-]; split; [left|]. }
  pose proof (search_status_coherent _ _ _ _ Es) as Hcoh.
  destruct s as [|s m st]; [by intros [= <- <-]; split; [left|]|].
  destruct m; [by intros [= <- <-]; split; [left|]|].
  destruct (st =s "unknown") eqn:Eu; [by intros [= <- <-]; split; [left|]|].
  destruct s; [by intros [= <- <-]; split; [left|intros o [= <-]]|].
  pose proof (idle_state _ _ _ Hcoh eq_refl eq_refl Eu) as ->.
  unfold mbind at 1, M_bind at 1. destruct (ensure_lobby c lobby id w2) as [w3 [[]|e]] eqn:Ee.
  - intros H. split; [right; exists id, lobby, w1, w2; split_and!; try done; by eapply ensure_lobby_of|].
    revert H. unfold mbind at 1, M_bind at 1. destruct (_request c "POST" SEARCH _ _ w3) as [w4 [v|e]]; [|by intros [= <- <-]].
    unfold mbind at 1, M_bind at 1. destruct (search_status c w4) as [w5 [s5|e]] eqn:E5; [|by intros [= <- <-]].
    destruct s5 as [|[] m5 st5]; intros [= <- <-]; try done. intros o _ _. by exists w4, st5, m5.
  - intros [= <- <-]. split; [|done]. destruct (decide (lobby_of id lobby)) as [Hl|Hl].
    + right. by exists id, lobby, w1, w2.
    + left. pose proof (ensure_lobby_refuses c lobby id w2 Hl) as He. rewrite Ee in He. cbn [fst] in He.
      destruct H3 as (new & Hn & Hf). exists new. by rewrite He.
Qed.
End Facts.

(** ** Samples *)

(** A client that searches once it has been told to. *)
Definition posted (e : event) : bool :=
  match e with
  | Event o => match o with LeagueCall _ _ method path _ => is_lit method "POST" && is_lit path SEARCH | _ => false end
  end.
Definition json_bytes (v : value) : bytes := ok_or [] (Json.dump_bytes false false v).
Definition sample_league (h : history) (method path : pystr) : result (Z * bytes) :=
  if is_lit method "GET" && is_lit path LOBBY then Ok (404, [])
  else if is_lit method "GET" && is_lit path SEARCH then
    Ok (200, json_bytes (VDict [(u "searchState", VStr (if existsb posted h then u "Searching" else u "Idle"))]))
  else Ok (204, []).
Definition league_machine : Machine := sample_machine (λ _, None) sample_league.
Definition start : desktop := mkDesktop [] [].
Definition sample_connection : LeagueClientConnection := mkConnection 2999 (u "secret").

Lemma match_wait_ends_witness :
  let T := ascii_text in let W := league_machine in
  let w := (start_search sample_connection (VStr (u "aram")) start).1 in
  let run := wait_for_match sample_connection 2 w in
  let deadline := clock (events w) + 2 * SECOND in
  (watch (polls (2 * SECOND) _MATCH_WAIT_POLL) sample_connection deadline (log (Event Monotonic) w)).2 ≠ Ok None ∧
  ∀ o, run.2 = Ok o → wait_outcome deadline (clock (events run.1)) o.
Proof.
  apply (match_wait_ends (T := ascii_text) (W := league_machine) sample_connection 2); [done|by rewrite <- surjective_pairing].
Defined.

Lemma search_starts_when_idle_witness :
  let T := ascii_text in let W := league_machine in
  let run := start_search sample_connection (VStr (u "aram")) start in
  (grows (league_event READS) start run.1 ∨
   ∃ queue_id lobby w1 w2, resolve_queue_id (VStr (u "aram")) = Ok queue_id ∧
     _request sample_connection "GET" LOBBY None [404] start = (w1, Ok lobby) ∧ lobby_of queue_id lobby ∧
     search_status sample_connection w1 = (w2, Ok (Status false false (u "not_searching")))) ∧
  (∀ o, run.2 = Ok o → is_true (get (u "started") o) = true →
    ∃ wv state found, search_status sample_connection wv = (run.1, Ok (Status true found state))).
Proof.
  apply (search_starts_when_idle (T := ascii_text) (W := league_machine)); [done|by rewrite <- surjective_pairing].
Defined.

(** The search of the sample client, from discovery to its confirmation, and a
    wait of two seconds on it. *)
Example sample_search :
  let T := ascii_text in let W := league_machine in
  let run := with_client (λ c, start_search c (VStr (u " Flex "))) start in
  run.2 = Ok (started_object 440) ∧
  (with_client (λ c, wait_for_match c 2) run.1).2 = Ok (wait_object false true false (u "searching") true) ∧
  (with_client cancel_search run.1).2 = Raise LeagueClientError.
Proof. by_compute. Qed.

(** A queue identifier of infinite size escapes the adapter as
    [OverflowError]: [int] of a float is not guarded against it. *)
Example infinite_queue_escapes :
  let T := ascii_text in _safe_lobby (VDict [(u "queueId", VFloat (FInf false))]) = Raise OverflowError.
Proof. done. Qed.
