(* ===== verification/Desktop.v ===== *)
(** * The desktop tools

    [tools/browser.py], the openers of [tools/commands.py], [tools/discord.py]
    and [tools/whatsapp.py], and [tools/media.py], [tools/audio.py] and
    [tools/system.py].  Each is a run on the machine; the lemmas say which
    operations it may perform. *)
From S2P Require Import Prelude Dict Value Effects JsonParse TextPolicy PyText Regex Intents Urls.
From S2P Require Import Machine Apps Contacts ControlConfig League.

Section Desktop.
Context `{T : UnicodeText} `{D : UrlData} `{C : UnicodeCategories} `{W : Machine}.

(** ** [tools/browser.py] *)

Definition without_destination (result : object) : object := filter (λ kv, kv.1 ≠ u "url") result.

(** [bool(browser_open(url))], every failure of a launcher being [False]. *)
Definition open_validated_url (url : value) (success_message failure_message : literal) : M desktop object :=
  lift (validate_external_url url) ≫= λ validated_url,
  except (call (OpenBrowser validated_url)) [Exception] (mret false) ≫= λ opened,
  mret [(u "success", VBool opened); (u "url", VStr validated_url);
        (u "message", VStr (u (if opened : bool then success_message else failure_message)))].
Arguments open_validated_url url (success_message failure_message)%_string_scope.

(** A URL builder, the browser, and the result without the destination. *)
Definition open_built (url : result pystr) (success_message failure_message : literal) (extra : object) : M desktop object :=
  lift url ≫= λ url,
  open_validated_url (VStr url) success_message failure_message ≫= λ result,
  mret (merged (without_destination result) extra).
Arguments open_built url (success_message failure_message)%_string_scope extra.

(** [try: open_app(name) / except AppsConfigError: {"success": False}] *)
Definition try_open_app (name : literal) : M desktop object :=
  except (open_app (u name)) [AppsConfigError] (mret [(u "success", VBool false)]).
Arguments try_open_app name%_string_scope.

(** ** [tools/commands.py] *)

Definition open_web_search (query : value) : M desktop object :=
  open_built (build_web_search_url query) "Búsqueda abierta en el navegador."
    "No he podido abrir la búsqueda en el navegador." [].

Definition open_apple_music_search (term : value) : M desktop object :=
  open_built (build_apple_music_search_url term) "Búsqueda de Apple Music abierta; elige la canción manualmente."
    "No he podido abrir la búsqueda de Apple Music."
    [(u "playback_started", VBool false); (u "requires_manual_selection", VBool true)].

Definition open_apple_music : M desktop object :=
  try_open_app "apple_music" ≫= λ result,
  if truthy (get (u "success") result) then
    mret (merged result [(u "target", VStr (u "desktop_app")); (u "playback_started", VBool false);
                         (u "requires_manual_selection", VBool true)])
  else
    open_built build_apple_music_browse_url "Apple Music no está configurado como app; he abierto su catálogo web."
      "No he podido abrir Apple Music ni su catálogo web."
      [(u "target", VStr (u "web")); (u "playback_started", VBool false); (u "requires_manual_selection", VBool true)].

Definition open_league : M desktop object :=
  open_app (u "league_of_legends") ≫= λ result,
  if negb (is_true (get (u "success") result)) then mret result
  else
    except (wait_for_client_connection ≫= λ _, mret (merged result [(u "client_ready", VBool true)])) [LeagueClientError]
      (mret [(u "success", VBool false); (u "app", VStr (u "league_of_legends"));
             (u "message", VStr (u "Riot Client se ha abierto, pero League of Legends no ha llegado a iniciar. Comprueba el inicio de sesión, las actualizaciones y vuelve a intentarlo."))]).

Definition open_codex : M desktop object := open_app (u "codex").

(** ** [tools/discord.py] *)

Definition open_discord_app : M desktop object :=
  try_open_app "discord" ≫= λ app_result,
  if is_true (get (u "success") app_result) then
    mret [(u "success", VBool true); (u "target", VStr (u "desktop_app"));
          (u "message", VStr (u "Discord abierto; las llamadas se inician manualmente.")); (u "call_started", VBool false)]
  else
    open_built build_discord_app_url "Discord abierto; las llamadas se inician manualmente." "No he podido abrir Discord."
      [(u "target", VStr (u "web")); (u "call_started", VBool false)].

Definition open_discord_channel (channel_id guild_id : value) : M desktop object :=
  open_built (build_discord_channel_url channel_id guild_id)
    "Discord abierto en el canal; las llamadas se inician manualmente." "No he podido abrir el canal de Discord."
    [(u "call_started", VBool false)].

Definition open_discord_call (channel_id guild_id : value) : M desktop object :=
  open_built (build_discord_channel_url channel_id guild_id)
    "Canal de Discord abierto; pulsa Llamar manualmente." "No he podido abrir el destino de llamada de Discord."
    [(u "call_started", VBool false); (u "requires_manual_call", VBool true)].

(** ** [tools/whatsapp.py] *)

Definition MAX_CLOUD_RESPONSE_BYTES : Z := 64 * 1024.

Definition open_whatsapp_compose (phone message : value) : M desktop object :=
  open_built (build_whatsapp_compose_url phone message) "Chat preparado; debes pulsar Enviar manualmente."
    "No he podido abrir el chat de WhatsApp." [(u "sent", VBool false); (u "requires_manual_send", VBool true)].

Definition not_sent (text : literal) : object :=
  [(u "success", VBool false); (u "sent", VBool false); (u "requires_manual_send", VBool false); (u "message", VStr (u text))].
Arguments not_sent text%_string_scope.

Definition cloud_body (phone message : pystr) : value :=
  VDict [(u "messaging_product", VStr (u "whatsapp")); (u "recipient_type", VStr (u "individual")); (u "to", VStr phone);
         (u "type", VStr (u "text")); (u "text", VDict [(u "preview_url", VBool false); (u "body", VStr message)])].

Definition send_whatsapp_cloud_message (phone message : value) : M desktop object :=
  lift (normalize_phone phone) ≫= λ normalized_phone,
  lift (validate_bounded_text message MAX_MESSAGE_LENGTH true) ≫= λ message,
  get_whatsapp_settings ≫= λ settings,
  get_whatsapp_access_token ≫= λ token,
  match token with
  | Some token =>
    if negb (mode settings =s "cloud_api") || negb (nonempty (phone_number_id settings))
    then mret (not_sent "El envío automático de WhatsApp no está configurado.")
    else
      lift (validate_external_url
        (VStr (u "https://graph.facebook.com/" ++ api_version settings ++ u "/" ++ phone_number_id settings ++ u "/messages")))
      ≫= λ endpoint,
      except
        (call (CloudCall endpoint token (cloud_body normalized_phone message)) ≫= λ response,
         let '(status, response_body) := response in
         if negb ((200 <=? status) && (status <? 300)) || (MAX_CLOUD_RESPONSE_BYTES <? len response_body) then raise RuntimeError
         else mret [(u "success", VBool true); (u "sent", VBool true); (u "requires_manual_send", VBool false);
                    (u "delivery", VStr (u "cloud_api"));
                    (u "message", VStr (u "Mensaje enviado automáticamente por WhatsApp Cloud API."))])
        [OSError; RuntimeError]
        (mret (not_sent "WhatsApp no ha confirmado el envío automático."))
  | None => mret (not_sent "El envío automático de WhatsApp no está configurado.")
  end.

Definition open_whatsapp_chat (phone : value) : M desktop object :=
  open_built (build_whatsapp_chat_url phone) "Chat de WhatsApp abierto; no se ha preparado ni enviado ningún mensaje."
    "No he podido abrir el chat de WhatsApp." [(u "sent", VBool false)].

Definition open_whatsapp_web : M desktop object :=
  try_open_app "whatsapp" ≫= λ app_result,
  if is_true (get (u "success") app_result) then
    mret [(u "success", VBool true); (u "target", VStr (u "desktop_app"));
          (u "message", VStr (u "WhatsApp abierto; no se ha enviado ningún mensaje.")); (u "sent", VBool false)]
  else
    open_built build_whatsapp_web_url "WhatsApp Web abierto; no se ha enviado ningún mensaje." "No he podido abrir WhatsApp Web."
      [(u "target", VStr (u "web")); (u "sent", VBool false)].

(** ** [tools/media.py] *)

Definition MEDIA_KEYS : list (literal * Z) := [("play_pause", 0xB3); ("next", 0xB0); ("previous", 0xB1); ("stop", 0xB2)]%string.
Definition KEYEVENTF_KEYUP : Z := 2.

Definition send_media_action (action : pystr) : M desktop object :=
  match lookup_literal action MEDIA_KEYS with
  | None => raise ValueError
  | Some virtual_key =>
    if negb windows then raise RuntimeError
    else
      call (PressKey virtual_key 0) ≫= λ _,
      call (PressKey virtual_key KEYEVENTF_KEYUP) ≫= λ _,
      mret [(u "success", VBool true); (u "action", VStr action)]
  end.

(** ** [tools/audio.py] *)

(** [round(x)] of a float: half to even. *)
Definition half_even (n den : Z) : Z :=
  let q := n / den in let r := n mod den in
  if (den <? 2 * r) || ((2 * r =? den) && negb (Z.even q)) then q + 1 else q.
Definition round_float (f : pyfloat) : result Z :=
  match f with
  | FNan => Raise ValueError
  | FInf _ => Raise OverflowError
  | FFin neg m e =>
    let n := if 0 <=? e then m * 2 ^ e else half_even m (2 ^ (- e)) in Ok (if neg : bool then - n else n)
  end.

(** [x * 100.0] *)
Definition times_hundred (f : pyfloat) : pyfloat :=
  match f with
  | FFin neg m e => round_ratio neg (100 * m * 2 ^ Z.max 0 e) (2 ^ Z.max 0 (- e))
  | _ => f
  end.

(** The speakers, closed whatever happens in between. *)
Definition with_speakers {A} (m : M desktop A) : M desktop A := finally (call OpenAudio ≫= λ _, m) (call CloseAudio).

Definition get_volume : M desktop object :=
  with_speakers
    (call VolumeReading ≫= λ '(device, current, muted),
     lift (round_float (times_hundred current)) ≫= λ volume,
     mret [(u "success", VBool true); (u "device", VStr device); (u "volume", VInt volume); (u "muted", VBool muted)]).

Definition set_volume (percent : Z) : M desktop object :=
  let percent := Z.max 0 (Z.min 100 percent) in
  with_speakers (call (SetVolume percent) ≫= λ _, mret [(u "success", VBool true); (u "volume", VInt percent)]).

Definition mute : M desktop object :=
  with_speakers (call (SetMute true) ≫= λ _, mret [(u "success", VBool true); (u "muted", VBool true)]).
Definition unmute : M desktop object :=
  with_speakers (call (SetMute false) ≫= λ _, mret [(u "success", VBool true); (u "muted", VBool false)]).

(** ** [tools/system.py] *)

(** [int(x - y)] of two floats. *)
Definition difference (x y : pyfloat) : result Z :=
  match x, y with
  | FFin sx mx ex, FFin sy my ey =>
    let e := Z.min ex ey in
    let n := (if sx : bool then - mx else mx) * 2 ^ (ex - e) - (if sy : bool then - my else my) * 2 ^ (ey - e) in
    int_of_float (round_ratio (n <? 0) (Z.abs n * 2 ^ Z.max 0 e) (2 ^ Z.max 0 (- e)))
  | FNan, _ | _, FNan => Raise ValueError
  | FInf sx, FInf sy => if eqb sx sy then Raise ValueError else Raise OverflowError
  | _, _ => Raise OverflowError
  end.

(** [round(n / 1024**3, 2)] *)
Definition gigabytes (n : Z) : pyfloat :=
  match round_ratio (n <? 0) (Z.abs n) (2 ^ 30) with
  | FFin neg m e => round_ratio neg (if 0 <=? e then 100 * m * 2 ^ e else half_even (100 * m) (2 ^ (- e))) 100
  | f => f
  end.

Definition get_system_status : M desktop object :=
  call SystemReadings ≫= λ r,
  lift (difference (now r) (boot_time r)) ≫= λ uptime_seconds,
  mret [(u "success", VBool true); (u "computer_name", VStr (host_name r)); (u "os", VStr (os_name r));
        (u "os_version", VStr (os_version r)); (u "cpu_usage", VFloat (cpu_percent r));
        (u "ram_usage", VFloat (memory_percent r)); (u "ram_available_gb", VFloat (gigabytes (memory_available r)));
        (u "disk_usage", VFloat (disk_percent r)); (u "disk_free_gb", VFloat (gigabytes (disk_free r)));
        (u "uptime_seconds", VInt uptime_seconds)].

Definition lock_pc : M desktop object :=
  except
    (call LockStation ≫= λ _, mret [(u "success", VBool true); (u "message", VStr (u "Orden de bloqueo enviada."))])
    [Exception]
    (mret [(u "success", VBool false); (u "message", VStr (u "No he podido bloquear el ordenador."))]).

Definition get_power_status : M desktop object :=
  call Battery ≫= λ b,
  mret match b with
       | None => [(u "success", VBool true); (u "available", VBool false)]
       | Some b =>
         [(u "success", VBool true); (u "available", VBool true); (u "percent", VInt (percent b));
          (u "plugged", match plugged b with Some p => VBool p | None => VNone end);
          (u "seconds_left", match secsleft b with Some s => VInt s | None => VNone end)]
       end.

Definition get_network_status : M desktop object :=
  call NetworkInterfaces ≫= λ stats,
  mret [(u "success", VBool true);
        (u "interfaces", VDict ((λ '(name, (isup, speed)),
           (name, VDict [(u "is_up", VBool isup); (u "speed_mbps", VInt speed)])) <$> stats))].
End Desktop.
