(* ===== verification/IntegrationCatalog.v ===== *)
(** * The public catalog: [windows-agent/tools/integration_catalog.py]

    The commands and the capability matrix the agent shows to its clients, the
    validators they pass, and the editing of a command's phrase; with
    [tools/capabilities.py] and [tools/app_diagnostics.py], which read the
    local configuration for the matrix. *)
From S2P Require Import Prelude Dict Value Effects TextPolicy PyText Tools Urls.
From S2P Require Import Machine Apps Contacts ControlConfig League.

Definition _MAX_COMMANDS : Z := 64.
Definition _MAX_PARAMETERS : Z := 8.
Definition _MAX_PARAMETER_OPTIONS : Z := 16.
Definition _MAX_COMMAND_TEXT_BYTES : Z := 256.
Definition _MAX_PARAMETER_TEXT_BYTES : Z := 128.
Definition _COMMAND_FIELDS : list pystr :=
  u <$> ["id"; "tool_name"; "phrase"; "description"; "safety"; "requires_confirmation"; "parameters"; "default_arguments"]%string.
Definition _PARAMETER_FIELDS : list pystr := u <$> ["name"; "label"; "kind"; "max_length"; "options"]%string.
Definition _PARAMETER_KINDS : list literal :=
  ["text"; "message"; "phone"; "integer"; "queue"; "action"; "app"; "contact"; "channel_id"; "guild_id"; "url"]%string.

(** [sorted(QUEUE_IDS)] *)
Definition sorted_queues : list pystr := merge_sort str_le (u ∘ fst <$> QUEUE_IDS).

(** ** The commands *)

Definition _parameter (name label kind : literal) (max_length : Z) (options : list pystr) : value :=
  VDict ([(u "name", VStr (u name)); (u "label", VStr (u label)); (u "kind", VStr (u kind)); (u "max_length", VInt max_length)]
         ++ if nonempty options then [(u "options", VList (VStr <$> options))] else []).

Definition opt_entry {A} (k : literal) (f : A → value) (o : option A) : object :=
  match o with Some a => [(u k, f a)] | None => [] end.
Arguments opt_entry {A} k%_string_scope f o.

(** One entry of [_COMMANDS]. *)
Definition command (id tool_name phrase description safety : literal) (requires_confirmation : bool)
    (parameters : option (list value)) (default_arguments : option (list (literal * literal))) : object :=
  [(u "id", VStr (u id)); (u "tool_name", VStr (u tool_name))]
  ++ opt_entry "default_arguments" (λ d, VDict ((λ kv, (u kv.1, VStr (u kv.2))) <$> d)) default_arguments
  ++ [(u "phrase", VStr (u phrase)); (u "description", VStr (u description)); (u "safety", VStr (u safety));
      (u "requires_confirmation", VBool requires_confirmation)]
  ++ opt_entry "parameters" VList parameters.

Definition _COMMANDS : list object := [
  command "system_status" "system_status" "estado del ordenador"
    "Consulta un estado resumido del ordenador." "safe" false (None) (None);
  command "integration_status" "integration_status" "estado de integraciones"
    "Consulta qué integraciones están configuradas, sin ejecutar ninguna acción." "safe" false (None) (None);
  command "web_search" "web_search" "busca en internet <consulta>"
    "Abre una búsqueda en el navegador." "unsafe" true (Some [_parameter "query" "Consulta" "text" 200 []]) (None);
  command "open_app" "open_app" "abre una aplicación configurada <nombre>"
    "Abre una aplicación previamente configurada en el PC." "unsafe" true (Some [_parameter "app" "Aplicación" "app" 80 []]) (None);
  command "open_codex" "open_codex" "abre Codex"
    "Abre Codex sin escribir ni enviar mensajes." "unsafe" true (None) (None);
  command "music_open" "music_open" "abre Apple Music"
    "Abre Apple Music o su catálogo web." "unsafe" true (None) (None);
  command "music_search" "music_search" "busca en Apple Music <artista o canción>"
    "Abre los resultados; la pista se elige y reproduce manualmente." "unsafe" true (Some [_parameter "term" "Artista o canción" "text" 200 []]) (None);
  command "whatsapp_compose" "whatsapp_compose" "prepara WhatsApp para <teléfono> y dile <mensaje>"
    "Abre el chat con el texto preparado; nunca pulsa Enviar." "unsafe" true (Some [_parameter "phone" "Teléfono" "phone" 32 []; _parameter "message" "Mensaje" "message" 3800 []]) (None);
  command "whatsapp_open" "whatsapp_open" "abre WhatsApp"
    "Abre WhatsApp Web sin enviar mensajes." "unsafe" true (None) (None);
  command "whatsapp_contact" "whatsapp_contact" "prepara WhatsApp para <contacto> y dile <mensaje>"
    "Usa un alias local, abre el chat y deja el envío para la persona." "unsafe" true (Some [_parameter "contact" "Contacto" "contact" 80 []; _parameter "message" "Mensaje" "message" 3800 []]) (None);
  command "whatsapp_contact_open" "whatsapp_contact_open" "abre WhatsApp para <contacto>"
    "Abre el chat de un alias local sin preparar ni enviar mensajes." "unsafe" true (Some [_parameter "contact" "Contacto" "contact" 80 []]) (None);
  command "whatsapp_phone_open" "whatsapp_phone_open" "abre WhatsApp para <teléfono>"
    "Abre un chat por teléfono sin preparar ni enviar mensajes." "unsafe" true (Some [_parameter "phone" "Teléfono" "phone" 32 []]) (None);
  command "discord_open_app" "discord_open_app" "abre Discord"
    "Abre Discord sin iniciar llamadas." "unsafe" true (None) (None);
  command "discord_open" "discord_open" "abre Discord canal <id>"
    "Abre un canal o DM; nunca inicia una llamada." "unsafe" true (Some [_parameter "channel_id" "ID del canal" "channel_id" 20 []]) (None);
  command "discord_server_channel" "discord_open" "abre Discord servidor <servidor> canal <canal>"
    "Abre un canal de servidor; nunca inicia una llamada." "unsafe" true (Some [_parameter "guild_id" "ID del servidor" "guild_id" 20 []; _parameter "channel_id" "ID del canal" "channel_id" 20 []]) (None);
  command "discord_contact" "discord_contact" "abre el canal de <contacto> en Discord"
    "Usa un alias local, abre el canal y deja la llamada para la persona." "unsafe" true (Some [_parameter "contact" "Contacto" "contact" 80 []]) (None);
  command "discord_call_channel" "discord_call_channel" "llama a Discord canal <id>"
    "Abre el destino de llamada; pulsa Llamar manualmente." "unsafe" true (Some [_parameter "channel_id" "ID del canal" "channel_id" 20 []]) (None);
  command "discord_call_server_channel" "discord_call_channel" "llama a Discord servidor <servidor> canal <canal>"
    "Abre el destino de llamada; pulsa Llamar manualmente." "unsafe" true (Some [_parameter "guild_id" "ID del servidor" "guild_id" 20 []; _parameter "channel_id" "ID del canal" "channel_id" 20 []]) (None);
  command "discord_call" "discord_call" "llama a <contacto> en Discord"
    "Abre el destino de llamada; la persona pulsa Llamar manualmente." "unsafe" true (Some [_parameter "contact" "Contacto" "contact" 80 []]) (None);
  command "league_open" "league_open" "abre League of Legends"
    "Abre el cliente de League sin iniciar una partida." "unsafe" true (None) (None);
  command "league_search" "league_search" "busca una partida <cola>"
    "Inicia matchmaking en una cola allowlisted; abre League si aún no está listo." "unsafe" true (Some [_parameter "queue" "Cola" "queue" 32 sorted_queues]) (None);
  command "league_status" "league_status" "estado de League"
    "Consulta lobby y matchmaking sin iniciar ninguna acción." "safe" false (None) (None);
  command "league_search_status" "league_search_status" "estado de búsqueda de League"
    "Consulta si busca partida o si hay una pendiente de aceptación manual." "safe" false (None) (None);
  command "league_wait" "league_wait" "espera a que League encuentre una partida <segundos>"
    "Observa matchmaking durante un tiempo limitado; la aceptación sigue siendo manual." "safe" false (Some [_parameter "seconds" "Segundos" "integer" 3 []]) (None);
  command "league_cancel" "league_cancel" "cancela la búsqueda de League"
    "Cancela una búsqueda confirmada; no rechaza una partida ya encontrada." "unsafe" true (None) (None);
  command "audio_volume" "audio_volume" "pon el volumen <0-100>"
    "Ajusta el volumen del ordenador." "safe" false (Some [_parameter "percent" "Volumen (0-100)" "integer" 3 []]) (None);
  command "system_power" "system_power" "estado de batería"
    "Consulta batería y alimentación del ordenador." "safe" false (None) (None);
  command "system_network" "system_network" "estado de red"
    "Consulta el estado resumido de las interfaces de red." "safe" false (None) (None);
  command "audio_mute" "audio_mute" "silencia el ordenador"
    "Silencia el audio del ordenador." "safe" false (None) (None);
  command "audio_unmute" "audio_unmute" "activa el sonido"
    "Activa el audio del ordenador." "safe" false (None) (None);
  command "media_action" "media_action" "control multimedia <acción>"
    "Envía una tecla multimedia allowlisted." "safe" false (Some [_parameter "action" "Acción" "action" 16 (u <$> ["play_pause"; "next"; "previous"; "stop"])]) (None);
  command "media_play_pause" "media_action" "reproduce la canción seleccionada"
    "Reproduce o pausa el reproductor multimedia activo; no elige una pista." "safe" false (None) (Some [("action", "play_pause")]);
  command "media_next" "media_action" "siguiente canción"
    "Pasa a la siguiente pista del reproductor multimedia activo." "safe" false (None) (Some [("action", "next")]);
  command "media_previous" "media_action" "canción anterior"
    "Vuelve a la pista anterior del reproductor multimedia activo." "safe" false (None) (Some [("action", "previous")]);
  command "media_stop" "media_action" "detén la música"
    "Detiene el reproductor multimedia activo." "safe" false (None) (Some [("action", "stop")]);
  command "timer_create" "timer_create" "crea un temporizador <segundos>"
    "Crea un temporizador local en memoria." "safe" false (Some [_parameter "seconds" "Segundos" "integer" 6 []]) (None);
  command "timer_list" "timer_list" "lista los temporizadores"
    "Consulta los temporizadores locales activos." "safe" false (None) (None);
  command "timer_cancel" "timer_cancel" "cancela el temporizador <id>"
    "Cancela un temporizador local por su identificador." "safe" false (Some [_parameter "timer_id" "ID del temporizador" "text" 32 []]) (None);
  command "system_lock" "system_lock" "bloquea el ordenador"
    "Bloquea Windows y requiere confirmación." "unsafe" true (None) (None);
  command "open_url" "open_url" "abre una URL validada <dirección>"
    "Abre una URL HTTP(S) validada en el navegador." "unsafe" true (Some [_parameter "url" "Dirección" "url" 2048 []]) (None)]%string.

(** ** The validator *)

Definition _safe_catalog_text (v : value) (maximum_bytes : Z) : result pystr :=
  reraise [ValueError] ValueError (validate_bounded_text v maximum_bytes false).

(** The strings of a list, when there is nothing else in it. *)
Definition parameter_options (v : value) : result (list pystr) :=
  match v with
  | VList l =>
    if (_MAX_PARAMETER_OPTIONS <? len l) || negb (forallb is_str l) then Raise ValueError
    else
      safe_options ← traverse (λ option, _safe_catalog_text option _MAX_PARAMETER_TEXT_BYTES) l;
      _ ← ensure (bool_decide (NoDup safe_options)) ValueError;
      Ok safe_options
  | _ => Raise ValueError
  end.

(** One parameter, with its name. *)
Definition validate_parameter (seen_names : list pystr) (v : value) : result (pystr * object) :=
  match v with
  | VDict d =>
    if negb (keys_within _PARAMETER_FIELDS d) then Raise ValueError
    else
      match get (u "name") d, get (u "kind") d, get (u "max_length") d with
      | VStr name, VStr kind, VInt max_length =>
        if negb (is_parameter_name name) || bool_decide (name ∈ seen_names) || negb (one_of kind _PARAMETER_KINDS)
          || negb ((1 <=? max_length) && (max_length <=? 4096)) then Raise ValueError
        else
          safe_label ← _safe_catalog_text (get (u "label") d) _MAX_PARAMETER_TEXT_BYTES;
          safe_options ← parameter_options (get_or (u "options") (VList []) d);
          Ok (name, [(u "name", VStr name); (u "label", VStr (strip safe_label)); (u "kind", VStr kind);
                     (u "max_length", VInt max_length)]
                    ++ if nonempty safe_options then [(u "options", VList (VStr <$> safe_options))] else [])
      | _, _, _ => Raise ValueError
      end
  | _ => Raise ValueError
  end.

Fixpoint validate_parameter_list (seen_names : list pystr) (l : list value) : result (list object) :=
  match l with
  | [] => Ok []
  | v :: l' =>
    '(name, p) ← validate_parameter seen_names v;
    ps ← validate_parameter_list (seen_names ++ [name]) l';
    Ok (p :: ps)
  end.

Definition _validate_parameters (v : value) : result (list object) :=
  match v with
  | VList l => if _MAX_PARAMETERS <? len l then Raise ValueError else validate_parameter_list [] l
  | _ => Raise ValueError
  end.

Definition _validate_default_arguments (v : value) : result object :=
  match v with
  | VDict d =>
    if negb (nonempty d) || (_MAX_PARAMETERS <? len d) then Raise ValueError
    else
      traverse (λ kv,
        _ ← ensure (is_parameter_name kv.1) ValueError;
        argument ← _safe_catalog_text kv.2 _MAX_PARAMETER_TEXT_BYTES;
        Ok (kv.1, VStr (strip argument))) d
  | _ => Raise ValueError
  end.

(** [re.compile(r"<([^<>]+)>").findall(phrase)]: [open] is the text since the
    last [<], when no [>] has closed it. *)
Fixpoint placeholders_from (open : option pystr) (s : pystr) : list pystr :=
  match s with
  | [] => []
  | c :: s' =>
    if c =? 60 then placeholders_from (Some []) s'
    else if c =? 62 then
      match open with
      | Some (x :: name) => (x :: name) :: placeholders_from None s'
      | _ => placeholders_from None s'
      end
    else placeholders_from (match open with Some name => Some (name ++ [c]) | None => None end) s'
  end.

Definition placeholder_ok (placeholder : pystr) : result bool :=
  if negb (nonempty placeholder) then Ok false
  else match utf8_encode placeholder with Some b => Ok (len b <=? 80) | None => Raise UnicodeEncodeError end.

Definition _phrase_placeholders (phrase : pystr) : result (list pystr) :=
  let placeholders := strip <$> placeholders_from None phrase in
  oks ← traverse placeholder_ok placeholders;
  if forallb id oks && bool_decide (NoDup placeholders) then Ok placeholders else Raise ValueError.

(** [safety not in {"safe", "unsafe"}] *)
Definition known_safety (v : value) : result bool :=
  match v with
  | VStr s => Ok (one_of s ["safe"; "unsafe"]%string)
  | VList _ | VDict _ => Raise TypeError
  | _ => Ok false
  end.

Definition validate_command (seen_ids : list pystr) (v : value) : result (pystr * object) :=
  match v with
  | VDict d =>
    if negb (keys_within _COMMAND_FIELDS d) then Raise ValueError
    else
      command_id ← _safe_catalog_text (get (u "id") d) _MAX_COMMAND_TEXT_BYTES;
      let command_id := strip command_id in
      if bool_decide (command_id ∈ seen_ids) then Raise ValueError
      else
        tool_name ← _safe_catalog_text (get (u "tool_name") d) _MAX_COMMAND_TEXT_BYTES;
        phrase ← _safe_catalog_text (get (u "phrase") d) _MAX_COMMAND_TEXT_BYTES;
        description ← _safe_catalog_text (get (u "description") d) _MAX_COMMAND_TEXT_BYTES;
        known ← known_safety (get (u "safety") d);
        match get (u "safety") d, get (u "requires_confirmation") d with
        | VStr safety, VBool requires_confirmation =>
          if negb known || negb (eqb requires_confirmation (safety =s "unsafe")) then Raise ValueError
          else
            parameters ← _validate_parameters (get_or (u "parameters") (VList []) d);
            placeholders ← _phrase_placeholders (strip phrase);
            if negb (len placeholders =? len parameters) then Raise ValueError
            else
              default_arguments ←
                match dget (u "default_arguments") d with
                | Some a =>
                  a ← _validate_default_arguments a;
                  if nonempty parameters || nonempty placeholders then Raise ValueError else Ok (Some a)
                | None => Ok None
                end;
              Ok (command_id,
                [(u "id", VStr command_id); (u "tool_name", VStr (strip tool_name)); (u "phrase", VStr (strip phrase));
                 (u "description", VStr (strip description)); (u "safety", VStr safety);
                 (u "requires_confirmation", VBool requires_confirmation); (u "parameters", VList (VDict <$> parameters))]
                ++ opt_entry "default_arguments" VDict default_arguments)
        | _, _ => Raise ValueError
        end
  | _ => Raise ValueError
  end.

Fixpoint validate_commands (seen_ids : list pystr) (l : list value) : result (list object) :=
  match l with
  | [] => Ok []
  | v :: l' =>
    '(command_id, c) ← validate_command seen_ids v;
    cs ← validate_commands (seen_ids ++ [command_id]) l';
    Ok (c :: cs)
  end.

Definition validate_command_catalog (commands : value) : result (list object) :=
  match commands with
  | VList l => if _MAX_COMMANDS <? len l then Raise ValueError else validate_commands [] l
  | _ => Raise ValueError
  end.

(** ** The capability matrix *)

Definition _INTEGRATION_SAFETY_CONTRACT : list (literal * list (literal * bool)) := [
  ("web_search", [("requires_confirmation", true)]);
  ("apple_music", [("playback", false); ("media_control", true); ("requires_manual_selection", true); ("requires_confirmation", true)]);
  ("whatsapp", [("requires_confirmation", true)]);
  ("discord", [("start_call", false); ("requires_manual_call", true); ("requires_confirmation", true)]);
  ("league", [("accept_match", false); ("requires_manual_accept", true); ("requires_confirmation", true)]);
  ("codex", [("writes_to_chat", false); ("requires_confirmation", true)])]%string.

Definition validate_integration_capabilities (v : value) : result unit :=
  match v with
  | VDict capabilities =>
    _ ← ensure (keys_within (u ∘ fst <$> _INTEGRATION_SAFETY_CONTRACT) capabilities) ValueError;
    _ ← traverse (λ '(integration, expected_fields),
          match get (u integration) capabilities with
          | VDict values =>
            traverse (λ '(field, expected),
              match get (u field) values with
              | VBool b => ensure (eqb b expected) ValueError
              | _ => Raise ValueError
              end) expected_fields
          | _ => Raise ValueError
          end) _INTEGRATION_SAFETY_CONTRACT;
    match get (u "whatsapp") capabilities with
    | VDict whatsapp =>
      match get (u "send_message") whatsapp, get (u "requires_manual_send") whatsapp with
      | VBool send, VBool manual => ensure (negb (eqb send manual)) ValueError
      | _, _ => Raise ValueError
      end
    | _ => Raise AttributeError
    end
  | _ => Raise ValueError
  end.

(** The readings the matrix is built from. *)
Record readiness := mkReadiness {
  apple_music_configured : bool; apple_music_launcher_resolved : option bool;
  league_available : bool; league_launcher_resolved : option bool; league_ready : bool;
  codex_configured : bool; codex_launcher_resolved : option bool;
  whatsapp_app_configured : bool; whatsapp_launcher_resolved : option bool;
  discord_app_configured : bool; discord_launcher_resolved : option bool;
  whatsapp_contacts_configured : bool; discord_contacts_configured : bool;
  whatsapp_automatic_send : bool
}.

Definition launcher_state (configured : bool) (resolved : option bool) : value := VBool (configured && default configured resolved).

Definition capability_matrix (r : readiness) : object := [
  (u "web_search", VDict [(u "available", VBool true); (u "requires_confirmation", VBool true); (u "execution", VStr (u "opens_browser"))]);
  (u "apple_music", VDict [(u "available", VBool true); (u "app_configured", VBool (apple_music_configured r));
     (u "launcher_resolved", launcher_state (apple_music_configured r) (apple_music_launcher_resolved r)); (u "search", VBool true);
     (u "playback", VBool false); (u "media_control", VBool true); (u "requires_manual_selection", VBool true);
     (u "requires_confirmation", VBool true)]);
  (u "whatsapp", VDict [(u "available", VBool true); (u "app_configured", VBool (whatsapp_app_configured r));
     (u "launcher_resolved", launcher_state (whatsapp_app_configured r) (whatsapp_launcher_resolved r)); (u "open_web", VBool true);
     (u "open_contact", VBool true); (u "contact_aliases_configured", VBool (whatsapp_contacts_configured r));
     (u "prepare_message", VBool true); (u "send_message", VBool (whatsapp_automatic_send r));
     (u "requires_manual_send", VBool (negb (whatsapp_automatic_send r))); (u "requires_confirmation", VBool true)]);
  (u "discord", VDict [(u "available", VBool true); (u "app_configured", VBool (discord_app_configured r));
     (u "launcher_resolved", launcher_state (discord_app_configured r) (discord_launcher_resolved r)); (u "open_app", VBool true);
     (u "open_channel", VBool true); (u "contact_aliases_configured", VBool (discord_contacts_configured r));
     (u "start_call", VBool false); (u "requires_manual_call", VBool true); (u "requires_confirmation", VBool true)]);
  (u "league", VDict [(u "available", VBool (league_available r)); (u "client_ready", VBool (league_ready r));
     (u "launcher_resolved", launcher_state (league_available r) (league_launcher_resolved r)); (u "open_client", VBool (league_available r));
     (u "matchmaking", VBool (league_available r)); (u "cancel_matchmaking", VBool (league_ready r));
     (u "accept_match", VBool false); (u "requires_manual_accept", VBool true); (u "queues", VList (VStr <$> sorted_queues));
     (u "requires_confirmation", VBool true)]);
  (u "codex", VDict [(u "available", VBool (codex_configured r)); (u "open_app", VBool (codex_configured r));
     (u "launcher_resolved", launcher_state (codex_configured r) (codex_launcher_resolved r)); (u "writes_to_chat", VBool false);
     (u "requires_confirmation", VBool true)])].

Definition build_integration_capabilities (r : readiness) : result object :=
  _ ← validate_integration_capabilities (VDict (capability_matrix r)); Ok (capability_matrix r).

(** ** Readings and edits *)

Section Catalog.
Context `{T : UnicodeText} `{D : UrlData} `{C : UnicodeCategories} `{W : Machine}.

(** [tools/app_diagnostics.py] *)
Definition launcher_resolved (launcher : pystr) : M desktop bool :=
  resolve_launcher launcher ≫= λ r, mret (match r with Some _ => true | None => false end).

Definition INTEGRATIONS : list literal := ["apple_music"; "league_of_legends"; "codex"; "whatsapp"; "discord"]%string.

(** [_configured_apps]: for each integration, whether an application of that
    identifier is configured and whether its launcher resolves. *)
Definition _configured_apps : M desktop (list (literal * (bool * bool))) :=
  except
    (load_apps false ≫= λ apps,
     let app_ids := (λ app_id, lower_text (strip app_id)) <$> dkeys apps in
     collect (λ integration,
       let configured := bool_decide (u integration ∈ app_ids) in
       match dget (u integration) apps with
       | Some a =>
         (if configured then launcher_resolved (default [] (head (Apps.command a))) else mret false) ≫= λ resolved,
         mret (integration, (configured, resolved))
       | None => mret (integration, (configured, false))
       end) INTEGRATIONS)
    [AppsConfigError]
    (mret ((λ integration, (integration, (false, false))) <$> INTEGRATIONS)).

Definition _league_client_ready : M desktop bool :=
  except (find_client_connection ≫= λ _, mret true) [LeagueClientError] (mret false).

Definition _configured_contact_destinations : M desktop (bool * bool) :=
  except
    (load_contacts ≫= λ contacts,
     let some {A} (o : option A) := match o with Some _ => true | None => false end in
     mret (existsb (λ c, some (whatsapp_phone c)) (dvalues contacts), existsb (λ c, some (discord_channel_id c)) (dvalues contacts)))
    [ContactsConfigError]
    (mret (false, false)).

Definition app_state (k : literal) (t : list (literal * (bool * bool))) : bool * bool :=
  default (false, false) (snd <$> List.find (λ kv, String.eqb kv.1 k) t).
Arguments app_state k%_string_scope t.

Definition get_integration_capabilities : M desktop object :=
  _configured_apps ≫= λ apps,
  (if (app_state "league_of_legends" apps).1 then _league_client_ready else mret false) ≫= λ league_ready,
  _configured_contact_destinations ≫= λ '(whatsapp_contacts, discord_contacts),
  whatsapp_automatic_send_active ≫= λ automatic_send,
  lift (build_integration_capabilities (mkReadiness
    (app_state "apple_music" apps).1 (Some (app_state "apple_music" apps).2)
    (app_state "league_of_legends" apps).1 (Some (app_state "league_of_legends" apps).2) league_ready
    (app_state "codex" apps).1 (Some (app_state "codex" apps).2)
    (app_state "whatsapp" apps).1 (Some (app_state "whatsapp" apps).2)
    (app_state "discord" apps).1 (Some (app_state "discord" apps).2)
    whatsapp_contacts discord_contacts automatic_send)).

Definition AUTOMATIC_DESCRIPTION : pystr :=
  u "Envía el mensaje con WhatsApp Cloud API después de la confirmación explícita.".

(** The description a command has while messages are sent automatically. *)
Definition describe (automatic_whatsapp : bool) (c : object) : object :=
  if automatic_whatsapp && match get (u "id") c with VStr id => one_of id ["whatsapp_compose"; "whatsapp_contact"]%string | _ => false end
  then dset (u "description") (VStr AUTOMATIC_DESCRIPTION) c else c.

Definition source_id (c : object) : pystr := match get (u "id") c with VStr s => s | _ => [] end.
Definition source_phrase (c : object) : pystr := match get (u "phrase") c with VStr s => s | _ => [] end.

Definition no_preference : preference := mkPreference true None.

(** [command["phrase"] = ...], when the preference has one. *)
Definition rephrase (p : preference) (c : object) : object :=
  match phrase p with Some s => dset (u "phrase") (VStr s) c | None => c end.

Definition offered (preferences : preferences) (automatic_whatsapp : bool) (source : object) : option object :=
  let p := default no_preference (dget (source_id source) preferences) in
  if ControlConfig.enabled p then Some (describe automatic_whatsapp (rephrase p source)) else None.

Definition get_command_catalog : M desktop (list object) :=
  get_command_preferences ≫= λ preferences,
  whatsapp_automatic_send_active ≫= λ automatic_whatsapp,
  lift (validate_command_catalog (VList (VDict <$> omap (offered preferences automatic_whatsapp) _COMMANDS))).

(** One command with its editable state. *)
Definition control_entry (preferences : preferences) (automatic_whatsapp : bool) (source : object) : result object :=
  let p := dget (source_id source) preferences in
  validated ← validate_command_catalog
    (VList [VDict (describe automatic_whatsapp (rephrase (default no_preference p) source))]);
  match validated with
  | c :: _ =>
    Ok (c ++ [(u "enabled", VBool (ControlConfig.enabled (default no_preference p)));
              (u "default_phrase", VStr (source_phrase source)); (u "customized", VBool (match p with Some _ => true | None => false end))])
  | [] => Raise IndexError
  end.

Definition get_command_control_catalog : M desktop (list object) :=
  get_command_preferences ≫= λ preferences,
  whatsapp_automatic_send_active ≫= λ automatic_whatsapp,
  lift (traverse (control_entry preferences automatic_whatsapp) _COMMANDS).

(** [next(c for c in commands if c["id"] == command_id)] *)
Definition command_of (command_id : pystr) (commands : list object) : option object :=
  List.find (λ c, bool_decide (source_id c = command_id)) commands.

Definition control_of (command_id : pystr) : M desktop object :=
  get_command_control_catalog ≫= λ commands,
  match command_of command_id commands with Some c => mret c | None => raise RuntimeError end.

Definition update_command_control (command_id : pystr) (enabled : bool) (phrase : pystr) : M desktop object :=
  match command_of command_id _COMMANDS with
  | None => raise ValueError
  | Some source =>
    lift (validate_command_catalog (VList [VDict (dset (u "phrase") (VStr phrase) source)])) ≫= λ validated,
    match validated with
    | c :: _ =>
      let stored_phrase := if bool_decide (source_phrase c = source_phrase source) then None else Some (source_phrase c) in
      set_command_preference command_id enabled stored_phrase ≫= λ _, control_of command_id
    | [] => raise IndexError
    end
  end.

Definition reset_command_control (command_id : pystr) : M desktop object :=
  match command_of command_id _COMMANDS with
  | None => raise ValueError
  | Some _ => reset_command_preference command_id ≫= λ _, control_of command_id
  end.
End Catalog.

(** ** The validated catalog *)

Lemma safe_text_spec v n s : _safe_catalog_text v n = Ok s ↔ v = VStr s ∧ bounded_text n false s.
Proof.
  unfold _safe_catalog_text. split.
  - by intros H%reraise_ok%validate_bounded_text_spec.
  - intros H%validate_bounded_text_spec. by rewrite H.
Qed.

(** The parts of a validated command that its phrase and description leave alone. *)
Record contract := mkContract {
  c_tool : pystr; c_safety : pystr; c_confirmed : bool; c_parameters : list object; c_defaults : option object
}.
Definition published (k : contract) (id phrase description : pystr) : object :=
  [(u "id", VStr id); (u "tool_name", VStr (c_tool k)); (u "phrase", VStr phrase); (u "description", VStr description);
   (u "safety", VStr (c_safety k)); (u "requires_confirmation", VBool (c_confirmed k));
   (u "parameters", VList (VDict <$> c_parameters k))] ++ opt_entry "default_arguments" VDict (c_defaults k).

(** What an entry states besides its identifier, phrase and description. *)
Definition states (d : object) (k : contract) : Prop :=
  (∃ t, get (u "tool_name") d = VStr t ∧ bounded_text _MAX_COMMAND_TEXT_BYTES false t ∧ c_tool k = strip t) ∧
  get (u "safety") d = VStr (c_safety k) ∧ get (u "requires_confirmation") d = VBool (c_confirmed k) ∧
  c_confirmed k = (c_safety k =s "unsafe") ∧ one_of (c_safety k) ["safe"; "unsafe"]%string = true ∧
  _validate_parameters (get_or (u "parameters") (VList []) d) = Ok (c_parameters k) ∧
  match dget (u "default_arguments") d with
  | Some a => ∃ a', _validate_default_arguments a = Ok a' ∧ c_defaults k = Some a' ∧ c_parameters k = []
  | None => c_defaults k = None
  end.

(** The phrase asks for as many distinct values as the command has parameters. *)
Definition phrase_fits (k : contract) (phrase : pystr) : Prop :=
  ∃ ps, _phrase_placeholders phrase = Ok ps ∧ len ps = len (c_parameters k).

Definition text_field (d : object) (k : pystr) (s : pystr) : Prop :=
  ∃ t, get k d = VStr t ∧ bounded_text _MAX_COMMAND_TEXT_BYTES false t ∧ s = strip t.

Lemma validate_command_inv seen v id c :
  validate_command seen v = Ok (id, c) →
  ∃ d k ph de, v = VDict d ∧ id ∉ seen ∧ states d k ∧ phrase_fits k ph ∧ c = published k id ph de ∧
    text_field d (u "id") id ∧ text_field d (u "phrase") ph ∧ text_field d (u "description") de.
Proof.
  unfold validate_command. destruct v as [| | | | | |d]; try done. destruct (negb _) eqn:Ek; [done|].
  destruct (_safe_catalog_text (get (u "id") d) _) as [i|] eqn:Ei; [|done]. cbn [mbind result_bind]. cbv zeta.
  case_bool_decide as Hs; [done|].
  destruct (_safe_catalog_text (get (u "tool_name") d) _) as [t|] eqn:Et; [|done]. cbn [mbind result_bind].
  destruct (_safe_catalog_text (get (u "phrase") d) _) as [ph|] eqn:Ep; [|done]. cbn [mbind result_bind].
  destruct (_safe_catalog_text (get (u "description") d) _) as [de|] eqn:Ed; [|done]. cbn [mbind result_bind].
  destruct (known_safety _) as [kn|] eqn:Ekn; [|done]. cbn [mbind result_bind].
  destruct (get (u "safety") d) as [| | | |s| |] eqn:Esf; try done.
  destruct (get (u "requires_confirmation") d) as [|rc| | | | |] eqn:Erc; try done.
  destruct (negb kn || _) eqn:Eb; [done|]. apply orb_false_iff in Eb as [Hkn%negb_false_iff Hrc%negb_false_iff].
  destruct (_validate_parameters _) as [ps|] eqn:Eps; [|done]. cbn [mbind result_bind].
  destruct (_phrase_placeholders _) as [hs|] eqn:Eh; [|done]. cbn [mbind result_bind].
  destruct (negb (len hs =? len ps)) eqn:El; [done|]. apply negb_false_iff, Z.eqb_eq in El.
  apply safe_text_spec in Ei as [? ?], Et as [? ?], Ep as [? ?], Ed as [? ?].
  injection Ekn as <-. apply eqb_prop in Hrc.
  intros Hc.
  assert (∃ ds, c = published (mkContract (strip t) s rc ps ds) (strip i) (strip ph) (strip de) ∧ id = strip i ∧
    match dget (u "default_arguments") d with
    | Some a => ∃ a', _validate_default_arguments a = Ok a' ∧ ds = Some a' ∧ ps = []
    | None => ds = None
    end) as (ds & -> & -> & Hds).
  { destruct (dget (u "default_arguments") d) as [a|].
    - destruct (_validate_default_arguments a) as [a'|]; [|done]. cbn [mbind result_bind] in Hc.
      destruct (nonempty ps || nonempty hs) eqn:En; [done|]. apply orb_false_iff in En as [Hps _].
      exists (Some a'). injection Hc as <- <-. split_and!; try done. exists a'. split_and!; try done. by destruct ps.
    - exists None. by injection Hc as <- <-. }
  exists d, (mkContract (strip t) s rc ps ds), (strip ph), (strip de).
  split_and!; try done; [..|by exists i|by exists ph|by exists de].
  - split_and!; try done. by exists t.
  - by exists hs.
Qed.

Lemma states_unique d k k' : states d k → states d k' → k = k'.
Proof.
  destruct k as [t s b p a], k' as [t' s' b' p' a']. unfold states. cbn [c_tool c_safety c_confirmed c_parameters c_defaults].
  intros ((x & ? & _ & ->) & ? & ? & ? & _ & ? & Hd) ((x' & ? & _ & ->) & ? & ? & ? & _ & ? & Hd').
  destruct (dget (u "default_arguments") d);
    [destruct Hd as (? & ? & ? & _), Hd' as (? & ? & ? & _)|]; congruence.
Qed.

Lemma validate_commands_inv seen l cs :
  validate_commands seen l = Ok cs →
  ∃ ids, NoDup ids ∧ (∀ i, i ∈ ids → i ∉ seen) ∧
    Forall2 (λ v ic, ∃ seen', validate_command seen' v = Ok ic) l (zip ids cs) ∧ length ids = length cs.
Proof.
  revert seen cs. induction l as [|v l IH]; intros seen cs; cbn [validate_commands].
  { intros [= <-]. exists []. split_and!; [constructor|by intros ? ?%not_elem_of_nil|constructor|done]. }
  destruct (validate_command seen v) as [[i c]|] eqn:E; [|done]. cbn [mbind result_bind].
  destruct (validate_commands _ l) as [rest|] eqn:Er; [|done]. intros [= <-].
  apply IH in Er as (ids & Hnd & Hfr & Hall & Hl). exists (i :: ids).
  assert (i ∉ seen) as Hi by (apply validate_command_inv in E as (? & ? & ? & ? & ? & ? & _); done).
  split_and!.
  - apply NoDup_cons. split; [|done]. intros Hin. apply (Hfr i Hin), elem_of_app. right. by apply list_elem_of_singleton.
  - intros j [->|Hj]%elem_of_cons; [done|]. intros Hs. apply (Hfr j Hj), elem_of_app. by left.
  - constructor; [by exists seen|done].
  - cbn [length]. by rewrite Hl.
Qed.

Lemma validate_command_intro seen d k id ph de :
  keys_within _COMMAND_FIELDS d = true → id ∉ seen → states d k → phrase_fits k ph →
  text_field d (u "id") id → text_field d (u "phrase") ph → text_field d (u "description") de →
  validate_command seen (VDict d) = Ok (id, published k id ph de).
Proof.
  intros Hk Hid ((t & Ht & Hbt & Htk) & Hs & Hc & Hcs & Hsafe & Hps & Hds) (hs & Hhs & Hlen) (i & Hi & Hbi & ->)
    (p & Hp & Hbp & ->) (e & He & Hbe & ->).
  unfold validate_command. rewrite Hk. cbn [negb].
  rewrite Hi, (proj2 (safe_text_spec (VStr i) _ i)) by done. cbn [mbind result_bind]. cbv zeta.
  rewrite bool_decide_false by done.
  rewrite Ht, (proj2 (safe_text_spec (VStr t) _ t)), Hp, (proj2 (safe_text_spec (VStr p) _ p)), He,
    (proj2 (safe_text_spec (VStr e) _ e)) by done.
  cbn [mbind result_bind]. rewrite Hs, Hc. cbn [known_safety mbind result_bind]. rewrite Hsafe, Hcs, eqb_reflx. cbn [negb orb].
  rewrite Hps, Hhs. cbn [mbind result_bind]. rewrite Hlen, Z.eqb_refl. cbn [negb].
  unfold published. rewrite <- Htk, <- Hcs.
  destruct (dget (u "default_arguments") d) as [a|].
  - destruct Hds as (a' & -> & Ha' & Hnil). cbn [mbind result_bind].
    rewrite Hnil in *. rewrite Ha'. destruct hs; [done|]. rewrite len_cons, len_nil in Hlen. pose proof (len_nonneg hs). lia.
  - rewrite Hds. done.
Qed.

(** Replacing the phrase or the description. *)
Lemma get_dset_ne k k' v d : k ≠ k' → get k (dset k' v d) = get k d.
Proof. intros H. unfold get. by rewrite dget_dset_ne. Qed.
Lemma get_or_dset_ne k k' v w d : k ≠ k' → get_or k w (dset k' v d) = get_or k w d.
Proof. intros H. unfold get_or. by rewrite dget_dset_ne. Qed.
Lemma get_dset_eq k v d : get k (dset k v d) = v.
Proof. unfold get. by rewrite dget_dset_eq. Qed.
Lemma text_field_other d k k' v s : k ≠ k' → text_field d k s → text_field (dset k' v d) k s.
Proof. intros Hne (t & Ht & Hb & ->). exists t. by rewrite get_dset_ne. Qed.
Lemma text_field_dset d k s :
  bounded_text _MAX_COMMAND_TEXT_BYTES false s → text_field (dset k (VStr s) d) k (strip s).
Proof. intros Hb. exists s. by rewrite get_dset_eq. Qed.

Lemma states_dset d k key v :
  key ∈ [u "phrase"; u "description"] → states d k → states (dset key v d) k.
Proof.
  intros Hkey (H1 & H2 & H3 & H4 & H5 & H6 & H7).
  assert (Forall (λ k', k' ≠ key) (u <$> ["tool_name"; "safety"; "requires_confirmation"; "parameters"; "default_arguments"]%string)) as Hne.
  { apply elem_of_cons in Hkey as [->|Hkey]; [|apply list_elem_of_singleton in Hkey as ->]; by apply (bool_decide_unpack _). }
  unfold states. cbn [fmap list_fmap] in Hne. rewrite !Forall_cons in Hne. destruct Hne as (? & ? & ? & ? & ? & _).
  by rewrite !get_dset_ne, get_or_dset_ne, dget_dset_ne by done.
Qed.

Lemma keys_within_dset fields key v d : key ∈ fields → keys_within fields d = true → keys_within fields (dset key v d) = true.
Proof.
  rewrite !keys_within_spec. intros Hkey H x. rewrite dkeys_dset. case_match; [apply H|].
  intros [Hx|Hx%list_elem_of_singleton]%elem_of_app; [by apply H|by subst x].
Qed.

(** ** The shipped commands *)

(** A command of the program: valid as it stands. *)
Record shipped (s : object) (k : contract) : Prop := {
  sh_fields : keys_within _COMMAND_FIELDS s = true;
  sh_states : states s k;
  sh_id : text_field s (u "id") (source_id s);
  sh_phrase : text_field s (u "phrase") (source_phrase s);
  sh_fits : phrase_fits k (source_phrase s);
  sh_description : text_field s (u "description") (match get (u "description") s with VStr t => t | _ => [] end)
}.

Definition shipped_check (commands : list object) : bool :=
  is_ok (validate_commands [] (VDict <$> commands))
  && forallb (λ s, keys_within _COMMAND_FIELDS s
       && forallb (λ k, match get k s with VStr t => bool_decide (strip t = t) | _ => false end) (u <$> ["id"; "phrase"; "description"]%string))
     commands
  && bool_decide (NoDup (source_id <$> commands)).

Lemma checked_shipped commands : shipped_check commands = true → Forall (λ s, ∃ k, shipped s k) commands.
Proof.
  unfold shipped_check. intros [[Hv Ht]%andb_true_iff _]%andb_true_iff.
  destruct (validate_commands [] _) as [cs|] eqn:Ev; [|done]. clear Hv.
  apply validate_commands_inv in Ev as (ids & _ & _ & Hall & _).
  rewrite forallb_forall in Ht. apply Forall_forall. intros s Hs.
  specialize (Ht s (proj1 (list_elem_of_In _ _) Hs)). rewrite andb_true_iff in Ht. destruct Ht as [Hk Htx].
  cbn [fmap list_fmap forallb] in Htx. rewrite !andb_true_iff in Htx. destruct Htx as (Hi & Hp & Hd & _).
  assert (VDict s ∈ (VDict <$> commands)) as [n Hn]%list_elem_of_lookup by (by apply list_elem_of_fmap_2).
  destruct (Forall2_lookup_l _ _ _ _ _ Hall Hn) as ([i c] & _ & seen & Hc).
  apply validate_command_inv in Hc as (d & k & ph & de & [= <-] & _ & Hst & Hf & _ & Hti & Htp & Htd).
  destruct Hti as (i' & Hi' & Hbi & ->), Htp as (p' & Hp' & Hbp & ->), Htd as (d' & Hd' & Hbd & ->).
  rewrite Hi' in Hi. rewrite Hp' in Hp. rewrite Hd' in Hd. apply bool_decide_eq_true in Hi, Hp, Hd.
  assert (source_id s = i' ∧ source_phrase s = p') as [Hsi Hsp].
  { unfold source_id, source_phrase. by rewrite Hi', Hp'. }
  exists k. split; rewrite ?Hsi, ?Hsp, ?Hd'; try done.
  - by exists i'.
  - by exists p'.
  - by rewrite Hp in Hf.
  - by exists d'.
Qed.

Lemma shipped_checked : shipped_check _COMMANDS = true.
Proof. by vm_compute. Qed.
Lemma shipped_commands : Forall (λ s, ∃ k, shipped s k) _COMMANDS.
Proof. exact (checked_shipped _COMMANDS shipped_checked). Qed.
Lemma shipped_ids : NoDup (source_id <$> _COMMANDS).
Proof. pose proof shipped_checked as H. unfold shipped_check in H. by apply andb_true_iff, proj2, bool_decide_eq_true in H. Qed.

(** The phrase of a command as a preference has it. *)
Definition said (p : preference) (s : object) : pystr := default (source_phrase s) (strip <$> phrase p).
(** A preference whose phrase can be published for the command. *)
Definition fits (p : preference) (k : contract) : Prop :=
  ∀ ph, phrase p = Some ph → bounded_text _MAX_COMMAND_TEXT_BYTES false ph ∧ phrase_fits k (strip ph).

Lemma id_other : u "id" ≠ u "phrase" ∧ u "id" ≠ u "description" ∧ u "phrase" ≠ u "description".
Proof. by apply (bool_decide_unpack _). Qed.
Lemma command_keys : u "phrase" ∈ _COMMAND_FIELDS ∧ u "description" ∈ _COMMAND_FIELDS.
Proof. by apply (bool_decide_unpack _). Qed.
Lemma automatic_bounded : bounded_text _MAX_COMMAND_TEXT_BYTES false AUTOMATIC_DESCRIPTION.
Proof. apply (validate_bounded_text_spec (VStr AUTOMATIC_DESCRIPTION)). by vm_compute. Qed.

(** The entry a preference and the delivery mode make of a command. *)
Abbreviation entry a p s := (describe a (rephrase p s)).

Lemma entry_states a p s k : shipped s k → keys_within _COMMAND_FIELDS (entry a p s) = true ∧ states (entry a p s) k ∧
  text_field (entry a p s) (u "id") (source_id s) ∧ source_id (entry a p s) = source_id s.
Proof.
  intros [Hf Hs Hi _ _ _]. destruct id_other as (H1 & H2 & _), command_keys as [K1 K2].
  assert (∀ key v d, key ∈ [u "phrase"; u "description"] →
    keys_within _COMMAND_FIELDS d = true ∧ states d k ∧ text_field d (u "id") (source_id s) ∧ source_id d = source_id s →
    let d' := dset key v d in
    keys_within _COMMAND_FIELDS d' = true ∧ states d' k ∧ text_field d' (u "id") (source_id s) ∧ source_id d' = source_id s) as Hstep.
  { intros key v d Hkey (? & ? & ? & Hid). assert (key ∈ _COMMAND_FIELDS ∧ u "id" ≠ key) as [? ?].
    { apply elem_of_cons in Hkey as [->|Hkey]; [done|]. by apply list_elem_of_singleton in Hkey as ->. }
    cbv zeta. split_and!; [by apply keys_within_dset|by apply states_dset|by apply text_field_other|].
    unfold source_id in *. by rewrite get_dset_ne. }
  assert (keys_within _COMMAND_FIELDS (rephrase p s) = true ∧ states (rephrase p s) k ∧
    text_field (rephrase p s) (u "id") (source_id s) ∧ source_id (rephrase p s) = source_id s) as Hr.
  { unfold rephrase. destruct (phrase p) as [ph|]; [|done]. apply Hstep; [by left|done]. }
  unfold describe. destruct (_ && _); [|done]. apply Hstep; [by right; left|done].
Qed.

Lemma entry_texts a p s k : shipped s k → fits p k →
  text_field (entry a p s) (u "phrase") (said p s) ∧ phrase_fits k (said p s) ∧
  ∃ de, text_field (entry a p s) (u "description") de.
Proof.
  intros [_ _ _ Hp Hf Hd] Hfits. destruct id_other as (_ & _ & H3).
  assert (text_field (rephrase p s) (u "phrase") (said p s) ∧ phrase_fits k (said p s)) as [Hrp Hrf].
  { unfold rephrase, said. destruct (phrase p) as [ph|] eqn:E; [|done]. destruct (Hfits ph E) as [Hb Hph].
    split; [by apply text_field_dset|done]. }
  assert (∃ de, text_field (rephrase p s) (u "description") de) as [de Hde].
  { eexists. unfold rephrase. destruct (phrase p); [apply text_field_other; [done|exact Hd]|exact Hd]. }
  split_and!; [|done|].
  - unfold describe. destruct (_ && _); [by apply text_field_other|done].
  - unfold describe. destruct (_ && _); [|by exists de]. eexists. apply text_field_dset, automatic_bounded.
Qed.

(** An entry is valid exactly when its phrase fits. *)
Lemma entry_valid a p s k seen : shipped s k → source_id s ∉ seen → fits p k →
  ∃ de, validate_command seen (VDict (entry a p s)) = Ok (source_id s, published k (source_id s) (said p s) de).
Proof.
  intros Hs Hi Hf. destruct (entry_states a p s k Hs) as (? & ? & ? & _), (entry_texts a p s k Hs Hf) as (? & ? & de & ?).
  exists de. by apply validate_command_intro.
Qed.

(** The description of a published command: its own, or that of an automatic
    delivery. *)
Definition described (s : object) (de : pystr) : Prop :=
  text_field s (u "description") de ∨ de = strip AUTOMATIC_DESCRIPTION.

Lemma text_field_unique d k s s' : text_field d k s → text_field d k s' → s = s'.
Proof. intros (t & Ht & _ & ->) (t' & Ht' & _ & ->). congruence. Qed.

Lemma entry_inv a p s k seen r : shipped s k → validate_command seen (VDict (entry a p s)) = Ok r →
  fits p k ∧ source_id s ∉ seen ∧
  ∃ de, described s de ∧ r = (source_id s, published k (source_id s) (said p s) de).
Proof.
  intros Hs H. destruct r as [id c]. apply validate_command_inv in H as (d & k' & ph & de & [= <-] & Hn & Hst & Hph & -> & Hi & Htp & Hd).
  destruct (entry_states a p s k Hs) as (_ & Hst' & Hi' & _). pose proof (states_unique _ _ _ Hst Hst') as ->.
  pose proof (text_field_unique _ _ _ _ Hi Hi') as ->.
  assert (text_field (rephrase p s) (u "phrase") ph) as Hr.
  { destruct id_other as (_ & _ & H3). unfold describe in Htp. destruct (_ && _); [|done].
    destruct Htp as (t & Ht & ?). exists t. by rewrite get_dset_ne in Ht. }
  assert (fits p k ∧ ph = said p s) as [Hf ->].
  { unfold fits, said, rephrase in *. destruct (phrase p) as [q|].
    - destruct Hr as (t & Ht & Hb & ->). rewrite get_dset_eq in Ht. injection Ht as <-. split; [|done].
      intros q' [= <-]. done.
    - split; [done|]. eapply text_field_unique; [exact Hr|apply Hs]. }
  split_and!; [done|done|]. exists de. split; [|done].
  destruct id_other as (_ & _ & H3). unfold describe, described in *. destruct (_ && _).
  - right. destruct Hd as (t & Ht & _ & ->). rewrite get_dset_eq in Ht. by injection Ht as <-.
  - left. destruct Hd as (t & Ht & Hb & ->). exists t. split; [|done]. unfold rephrase in Ht.
    destruct (phrase p); [by rewrite get_dset_ne in Ht|done].
Qed.

(** ** The properties *)

Abbreviation preference_of prefs s := (default no_preference (dget (source_id s) prefs)).
Definition enabled_commands (prefs : preferences) : list object :=
  filter (λ s, ControlConfig.enabled (preference_of prefs s) = true) _COMMANDS.

Lemma offered_enabled prefs a (l : list object) :
  omap (offered prefs a) l =
    (λ s, entry a (preference_of prefs s) s) <$> filter (λ s, ControlConfig.enabled (preference_of prefs s) = true) l.
Proof.
  induction l as [|s l IH]; [done|]. rewrite filter_cons. cbn [omap list_omap]. unfold offered at 1.
  destruct (ControlConfig.enabled (preference_of prefs s)); cbn [decide]; [|by rewrite decide_False].
  rewrite decide_True by done. csimpl. by rewrite <- IH.
Qed.

(** A command as it is published. *)
Definition published_as (prefs : preferences) (s c : object) : Prop :=
  ∃ k de, shipped s k ∧ fits (preference_of prefs s) k ∧ described s de ∧ c = published k (source_id s) (said (preference_of prefs s) s) de.

Lemma validate_entries_inv prefs a sources seen cs :
  Forall (λ s, ∃ k, shipped s k) sources →
  validate_commands seen (VDict <$> ((λ s, entry a (preference_of prefs s) s) <$> sources)) = Ok cs →
  Forall2 (published_as prefs) sources cs.
Proof.
  revert seen cs. induction sources as [|s sources IH]; intros seen cs Hs; cbn [fmap list_fmap validate_commands].
  { by intros [= <-]. }
  apply Forall_cons in Hs as [[k Hk] Hs].
  destruct (validate_command seen _) as [[id c]|] eqn:E; [|done]. cbn [mbind result_bind].
  destruct (validate_commands _ _) as [rest|] eqn:Er; [|done]. intros [= <-].
  apply (entry_inv _ _ _ k) in E as (Hf & _ & de & Hde & [= -> ->]); [|done]. constructor; [|by eapply IH].
  by exists k, de.
Qed.

Lemma validate_entries_total prefs a sources seen :
  Forall (λ s, ∃ k, shipped s k ∧ fits (preference_of prefs s) k) sources → NoDup (seen ++ (source_id <$> sources)) →
  ∃ cs, validate_commands seen (VDict <$> ((λ s, entry a (preference_of prefs s) s) <$> sources)) = Ok cs.
Proof.
  revert seen. induction sources as [|s sources IH]; intros seen Hs Hnd; cbn [fmap list_fmap validate_commands].
  { by exists []. }
  apply Forall_cons in Hs as [(k & Hk & Hf) Hs]. csimpl in Hnd.
  assert (source_id s ∉ seen) as Hid.
  { intros Hin. apply NoDup_app in Hnd as (_ & Hd & _). apply (Hd _ Hin). by left. }
  destruct (entry_valid a (preference_of prefs s) s k seen Hk Hid Hf) as [de ->].
  cbn [mbind result_bind]. destruct (IH (seen ++ [source_id s])) as [cs ->]; [done|by rewrite <- app_assoc|].
  by exists (published k (source_id s) (said (preference_of prefs s) s) de :: cs).
Qed.

Lemma enabled_shipped prefs : Forall (λ s, ∃ k, shipped s k) (enabled_commands prefs).
Proof.
  apply Forall_forall. intros s [_ Hs]%list_elem_of_filter. pose proof shipped_commands as H. rewrite Forall_forall in H. by apply H.
Qed.

Lemma commands_bounded prefs : len (enabled_commands prefs) <= _MAX_COMMANDS.
Proof.
  pose proof (length_filter (λ s, ControlConfig.enabled (preference_of prefs s) = true) _COMMANDS) as H.
  unfold enabled_commands, len. change (length _COMMANDS) with 40%nat in H. unfold _MAX_COMMANDS. lia.
Qed.

(** The preferences whose phrases can all be published. *)
Definition publishable (prefs : preferences) : Prop :=
  ∀ s k, s ∈ enabled_commands prefs → shipped s k → fits (preference_of prefs s) k.

Lemma validate_published prefs a :
  validate_command_catalog (VList (VDict <$> omap (offered prefs a) _COMMANDS)) =
    validate_commands [] (VDict <$> ((λ s, entry a (preference_of prefs s) s) <$> enabled_commands prefs)).
Proof.
  rewrite offered_enabled. fold (enabled_commands prefs). unfold validate_command_catalog.
  rewrite !len_fmap, (proj2 (Z.ltb_ge _ _)); [done|apply commands_bounded].
Qed.

Lemma publishable_iff prefs a :
  publishable prefs ↔ is_ok (validate_command_catalog (VList (VDict <$> omap (offered prefs a) _COMMANDS))) = true.
Proof.
  rewrite validate_published. split.
  - intros Hp. destruct (validate_entries_total prefs a (enabled_commands prefs) []) as [cs ->]; [| |done].
    + pose proof (enabled_shipped prefs) as Hs. apply Forall_forall. intros s Hin. rewrite Forall_forall in Hs.
      destruct (Hs s Hin) as [k Hk]. exists k. split; [done|]. by apply Hp.
    + cbn [app]. eapply sublist_NoDup; [apply shipped_ids|]. apply fmap_sublist, sublist_filter.
  - destruct (validate_commands _ _) as [cs|] eqn:E; [|done]. intros _ s k Hin Hk.
    apply validate_entries_inv in E; [|apply enabled_shipped]. apply list_elem_of_lookup in Hin as [n Hn].
    destruct (Forall2_lookup_l _ _ _ _ _ E Hn) as (c & _ & k' & de & Hk' & Hf & _).
    by rewrite (states_unique s k k' (sh_states _ _ Hk) (sh_states _ _ Hk')).
Qed.

Lemma text_bounded_strip s : bounded_text 256 false s → bounded_text _MAX_COMMAND_TEXT_BYTES false (strip s) ∧ strip (strip s) = strip s.
Proof. intros H. split; [by apply bounded_strip|apply strip_idemp]. Qed.

(** Changing the preference of one command to one that fits it. *)
Lemma publishable_dset prefs id p :
  publishable prefs → (∀ s k, s ∈ _COMMANDS → source_id s = id → shipped s k → fits p k) → publishable (dset id p prefs).
Proof.
  intros Hp Hid s k [He Hs]%list_elem_of_filter Hk. destruct (decide (source_id s = id)) as [<-|Hne].
  - rewrite dget_dset_eq. by apply (Hid s).
  - rewrite dget_dset_ne in * by done. apply Hp; [|done]. by apply list_elem_of_filter.
Qed.

Lemma command_of_spec id l s : command_of id l = Some s → s ∈ l ∧ source_id s = id.
Proof.
  unfold command_of. intros H. apply find_some in H as [Hin Hb]. split; [by apply list_elem_of_In|].
  by apply bool_decide_eq_true in Hb.
Qed.

Lemma same_id s s' : s ∈ _COMMANDS → s' ∈ _COMMANDS → source_id s = source_id s' → s = s'.
Proof.
  intros [i Hi]%list_elem_of_lookup [j Hj]%list_elem_of_lookup Heq. pose proof shipped_ids as Hnd. rewrite NoDup_alt in Hnd.
  assert (i = j) as ->; [|congruence]. apply (Hnd i j (source_id s)).
  - rewrite list_lookup_fmap, Hi. done.
  - rewrite list_lookup_fmap, Hj. cbn. by rewrite Heq.
Qed.

(** A phrase the panel has accepted for a command. *)
Lemma candidate_fits s ph k v : s ∈ _COMMANDS → shipped s k →
  validate_command_catalog (VList [VDict (dset (u "phrase") (VStr ph) s)]) = Ok v →
  ∃ de, v = [published k (source_id s) (strip ph) de] ∧ bounded_text _MAX_COMMAND_TEXT_BYTES false ph ∧ phrase_fits k (strip ph).
Proof.
  intros Hin Hk H.
  destruct (validate_command [] (VDict (entry false (mkPreference true (Some ph)) s))) as [r|] eqn:E.
  2:{ change (entry false (mkPreference true (Some ph)) s) with (dset (u "phrase") (VStr ph) s) in E.
      cbn [validate_command_catalog] in H. destruct (_ <? _) in H; [done|]. cbn [validate_commands] in H. by rewrite E in H. }
  apply (entry_inv _ _ _ k) in E as E'; [|done]. destruct E' as (Hf & _ & de & _ & ->).
  change (entry false (mkPreference true (Some ph)) s) with (dset (u "phrase") (VStr ph) s) in E.
  change (validate_commands [] [VDict (dset (u "phrase") (VStr ph) s)] = Ok v) in H. cbn [validate_commands] in H.
  rewrite E in H. cbn [mbind result_bind] in H. injection H as <-. exists de. split; [done|]. by apply Hf.
Qed.

(** *** The capability matrix *)

Lemma capability_matrix_valid r : validate_integration_capabilities (VDict (capability_matrix r)) = Ok tt.
Proof. destruct r as [? ? ? ? ? ? ? ? ? ? ? ? ? a]. by destruct a. Qed.

Section Published.
Context `{W : Machine}.

(** C38: whatever the panel's file holds, a catalog that is published lists the
    enabled commands of the program, in order, each with its own tool, safety,
    confirmation, parameters and fixed arguments: a preference can hide a
    command and reword its phrase, nothing else, and the phrase still asks for
    every parameter. *)
Theorem published_catalog_faithful w w' cs :
  get_command_catalog w = (w', Ok cs) →
  ∃ prefs, (get_command_preferences w).2 = Ok prefs ∧ Forall2 (published_as prefs) (enabled_commands prefs) cs.
Proof using Type.
  unfold get_command_catalog, mbind at 1, M_bind at 1. destruct (get_command_preferences w) as [w1 [prefs|e]]; [|done].
  unfold mbind at 1, M_bind at 1. destruct (whatsapp_automatic_send_active w1) as [w2 [a|e]]; [|done].
  unfold lift. rewrite validate_published. intros [= _ H]. exists prefs. split; [done|].
  eapply validate_entries_inv; [apply enabled_shipped|exact H].
Qed.

Lemma control_config_does P : (∀ A (o : op A), match o with FileExists _ | ReadFile _ _ => P (Event o) | _ => True end) →
  does P load_control_config.
Proof using Type.
  intros HP. unfold load_control_config. repeat does_step; [apply (HP _ (FileExists ControlLocal))|apply (HP _ (ReadFile ControlLocal _))].
Qed.

Lemma automatic_does : does read_event whatsapp_automatic_send_active.
Proof using Type.
  unfold whatsapp_automatic_send_active, get_whatsapp_settings, get_whatsapp_access_token, _environment_access_token,
    _credential_manager_access_token.
  repeat (does_step || (apply control_config_does; by intros ? [])); done.
Qed.

Lemma control_of_does id : does read_event (control_of id).
Proof using Type.
  unfold control_of, get_command_control_catalog, get_command_preferences.
  repeat (does_step || apply automatic_does || (apply control_config_does; by intros ? [])).
Qed.

Lemma control_of_stored id w w' r : control_of id w = (w', r) → stored ControlLocal (events w') = stored ControlLocal (events w).
Proof using Type.
  intros H. destruct (does_run _ _ w (control_of_does id)) as (new & Hn & Hf). rewrite H in Hn. cbn [fst] in Hn.
  rewrite Hn. by apply reads_stored.
Qed.

(** C39: an edit the panel accepts changes the preference of that command only,
    survives in the file, and never makes the catalog impossible to publish. *)
Theorem command_edit_publishable `{!FileLaws W} command_id enabled phrase w w' c :
  update_command_control command_id enabled phrase w = (w', Ok c) →
  ∃ before p, (load_control_config w).2 = Ok before ∧ ControlConfig.enabled p = enabled ∧
    holds w' (mkControl (dset command_id p (commands before)) (whatsapp before)) ∧
    (∀ s, command_of command_id _COMMANDS = Some s → said p s = strip phrase) ∧
    (publishable (commands before) → publishable (dset command_id p (commands before))).
Proof using Type.
  unfold update_command_control. destruct (command_of command_id _COMMANDS) as [s|] eqn:Es; [|done].
  apply command_of_spec in Es as Hs. destruct Hs as [Hin Hid].
  pose proof shipped_commands as Hsh. rewrite Forall_forall in Hsh. destruct (Hsh s Hin) as [k Hk].
  unfold mbind at 1, M_bind at 1, lift. destruct (validate_command_catalog _) as [v|] eqn:Ev; [|done].
  apply (candidate_fits s phrase k) in Ev as (de & -> & Hb & Hf); [|done..]. cbv zeta.
  change (source_phrase (published k (source_id s) (strip phrase) de)) with (strip phrase).
  set (sp := if bool_decide _ then None else Some (strip phrase)).
  unfold mbind at 1, M_bind at 1. destruct (set_command_preference command_id enabled sp w) as [w1 [u1|]] eqn:Ep; [|done].
  apply preference_set_exact in Ep as (before & Hbefore & Hh). intros Hc. apply control_of_stored in Hc.
  exists before, (mkPreference enabled (strip <$> sp)). split_and!; [done|done| | |].
  - intros w2 Hw2. apply Hh. by rewrite Hw2, Hc.
  - intros s' [= <-]. unfold said. cbn [ControlConfig.phrase]. unfold sp. case_bool_decide as Hsp; cbn; [by rewrite Hsp|].
    by rewrite !strip_idemp.
  - intros Hp. apply publishable_dset; [done|]. intros s' k' Hin' Hid' Hk'.
    assert (s' = s) as -> by (apply same_id; congruence).
    rewrite (states_unique s k' k (sh_states _ _ Hk') (sh_states _ _ Hk)).
    unfold fits, sp. cbn [ControlConfig.phrase]. case_bool_decide; cbn; [done|]. intros ph [= <-].
    rewrite !strip_idemp. split; [by apply bounded_strip|done].
Qed.
End Published.

(** ** Samples *)

Definition catalog_size {A} (r : result (list A)) : Z := match r with Ok l => len l | Raise _ => 0 end.

Lemma published_catalog_faithful_witness :
  let W := control_machine in
  ∃ cs, len cs = 40 ∧ ∃ prefs, (get_command_preferences start).2 = Ok prefs ∧ Forall2 (published_as prefs) (enabled_commands prefs) cs.
Proof.
  intros W. assert (catalog_size (get_command_catalog (W := W) start).2 = 40) as Hl by by vm_compute.
  destruct (get_command_catalog start) as [w' r] eqn:E. cbn [snd] in Hl.
  destruct r as [cs|]; [|discriminate]. exists cs. split; [exact Hl|].
  exact (published_catalog_faithful (W := W) start w' cs E).
Defined.

Lemma command_edit_publishable_witness :
  let W := control_machine in
  ∃ c before p, (load_control_config start).2 = Ok before ∧ ControlConfig.enabled p = true ∧
    holds (update_command_control (u "open_codex") true (u " lanza Codex ") start).1
      (mkControl (dset (u "open_codex") p (commands before)) (whatsapp before)) ∧
    (∀ s, command_of (u "open_codex") _COMMANDS = Some s → said p s = strip (u " lanza Codex ")) ∧
    (publishable (commands before) → publishable (dset (u "open_codex") p (commands before))) ∧
    get (u "phrase") c = VStr (u "lanza Codex") ∧ get (u "customized") c = VBool true.
Proof.
  intros W.
  assert (match (update_command_control (W := W) (u "open_codex") true (u " lanza Codex ") start).2 with
          | Ok c => get (u "phrase") c = VStr (u "lanza Codex") ∧ get (u "customized") c = VBool true
          | Raise _ => False end) as Hc by by vm_compute.
  destruct (update_command_control _ _ _ _) as [w' r] eqn:E. cbn [snd fst] in Hc |- *.
  destruct r as [c|]; [|destruct Hc].
  destruct (command_edit_publishable (W := W) (u "open_codex") true (u " lanza Codex ") start w' c E)
    as (before & p & H1 & H2 & H3 & H4 & H5).
  exists c, before, p. destruct Hc as [Hc1 Hc2]. exact (conj H1 (conj H2 (conj H3 (conj H4 (conj H5 (conj Hc1 Hc2)))))).
Defined.

(** A phrase that loses a field, invents one or names one twice is refused. *)
Example refused_phrases :
  let W := control_machine in
  Forall (λ ph, (update_command_control (u "whatsapp_compose") true (u ph) start).2 = Raise ValueError)
    ["manda un mensaje"; "escribe a <x>"; "escribe a <x> que <x>"; "escribe a <x> que <y> y <z>"; " "]%string.
Proof. repeat constructor. Qed.
