(* ===== verification/AgentCatalog.v ===== *)
(** * The agent's tools: [windows-agent/tools/agent_catalog.py]

    The argument contracts, the summaries shown for a confirmation, the
    preparers that fix a confirmed action's destination, the handlers, and the
    catalog of all of them that the Core routes to. *)
From S2P Require Import Prelude Dict Value Effects TextPolicy PyText Timers Tools Urls.
From S2P Require Import Machine Apps Contacts ControlConfig League Desktop IntegrationCatalog.

(** ** Argument contracts *)

Definition _text (arguments : object) (name : literal) : result pystr :=
  match get (u name) arguments with
  | VStr v => if nonempty (strip v) then Ok (strip v) else Raise ValueError
  | _ => Raise ValueError
  end.
Arguments _text arguments name%_string_scope.

Definition _validate_argument_text (v : value) (maximum : Z) (allow_line_feed : bool) : result unit :=
  _ ← reraise [ValueError] ValueError (validate_bounded_text v maximum allow_line_feed); Ok tt.

(** The keyword arguments of [_argument_schema]. *)
Record schema := mkSchema {
  required_text : list (literal * Z);
  optional_text : list (literal * Z);
  required_integers : list (literal * (Z * Z));
  choices : list (literal * list literal);
  check : object → result unit
}.
Definition no_check (_ : object) : result unit := Ok tt.

Definition schema_names (l : list literal) : list pystr := u <$> l.
Definition allowed (s : schema) : list pystr :=
  schema_names ((required_text s).*1 ++ (optional_text s).*1 ++ (required_integers s).*1 ++ (choices s).*1).
Definition required (s : schema) : list pystr := schema_names ((required_text s).*1 ++ (required_integers s).*1).

(** [name == "message"] *)
Definition is_message (name : literal) : bool := String.eqb name "message".

Definition check_text (arguments : object) (p : literal * Z) : result unit :=
  value ← getitem (u p.1) arguments; _validate_argument_text value p.2 (is_message p.1).
Definition check_optional_text (arguments : object) (p : literal * Z) : result unit :=
  if dmem (u p.1) arguments then check_text arguments p else Ok tt.
Definition check_integer (arguments : object) (p : literal * (Z * Z)) : result unit :=
  value ← getitem (u p.1) arguments;
  match value with
  | VInt n => ensure ((p.2.1 <=? n) && (n <=? p.2.2)) ValueError
  | _ => Raise ValueError
  end.
Definition check_choice (arguments : object) (p : literal * list literal) : result unit :=
  match get (u p.1) arguments with
  | VStr s => ensure (one_of s p.2) ValueError
  | _ => Raise ValueError
  end.

(** The validator [_argument_schema] returns. *)
Definition _argument_schema (s : schema) (arguments : object) : result unit :=
  _ ← ensure (keys_within (allowed s) arguments && keys_cover (required s) arguments) ValueError;
  _ ← traverse (check_text arguments) (required_text s);
  _ ← traverse (check_optional_text arguments) (optional_text s);
  _ ← traverse (check_integer arguments) (required_integers s);
  _ ← traverse (check_choice arguments) (choices s);
  check s arguments.

Definition _no_arguments (arguments : object) : result unit := ensure (negb (nonempty arguments)) ValueError.

(** [s.rstrip()] *)
Definition rstrip (s : pystr) : pystr := reverse (lstrip (reverse s)).
Definition ELLIPSIS : pystr := [8230].

(** [" ".join(value.split())] *)
Definition compacted (s : pystr) : pystr := join_words (split_words s).

Definition _value_summary (prefix : literal) (arguments : object) (name : literal) (limit : Z) : result value :=
  v ← _text arguments name;
  let compact := compacted v in
  let compact := if limit <? len compact then rstrip (slice_to (limit - 1) compact) ++ ELLIPSIS else compact in
  Ok (VStr (u prefix ++ u ": " ++ compact)).
Arguments _value_summary (prefix)%_string_scope arguments name%_string_scope limit.

Definition _discord_summary (arguments : object) : result value :=
  channel_id ← _text arguments "channel_id";
  match get (u "guild_id") arguments with
  | VStr guild_id =>
    if nonempty (strip guild_id)
    then Ok (VStr (u "Abrir Discord: canal " ++ channel_id ++ u " del servidor " ++ strip guild_id))
    else Ok (VStr (u "Abrir Discord: canal o DM " ++ channel_id))
  | _ => Ok (VStr (u "Abrir Discord: canal o DM " ++ channel_id))
  end.

(** [guild_id is not None and not isinstance(guild_id, str)] *)
Definition guild_argument (arguments : object) : result value :=
  match get (u "guild_id") arguments with
  | VNone => Ok VNone
  | VStr s => Ok (VStr s)
  | _ => Raise ValueError
  end.

(** An argument that must be an integer and not a boolean. *)
Definition integer_argument (arguments : object) (name : literal) : result Z :=
  match get (u name) arguments with VInt n => Ok n | _ => Raise ValueError end.
Arguments integer_argument arguments name%_string_scope.

Definition discard {A} (r : result A) : result unit := _ ← r; Ok tt.

Definition DEFAULT_TIMER_LABEL : value := VStr (u "Pipα timer").

Section Catalog.
Context `{T : UnicodeText} `{D : UrlData} `{C : UnicodeCategories} `{W : Machine}.

(** The schemas of [build_agent_catalog]. *)
Definition web_search_arguments := mkSchema [("query", 200)]%string [] [] []
  (λ a, discard (build_web_search_url (get (u "query") a))).
Definition music_search_arguments := mkSchema [("term", 200)]%string [] [] []
  (λ a, discard (build_apple_music_search_url (get (u "term") a))).
Definition discord_open_arguments := mkSchema [("channel_id", 20)]%string [("guild_id", 20)]%string [] []
  (λ a, discard (build_discord_channel_url (get (u "channel_id") a) (get (u "guild_id") a))).
Definition whatsapp_compose_arguments := mkSchema [("phone", 32); ("message", 3800)]%string [] [] []
  (λ a, discard (build_whatsapp_compose_url (get (u "phone") a) (get (u "message") a))).
Definition whatsapp_contact_message_arguments := mkSchema [("contact", 80); ("message", 3800)]%string [] [] [] no_check.
Definition whatsapp_contact_arguments := mkSchema [("contact", 80)]%string [] [] [] no_check.
Definition whatsapp_phone_arguments := mkSchema [("phone", 32)]%string [] [] []
  (λ a, discard (build_whatsapp_chat_url (get (u "phone") a))).
Definition discord_contact_arguments := mkSchema [("contact", 80)]%string [] [] [] no_check.
Definition league_search_arguments := mkSchema [("queue", 32)]%string [] [] []
  (λ a, discard (resolve_queue_id (get (u "queue") a))).
Definition league_wait_arguments := mkSchema [] [] [("seconds", (1, MAX_MATCH_WAIT_SECONDS))]%string [] no_check.
Definition media_action_arguments := mkSchema [("action", 16)]%string [] []
  [("action", ["play_pause"; "next"; "previous"; "stop"])]%string no_check.
Definition volume_arguments := mkSchema [] [] [("percent", (0, 100))]%string [] no_check.
Definition timer_create_arguments := mkSchema [] [("label", 120)]%string [("seconds", (1, MAX_TIMER_SECONDS))]%string [] no_check.
Definition timer_cancel_arguments := mkSchema [("timer_id", 32)]%string [] [] []
  (λ a, discard (validate_timer_id (get (u "timer_id") a))).
Definition open_url_arguments := mkSchema [("url", 2048)]%string [] [] []
  (λ a, discard (validate_external_url (get (u "url") a))).
Definition open_app_arguments := mkSchema [("app", 80)]%string [] [] [] no_check.

(** ** Handlers *)

Definition web_search (arguments : object) : M desktop object :=
  lift (_text arguments "query") ≫= λ query, open_web_search (VStr query).
Definition music_search (arguments : object) : M desktop object :=
  lift (_text arguments "term") ≫= λ term, open_apple_music_search (VStr term).

Definition discord_open (arguments : object) : M desktop object :=
  lift (_text arguments "channel_id") ≫= λ channel_id,
  lift (guild_argument arguments) ≫= λ guild_id, open_discord_channel (VStr channel_id) guild_id.
Definition discord_call_channel (arguments : object) : M desktop object :=
  lift (_text arguments "channel_id") ≫= λ channel_id,
  lift (guild_argument arguments) ≫= λ guild_id, open_discord_call (VStr channel_id) guild_id.

(** [automatic_send is True or (automatic_send is None and active())] *)
Definition automatic_send (arguments : object) : M desktop bool :=
  match get (u "_automatic_send") arguments with
  | VBool b => mret b
  | VNone => whatsapp_automatic_send_active
  | _ => mret false
  end.
Definition deliver (arguments : object) (phone message : pystr) : M desktop object :=
  automatic_send arguments ≫= λ automatic,
  if automatic : bool then send_whatsapp_cloud_message (VStr phone) (VStr message)
  else open_whatsapp_compose (VStr phone) (VStr message).

Definition whatsapp_compose (arguments : object) : M desktop object :=
  lift (_text arguments "phone") ≫= λ phone,
  lift (_text arguments "message") ≫= λ message, deliver arguments phone message.

(** The number fixed when the confirmation was prepared, else the contact's. *)
Definition resolved_phone (arguments : object) : M desktop pystr :=
  match get (u "_resolved_phone") arguments with
  | VStr phone => mret phone
  | _ =>
    lift (_text arguments "contact") ≫= λ contact,
    resolve_whatsapp_contact contact ≫= λ '(_contact_name, phone), mret phone
  end.
Definition whatsapp_contact (arguments : object) : M desktop object :=
  lift (_text arguments "message") ≫= λ message,
  resolved_phone arguments ≫= λ phone, deliver arguments phone message.
Definition whatsapp_contact_open (arguments : object) : M desktop object :=
  resolved_phone arguments ≫= λ phone, open_whatsapp_chat (VStr phone).
Definition whatsapp_phone_open (arguments : object) : M desktop object :=
  lift (_text arguments "phone") ≫= λ phone, open_whatsapp_chat (VStr phone).

Definition audio_volume (arguments : object) : M desktop object :=
  lift (integer_argument arguments "percent") ≫= set_volume.

(** [timer_manager.create(seconds, label)]: the identifier and the time are
    drawn once the timer's bounds hold. *)
Definition create_timer (seconds : Z) (label : pystr) : M desktop object :=
  if timer_arguments (VInt seconds) (VStr label) then
    call DrawToken ≫= λ token,
    call WallClock ≫= λ now, on_timers (create (VInt seconds) (VStr label) token now)
  else raise ValueError.
Definition timer_create (arguments : object) : M desktop object :=
  lift (integer_argument arguments "seconds") ≫= λ seconds,
  match get_or (u "label") DEFAULT_TIMER_LABEL arguments with
  | VStr label => create_timer seconds label
  | _ => raise ValueError
  end.
Definition timer_list : M desktop object :=
  on_timers (gets list_timers) ≫= λ timers, mret [(u "timers", VList (VDict <$> timers))].
Definition timer_cancel (arguments : object) : M desktop object :=
  lift (id ← _text arguments "timer_id"; validate_timer_id (VStr id)) ≫= λ id, on_timers (cancel (VStr id)).

Definition league_search (arguments : object) : M desktop object :=
  lift (_text arguments "queue") ≫= λ queue,
  with_client_or_launch (λ client, start_search client (VStr queue)) open_league.
Definition league_cancel : M desktop object := with_client cancel_search.
Definition league_status : M desktop object := with_client League.status.
Definition league_search_status : M desktop object :=
  with_client (λ client, search_status client ≫= λ s, mret (search_object s)).
Definition league_wait (arguments : object) : M desktop object :=
  lift (integer_argument arguments "seconds") ≫= λ seconds, with_client (λ client, wait_for_match client seconds).

Definition music_open : M desktop object := open_apple_music ≫= λ r, mret (without_destination r).
Definition discord_open_app : M desktop object := open_discord_app ≫= λ r, mret (without_destination r).
Definition whatsapp_open : M desktop object := open_whatsapp_web ≫= λ r, mret (without_destination r).

Definition resolved_channel (arguments : object) : M desktop (pystr * value) :=
  match get (u "_resolved_channel_id") arguments with
  | VStr channel_id => mret (channel_id, get (u "_resolved_guild_id") arguments)
  | _ =>
    lift (_text arguments "contact") ≫= λ contact,
    resolve_discord_contact contact ≫= λ '(_contact_name, channel_id, guild_id),
    mret (channel_id, str_or_none guild_id)
  end.
Definition discord_contact (arguments : object) : M desktop object :=
  resolved_channel arguments ≫= λ '(channel_id, guild_id), open_discord_channel (VStr channel_id) guild_id.
Definition discord_call (arguments : object) : M desktop object :=
  resolved_channel arguments ≫= λ '(channel_id, guild_id), open_discord_call (VStr channel_id) guild_id.

Definition _open_url (v : value) : M desktop object :=
  lift (validate_external_url v) ≫= λ url,
  open_validated_url (VStr url) "URL abierta en el navegador."%string "No he podido abrir la URL en el navegador."%string ≫= λ r,
  mret (without_destination r).

(** ** Preparers and summaries *)

Definition prepare_whatsapp_contact (arguments : object) : M desktop value :=
  lift (_text arguments "contact") ≫= λ contact,
  resolve_whatsapp_contact contact ≫= λ '(_contact_name, phone),
  whatsapp_automatic_send_active ≫= λ automatic,
  let prepared := [(u "_resolved_phone", VStr phone); (u "_automatic_send", VBool automatic)] in
  if dmem (u "message") arguments
  then lift (_text arguments "message") ≫= λ message, mret (VDict (prepared ++ [(u "message", VStr message)]))
  else mret (VDict prepared).

Definition prepare_whatsapp_compose (arguments : object) : M desktop value :=
  lift (_text arguments "phone") ≫= λ phone,
  lift (_text arguments "message") ≫= λ message,
  whatsapp_automatic_send_active ≫= λ automatic,
  mret (VDict [(u "phone", VStr phone); (u "message", VStr message); (u "_automatic_send", VBool automatic)]).

Definition prepare_discord_contact (arguments : object) : M desktop value :=
  lift (_text arguments "contact") ≫= λ contact,
  resolve_discord_contact contact ≫= λ '(_contact_name, channel_id, guild_id),
  mret (VDict [(u "_resolved_channel_id", VStr channel_id); (u "_resolved_guild_id", str_or_none guild_id)]).

(** The first 72 characters of the message, white space compacted. *)
Definition excerpt (message : pystr) : pystr := slice_to 72 (compacted message).

Definition whatsapp_summary (target : literal) (name : literal) (arguments : object) : M desktop value :=
  whatsapp_automatic_send_active ≫= λ automatic,
  lift (_text arguments name) ≫= λ whom,
  lift (_text arguments "message") ≫= λ message,
  mret (VStr ((if automatic : bool then u "Enviar" else u "Preparar") ++ u " WhatsApp para " ++ u target ++ whom ++ u ": "
    ++ excerpt message)).
Arguments whatsapp_summary (target name)%_string_scope arguments.

Definition named_summary (prefix name suffix : literal) (arguments : object) : result value :=
  v ← _text arguments name; Ok (VStr (u prefix ++ v ++ u suffix)).
Arguments named_summary (prefix name suffix)%_string_scope arguments.

(** ** The catalog *)

(** A tool as the agent writes it: each of its callables is a run on the
    machine. *)
Record agent_tool := mkAgentTool {
  entry_name : pystr;
  run_handler : object → M desktop object;
  entry_safety : pystr;
  run_summary : option (object → M desktop value);
  run_validator : object → M desktop unit;
  run_preparer : option (object → M desktop value)
}.

(** The router runs a validator, a summary or a preparer for its result; the
    readings it makes are left out of the history. *)
Definition reading {A B} (f : A → M desktop B) : A → desktop → result B := λ a w, observe (f a) w.
Definition registered (t : agent_tool) : ToolDefinition desktop :=
  mkTool (entry_name t) (run_handler t) (entry_safety t) (reading <$> run_summary t) (Some (reading (run_validator t)))
    (reading <$> run_preparer t).

Definition pure_reading {A B} (f : A → result B) : A → M desktop B := λ a, lift (f a).
Definition safe_tool (name : literal) (handler : object → M desktop object) (validator : object → result unit) : agent_tool :=
  mkAgentTool (u name) handler (u "safe") None (pure_reading validator) None.
Definition unsafe_tool (name : literal) (handler : object → M desktop object) (summary : object → M desktop value)
    (validator : object → result unit) (preparer : option (object → M desktop value)) : agent_tool :=
  mkAgentTool (u name) handler (u "unsafe") (Some summary) (pure_reading validator) preparer.
Definition _unsafe_summary (label : literal) : object → M desktop value := λ _, mret (VStr (u label)).
Arguments safe_tool name%_string_scope handler validator.
Arguments unsafe_tool name%_string_scope handler summary validator preparer.
Arguments _unsafe_summary label%_string_scope.

Definition agent_entries : list agent_tool := [
  safe_tool "system_status" (λ _, get_system_status) _no_arguments;
  safe_tool "integration_status" (λ _, get_integration_capabilities) _no_arguments;
  safe_tool "system_power" (λ _, get_power_status) _no_arguments;
  safe_tool "system_network" (λ _, get_network_status) _no_arguments;
  safe_tool "audio_volume" audio_volume (_argument_schema volume_arguments);
  safe_tool "audio_mute" (λ _, mute) _no_arguments;
  safe_tool "audio_unmute" (λ _, unmute) _no_arguments;
  safe_tool "media_action" (λ a, lift (_text a "action") ≫= send_media_action) (_argument_schema media_action_arguments);
  unsafe_tool "open_app" (λ a, lift (_text a "app") ≫= open_app)
    (pure_reading (λ a, _value_summary "Abrir aplicación" a "app" 96)) (_argument_schema open_app_arguments) None;
  unsafe_tool "open_codex" (λ _, open_codex) (_unsafe_summary "Abrir Codex") _no_arguments None;
  unsafe_tool "web_search" web_search
    (pure_reading (λ a, _value_summary "Buscar en Internet" a "query" 96)) (_argument_schema web_search_arguments) None;
  unsafe_tool "music_search" music_search
    (pure_reading (λ a, _value_summary "Buscar en Apple Music" a "term" 96)) (_argument_schema music_search_arguments) None;
  unsafe_tool "music_open" (λ _, music_open) (_unsafe_summary "Abrir Apple Music") _no_arguments None;
  unsafe_tool "league_open" (λ _, open_league) (_unsafe_summary "Abrir League of Legends") _no_arguments None;
  unsafe_tool "discord_open_app" (λ _, discord_open_app) (_unsafe_summary "Abrir Discord") _no_arguments None;
  unsafe_tool "discord_open" discord_open (pure_reading _discord_summary) (_argument_schema discord_open_arguments) None;
  unsafe_tool "discord_call_channel" discord_call_channel
    (pure_reading (named_summary "Preparar llamada de Discord para canal " "channel_id" "; la llamada se inicia manualmente"))
    (_argument_schema discord_open_arguments) None;
  unsafe_tool "discord_contact" discord_contact (pure_reading (named_summary "Abrir Discord para contacto " "contact" String.EmptyString))
    (_argument_schema discord_contact_arguments) (Some prepare_discord_contact);
  unsafe_tool "discord_call" discord_call
    (pure_reading (named_summary "Abrir llamada de Discord para contacto " "contact" "; la llamada se inicia manualmente"))
    (_argument_schema discord_contact_arguments) (Some prepare_discord_contact);
  unsafe_tool "whatsapp_compose" whatsapp_compose (whatsapp_summary String.EmptyString "phone")
    (_argument_schema whatsapp_compose_arguments) (Some prepare_whatsapp_compose);
  unsafe_tool "whatsapp_contact" whatsapp_contact (whatsapp_summary "contacto " "contact")
    (_argument_schema whatsapp_contact_message_arguments) (Some prepare_whatsapp_contact);
  unsafe_tool "whatsapp_contact_open" whatsapp_contact_open
    (pure_reading (named_summary "Abrir WhatsApp para contacto " "contact" String.EmptyString))
    (_argument_schema whatsapp_contact_arguments) (Some prepare_whatsapp_contact);
  unsafe_tool "whatsapp_phone_open" whatsapp_phone_open (_unsafe_summary "Abrir un chat de WhatsApp")
    (_argument_schema whatsapp_phone_arguments) None;
  unsafe_tool "whatsapp_open" (λ _, whatsapp_open) (_unsafe_summary "Abrir WhatsApp Web") _no_arguments None;
  unsafe_tool "league_search" league_search
    (pure_reading (λ a, _value_summary "Buscar partida" a "queue" 96)) (_argument_schema league_search_arguments) None;
  safe_tool "league_status" (λ _, league_status) _no_arguments;
  safe_tool "league_search_status" (λ _, league_search_status) _no_arguments;
  safe_tool "league_wait" league_wait (_argument_schema league_wait_arguments);
  unsafe_tool "league_cancel" (λ _, league_cancel) (_unsafe_summary "Cancelar la búsqueda de League of Legends") _no_arguments None;
  unsafe_tool "system_lock" (λ _, lock_pc) (_unsafe_summary "Bloquear el ordenador") _no_arguments None;
  safe_tool "timer_create" timer_create (_argument_schema timer_create_arguments);
  safe_tool "timer_list" (λ _, timer_list) _no_arguments;
  safe_tool "timer_cancel" timer_cancel (_argument_schema timer_cancel_arguments);
  unsafe_tool "open_url" (λ a, lift (_text a "url") ≫= λ url, _open_url (VStr url))
    (pure_reading (λ a, _value_summary "Abrir URL" a "url" 120)) (_argument_schema open_url_arguments) None].

Definition agent_tools : list (ToolDefinition desktop) := registered <$> agent_entries.
Definition build_agent_catalog : result (dict pystr (ToolDefinition desktop)) := new_catalog agent_tools.
End Catalog.
