(* ===== verification/AgentFacts.v ===== *)
(** * What the agent's tools may do

    Every handler of [AgentCatalog], run on any machine, performs only passive
    readings and the effects its entry of [PERMITTED] lists: a safe tool
    adjusts the speakers, presses a media key or waits; an unsafe one reaches
    its own host, an allowlisted program, its own request of the League client
    or the lock, and nothing else. *)
From S2P Require Import Prelude Dict Value Effects TextPolicy PyText Timers Tools Urls.
From S2P Require Import Machine Apps Contacts ControlConfig League Desktop IntegrationCatalog AgentCatalog.

Inductive permission :=
| Speakers | Keys | Pause | Launch | Browse (host : literal) | BrowseAnywhere | Send | Matchmake | Unqueue | Lock.
Arguments Browse host%_string_scope.

Definition WHATSAPP_HOST : literal := "wa.me"%string.
Definition PERMITTED : list (literal * list permission) := [
  ("audio_volume", [Speakers]); ("audio_mute", [Speakers]); ("audio_unmute", [Speakers]); ("media_action", [Keys]);
  ("open_app", [Launch]); ("open_codex", [Launch]);
  ("web_search", [Browse "www.google.com"]); ("music_search", [Browse "music.apple.com"]);
  ("music_open", [Launch; Browse "music.apple.com"]); ("league_open", [Launch; Pause]);
  ("discord_open_app", [Launch; Browse "discord.com"]); ("discord_open", [Browse "discord.com"]);
  ("discord_call_channel", [Browse "discord.com"]); ("discord_contact", [Browse "discord.com"]);
  ("discord_call", [Browse "discord.com"]);
  ("whatsapp_compose", [Browse WHATSAPP_HOST; Send]); ("whatsapp_contact", [Browse WHATSAPP_HOST; Send]);
  ("whatsapp_contact_open", [Browse WHATSAPP_HOST]); ("whatsapp_phone_open", [Browse WHATSAPP_HOST]);
  ("whatsapp_open", [Launch; Browse "web.whatsapp.com"]);
  ("league_search", [Launch; Pause; Matchmake]); ("league_status", [Pause]); ("league_search_status", [Pause]);
  ("league_wait", [Pause]); ("league_cancel", [Pause; Unqueue]); ("system_lock", [Lock]); ("open_url", [BrowseAnywhere])]%string.
Definition permitted (name : pystr) : list permission := default [] (lookup_literal name PERMITTED).

(** What a tool may do without a confirmation. *)
Definition harmless (p : permission) : bool := match p with Speakers | Keys | Pause => true | _ => false end.

(** Bindings are followed; the operation at the end has its lemma. *)
Ltac one := first [by left | by right; left | by right; right; left].
Ltac follows_args :=
  repeat lazymatch goal with |- does _ (lift _ ≫= _) => apply does_bind; [apply does_lift|intros ?] end.

Section Facts.
Context `{T : UnicodeText} {HT : UnicodeTextLaws T} `{D : UrlData} `{C : UnicodeCategories} `{W : Machine}.

(** ** Events *)

(** An operation that only reads. *)
Definition passive (e : event) : Prop :=
  match e with
  | Event o =>
    match o with
    | FileExists _ | ReadFile _ _ | TokenVariable | ReadCredential | Which _ | Processes | CurrentUser | Monotonic
    | WallClock | DrawToken | Battery | NetworkInterfaces | SystemReadings | VolumeReading => True
    | LeagueCall _ _ method _ _ => method = u "GET"
    | _ => False
    end
  end.

(** An address of visible characters on this very host, over TLS. *)
Definition at_host (host : literal) (url : pystr) : Prop :=
  ∃ rest, url = plain_url (u host) rest ∧ after_host rest ∧ forallb visible url = true.

Definition permits (p : permission) (e : event) : Prop :=
  match e with
  | Event o =>
    match p, o with
    | Speakers, (OpenAudio | CloseAudio | SetMute _) => True
    | Speakers, SetVolume percent => 0 <= percent <= 100
    | Keys, PressKey key _ => key ∈ MEDIA_KEYS.*2
    | Pause, Sleep d => 0 < d
    | Launch, Popen argv _ _ => ∃ name h0 h1, allowlisted h0 h1 name argv
    | Browse host, OpenBrowser url => at_host host url
    | BrowseAnywhere, OpenBrowser url => ∃ v, validate_external_url v = Ok url
    | Send, CloudCall endpoint _ _ => at_host "graph.facebook.com"%string endpoint
    | Matchmake, LeagueCall _ _ method path _ => method = u "POST" ∧ path ∈ [u LOBBY; u SEARCH]
    | Unqueue, LeagueCall _ _ method path _ => method = u "DELETE" ∧ path = u SEARCH
    | Lock, LockStation => True
    | _, _ => False
    end
  end.

Definition tool_event (ps : list permission) (e : event) : Prop := passive e ∨ ∃ p, p ∈ ps ∧ permits p e.

Lemma tool_event_more ps ps' e : ps ⊆ ps' → tool_event ps e → tool_event ps' e.
Proof using Type. intros Hs [?|(p & Hp & ?)]; [by left|right]. exists p. split; [by apply Hs|done]. Qed.
Lemma does_permit ps ps' {A} (m : M desktop A) : ps ⊆ ps' → does (tool_event ps) m → does (tool_event ps') m.
Proof using Type. intros Hs. apply does_weaken. intros e. by apply tool_event_more. Qed.
Lemma does_passively ps {A} (m : M desktop A) : does passive m → does (tool_event ps) m.
Proof using Type. apply does_weaken. by left. Qed.
Lemma does_permitted ps p {A : Set} (o : op A) : p ∈ ps → permits p (Event o) → does (tool_event ps) (call o).
Proof using Type. intros Hp Ho. apply does_call. right. by exists p. Qed.

(** ** Readings *)

Lemma contact_passive e : contact_event e → passive e.
Proof using Type. by destruct e as [A []]. Qed.
Lemma app_tool_event e : (∃ name, app_event (λ argv, ∃ h0 h1, allowlisted h0 h1 name argv) e) → tool_event [Launch] e.
Proof using Type.
  intros [name He]. destruct e as [A o]. destruct o; try done; try by left. right. exists Launch. split; [by left|]. by exists name.
Qed.
Lemma league_tool_event es ps e :
  (∀ mp, mp ∈ es → mp ∈ READS ∨ (Matchmake ∈ ps ∧ mp ∈ STARTS) ∨ (Unqueue ∈ ps ∧ mp ∈ CANCELS)) → Pause ∈ ps →
  league_event es e → tool_event ps e.
Proof using Type.
  intros Hes Hp He. destruct e as [A o]. destruct o; try done; try by left.
  - right. by exists Pause.
  - cbn [league_event] in He. destruct He as (_ & mp & Hmp & -> & ->).
    assert (∀ mp, mp ∈ READS → tool_event ps (Event (LeagueCall port authorization (u mp.1) (u mp.2) body))) as Hr.
    { intros x Hx. left. apply elem_of_cons in Hx as [->|Hx]; [done|]. by apply list_elem_of_singleton in Hx as ->. }
    apply Hes in Hmp as [Hmp|[[Hm Hmp]|[Hm Hmp]]]; [by apply Hr|..].
    + apply elem_of_cons in Hmp as [->|[->|Hmp]%elem_of_cons]; [..|by apply Hr]; right; exists Matchmake; (split; [done|]);
        (split; [done|]); [by left|by right; left].
    + apply elem_of_cons in Hmp as [->|Hmp]; [|by apply Hr]. right. by exists Unqueue.
Qed.

Lemma resolve_whatsapp_passive alias : does passive (resolve_whatsapp_contact alias).
Proof using HT. eapply does_weaken; [apply contact_passive|]. eapply does_moves, resolve_whatsapp_moves. Qed.
Lemma resolve_discord_passive alias : does passive (resolve_discord_contact alias).
Proof using HT. eapply does_weaken; [apply contact_passive|]. eapply does_moves, resolve_discord_moves. Qed.
Lemma control_passive : does passive load_control_config.
Proof using Type. apply control_config_does. by intros ? []. Qed.
Lemma token_passive : does passive get_whatsapp_access_token.
Proof using Type.
  unfold get_whatsapp_access_token, _environment_access_token, _credential_manager_access_token. repeat does_step; done.
Qed.
Lemma automatic_passive : does passive whatsapp_automatic_send_active.
Proof using Type.
  unfold whatsapp_automatic_send_active, get_whatsapp_settings. repeat (apply token_passive || apply control_passive || does_step).
Qed.
Lemma find_client_passive : does passive find_client_connection.
Proof using Type.
  unfold find_client_connection. apply does_bind; [by apply does_call|]. intros ps.
  induction ps as [|p ps IH]; cbn [search_processes]; [apply does_raise|].
  apply does_bind; [unfold examine, _same_windows_user; repeat does_step; done|]. intros [c|]; [apply does_ret|exact IH].
Qed.

(** ** The browser *)

Lemma validated_visible s url : forallb visible s = true → validate_external_url (VStr s) = Ok url → url = s.
Proof using Type.
  intros Hv H. assert (url = strip s) as ->; [|by apply visible_strip_id].
  unfold validate_external_url in H. repeat (result_step; simplify_eq); done.
Qed.

Lemma validated_host host rest url :
  forallb host_char (u host) = true → forallb visible rest = true → after_host rest →
  validate_external_url (VStr (plain_url (u host) rest)) = Ok url → at_host host url.
Proof using Type.
  intros Hh Hr Ha H. assert (forallb visible (plain_url (u host) rest) = true) as Hv.
  { unfold plain_url. rewrite !forallb_app, Hr, andb_true_r. apply andb_true_iff. split; [done|].
    apply forallb_forall. intros c Hc. apply (proj1 (forallb_forall _ _) Hh) in Hc. by apply host_char_facts. }
  apply validated_visible in H as ->; [|done]. by exists rest.
Qed.

Lemma urlencode_visible name text enc :
  forallb visible (u name) = true → urlencode name text = Ok enc → forallb visible enc = true.
Proof using Type.
  intros Hn H. destruct (utf8_encode text) as [b|] eqn:E.
  - destruct (urlencode_ok text b E) as (e & He & _ & Hv & _). rewrite He in H. injection H as <-.
    rewrite forallb_app, Hn. exact Hv.
  - unfold urlencode, quote_plus in H. by rewrite E in H.
Qed.

Lemma web_search_host q url : build_web_search_url q = Ok url → at_host "www.google.com"%string url.
Proof using Type.
  unfold build_web_search_url. destruct (_validate_query q) as [t|]; [|done]. cbn [mbind result_bind].
  destruct (urlencode _ t) as [e|] eqn:E; [|done]. cbn [mbind result_bind]. apply urlencode_visible in E; [|done].
  change (u "https://www.google.com/search?"%string ++ e) with (plain_url (u "www.google.com") (u "/search?" ++ e)).
  apply validated_host; [done| |done]. by rewrite forallb_app, E.
Qed.
Lemma music_search_host q url : build_apple_music_search_url q = Ok url → at_host "music.apple.com"%string url.
Proof using Type.
  unfold build_apple_music_search_url. destruct (_validate_query q) as [t|]; [|done]. cbn [mbind result_bind].
  destruct (urlencode _ t) as [e|] eqn:E; [|done]. cbn [mbind result_bind]. apply urlencode_visible in E; [|done].
  change (u "https://music.apple.com/es/search?"%string ++ e) with (plain_url (u "music.apple.com") (u "/es/search?" ++ e)).
  apply validated_host; [done| |done]. by rewrite forallb_app, E.
Qed.
Lemma music_browse_host url : build_apple_music_browse_url = Ok url → at_host "music.apple.com"%string url.
Proof using Type. by apply (validated_host "music.apple.com"%string (u "/es/browse")). Qed.
Lemma discord_app_host url : build_discord_app_url = Ok url → at_host "discord.com"%string url.
Proof using Type. by apply (validated_host "discord.com"%string (u "/app")). Qed.
Lemma whatsapp_web_host url : build_whatsapp_web_url = Ok url → at_host "web.whatsapp.com"%string url.
Proof using Type. by apply (validated_host "web.whatsapp.com"%string (u "/")). Qed.

Lemma channel_host c g url : build_discord_channel_url c g = Ok url → at_host "discord.com"%string url.
Proof using HT.
  unfold build_discord_channel_url. destruct (_validate_snowflake c) as [ch|] eqn:Ec; [|done]. cbn [mbind result_bind].
  apply snowflake_digits in Ec as [Ec _].
  destruct (match g with VNone => Ok (u "@me") | _ => _validate_snowflake g end) as [gu|] eqn:Eg; [|done]. cbn [mbind result_bind].
  assert (forallb visible gu = true) as Hg.
  { destruct g; try (apply snowflake_digits in Eg as [Eg _]; by apply digits_visible). by injection Eg as <-. }
  change (u "https://discord.com/channels/"%string ++ gu ++ u "/" ++ ch)
    with (plain_url (u "discord.com") (u "/channels/" ++ gu ++ u "/" ++ ch)).
  apply validated_host; [done| |done]. rewrite !forallb_app, Hg. by rewrite (digits_visible ch).
Qed.

Lemma phone_visible p n : normalize_phone p = Ok n → forallb visible n = true.
Proof using Type. intros [H _]%normalize_phone_digits. by apply digits_visible. Qed.

Lemma compose_host p m url : build_whatsapp_compose_url p m = Ok url → at_host WHATSAPP_HOST url.
Proof using Type.
  unfold build_whatsapp_compose_url. destruct (normalize_phone p) as [n|] eqn:En; [|done]. cbn [mbind result_bind].
  destruct (validate_bounded_text m _ _) as [t|]; [|done]. cbn [mbind result_bind].
  destruct (urlencode _ t) as [e|] eqn:E; [|done]. cbn [mbind result_bind].
  apply urlencode_visible in E; [|done]. apply phone_visible in En.
  change (u "https://wa.me/"%string ++ n ++ u "?" ++ e) with (plain_url (u WHATSAPP_HOST) (u "/" ++ n ++ u "?" ++ e)).
  apply validated_host; [done| |done]. by rewrite !forallb_app, En, E.
Qed.
Lemma chat_host p url : build_whatsapp_chat_url p = Ok url → at_host WHATSAPP_HOST url.
Proof using Type.
  unfold build_whatsapp_chat_url. destruct (normalize_phone p) as [n|] eqn:En; [|done]. cbn [mbind result_bind].
  apply phone_visible in En.
  change (u "https://wa.me/"%string ++ n) with (plain_url (u WHATSAPP_HOST) (u "/" ++ n)).
  apply validated_host; [done| |done]. by rewrite !forallb_app, En.
Qed.

(** ** Runs of the desktop tools *)

Lemma open_validated_does ps url s f :
  (∀ x, validate_external_url url = Ok x → ∃ p, p ∈ ps ∧ permits p (Event (OpenBrowser x))) →
  does (tool_event ps) (open_validated_url url s f).
Proof using Type.
  intros Hp. unfold open_validated_url.
  apply (does_bind_value _ (λ x, validate_external_url url = Ok x)); [by apply moves_lift; [apply _|]|]. intros x Hx.
  apply does_bind; [|intros; apply does_ret]. apply does_except; [|apply does_ret]. apply does_call. right. by apply Hp.
Qed.

Lemma open_built_does ps host url s f extra :
  Browse host ∈ ps → (∀ x, url = Ok x → at_host host x) → does (tool_event ps) (open_built url s f extra).
Proof using Type.
  intros Hin Hu. unfold open_built. apply (does_bind_value _ (at_host host)); [by apply moves_lift; [apply _|]|].
  intros x Hx. apply does_bind; [|intros; apply does_ret]. apply open_validated_does. intros y Hy. exists (Browse host).
  split; [done|]. apply validated_visible in Hy as ->; [done|]. by destruct Hx as (_ & _ & _ & ?).
Qed.

Lemma open_app_permitted ps name : Launch ∈ ps → does (tool_event ps) (open_app name).
Proof using HT.
  intros Hp. eapply does_weaken; [|apply open_app_does]. intros e He. eapply (tool_event_more [Launch]).
  - intros p Hin. by apply list_elem_of_singleton in Hin as ->.
  - apply app_tool_event. by exists name.
Qed.
Lemma try_open_permitted ps name : Launch ∈ ps → does (tool_event ps) (try_open_app name).
Proof using HT. intros Hp. unfold try_open_app. apply does_except; [by apply open_app_permitted|apply does_ret]. Qed.

Lemma league_permitted es ps {A} (m : M desktop A) :
  (∀ mp, mp ∈ es → mp ∈ READS ∨ (Matchmake ∈ ps ∧ mp ∈ STARTS) ∨ (Unqueue ∈ ps ∧ mp ∈ CANCELS)) → Pause ∈ ps →
  does (league_event es) m → does (tool_event ps) m.
Proof using Type. intros He Hp. apply does_weaken. intros e. by apply (league_tool_event es). Qed.

Lemma find_client_value ps : moves (grows (tool_event ps)) connection_ok find_client_connection.
Proof using Type.
  intros w. destruct (does_passively ps _ find_client_passive w) as [Hr _]. split; [done|]. by destruct (find_client_moves w).
Qed.

Lemma with_client_permitted ps {A} (callback : LeagueClientConnection → M desktop A) :
  (∀ c, connection_ok c → does (tool_event ps) (callback c)) → does (tool_event ps) (with_client callback).
Proof using Type.
  intros Hc. unfold with_client. by apply (does_bind_value _ connection_ok); [apply find_client_value|].
Qed.

Lemma wait_value ps : Pause ∈ ps → moves (grows (tool_event ps)) connection_ok wait_for_client_connection.
Proof using Type.
  intros Hp. unfold wait_for_client_connection.
  eapply (moves_bind _ (λ _, True)); [by apply does_passively, does_call|]. intros now _.
  apply (moves_bind _ (λ found, ∀ c, found = Some c → connection_ok c)).
  - assert (0 < _CLIENT_START_POLL) as Hpoll by done.
    generalize (polls _CLIENT_START_TIMEOUT _CLIENT_START_POLL), (now + _CLIENT_START_TIMEOUT). intros fuel deadline.
    induction fuel as [|fuel IH]; cbn [await_client]; [by apply moves_ret; [apply _|]|].
    apply (moves_bind _ (λ found, ∀ c, found = Some c → connection_ok c)).
    { apply moves_except; [apply _| |by apply moves_ret; [apply _|]].
      eapply moves_bind; [apply _|apply find_client_value|]. intros c Hc. apply moves_ret; [apply _|]. by intros ? [= <-]. }
    intros [c|] Hc; [apply moves_ret; [apply _|]; intros ? [= <-]; by apply Hc|].
    eapply (moves_bind _ (λ _, True)); [by apply does_passively, does_call|]. intros t _. cbv zeta.
    destruct (_ <=? 0) eqn:E; [apply moves_raise, _|]. eapply (moves_bind _ (λ _, True)); [|intros; apply IH].
    apply (does_permitted _ Pause); [done|]. cbn. lia.
  - intros [c|] Hc; [apply moves_ret; [apply _|]; by apply Hc|apply moves_raise, _].
Qed.
Lemma wait_client_does ps : Pause ∈ ps → does (tool_event ps) wait_for_client_connection.
Proof using Type. intros Hp. by eapply does_moves, wait_value. Qed.

Lemma open_league_does ps : Launch ∈ ps → Pause ∈ ps → does (tool_event ps) open_league.
Proof using HT.
  intros Hl Hp. unfold open_league. apply does_bind; [by apply open_app_permitted|]. intros r.
  destruct (negb _); [apply does_ret|]. apply does_except; [|apply does_ret].
  apply does_bind; [by apply wait_client_does|intros; apply does_ret].
Qed.

Lemma connect_value ps launcher : Pause ∈ ps → does (tool_event ps) launcher →
  moves (grows (tool_event ps)) (λ r, connection_ok r.1) (connect_or_launch launcher).
Proof using Type.
  intros Hp Hl. unfold connect_or_launch. apply moves_try; [apply _|..].
  - eapply moves_bind; [apply _|apply find_client_value|]. intros c Hc. by apply moves_ret; [apply _|].
  - intros e. destruct (negb _); [apply moves_raise, _|]. eapply (moves_bind _ (λ _, True)); [done|]. intros r _.
    destruct (negb _); [apply moves_raise, _|]. eapply (moves_bind _ connection_ok).
    + apply moves_except; [apply _|by apply wait_value|apply moves_raise, _].
    + intros c Hc. by apply moves_ret; [apply _|].
Qed.

(** The address of the messaging service, from validated settings. *)
Lemma class_digits lo hi s : matches_class ascii_digit lo hi s = true → forallb visible s = true.
Proof using Type. unfold matches_class. rewrite !andb_true_iff. intros [[H _] _]. by apply digits_visible. Qed.

Lemma version_visible v : is_api_version v = true → forallb visible v = true.
Proof using Type.
  intros Hv. unfold is_api_version in Hv. destruct v as [|x [|c s']]; [done|by destruct x as [|[]|]; repeat case_match|].
  assert (x = 118) as -> by (repeat (case_match; try done)). cbv iota in Hv.
  destruct (partition_at 46 s') as [[major dot] minor] eqn:E. rewrite !andb_true_iff in Hv.
  destruct Hv as ((((Hc & Hc') & Hd) & H1) & H2). subst dot. apply partition_at_found in E as ->.
  cbn [forallb]. rewrite forallb_app. cbn [forallb].
  rewrite (class_digits _ _ _ H1), (class_digits _ _ _ H2). unfold visible. rewrite !andb_true_iff. repeat split; lia.
Qed.

Lemma settings_value ps : moves (grows (tool_event ps)) settings_ok get_whatsapp_settings.
Proof using Type.
  intros w. unfold get_whatsapp_settings. destruct (does_passively ps _ control_passive w) as [Hr _].
  unfold wp, mbind, M_bind. destruct (load_control_config w) as [w' [c|e]] eqn:E; [|by split].
  split; [exact Hr|]. intros s Hs. injection Hs as <-. apply (load_control_ok w c w' E).
Qed.

Lemma send_does ps phone message : Send ∈ ps → does (tool_event ps) (send_whatsapp_cloud_message phone message).
Proof using HT.
  intros Hp. unfold send_whatsapp_cloud_message.
  apply does_bind; [apply does_lift|]. intros digits. apply does_bind; [apply does_lift|]. intros text.
  apply (does_bind_value _ settings_ok); [apply settings_value|]. intros s Hs.
  apply does_bind; [apply does_passively, token_passive|]. intros [token|]; [|apply does_ret].
  destruct (_ || _) eqn:Eo; [apply does_ret|]. apply orb_false_iff in Eo as [_ Hn%negb_false_iff].
  apply (does_bind_value _ (at_host "graph.facebook.com"%string)).
  - apply moves_lift; [apply _|]. intros endpoint H. eapply (validated_host "graph.facebook.com"%string
      (u "/" ++ api_version s ++ u "/" ++ phone_number_id s ++ u "/messages")); [done| |done|exact H].
    destruct Hs as [_ Hid Hv]. rewrite Hn in Hid. apply negb_false_iff, class_digits in Hid. apply version_visible in Hv.
    by rewrite !forallb_app, Hid, Hv.
  - intros endpoint He. apply does_except; [|apply does_ret]. apply does_bind; [by apply (does_permitted _ Send)|].
    intros [status body]. destruct (_ || _); [apply does_raise|apply does_ret].
Qed.

(** ** Handlers *)

Ltac opens H := eapply open_built_does; [one|intros ?; apply H].

Lemma deliver_does ps a phone message : Browse WHATSAPP_HOST ∈ ps → Send ∈ ps → does (tool_event ps) (deliver a phone message).
Proof using HT.
  intros Hb Hs. unfold deliver. apply does_bind.
  - unfold automatic_send. destruct (get _ a); try apply does_ret. apply does_passively, automatic_passive.
  - intros []; [by apply send_does|]. unfold open_whatsapp_compose. eapply open_built_does; [done|]. intros x. apply compose_host.
Qed.

Lemma resolved_phone_does ps a : does (tool_event ps) (resolved_phone a).
Proof using HT.
  apply does_passively. unfold resolved_phone. destruct (get _ a); try apply does_ret;
    (apply does_bind; [apply does_lift|]; intros contact; apply does_bind; [apply resolve_whatsapp_passive|intros []; apply does_ret]).
Qed.
Lemma resolved_channel_does ps a : does (tool_event ps) (resolved_channel a).
Proof using HT.
  apply does_passively. unfold resolved_channel. destruct (get _ a); try apply does_ret;
    (apply does_bind; [apply does_lift|]; intros contact; apply does_bind; [apply resolve_discord_passive|intros [[] ?]; apply does_ret]).
Qed.

Lemma apps_passive : does passive (load_apps false).
Proof using Type. unfold load_apps, _get_apps_file. repeat does_step; done. Qed.
Lemma contacts_passive : does passive load_contacts.
Proof using Type. unfold load_contacts. repeat does_step; done. Qed.

Lemma capabilities_passive : does passive get_integration_capabilities.
Proof using Type.
  unfold get_integration_capabilities. apply does_bind.
  { unfold _configured_apps. apply does_except; [|apply does_ret]. apply does_bind; [apply apps_passive|]. intros apps. cbv zeta.
    generalize INTEGRATIONS. intros l. induction l as [|i l IH]; cbn [collect]; [apply does_ret|].
    apply does_bind; [|intros; apply does_bind; [exact IH|intros; apply does_ret]].
    destruct (dget _ apps); [|apply does_ret]. apply does_bind; [|intros; apply does_ret].
    destruct (bool_decide _); [|apply does_ret]. unfold launcher_resolved, resolve_launcher. repeat does_step; done. }
  intros apps. apply does_bind.
  { destruct (_.1); [|apply does_ret]. unfold _league_client_ready. apply does_except; [|apply does_ret].
    apply does_bind; [apply find_client_passive|intros; apply does_ret]. }
  intros ready. apply does_bind.
  { unfold _configured_contact_destinations. apply does_except; [|apply does_ret].
    apply does_bind; [apply contacts_passive|intros; apply does_ret]. }
  intros [wc dc]. apply does_bind; [apply automatic_passive|]. intros a. apply does_lift.
Qed.

Lemma speakers_does ps {A} (m : M desktop A) : Speakers ∈ ps → does (tool_event ps) m → does (tool_event ps) (with_speakers m).
Proof using Type.
  intros Hp Hm. unfold with_speakers. apply does_finally; [apply does_bind; [|done]|]; by apply (does_permitted _ Speakers).
Qed.
Lemma set_volume_does ps n : Speakers ∈ ps → does (tool_event ps) (set_volume n).
Proof using Type.
  intros Hp. unfold set_volume. apply speakers_does; [done|]. apply does_bind; [|intros; apply does_ret].
  apply (does_permitted _ Speakers); [done|]. cbn. lia.
Qed.
Lemma media_does ps action : Keys ∈ ps → does (tool_event ps) (send_media_action action).
Proof using Type.
  intros Hp. unfold send_media_action. destruct (lookup_literal action MEDIA_KEYS) as [k|] eqn:E; [|apply does_raise].
  assert (k ∈ MEDIA_KEYS.*2) as Hk.
  { unfold MEDIA_KEYS in E. cbn [lookup_literal] in E.
    repeat (case_match; [injection E as <-; by apply (bool_decide_unpack _)|]). done. }
  destruct (negb windows); [apply does_raise|].
  repeat (apply does_bind; [by apply (does_permitted _ Keys)|intros _]). apply does_ret.
Qed.

(** *** One lemma per handler that is more than one operation *)

Abbreviation may n m := (does (tool_event (permitted (u n))) m).

Lemma readings_may ps : does (tool_event ps) get_system_status ∧ does (tool_event ps) get_power_status ∧
  does (tool_event ps) get_network_status.
Proof using Type.
  unfold get_system_status, get_power_status, get_network_status.
  split_and!; apply does_passively; repeat does_step; done.
Qed.
Lemma music_open_may : may "music_open"%string music_open.
Proof using HT.
  unfold music_open, open_apple_music. apply does_bind; [|intros; apply does_ret].
  apply does_bind; [by apply try_open_permitted; left|]. intros r. destruct (truthy _); [apply does_ret|opens music_browse_host].
Qed.
Lemma discord_open_app_may : may "discord_open_app"%string discord_open_app.
Proof using HT.
  unfold discord_open_app, Desktop.open_discord_app. apply does_bind; [|intros; apply does_ret].
  apply does_bind; [by apply try_open_permitted; left|]. intros r. destruct (is_true _); [apply does_ret|opens discord_app_host].
Qed.
Lemma whatsapp_open_may : may "whatsapp_open"%string whatsapp_open.
Proof using HT.
  unfold whatsapp_open, open_whatsapp_web. apply does_bind; [|intros; apply does_ret].
  apply does_bind; [by apply try_open_permitted; left|]. intros r. destruct (is_true _); [apply does_ret|opens whatsapp_web_host].
Qed.
Lemma channel_may ps c g : Browse "discord.com" ∈ ps →
  does (tool_event ps) (open_discord_channel c g) ∧ does (tool_event ps) (open_discord_call c g).
Proof using HT.
  intros Hp. unfold open_discord_channel, open_discord_call.
  split; (eapply open_built_does; [done|]; intros x; apply channel_host).
Qed.
Lemma launched_search_may queue :
  may "league_search"%string (with_client_or_launch (λ client, start_search client queue) open_league).
Proof using HT.
  unfold with_client_or_launch. eapply does_bind_value; [apply connect_value; [one|apply open_league_does; one]|].
  intros [c started] Hc. apply does_bind; [|intros; apply does_ret].
  eapply (league_permitted STARTS); [|one|by apply start_does]. intros mp Hmp. right; left. split; [one|done].
Qed.
Lemma league_search_may a : may "league_search"%string (league_search a).
Proof using HT. unfold league_search. follows_args. apply launched_search_may. Qed.
Lemma mute_may : may "audio_mute"%string mute.
Proof using Type.
  unfold mute. apply speakers_does; [one|]. apply does_bind; [by apply (does_permitted _ Speakers); [one|]|intros; apply does_ret].
Qed.
Lemma unmute_may : may "audio_unmute"%string unmute.
Proof using Type.
  unfold unmute. apply speakers_does; [one|]. apply does_bind; [by apply (does_permitted _ Speakers); [one|]|intros; apply does_ret].
Qed.
Lemma league_reads_may ps {A} (m : LeagueClientConnection → M desktop A) :
  Pause ∈ ps → (∀ c, connection_ok c → does (league_event READS) (m c)) → does (tool_event ps) (with_client m).
Proof using Type.
  intros Hp Hm. apply with_client_permitted. intros c Hc. eapply (league_permitted READS); [|done|by apply Hm]. by left.
Qed.
Lemma league_cancel_may : may "league_cancel"%string league_cancel.
Proof using Type.
  unfold league_cancel. apply with_client_permitted. intros c Hc. eapply (league_permitted CANCELS); [|one|by apply cancel_does].
  intros mp Hmp. right; right. split; [one|done].
Qed.
Lemma create_timer_may ps seconds label : does (tool_event ps) (create_timer seconds label).
Proof using Type.
  apply does_passively. unfold create_timer. destruct (timer_arguments _ _); [|apply does_raise]. repeat does_step; done.
Qed.
Lemma timer_create_may ps a : does (tool_event ps) (timer_create a).
Proof using Type.
  unfold timer_create. follows_args. destruct (get_or _ _ a); try apply does_raise. apply create_timer_may.
Qed.
Lemma timer_cancel_may ps a : does (tool_event ps) (timer_cancel a).
Proof using Type. apply does_passively. unfold timer_cancel. repeat does_step. Qed.
Lemma timer_list_may ps : does (tool_event ps) timer_list.
Proof using Type. apply does_passively. unfold timer_list. repeat does_step. Qed.
Lemma open_url_may v : may "open_url"%string (_open_url v).
Proof using Type.
  unfold _open_url. follows_args. apply does_bind; [|intros; apply does_ret]. apply open_validated_does. intros x Hx.
  exists BrowseAnywhere. split; [one|]. by eexists.
Qed.
Lemma lock_may : may "system_lock"%string lock_pc.
Proof using Type.
  unfold lock_pc. apply does_except; [|apply does_ret]. apply does_bind; [|intros; apply does_ret].
  by apply (does_permitted _ Lock); [one|].
Qed.

Lemma handlers_permitted : Forall (λ d, ∀ a, does (tool_event (permitted (Tools.name d))) (handler d a)) agent_tools.
Proof using HT.
  unfold agent_tools. rewrite Forall_fmap. unfold agent_entries.
  repeat (apply Forall_cons; split; [intros a; cbn [Tools.name handler registered entry_name run_handler safe_tool unsafe_tool]|]); [..|by apply Forall_nil].
  all: try (by apply readings_may).
  - apply does_passively, capabilities_passive.
  - unfold audio_volume. follows_args. apply set_volume_does. one.
  - apply mute_may.
  - apply unmute_may.
  - follows_args. apply media_does. one.
  - follows_args. apply open_app_permitted. one.
  - unfold open_codex. apply open_app_permitted. one.
  - unfold web_search, open_web_search. follows_args. opens web_search_host.
  - unfold music_search, open_apple_music_search. follows_args. opens music_search_host.
  - apply music_open_may.
  - apply open_league_does; one.
  - apply discord_open_app_may.
  - unfold discord_open. follows_args. apply channel_may. one.
  - unfold discord_call_channel. follows_args. apply channel_may. one.
  - unfold discord_contact. apply does_bind; [apply resolved_channel_does|intros []]. apply channel_may. one.
  - unfold discord_call. apply does_bind; [apply resolved_channel_does|intros []]. apply channel_may. one.
  - unfold whatsapp_compose. follows_args. apply deliver_does; one.
  - unfold whatsapp_contact. follows_args. apply does_bind; [apply resolved_phone_does|intros]. apply deliver_does; one.
  - unfold whatsapp_contact_open, open_whatsapp_chat. apply does_bind; [apply resolved_phone_does|intros]. opens chat_host.
  - unfold whatsapp_phone_open, open_whatsapp_chat. follows_args. opens chat_host.
  - apply whatsapp_open_may.
  - apply league_search_may.
  - unfold league_status. apply league_reads_may; [one|]. intros c. apply status_does.
  - unfold league_search_status. apply league_reads_may; [one|]. intros c Hc. apply does_bind; [by apply get_search|intros; apply does_ret].
  - unfold league_wait. follows_args. apply league_reads_may; [one|]. intros c. apply wait_does.
  - apply league_cancel_may.
  - apply lock_may.
  - apply timer_create_may.
  - apply timer_list_may.
  - apply timer_cancel_may.
  - follows_args. apply open_url_may.
Qed.

(** *** What the Core consults *)

Lemma command_lists_read : does passive get_command_catalog ∧ does passive get_command_control_catalog.
Proof using Type.
  unfold get_command_catalog, get_command_control_catalog, get_command_preferences.
  split; repeat (apply automatic_passive || apply control_passive || does_step).
Qed.

(** The validator, the summary and the preparer of the tool only read. *)
Definition consults_only (t : agent_tool) : Prop := ∀ a,
  does passive (run_validator t a) ∧
  (∀ summary, run_summary t = Some summary → does passive (summary a)) ∧
  (∀ prepare, run_preparer t = Some prepare → does passive (prepare a)).

Lemma whatsapp_summary_passive target name a : does passive (whatsapp_summary target name a).
Proof using Type. unfold whatsapp_summary. apply does_bind; [apply automatic_passive|intros]. follows_args. apply does_ret. Qed.
Lemma preparers_passive a :
  does passive (prepare_whatsapp_contact a) ∧ does passive (prepare_whatsapp_compose a) ∧ does passive (prepare_discord_contact a).
Proof using HT.
  unfold prepare_whatsapp_contact, prepare_whatsapp_compose, prepare_discord_contact. split_and!; follows_args.
  - apply does_bind; [apply resolve_whatsapp_passive|intros []]. apply does_bind; [apply automatic_passive|intros]. cbv zeta.
    destruct (dmem _ _); [|apply does_ret]. follows_args. apply does_ret.
  - apply does_bind; [apply automatic_passive|intros]. apply does_ret.
  - apply does_bind; [apply resolve_discord_passive|intros [[]]]. apply does_ret.
Qed.

Lemma entries_consult_only : Forall consults_only agent_entries.
Proof using HT.
  unfold agent_entries. repeat (apply Forall_cons; split; [intros a; split_and!|]); [..|by apply Forall_nil].
  all: try (apply does_lift).
  all: cbn [run_summary run_preparer safe_tool unsafe_tool]; intros f [= <-].
  all: try (apply does_lift); try (apply does_ret); try (apply whatsapp_summary_passive); by apply preparers_passive.
Qed.

(** *** A prepared delivery *)

(** What running a prepared message may do: its address or its recipient and
    text were fixed by the confirmation, and so was the way it goes out. *)
Definition addressed (automatic : bool) (phone message : pystr) (e : event) : Prop :=
  match e with
  | Event o =>
    match o with
    | FileExists f | ReadFile f _ => automatic = true ∧ f = ControlLocal
    | TokenVariable | ReadCredential => automatic = true
    | CloudCall _ _ body =>
      automatic = true ∧ ∃ digits, normalize_phone (VStr phone) = Ok digits ∧ body = cloud_body digits message
    | OpenBrowser url => automatic = false ∧ build_whatsapp_compose_url (VStr phone) (VStr message) = Ok url
    | _ => False
    end
  end.

Lemma compose_addressed phone message : does (addressed false phone message) (open_whatsapp_compose (VStr phone) (VStr message)).
Proof using HT.
  unfold open_whatsapp_compose, open_built.
  apply (does_bind_value _ (λ x, build_whatsapp_compose_url (VStr phone) (VStr message) = Ok x)); [by apply moves_lift; [apply _|]|].
  intros x Hx. apply does_bind; [|intros; apply does_ret]. unfold open_validated_url.
  apply (does_bind_value _ (λ y, y = x)).
  - apply moves_lift; [apply _|]. intros y Hy. apply compose_host in Hx as (_ & _ & _ & Hv). by eapply validated_visible.
  - intros y ->. apply does_bind; [|intros; apply does_ret]. apply does_except; [by apply does_call|apply does_ret].
Qed.

Lemma send_addressed phone message :
  does (addressed true phone message) (send_whatsapp_cloud_message (VStr phone) (VStr message)).
Proof using Type.
  unfold send_whatsapp_cloud_message.
  apply (does_bind_value _ (λ x, normalize_phone (VStr phone) = Ok x)); [by apply moves_lift; [apply _|]|]. intros digits Hd.
  apply (does_bind_value _ (λ x, x = message)).
  { apply moves_lift; [apply _|]. intros x Hx. apply validate_bounded_text_spec in Hx as [[= ->] _]. done. }
  intros text ->. apply does_bind.
  { unfold get_whatsapp_settings. apply does_bind; [|intros; apply does_ret]. unfold load_control_config. repeat does_step; done. }
  intros s. apply does_bind.
  { unfold get_whatsapp_access_token, _environment_access_token, _credential_manager_access_token. repeat does_step; done. }
  intros [token|]; [|apply does_ret]. destruct (_ || _); [apply does_ret|]. follows_args. apply does_except; [|apply does_ret].
  apply does_bind; [apply does_call; split; [done|by eexists]|]. intros [status body]. destruct (_ || _); [apply does_raise|apply does_ret].
Qed.

Lemma deliver_addressed automatic arguments phone message :
  get (u "_automatic_send") arguments = VBool automatic →
  does (addressed automatic phone message) (deliver arguments phone message).
Proof using HT.
  intros Ha. unfold deliver, automatic_send. rewrite Ha.
  change (does (addressed automatic phone message)
    (if automatic then send_whatsapp_cloud_message (VStr phone) (VStr message) else open_whatsapp_compose (VStr phone) (VStr message))).
  destruct automatic; [apply send_addressed|apply compose_addressed].
Qed.

Abbreviation prepared_items phone automatic message :=
  [(u "_resolved_phone", VStr phone); (u "_automatic_send", VBool automatic); (u "message", VStr message)].

Lemma text_stripped arguments name s : _text arguments name = Ok s → strip s = s ∧ s ≠ [].
Proof using Type.
  unfold _text. destruct (get _ arguments) as [| | | |v| |]; try done. destruct (nonempty (strip v)) eqn:En; [|done].
  intros [= <-]. split; [by apply strip_idemp|by apply nonempty_ne].
Qed.

Lemma prepared_addressed phone automatic message :
  strip message = message → message ≠ [] →
  does (addressed automatic phone message) (whatsapp_contact (prepared_items phone automatic message)).
Proof using HT.
  intros Hs Hne. unfold whatsapp_contact.
  apply (does_bind_value _ (λ x, x = message)).
  - apply moves_lift; [apply _|]. intros x. unfold _text. change (get (u "message") _) with (VStr message). cbv iota. rewrite Hs.
    apply nonempty_ne in Hne as ->. by intros [= <-].
  - intros x ->. apply (does_bind_value _ (λ x, x = phone)); [by apply moves_ret; [apply _|]|]. intros y ->.
    by apply deliver_addressed.
Qed.

(** A tool that runs unasked has only harmless permissions. *)
Lemma safe_tools_harmless :
  Forall (λ d, unsafe d = false → Forall (λ p, harmless p = true) (permitted (Tools.name d))) agent_tools.
Proof using Type.
  unfold agent_tools. rewrite Forall_fmap. unfold agent_entries.
  repeat (apply Forall_cons; split; [intros Hu; try discriminate Hu; by repeat constructor|]). by apply Forall_nil.
Qed.

(** ** The properties *)

(** C12: a tool does nothing but what its entry of the table of permissions
    allows, whatever the machine answers: besides passive readings, a safe tool
    moves the volume within its range, presses a media key or waits; an unsafe
    one starts an allowlisted command line, opens an address on its own host,
    posts to the messaging service, sends its one kind of request to the
    client or locks the station.  No tool writes a file or a credential. *)
Theorem agent_tool_effects d arguments w w' r :
  d ∈ agent_tools → handler d arguments w = (w', r) →
  ∃ new, events w' = new ++ events w ∧ Forall (tool_event (permitted (Tools.name d))) new ∧
    (unsafe d = false → Forall (λ p, harmless p = true) (permitted (Tools.name d))).
Proof using HT.
  intros Hd Hr. pose proof handlers_permitted as Hp. rewrite Forall_forall in Hp.
  destruct (does_run _ _ w (Hp d Hd arguments)) as (new & Hn & Hf). rewrite Hr in Hn. exists new. split_and!; [done..|].
  pose proof safe_tools_harmless as Hs.
  rewrite Forall_forall in Hs. by apply Hs.
Qed.

(** C13: a confirmed message is the message that was prepared.  Once a message
    to a contact is prepared, running it later, in whatever state the machine
    is by then, reads the contacts no more: it addresses the number the alias
    had and the text that was asked for, through the service only if messages
    were sent automatically at that time, else as a chat the user sends.  The
    code resolves an alias once, before the confirmation; SECURITY.md says the
    alias is validated again when the confirmation is consumed. *)
Theorem prepared_message_frozen arguments prepared w w1 w2 w3 r :
  prepare_whatsapp_contact arguments w = (w1, Ok (VDict prepared)) → dmem (u "message") arguments = true →
  whatsapp_contact prepared w2 = (w3, r) →
  ∃ contact message name phone wr automatic,
    _text arguments "contact" = Ok contact ∧ _text arguments "message" = Ok message ∧
    (resolve_whatsapp_contact contact w) = (wr, Ok (name, phone)) ∧ (whatsapp_automatic_send_active wr).2 = Ok automatic ∧
    ∃ new, events w3 = new ++ events w2 ∧ Forall (addressed automatic phone message) new.
Proof using HT.
  intros Hprep Hm Hrun. unfold prepare_whatsapp_contact, lift, mbind, M_bind in Hprep.
  destruct (_text arguments "contact") as [contact|] eqn:Ec; [|done].
  destruct (resolve_whatsapp_contact contact w) as [wr [[name phone]|]] eqn:Er; [|done].
  destruct (whatsapp_automatic_send_active wr) as [wa [automatic|]] eqn:Ea; [|done]. cbv zeta in Hprep. rewrite Hm in Hprep.
  destruct (_text arguments "message") as [message|] eqn:Em; [|done]. injection Hprep as _ <-.
  exists contact, message, name, phone, wr, automatic. rewrite Ea. split_and!; try done.
  apply text_stripped in Em as [Hs Hne].
  destruct (does_run _ _ w2 (prepared_addressed phone automatic message Hs Hne)) as (new & Hn & Hf).
  cbn [app] in Hrun. rewrite Hrun in Hn. by exists new.
Qed.
End Facts.

(** ** Samples *)

Definition sample_content (v : value) : option bytes := match JsonIndent.indent_bytes v with Ok b => Some b | Raise _ => None end.
Definition agent_files (f : config_file) : option bytes :=
  match f with
  | AppsLocal => sample_content sample_apps
  | ContactsLocal => sample_content sample_contacts
  | _ => None
  end.
Definition agent_machine : Machine := sample_machine agent_files no_league.

Section Samples.
Local Instance sample_categories : UnicodeCategories := plain_categories.
Local Instance sample_urls : UrlData := plain_urls.
Local Instance sample_text : UnicodeText := ascii_text.
Local Instance sample_world : Machine := agent_machine.

Definition tool_named (n : literal) : option (ToolDefinition desktop) :=
  List.find (λ d, bool_decide (Tools.name d = u n)) agent_tools.
Arguments tool_named n%_string_scope.

Lemma agent_tool_effects_witness :
  ∃ d new, tool_named "open_codex" = Some d ∧ events (handler d [] start).1 = new ++ [] ∧
    Forall (tool_event (permitted (Tools.name d))) new ∧
    (unsafe d = false → Forall (λ p, harmless p = true) (permitted (Tools.name d))).
Proof.
  destruct (tool_named "open_codex") as [d|] eqn:E; [|discriminate E]. exists d.
  destruct (agent_tool_effects (HT := ascii_text_laws) d [] start _ _
    (proj2 (list_elem_of_In _ _) (proj1 (find_some _ _ E))) (surjective_pairing _)) as (new & H1 & H2 & H3).
  exists new. exact (conj eq_refl (conj H1 (conj H2 H3))).
Defined.

Definition message_arguments : object := [(u "contact", VStr (u " Hermana")); (u "message", VStr (u "Llego tarde"))].
Definition message_prepared : object := match (prepare_whatsapp_contact message_arguments start).2 with Ok (VDict d) => d | _ => [] end.

Lemma prepared_message_frozen_witness :
  get (u "_resolved_phone") message_prepared = VStr (u "34600123456") ∧
  ∃ contact message name phone wr automatic,
    _text message_arguments "contact" = Ok contact ∧ _text message_arguments "message" = Ok message ∧
    resolve_whatsapp_contact contact start = (wr, Ok (name, phone)) ∧ (whatsapp_automatic_send_active wr).2 = Ok automatic ∧
    ∃ new, events (whatsapp_contact message_prepared start).1 = new ++ [] ∧ Forall (addressed automatic phone message) new.
Proof.
  split; [by vm_compute|].
  apply (prepared_message_frozen (HT := ascii_text_laws) message_arguments message_prepared start
    (prepare_whatsapp_contact message_arguments start).1 start _ (whatsapp_contact message_prepared start).2).
  - by vm_compute.
  - by vm_compute.
  - apply surjective_pairing.
Defined.

(** The chat is opened for the number of the contact, with the text. *)
Example prepared_chat :
  head (events (whatsapp_contact message_prepared start).1) =
    Some (Event (OpenBrowser (u "https://wa.me/34600123456?text=Llego+tarde"))).
Proof. by vm_compute. Qed.

(** The arguments each contract accepts and refuses. *)
Example argument_contracts :
  forallb (λ a, is_ok (_argument_schema whatsapp_compose_arguments a))
    [[(u "phone", VStr (u "+34 600 123 456")); (u "message", VStr (u "Hola"))]] &&
  forallb (λ a, negb (is_ok (_argument_schema whatsapp_compose_arguments a)))
    [[]; [(u "phone", VStr (u "600"))]; [(u "phone", VStr (u "12")); (u "message", VStr (u "Hola"))];
     [(u "phone", VStr (u "34600123456")); (u "message", VStr (u "Hola")); (u "_automatic_send", VBool true)]] &&
  forallb (λ a, negb (is_ok (_argument_schema volume_arguments a)))
    [[(u "percent", VBool true)]; [(u "percent", VInt 101)]; [(u "percent", VInt (-1))]] &&
  is_ok (_argument_schema volume_arguments [(u "percent", VInt 100)]) = true.
Proof. by vm_compute. Qed.
End Samples.
