(* ===== verification/CatalogIntents.v ===== *)
(** * Catalog phrases: [parse_catalog_intent] of [backend/pipa_core/intents.py]

    A command of the editable catalog is a phrase with placeholders.  The
    matcher turns the phrase into a pattern, matches the text of the user and
    checks the value of every placeholder against its parameter.  [says] is
    what a phrase means, without patterns; [catalog_phrase_exact] shows that
    the pattern of a phrase matches exactly the texts that say it. *)
From S2P Require Import Prelude Dict Value TextPolicy PyText Regex Core Intents IntentFacts.

Section CatalogIntents.
Context `{UnicodeText}.

(** [re.finditer(pattern, text)] as the spans of the matches. *)
Definition re_finditer (pattern text : pystr) : result (list (nat * nat)) :=
  match compile pattern with Some r => Ok (finditer false r 0 0 text) | None => Raise PatternError end.

Definition PLACEHOLDER : literal := "<[^<>]+>"%string.

(** [re.split] with the separators kept, every piece escaped or generalized. *)
Definition _catalog_literal_pattern (v : pystr) : result pystr :=
  spans ← re_finditer (u "(\s+)") v;
  Ok (concat ((λ part, if all_space part then u "\s+" else re_escape part) <$> split_at 0 spans v)).

(** ** The value of a placeholder *)

(** [value in options] *)
Fixpoint infix_of (w s : pystr) : bool :=
  startswith w s || match s with [] => false | _ :: s' => infix_of w s' end.
Definition among_options (v : pystr) (options : value) : result bool :=
  match options with
  | VList l => Ok (existsb (λ x, eq_str x v) l)
  | VStr s => Ok (infix_of v s)
  | VDict d => Ok (dmem v d)
  | _ => Raise TypeError
  end.

(** [isinstance(maximum, int)]: a truth value is an integer. *)
Definition maximum_of (v : value) : option Z :=
  match v with VInt z => Some z | VBool b => Some (if b then 1 else 0) | _ => None end.

(** [kind in {...}]: a list or a dictionary has no hash. *)
Definition in_set (kind : value) (set : list literal) : result bool :=
  match kind with
  | VList _ | VDict _ => Raise TypeError
  | VStr s => Ok (one_of s set)
  | _ => Ok false
  end.

(** [re.fullmatch(pattern, value) is None] *)
Definition not_matching (ignore_case : bool) (pattern v : pystr) : result bool :=
  m ← re_fullmatch ignore_case pattern v; Ok (match m with Some _ => false | None => true end).

Definition SNOWFLAKE_PATTERN : literal := "[0-9]{17,20}"%string.
Definition URL_PATTERN : literal := "https?://\S+"%string.

(** The bounds every value meets, in the order of the tests. *)
Definition refused (v : pystr) (maximum options : value) : result bool :=
  if negb (nonempty v) then Ok true
  else match maximum_of maximum with
  | None => Ok true
  | Some n =>
    match utf8_encode v with
    | None => Raise UnicodeEncodeError
    | Some b =>
      if n <? len b then Ok true
      else if truthy options then (found ← among_options v options; Ok (negb found))
      else Ok false
    end
  end.

Definition _catalog_value (v : pystr) (parameter : object) : result (option value) :=
  let v := strip v in
  let kind := get (u "kind") parameter in
  no ← refused v (get (u "max_length") parameter) (get_or (u "options") (VList []) parameter);
  if no : bool then Ok None
  else if eq_str kind (u "integer") then
    match int_of_text v with
    | Ok n => Ok (Some (VInt n))
    | Raise e => if caught e [ValueError] then Ok None else Raise e
    end
  else
    no ← if eq_str kind (u "phone") then not_matching false (u PHONE_PATTERN) v else Ok false;
    if no : bool then Ok None
    else
      channel ← in_set kind ["channel_id"; "guild_id"]%string;
      no ← if channel : bool then not_matching false (u SNOWFLAKE_PATTERN) v else Ok false;
      if no : bool then Ok None
      else
        no ← if eq_str kind (u "url") then not_matching true (u URL_PATTERN) v else Ok false;
        if no : bool then Ok None else Ok (Some (VStr v)).

(** ** One command *)

(** The pattern of a phrase: a lazy group for every placeholder. *)
Fixpoint phrase_pattern (cursor : nat) (placeholders : list (nat * nat)) (phrase : pystr) : result pystr :=
  match placeholders with
  | [] => _catalog_literal_pattern (drop cursor phrase)
  | (i, j) :: rest =>
    piece ← _catalog_literal_pattern (between cursor i phrase);
    pattern ← phrase_pattern j rest phrase;
    Ok (piece ++ u "(.+?)" ++ pattern)
  end.

Definition TYPED_KINDS : list literal := ["phone"; "integer"; "channel_id"; "guild_id"; "url"]%string.

(** The loop over the parameters and the groups of the match. *)
Fixpoint fill_arguments (parameters : list value) (n : nat) (g : list (nat * pystr))
  (arguments : object) (specificity : Z) : result (option (object * Z)) :=
  match parameters with
  | [] => Ok (Some (arguments, specificity))
  | VDict parameter :: rest =>
    match get (u "name") parameter with
    | VStr name =>
      raw_value ← group_text n g;
      v ← _catalog_value raw_value parameter;
      match v with
      | None => Ok None
      | Some v =>
        typed ← in_set (get (u "kind") parameter) TYPED_KINDS;
        fill_arguments rest (S n) g (dset name v arguments) (if typed : bool then specificity + 50 else specificity)
      end
    | _ => Ok None
    end
  | _ :: _ => Ok None
  end.

Definition candidate (original : pystr) (command : value) : result (option (Z * ParsedIntent)) :=
  match command with
  | VDict command =>
    match get (u "phrase") command, get (u "tool_name") command, get_or (u "parameters") (VList []) command with
    | VStr phrase, VStr tool_name, VList parameters =>
      placeholders ← re_finditer (u PLACEHOLDER) phrase;
      pattern ← phrase_pattern 0 placeholders phrase;
      m ← re_fullmatch true pattern original;
      match m with
      | None => Ok None
      | Some g =>
        if negb (length placeholders =? length parameters)%nat then Ok None
        else
          let specificity := len (concat (outside 0 placeholders phrase)) in
          filled ← fill_arguments parameters 1 g [] specificity;
          match filled with
          | None => Ok None
          | Some (arguments, specificity) =>
            match get (u "default_arguments") command with
            | VNone => Ok (Some (specificity, mkIntent tool_name arguments))
            | VDict default_arguments =>
              if nonempty arguments then Ok None
              else Ok (Some (specificity, mkIntent tool_name default_arguments))
            | _ => Ok None
            end
          end
      end
    | _, _, _ => Ok None
    end
  | _ => Raise AttributeError
  end.

(** [max(candidates, key=...)]: the first of the most specific. *)
Fixpoint most_specific (best : Z * ParsedIntent) (l : list (Z * ParsedIntent)) : Z * ParsedIntent :=
  match l with
  | [] => best
  | c :: l' => most_specific (if best.1 <? c.1 then c else best) l'
  end.

Definition parse_catalog_intent (text : pystr) (commands : value) : result (option ParsedIntent) :=
  let original := original_text text in
  if negb (nonempty original) then Ok None
  else
    commands ← py_tuple commands;
    found ← traverse (candidate original) commands;
    Ok (match omap id found with
        | [] => None
        | c :: candidates => Some (most_specific c candidates).2
        end).
End CatalogIntents.

(** ** What a phrase means *)

(** A phrase is read as characters to say, white space and placeholders. *)
Inductive part := Exact (c : Z) | Blank | Hole.

Definition leads_space (s : pystr) : bool := match s with c :: _ => is_space c | [] => false end.

(** A run of white space is one [Blank]. *)
Fixpoint literal_parts (s : pystr) : list part :=
  match s with
  | [] => []
  | c :: s' =>
    if is_space c then (if leads_space s' then literal_parts s' else Blank :: literal_parts s')
    else Exact c :: literal_parts s'
  end.

Fixpoint parts_between (cursor : nat) (placeholders : list (nat * nat)) (phrase : pystr) : list part :=
  match placeholders with
  | [] => literal_parts (drop cursor phrase)
  | (i, j) :: rest => literal_parts (between cursor i phrase) ++ Hole :: parts_between j rest phrase
  end.

Definition placeholders_of `{UnicodeText} (phrase : pystr) : list (nat * nat) :=
  ok_or [] (re_finditer (u PLACEHOLDER) phrase).
Definition phrase_parts `{UnicodeText} (phrase : pystr) : list part :=
  parts_between 0 (placeholders_of phrase) phrase.

(** [says parts text values]: [text] says the parts, the placeholders filled
    with [values]; letters match in either case, a blank is any white space
    and a value is a text of one line. *)
Inductive says `{UnicodeText} : list part → pystr → list pystr → Prop :=
| says_nil : says [] [] []
| says_exact c d ps t vs : item_match true (One c) d = true → says ps t vs → says (Exact c :: ps) (d :: t) vs
| says_blank w ps t vs : w ≠ [] → Forall (λ c, is_space c = true) w → says ps t vs → says (Blank :: ps) (w ++ t) vs
| says_hole v ps t vs : v ≠ [] → 10 ∉ v → says ps t vs → says (Hole :: ps) (v ++ t) (v :: vs).

(** ** The pattern of a phrase *)

Section Pattern.
Context `{T : UnicodeText}.

Definition part_pattern (p : part) : pystr :=
  match p with Exact c => re_escape [c] | Blank => u "\s+" | Hole => u "(.+?)" end.
Definition render (ps : list part) : pystr := concat (part_pattern <$> ps).

Lemma render_app ps qs : render (ps ++ qs) = render ps ++ render qs.
Proof using Type. unfold render. by rewrite fmap_app, concat_app. Qed.

Lemma re_escape_app a b : re_escape (a ++ b) = re_escape a ++ re_escape b.
Proof using Type. unfold re_escape. by rewrite fmap_app, concat_app. Qed.

(** *** Splitting at white space *)

Definition blank_regex : regex := Group 1 (Rep true 1 None (Set_ false [Space])).

Lemma blank_ends w t i lo :
  Forall (λ c, is_space c = true) w → leads_space t = false → (lo <= length w)%nat →
  head (rep_ends (atom_match false (Set_ false [Space])) true lo None i (w ++ t)) = Some ((i + length w)%nat, t).
Proof using Type.
  revert lo i. induction w as [|c w IH]; intros lo i Hw Ht Hlo.
  - cbn in Hlo. assert (lo = 0%nat) as -> by lia. rewrite Nat.add_0_r. destruct t as [|c t]; [done|].
    cbn in Ht. cbn. by rewrite Ht.
  - apply Forall_cons in Hw as [Hc Hw]. cbn [app rep_ends at_most fmap option_fmap option_map andb].
    assert (atom_match false (Set_ false [Space]) c = true) as -> by (cbn; by rewrite Hc).
    specialize (IH (pred lo) (S i) Hw Ht ltac:(cbn in Hlo; lia)).
    replace (i + length (c :: w))%nat with (S i + length w)%nat by (cbn; lia).
    destruct (rep_ends _ _ (pred lo) None (S i) (w ++ t)); [done|]. exact IH.
Qed.

Lemma blank_here w t i :
  w ≠ [] → Forall (λ c, is_space c = true) w → leads_space t = false →
  ∃ q, head (run false blank_regex (At i (w ++ t) [])) = Some q ∧ index q = (i + length w)%nat.
Proof using Type.
  intros Hne Hw Ht. pose proof (blank_ends w t i 1 Hw Ht ltac:(destruct w; cbn; [done|lia])) as Hh.
  unfold blank_regex. cbn [run index ahead]. destruct (rep_ends _ _ _ _ _ _) as [|e es]; [done|].
  injection Hh as ->. cbn. by eexists.
Qed.

Lemma blank_nowhere c s i :
  is_space c = false → head (run false blank_regex (At i (c :: s) [])) = None.
Proof using Type. intros Hc. unfold blank_regex. cbn. by rewrite Hc. Qed.

Lemma finditer_skip r i k s : (k <= length s)%nat →
  finditer false r i k s = finditer false r (i + k) 0 (drop k s).
Proof using Type.
  revert i k. induction s as [|c s IH]; intros i k Hk.
  - cbn in Hk. assert (k = 0%nat) as -> by lia. by rewrite Nat.add_0_r.
  - destruct k as [|k]; [by rewrite Nat.add_0_r|]. cbn [finditer pred drop].
    rewrite IH by (cbn in Hk; lia). f_equal. lia.
Qed.

Lemma finditer_blank w t i :
  w ≠ [] → Forall (λ c, is_space c = true) w → leads_space t = false →
  finditer false blank_regex i 0 (w ++ t) = (i, (i + length w)%nat) :: finditer false blank_regex (i + length w) 0 t.
Proof using Type.
  intros Hne Hw Ht. destruct (blank_here w t i Hne Hw Ht) as (q & Hq & Hi).
  destruct w as [|c w]; [done|]. cbn [app finditer] in *. rewrite Hq, Hi. f_equal.
  rewrite finditer_skip by (rewrite length_app; cbn; lia). f_equal; [cbn; lia|].
  replace (i + length (c :: w) - i - 1)%nat with (length w) by (cbn; lia). by rewrite drop_app_length.
Qed.

(** White space at the front, and the rest. *)
Lemma space_prefix s : ∃ w t, s = w ++ t ∧ Forall (λ c, is_space c = true) w ∧ leads_space t = false ∧
  (leads_space s = true → w ≠ []).
Proof using Type.
  induction s as [|c s (w & t & -> & Hw & Ht & _)]; [by exists [], []|].
  destruct (is_space c) eqn:E.
  - exists (c :: w), t. split_and!; [done|by constructor|done|done].
  - exists [], (c :: w ++ t). split_and!; [done|constructor|by cbn|]. cbn. congruence.
Qed.

Lemma literal_parts_blank w t :
  w ≠ [] → Forall (λ c, is_space c = true) w → leads_space t = false →
  literal_parts (w ++ t) = Blank :: literal_parts t.
Proof using Type.
  intros Hne Hw Ht. induction w as [|c w IH]; [done|]. apply Forall_cons in Hw as [Hc Hw].
  cbn [app literal_parts]. rewrite Hc. destruct w as [|d w]; cbn [app leads_space] in *; [by rewrite Ht|].
  apply Forall_cons in Hw as [Hd Hw]. rewrite Hd. apply IH; [done|by constructor].
Qed.

Definition generalize_part (p : pystr) : pystr := if all_space p then u "\s+" else re_escape p.

Lemma generalize_visible p : Forall (λ c, is_space c = false) p → generalize_part p = re_escape p.
Proof using Type.
  intros Hp. unfold generalize_part, all_space. destruct Hp as [|c p Hc _]; [done|]. cbn. by rewrite Hc.
Qed.

Lemma generalize_blank w : w ≠ [] → Forall (λ c, is_space c = true) w → generalize_part w = u "\s+".
Proof using Type.
  intros Hne Hw. unfold generalize_part, all_space. rewrite (proj2 (nonempty_ne w)) by done.
  assert (forallb is_space w = true) as ->; [|done]. apply forallb_forall. intros c Hc%list_elem_of_In.
  by eapply Forall_forall in Hw.
Qed.

(** The pieces of the split, from a point [p] characters after the last
    separator. *)
Lemma split_parts n pre p s :
  (length s <= n)%nat → Forall (λ c, is_space c = false) p →
  concat (generalize_part <$> split_at (length pre)
            (finditer false blank_regex (length pre + length p) 0 s) (pre ++ p ++ s))
  = re_escape p ++ render (literal_parts s).
Proof using Type.
  revert pre p s. induction n as [|n IH]; intros pre p s Hn Hp.
  { destruct s; [|cbn in Hn; lia]. cbn [finditer run blank_regex rep_ends ahead index fmap list_fmap app at_most andb].
    cbn [head split_at fmap list_fmap concat]. rewrite !app_nil_r, drop_app_length. by apply generalize_visible. }
  destruct (leads_space s) eqn:Es.
  - destruct (space_prefix s) as (w & t & -> & Hw & Ht & Hne). specialize (Hne Es).
    rewrite finditer_blank, literal_parts_blank by done. cbn [split_at fmap list_fmap concat].
    assert (between (length pre) (length pre + length p) (pre ++ p ++ w ++ t) = p) as ->.
    { unfold between. rewrite drop_app_length, Nat.add_sub', take_app_length. done. }
    assert (between (length pre + length p) (length pre + length p + length w) (pre ++ p ++ w ++ t) = w) as ->.
    { unfold between. rewrite app_assoc, <- length_app, drop_app_length, Nat.add_sub', take_app_length. done. }
    rewrite generalize_visible, generalize_blank by done. f_equal. unfold render at 1. cbn [fmap list_fmap concat part_pattern]. f_equal.
    specialize (IH (pre ++ p ++ w) [] t). cbn [length app] in IH. rewrite Nat.add_0_r, <- !app_assoc, !length_app in IH.
    rewrite Nat.add_assoc in IH. rewrite IH; [done| |constructor].
    rewrite length_app in Hn. destruct w; [done|cbn in Hn; lia].
  - destruct s as [|c s].
    { cbn [finditer run blank_regex rep_ends ahead index fmap list_fmap app at_most andb].
      cbn [head split_at fmap list_fmap concat]. rewrite !app_nil_r, drop_app_length. by apply generalize_visible. }
    cbn [leads_space] in Es. cbn [finditer]. rewrite blank_nowhere by done. cbn [pred literal_parts]. rewrite Es.
    specialize (IH pre (p ++ [c]) s). rewrite length_app, <- app_assoc in IH. cbn [length app] in IH.
    replace (length pre + (length p + 1))%nat with (S (length pre + length p)) in IH by lia.
    rewrite IH; [|cbn in Hn; lia|apply Forall_app; split; [done|by repeat constructor]].
    rewrite re_escape_app, <- app_assoc. done.
Qed.

Lemma literal_pattern v : _catalog_literal_pattern v = Ok (render (literal_parts v)).
Proof using Type.
  unfold _catalog_literal_pattern, re_finditer.
  assert (compile (u "(\s+)") = Some blank_regex) as -> by by vm_compute.
  cbn [mbind result_bind]. f_equal. exact (split_parts (length v) [] [] v ltac:(done) ltac:(constructor)).
Qed.

Lemma phrase_pattern_parts cursor placeholders phrase :
  phrase_pattern cursor placeholders phrase = Ok (render (parts_between cursor placeholders phrase)).
Proof using Type.
  revert cursor. induction placeholders as [|[i j] l IH]; intros cursor; cbn [phrase_pattern parts_between];
    rewrite literal_pattern; [done|]. cbn [mbind result_bind]. rewrite IH, render_app. done.
Qed.
End Pattern.

(** *** Reading the pattern back *)

Section Compile.
Context `{T : UnicodeText}.

(** The expressions of the parts; [n] numbers the next group. *)
Fixpoint part_regexes (n : nat) (ps : list part) : list regex :=
  match ps with
  | [] => []
  | Exact c :: ps => Chr (Lit c) :: part_regexes n ps
  | Blank :: ps => Rep true 1 None (Set_ false [Space]) :: part_regexes n ps
  | Hole :: ps => Group n (Rep false 1 None Dot) :: part_regexes (S n) ps
  end.

Lemma escape_char c : re_escape [c] = if bool_decide (c ∈ special_chars) then [92; c] else [c].
Proof using Type. unfold re_escape. cbn. by case_bool_decide. Qed.

Lemma special_escapes c : c ∈ special_chars → escape c = Some (Lit c).
Proof using Type.
  intros Hc. assert (Forall (λ c, escape c = Some (Lit c)) special_chars) as Hf by (repeat constructor).
  by eapply Forall_forall in Hf.
Qed.

(** An ordinary character is none of those the reader looks for. *)
Lemma ordinary_char c : c ∉ special_chars →
  Forall (λ d, (c =? d) = false) [41; 124; 40; 94; 36; 46; 91; 92] ∧ quantifier_char c = false.
Proof using Type.
  intros Hc. assert (∀ d, d ∈ special_chars → (c =? d) = false) as Hne.
  { intros d Hd. apply Z.eqb_neq. by intros ->. }
  split; [|unfold quantifier_char; rewrite !orb_false_iff; split_and!; apply Hne; by apply (bool_decide_unpack _)].
  repeat constructor; apply Hne; by apply (bool_decide_unpack _).
Qed.

Lemma render_no_quantifier ps : starts_quantifier (render ps) = false.
Proof using Type.
  destruct ps as [|[c| |] ps]; [done| |done|done]. unfold render. cbn [fmap list_fmap concat part_pattern].
  rewrite escape_char. case_bool_decide as Hc; [done|]. cbn. by apply ordinary_char in Hc as [_ Hc].
Qed.

Lemma quantify_plain a ps : quantify_atom a (render ps) = Some (Chr a, render ps).
Proof using Type. unfold quantify_atom. by rewrite render_no_quantifier. Qed.

Lemma render_no_lazy ps : match render ps with c :: k' => if c =? 63 then (false, k') else (true, render ps) | [] => (true, render ps) end
  = (true, render ps).
Proof using Type.
  pose proof (render_no_quantifier ps) as Hq. destruct (render ps) as [|c k]; [done|].
  unfold starts_quantifier, quantifier_char in Hq. by destruct (c =? 63).
Qed.

Lemma quantify_blank ps : quantify_atom (Set_ false [Space]) (43 :: render ps)
  = Some (Rep true 1 None (Set_ false [Space]), render ps).
Proof using Type.
  unfold quantify_atom. cbn [starts_quantifier quantifier_char Z.eqb orb Pos.eqb read_bounds mbind option_bind].
  rewrite render_no_lazy, render_no_quantifier. done.
Qed.

Lemma quantify_hole r ps : quantify_group r (render ps) = Some (r, render ps).
Proof using Type.
  pose proof (render_no_quantifier ps) as Hq. destruct (render ps) as [|c k]; [done|]. cbn in Hq |- *.
  rewrite Hq. unfold quantifier_char in Hq. by destruct (c =? 63).
Qed.

Lemma read_end fuel n here :
  read (S fuel) n [] here [] = Some (sequence (reverse here), n, []).
Proof using Type. done. Qed.

(** One part is read as its expression. *)
Lemma read_exact fuel n here c ps :
  read (S fuel) n [] here (part_pattern (Exact c) ++ render ps) = read fuel n [] (Chr (Lit c) :: here) (render ps).
Proof using Type.
  cbn [part_pattern]. rewrite escape_char. case_bool_decide as Hc.
  - cbn [app read Z.eqb Pos.eqb]. rewrite special_escapes by done. cbn [mbind option_bind].
    by rewrite quantify_plain.
  - apply ordinary_char in Hc as [Hf Hq]. repeat (apply Forall_cons in Hf as [-> Hf] || fail).
    rewrite !Forall_cons in Hf. destruct Hf as (E1 & E2 & E3 & E4 & E5 & E6 & E7 & E8 & _).
    cbn [app read]. rewrite E1, E2, E3, E4, E5, E6, E7, E8, Hq. cbn [mbind option_bind]. by rewrite quantify_plain.
Qed.

Lemma read_blank fuel n here ps :
  read (S fuel) n [] here (part_pattern Blank ++ render ps)
  = read fuel n [] (Rep true 1 None (Set_ false [Space]) :: here) (render ps).
Proof using Type.
  change (part_pattern Blank ++ render ps) with (92 :: 115 :: 43 :: render ps).
  cbn [read Z.eqb Pos.eqb]. change (escape 115) with (Some (Set_ false [Space])). cbn [mbind option_bind].
  by rewrite quantify_blank.
Qed.

Lemma read_hole fuel n here ps :
  read (S (S (S fuel))) n [] here (part_pattern Hole ++ render ps)
  = read (S (S fuel)) (S n) [] (Group n (Rep false 1 None Dot) :: here) (render ps).
Proof using Type.
  change (part_pattern Hole ++ render ps) with (40 :: 46 :: 43 :: 63 :: 41 :: render ps).
  assert (read (S (S fuel)) (S n) [] [] (46 :: 43 :: 63 :: 41 :: render ps)
    = Some (Rep false 1 None Dot, S n, 41 :: render ps)) as Hin by done.
  remember (S (S fuel)) as f eqn:Ef. cbn [read].
  change (40 =? 41) with false. change (40 =? 124) with false. change (40 =? 40) with true. cbv iota.
  change (startswith [63; 58] (46 :: 43 :: 63 :: 41 :: render ps)) with false.
  change (startswith [63] (46 :: 43 :: 63 :: 41 :: render ps)) with false. cbv iota.
  rewrite Hin. cbn [mbind option_bind]. change (41 =? 41) with true. cbv iota. by rewrite quantify_hole.
Qed.

Lemma read_parts fuel n here ps :
  (length (render ps) < fuel)%nat →
  ∃ n', read fuel n [] here (render ps) = Some (sequence (reverse here ++ part_regexes n ps), n', []).
Proof using Type.
  revert fuel n here. induction ps as [|p ps IH]; intros fuel n here Hf.
  - destruct fuel as [|fuel]; [cbn in Hf; lia|]. exists n. cbn [part_regexes]. by rewrite app_nil_r.
  - change (render (p :: ps)) with (part_pattern p ++ render ps) in *. rewrite length_app in Hf.
    destruct p as [c| |].
    + assert (1 <= length (part_pattern (Exact c)))%nat.
      { cbn [part_pattern]. rewrite escape_char. case_bool_decide; cbn; lia. }
      destruct fuel as [|fuel]; [lia|]. rewrite read_exact.
      destruct (IH fuel n (Chr (Lit c) :: here)) as [n' ->]; [lia|]. exists n'. by rewrite reverse_cons, <- app_assoc.
    + change (length (part_pattern Blank)) with 3%nat in Hf. destruct fuel as [|fuel]; [lia|]. rewrite read_blank.
      destruct (IH fuel n (Rep true 1 None (Set_ false [Space]) :: here)) as [n' ->]; [lia|].
      exists n'. by rewrite reverse_cons, <- app_assoc.
    + change (length (part_pattern Hole)) with 5%nat in Hf. destruct fuel as [|[|[|fuel]]]; [lia..|]. rewrite read_hole.
      destruct (IH (S (S fuel)) (S n) (Group n (Rep false 1 None Dot) :: here)) as [n' ->]; [lia|].
      exists n'. by rewrite reverse_cons, <- app_assoc.
Qed.

Lemma compile_render ps : compile (render ps) = Some (sequence (part_regexes 1 ps)).
Proof using Type. unfold compile. by destruct (read_parts (S (length (render ps))) 1 [] ps) as [n' ->]; [lia|]. Qed.

(** *** Matching the pattern *)

(** The groups of a match, the last first, for values numbered from [n]. *)
Fixpoint numbered (n : nat) (vs : list pystr) (g : list (nat * pystr)) : list (nat * pystr) :=
  match vs with [] => g | v :: vs' => numbered (S n) vs' ((n, v) :: g) end.

Lemma matches_sequence r l p q :
  Matches true (sequence (r :: l)) p q ↔ ∃ o, Matches true r p o ∧ Matches true (sequence l) o q.
Proof using Type.
  destruct l as [|r' l]; cbn [sequence].
  - split; [intros Hm; exists q; split; [done|constructor]|]. intros (o & Hm & Ho). by inversion Ho; subst.
  - split; [inversion 1; subst; by eexists|]. intros (o & Hm & Ho). by econstructor.
Qed.

Lemma dot_line w : Forall (λ c, atom_match true Dot c = true) w ↔ 10 ∉ w.
Proof using Type.
  induction w as [|c w IH]; [split; [intros _; apply not_elem_of_nil|constructor]|].
  rewrite Forall_cons, IH, not_elem_of_cons. cbn. rewrite negb_true_iff, Z.eqb_neq. split; intros []; split; congruence.
Qed.

Lemma blank_chars w : Forall (λ c, atom_match true (Set_ false [Space]) c = true) w ↔ Forall (λ c, is_space c = true) w.
Proof using Type. apply Forall_iff. intros c. cbn. by rewrite orb_false_r. Qed.

Lemma at_least_one (w : pystr) : (1 <= length w)%nat ↔ w ≠ [].
Proof using Type. destruct w; cbn; split; try done; intros; lia. Qed.

Lemma matches_parts n ps i t s g g' :
  Matches true (sequence (part_regexes n ps)) (At i (t ++ s) g) (At (i + length t) s g') ↔
  ∃ vs, says ps t vs ∧ g' = numbered n vs g.
Proof using Type.
  revert n i t g. induction ps as [|p ps IH]; intros n i t g.
  - cbn. split.
    + intros Hm. inversion Hm. exists []. split; [|done]. destruct t; [constructor|cbn in *; lia].
    + intros (vs & Hs & ->). inversion Hs. cbn. rewrite Nat.add_0_r. constructor.
  - destruct p as [c| |]; cbn [part_regexes]; rewrite matches_sequence.
    + split.
      * intros (o & Ho & Hm). inversion Ho as [|a i' d s' g0 Hc| | | | | | |]; subst.
        destruct t as [|d' t]; cbn in *.
        { apply matches_consumes in Hm as (v & _ & Hi). cbn in Hi. lia. }
        simplify_eq. replace (i + S (length t))%nat with (S i + length t)%nat in Hm by lia.
        apply IH in Hm as (vs & Hs & ->). exists vs. split; [by constructor|done].
      * intros (vs & Hs & ->). inversion Hs as [|c' d ps' t' vs' Hc Hs'| |]; subst.
        eexists. split; [by constructor|]. cbn. replace (i + S (length t'))%nat with (S i + length t')%nat by lia.
        apply IH. by exists vs.
    + split.
      * intros (o & Ho & Hm). inversion Ho as [| | | | |gr lo hi a i' w s' g0 Hw Hlo Hhi| | |]; subst.
        destruct (matches_consumes _ _ _ _ Hm) as (v & Hv & Hi); cbn in Hv, Hi. subst s'.
        assert (t = w ++ v) as -> by (apply (app_inv_tail s); rewrite <- app_assoc; congruence).
        rewrite length_app, Nat.add_assoc in Hm. apply IH in Hm as (vs & Hs & ->). exists vs. split; [|done].
        constructor; [by apply at_least_one|by apply blank_chars|done].
      * intros (vs & Hs & ->). inversion Hs as [| |w ps' t' vs' Hne Hw Hs'|]; subst. rewrite <- app_assoc, length_app.
        eexists. split; [apply M_Rep; [by apply blank_chars|by apply at_least_one|done]|].
        rewrite Nat.add_assoc. apply IH. by exists vs.
    + split.
      * intros (o & Ho & Hm). inversion Ho as [| | | | | |m r i' w s' g0 g1 Hr| |]; subst.
        inversion Hr as [| | | | |gr lo hi a i' w' s'' g0' Hw Hlo Hhi| | |]; subst.
        assert (w' = w) as -> by (by eapply app_inv_tail).
        destruct (matches_consumes _ _ _ _ Hm) as (v & Hv & Hi); cbn in Hv, Hi. subst s'.
        assert (t = w ++ v) as -> by (apply (app_inv_tail s); rewrite <- app_assoc; congruence).
        rewrite length_app, Nat.add_assoc in Hm. apply IH in Hm as (vs & Hs & ->). exists (w :: vs). split; [|done].
        constructor; [by apply at_least_one|by apply dot_line|done].
      * intros (vs & Hs & ->). inversion Hs as [| | |v ps' t' vs' Hne Hl Hs']; subst. rewrite <- app_assoc, length_app.
        eexists. split; [apply M_Group, M_Rep; [by apply dot_line|by apply at_least_one|done]|].
        rewrite Nat.add_assoc. apply IH. by exists vs'.
Qed.

(** The pattern of a phrase matches exactly the texts that say it; the groups
    hold the values. *)
Lemma phrase_fullmatch phrase text :
  ∃ r, (pattern ← phrase_pattern 0 (placeholders_of phrase) phrase; re_fullmatch true pattern text)
         = Ok (fullmatch true r text) ∧
       (∀ g, fullmatch true r text = Some g → ∃ vs, says (phrase_parts phrase) text vs ∧ g = numbered 1 vs []) ∧
       ∀ vs, says (phrase_parts phrase) text vs → ∃ g, fullmatch true r text = Some g.
Proof using Type.
  exists (sequence (part_regexes 1 (phrase_parts phrase))). split_and!.
  - rewrite phrase_pattern_parts. cbn [mbind result_bind]. unfold re_fullmatch.
    by rewrite compile_render.
  - intros g Hm%fullmatch_matches.
    apply (matches_parts 1 _ 0 text [] []). by rewrite app_nil_r.
  - intros vs Hs. eapply fullmatch_complete.
    pose proof (proj2 (matches_parts 1 (phrase_parts phrase) 0 text [] [] (numbered 1 vs []))) as Hm.
    rewrite app_nil_r in Hm. apply Hm. by exists vs.
Qed.

Lemma dget_numbered n vs g k :
  (k < n)%nat ∨ (n + length vs <= k)%nat → dget k (numbered n vs g) = dget k g.
Proof using Type.
  revert n g. induction vs as [|v vs IH]; intros n g Hk; [done|]. cbn [numbered length] in *.
  rewrite IH by lia. cbn. rewrite decide_False by lia. done.
Qed.

Lemma group_numbered n vs g k v : vs !! k = Some v → group (n + k) (numbered n vs g) = Some v.
Proof using Type.
  unfold group. revert n g k. induction vs as [|w vs IH]; intros n g k Hk; [done|].
  destruct k as [|k]; cbn [numbered] in *.
  - simplify_eq/=. rewrite Nat.add_0_r, dget_numbered by lia. cbn. by rewrite decide_True.
  - replace (n + S k)%nat with (S n + k)%nat by lia. by apply IH.
Qed.

Fixpoint holes (ps : list part) : nat :=
  match ps with [] => 0 | Hole :: ps => S (holes ps) | _ :: ps => holes ps end.

Lemma holes_app ps qs : holes (ps ++ qs) = (holes ps + holes qs)%nat.
Proof using Type. induction ps as [|[c| |] ps IH]; cbn; lia. Qed.

Lemma holes_literal s : holes (literal_parts s) = 0%nat.
Proof using Type. induction s as [|c s IH]; [done|]. cbn. repeat case_match; done. Qed.

Lemma says_values ps t vs : says ps t vs → length vs = holes ps ∧ Forall (piece t) vs.
Proof using Type.
  assert (∀ p t w, piece t w → piece (p ++ t) w) as Hp by (intros p s w (x & y & ->); exists (p ++ x), y; by rewrite app_assoc).
  induction 1 as [|c d ps t vs _ _ [IH1 IH2]|w ps t vs _ _ _ [IH1 IH2]|v ps t vs _ _ _ [IH1 IH2]]; cbn [length holes].
  - by split.
  - split; [done|]. eapply Forall_impl; [exact IH2|]. intros w. by apply (Hp [d]).
  - split; [done|]. eapply Forall_impl; [exact IH2|]. by apply Hp.
  - split; [by f_equal|]. constructor; [by exists [], t|]. eapply Forall_impl; [exact IH2|]. by apply Hp.
Qed.

Lemma holes_parts cursor placeholders phrase :
  holes (parts_between cursor placeholders phrase) = length placeholders.
Proof using Type.
  revert cursor. induction placeholders as [|[i j] l IH]; intros cursor; cbn [parts_between length].
  - apply holes_literal.
  - rewrite holes_app, holes_literal. cbn. by rewrite IH.
Qed.
End Compile.

(** ** The value of a placeholder *)

Section Values.
Context `{T : UnicodeText} {HT : UnicodeTextLaws T}.

(** What the matcher accepts for a parameter. *)
Record value_ok (parameter : object) (raw : pystr) (v : value) : Prop := {
  vo_text : strip raw ≠ [];
  vo_size : ∃ b n, utf8_encode (strip raw) = Some b ∧ maximum_of (get (u "max_length") parameter) = Some n ∧ len b <= n;
  vo_option : truthy (get_or (u "options") (VList []) parameter) = true →
    among_options (strip raw) (get_or (u "options") (VList []) parameter) = Ok true;
  vo_value : if eq_str (get (u "kind") parameter) (u "integer")
             then ∃ n, int_of_text (strip raw) = Ok n ∧ v = VInt n else v = VStr (strip raw);
  vo_phone : eq_str (get (u "kind") parameter) (u "phone") = true → phone_text (strip raw);
  vo_channel : in_set (get (u "kind") parameter) ["channel_id"; "guild_id"]%string = Ok true → snowflake (strip raw);
  vo_url : eq_str (get (u "kind") parameter) (u "url") = true → Forall (λ c, is_space c = false) (strip raw)
}.

Lemma not_matching_body ic pattern b w no :
  compile (u pattern) = Some b → not_matching ic (u pattern) w = Ok no → no = false → consumes ic b w.
Proof using Type.
  unfold not_matching, re_fullmatch. intros ->. cbn [mbind result_bind].
  destruct (fullmatch ic b w) as [g|] eqn:E; [|by intros [= <-]].
  intros _ _. apply fullmatch_matches in E. exists 0%nat, [], [], g. by rewrite app_nil_r.
Qed.

Lemma eq_str_kind v s t : u s ≠ u t → eq_str v (u s) = true → eq_str v (u t) = true → False.
Proof using Type. unfold eq_str. intros Hne. destruct v; try done. intros Ha Hb. reflect. congruence. Qed.

Lemma catalog_value_ok raw parameter v :
  _catalog_value raw parameter = Ok (Some v) → value_ok parameter raw v.
Proof using HT.
  unfold _catalog_value. set (w := strip raw). set (kind := get (u "kind") parameter).
  destruct (refused w _ _) as [[]|] eqn:Er; [done| |done]. cbn [mbind result_bind].
  assert (w ≠ [] ∧ (∃ b n, utf8_encode w = Some b ∧ maximum_of (get (u "max_length") parameter) = Some n ∧ len b <= n) ∧
    (truthy (get_or (u "options") (VList []) parameter) = true →
     among_options w (get_or (u "options") (VList []) parameter) = Ok true)) as (Hne & Hsize & Hopt).
  { unfold refused in Er. destruct (negb (nonempty w)) eqn:En; [done|]. apply negb_false_iff, nonempty_ne in En.
    destruct (maximum_of _) as [n|]; [|done]. destruct (utf8_encode w) as [b|]; [|done].
    destruct (n <? len b) eqn:El; [done|]. split; [done|]. split; [exists b, n; split_and!; [done..|lia]|].
    intros Ht. rewrite Ht in Er. destruct (among_options _ _) as [[]|]; done. }
  destruct (eq_str kind (u "integer")) eqn:Ei.
  - destruct (int_of_text w) as [n|e] eqn:Ez; [|by destruct (caught e _)]. intros [= <-].
    assert (kind = VStr (u "integer")) as Hk. { unfold eq_str in Ei. destruct kind; try done. reflect. by subst. }
    split; try done; fold kind.
    + rewrite Ei. by exists n.
    + rewrite Hk. by intros Hx%bool_decide_eq_true.
    + rewrite Hk. intros Hx. by vm_compute in Hx.
    + rewrite Hk. by intros Hx%bool_decide_eq_true.
  - destruct (if eq_str kind (u "phone") then _ else _) as [[]|] eqn:Ep; [done| |done]. cbn [mbind result_bind].
    destruct (in_set kind _) as [channel|] eqn:Ec; [|done]. cbn [mbind result_bind].
    destruct (if channel then _ else _) as [[]|] eqn:Ech; [done| |done]. cbn [mbind result_bind].
    destruct (if eq_str kind (u "url") then _ else _) as [[]|] eqn:Eu; [done| |done]. intros [= <-].
    split; try done; fold kind; fold w.
    + by rewrite Ei.
    + intros Hk. rewrite Hk in Ep. apply (consumes_phone false).
      by eapply (not_matching_body _ PHONE_PATTERN); [by vm_compute|exact Ep|].
    + rewrite Ec. intros [= ->]. apply consumes_snowflake.
      by eapply (not_matching_body _ SNOWFLAKE_PATTERN); [by vm_compute|exact Ech|].
    + intros Hk. rewrite Hk in Eu. apply consumes_url.
      by eapply (not_matching_body _ URL_PATTERN); [by vm_compute|exact Eu|].
Qed.

(** *** The arguments of a command *)

(** Parameters, the texts of the placeholders and the values they give. *)
Inductive filled : list value → list pystr → object → object → Prop :=
| filled_nil a : filled [] [] a a
| filled_cons d name raw v ps vs a b :
    get (u "name") d = VStr name → value_ok d raw v → filled ps vs (dset name v a) b →
    filled (VDict d :: ps) (raw :: vs) a b.

Lemma fill_arguments_ok ps n pre vs a b k k' :
  length vs = length ps →
  fill_arguments ps (n + length pre) (numbered n (pre ++ vs) []) a k = Ok (Some (b, k')) → filled ps vs a b.
Proof using HT.
  revert pre vs a k. induction ps as [|p ps IH]; intros pre vs a k Hl; cbn [fill_arguments].
  - intros [= <- <-]. destruct vs; [constructor|done].
  - destruct vs as [|raw vs]; [done|]. destruct p as [| | | | | |d]; try done.
    destruct (get (u "name") d) as [| | | |name| |] eqn:En; try done.
    unfold group_text. rewrite (group_numbered _ _ _ _ raw) by by apply list_lookup_middle.
    cbn [mbind result_bind]. destruct (_catalog_value raw d) as [[v|]|] eqn:Ev; try done. cbn [mbind result_bind].
    destruct (in_set _ TYPED_KINDS) as [typed|]; [|done]. cbn [mbind result_bind].
    specialize (IH (pre ++ [raw]) vs). rewrite length_app, <- app_assoc in IH. cbn [length app] in IH.
    replace (S (n + length pre)) with (n + (length pre + 1))%nat by lia.
    intros Hf. econstructor; [done|by apply catalog_value_ok|]. eapply IH; [by injection Hl|exact Hf].
Qed.

(** What a candidate says: a command of the catalog whose phrase the text
    says, with the arguments of its placeholders or its fixed arguments. *)
Record candidate_ok (text : pystr) (d : object) (i : ParsedIntent) (phrase : pystr) (params : list value) (vs : list pystr) : Prop := {
  co_phrase : get (u "phrase") d = VStr phrase;
  co_tool : get (u "tool_name") d = VStr (intent_tool i);
  co_params : get_or (u "parameters") (VList []) d = VList params;
  co_says : says (phrase_parts phrase) text vs;
  co_arguments : match get (u "default_arguments") d with
                 | VDict fixed => params = [] ∧ intent_arguments i = fixed
                 | VNone => filled params vs [] (intent_arguments i)
                 | _ => False
                 end
}.

Lemma placeholders_ok phrase : re_finditer (u PLACEHOLDER) phrase = Ok (placeholders_of phrase).
Proof using Type.
  unfold placeholders_of. apply ok_or_eq. unfold re_finditer. destruct (compile _) eqn:E; [done|by vm_compute in E].
Qed.

Lemma filled_nonempty ps vs a b : filled ps vs a b → ps ≠ [] ∨ a ≠ [] → b ≠ [].
Proof using Type.
  induction 1 as [a|d name raw v ps vs a b _ _ _ IH]; [by intros []|]. intros _. apply IH. right.
  intros E. pose proof (dget_dset_eq name v a) as Hg. by rewrite E in Hg.
Qed.

Lemma candidate_sound text command n i :
  candidate text command = Ok (Some (n, i)) →
  ∃ d phrase params vs, command = VDict d ∧ candidate_ok text d i phrase params vs.
Proof using HT.
  unfold candidate. intros Hd. destruct command as [| | | | | |d]; try discriminate Hd.
  destruct (get (u "phrase") d) as [| | | |phrase| |] eqn:Eph; try discriminate Hd.
  destruct (get (u "tool_name") d) as [| | | |tool| |] eqn:Et; try discriminate Hd.
  destruct (get_or (u "parameters") (VList []) d) as [| | | | |params|] eqn:Epa; try discriminate Hd.
  rewrite placeholders_ok in Hd. cbn [mbind result_bind] in Hd.
  destruct (phrase_fullmatch phrase text) as (r & Hr & Hsound & _).
  rewrite phrase_pattern_parts in Hr, Hd. cbn [mbind result_bind] in Hr, Hd. rewrite Hr in Hd. cbn [mbind result_bind] in Hd.
  destruct (fullmatch true r text) as [g|]; [|discriminate Hd]. destruct (Hsound g eq_refl) as (vs & Hs & ->).
  destruct (negb _) eqn:El; [discriminate Hd|]. apply negb_false_iff, Nat.eqb_eq in El.
  destruct (fill_arguments _ _ _ _ _) as [[[a k]|]|] eqn:Ef in Hd; try discriminate Hd. cbn [mbind result_bind] in Hd.
  assert (filled params vs [] a) as Hf.
  { apply (fill_arguments_ok params 1 [] vs [] a (len (concat (outside 0 (placeholders_of phrase) phrase))) k); [|exact Ef].
    destruct (says_values _ _ _ Hs) as [Hl _]. unfold phrase_parts in Hl. rewrite holes_parts in Hl. congruence. }
  exists d, phrase, params, vs. split; [reflexivity|].
  destruct (get (u "default_arguments") d) as [| | | | | |fixed] eqn:Edf; try discriminate Hd.
  - injection Hd as <- <-. constructor; [exact Eph|exact Et|exact Epa|exact Hs|]. rewrite Edf. exact Hf.
  - destruct (nonempty a) eqn:Ea; [discriminate Hd|]. injection Hd as <- <-.
    constructor; [exact Eph|exact Et|exact Epa|exact Hs|]. rewrite Edf. split; [|reflexivity]. destruct params; [reflexivity|].
    exfalso. by eapply filled_nonempty; [exact Hf|left|destruct a].
Qed.

(** *** The most specific candidate *)

Lemma most_specific_max best l :
  most_specific best l ∈ best :: l ∧ Forall (λ c, c.1 <= (most_specific best l).1) (best :: l).
Proof using Type.
  revert best. induction l as [|c l IH]; intros best; cbn [most_specific].
  - split; [by left|repeat constructor; lia].
  - destruct (IH (if best.1 <? c.1 then c else best)) as [Hin Hall].
    apply Forall_cons in Hall as [Hb Hall]. split.
    + apply elem_of_cons in Hin as [->|Hin]; [|by do 2 right]. destruct (best.1 <? c.1); [right; left|left]; done.
    + destruct (best.1 <? c.1) eqn:E; repeat constructor; try done; lia.
Qed.

Lemma candidates_elem text l found :
  traverse (candidate text) l = Ok found →
  ∀ c, c ∈ omap id found ↔ ∃ command, command ∈ l ∧ candidate text command = Ok (Some c).
Proof using Type.
  intros Hf%traverse_ok c. rewrite list_elem_of_omap. split.
  - intros (o & Ho & Hc). cbn in Hc. subst o. apply list_elem_of_lookup in Ho as [k Hk].
    eapply Forall2_lookup_r in Hk as (command & Hl & Hc); [|exact Hf]. exists command.
    split; [by eapply list_elem_of_lookup_2|done].
  - intros (command & [k Hk]%list_elem_of_lookup & Hc). eapply Forall2_lookup_l in Hk as (o & Ho & Hc'); [|exact Hf].
    exists o. split; [by eapply list_elem_of_lookup_2|]. cbn. congruence.
Qed.

(** ** What is not refused raises nothing *)

(** A parameter whose kind has a hash and whose options can be searched. *)
Definition parameter_shape (p : value) : Prop := ∀ d, p = VDict d →
  (∀ set, is_ok (in_set (get (u "kind") d) set) = true) ∧
  (truthy (get_or (u "options") (VList []) d) = true → ∀ w, is_ok (among_options w (get_or (u "options") (VList []) d)) = true).

Definition command_shape (c : value) : Prop := ∃ d, c = VDict d ∧
  ∀ params, get_or (u "parameters") (VList []) d = VList params → Forall parameter_shape params.

Definition returns {A} (r : result A) : Prop := ∃ a, r = Ok a.

Lemma returns_ok {A} (a : A) : returns (Ok a).
Proof using Type. by eexists. Qed.
Lemma returns_bind {A B} (r : result A) (k : A → result B) : returns r → (∀ a, r = Ok a → returns (k a)) → returns (r ≫= k).
Proof using Type. intros [a ->] Hk. by apply Hk. Qed.
Lemma returns_is_ok {A} (r : result A) : is_ok r = true → returns r.
Proof using Type. destruct r; [by eexists|done]. Qed.

Lemma not_matching_returns ic pattern w : well_formed pattern = true → returns (not_matching ic (u pattern) w).
Proof using Type. intros Hw. destruct (re_fullmatch_total ic pattern w Hw) as [m Hm]. unfold not_matching. rewrite Hm. by eexists. Qed.

Lemma int_raises s e : int_of_text s = Raise e → e = ValueError.
Proof using Type. unfold int_of_text. repeat case_match; congruence. Qed.

Lemma catalog_value_returns raw d b :
  parameter_shape (VDict d) → utf8_encode raw = Some b → returns (_catalog_value raw d).
Proof using Type.
  intros Hd Hb. destruct (Hd d eq_refl) as [Hkind Hopt]. unfold _catalog_value.
  destruct (strip_segment raw) as (p & q & Hs). rewrite Hs in Hb. apply utf8_encode_piece in Hb as (b' & Hb' & _).
  apply returns_bind.
  { unfold refused. destruct (negb _); [apply returns_ok|]. destruct (maximum_of _) as [n|]; [|apply returns_ok].
    rewrite Hb'. destruct (n <? _); [apply returns_ok|]. destruct (truthy _) eqn:Et; [|apply returns_ok].
    apply returns_bind; [|intros; apply returns_ok]. by apply returns_is_ok, Hopt. }
  intros [] _; [apply returns_ok|]. destruct (eq_str _ (u "integer")).
  { destruct (int_of_text _) as [n|e] eqn:Ei; [apply returns_ok|]. apply int_raises in Ei as ->. apply returns_ok. }
  apply returns_bind.
  { destruct (eq_str _ _); [by apply (not_matching_returns _ PHONE_PATTERN)|apply returns_ok]. }
  intros [] _; [apply returns_ok|]. apply returns_bind; [by apply returns_is_ok|]. intros channel _. apply returns_bind.
  { destruct channel; [by apply (not_matching_returns _ SNOWFLAKE_PATTERN)|apply returns_ok]. }
  intros [] _; [apply returns_ok|]. apply returns_bind.
  { destruct (eq_str _ _); [by apply (not_matching_returns _ URL_PATTERN)|apply returns_ok]. }
  intros [] _; apply returns_ok.
Qed.

Lemma fill_arguments_returns ps n pre vs a k :
  length vs = length ps → Forall parameter_shape ps → Forall (λ v, ∃ b, utf8_encode v = Some b) vs →
  returns (fill_arguments ps (n + length pre) (numbered n (pre ++ vs) []) a k).
Proof using Type.
  revert pre vs a k. induction ps as [|p ps IH]; intros pre vs a k Hl Hp Hv; cbn [fill_arguments]; [apply returns_ok|].
  destruct vs as [|raw vs]; [done|]. apply Forall_cons in Hp as [Hp Hps], Hv as [[b Hb] Hvs].
  destruct p as [| | | | | |d]; try apply returns_ok.
  destruct (get (u "name") d) as [| | | |name| |]; try apply returns_ok.
  unfold group_text. rewrite (group_numbered _ _ _ _ raw) by by apply list_lookup_middle. cbn [mbind result_bind].
  apply returns_bind; [by eapply catalog_value_returns|]. intros [v|] _; [|apply returns_ok].
  apply returns_bind; [by apply returns_is_ok, Hp|]. intros typed _.
  specialize (IH (pre ++ [raw]) vs). rewrite length_app, <- app_assoc in IH. cbn [length app] in IH.
  replace (S (n + length pre)) with (n + (length pre + 1))%nat by lia. apply IH; [by injection Hl|done|done].
Qed.

Lemma candidate_returns text c b :
  command_shape c → utf8_encode text = Some b → returns (candidate text c).
Proof using Type.
  intros (d & -> & Hshape) Hb. unfold candidate.
  destruct (get (u "phrase") d) as [| | | |phrase| |]; try apply returns_ok.
  destruct (get (u "tool_name") d) as [| | | |tool| |]; try apply returns_ok.
  destruct (get_or (u "parameters") (VList []) d) as [| | | | |params|]; try apply returns_ok.
  specialize (Hshape params eq_refl). rewrite placeholders_ok. cbn [mbind result_bind].
  destruct (phrase_fullmatch phrase text) as (r & Hr & Hsound & _).
  rewrite phrase_pattern_parts in Hr |- *. cbn [mbind result_bind] in Hr |- *. rewrite Hr. cbn [mbind result_bind].
  destruct (fullmatch true r text) as [g|]; [|apply returns_ok]. destruct (Hsound g eq_refl) as (vs & Hs & ->).
  destruct (negb _) eqn:El; [apply returns_ok|]. apply negb_false_iff, Nat.eqb_eq in El.
  destruct (says_values _ _ _ Hs) as [Hl Hpieces]. unfold phrase_parts in Hl. rewrite holes_parts in Hl.
  apply returns_bind.
  - apply (fill_arguments_returns params 1 [] vs); [congruence|done|]. eapply Forall_impl; [exact Hpieces|].
    intros v (x & y & ->). apply utf8_encode_piece in Hb as (b' & Hb' & _). by exists b'.
  - intros [[a k]|] _; [|apply returns_ok]. destruct (get (u "default_arguments") d); try apply returns_ok.
    destruct (nonempty a); apply returns_ok.
Qed.

Lemma bounded_original text : bounded_text 4000 false text → ∃ b, utf8_encode (original_text text) = Some b.
Proof using Type.
  intros (_ & (b & Hb & _) & _). destruct (strip_segment text) as (p & q & Hs). rewrite Hs in Hb.
  apply utf8_encode_piece in Hb as (b1 & Hb1 & _). apply utf8_encode_words in Hb1 as (b2 & Hb2 & _). by exists b2.
Qed.

(** ** Properties *)

(** C18: the pattern the matcher builds from a phrase matches exactly the texts
    that say the phrase: its characters in either case, its white space as any
    run of white space, each placeholder as a text of one line. *)
Theorem catalog_phrase_exact phrase text :
  ∃ m, (pattern ← phrase_pattern 0 (placeholders_of phrase) phrase; re_fullmatch true pattern text) = Ok m ∧
       ((∃ g, m = Some g) ↔ ∃ vs, says (phrase_parts phrase) text vs).
Proof using Type.
  destruct (phrase_fullmatch phrase text) as (r & Hr & Hsound & Hcomplete). exists (fullmatch true r text).
  split; [exact Hr|]. split.
  - intros [g Hg]. destruct (Hsound g Hg) as (vs & Hs & _). by exists vs.
  - intros [vs Hs]. by apply (Hcomplete vs).
Qed.

(** C19: on a text the Core accepts and a catalog whose entries are well formed
    the matcher returns; it returns a call exactly when some command of the
    catalog is a candidate, and the call is that of a candidate no other is
    more specific than: the tool of a command whose phrase the text says, with
    its fixed arguments or with values its parameters accept. *)
Theorem catalog_intent_sound text commands :
  bounded_text 4000 false text → Forall command_shape commands →
  ∃ o, parse_catalog_intent text (VList commands) = Ok o ∧
    match o with
    | Some i => ∃ command d phrase params vs n,
        command ∈ commands ∧ command = VDict d ∧ candidate (original_text text) command = Ok (Some (n, i)) ∧
        candidate_ok (original_text text) d i phrase params vs ∧
        ∀ command' n' i', command' ∈ commands →
          candidate (original_text text) command' = Ok (Some (n', i')) → n' <= n
    | None => original_text text = [] ∨
        ∀ command n i, command ∈ commands → candidate (original_text text) command ≠ Ok (Some (n, i))
    end.
Proof using HT.
  intros Hb Hc. unfold parse_catalog_intent. destruct (negb (nonempty _)) eqn:En.
  { exists None. split; [done|]. left. by destruct (original_text text). }
  cbn [py_tuple mbind result_bind]. destruct (bounded_original text Hb) as [b Ho].
  assert (∃ found, traverse (candidate (original_text text)) commands = Ok found) as [found Hf].
  { clear En. induction Hc as [|c l Hc _ [found IH]]; [by exists []|]. cbn [traverse].
    destruct (candidate_returns _ _ _ Hc Ho) as [o ->]. cbn [mbind result_bind]. rewrite IH. by eexists. }
  rewrite Hf. cbn [mbind result_bind]. pose proof (candidates_elem _ _ _ Hf) as Helem.
  destruct (omap id found) as [|c cs] eqn:Eo; eexists; (split; [done|]); cbn beta iota.
  - right. intros command n i Hin Hcand. assert ((n, i) ∈ []) as H0 by (apply Helem; by exists command).
    by apply not_elem_of_nil in H0.
  - destruct (most_specific_max c cs) as [Hin Hmax]. destruct (most_specific c cs) as [n i].
    apply Helem in Hin as (command & Hin & Hcand). destruct (candidate_sound _ _ _ _ Hcand) as (d & phrase & params & vs & -> & Hok).
    exists (VDict d), d, phrase, params, vs, n. split_and!; try done.
    intros command' n' i' Hin' Hcand'. apply (proj1 (Forall_forall _ _) Hmax (n', i')).
    apply Helem. by exists command'.
Qed.
End Values.

Definition sample_phrase : value := VDict [
  (u "phrase", VStr (u "luz <nivel>")); (u "tool_name", VStr (u "light"));
  (u "parameters", VList [VDict [(u "name", VStr (u "level")); (u "kind", VStr (u "integer")); (u "max_length", VInt 3)]])].

Lemma catalog_intent_sound_witness :
  let text := u "Luz  40" in
  let T := ascii_text in
  ∃ o, parse_catalog_intent text (VList [sample_phrase]) = Ok o ∧
    match o with
    | Some i => ∃ command d phrase params vs n,
        command ∈ [sample_phrase] ∧ command = VDict d ∧ candidate (original_text text) command = Ok (Some (n, i)) ∧
        candidate_ok (original_text text) d i phrase params vs ∧
        ∀ command' n' i', command' ∈ [sample_phrase] →
          candidate (original_text text) command' = Ok (Some (n', i')) → n' <= n
    | None => original_text text = [] ∨
        ∀ command n i, command ∈ [sample_phrase] → candidate (original_text text) command ≠ Ok (Some (n, i))
    end.
Proof.
  apply (catalog_intent_sound (T := ascii_text)).
  - apply (validate_bounded_text_spec (VStr (u "Luz  40"))). by vm_compute.
  - apply Forall_cons. split; [|constructor]. eexists. split; [reflexivity|]. intros params Hp.
    vm_compute in Hp. injection Hp as <-. apply Forall_cons. split; [|constructor]. by intros d [= <-].
Defined.

Example sample_phrase_answer (T := ascii_text) :
  parse_catalog_intent (u "Luz  40") (VList [sample_phrase])
  = Ok (Some (intent "light" [("level"%string, VInt 40)])).
Proof. by_compute. Qed.
