(* ===== verification/CoreFacts.v ===== *)
(** * Invariants and effects of the Core

    [base_ok] collects the invariants of the components, [gate_ok] the one
    that ties sessions to confirmations: a session has at most one pending
    action, and only while it shows the confirmation.  The lemmas give, for
    each step of [handle], the responses, the state and the world it leaves. *)
From S2P Require Import Prelude Dict Value Effects TextPolicy Json Protocol Binding Sessions.
From S2P Require Import Confirmations Memory Tools Catalog Challenge PyStr Captions Core.

(** ** Responses *)

(** A response that is built, and meets the wire contract. *)
Definition sends (r : result object) : Prop := ∃ o, r = Ok o ∧ envelope_ok o.

Lemma sends_server t f o : server_message t f = Ok o → sends (server_message t f).
Proof. intros E. exists o. split; [done|by eapply server_message_envelope]. Qed.

(** A literal envelope. *)
Ltac sends_now := eapply sends_server; reflexivity.

Lemma sends_error code msg : sends (error code msg).
Proof. sends_now. Qed.
Lemma sends_bare_error code : sends (bare_error code).
Proof. sends_now. Qed.
Lemma sends_ui s : sends (ui_message s).
Proof. sends_now. Qed.

Lemma sends_tool_result `{UnicodeData} n inv c s :
  get (u "status") inv = VStr s → sends (_device_tool_result n inv c).
Proof.
  intros Hs. unfold _device_tool_result.
  assert (get_or (u "status") (VStr (u "completed")) inv = VStr s) as ->.
  { unfold get_or, get in *. by destruct (dget (u "status") inv). }
  rewrite str_of_str. unfold mbind, result_bind. destruct c; sends_now.
Qed.

Lemma sends_confirm_request `{UnicodeData} p : sends (confirm_request (VDict (as_dict p))).
Proof.
  unfold confirm_request. destruct p as [cid o t a sm c e [ci|] [rd|] ex]; sends_now.
Qed.

#[export] Hint Resolve sends_error sends_bare_error sends_ui : pipa.

Section Facts.
Context {W V : Type} `{I : VerifierI V} {HI : VerifierLaws I} `{UnicodeData} `{IntentParser}.
Context (ttl_seconds : Z) (catalog : dict pystr (ToolDefinition W)).
Context (command_catalog capability_catalog : option (W → result value)).
Context (command_catalog_authoritative : bool).
Implicit Types (σ : core_state W V) (s : DeviceSession).

Lemma traverse_sends l : Forall sends l → ∃ os, traverse id l = Ok os ∧ Forall envelope_ok os.
Proof.
  induction 1 as [|r l (o & -> & Ho) _ (os & IH & Hos)]; [by exists []|].
  exists (o :: os). split; [|by constructor]. cbn [traverse id mbind result_bind]. by rewrite IH.
Qed.

Lemma reply_run l σ : Forall sends l → ∃ os, reply l σ = (σ, Ok os) ∧ Forall envelope_ok os.
Proof. intros (os & Hl & Hos)%traverse_sends. exists os. split; [|done]. unfold reply, lift. by rewrite Hl. Qed.

(** ** States *)

Abbreviation pendings σ := (Tools.pending (router σ)).

Definition put_session s σ : core_state W V :=
  mkCore (store s (sessions σ)) (router σ) (facts σ) (verifier σ).

Record base_ok σ : Prop := {
  b_sessions : registry_ok (sessions σ);
  b_pending : pending_ok (pendings σ);
  b_facts : memory_ok (facts σ);
  b_verifier : vi_inv (verifier σ);
  b_ids : ∀ sid s, dget sid (sessions σ) = Some s → sid ≠ []
}.

(** No action of session [sid] is pending. *)
Definition free (sid : pystr) σ : Prop := ∀ k p, (k, p) ∈ pendings σ → owner_id p ≠ Some sid.

(** The pending actions of a session that is registered are at most one, and
    the session shows the confirmation. *)
Record gate_ok σ : Prop := {
  g_state : ∀ k p sid s, (k, p) ∈ pendings σ → owner_id p = Some sid →
    dget sid (sessions σ) = Some s → Sessions.state s = u "confirm";
  g_one : ∀ sid, dcount (owned_by (Some sid)) (pendings σ) <= 1;
  g_owned : ∀ k p, (k, p) ∈ pendings σ → owner_id p ≠ None
}.

Definition core_ok σ : Prop := base_ok σ ∧ gate_ok σ.

(** [s] is the registered session [sid]. *)
Definition cur (sid : pystr) s σ : Prop :=
  dget sid (sessions σ) = Some s ∧ session_id s = sid.

Lemma cur_lookup sid s σ : base_ok σ → dget sid (sessions σ) = Some s → cur sid s σ.
Proof. intros Hb Hs. split; [done|]. eapply ok_ids; [apply Hb|by apply dget_elem]. Qed.

Lemma free_of_state sid s σ :
  gate_ok σ → dget sid (sessions σ) = Some s → Sessions.state s ≠ u "confirm" → free sid σ.
Proof. intros Hg Hs Hne k p Hin Ho. by eapply Hne, g_state. Qed.

Lemma put_session_cur sid s s' σ :
  cur sid s σ → session_id s' = sid → cur sid s' (put_session s' σ).
Proof.
  intros [Hs Hid] Hid'. split; [|done]. simpl. unfold store. rewrite Hid', dget_dalter_eq, Hs. done.
Qed.

Lemma put_session_base sid s s' σ :
  base_ok σ → cur sid s σ → session_id s' = sid → Sessions.device_id s' = Sessions.device_id s →
  session_ok s' → base_ok (put_session s' σ).
Proof.
  intros [Hr Hp Hf Hv Hi] [Hs Hid] Hid' Hd Hok. split; simpl; try done.
  - apply store_ok; [done|done|]. rewrite Hid'. intros s0 Hs0. by simplify_eq.
  - intros sid' s0. unfold store. rewrite dget_dalter. case_decide; [|by apply Hi].
    subst. rewrite Hid', Hs. intros _. by eapply Hi.
Qed.

Lemma put_session_gate sid s s' σ :
  gate_ok σ → cur sid s σ → session_id s' = sid →
  (Sessions.state s' = Sessions.state s ∨ Sessions.state s' = u "confirm" ∨ free sid σ) →
  gate_ok (put_session s' σ).
Proof.
  intros [Hst Hone Hown] [Hs Hid] Hid' Hcase. split; [|done..]. simpl.
  intros k p sid' s0 Hin Ho. unfold store. rewrite Hid', dget_dalter.
  case_decide; [|by eauto]. subst sid'. rewrite Hs. simpl. intros [= <-].
  destruct Hcase as [Heq|[Heq|Hfree]]; [rewrite Heq; by eauto|done|].
  exfalso. by eapply Hfree.
Qed.

Lemma set_ui_run s st c σ :
  one_of st UI_STATES = true → set_ui s st c σ = (put_session (with_ui st c s) σ, Ok (with_ui st c s)).
Proof. intros Hst. unfold set_ui, set_state, lift, mbind, M_bind. by rewrite Hst. Qed.

(** The last two lines of most branches: a new UI state, one response and the
    session's UI message. *)
Lemma finish_run s st c r σ :
  one_of st UI_STATES = true → sends r →
  ∃ os, (set_ui s st c ≫= λ s, reply [r; ui_message s]) σ = (put_session (with_ui st c s) σ, Ok os)
        ∧ Forall envelope_ok os.
Proof.
  intros Hst Hr. unfold mbind, M_bind. rewrite set_ui_run by done.
  apply reply_run. repeat constructor; auto with pipa.
Qed.

Lemma finish_ok sid s st c σ :
  core_ok σ → cur sid s σ → one_of st UI_STATES = true → free sid σ →
  core_ok (put_session (with_ui st c s) σ) ∧ cur sid (with_ui st c s) (put_session (with_ui st c s) σ).
Proof.
  intros [Hb Hg] Hc Hst Hf. split; [split|].
  - by eapply put_session_base; [|exact Hc|apply Hc|..].
  - by eapply put_session_gate; [|exact Hc|apply Hc|]; auto.
  - by eapply put_session_cur; [exact Hc|apply Hc].
Qed.

(** ** Cancelling and pruning *)

Lemma cancel_run_core o σ :
  pending_ok (pendings σ) → o ≠ [] →
  ∃ n, on_router (cancel_pending o) σ =
    (mkCore (sessions σ) (mkRouter (filter (λ kv, ¬ owned_by (Some o) kv.2) (pendings σ)) (the_world σ))
       (facts σ) (verifier σ), Ok n).
Proof.
  intros Hp Ho. unfold on_router, cancel_pending, on_pending, zoom.
  destruct (cancel_for_owner o (pendings σ)) as [t r] eqn:Ec.
  assert (t = filter (λ kv, ¬ owned_by (Some o) kv.2) (pendings σ)) as ->.
  { rewrite <- (cancel_run o); [by rewrite Ec|apply Hp|by apply nonempty_ne]. }
  unfold cancel_for_owner in Ec. destruct (negb (nonempty o)); simplify_eq; by eexists.
Qed.

(** What removing confirmations keeps. *)
Lemma filter_pendings_ok (P : pystr * PendingConfirmation → Prop) `{!∀ x, Decision (P x)} σ :
  core_ok σ →
  core_ok (mkCore (sessions σ) (mkRouter (filter P (pendings σ)) (the_world σ)) (facts σ) (verifier σ)).
Proof.
  intros [[Hr Hp Hf Hv Hi] [Hst Hone Hown]]. split; split; simpl; try done.
  - by apply pending_ok_filter.
  - intros k p sid s [_ Hin]%list_elem_of_filter. eauto.
  - intros sid. etransitivity; [apply dcount_filter_le|apply Hone].
  - intros k p [_ Hin]%list_elem_of_filter. eauto.
Qed.

Lemma cancelled_free o σ :
  free o (mkCore (sessions σ) (mkRouter (filter (λ kv, ¬ owned_by (Some o) kv.2) (pendings σ)) (the_world σ))
            (facts σ) (verifier σ)).
Proof. by intros k p [Hn _]%list_elem_of_filter. Qed.

(** [σ'] differs from [σ] at most by sessions and confirmations removed. *)
Record shrinks σ σ' : Prop := {
  sh_world : the_world σ' = the_world σ;
  sh_facts : facts σ' = facts σ;
  sh_verifier : verifier σ' = verifier σ;
  sh_pending : ∀ kv, kv ∈ pendings σ' → kv ∈ pendings σ;
  sh_sessions : ∀ sid s, dget sid (sessions σ') = Some s → dget sid (sessions σ) = Some s
}.

Lemma for_each_cancel_run ids σ :
  core_ok σ → (∀ i, i ∈ ids → i ≠ []) →
  ∃ σ', for_each (λ sid, on_router (cancel_pending sid) ≫= λ _, mret tt) ids σ = (σ', Ok tt) ∧
    core_ok σ' ∧ shrinks σ σ' ∧ sessions σ' = sessions σ ∧ (∀ i, i ∈ ids → free i σ') ∧
    (∀ kv, kv ∈ pendings σ → (∀ i, i ∈ ids → owner_id kv.2 ≠ Some i) → kv ∈ pendings σ').
Proof.
  revert σ. induction ids as [|i ids IH]; intros σ Hok Hne; simpl.
  - exists σ. split_and!; try done. by intros ? ?%not_elem_of_nil.
  - unfold mbind at 1, M_bind at 1. unfold mbind at 1, M_bind at 1.
    destruct (cancel_run_core i σ) as [n Hc]; [apply Hok|apply Hne; by left|]. rewrite Hc. cbn [mret M_ret].
    set (σ1 := mkCore _ _ _ _) in *.
    destruct (IH σ1) as (σ' & Hrun & Hok' & Hsh & Hs & Hfree & Hkeep).
    { by apply filter_pendings_ok. } { intros j Hj. apply Hne. by right. }
    exists σ'. split_and!; [exact Hrun|done| |done| |].
    + destruct Hsh as [? ? ? Hp Hss]. split; try done. intros kv Hkv. apply Hp in Hkv.
      by apply list_elem_of_filter in Hkv as [_ ?].
    + intros j [->|Hj]%elem_of_cons; [|by apply Hfree]. intros k p Hin.
      apply (sh_pending _ _ Hsh) in Hin. by eapply cancelled_free.
    + intros kv Hin Hno. apply Hkeep; [|intros j Hj; apply Hno; by right].
      apply list_elem_of_filter. split; [apply Hno; by left|done].
Qed.

Lemma prune_stale_run env σ :
  core_ok σ →
  ∃ σ', _prune_stale_sessions env σ = (σ', Ok tt) ∧ core_ok σ' ∧ shrinks σ σ' ∧
    sessions σ' = filter (λ kv, ¬ idle (t_prune env) kv.2) (sessions σ) ∧
    (∀ sid s, dget sid (sessions σ) = Some s → idle (t_prune env) s → free sid σ') ∧
    (∀ k p sid s, (k, p) ∈ pendings σ → owner_id p = Some sid →
      dget sid (sessions σ) = Some s → ¬ idle (t_prune env) s → (k, p) ∈ pendings σ').
Proof.
  intros [Hb Hg]. unfold _prune_stale_sessions, on_sessions, zoom. unfold mbind at 1, M_bind at 1.
  rewrite prune_sessions_run by apply Hb.
  set (σ1 := mkCore _ _ _ _).
  assert (∀ sid s, dget sid (sessions σ1) = Some s → dget sid (sessions σ) = Some s) as Hsub.
  { simpl. intros sid s Hs. apply elem_dget; [apply Hb|]. apply dget_elem in Hs.
    by apply list_elem_of_filter in Hs as [_ ?]. }
  assert (core_ok σ1) as Hok1.
  { destruct Hb as [Hr Hp Hf Hv Hi], Hg as [Hst Hone Hown]. split; split; try done.
    - by apply registry_ok_filter.
    - intros sid s Hs. by eapply Hi, Hsub.
    - intros k p sid s Hin Ho Hs. by eapply Hst; [| |apply Hsub]. }
  destruct (for_each_cancel_run (keys_where (idle (t_prune env)) (sessions σ)) σ1 Hok1)
    as (σ' & Hrun & Hok & [? ? ? Hp _] & Hs & Hfree & Hkeep).
  { unfold keys_where. intros i ([k s] & -> & [_ Hin]%list_elem_of_filter)%list_elem_of_fmap.
    eapply (b_ids _ Hb k s). apply elem_dget; [apply Hb|done]. }
  exists σ'. split_and!; [exact Hrun|done| |done| |].
  - split; try done. intros sid s Hsid. rewrite Hs in Hsid. by apply Hsub.
  - intros sid s Hsid Hidle. apply Hfree. unfold keys_where. apply list_elem_of_fmap.
    exists (sid, s). split; [done|]. apply list_elem_of_filter. split; [done|]. by apply dget_elem.
  - intros k p sid s Hin Ho Hsid Hlive. apply Hkeep; [done|]. simpl. rewrite Ho. unfold keys_where.
    intros i ([k' s'] & -> & [Hi Hin']%list_elem_of_filter)%list_elem_of_fmap [= ->].
    apply elem_dget in Hin'; [|apply Hb]. by simplify_eq.
Qed.

(** ** Running a tool *)

Definition responded (r : result (list object)) : Prop := ∃ os, r = Ok os ∧ Forall envelope_ok os.

(** What a message other than an accepted confirmation does to the world:
    nothing, or one run of a safe tool's handler. *)
Inductive world_effect σ σ' : Prop :=
| effect_none : the_world σ' = the_world σ → world_effect σ σ'
| effect_safe n d values :
    get_tool n catalog = Ok d → unsafe d = false →
    the_world σ' = (handler d values (the_world σ)).1 → world_effect σ σ'.

Definition tool_post σ σ' (r : result (list object)) : Prop :=
  responded r ∧ core_ok σ' ∧ world_effect σ σ'.

(** The closing branch of a session without pending action. *)
Lemma finish_post sid s st c r σ0 σ :
  core_ok σ → cur sid s σ → free sid σ → one_of st UI_STATES = true → sends r → world_effect σ0 σ →
  ∃ σ' out, (set_ui s st c ≫= λ s, reply [r; ui_message s]) σ = (σ', out) ∧ tool_post σ0 σ' out.
Proof.
  intros Hok Hc Hf Hst Hr Hw. destruct (finish_run s st c r σ Hst Hr) as (os & Hrun & Hos).
  eexists _, _. split; [exact Hrun|]. destruct (finish_ok sid s st c σ) as [Hok' _]; [done..|].
  split_and!; [by exists os|done|].
  destruct Hw as [Hw|n d v Hg Hs Hw]; [by apply effect_none|by eapply effect_safe].
Qed.

Lemma remember_call_run s a σ :
  core_ok σ →
  ∃ f r, remember_call s (VDict a) σ = (mkCore (sessions σ) (router σ) f (verifier σ), r) ∧
    core_ok (mkCore (sessions σ) (router σ) f (verifier σ)) ∧ raises_only (λ e, e = ValueError) r.
Proof.
  intros Hok. unfold remember_call, method_get, lift, mbind, M_bind.
  destruct (str_of _) as [fact|e] eqn:Es.
  - unfold on_facts, zoom. pose proof (keeps_remember (Sessions.device_id s) fact (facts σ)) as Hk.
    destruct (remember _ fact (facts σ)) as [f r] eqn:Er. exists f, r. split_and!; [done| |].
    + destruct Hok as [[? ? Hf ? ?] [? ? ?]]. specialize (Hk Hf). unfold wp in Hk. rewrite Er in Hk.
      by split; split.
    + intros e ->. by apply remember_raises in Er as [-> _].
  - exists (facts σ), (Raise e). split_and!; [by destruct σ|by destruct σ|].
    intros e' [= <-]. by eapply str_of_raises.
Qed.

Lemma remember_tool_post sid s a σ :
  core_ok σ → cur sid s σ → free sid σ →
  ∃ σ' out, remember_tool s (VDict a) σ = (σ', out) ∧ tool_post σ σ' out.
Proof.
  intros Hok Hc Hf. destruct (remember_call_run s a σ Hok) as (f & r & Hrun & Hok' & Hr).
  unfold remember_tool. unfold mbind at 1, M_bind at 1. unfold except. unfold mbind at 1, M_bind at 1.
  rewrite Hrun. destruct r as [o|e].
  - cbn [mret M_ret]. apply (finish_post sid); try done; [|by apply effect_none].
    by eapply sends_tool_result.
  - rewrite (Hr e eq_refl). simpl. apply (finish_post sid); try done; auto with pipa. by apply effect_none.
Qed.

Lemma recall_tool_post sid s σ :
  core_ok σ → cur sid s σ → free sid σ →
  ∃ σ' out, recall_tool s σ = (σ', out) ∧ tool_post σ σ' out.
Proof.
  intros Hok Hc Hf. unfold recall_tool. unfold mbind at 1, M_bind at 1. cbn [gets].
  apply (finish_post sid); try done; [by eapply sends_tool_result|by apply effect_none].
Qed.

(** [invoke] without a confirmation: refused, asked, or a safe tool run. *)
Lemma invoke_none_run env n args owner c dg (rs rs' : router_state W) out :
  pending_ok (Tools.pending rs) →
  invoke ttl_seconds catalog env n args None owner c dg rs = (rs', out) →
  pending_ok (Tools.pending rs') ∧
  ((world rs' = world rs ∧ (∃ e, out = Raise e) ∧
    (∀ kv, kv ∈ Tools.pending rs' → kv ∈ Tools.pending rs) ∧
    (∀ o, dcount (owned_by o) (Tools.pending rs') <= dcount (owned_by o) (Tools.pending rs))) ∨
   (∃ p, out = Ok [(u "status", VStr (u "needs_confirmation")); (u "confirmation", VDict (as_dict p))] ∧
     world rs' = world rs ∧ owner_id p = owner ∧
     (∀ kv, kv ∈ Tools.pending rs' → kv = (token env, p) ∨ kv ∈ Tools.pending rs) ∧
     (∀ o, dcount (owned_by o) (Tools.pending rs') <=
           dcount (owned_by o) (Tools.pending rs) + (if decide (owner = o) then 1 else 0))) ∨
   (∃ d values, get_tool n catalog = Ok d ∧ unsafe d = false ∧ Tools.pending rs' = Tools.pending rs ∧
     world rs' = (handler d values (world rs)).1 ∧
     out = completed_result <$> (handler d values (world rs)).2)).
Proof.
  intros Hp Hrun.
  assert (pending_ok (Tools.pending rs')) as Hp'.
  { pose proof (keeps_invoke ttl_seconds catalog env n args None owner c dg rs Hp) as Hk.
    unfold wp in Hk. by rewrite Hrun in Hk. }
  split; [done|]. rewrite invoke_unfold in Hrun.
  destruct (get_tool n catalog) as [d|e] eqn:Ed; [|left; simplify_eq; split_and!; by eauto].
  destruct (validate_arguments d args (world rs)) as [values|e]; [|left; simplify_eq; split_and!; by eauto].
  destruct (unsafe d) eqn:Eu.
  - apply ask_run in Hrun as [Hw Hout]; [|by apply Hp]. destruct out as [o|e].
    + right; left. destruct Hout as (p & -> & Hpe & _ & Ho & _). exists p. split_and!; try done.
      * rewrite Hpe. intros [k q] [[-> ->]|Hin]%dset_elem; [by left|right].
        by apply list_elem_of_filter in Hin as [_ ?].
      * intros o. rewrite Hpe. etransitivity; [apply dcount_dset_le|].
        pose proof (dcount_filter_le (owned_by o) (λ kv, ¬ expired (now env) kv.2) (Tools.pending rs)).
        assert (owned_by o p ↔ owner = o) as Ho' by (unfold owned_by; by rewrite Ho).
        repeat case_decide; try tauto; lia.
    + left. split_and!; [done|by eauto| |].
      * intros kv Hin. destruct Hout as [Hq|Hq]; rewrite Hq in Hin; [done|]. by apply list_elem_of_filter in Hin as [_ ?].
      * intros o. destruct Hout as [->| ->]; [done|]. apply dcount_filter_le.
  - right; right. rewrite execute_run in Hrun. exists d, values. simplify_eq. split_and!; try done.
Qed.

Definition with_router (rs : router_state W) σ : core_state W V :=
  mkCore (sessions σ) rs (facts σ) (verifier σ).

Lemma with_router_ok rs σ :
  core_ok σ → pending_ok (Tools.pending rs) →
  (∀ kv, kv ∈ Tools.pending rs → kv ∈ pendings σ) →
  (∀ o, dcount (owned_by o) (Tools.pending rs) <= dcount (owned_by o) (pendings σ)) →
  core_ok (with_router rs σ).
Proof.
  intros [[Hr Hp Hf Hv Hi] [Hst Hone Hown]] Hp' Hsub Hcnt. split; split; try done.
  - intros k p sid s Hin. by eapply Hst, Hsub.
  - intros sid. etransitivity; [apply Hcnt|apply Hone].
  - intros k p Hin. by eapply Hown, Hsub.
Qed.

Lemma free_count sid σ : free sid σ → dcount (owned_by (Some sid)) (pendings σ) = 0.
Proof. intros Hf. apply dcount_zero. intros k p Hin. by eapply Hf. Qed.

Lemma world_effect_from σ0 σ σ' :
  the_world σ = the_world σ0 → world_effect σ σ' → world_effect σ0 σ'.
Proof.
  intros Hw [He|n d v Hg Hs He]; [apply effect_none|eapply (effect_safe _ _ n d v Hg Hs)]; by rewrite He, Hw.
Qed.

(** Showing the confirmation restores the gate after asking for it. *)
Lemma asked_ok_core sid s k p σ rs :
  core_ok σ → cur sid s σ → free sid σ → pending_ok (Tools.pending rs) → owner_id p = Some sid →
  (∀ kv, kv ∈ Tools.pending rs → kv = (k, p) ∨ kv ∈ pendings σ) →
  (∀ o, dcount (owned_by o) (Tools.pending rs) <=
        dcount (owned_by o) (pendings σ) + (if decide (Some sid = o) then 1 else 0)) →
  core_ok (put_session (with_ui (u "confirm") None s) (with_router rs σ)).
Proof.
  intros [Hb Hg] Hc Hf Hp Ho Hsub Hcnt.
  assert (base_ok (with_router rs σ)) as Hb' by (destruct Hb; by split).
  split.
  - by eapply put_session_base; [|exact Hc|apply Hc|..].
  - split; simpl.
    + intros k' p' sid' s' Hin Ho'. unfold store. simpl. destruct Hc as [Hs Hid]. rewrite Hid, dget_dalter.
      case_decide; [subst; rewrite Hs; by intros [= <-]|].
      intros Hs'. apply Hsub in Hin as [?|Hin]; [simplify_eq; congruence|]. by eapply g_state.
    + intros sid'. specialize (Hcnt (Some sid')). case_decide; simplify_eq.
      * rewrite free_count in Hcnt by done. lia.
      * pose proof (g_one _ Hg sid'). lia.
    + intros k' p' Hin. apply Hsub in Hin as [?|Hin]; [simplify_eq; congruence|]. by eapply g_owned.
Qed.

Lemma after_ask_post sid s n c k p σ rs :
  core_ok σ → cur sid s σ → free sid σ → pending_ok (Tools.pending rs) → owner_id p = Some sid →
  (∀ kv, kv ∈ Tools.pending rs → kv = (k, p) ∨ kv ∈ pendings σ) →
  (∀ o, dcount (owned_by o) (Tools.pending rs) <=
        dcount (owned_by o) (pendings σ) + (if decide (Some sid = o) then 1 else 0)) →
  world rs = the_world σ →
  ∃ σ' out, after_invoke s n c
      (Ok [(u "status", VStr (u "needs_confirmation")); (u "confirmation", VDict (as_dict p))])
      (with_router rs σ) = (σ', out) ∧ tool_post σ σ' out.
Proof.
  intros Hok Hc Hf Hp Ho Hsub Hcnt Hw.
  destruct (reply_run [confirm_request (VDict (as_dict p)); ui_message (with_ui (u "confirm") None s)]
    (put_session (with_ui (u "confirm") None s) (with_router rs σ))) as (os & Hrun & Hos).
  { repeat constructor; auto using sends_confirm_request with pipa. }
  eexists _, _. split.
  - unfold after_invoke, lift, mbind, M_bind.
    change (getitem (u "status") _) with (Ok (VStr (u "needs_confirmation"))). cbv iota.
    change (eq_str (VStr (u "needs_confirmation")) (u "needs_confirmation")) with true. cbv iota.
    cbv beta. rewrite set_ui_run by done. cbv iota.
    change (getitem (u "confirmation") _) with (Ok (VDict (as_dict p))). cbv iota. exact Hrun.
  - split_and!; [by exists os| |by apply effect_none].
    by eapply asked_ok_core.
Qed.

Lemma after_run_post sid s n c d values σ rs :
  core_ok σ → cur sid s σ → free sid σ → get_tool n catalog = Ok d → unsafe d = false →
  Tools.pending rs = pendings σ → world rs = (handler d values (the_world σ)).1 →
  ∃ σ' out, after_invoke s n c (completed_result <$> (handler d values (the_world σ)).2)
      (with_router rs σ) = (σ', out) ∧ tool_post σ σ' out.
Proof.
  intros Hok Hc Hf Hd Hu Hp Hw.
  assert (core_ok (with_router rs σ)) as Hok'
    by (apply with_router_ok; [done|rewrite Hp; apply Hok|by rewrite Hp|by rewrite Hp]).
  assert (free sid (with_router rs σ)) as Hf' by (unfold free; simpl; by rewrite Hp).
  assert (world_effect σ (with_router rs σ)) as He by by eapply effect_safe.
  destruct (handler d values (the_world σ)).2 as [r|e].
  - unfold after_invoke, lift. unfold mbind at 1, M_bind at 1. cbn [fmap result_fmap].
    change (getitem (u "status") (completed_result r)) with (Ok (VStr (u "completed"))). cbv iota.
    change (eq_str (VStr (u "completed")) (u "needs_confirmation")) with false. cbv iota.
    unfold mbind at 1, M_bind at 1. unfold mbind at 1, M_bind at 1.
    change (getitem (u "result") (completed_result r)) with (Ok (VDict r)). cbv iota. cbn [result_caption].
    apply (finish_post sid); try done. by eapply sends_tool_result.
  - apply (finish_post sid); try done. auto with pipa.
Qed.

Lemma run_tool_post env sid s n a c dg σ :
  core_ok σ → cur sid s σ → free sid σ →
  ∃ σ' out, _run_tool ttl_seconds catalog env s n (VDict a) c dg σ = (σ', out) ∧ tool_post σ σ' out.
Proof.
  intros Hok Hc Hf. unfold _run_tool. unfold mbind at 1, M_bind at 1. rewrite set_ui_run by done.
  destruct (finish_ok sid s (u "thinking") None σ) as [Hok1 Hc1]; [done..|].
  set (s1 := with_ui _ _ s) in *. set (σ1 := put_session s1 σ) in *.
  assert (free sid σ1) as Hf1 by done.
  cut (∃ σ' out, (if n =s "remember_fact" then remember_tool s1 (VDict a)
    else if n =s "recall_memory" then recall_tool s1
    else if match get_tool n catalog with
            | Ok d => unsafe d && negb (forallb (has_capability (Sessions.capabilities s1)) CONFIRMATION_CAPABILITIES)
            | Raise _ => false end
    then set_ui s1 (u "idle") (Some (u "Falta la pantalla táctil de confirmación.")) ≫= λ session,
      reply [error "confirmation_unavailable" (u "La acción requiere pantalla y toque disponibles."); ui_message session]
    else attempt (on_router (invoke ttl_seconds catalog (router_env env) n (VDict a) None
               (Some (session_id s1)) c dg)) ≫= λ invocation, after_invoke s1 n c invocation) σ1 = (σ', out)
    ∧ tool_post σ1 σ' out).
  { intros (σ' & out & Hrun & Hr & Ho & He). exists σ', out. split; [exact Hrun|]. split_and!; [done|done|].
    by eapply world_effect_from; [|exact He]. }
  destruct (n =s "remember_fact"); [by eapply remember_tool_post|].
  destruct (n =s "recall_memory"); [by eapply recall_tool_post|].
  destruct (match get_tool n catalog with Ok _ => _ | Raise _ => _ end).
  { apply (finish_post sid); try done; [auto with pipa|by apply effect_none]. }
  unfold mbind at 1, M_bind at 1. unfold attempt, on_router, zoom.
  destruct (invoke _ _ _ _ _ _ _ _ _ (router σ1)) as [rs out] eqn:Ei.
  apply invoke_none_run in Ei as [Hp Hcase]; [|apply Hok1].
  change (mkCore (sessions σ1) rs (facts σ1) (verifier σ1)) with (with_router rs σ1).
  destruct Hcase as [(Hw & [e ->] & Hsub & Hcnt)|[(p & -> & Hw & Ho & Hsub & Hcnt)|(d & values & Hd & Hu & Hpe & Hw & ->)]].
  - apply (finish_post sid); try done.
    + by apply with_router_ok.
    + intros k p Hin. apply Hsub in Hin. by eapply Hf1.
    + auto with pipa.
    + by apply effect_none.
  - destruct Hc1 as [Hs1 Hid1]. eapply (after_ask_post sid); try done. by rewrite Ho, Hid1.
    intros o. specialize (Hcnt o). by rewrite Hid1 in Hcnt.
  - by eapply after_run_post.
Qed.

(** ** Text *)

(** A catalog value the matcher and the authorization test can read. *)
Definition readable (c : value) : Prop :=
  (∃ l, c = VList (VDict <$> l) ∧ Forall (λ d, hashable (get (u "tool_name") d) = true) l) ∧
  ∀ b, bounded_text 4000 false b → ∃ i, parse_catalog_intent b c = Ok i.

(** The command provider returns such a value, or fails in one of the two ways
    the Core expects. *)
Definition provider_ok (w : W) : Prop :=
  match command_catalog with
  | None => True
  | Some f => readable (VList []) ∧
      match f w with Ok c => readable c | Raise e => caught e [OSError; ValueError] = true end
  end.

Lemma current_commands_run σ :
  provider_ok (the_world σ) →
  ∃ c, current_commands command_catalog σ = (σ, Ok c) ∧ ∀ v, c = Some v → readable v.
Proof.
  unfold provider_ok, current_commands. destruct command_catalog as [f|]; [|by exists None].
  intros [Hnil Hf]. unfold except, provide, mbind, M_bind.
  destruct (f (the_world σ)) as [c|e]; [exists (Some c)|exists (Some (VList []))].
  - split; [done|]. by intros v [= <-].
  - rewrite Hf. split; [done|]. by intros v [= <-].
Qed.

Lemma enables_run l t :
  Forall (λ d, hashable (get (u "tool_name") d) = true) l → ∃ b, enables (VList (VDict <$> l)) t = Ok b.
Proof.
  intros Hl. unfold enables.
  assert (traverse (λ c, method_get c (u "tool_name") VNone) (VDict <$> l) = Ok (get (u "tool_name") <$> l)) as ->.
  { clear Hl. induction l as [|d l IH]; [done|]. rewrite !fmap_cons. cbn [traverse method_get mbind result_bind]. by rewrite IH. }
  cbn [mbind result_bind]. rewrite (proj2 (forallb_forall _ _)); [by eexists|].
  intros v Hv%list_elem_of_In. apply list_elem_of_fmap in Hv as (d & -> & Hd). rewrite Forall_forall in Hl. by apply Hl.
Qed.

Lemma find_intent_run b c :
  bounded_text 4000 false b → (∀ v, c = Some v → readable v) →
  ∃ i, find_intent command_catalog_authoritative b c = Ok i.
Proof.
  intros Hb Hc. unfold find_intent, catalog_intent. destruct (text_intent_total b Hb) as [j Hj].
  destruct c as [c|].
  2:{ unfold mbind, result_bind. rewrite Hj. by destruct command_catalog_authoritative; eexists. }
  destruct (Hc c eq_refl) as [(l & -> & Hl) Hp]. destruct (Hp b Hb) as [i ->]. unfold mbind, result_bind.
  destruct i as [i|]; rewrite ?Hj; destruct command_catalog_authoritative; try (by eexists).
  - destruct (enables_run l (intent_tool i) Hl) as [[] ->]; by eexists.
  - destruct j as [i|]; [|by eexists]. destruct (enables_run l (intent_tool i) Hl) as [[] ->]; by eexists.
Qed.

Lemma route_transcript_post env sid s v σ :
  core_ok σ → cur sid s σ → free sid σ → provider_ok (the_world σ) →
  ∃ σ' out, _route_transcript ttl_seconds catalog command_catalog command_catalog_authoritative env s v σ
    = (σ', out) ∧ tool_post σ σ' out.
Proof.
  intros Hok Hc Hf Hp. unfold _route_transcript.
  destruct (validate_bounded_text v 4000 false) as [b|] eqn:Hb;
    [|apply (finish_post sid); try done; [auto with pipa|by apply effect_none]].
  destruct (current_commands_run σ Hp) as (c & Hrun & Hread).
  unfold mbind at 1, M_bind at 1. rewrite Hrun. unfold mbind at 1, M_bind at 1. cbn [lift].
  apply validate_bounded_text_spec in Hb as [_ Hb].
  destruct (find_intent_run b c Hb Hread) as [[i|] ->];
    [by apply (run_tool_post env sid)|].
  apply (finish_post sid); try done; [auto with pipa|by apply effect_none].
Qed.

(** ** Catalog *)

Lemma catalog_reply_run cs σ :
  ∃ os, catalog_reply capability_catalog cs σ = (σ, Ok os) ∧ Forall envelope_ok os.
Proof.
  unfold catalog_reply. destruct capability_catalog as [f|]; [|apply reply_run; repeat constructor; sends_now].
  unfold mbind at 1, M_bind at 1. unfold attempt, provide, lift, mbind, M_bind.
  destruct (f (the_world σ)) as [v|e]; [|apply reply_run; repeat constructor; auto with pipa].
  destruct (_validate_capability_catalog v); apply reply_run; repeat constructor; auto with pipa; sends_now.
Qed.

Lemma catalog_response_run σ :
  ∃ os, _catalog_response catalog command_catalog capability_catalog σ = (σ, Ok os) ∧ Forall envelope_ok os.
Proof.
  unfold _catalog_response. destruct command_catalog as [f|]; [|apply catalog_reply_run].
  unfold mbind at 1, M_bind at 1. unfold attempt, provide, lift, mbind, M_bind.
  destruct (f (the_world σ)) as [v|e]; [|apply reply_run; repeat constructor; auto with pipa].
  destruct (check_commands catalog v); [apply catalog_reply_run|apply reply_run; repeat constructor; auto with pipa].
Qed.

(** ** Confirming *)

(** An accepted confirmation of session [sid] was spent and its tool's handler
    run once, on the accepted arguments. *)
Definition confirmed (env : core_env) (sid cid : pystr) σ σ' : Prop :=
  ∃ p d values,
    dget cid (pendings σ) = Some p ∧ owner_id p = Some sid ∧ t_confirm env < Confirmations.expires_at p ∧
    dget cid (pendings σ') = None ∧
    get_tool (tool_name p) catalog = Ok d ∧ accepted_values d p (the_world σ) = Ok values ∧
    the_world σ' = (handler d values (the_world σ)).1.

Definition confirm_effect (env : core_env) (sid cid : pystr) (accepted : bool) σ σ' : Prop :=
  the_world σ' = the_world σ ∨ (accepted = true ∧ confirmed env sid cid σ σ').

Lemma confirm_effect_trans env sid cid accepted σ σ1 σ2 :
  confirm_effect env sid cid accepted σ σ1 → the_world σ2 = the_world σ1 →
  (∀ k, dget k (pendings σ1) = None → dget k (pendings σ2) = None) →
  confirm_effect env sid cid accepted σ σ2.
Proof.
  intros [Hw|[Ha (p & d & v & ? & ? & ? & Hn & ? & ? & Hw)]] Hw2 Hk; [left; congruence|right].
  split; [done|]. exists p, d, v. split_and!; try done; [by apply Hk|congruence].
Qed.

Definition confirm_post (env : core_env) (sid cid : pystr) (accepted : bool) σ σ' (r : result (list object)) : Prop :=
  responded r ∧ core_ok σ' ∧ free sid σ' ∧ confirm_effect env sid cid accepted σ σ'.

(** After consuming the session's confirmation nothing else is pending. *)
Lemma consumed_ok sid cid p w σ :
  core_ok σ → dget cid (pendings σ) = Some p → owner_id p = Some sid →
  core_ok (with_router (mkRouter (ddel cid (pendings σ)) w) σ) ∧
  free sid (with_router (mkRouter (ddel cid (pendings σ)) w) σ).
Proof.
  intros Hok Hp Ho. split.
  - apply with_router_ok; [done|apply pending_ok_filter, Hok|by intros [k q] [_ ?]%ddel_elem|].
    intros o. apply dcount_filter_le.
  - intros k q Hin. eapply (dcount_ddel_one (owned_by (Some sid)) cid p); [exact Hp|exact Ho| |exact Hin].
    by apply g_one, Hok.
Qed.

Lemma cancel_finish sid s c r σ :
  core_ok σ → cur sid s σ → sends r →
  ∃ σ' out, (on_router (cancel_pending sid) ≫= λ _,
     set_ui s (u "idle") c ≫= λ s, reply [r; ui_message s]) σ = (σ', out) ∧
    responded out ∧ core_ok σ' ∧ free sid σ' ∧ the_world σ' = the_world σ ∧
    (∀ k, dget k (pendings σ) = None → dget k (pendings σ') = None).
Proof.
  intros Hok [Hs Hid] Hr. unfold mbind at 1, M_bind at 1.
  destruct (cancel_run_core sid σ) as [n ->]; [apply Hok|by eapply (b_ids _ (proj1 Hok))|].
  set (σ1 := mkCore _ _ _ _).
  assert (core_ok σ1) as Hok1 by by apply filter_pendings_ok.
  assert (free sid σ1) as Hf1 by apply cancelled_free.
  destruct (finish_run s (u "idle") c r σ1) as (os & Hrun & Hos); [done|done|].
  eexists _, _. split; [exact Hrun|].
  destruct (finish_ok sid s (u "idle") c σ1) as [Hok2 _]; [done..|].
  split_and!; [by exists os|done|done|done|]. intros k Hk. simpl. by apply dget_filter_None.
Qed.

Lemma rejected_shape p :
  get (u "status") (rejected p) = VStr (u "rejected") ∧
  getitem (u "status") (rejected p) = Ok (VStr (u "rejected")) ∧
  getitem (u "tool_name") (rejected p) = Ok (VStr (tool_name p)).
Proof. unfold rejected, with_call_id. by destruct (Confirmations.call_id p). Qed.

Lemma completed_shape p r :
  get (u "status") (completed p r) = VStr (u "completed") ∧
  getitem (u "status") (completed p r) = Ok (VStr (u "completed")) ∧
  getitem (u "tool_name") (completed p r) = Ok (VStr (tool_name p)) ∧
  getitem (u "result") (completed p r) = Ok (VDict r).
Proof. unfold completed, with_call_id. by destruct (Confirmations.call_id p). Qed.

Lemma is_a_Exception e : caught e [Exception] = true.
Proof. by destruct e. Qed.

Definition names_confirmation (f : object) (cid : pystr) (accepted : bool) : Prop :=
  getitem (u "confirmation_id") f = Ok (VStr cid) ∧ getitem (u "accepted") f = Ok (VBool accepted).

(** The three ways [resolve_confirmation] ends for a session. *)
Lemma resolve_core_run env sid cid accepted σ :
  core_ok σ →
  ∃ rs out, resolve_confirmation catalog (router_env env) cid accepted (Some sid) (router σ) = (rs, out) ∧
    core_ok (with_router rs σ) ∧ confirm_effect env sid cid accepted σ (with_router rs σ) ∧
    match out with
    | Raise e => True
    | Ok o => free sid (with_router rs σ) ∧ ((∃ p, o = rejected p) ∨ ∃ p r, o = completed p r)
    end.
Proof.
  intros Hok. rewrite resolve_unfold.
  destruct (consume cid (Some sid) (now (router_env env)) (pendings σ)) as [t [p|e]] eqn:Ec; apply consume_run in Ec.
  2: { destruct Ec as [-> ->]. eexists _, _. split; [done|]. split_and!; [by destruct σ as [? [] ? ?]|by left|done]. }
  destruct Ec as (Hp & -> & Ht & [Ho|Ho]);
    [by apply dget_elem, (g_owned _ (proj2 Hok)) in Hp|].
  pose proof (λ w, consumed_ok sid cid p w σ Hok Hp Ho) as Hcons.
  destruct accepted; cbn [negb].
  2: { eexists _, _. split; [done|]. split_and!; [apply Hcons|by left|apply Hcons|left; by exists p]. }
  destruct (get_tool (tool_name p) catalog) as [d|e] eqn:Ed;
    [|eexists _, _; split; [done|]; split_and!; [apply Hcons|by left|done]].
  destruct (accepted_values d p (world (router σ))) as [values|e] eqn:Ev;
    [|eexists _, _; split; [done|]; split_and!; [apply Hcons|by left|done]].
  eexists _, _. split; [done|]. split_and!; [apply Hcons| |].
  - right. split; [done|]. exists p, d, values. split_and!; try done. by apply dget_ddel_eq.
  - destruct (handler d values (world (router σ))).2 as [r|e]; [|done].
    split; [apply Hcons|]. right. by exists p, r.
Qed.

(** The last lines of an answered confirmation. *)
Lemma confirm_finish env sid cid accepted s text r σ σ1 :
  core_ok σ1 → cur sid s σ1 → free sid σ1 → sends r → confirm_effect env sid cid accepted σ σ1 →
  ∃ σ' out, (set_ui s (u "idle") (Some text) ≫= λ s, reply [r; ui_message s]) σ1 = (σ', out) ∧
    confirm_post env sid cid accepted σ σ' out.
Proof.
  intros Hok Hc Hf Hr He.
  destruct (finish_run s (u "idle") (Some text) r σ1 eq_refl Hr) as (os & Hrun & Hos).
  eexists _, _. split; [exact Hrun|]. destruct (finish_ok sid s (u "idle") (Some text) σ1) as [Hok' _]; [done..|].
  split_and!; [by exists os|done|done|]. by eapply confirm_effect_trans.
Qed.

Lemma on_confirm_post env sid s f cid accepted σ :
  core_ok σ → cur sid s σ → names_confirmation f cid accepted →
  ∃ σ' out, on_confirm catalog env s f σ = (σ', out) ∧ confirm_post env sid cid accepted σ σ' out.
Proof.
  intros Hok Hc [Hcid Hacc]. unfold on_confirm. unfold mbind at 1, M_bind at 1.
  unfold attempt, resolve_call, lift. unfold mbind at 1, M_bind at 1.
  rewrite Hcid, Hacc. cbn [mbind result_bind str_of truthy fst snd].
  unfold on_router at 1, zoom. rewrite (proj2 Hc).
  destruct (resolve_core_run env sid cid accepted σ Hok) as (rs & out & -> & Hok1 & He & Hout).
  change (mkCore (sessions σ) rs (facts σ) (verifier σ)) with (with_router rs σ).
  assert (cur sid s (with_router rs σ)) as Hc1 by done. destruct out as [o|e].
  - destruct Hout as [Hf1 [[p ->]|(p & r & ->)]].
    + destruct (rejected_shape p) as (Hg & Hst & Htn). unfold mbind at 1, M_bind at 1.
      rewrite Hst, Htn. cbn [mbind result_bind str_of].
      change (eq_str (VStr (u "rejected")) (u "rejected")) with true. cbv iota. cbn [fst snd].
      eapply confirm_finish; try done. by eapply sends_tool_result.
    + destruct (completed_shape p r) as (Hg & Hst & Htn & Hres). unfold mbind at 1, M_bind at 1.
      rewrite Hst, Htn, Hres. cbn [mbind result_bind str_of result_caption].
      change (eq_str (VStr (u "completed")) (u "rejected")) with false. cbv iota. cbn [fst snd].
      eapply confirm_finish; try done. by eapply sends_tool_result.
  - cbv zeta.
    edestruct (cancel_finish sid s) as (σ' & out & Hrun & Hr & Hok' & Hf' & Hw & Hk);
      [exact Hok1|exact Hc1|apply sends_error|].
    eexists σ', out. split; [exact Hrun|]. split_and!; [done..|]. by eapply confirm_effect_trans.
Qed.

(** ** Dispatch *)

Lemma save_run s σ : save s σ = (put_session s σ, Ok s).
Proof. done. Qed.

(** An assignment that keeps identity, device and UI state. *)
Lemma saved_ok sid s s' σ :
  core_ok σ → cur sid s σ → session_id s' = session_id s → Sessions.device_id s' = Sessions.device_id s →
  Sessions.state s' = Sessions.state s → core_ok (put_session s' σ) ∧ cur sid s' (put_session s' σ).
Proof.
  intros [Hb Hg] Hc Hid Hd Hst. assert (session_id s' = sid) as Hid' by (rewrite Hid; apply Hc).
  split; [split|].
  - eapply put_session_base; [done|exact Hc|done|done|]. unfold session_ok. rewrite Hst.
    eapply ok_states; [apply Hb|apply dget_elem, Hc].
  - by eapply put_session_gate; [|exact Hc| |]; auto.
  - by eapply put_session_cur.
Qed.

(** What one authenticated message can do to the world. *)
Inductive message_effect (env : core_env) (sid : pystr) (m : client_message) σ σ' : Prop :=
| effect_tool : world_effect σ σ' → message_effect env sid m σ σ'
| effect_confirmed cid :
    msg_type m = u "confirm" → names_confirmation (fields m) cid true →
    confirmed env sid cid σ σ' → message_effect env sid m σ σ'.

Definition message_post (env : core_env) (sid : pystr) (m : client_message) σ σ' (r : result (list object)) : Prop :=
  responded r ∧ core_ok σ' ∧ message_effect env sid m σ σ'.

Lemma message_of_tool env sid m σ σ' r : tool_post σ σ' r → message_post env sid m σ σ' r.
Proof. intros (? & ? & ?). split_and!; [done|done|by apply effect_tool]. Qed.

Lemma reply_post env sid m l σ :
  core_ok σ → Forall sends l → ∃ σ' out, reply l σ = (σ', out) ∧ message_post env sid m σ σ' out.
Proof.
  intros Hok Hl. destruct (reply_run l σ Hl) as (os & Hrun & Hos). eexists _, _. split; [exact Hrun|].
  split_and!; [by exists os|done|by apply effect_tool, effect_none].
Qed.

(** Decide the tests of the dispatcher on a literal message type. *)
Ltac eval_tests :=
  repeat match goal with
  | |- context [is_lit (u ?a) ?b] =>
      let r := eval vm_compute in (is_lit (u a) b) in change (is_lit (u a) b) with r
  | |- context [one_of (u ?a) ?l] =>
      let r := eval vm_compute in (one_of (u a) l) in change (one_of (u a) l) with r
  end; cbn [negb andb]; rewrite ?andb_false_r, ?andb_true_r; cbv iota.

Ltac reply_now :=
  apply reply_post; [done|]; repeat constructor; auto with pipa; sends_now.

Abbreviation dispatch := (dispatch_message ttl_seconds catalog command_catalog capability_catalog
  command_catalog_authoritative).

Lemma on_device_status_post env sid m s a b w v σ :
  core_ok σ → cur sid s σ →
  ∃ σ' out, on_device_status s (encode_fields (MDeviceStatus a b w) v) σ = (σ', out) ∧ message_post env sid m σ σ' out.
Proof.
  intros Hok Hc. unfold on_device_status, lift, mbind, M_bind.
  set (f := encode_fields _ _).
  change (getitem (u "audio_state") f) with (Ok (default VNone (VStr <$> a))).
  change (getitem (u "battery_percent") f) with (Ok (default VNone (VInt <$> b))).
  change (getitem (u "wifi_rssi") f) with (Ok (default VNone (VInt <$> w))). cbv iota. rewrite save_run.
  set (s' := with_status _ _ _ s).
  destruct (saved_ok sid s s' σ) as [Hok' _]; [done..|].
  destruct (reply_run [server_message (u "status_ack") []] (put_session s' σ)) as (os & Hrun & Hos);
    [repeat constructor; sends_now|].
  eexists _, _. split; [exact Hrun|]. split_and!; [by exists os|done|by apply effect_tool, effect_none].
Qed.

Lemma on_device_hello_post env sid m s fw caps v σ :
  core_ok σ → cur sid s σ →
  ∃ σ' out, on_device_hello s (encode_fields (MDeviceHello fw caps) v) σ = (σ', out) ∧ message_post env sid m σ σ' out.
Proof.
  intros Hok Hc. unfold on_device_hello. destruct (capabilities_initialized s); [reply_now|].
  unfold lift, mbind, M_bind.
  assert (getitem (u "capabilities") (encode_fields (MDeviceHello fw caps) v) = Ok (str_list caps)) as ->
    by by destruct fw.
  cbn [mbind result_bind py_tuple str_list]. rewrite save_run. set (s' := with_hello _ _ s).
  destruct (saved_ok sid s s' σ) as [Hok' _]; [done..|].
  destruct (reply_run [server_message (u "device_hello_ack") []] (put_session s' σ)) as (os & Hrun & Hos);
    [repeat constructor; sends_now|].
  eexists _, _. split; [exact Hrun|]. split_and!; [by exists os|done|by apply effect_tool, effect_none].
Qed.

Lemma on_tool_call_post env sid s n a c r v σ :
  core_ok σ → cur sid s σ → free sid σ →
  ∃ σ' out, on_tool_call ttl_seconds catalog env s (encode_fields (MToolCall n a c r) v) σ = (σ', out) ∧
    tool_post σ σ' out.
Proof.
  intros Hok Hc Hf. set (f := encode_fields _ _).
  assert (getitem (u "name") f = Ok (VStr n)) as Hn by (by destruct c, r).
  assert (getitem (u "arguments") f = Ok (VDict a)) as Ha by (by destruct c, r).
  unfold on_tool_call. rewrite Hn, Ha. cbn [mbind result_bind str_of].
  assert (∃ b, match get (u "request_digest") f with
    | VNone => Ok true
    | _ => match compute_request_digest n a with
           | Ok expected => Ok (eq_str (get (u "request_digest") f) expected)
           | Raise e => if caught e [ValueError] then Ok false else Raise e
           end
    end = Ok b) as [b Hb].
  { destruct (compute_request_digest n a) as [d|e] eqn:Ed.
    - destruct (get (u "request_digest") f); by eexists.
    - apply compute_request_digest_raises in Ed as ->. destruct (get (u "request_digest") f); by eexists. }
  unfold mbind at 1, M_bind at 1. unfold lift at 1. rewrite Hb. destruct b; cbn [negb].
  - unfold mbind at 1, M_bind at 1. unfold lift at 1. cbn [fst snd]. by apply (run_tool_post env sid).
  - apply (finish_post sid); try done; [auto with pipa|by apply effect_none].
Qed.

(** The UI state alone changes. *)
Lemma show_post env sid m s st c σ :
  core_ok σ → cur sid s σ → free sid σ → one_of st UI_STATES = true →
  ∃ σ' out, (set_ui s st c ≫= λ s, reply [ui_message s]) σ = (σ', out) ∧ message_post env sid m σ σ' out.
Proof.
  intros Hok Hc Hf Hst. unfold mbind, M_bind. rewrite set_ui_run by done.
  destruct (finish_ok sid s st c σ) as [Hok' _]; [done..|].
  destruct (reply_run [ui_message (with_ui st c s)] (put_session (with_ui st c s) σ)) as (os & Hrun & Hos);
    [repeat constructor; auto with pipa|].
  eexists _, _. split; [exact Hrun|]. split_and!; [by exists os|done|by apply effect_tool, effect_none].
Qed.

Lemma abort_post env sid m s σ :
  core_ok σ → cur sid s σ →
  ∃ σ' out, (on_router (cancel_pending (session_id s)) ≫= λ _, set_ui s (u "idle") None ≫= λ s,
      reply [server_message (u "tts_aborted") []; ui_message s]) σ = (σ', out) ∧
    message_post env sid m σ σ' out ∧ free sid σ'.
Proof.
  intros Hok Hc. rewrite (proj2 Hc).
  edestruct (cancel_finish sid s None (server_message (u "tts_aborted") [])) as (σ' & out & Hrun & Hr & Hok' & Hf & Hw & _);
    [done|done|sends_now|].
  exists σ', out. split; [exact Hrun|]. split; [|done]. split_and!; [done|done|]. by apply effect_tool, effect_none.
Qed.

Lemma confirm_message_post env sid cm s f cid accepted σ :
  core_ok σ → cur sid s σ → names_confirmation f cid accepted → msg_type cm = u "confirm" → fields cm = f →
  ∃ σ' out, on_confirm catalog env s f σ = (σ', out) ∧ message_post env sid cm σ σ' out.
Proof.
  intros Hok Hc Hn Ht Hf. destruct (on_confirm_post env sid s f cid accepted σ) as (σ' & out & Hrun & Hr & Hok' & _ & He); [done..|].
  exists σ', out. split; [done|]. split_and!; [done|done|].
  destruct He as [He|[-> He]]; [by apply effect_tool, effect_none|]. subst f. by eapply effect_confirmed.
Qed.

Lemma on_confirm_state s : (Sessions.state s =s "confirm") = false → Sessions.state s ≠ u "confirm".
Proof. intros Hs Heq. rewrite Heq in Hs. done. Qed.

(** Session states the guards of the dispatcher leave. *)
Ltac guards s :=
  destruct (capabilities_initialized s); cbn [negb andb]; [|reply_now];
  destruct (Sessions.state s =s "confirm") eqn:Hst; cbn [negb andb]; cbv iota;
  [try (unfold confirmation_required; reply_now)
  |try match goal with
   | Hok : core_ok ?σ, Hc : cur ?sid s ?σ |- _ =>
       assert (free sid σ) by (eapply free_of_state; [apply Hok|apply Hc|by apply on_confirm_state])
   end].

Lemma dispatch_signal_post env sid s n cm f σ :
  core_ok σ → cur sid s σ → one_of n SIGNALS = true →
  ∃ σ' out, dispatch env s n f σ = (σ', out) ∧ message_post env sid cm σ σ' out.
Proof.
  intros Hok Hc (lit & Hn & ->)%one_of_elem. unfold SIGNALS in Hn.
  repeat (apply elem_of_cons in Hn as [->|Hn]; [unfold dispatch_message; eval_tests|]); [..|by apply not_elem_of_nil in Hn].
  { destruct (capabilities_initialized s); cbn [negb]; [|reply_now].
    destruct (catalog_response_run σ) as (os & Hrun & Hos). eexists _, _. split; [exact Hrun|].
    split_and!; [by exists os|done|by apply effect_tool, effect_none]. }
  5: { edestruct (abort_post env sid cm s σ) as (σ' & out & Hrun & Hp & _); [done..|]. eauto. }
  all: guards s.
  1,2: by apply show_post.
  all: destruct (finish_post sid s (u "idle") (Some (u "La voz aún no está disponible."))
    (error "voice_unavailable" (u "La voz aún no está disponible.")) σ σ) as (σ' & out & Hrun & Hp);
    [done..|auto with pipa|by apply effect_none|]; eauto using message_of_tool.
Qed.

Lemma dispatch_post env sid s cm m σ :
  core_ok σ → cur sid s σ → carries cm m → message_ok m → provider_ok (the_world σ) →
  ∃ σ' out, dispatch env s (msg_type cm) (fields cm) σ = (σ', out) ∧ message_post env sid cm σ σ' out.
Proof.
  intros Hok Hc (Ht & v & _ & Hf) Hm Hprov. 
  destruct m as [d|d c sg fw caps|fw caps|t so|n|r|a b w|g|n a c r|c b]; cbn [type_of] in Ht;
    [..|pose proof (confirm_message_post env sid cm s (encode_fields (MConfirm c b) v) c b σ) as Hcm];
    rewrite Ht, Hf.
  5: by apply dispatch_signal_post.
  all: unfold dispatch_message; eval_tests.
  - guards s. reply_now.
  - guards s. reply_now.
  - by apply on_device_hello_post.
  - guards s. change (getitem (u "text") _) with (Ok (VStr t)). unfold mbind, M_bind, lift.
    destruct (route_transcript_post env sid s (VStr t) σ) as (σ' & out & Hrun & Hp); [done..|].
    eauto using message_of_tool.
  - reply_now.
  - by apply on_device_status_post.
  - guards s. change (getitem (u "gesture") _) with (Ok (VStr g)). reply_now.
  - guards s. destruct (on_tool_call_post env sid s n a c r v σ) as (σ' & out & Hrun & Hp); [done..|].
    eauto using message_of_tool.
  - destruct (capabilities_initialized s); cbn [negb]; [|reply_now]. by apply Hcm.
Qed.

(** ** Messages and sessions *)

(** Every effect is an effect on the state before stale sessions were pruned. *)
Lemma message_effect_back env sid m σ σ1 σ' :
  base_ok σ → the_world σ1 = the_world σ → (∀ kv, kv ∈ pendings σ1 → kv ∈ pendings σ) →
  message_effect env sid m σ1 σ' → message_effect env sid m σ σ'.
Proof.
  intros Hb Hw Hp [He|cid Ht Hn (p & d & v & Hg & Ho & Hx & Hn' & Hd & Hv & Hw')].
  - apply effect_tool. by eapply world_effect_from.
  - eapply effect_confirmed; [done|done|]. exists p, d, v. rewrite Hw in Hv, Hw'. split_and!; try done.
    apply elem_dget; [apply Hb|]. by apply Hp, dget_elem.
Qed.

(** The session a call works on: registered and not idle. *)
Lemma pruned_session env sid σ σ' :
  base_ok σ → sessions σ' = filter (λ kv, ¬ idle (t_prune env) kv.2) (sessions σ) →
  get_session sid (sessions σ') =
    match dget sid (sessions σ) with
    | Some s => if decide (idle (t_prune env) s) then None else Some s
    | None => None
    end.
Proof.
  intros Hb ->. unfold get_session. destruct (dget sid (sessions σ)) as [s|] eqn:Hs.
  - case_decide as Hi.
    + apply dget_None. intros ([k s'] & Heq & [Hn Hin]%list_elem_of_filter)%list_elem_of_fmap.
      cbn in Heq; subst k. apply elem_dget in Hin; [|apply Hb]. by simplify_eq.
    + apply elem_dget; [by apply filter_sublist_wf, Hb|]. apply list_elem_of_filter. split; [done|by apply dget_elem].
  - by apply dget_filter_None.
Qed.

Abbreviation handle := (handle ttl_seconds catalog command_catalog capability_catalog
  command_catalog_authoritative).
Abbreviation handle_transcript := (handle_transcript ttl_seconds catalog command_catalog
  command_catalog_authoritative).

Lemma handle_post env sid cm m σ :
  core_ok σ → carries cm m → message_ok m → provider_ok (the_world σ) →
  ∃ σ' out, handle env sid cm σ = (σ', out) ∧ message_post env sid cm σ σ' out.
Proof.
  intros Hok Hcm Hm Hprov. destruct (prune_stale_run env σ Hok) as (σ1 & Hrun & Hok1 & Hsh & Hs & _).
  unfold handle. unfold mbind at 1, M_bind at 1. rewrite Hrun. unfold mbind at 1, M_bind at 1. cbn [gets].
  destruct (get_session sid (sessions σ1)) as [s|] eqn:Hget.
  - unfold mbind at 1, M_bind at 1. rewrite save_run.
    destruct (saved_ok sid s (touch (t_touch env) s) σ1) as [Hok2 Hc2]; [done|by apply cur_lookup; [apply Hok1|]|done..|].
    set (σ2 := put_session _ σ1) in *.
    destruct (dispatch_post env sid (touch (t_touch env) s) cm m σ2) as (σ' & out & Hd & Hr & Hok' & He); [done..| |].
    { unfold provider_ok in *. change (the_world σ2) with (the_world σ1). by rewrite (sh_world _ _ Hsh). }
    exists σ', out. split; [exact Hd|]. split_and!; [done|done|].
    eapply message_effect_back; [apply Hok| | |exact He]; [apply Hsh|apply Hsh].
  - destruct (reply_post env sid cm [error "unknown_session" (u "Sesión desconocida.")] σ1) as (σ' & out & Hd & Hr & Hok' & He);
      [done|repeat constructor; auto with pipa|].
    exists σ', out. split; [exact Hd|]. split_and!; [done|done|].
    eapply message_effect_back; [apply Hok| | |exact He]; [apply Hsh|apply Hsh].
Qed.

Lemma handle_transcript_post env sid v σ :
  core_ok σ → provider_ok (the_world σ) →
  ∃ σ' out, handle_transcript env sid v σ = (σ', out) ∧ tool_post σ σ' out.
Proof.
  intros Hok Hprov. unfold handle_transcript. unfold mbind at 1, M_bind at 1. cbn [gets].
  destruct (get_session sid (sessions σ)) as [s|] eqn:Hget;
    [|edestruct (reply_run [error "unknown_session" (u "Sesión desconocida.")] σ) as (os & Hrun & Hos);
      [repeat constructor; auto with pipa|];
      eexists _, _; split; [exact Hrun|]; split_and!; [by exists os|done|by apply effect_none]].
  unfold mbind at 1, M_bind at 1. rewrite save_run.
  destruct (saved_ok sid s (touch (t_touch env) s) σ) as [Hok2 Hc2]; [done|by apply cur_lookup; [apply Hok|]|done..|].
  set (σ2 := put_session _ σ) in *. set (s2 := touch _ s) in *.
  assert (∀ l, Forall sends l → ∃ σ' out, reply l σ2 = (σ', out) ∧ tool_post σ σ' out) as Hreply.
  { intros l Hl. destruct (reply_run l σ2 Hl) as (os & Hrun & Hos). eexists _, _. split; [exact Hrun|].
    split_and!; [by exists os|done|by apply effect_none]. }
  destruct (capabilities_initialized s2); cbn [negb]; [|apply Hreply; repeat constructor; auto with pipa].
  destruct (Sessions.state s2 =s "confirm") eqn:Hst; [apply Hreply; repeat constructor; auto with pipa|].
  destruct (route_transcript_post env sid s2 v σ2) as (σ' & out & Hrun & Hr & Hok' & He); try done.
  { eapply free_of_state; [apply Hok2|apply Hc2|by apply on_confirm_state]. }
  exists σ', out. split; [done|]. split_and!; [done|done|]. by eapply world_effect_from; [|exact He].
Qed.

(** ** Opening and closing sessions *)

Lemma with_verifier_ok v σ :
  core_ok σ → vi_inv v → core_ok (mkCore (sessions σ) (router σ) (facts σ) v).
Proof. intros [[? ? ? ? ?] [? ? ?]] Hv. by split; split. Qed.

(** A session identifier that was never drawn before: neither registered nor
    the owner of a pending action. *)
Definition fresh_session (token : pystr) σ : Prop :=
  token ≠ [] ∧ dget token (sessions σ) = None ∧ free token σ.

Lemma fresh_shrinks token σ σ' : shrinks σ σ' → fresh_session token σ → fresh_session token σ'.
Proof.
  intros Hsh (Hne & Hn & Hf). split_and!; [done| |].
  - destruct (dget token (sessions σ')) eqn:E; [|done]. apply (sh_sessions _ _ Hsh) in E. congruence.
  - intros k p Hin. by eapply Hf, (sh_pending _ _ Hsh).
Qed.

Lemma open_session_run d fw caps i now token σ :
  core_ok σ → fresh_session token σ →
  ∃ σ' r, on_sessions (Sessions.create d fw caps i now token) σ = (σ', r) ∧ core_ok σ' ∧
    router σ' = router σ ∧ facts σ' = facts σ ∧ verifier σ' = verifier σ ∧
    let live := filter (λ kv, ¬ idle now kv.2) (sessions σ) in
    let s := new_session d fw caps i now token in
    ((r = Ok s ∧ sessions σ' = live ++ [(token, s)]) ∨ (r = Raise SessionLimitError ∧ sessions σ' = live)).
Proof.
  intros [Hb Hg] (Hne & Hn & Hf). unfold on_sessions, zoom.
  pose proof (keeps_create_session d fw caps i now token (sessions σ) (b_sessions _ Hb)) as Hk. unfold wp in Hk.
  set (live := filter (λ kv, ¬ idle now kv.2) (sessions σ)).
  assert (∀ sid s, dget sid live = Some s → dget sid (sessions σ) = Some s) as Hsub.
  { intros sid s Hs. apply elem_dget; [apply Hb|]. apply dget_elem in Hs.
    by apply list_elem_of_filter in Hs as [_ ?]. }
  assert (dget token live = None) as Hn' by by apply dget_filter_None.
  destruct Hb as [Hr Hp Hm Hv Hi], Hg as [Hst Hone Hown].
  destruct (create_session_run d fw caps i now token (sessions σ) Hr) as [(Hrun & _)|(Hrun & _)];
    fold live in Hrun; rewrite Hrun in Hk |- *; simpl in Hk; rewrite ?dset_fresh in * by done.
  - eexists _, _. split; [done|]. split_and!; try done; [|by left]. split; split; try done; simpl.
    + intros sid s. rewrite <- dset_fresh by done. rewrite dget_dset. case_decide; [by intros; subst|].
      intros Hs. by eapply Hi, Hsub.
    + intros k p sid s Hin Ho. rewrite <- dset_fresh by done. rewrite dget_dset. case_decide.
      * subst. by eapply Hf in Ho.
      * intros Hs. by eapply Hst; [| |apply Hsub].
  - eexists _, _. split; [done|]. split_and!; try done; [|by right]. split; split; try done; simpl.
    + intros sid s Hs. by eapply Hi, Hsub.
    + intros k p sid s Hin Ho Hs. by eapply Hst; [| |apply Hsub].
Qed.

Lemma close_run sid σ :
  core_ok σ → sid ≠ [] →
  ∃ σ', close sid σ = (σ', Ok tt) ∧ core_ok σ' ∧ shrinks σ σ' ∧ free sid σ' ∧
    sessions σ' = ddel sid (sessions σ) ∧
    pendings σ' = filter (λ kv, ¬ owned_by (Some sid) kv.2) (pendings σ).
Proof.
  intros Hok Hne. unfold close, mbind, M_bind. destruct (cancel_run_core sid σ) as [n ->]; [apply Hok|done|].
  eexists. split; [done|]. pose proof (filter_pendings_ok (λ kv, ¬ owned_by (Some sid) kv.2) σ Hok) as Hok1.
  assert (∀ i s, dget i (ddel sid (sessions σ)) = Some s → dget i (sessions σ) = Some s) as Hsub.
  { intros i s. rewrite dget_ddel. by case_decide. }
  split_and!; [|split; try done|by apply cancelled_free|done|done].
  - destruct Hok1 as [[Hr Hp Hm Hv Hi] [Hst Hone Hown]]. split; split; try done.
    + by apply registry_ok_filter.
    + intros i s Hs. by eapply Hi, Hsub.
    + intros k p i s Hin Ho Hs. by eapply Hst; [| |apply Hsub].
  - intros kv Hin. by apply list_elem_of_filter in Hin as [_ ?].
Qed.

Lemma create_challenge_post cenv d σ :
  core_ok σ →
  ∃ v r, create_challenge cenv d σ = (mkCore (sessions σ) (router σ) (facts σ) v, r) ∧
    core_ok (mkCore (sessions σ) (router σ) (facts σ) v) ∧
    vi_create_challenge cenv d (u "session") (verifier σ) = (v, r).
Proof using HI.
  intros Hok. unfold create_challenge, on_verifier, zoom.
  pose proof (vi_create_keeps cenv d (u "session") (verifier σ) (b_verifier _ (proj1 Hok))) as Hk. unfold wp in Hk.
  destruct (vi_create_challenge _ _ _ (verifier σ)) as [v r]. exists v, r. split_and!; [done| |done].
  by apply with_verifier_ok.
Qed.

(** Authentication: whatever happens, actions and world are only pruned; the
    session it returns is the new one of the device the verifier accepted. *)
Lemma authenticate_post env d c sg fw caps σ :
  core_ok σ → fresh_session (session_token env) σ →
  ∃ σ' r, authenticate env d c sg fw caps σ = (σ', r) ∧ core_ok σ' ∧
    the_world σ' = the_world σ ∧ facts σ' = facts σ ∧ (∀ kv, kv ∈ pendings σ' → kv ∈ pendings σ) ∧
    match r with
    | Ok s => ∃ l response v a,
        py_tuple (or_empty caps) = Ok l ∧ check_signed (mkSigned c d sg) = Ok response ∧
        vi_verify_response response (t_verify env) (verifier σ) = (v, Ok a) ∧ auth_device_id a = d ∧
        s = new_session d fw l true (t_session env) (session_token env) ∧
        dget (session_token env) (sessions σ') = Some s
    | Raise _ => ∀ sid s, dget sid (sessions σ') = Some s → dget sid (sessions σ) = Some s
    end.
Proof using HI.
  intros Hok Hfresh. unfold authenticate.
  destruct (prune_stale_run env σ Hok) as (σ1 & Hrun & Hok1 & Hsh & Hs & _).
  unfold mbind at 1, M_bind at 1. rewrite Hrun. unfold mbind at 1, M_bind at 1. cbn [lift].
  destruct (check_signed (mkSigned c d sg)) as [response|e] eqn:Ec;
    [|eexists _, _; split; [done|]; split_and!; [done|apply Hsh..]].
  assert (signed_device_id response = d) as Hd by by apply check_signed_id in Ec as ->.
  unfold mbind at 1, M_bind at 1. unfold on_verifier, zoom.
  pose proof (vi_verify_keeps response (t_verify env) (verifier σ1) (b_verifier _ (proj1 Hok1))) as Hk. unfold wp in Hk.
  destruct (vi_verify_response response (t_verify env) (verifier σ1)) as [v [a|e]] eqn:Ev.
  2: { eexists _, _; split; [done|]; split_and!; [by apply with_verifier_ok|apply Hsh..]. }
  pose proof (vi_verify_device _ _ _ _ _ (b_verifier _ (proj1 Hok1)) Ev) as Ha.
  pose proof (with_verifier_ok v σ1 Hok1 Hk) as Hok2. set (σ2 := mkCore _ _ _ v) in *.
  unfold mbind at 1, M_bind at 1. cbn [lift].
  destruct (py_tuple (or_empty caps)) as [l|e] eqn:El;
    [|eexists _, _; split; [done|]; subst σ2; split_and!; [done|apply Hsh..]].
  destruct (open_session_run (auth_device_id a) fw l true (t_session env) (session_token env) σ2 Hok2)
    as (σ' & r & Hc & Hok' & Hrt & Hf & Hv & Hcase); [exact (fresh_shrinks _ σ σ1 Hsh Hfresh)|].
  exists σ', r. split; [exact Hc|]. unfold the_world. rewrite Hrt, Hf.
  split_and!; [done|apply Hsh|apply Hsh|apply Hsh|].
  destruct Hcase as [(-> & Hs')|(-> & Hs')].
  - rewrite (sh_verifier _ _ Hsh) in Ev. exists l, response, v, a. rewrite Ha, Hd in *. split_and!; try done.
    rewrite Hs', <- dset_fresh by apply dget_filter_None, (fresh_shrinks _ σ σ1 Hsh Hfresh). apply dget_dset_eq.
  - intros sid s Hsid. rewrite Hs' in Hsid. apply (sh_sessions _ _ Hsh).
    apply elem_dget; [apply Hok1|]. apply dget_elem in Hsid. by apply list_elem_of_filter in Hsid as [_ ?].
Qed.
End Facts.
