(* ===== verification/PipaParser.v ===== *)
(** * The Core's parser interface, discharged

    [pipa_parser] gives the Core the two parsers of [intents.py]; the promise
    of [IntentParser] is the totality proved in [IntentFacts].  A catalog that
    passes the Core's own validation is one the matcher can read. *)
From S2P Require Import Prelude Dict Value TextPolicy Effects Tools Catalog PyText Core Intents IntentFacts.
From S2P Require Import CatalogIntents CoreFacts.

Section Parser.
Context `{T : UnicodeText} {HT : UnicodeTextLaws T}.

Lemma text_answer_total b : bounded_text 4000 false b → ∃ i, Intents.parse_text_intent b = Ok i.
Proof using HT.
  intros Hb. unfold Intents.parse_text_intent. destruct (negb _); [by eexists|].
  destruct (first_answer_ok rules (original_text b) (_fold_phrase (original_text b)) rules_ok (bounded_digits b Hb))
    as (r & Hr & _). by exists r.
Qed.

#[local] Instance pipa_parser : IntentParser := {|
  Core.parse_catalog_intent := CatalogIntents.parse_catalog_intent;
  Core.parse_text_intent := Intents.parse_text_intent;
  Core.text_intent_total := text_answer_total
|}.

Lemma validated_parameter seen v p : validate_parameter seen v = Ok p → parameter_shape v.
Proof using Type.
  unfold validate_parameter. intros Hp d ->. destruct (negb _); [done|].
  destruct (get (u "name") d); try done. destruct (get (u "label") d); try done.
  destruct (get (u "kind") d) as [| | | |kind| |]; try done. destruct (get (u "max_length") d); try done.
  split; [done|]. intros _ w. destruct (check _); [|done]. cbn [mbind result_bind] in Hp.
  destruct (get_or (u "options") (VList []) d); done.
Qed.

Lemma validated_parameters seen l ps : validate_parameters seen l = Ok ps → Forall parameter_shape l.
Proof using Type.
  revert seen ps. induction l as [|v l IH]; intros seen ps; [by constructor|]. cbn [validate_parameters].
  destruct (validate_parameter seen v) as [p|] eqn:Ep; [|done]. cbn [mbind result_bind].
  destruct (validate_parameters _ l) as [rest|] eqn:El; [|done]. intros _.
  constructor; [by eapply validated_parameter|by eapply IH].
Qed.

Context {W : Type} (catalog : dict pystr (ToolDefinition W)).

Lemma validated_command seen v c : catalog_command catalog seen v = Ok c → command_shape v.
Proof using Type.
  unfold catalog_command. destruct v as [| | | | | |d]; try done. destruct (negb _); [done|].
  destruct (optional_field _ (u "parameters") d) as [ps|] eqn:Ep; [|done]. intros _.
  exists d. split; [done|]. intros params Hparams. unfold optional_field in Ep. unfold get_or in Hparams.
  destruct (dget (u "parameters") d) as [v|]; cbn [default from_option id] in Hparams; [|by injection Hparams as <-].
  subst v. unfold _validate_catalog_parameters in Ep. destruct (_ <? len params); [done|].
  destruct (validate_parameters [] params) as [l|] eqn:El; [|done]. by eapply validated_parameters.
Qed.

Lemma validated_commands seen l cs : catalog_commands catalog seen l = Ok cs → Forall command_shape l.
Proof using Type.
  revert seen cs. induction l as [|v l IH]; intros seen cs; [by constructor|]. cbn [catalog_commands].
  destruct (catalog_command catalog seen v) as [c|] eqn:Ec; [|done]. cbn [mbind result_bind].
  destruct (catalog_commands catalog _ l) as [rest|] eqn:El; [|done]. intros _.
  constructor; [by eapply validated_command|by eapply IH].
Qed.

(** Its tool names are texts. *)
Definition named (v : value) : Prop := ∃ d t, v = VDict d ∧ get (u "tool_name") d = VStr t.
Lemma validated_name seen v c : catalog_command catalog seen v = Ok c → named v.
Proof using Type.
  unfold catalog_command. destruct v as [| | | | | |d]; try done. destruct (negb _); [done|]. intros H. exists d.
  result_inv. unfold command_text in *. destruct (get (u "tool_name") d); try done. by eexists.
Qed.
Lemma validated_names seen l cs : catalog_commands catalog seen l = Ok cs → Forall named l.
Proof using Type.
  revert seen cs. induction l as [|v l IH]; intros seen cs; [by constructor|]. cbn [catalog_commands].
  destruct (catalog_command catalog seen v) as [c|] eqn:Ec; [|done]. cbn [mbind result_bind].
  destruct (catalog_commands catalog _ l) as [rest|] eqn:El; [|done]. intros _.
  constructor; [by eapply validated_name|by eapply IH].
Qed.

(** a catalog the Core's validator accepts is a list of records on which
    the routing of text never raises: for every text the Core accepts both the
    catalog matcher and the free-text parser return. *)
Theorem checked_catalog_readable v cs :
  check_commands catalog v = Ok cs → readable v ∧ ∀ authoritative b,
    bounded_text 4000 false b → ∃ i, find_intent authoritative b (Some v) = Ok i.
Proof using HT.
  unfold check_commands. destruct v as [| | | | |l|]; try done. destruct (_ <? len l); [done|]. intros Hcs.
  apply validated_commands in Hcs as Hshape. apply validated_names in Hcs as Hnames.
  assert (readable (VList l)) as Hread.
  { split.
    - clear Hcs Hshape. induction Hnames as [|v l (d & t & -> & Ht) _ (ds & IH & Hds)]; [by exists []|]. exists (d :: ds).
      injection IH as ->. split; [done|]. constructor; [by rewrite Ht|done].
    - intros b Hb. unfold Core.parse_catalog_intent, pipa_parser, CatalogIntents.parse_catalog_intent.
      destruct (negb _); [by eexists|]. cbn [py_tuple mbind result_bind]. destruct (bounded_original b Hb) as [x Hx].
      assert (∃ found, traverse (candidate (original_text b)) l = Ok found) as [found ->]; [|by eexists].
      clear Hcs Hnames. induction Hshape as [|c l Hc _ [found IH]]; [by exists []|]. cbn [traverse].
      destruct (candidate_returns _ _ _ Hc Hx) as [o ->]. cbn [mbind result_bind]. rewrite IH. by eexists. }
  split; [exact Hread|]. intros authoritative b Hb. apply find_intent_run; [exact Hb|]. by intros ? [= <-].
Qed.
End Parser.

Lemma checked_catalog_readable_witness :
  let H := pipa_parser (T := ascii_text) in
  readable (VList [sample_command]) ∧ ∀ authoritative b,
    bounded_text 4000 false b → ∃ i, find_intent authoritative b (Some (VList [sample_command])) = Ok i.
Proof.
  eapply (checked_catalog_readable (T := ascii_text) sample_catalog).
  vm_compute. reflexivity.
Defined.
