(* ===== verification/Gate.v ===== *)
(** * The Core as a whole

    The verifier of [Challenge] implements the interface the Core uses.  Over
    the calls the transports make, [core_ok] is an invariant; the theorems
    then say what a message can and cannot do: every call of [handle] answers
    with messages of the wire contract, and nothing but a safe tool or an
    accepted confirmation of the same session reaches the world. *)
From S2P Require Import Prelude Dict Value Effects TextPolicy Json Protocol Binding Sessions.
From S2P Require Import Confirmations Memory Tools Catalog Crypto Challenge PyStr Captions Core.
From S2P Require Import CoreFacts.

(** ** The verifier behind the interface *)

Section Verifier.
Context {SK PK : Type} `{E : Ed25519 SK PK} (clock_skew_seconds : Z).

#[global] Instance verifier_interface : VerifierI (verifier_state PK) := {|
  vi_create_challenge env d op := Challenge.create_challenge env d DEFAULT_TTL_SECONDS op;
  vi_verify_response := verify_response clock_skew_seconds;
  vi_inv := verifier_ok
|}.

#[global] Instance verifier_laws : VerifierLaws verifier_interface.
Proof.
  split; cbn [vi_create_challenge vi_verify_response vi_inv verifier_interface].
  - intros. apply keeps_create_challenge.
  - intros. apply keeps_verify.
  - intros r now v v' a Hv Hrun. apply verify_response_run in Hrun as (c & pk & Ha); [|done].
    rewrite (acc_result _ _ _ _ _ _ _ _ Ha). simpl. symmetry. apply Ha.
  - intros env d op v v' e Hv Hrun. apply create_challenge_run in Hrun; [|done].
    destruct Hrun as [[-> _]|[(-> & _)|(-> & _)]]; done.
  - intros r now v v' e Hv Hrun. by apply verify_response_run in Hrun as [? _].
Qed.
End Verifier.

(** ** Reachable states *)

Section Properties.
Context {W V : Type} `{I : VerifierI V} {HI : VerifierLaws I} `{UnicodeData} `{IntentParser}.
Context (ttl_seconds : Z) (catalog : dict pystr (ToolDefinition W)).
Context (command_catalog capability_catalog : option (W → result value)).
Context (command_catalog_authoritative : bool).
Implicit Types (σ : core_state W V).

Abbreviation handle := (handle ttl_seconds catalog command_catalog capability_catalog
  command_catalog_authoritative).
Abbreviation handle_transcript := (handle_transcript ttl_seconds catalog command_catalog
  command_catalog_authoritative).
Abbreviation provider_ok := (provider_ok command_catalog).

(** A call of a transport.  Session identifiers are drawn fresh; a message is
    one the parser returned. *)
Inductive core_step σ : core_state W V → Prop :=
| step_challenge cenv d : core_step σ (create_challenge cenv d σ).1
| step_authenticate env d c sg fw caps :
    fresh_session (session_token env) σ → core_step σ (authenticate env d c sg fw caps σ).1
| step_open d fw caps i now token :
    fresh_session token σ → core_step σ (on_sessions (Sessions.create d fw caps i now token) σ).1
| step_close sid : sid ≠ [] → core_step σ (close sid σ).1
| step_handle env sid v cm :
    parse_client_message v = Ok cm → provider_ok (the_world σ) → core_step σ (handle env sid cm σ).1
| step_transcript env sid v :
    provider_ok (the_world σ) → core_step σ (handle_transcript env sid v σ).1.

Definition new_core (w : W) (v : V) : core_state W V := mkCore [] (mkRouter [] w) [] v.

Lemma new_core_ok w v : vi_inv v → core_ok (new_core w v).
Proof.
  intros Hv. split; split; try done; simpl.
  - apply registry_ok_empty.
  - apply pending_ok_empty.
  - apply memory_ok_empty.
  - by intros k p ?%not_elem_of_nil.
Qed.

Lemma core_step_ok σ σ' : core_ok σ → core_step σ σ' → core_ok σ'.
Proof using HI.
  intros Hok [cenv d|env d c sg fw caps Hf|d fw caps i now token Hf|sid Hne|env sid v cm Hp Hprov|env sid v Hprov].
  - destruct (create_challenge_post cenv d σ Hok) as (v & r & -> & ? & _). done.
  - destruct (authenticate_post env d c sg fw caps σ Hok Hf) as (σ1 & r & -> & ? & _). done.
  - destruct (open_session_run d fw caps i now token σ Hok Hf) as (σ1 & r & -> & ? & _). done.
  - destruct (close_run sid σ Hok Hne) as (σ1 & -> & ? & _). done.
  - destruct (parse_client_message_carries v cm Hp) as (m & _ & _ & _ & Hc & Hm & _).
    edestruct (handle_post ttl_seconds catalog command_catalog capability_catalog
      command_catalog_authoritative env sid cm m σ) as (σ1 & r & -> & _ & ? & _); done.
  - edestruct (handle_transcript_post ttl_seconds catalog command_catalog
      command_catalog_authoritative env sid v σ) as (σ1 & r & -> & _ & ? & _); done.
Qed.

(** C2: Whatever calls the transports make on a new Core, in any order, its
    state stays sound: all component invariants hold; a pending action belongs
    to a session, a session has at most one, and it has one only while it
    shows the confirmation screen. *)
Theorem core_invariant w v σ (Hv : vi_inv v) (Hreach : rtc core_step (new_core w v) σ) : core_ok σ.
Proof using HI.
  assert (core_ok (new_core w v)) as Hok by by apply new_core_ok.
  induction Hreach as [|σ1 σ2 σ3 Hstep _ IH]; [done|]. by eapply IH, core_step_ok.
Qed.

(** C1: Every message the parser accepts is answered: [handle] returns, with
    responses that all meet the wire contract, and the state stays sound.  The
    world is left alone unless the message ran one safe tool, or it accepts a
    pending, unexpired confirmation of the very session, which is spent and
    whose handler runs once, on the arguments that were shown. *)
Theorem handle_safe env sid v cm σ (Hok : core_ok σ)
    (Hparse : parse_client_message v = Ok cm) (Hprov : provider_ok (the_world σ)) :
  ∃ σ' os, handle env sid cm σ = (σ', Ok os) ∧ Forall envelope_ok os ∧ core_ok σ' ∧
    message_effect catalog env sid cm σ σ'.
Proof using Type.
  destruct (parse_client_message_carries v cm Hparse) as (m & _ & _ & _ & Hc & Hm & _).
  edestruct (handle_post ttl_seconds catalog command_catalog capability_catalog
    command_catalog_authoritative env sid cm m σ) as (σ' & r & Hrun & (os & -> & Hos) & Hok' & He); try done.
  by exists σ', os.
Qed.

(** A transcript is answered the same way and can at most run one safe
    tool: no transcript accepts a confirmation. *)
Theorem handle_transcript_safe env sid v σ (Hok : core_ok σ) (Hprov : provider_ok (the_world σ)) :
  ∃ σ' os, handle_transcript env sid v σ = (σ', Ok os) ∧ Forall envelope_ok os ∧ core_ok σ' ∧
    world_effect catalog σ σ'.
Proof using Type.
  edestruct (handle_transcript_post ttl_seconds catalog command_catalog
    command_catalog_authoritative env sid v σ) as (σ' & r & Hrun & (os & -> & Hos) & Hok' & He); try done.
  by exists σ', os.
Qed.

(** [authenticate] returns a session only when the verifier accepted the
    signed response, and the session is the new one of that device; failing,
    it adds no session.  It never touches the world or adds an action. *)
Theorem authenticate_verified env d c sg fw caps σ (Hok : core_ok σ)
    (Hfresh : fresh_session (session_token env) σ) :
  ∃ σ' r, authenticate env d c sg fw caps σ = (σ', r) ∧ core_ok σ' ∧
    the_world σ' = the_world σ ∧ facts σ' = facts σ ∧
    (∀ kv, kv ∈ Tools.pending (router σ') → kv ∈ Tools.pending (router σ)) ∧
    match r with
    | Ok s => ∃ l response v a,
        py_tuple (or_empty caps) = Ok l ∧ check_signed (mkSigned c d sg) = Ok response ∧
        vi_verify_response response (t_verify env) (verifier σ) = (v, Ok a) ∧ auth_device_id a = d ∧
        s = new_session d fw l true (t_session env) (session_token env) ∧
        dget (session_token env) (sessions σ') = Some s
    | Raise _ => ∀ sid s, dget sid (sessions σ') = Some s → dget sid (sessions σ) = Some s
    end.
Proof using HI. by apply authenticate_post. Qed.

(** Closing a session always succeeds; it removes that session and
    exactly the pending actions it owns, and nothing else. *)
Theorem close_revokes sid σ (Hok : core_ok σ) (Hne : sid ≠ []) :
  close sid σ =
    (mkCore (ddel sid (sessions σ))
       (mkRouter (filter (λ kv, ¬ owned_by (Some sid) kv.2) (Tools.pending (router σ))) (the_world σ))
       (facts σ) (verifier σ), Ok tt) ∧
  core_ok (close sid σ).1.
Proof using Type.
  destruct (close_run sid σ Hok Hne) as (σ' & Hrun & Hok' & Hsh & _ & Hs & Hp). rewrite Hrun. split; [|done].
  destruct σ' as [ss [pe wo] fa ve], Hsh as [Hw Hf Hv _ _]. simpl in *. unfold the_world in *. simpl in *. congruence.
Qed.

(** A session idle for fifteen minutes can do nothing any more: whatever
    it sends is answered [unknown_session], the session and its pending
    actions are gone, and the world is untouched. *)
Theorem stale_session_expires env sid s cm σ (Hok : core_ok σ)
    (Hs : dget sid (sessions σ) = Some s) (Hidle : idle (t_prune env) s) :
  ∃ σ', handle env sid cm σ = (σ', (λ o, [o]) <$> error "unknown_session" (u "Sesión desconocida.")) ∧
    core_ok σ' ∧ the_world σ' = the_world σ ∧ dget sid (sessions σ') = None ∧ free sid σ'.
Proof using Type.
  destruct (prune_stale_run env σ Hok) as (σ1 & Hrun & Hok1 & Hsh & Hs1 & Hfree & _).
  pose proof (pruned_session env sid σ σ1 (proj1 Hok) Hs1) as Hget. rewrite Hs, decide_True in Hget by done.
  exists σ1. split_and!; [|done|apply Hsh|done|by eapply Hfree].
  unfold handle, mbind, M_bind. rewrite Hrun. cbn [gets]. by rewrite Hget.
Qed.

(** The router is as it was and session [sid] still shows the confirmation. *)
Definition waiting (sid : pystr) σ σ' : Prop :=
  router σ' = router σ ∧ ∃ s', dget sid (sessions σ') = Some s' ∧ Sessions.state s' = u "confirm".

Lemma reply_waiting sid s l σ : cur sid s σ → Sessions.state s = u "confirm" → waiting sid σ (reply l σ).1.
Proof. intros [Hs _] Hst. split; [done|]. by exists s. Qed.

Lemma put_waiting sid s s' σ :
  cur sid s σ → session_id s' = session_id s → Sessions.state s' = u "confirm" → waiting sid σ (put_session s' σ).
Proof.
  intros Hc Hid Hst. split; [done|]. exists s'. split; [|done].
  eapply put_session_cur; [exact Hc|]. rewrite Hid. apply Hc.
Qed.

Lemma dispatch_waiting env sid s t f σ :
  cur sid s σ → Sessions.state s = u "confirm" → one_of t ["abort"; "confirm"]%string = false →
  waiting sid σ (dispatch_message ttl_seconds catalog command_catalog capability_catalog
    command_catalog_authoritative env s t f σ).1.
Proof.
  intros Hc Hst Ht. unfold dispatch_message.
  destruct (t =s "ping") eqn:Hping; [by eapply reply_waiting|].
  destruct (t =s "device_status") eqn:Hstatus.
  { unfold on_device_status, lift, mbind, M_bind.
    do 3 (case_match; [|by eapply (reply_waiting sid s [])]). simpl. by eapply put_waiting. }
  destruct (t =s "device_hello").
  { unfold on_device_hello. destruct (capabilities_initialized s); [by eapply reply_waiting|].
    unfold lift, mbind at 1, M_bind at 1. destruct (getitem _ f ≫= _) as [caps|]; [|by eapply (reply_waiting sid s [])].
    simpl. by eapply put_waiting. }
  case_match; [by eapply reply_waiting|].
  destruct (t =s "catalog_request").
  { destruct (catalog_response_run catalog command_catalog capability_catalog σ) as (os & -> & _).
    by eapply (reply_waiting sid s []). }
  assert ((Sessions.state s =s "confirm") = true) as -> by by rewrite Hst.
  replace (one_of t ["ping"; "device_status"; "abort"; "confirm"]%string) with false; [by eapply reply_waiting|].
  unfold one_of in *. cbn [existsb] in *. by rewrite Hping, Hstatus, Ht.
Qed.

(** C9: While a live session shows a confirmation, only [abort] and [confirm]
    act: any other message leaves the world, the pending action and the
    confirmation screen as they are. *)
Theorem confirmation_blocks env sid s cm σ (Hok : core_ok σ)
    (Hs : dget sid (sessions σ) = Some s) (Hlive : ¬ idle (t_prune env) s)
    (Hst : Sessions.state s = u "confirm")
    (Ht : one_of (msg_type cm) ["abort"; "confirm"]%string = false) :
  let σ' := (handle env sid cm σ).1 in
  the_world σ' = the_world σ ∧
  (∀ k p, dget k (Tools.pending (router σ)) = Some p → owner_id p = Some sid →
          dget k (Tools.pending (router σ')) = Some p) ∧
  ∃ s', dget sid (sessions σ') = Some s' ∧ Sessions.state s' = u "confirm".
Proof using Type.
  intros σ'. destruct (prune_stale_run env σ Hok) as (σ1 & Hrun & Hok1 & Hsh & Hs1 & _ & Hkeep).
  pose proof (pruned_session env sid σ σ1 (proj1 Hok) Hs1) as Hget. rewrite Hs, decide_False in Hget by done.
  assert (waiting sid σ1 σ') as [Hr Hwait].
  { subst σ'. unfold handle. unfold mbind at 1, M_bind at 1. rewrite Hrun. unfold mbind at 1, M_bind at 1. cbn [gets].
    rewrite Hget. unfold mbind at 1, M_bind at 1. rewrite save_run.
    destruct (saved_ok sid s (touch (t_touch env) s) σ1) as [Hok2 Hc2];
      [done|by apply cur_lookup; [apply Hok1|]|done..|].
    destruct (dispatch_waiting env sid (touch (t_touch env) s) (msg_type cm) (fields cm) _ Hc2 Hst Ht) as [Hr ?]. done. }
  unfold the_world. rewrite Hr. split_and!; [apply Hsh| |done].
  intros k p Hp Ho. apply elem_dget; [apply (proj1 Hok1)|]. by eapply Hkeep; [apply dget_elem| |..].
Qed.

(** An unsafe tool asked for by a session whose device has no display or
    no touch is refused: nothing becomes pending and no handler runs. *)
Theorem unsafe_needs_touch env s n a c dg d σ
    (Hn : one_of n ["remember_fact"; "recall_memory"]%string = false)
    (Hd : get_tool n catalog = Ok d) (Hu : unsafe d = true)
    (Hcap : has_capability (Sessions.capabilities s) (u "display") &&
            has_capability (Sessions.capabilities s) (u "touch") = false) :
  ∃ os, _run_tool ttl_seconds catalog env s n a c dg σ =
    (put_session (with_ui (u "idle") (Some (u "Falta la pantalla táctil de confirmación.")) s)
       (put_session (with_ui (u "thinking") None s) σ), Ok os) ∧
    error "confirmation_unavailable" (u "La acción requiere pantalla y toque disponibles.") = Ok (default [] (head os)).
Proof using Type.
  unfold one_of in Hn. cbn [existsb] in Hn. apply orb_false_iff in Hn as [H1 [H2 _]%orb_false_iff].
  unfold _run_tool, mbind, M_bind. rewrite set_ui_run by done. rewrite H1, H2, Hd, Hu.
  unfold CONFIRMATION_CAPABILITIES. cbn [forallb andb]. change (Sessions.capabilities (with_ui _ _ s)) with (Sessions.capabilities s).
  rewrite andb_true_r, Hcap. cbn [negb]. rewrite set_ui_run by done.
  eexists. split; reflexivity.
Qed.

(** A tool call that names a request digest other than the digest of its
    own tool and arguments is refused before anything runs. *)
Theorem tool_call_binding env s f n a dg σ
    (Hn : getitem (u "name") f = Ok (VStr n)) (Ha : getitem (u "arguments") f = Ok (VDict a))
    (Hdg : get (u "request_digest") f = VStr dg) (Hne : compute_request_digest n a ≠ Ok dg) :
  ∃ os, on_tool_call ttl_seconds catalog env s f σ =
    (put_session (with_ui (u "idle") (Some (u "La solicitud no es válida.")) s) σ, Ok os) ∧
    error "request_binding_failed" (u "La solicitud no es válida.") = Ok (default [] (head os)).
Proof using Type.
  unfold on_tool_call. rewrite Hn, Ha, Hdg. cbn [mbind result_bind str_of].
  assert (match compute_request_digest n a with
          | Ok expected => Ok (eq_str (VStr dg) expected)
          | Raise e => if caught e [ValueError] then Ok false else Raise e
          end = Ok false) as Hb.
  { destruct (compute_request_digest n a) as [x|e] eqn:E.
    - unfold eq_str. f_equal. apply bool_decide_false. congruence.
    - by apply compute_request_digest_raises in E as ->. }
  unfold mbind at 1, M_bind at 1. unfold lift at 1. rewrite Hb. cbn [negb].
  unfold mbind, M_bind. rewrite set_ui_run by done. eexists. split; reflexivity.
Qed.
End Properties.

(** ** A paired device that asks for an unsafe tool *)

#[export] Instance sample_unicode : UnicodeData := λ _, true.
#[export] Instance sample_parser : IntentParser :=
  {| parse_catalog_intent _ _ := Ok None; parse_text_intent _ := Ok None; text_intent_total _ _ := ex_intro _ None eq_refl |}.

Definition sample_core_env (t : Z) : core_env :=
  {| t_prune := t; t_touch := t; t_verify := t; t_session := t; t_confirm := t;
     session_token := u "s"; confirm_token := u "tok" |}.

Abbreviation sample_state := (core_state (list object) (verifier_state bool)).
Abbreviation sample_step := (core_step (I := verifier_interface 5) 60 sample_catalog None None false).
Abbreviation sample_handle := (handle 60 sample_catalog None None false).

Definition core0 : sample_state := new_core [] paired_state.
Definition core1 : sample_state :=
  (create_challenge (I := verifier_interface 5) (sample_challenge_env 1 1000) (u "esp32") core0).1.
Definition core2 : sample_state :=
  (authenticate (I := verifier_interface 5) (sample_core_env 1005) (u "esp32") (challenge_id sample_challenge)
     (signature sample_response) VNone (str_list [u "display"; u "touch"]) core1).1.

Definition call_message : value :=
  VDict [(u "type", VStr (u "tool_call")); (u "protocol_version", VInt 1); (u "name", VStr (u "open_app"));
         (u "arguments", VDict [])].
Definition accept_message : value :=
  VDict [(u "type", VStr (u "confirm")); (u "protocol_version", VInt 1); (u "confirmation_id", VStr (u "tok"));
         (u "accepted", VBool true)].
Definition wake_message : value :=
  VDict [(u "type", VStr (u "wake")); (u "protocol_version", VInt 1)].
Definition parsed (v : value) : client_message :=
  match parse_client_message v with Ok m => m | Raise _ => ClientMessage [] [] end.

Definition core3 : sample_state := (sample_handle (sample_core_env 1006) (u "s") (parsed call_message) core2).1.

Definition session_of (σ : sample_state) : DeviceSession :=
  default (new_session [] VNone [] false 0 []) (dget (u "s") (sessions σ)).

Lemma sample_fresh : fresh_session (u "s") core1.
Proof. split_and!; [done|done|]. by intros k p ?%not_elem_of_nil. Qed.

Lemma sample_parsed m : match parse_client_message m with Ok _ => true | Raise _ => false end = true →
  parse_client_message m = Ok (parsed m).
Proof. unfold parsed. by destruct (parse_client_message m). Qed.

Lemma sample_step1 : sample_step core0 core1.
Proof. exact (step_challenge 60 sample_catalog None None false core0 (sample_challenge_env 1 1000) (u "esp32")). Qed.
Lemma sample_step2 : sample_step core1 core2.
Proof.
  exact (step_authenticate 60 sample_catalog None None false core1 (sample_core_env 1005) (u "esp32")
    (challenge_id sample_challenge) (signature sample_response) VNone (str_list [u "display"; u "touch"]) sample_fresh).
Qed.
Lemma sample_step3 : sample_step core2 core3.
Proof.
  refine (step_handle 60 sample_catalog None None false core2 (sample_core_env 1006) (u "s") call_message
    (parsed call_message) _ Logic.I).
  apply sample_parsed. by vm_compute.
Qed.

Lemma sample_steps : rtc sample_step core0 core3.
Proof. exact (rtc_l _ _ _ _ sample_step1 (rtc_l _ _ _ _ sample_step2 (rtc_once _ _ sample_step3))). Qed.

Lemma core0_ok : core_ok (I := verifier_interface 5) core0.
Proof. apply new_core_ok, verifier_ok_empty. Qed.
Lemma core1_ok : core_ok (I := verifier_interface 5) core1.
Proof. exact (core_step_ok _ _ _ _ _ _ _ core0_ok sample_step1). Qed.
Lemma core2_ok : core_ok (I := verifier_interface 5) core2.
Proof. exact (core_step_ok _ _ _ _ _ _ _ core1_ok sample_step2). Qed.
Lemma core3_ok : core_ok (I := verifier_interface 5) core3.
Proof. exact (core_step_ok _ _ _ _ _ _ _ core2_ok sample_step3). Qed.

Lemma core_invariant_witness :
  core_ok (I := verifier_interface 5) core3 ∧ len (Tools.pending (router core3)) = 1.
Proof.
  split; [|by vm_compute].
  apply (core_invariant (I := verifier_interface 5) 60 sample_catalog None None false [] paired_state core3);
    [apply verifier_ok_empty|apply sample_steps].
Defined.

(** The accepted confirmation runs the tool. *)
Lemma handle_safe_witness :
  the_world (sample_handle (sample_core_env 1010) (u "s") (parsed accept_message) core3).1 ≠ the_world core3 ∧
  ∃ σ' os, sample_handle (sample_core_env 1010) (u "s") (parsed accept_message) core3 = (σ', Ok os) ∧
    Forall envelope_ok os ∧ core_ok (I := verifier_interface 5) σ' ∧
    message_effect sample_catalog (sample_core_env 1010) (u "s") (parsed accept_message) core3 σ'.
Proof.
  split; [vm_compute; discriminate|].
  apply (handle_safe 60 sample_catalog None None false (sample_core_env 1010) (u "s") accept_message
    (parsed accept_message) core3 core3_ok); [|exact Logic.I]. by vm_compute.
Defined.

Lemma handle_transcript_safe_witness :
  ∃ σ' os, handle_transcript 60 sample_catalog None false (sample_core_env 1010) (u "s")
      (VStr (u "abre spotify")) core2 = (σ', Ok os) ∧
    Forall envelope_ok os ∧ core_ok (I := verifier_interface 5) σ' ∧ world_effect sample_catalog core2 σ'.
Proof. apply (handle_transcript_safe 60 sample_catalog None false); [apply core2_ok|exact Logic.I]. Defined.

Lemma close_revokes_witness :
  core_ok (I := verifier_interface 5) (close (u "s") core3).1 ∧ sessions (close (u "s") core3).1 = [].
Proof.
  split; [|by vm_compute]. apply (close_revokes (I := verifier_interface 5) (u "s") core3 core3_ok). discriminate.
Defined.

Lemma stale_session_expires_witness :
  ∃ σ', sample_handle (sample_core_env 2000) (u "s") (parsed accept_message) core3
        = (σ', (λ o, [o]) <$> error "unknown_session" (u "Sesión desconocida.")) ∧
    core_ok (I := verifier_interface 5) σ' ∧ the_world σ' = the_world core3 ∧
    dget (u "s") (sessions σ') = None ∧ free (u "s") σ'.
Proof.
  apply (stale_session_expires 60 sample_catalog None None false (sample_core_env 2000) (u "s") (session_of core3)
    (parsed accept_message) core3 core3_ok); [by vm_compute|vm_compute; discriminate].
Defined.

Lemma confirmation_blocks_witness :
  let σ' := (sample_handle (sample_core_env 1010) (u "s") (parsed wake_message) core3).1 in
  the_world σ' = the_world core3 ∧
  (∀ k p, dget k (Tools.pending (router core3)) = Some p → owner_id p = Some (u "s") →
          dget k (Tools.pending (router σ')) = Some p) ∧
  ∃ s', dget (u "s") (sessions σ') = Some s' ∧ Sessions.state s' = u "confirm".
Proof.
  apply (confirmation_blocks 60 sample_catalog None None false (sample_core_env 1010) (u "s") (session_of core3)
    (parsed wake_message) core3 core3_ok); [by vm_compute| |by vm_compute|by vm_compute].
  vm_compute. intros Hi. by apply Hi.
Defined.

Definition sample_login : sample_state * result DeviceSession :=
  authenticate (I := verifier_interface 5) (sample_core_env 1005) (u "esp32") (challenge_id sample_challenge)
    (signature sample_response) VNone VNone core1.

Lemma sample_login_ok σ' r : sample_login = (σ', r) → ∃ s, r = Ok s.
Proof.
  assert (match sample_login.2 with Ok _ => true | Raise _ => false end = true) as Hok by by vm_compute.
  intros Hrun. rewrite Hrun in Hok. clear Hrun. destruct r as [s|e]; [by exists s|done].
Qed.

(** A signed response with the paired key opens the session. *)
Lemma authenticate_verified_witness :
  ∃ σ' s, sample_login = (σ', Ok s) ∧ the_world σ' = the_world core1 ∧ Sessions.device_id s = u "esp32".
Proof.
  destruct (authenticate_verified (I := verifier_interface 5) (sample_core_env 1005) (u "esp32")
    (challenge_id sample_challenge) (signature sample_response) VNone VNone core1 core1_ok sample_fresh)
    as (σ' & r & Hrun & _ & Hw & _ & _ & Hr).
  destruct (sample_login_ok σ' r Hrun) as [s ->].
  destruct Hr as (l & response & v & a & _ & _ & _ & _ & Hs & _).
  exists σ', s. split_and!; [exact Hrun|exact Hw|]. rewrite Hs. reflexivity.
Defined.

Definition no_touch : DeviceSession := new_session (u "esp32") VNone [VStr (u "display")] true 1005 (u "s").

Lemma unsafe_needs_touch_witness :
  ∃ os, _run_tool 60 sample_catalog (sample_core_env 1006) no_touch (u "open_app") (VDict []) VNone VNone core2 =
    (put_session (with_ui (u "idle") (Some (u "Falta la pantalla táctil de confirmación.")) no_touch)
       (put_session (with_ui (u "thinking") None no_touch) core2), Ok os) ∧
    error "confirmation_unavailable" (u "La acción requiere pantalla y toque disponibles.") = Ok (default [] (head os)).
Proof.
  apply (unsafe_needs_touch 60 sample_catalog (sample_core_env 1006) no_touch (u "open_app") (VDict []) VNone VNone
    sample_tool core2); by vm_compute.
Defined.

Lemma tool_call_binding_witness :
  let f := encode_fields (MToolCall (u "open_app") [] None (Some (u "00"))) (VInt 1) in
  ∃ os, on_tool_call 60 sample_catalog (sample_core_env 1006) no_touch f core2 =
    (put_session (with_ui (u "idle") (Some (u "La solicitud no es válida.")) no_touch) core2, Ok os) ∧
    error "request_binding_failed" (u "La solicitud no es válida.") = Ok (default [] (head os)).
Proof.
  apply (tool_call_binding 60 sample_catalog (sample_core_env 1006) no_touch _ (u "open_app") [] (u "00") core2);
    [by vm_compute|by vm_compute|by vm_compute|vm_compute; discriminate].
Defined.
