(* ===== verification/AgentCore.v ===== *)
(** * The agent's Core

    [_build_pipa_core] of [windows-agent/main.py] puts the tools of
    [agent_catalog.py] and the catalog of [integration_catalog.py] behind the
    Core.  The two agree: what the agent publishes passes the Core's own
    validation unchanged.  And the whole keeps the promise of the program: a
    message of a device does nothing outside the agent beyond what a safe tool
    may do, unless it accepts a pending confirmation of its own session. *)
From S2P Require Import Prelude Dict Value Effects TextPolicy Protocol Confirmations Tools Catalog.
From S2P Require Import Challenge PyText PyStr Core CoreFacts PipaParser Gate Urls Machine Apps Contacts ControlConfig League Desktop.
From S2P Require Import IntegrationCatalog AgentCatalog AgentFacts.

(** ** The tool table *)

Lemma register_all_fresh {W} (ds : list (ToolDefinition W)) c :
  Forall (λ d, post_init d = Ok d) ds → NoDup (dkeys c ++ (Tools.name <$> ds)) →
  register_all ds c = Ok (c ++ ((λ d, (Tools.name d, d)) <$> ds)).
Proof.
  revert c. induction ds as [|d ds IH]; intros c Hp Hn; cbn [register_all]; [by rewrite app_nil_r|].
  apply Forall_cons in Hp as [Hd Hp]. rewrite Hd. cbn [mbind result_bind]. csimpl in Hn. unfold register.
  assert (dget (Tools.name d) c = None) as Hg.
  { apply dget_None. intros Hin. apply NoDup_app in Hn as (_ & Hx & _). apply (Hx _ Hin). by left. }
  rewrite (proj2 (dmem_false _ _) Hg). cbn [mbind result_bind].
  rewrite dset_fresh by done. rewrite IH; [by rewrite <- app_assoc|done|].
  unfold dkeys in *. rewrite fmap_app. csimpl. by rewrite <- app_assoc.
Qed.

Definition tool_table {W} (ds : list (ToolDefinition W)) : dict pystr (ToolDefinition W) := (λ d, (Tools.name d, d)) <$> ds.

Lemma new_catalog_fresh {W} (ds : list (ToolDefinition W)) :
  Forall (λ d, post_init d = Ok d) ds → NoDup (Tools.name <$> ds) → new_catalog ds = Ok (tool_table ds).
Proof. intros Hp Hn. by apply (register_all_fresh ds []). Qed.
Lemma tool_table_get {W} n d (ds : list (ToolDefinition W)) :
  get_tool n (tool_table ds) = Ok d → d ∈ ds ∧ Tools.name d = n.
Proof.
  unfold get_tool. destruct (dget n (tool_table ds)) as [d'|] eqn:E; [|done]. intros [= ->].
  by apply dget_elem, list_elem_of_fmap in E as (d0 & [= -> ->] & Hin).
Qed.

Section Agent.
Context `{T : UnicodeText} {HT : UnicodeTextLaws T} `{D : UrlData} `{C : UnicodeCategories} `{W : Machine}.

Definition agent_catalog : dict pystr (ToolDefinition desktop) := tool_table agent_tools.

Lemma agent_names_checked : bool_decide (NoDup (Tools.name <$> agent_tools)) = true.
Proof using Type. vm_compute. reflexivity. Qed.
Lemma agent_names : NoDup (Tools.name <$> agent_tools).
Proof using Type. exact (proj1 (bool_decide_eq_true _) agent_names_checked). Qed.
Lemma agent_post_init : Forall (λ d, post_init d = Ok d) agent_tools.
Proof using Type. unfold agent_tools. rewrite Forall_fmap. unfold agent_entries. repeat (apply Forall_cons; split; [done|]). by apply Forall_nil. Qed.
Lemma agent_catalog_builds : build_agent_catalog = Ok agent_catalog.
Proof using Type. exact (new_catalog_fresh agent_tools agent_post_init agent_names). Qed.

(** ** The published catalog behind the Core *)

(** The Core reads the parameters and fixed arguments of a command as the agent
    wrote them. *)
Definition reads_back (s : object) : bool :=
  match _validate_parameters (get_or (u "parameters") (VList []) s) with
  | Ok ps =>
    match _validate_catalog_parameters (VList (VDict <$> ps)) with
    | Ok ps' => value_eqb (VList (VDict <$> ps')) (VList (VDict <$> ps))
    | Raise _ => false
    end
  | Raise _ => false
  end
  && match dget (u "default_arguments") s with
     | Some a =>
       match _validate_default_arguments a with
       | Ok a' =>
         match _validate_catalog_default_arguments (VDict a') with
         | Ok a'' => value_eqb (VDict a'') (VDict a')
         | Raise _ => false
         end
       | Raise _ => false
       end
     | None => true
     end.
(** It finds the tool of the command under the safety the command states. *)
Definition tool_stated (s : object) : bool :=
  match get (u "tool_name") s, get (u "safety") s with
  | VStr n, VStr safety => match dget (strip n) agent_catalog with Some d => bool_decide (safety = Tools.safety d) | None => false end
  | _, _ => false
  end.

Lemma commands_read : forallb reads_back _COMMANDS = true.
Proof using Type. by vm_compute. Qed.
Lemma tools_stated : forallb tool_stated _COMMANDS = true.
Proof using Type. by vm_compute. Qed.
Lemma command_checked s : s ∈ _COMMANDS → reads_back s = true ∧ tool_stated s = true.
Proof using Type.
  intros Hs%list_elem_of_In. split.
  - exact (proj1 (forallb_forall _ _) commands_read s Hs).
  - exact (proj1 (forallb_forall _ _) tools_stated s Hs).
Qed.

(** A text of the wire that both validators keep. *)
Definition wire_text (s : pystr) : Prop := strip s = s ∧ nonempty s = true ∧ len s <= MAX_CATALOG_FIELD_LENGTH.

Lemma text_field_wire d k s : text_field d k s → wire_text s.
Proof using Type.
  intros (t & _ & (Hne & (b & Hb & Hl) & _) & ->). unfold wire_text. rewrite strip_idemp.
  split_and!; [done|by apply nonempty_ne|]. apply utf8_encode_length in Hb. pose proof (len_strip_le t).
  unfold _MAX_COMMAND_TEXT_BYTES, MAX_CATALOG_FIELD_LENGTH in *. lia.
Qed.
Lemma wire_command_text s : wire_text s → command_text (VStr s) = Ok s.
Proof using Type. intros (Hs & Hn & Hl). unfold command_text. rewrite Hs, Hn. by rewrite (proj2 (Z.leb_le _ _) Hl). Qed.

(** What the Core asks of the contract of a command. *)
Record readable_contract {V} (tools : dict pystr (ToolDefinition V)) (k : contract) : Prop := {
  rc_tool : wire_text (c_tool k);
  rc_found : ∃ d, get_tool (c_tool k) tools = Ok d ∧ c_safety k = Tools.safety d ∧ c_confirmed k = unsafe d;
  rc_safety : one_of (c_safety k) ["safe"; "unsafe"]%string = true;
  rc_parameters : _validate_catalog_parameters (VList (VDict <$> c_parameters k)) = Ok (c_parameters k);
  rc_defaults : ∀ a, c_defaults k = Some a → _validate_catalog_default_arguments (VDict a) = Ok a ∧ c_parameters k = []
}.

Lemma published_read {V} (tools : dict pystr (ToolDefinition V)) seen k id ph de :
  readable_contract tools k → wire_text id → wire_text ph → wire_text de → id ∉ seen →
  catalog_command tools seen (VDict (published k id ph de)) = Ok (id, published k id ph de).
Proof using Type.
  intros [Ht (d & Hd & Hsd & Hcd) Hs Hp Ha] Hi Hph Hde Hn.
  destruct k as [tool safety confirmed params defaults].
  cbn [c_tool c_safety c_confirmed c_parameters c_defaults] in *.
  unfold catalog_command, published. cbn [c_tool c_safety c_confirmed c_parameters c_defaults].
  destruct defaults as [a|]; [destruct (Ha a eq_refl) as [Hr ->]|]; cbn [opt_entry app];
    (replace (keys_within CATALOG_FIELDS _) with true by by vm_compute); unfold optional_field; cbn [negb];
    [change (dget (u "default_arguments") _) with (Some (VDict a))|change (dget (u "default_arguments") _) with (@None value)];
    [change (dget (u "parameters") _) with (Some (VList (VDict <$> @nil object)))
    |change (dget (u "parameters") _) with (Some (VList (VDict <$> params)))]; cbv iota beta;
    rewrite Hp; cbn [mbind result_bind]; [rewrite Hr|]; cbn [mbind result_bind Catalog.check ensure];
    change (get (u "id") _) with (VStr id); change (get (u "tool_name") _) with (VStr tool);
    change (get (u "phrase") _) with (VStr ph); change (get (u "description") _) with (VStr de);
    change (get (u "safety") _) with (VStr safety); change (get (u "requires_confirmation") _) with (VBool confirmed);
    rewrite !wire_command_text by done; cbn [mbind result_bind command_safety command_flag]; rewrite Hs; cbn [mbind result_bind];
    rewrite (proj1 Ht), Hd; cbn [mbind result_bind]; (rewrite (bool_decide_true (safety = Tools.safety d)), Hcd, eqb_reflx by done);
    cbn [andb Catalog.check ensure mbind result_bind]; cbv zeta; rewrite (proj1 Hi), bool_decide_false by done;
    by rewrite (proj1 Hph), (proj1 Hde).
Qed.

Lemma shipped_contract s k : s ∈ _COMMANDS → shipped s k → readable_contract agent_catalog k.
Proof using Type.
  intros Hin Hk. destruct (command_checked s Hin) as [Hr Ht].
  destruct (sh_states _ _ Hk) as ((t & Hgt & Hb & Htool) & Hsafe & _ & Hconf & Hone & Hps & Hds).
  unfold reads_back in Hr. rewrite Hps in Hr. apply andb_true_iff in Hr as [Hr Hd].
  destruct (_validate_catalog_parameters _) as [ps'|] eqn:Eps; [|done].
  assert (ps' = c_parameters k) as ->.
  { apply value_eqb_sound in Hr. injection Hr as Hr. eapply list_fmap_eq_inj, Hr. by intros ? ? [= ->]. }
  unfold tool_stated in Ht. rewrite Hgt, Hsafe, <- Htool in Ht.
  destruct (dget (c_tool k) agent_catalog) as [d|] eqn:Ed; [|done]. apply bool_decide_eq_true in Ht.
  split; [|exists d; split_and!; [by unfold get_tool; rewrite Ed|exact Ht|]|done|done|].
  - apply (text_field_wire s (u "tool_name")). by exists t.
  - rewrite Hconf. unfold unsafe. by rewrite Ht.
  - intros a Ha. rewrite Ha in Hds. destruct (dget (u "default_arguments") s) as [v|]; [|done].
    destruct Hds as (a' & Hv & [= <-] & Hnil). split; [|done]. rewrite Hv in Hd.
    destruct (_validate_catalog_default_arguments _) as [a''|] eqn:Ea; [|done]. apply value_eqb_sound in Hd. by injection Hd as ->.
Qed.

Lemma published_as_read prefs s c seen :
  s ∈ _COMMANDS → published_as prefs s c → source_id s ∉ seen → catalog_command agent_catalog seen (VDict c) = Ok (source_id s, c).
Proof using Type.
  intros Hin (k & de & Hk & Hf & Hde & ->) Hn. apply published_read; [by eapply shipped_contract| | | |done].
  - eapply text_field_wire, Hk.
  - destruct (entry_texts false (preference_of prefs s) s k Hk Hf) as (Hp & _ & _). by eapply text_field_wire.
  - destruct Hde as [Hde| ->]; [by eapply text_field_wire|].
    apply (text_field_wire [(u "description", VStr AUTOMATIC_DESCRIPTION)] (u "description")).
    exists AUTOMATIC_DESCRIPTION. split_and!; [done|apply automatic_bounded|done].
Qed.

Lemma published_commands_read prefs sources cs seen :
  Forall2 (published_as prefs) sources cs → (∀ s, s ∈ sources → s ∈ _COMMANDS) → NoDup (source_id <$> sources) →
  (∀ s, s ∈ sources → source_id s ∉ seen) → catalog_commands agent_catalog seen (VDict <$> cs) = Ok cs.
Proof using Type.
  intros H. revert seen. induction H as [|s c sources cs Hc _ IH]; intros seen Hin Hnd Hseen; [done|].
  rewrite fmap_cons in Hnd. apply NoDup_cons in Hnd as [Hfresh Hnd].
  rewrite fmap_cons. cbn [catalog_commands]. rewrite (published_as_read prefs s c seen); [|apply Hin; by left|done|apply Hseen; by left].
  cbn [mbind result_bind fst snd]. rewrite IH; [done|intros s' Hs'; apply Hin; by right|done|].
  intros s' Hs' [Heq|Hi]%elem_of_cons.
  - apply Hfresh. rewrite <- Heq. by apply list_elem_of_fmap_2.
  - apply (Hseen s'); [by right|done].
Qed.

(** What the agent publishes passes the validation of the Core. *)
Lemma published_passes w w' cs : get_command_catalog w = (w', Ok cs) → check_commands agent_catalog (VList (VDict <$> cs)) = Ok cs.
Proof using Type.
  unfold get_command_catalog, mbind at 1, M_bind at 1. destruct (get_command_preferences w) as [w1 [prefs|e]]; [|done].
  unfold mbind at 1, M_bind at 1. destruct (whatsapp_automatic_send_active w1) as [w2 [a|e]]; [|done].
  unfold lift. rewrite validate_published. intros [= _ H].
  apply validate_entries_inv in H; [|apply enabled_shipped]. unfold check_commands.
  pose proof (commands_bounded prefs) as Hb. pose proof (Forall2_length _ _ _ H) as Hl.
  rewrite (proj2 (Z.ltb_ge _ _)); [|rewrite len_fmap; unfold MAX_CATALOG_COMMANDS, _MAX_COMMANDS, len in *; lia].
  apply (published_commands_read prefs (enabled_commands prefs)); [done| | |].
  - intros s Hs. by apply list_elem_of_filter in Hs as [_ Hs].
  - eapply sublist_NoDup; [apply shipped_ids|]. apply fmap_sublist, sublist_filter.
  - intros s _ Hn. by apply not_elem_of_nil in Hn.
Qed.

Lemma matrix_passes r : _validate_capability_catalog (VDict (capability_matrix r)) = Ok (capability_matrix r).
Proof using Type. destruct r. vm_compute. reflexivity. Qed.

Lemma capabilities_pass w w' m : get_integration_capabilities w = (w', Ok m) → _validate_capability_catalog (VDict m) = Ok m.
Proof using Type.
  intros H. assert (∃ r, m = capability_matrix r) as [r ->]; [|apply matrix_passes].
  unfold get_integration_capabilities, mbind, M_bind in H.
  destruct (_configured_apps w) as [w1 [apps|]]; [|done].
  destruct ((if (app_state "league_of_legends"%string apps).1 then _league_client_ready else mret false) w1) as [w2 [lr|]]; [|done].
  destruct (_configured_contact_destinations w2) as [w3 [[wc dc]|]]; [|done].
  destruct (whatsapp_automatic_send_active w3) as [w4 [au|]]; [|done].
  unfold lift, build_integration_capabilities in H. cbn [mbind result_bind] in H. rewrite capability_matrix_valid in H. injection H as _ <-. by eexists.
Qed.
End Agent.

(** ** The Core of the agent *)

Section Device.
Context `{T : UnicodeText} {HT : UnicodeTextLaws T} `{D : UrlData} `{C : UnicodeCategories} `{W : Machine}.
Context {V : Type} `{I : VerifierI V} {HI : VerifierLaws I} `{UnicodeData}.
#[local] Existing Instance pipa_parser | 0.

(** The two catalogs [_build_pipa_core] gives the Core. *)
Definition agent_commands (w : desktop) : result value :=
  cs ← observe get_command_catalog w; Ok (VList (VDict <$> cs)).
Definition get_mobile_capabilities (w : desktop) : result value :=
  m ← observe get_integration_capabilities w; Ok (VDict m).
Definition agent_handle : core_env → pystr → client_message → M (core_state desktop V) (list object) :=
  handle DEFAULT_CONFIRMATION_TTL agent_catalog (Some agent_commands) (Some get_mobile_capabilities) true.

Lemma agent_commands_ok w v : agent_commands w = Ok v → ∃ cs, v = VList (VDict <$> cs) ∧ check_commands agent_catalog v = Ok cs.
Proof using Type.
  unfold agent_commands, observe. destruct (get_command_catalog w) as [w' [cs|e]] eqn:E; [|done]. cbn [snd mbind result_bind].
  intros [= <-]. exists cs. split; [done|]. by eapply published_passes.
Qed.

(** The catalog can be read, or fails as the Core expects. *)
Definition catalog_answers (w : desktop) : Prop :=
  ∀ e, observe get_command_catalog w = Raise e → caught e [OSError; ValueError] = true.

Lemma agent_provider_ok w : catalog_answers w → provider_ok (Some agent_commands) w.
Proof using HT C D.
  intros Ha. split.
  - exact (proj1 (checked_catalog_readable (@nil (pystr * ToolDefinition desktop)) (VList []) [] eq_refl)).
  - destruct (agent_commands w) as [v|e] eqn:E.
    + apply agent_commands_ok in E as (cs & _ & Hc). exact (proj1 (checked_catalog_readable _ _ _ Hc)).
    + unfold agent_commands in E. destruct (observe get_command_catalog w) as [cs|e'] eqn:Eo; [done|].
      cbn [mbind result_bind] in E. injection E as <-. by apply Ha.
Qed.

Abbreviation pendings σ := (Tools.pending (router σ)).

(** What a device can make the agent do without a confirmation. *)
Definition UNASKED : list permission := [Speakers; Keys; Pause].

Lemma harmless_event ps e : Forall (λ p, harmless p = true) ps → tool_event ps e → tool_event UNASKED e.
Proof using Type.
  intros Hp [He|(p & Hin & He)]; [by left|right]. exists p. split; [|done]. rewrite Forall_forall in Hp. specialize (Hp p Hin).
  destruct p; try discriminate Hp; unfold UNASKED; rewrite !elem_of_cons; auto.
Qed.

Lemma handler_events n d values w :
  get_tool n agent_catalog = Ok d →
  ∃ new, events (handler d values w).1 = new ++ events w ∧ Forall (tool_event (permitted n)) new ∧
    (unsafe d = false → Forall (tool_event UNASKED) new).
Proof using HT.
  intros Hd. destruct (tool_table_get n d agent_tools Hd) as [Hin <-].
  pose proof handlers_permitted as Hp. rewrite Forall_forall in Hp.
  destruct (does_run _ _ w (Hp d Hin values)) as (new & Hn & Hf). exists new. split_and!; [done..|].
  intros Hu. pose proof safe_tools_harmless as Hs. rewrite Forall_forall in Hs.
  eapply Forall_impl; [exact Hf|]. intros e. by apply harmless_event, Hs.
Qed.

(** Every callable behind the tools the Core knows, and both its catalogs. *)
Lemma consultations_read :
  (∀ n d, get_tool n agent_catalog = Ok d → ∃ t, t ∈ agent_entries ∧ d = registered t ∧ consults_only t) ∧
  does passive get_command_catalog ∧ does passive get_integration_capabilities.
Proof using HT.
  split_and!; [|apply command_lists_read|apply capabilities_passive].
  intros n d Hd. destruct (tool_table_get n d agent_tools Hd) as [Hin _].
  apply list_elem_of_fmap in Hin as (t & -> & Ht). exists t. split_and!; [done..|].
  pose proof entries_consult_only as He. rewrite Forall_forall in He. by apply He.
Qed.


(** C14: the catalog the agent publishes is the catalog its devices see: the
    Core knows the tool of every published command under the safety the command
    states, keeps the commands and the capability matrix as they are, and any
    text it accepts can be routed against them. *)
Theorem agent_catalog_accepted w w' cs :
  get_command_catalog w = (w', Ok cs) →
  build_agent_catalog = Ok agent_catalog ∧ agent_commands w = Ok (VList (VDict <$> cs)) ∧
  check_commands agent_catalog (VList (VDict <$> cs)) = Ok cs ∧
  (∀ b, bounded_text 4000 false b → ∃ i, find_intent true b (Some (VList (VDict <$> cs))) = Ok i) ∧
  (∀ w1 m, get_mobile_capabilities w1 = Ok m → ∃ d, m = VDict d ∧ _validate_capability_catalog m = Ok d).
Proof using HT.
  intros H1. apply published_passes in H1 as Hc. split_and!; [exact agent_catalog_builds| |done| |].
  - unfold agent_commands, observe. by rewrite H1.
  - exact (proj2 (checked_catalog_readable agent_catalog _ cs Hc) true).
  - intros w1 m. unfold get_mobile_capabilities, observe. destruct (get_integration_capabilities w1) as [w2 [d|e]] eqn:E; [|done].
    intros [= <-]. exists d. split; [done|]. by eapply capabilities_pass.
Qed.
End Device.

(** ** A paired device that asks for a message *)

Section Samples.
Local Instance sample_categories : UnicodeCategories := plain_categories.
Local Instance sample_urls : UrlData := plain_urls.
Local Instance sample_text : UnicodeText := ascii_text.
Local Instance sample_world : Machine := agent_machine.
#[local] Existing Instance pipa_parser | 0.
Abbreviation device_core := (core_state desktop (verifier_state bool)).
Abbreviation sample_agent := (agent_handle (HT := ascii_text_laws)).

Definition device1 : device_core :=
  (create_challenge (I := verifier_interface 5) (sample_challenge_env 1 1000) (u "esp32") (new_core start paired_state)).1.
Definition device2 : device_core :=
  (authenticate (I := verifier_interface 5) (sample_core_env 1005) (u "esp32") (challenge_id sample_challenge)
     (signature sample_response) VNone (str_list [u "display"; u "touch"]) device1).1.
Definition spoken_message : value :=
  VDict [(u "type", VStr (u "text_input")); (u "protocol_version", VInt 1);
         (u "text", VStr (u "prepara WhatsApp para Hermana y dile Llego tarde"))].
Definition device3 : device_core := (sample_agent (sample_core_env 1006) (u "s") (parsed spoken_message) device2).1.

Lemma answers_when_read w : is_ok (observe get_command_catalog w) = true → catalog_answers w.
Proof. intros H e He. by rewrite He in H. Qed.

Abbreviation agent_step := (core_step (I := verifier_interface 5) DEFAULT_CONFIRMATION_TTL agent_catalog
  (Some agent_commands) (Some get_mobile_capabilities) true).

Lemma device1_ok : core_ok (I := verifier_interface 5) device1.
Proof.
  apply (core_step_ok DEFAULT_CONFIRMATION_TTL agent_catalog (Some agent_commands) (Some get_mobile_capabilities) true
    (new_core start paired_state)); [apply new_core_ok, verifier_ok_empty|].
  exact (step_challenge _ _ _ _ _ _ (sample_challenge_env 1 1000) (u "esp32")).
Qed.
Lemma device2_ok : core_ok (I := verifier_interface 5) device2.
Proof.
  apply (core_step_ok DEFAULT_CONFIRMATION_TTL agent_catalog (Some agent_commands) (Some get_mobile_capabilities) true
    device1); [apply device1_ok|].
  refine (step_authenticate _ _ _ _ _ device1 (sample_core_env 1005) (u "esp32") (challenge_id sample_challenge)
    (signature sample_response) VNone (str_list [u "display"; u "touch"]) _).
  split_and!; [done|done|]. by intros k p ?%not_elem_of_nil.
Qed.
Lemma device3_ok : core_ok (I := verifier_interface 5) device3.
Proof.
  apply (core_step_ok DEFAULT_CONFIRMATION_TTL agent_catalog (Some agent_commands) (Some get_mobile_capabilities) true
    device2); [apply device2_ok|].
  refine (step_handle _ _ _ _ _ device2 (sample_core_env 1006) (u "s") spoken_message (parsed spoken_message) _ _).
  - apply sample_parsed. by vm_compute.
  - apply (agent_provider_ok (HT := ascii_text_laws)), answers_when_read. by vm_compute.
Qed.


Definition listed {A} (r : result (list A)) : list A := match r with Ok l => l | Raise _ => [] end.

Lemma agent_catalog_accepted_witness :
  ∃ cs, len cs = 40 ∧ build_agent_catalog = Ok agent_catalog ∧ agent_commands start = Ok (VList (VDict <$> cs)) ∧
    check_commands agent_catalog (VList (VDict <$> cs)) = Ok cs ∧
    (∀ b, bounded_text 4000 false b →
       ∃ i, find_intent (H0 := pipa_parser (HT := ascii_text_laws)) true b (Some (VList (VDict <$> cs))) = Ok i) ∧
    (∀ w1 m, get_mobile_capabilities w1 = Ok m → ∃ d, m = VDict d ∧ _validate_capability_catalog m = Ok d).
Proof.
  assert (len (listed (get_command_catalog start).2) = 40) as Hl by by vm_compute.
  destruct (get_command_catalog start) as [w' r] eqn:E. cbn [snd] in Hl.
  destruct r as [cs|]; [|discriminate Hl]. exists cs. split; [exact Hl|].
  exact (agent_catalog_accepted (HT := ascii_text_laws) start w' cs E).
Defined.
End Samples.
