(* ===== verification/HttpApi.v ===== *)
(** * The local HTTP server: [windows-agent/main.py]

    The middleware in front of every request, the routes with the bodies of
    their request models, and the errors they turn into responses; with the
    table of [tools/security_policy.py] and the service matrix of
    [tools/capabilities.py].  Finding the route and reading the request model
    are the web framework's, a parameter. *)
From S2P Require Import Prelude Dict Value Effects TextPolicy PyText Json Protocol Timers Sessions Confirmations Tools Challenge Core.
From S2P Require Import Urls Machine Apps Contacts ControlConfig League Desktop IntegrationCatalog AgentCatalog AgentCore.

(** ** The security policy *)

Definition CONFIRMATION_TOOL_PATHS : list (literal * literal) := [
  ("open_app", "/open-app"); ("open_url", "/open-url"); ("web_search", "/web/search"); ("music_open", "/music/open");
  ("music_search", "/music/search"); ("league_open", "/league/open"); ("league_search", "/league/search");
  ("league_cancel", "/league/search"); ("whatsapp_open", "/whatsapp/open"); ("whatsapp_compose", "/whatsapp/compose");
  ("whatsapp_contact", "/whatsapp/contact/compose"); ("whatsapp_contact_open", "/whatsapp/contact/open");
  ("whatsapp_phone_open", "/whatsapp/phone/open"); ("discord_open_app", "/discord/open");
  ("discord_open", "/discord/channel/open"); ("discord_call_channel", "/discord/channel/call");
  ("discord_contact", "/discord/contact/open"); ("discord_call", "/discord/contact/call"); ("open_codex", "/codex/open");
  ("system_lock", "/system/lock")]%string.
Definition LOCAL_CONFIRMATION_PATHS : list pystr := u ∘ snd <$> CONFIRMATION_TOOL_PATHS.

Definition MAX_REQUEST_BYTES : Z := 16 * 1024.

(** ** Requests and responses *)

(** What [request.stream()] yields, what [request.body()] returns. *)
Inductive chunk := Bytes (b : bytes) | NotBytes.
Inductive body_reader := Stream (chunks : list chunk) | Body (b : chunk) | NoReader.

Record request := mkRequest {
  method : pystr;
  path : pystr;
  header : pystr → option pystr;   (* [request.headers.get(name)] *)
  reader : body_reader
}.

Fixpoint read_chunks (size : Z) (body : bytes) (chunks : list chunk) : option bytes :=
  match chunks with
  | [] => Some body
  | NotBytes :: _ => None
  | Bytes b :: chunks' =>
    let size := size + len b in
    if MAX_REQUEST_BYTES <? size then None else read_chunks size (body ++ b) chunks'
  end.
Definition _read_bounded_body (r : request) : option bytes :=
  match reader r with
  | Stream chunks => read_chunks 0 [] chunks
  | Body (Bytes b) => if len b <=? MAX_REQUEST_BYTES then Some b else None
  | Body NotBytes => None
  | NoReader => Some []
  end.

Inductive content := Json (v : value) | File (name media_type : pystr).
Record response := mkResponse { status_code : Z; body : content; headers : dict pystr pystr }.

Definition SECURITY_HEADERS : list (literal * literal) := [
  ("Cache-Control", "no-store"); ("X-Content-Type-Options", "nosniff"); ("Referrer-Policy", "no-referrer");
  ("Content-Security-Policy",
   "default-src 'self'; base-uri 'none'; frame-ancestors 'none'; form-action 'self'; img-src 'self' data:; script-src 'self'; style-src 'self'");
  ("Permissions-Policy", "camera=(), microphone=(), geolocation=()")]%string.
Definition _harden_http_response (r : response) : response :=
  mkResponse (status_code r) (body r) (foldl (λ h kv, dset (u kv.1) (u kv.2) h) (headers r) SECURITY_HEADERS).

Definition detail (status : Z) (text : literal) : response :=
  mkResponse status (Json (VDict [(u "detail", VStr (u text))])) [].
Arguments detail status text%_string_scope.

Definition handle_request_validation : response := _harden_http_response (detail 422 "Solicitud no válida.").
Definition handle_unexpected_request : response := _harden_http_response (detail 500 "Error interno del agente.").

(** ** Routes *)

Record ProcessControlRequest := mkProcessRequest {
  process_id : pystr; original_id : option pystr; process_aliases : list pystr; launcher : pystr; arguments : list pystr;
  process_enabled : bool
}.
Record WhatsAppControlRequest := mkWhatsAppRequest {
  automatic_send : bool; number_id : pystr; version : pystr; access_token : option pystr; forget_access_token : bool
}.

(** A call of the function behind a route, with its validated request. *)
Inductive endpoint :=
| Root | Panel | PanelCss | PanelJs | Status | Reload | Capabilities | IntegrationStatus | Commands | ControlOverview
| SaveProcess (r : ProcessControlRequest) | DeleteProcess (app_id : pystr) | RunProcess (app_id : pystr)
| UpdateCommand (command_id : pystr) (enabled : bool) (phrase : pystr) | ResetCommand (command_id : pystr)
| UpdateWhatsApp (r : WhatsAppControlRequest)
| GetApps | OpenApp (app : pystr) | OpenUrl (url : pystr) | WebSearch (query : pystr) | MusicSearch (term : pystr) | MusicOpen
| LeagueOpen | LeagueStatus | LeagueSearchStatus | LeagueSearch (queue : pystr) | LeagueWait (seconds : Z) | LeagueCancel
| CodexOpen | SystemStatus | SystemLock | SystemPower | SystemNetwork | MediaAction (action : pystr)
| ListTimers | CreateTimer (seconds : Z) (label : pystr) | CancelTimer (timer_id : pystr)
| WhatsAppCompose (phone message : pystr) | WhatsAppOpen | WhatsAppContactCompose (contact message : pystr)
| WhatsAppContactOpen (contact : pystr) | WhatsAppPhoneOpen (phone : pystr)
| DiscordOpen | DiscordChannelOpen (channel_id : pystr) (guild_id : option pystr)
| DiscordChannelCall (channel_id : pystr) (guild_id : option pystr)
| DiscordContactOpen (contact : pystr) | DiscordContactCall (contact : pystr)
| PipaProtocol | PipaChallenge (device_id : pystr)
| GetVolume | SetVolume (percent : Z) | Mute | Unmute.

(** The decorator of the function: its method and its path, with the path
    parameter in place. *)
Definition route (e : endpoint) : literal * pystr :=
  match e with
  | Root => ("GET", u "/") | Panel => ("GET", u "/panel")
  | PanelCss => ("GET", u "/panel/pipa-control.css") | PanelJs => ("GET", u "/panel/pipa-control.js")
  | Status => ("GET", u "/status") | Reload => ("POST", u "/internal/reload")
  | Capabilities => ("GET", u "/capabilities") | IntegrationStatus => ("GET", u "/integrations/status")
  | Commands => ("GET", u "/commands") | ControlOverview => ("GET", u "/control/overview")
  | SaveProcess _ => ("PUT", u "/control/processes")
  | DeleteProcess app_id => ("DELETE", u "/control/processes/" ++ app_id)
  | RunProcess app_id => ("POST", u "/control/processes/" ++ app_id ++ u "/run")
  | UpdateCommand command_id _ _ => ("PUT", u "/control/commands/" ++ command_id)
  | ResetCommand command_id => ("DELETE", u "/control/commands/" ++ command_id)
  | UpdateWhatsApp _ => ("PUT", u "/control/whatsapp")
  | GetApps => ("GET", u "/apps") | OpenApp _ => ("POST", u "/open-app") | OpenUrl _ => ("POST", u "/open-url")
  | WebSearch _ => ("POST", u "/web/search") | MusicSearch _ => ("POST", u "/music/search")
  | MusicOpen => ("POST", u "/music/open") | LeagueOpen => ("POST", u "/league/open")
  | LeagueStatus => ("GET", u "/league/status") | LeagueSearchStatus => ("GET", u "/league/search/status")
  | LeagueSearch _ => ("POST", u "/league/search") | LeagueWait _ => ("POST", u "/league/search/wait")
  | LeagueCancel => ("DELETE", u "/league/search") | CodexOpen => ("POST", u "/codex/open")
  | SystemStatus => ("GET", u "/system/status") | SystemLock => ("POST", u "/system/lock")
  | SystemPower => ("GET", u "/system/power") | SystemNetwork => ("GET", u "/system/network")
  | MediaAction _ => ("POST", u "/media/action") | ListTimers => ("GET", u "/timers")
  | CreateTimer _ _ => ("POST", u "/timers") | CancelTimer timer_id => ("DELETE", u "/timers/" ++ timer_id)
  | WhatsAppCompose _ _ => ("POST", u "/whatsapp/compose") | WhatsAppOpen => ("POST", u "/whatsapp/open")
  | WhatsAppContactCompose _ _ => ("POST", u "/whatsapp/contact/compose")
  | WhatsAppContactOpen _ => ("POST", u "/whatsapp/contact/open") | WhatsAppPhoneOpen _ => ("POST", u "/whatsapp/phone/open")
  | DiscordOpen => ("POST", u "/discord/open") | DiscordChannelOpen _ _ => ("POST", u "/discord/channel/open")
  | DiscordChannelCall _ _ => ("POST", u "/discord/channel/call") | DiscordContactOpen _ => ("POST", u "/discord/contact/open")
  | DiscordContactCall _ => ("POST", u "/discord/contact/call")
  | PipaProtocol => ("GET", u "/pipa/protocol") | PipaChallenge _ => ("POST", u "/pipa/challenge")
  | GetVolume => ("GET", u "/audio/volume") | SetVolume _ => ("POST", u "/audio/volume")
  | Mute => ("POST", u "/audio/mute") | Unmute => ("POST", u "/audio/unmute")
  end%string.

(** What the request models ask of the fields: [Field(min_length=...,
    max_length=..., ge=..., le=..., pattern=...)]. *)
Definition length_within (lo hi : Z) (s : pystr) : bool := (lo <=? len s) && (len s <=? hi).
Definition id_char (c : Z) : bool := ascii_alnum c || (c =? 46) || (c =? 95) || (c =? 45).
Definition is_process_id (s : pystr) : bool :=
  match s with c :: s' => ascii_alnum c && matches_class id_char 0 63 s' | [] => false end.
Definition all_or_none {A} (p : A → bool) (o : option A) : bool := match o with Some a => p a | None => true end.

Definition process_request_ok (r : ProcessControlRequest) : bool :=
  length_within 1 64 (process_id r) && is_process_id (process_id r)
  && all_or_none (λ s, length_within 1 64 s && is_process_id s) (original_id r)
  && (1 <=? len (process_aliases r)) && (len (process_aliases r) <=? 32)
  && length_within 1 1024 (launcher r) && (len (arguments r) <=? 31).
Definition whatsapp_request_ok (r : WhatsAppControlRequest) : bool :=
  length_within 0 32 (number_id r) && length_within 4 8 (version r) && all_or_none (length_within 0 4096) (access_token r).

Definition request_model (e : endpoint) : bool :=
  match e with
  | SaveProcess r => process_request_ok r
  | UpdateCommand _ _ phrase => length_within 1 256 phrase
  | UpdateWhatsApp r => whatsapp_request_ok r
  | OpenApp app => length_within 1 64 app
  | OpenUrl url => length_within 1 2048 url
  | WebSearch query => length_within 1 500 query
  | MusicSearch term => length_within 1 500 term
  | LeagueSearch queue => length_within 1 64 queue
  | LeagueWait seconds => (1 <=? seconds) && (seconds <=? MAX_MATCH_WAIT_SECONDS)
  | MediaAction action => length_within 1 32 action
  | CreateTimer seconds label => (1 <=? seconds) && (seconds <=? 24 * 60 * 60) && length_within 1 120 label
  | WhatsAppCompose phone message => length_within 7 32 phone && length_within 1 4096 message
  | WhatsAppPhoneOpen phone => length_within 7 32 phone
  | WhatsAppContactCompose contact message => length_within 1 80 contact && length_within 1 4096 message
  | WhatsAppContactOpen contact | DiscordContactOpen contact | DiscordContactCall contact => length_within 1 80 contact
  | DiscordChannelOpen channel_id guild_id | DiscordChannelCall channel_id guild_id =>
    length_within 17 20 channel_id && all_or_none (length_within 17 20) guild_id
  | PipaChallenge device_id => length_within 1 64 device_id
  | SetVolume percent => (0 <=? percent) && (percent <=? 100)
  | _ => true
  end.

(** The web framework: the route of a request and its validated model, or the
    response it gives by itself (an unknown path, a method that is not allowed,
    a host that is not this machine). *)
Inductive dispatch := Endpoint (e : endpoint) | Invalid | Answered (r : response).
Class Framework := dispatch_request : request → bytes → dispatch.
Class FrameworkLaws (F : Framework) : Prop := {
  dispatch_route r b e : dispatch_request r b = Endpoint e → method r = u (route e).1 ∧ path r = (route e).2;
  dispatch_model r b e : dispatch_request r b = Endpoint e → request_model e = true
}.

(** The environment of the process and the state of its gateways. *)
Record gateways := mkGateways {
  serial_configured : bool; serial_running : bool; serial_connected : bool; serial_security_mode : pystr;
  mobile_transport : pystr; mobile_running : bool; mobile_connected : bool
}.
(** [_serial_security_mode] and [_mobile_transport_mode] of the variables. *)
Definition mode_of `{UnicodeText} (dflt : literal) (variable : option pystr) (unset : pystr) : pystr :=
  let mode := lower_text (strip (default unset variable)) in if nonempty mode then mode else u dflt.
Definition _serial_security_mode `{UnicodeText} (variable : option pystr) : pystr := mode_of "v1"%string variable (u "v1").
Definition _mobile_transport_mode `{UnicodeText} (variable : option pystr) : pystr := mode_of "disabled"%string variable [].
Definition _mobile_gateway_is_configured (g : gateways) : bool := mobile_transport g =s "tcp-v2".

(** [o is not None] *)
Definition present {A} (o : option A) : bool := match o with Some _ => true | None => false end.

(** What a route's function returns, or the [HTTPException] it raises. *)
Inductive outcome := Reply (o : object) | FileReply (name media_type : literal) | HttpError (status : Z) (text : literal).

Arguments FileReply (name media_type)%_string_scope.
Arguments HttpError status text%_string_scope.

Definition respond (o : outcome) : response :=
  match o with
  | Reply o => mkResponse 200 (Json (VDict o)) []
  | FileReply name media_type => mkResponse 200 (File (u name) (u media_type)) []
  | HttpError status text => detail status text
  end.

Section Api.
Context `{T : UnicodeText} {HT : UnicodeTextLaws T} `{D : UrlData} `{C : UnicodeCategories} `{W : Machine} `{F : Framework}.
Context {V : Type} `{I : VerifierI V}.

(** The Core, and whether the server was told to stop ([None] when the agent
    runs without its own server). *)
Record agent := mkAgent { pipa_core : core_state desktop V; _uvicorn_server : option bool }.
Definition desktop_of (s : agent) : desktop := the_world (pipa_core s).
Definition on_core {A} (m : M (core_state desktop V) A) : M agent A :=
  zoom pipa_core (λ c s, mkAgent c (_uvicorn_server s)) m.
Definition on_desktop {A} (m : M desktop A) : M agent A := on_core (on_router (on_world m)).

(** [try: m / except (es) as error: raise HTTPException(status, text) from error] *)
Definition or_error (es : list exn) (status : Z) (text : literal) (m : M agent outcome) : M agent outcome :=
  except m es (mret (HttpError status text)).
Arguments or_error es status text%_string_scope m.
Definition reply (m : M desktop object) : M agent outcome := on_desktop m ≫= λ o, mret (Reply o).
Definition success (items : object) : object := (u "success", VBool true) :: items.
Definition opt_str (o : option pystr) : value := match o with Some s => VStr s | None => VNone end.

(** *** The service *)

Definition root : outcome := Reply
  [(u "service", VStr (u "pipa-windows-agent")); (u "name", VStr (u "Pipα Windows Agent")); (u "version", VStr (u "0.5.0"));
   (u "status", VStr (u "online")); (u "control_panel", VStr (u "/panel"))].
Definition control_panel : outcome := FileReply "index.html" "text/html; charset=utf-8".
Definition control_panel_css : outcome := FileReply "pipa-control.css" "text/css; charset=utf-8".
Definition control_panel_js : outcome := FileReply "pipa-control.js" "application/javascript; charset=utf-8".
Definition status : outcome := Reply (success [(u "pc", VStr (u "online"))]).

(** The scheduled [setattr(_uvicorn_server, "should_exit", True)] always runs. *)
Definition api_internal_reload (r : request) : M agent outcome :=
  if negb (bool_decide (header r (u "x-pipa-reload") = Some (u "1"))) then
    mret (HttpError 403 "Falta la señal de recarga de Pipα.")
  else
    gets _uvicorn_server ≫= λ server,
    match server with
    | None => mret (HttpError 503 "La recarga no está disponible.")
    | Some _ =>
      modify (λ s, mkAgent (pipa_core s) (Some true)) ≫= λ _,
      mret (Reply (success [(u "restarting", VBool true)]))
    end.

(** [tools/capabilities.py] *)
Definition get_capabilities (g : gateways) : M desktop object :=
  get_integration_capabilities ≫= λ integrations,
  get_command_catalog ≫= λ commands,
  mret (success [(u "hardware_required", VBool false);
    (u "device", VDict [
      (u "serial_gateway_configured", VBool (serial_configured g)); (u "serial_gateway_running", VBool (serial_running g));
      (u "serial_gateway_connected", VBool (serial_connected g));
      (u "mobile_gateway_configured", VBool (_mobile_gateway_is_configured g)); (u "mobile_gateway_running", VBool (mobile_running g));
      (u "mobile_gateway_connected", VBool (mobile_connected g)); (u "mobile_transport_security", VStr (u "secure-session-v2"))]);
    (u "integrations", VDict integrations); (u "commands", VList (VDict <$> commands))]).
Definition api_capabilities (g : gateways) : M agent outcome := reply (get_capabilities g).
Definition api_integration_status : M agent outcome :=
  reply (get_integration_capabilities ≫= λ integrations, mret (success [(u "integrations", VDict integrations)])).
Definition api_commands : M agent outcome :=
  reply (get_command_catalog ≫= λ commands, mret (success [(u "commands", VList (VDict <$> commands))])).

(** *** The control panel *)

Definition process_object (app_id : pystr) (a : app_entry) : M desktop object :=
  match Apps.command a with
  | launcher :: arguments =>
    launcher_resolved launcher ≫= λ resolved,
    mret [(u "id", VStr app_id); (u "aliases", str_list (Apps.aliases a)); (u "launcher", VStr launcher);
          (u "arguments", str_list arguments); (u "enabled", VBool (Apps.enabled a)); (u "launcher_resolved", VBool resolved)]
  | [] => raise IndexError
  end.
Definition by_folded_id (x y : pystr * app_entry) : Prop := pystr_leb (casefold_text x.1) (casefold_text y.1) = true.
#[local] Instance by_folded_id_dec : RelDecision by_folded_id.
Proof. intros x y. unfold by_folded_id. apply _. Defined.

Definition _control_processes : M desktop (list object) :=
  load_apps true ≫= λ apps, collect (λ kv, process_object kv.1 kv.2) (merge_sort by_folded_id apps).

(** [sum(bool(item[key]) for item in items)] *)
Definition count_true (key : pystr) (items : list object) : value := VInt (len (filter (λ o, truthy (get key o) = true) items)).

Definition api_control_overview : M agent outcome :=
  reply (
    _control_processes ≫= λ processes,
    get_command_control_catalog ≫= λ commands,
    get_whatsapp_public_status ≫= λ whatsapp,
    mret (success [
      (u "service", VDict [(u "name", VStr (u "Pipα")); (u "version", VStr (u "0.5.0")); (u "status", VStr (u "online"))]);
      (u "summary", VDict [
        (u "processes", VInt (len processes)); (u "active_processes", count_true (u "enabled") processes);
        (u "commands", VInt (len commands)); (u "active_commands", count_true (u "enabled") commands);
        (u "automatic_whatsapp", VBool (truthy (get (u "active") whatsapp)))]);
      (u "processes", VList (VDict <$> processes)); (u "commands", VList (VDict <$> commands)); (u "whatsapp", VDict whatsapp)])).

Definition _matching_app_id (apps : app_table) (requested : pystr) : option pystr :=
  fst <$> List.find (λ kv, bool_decide (casefold_text kv.1 = casefold_text requested)) apps.

(** [apps] with the original process removed and the new one assigned. *)
Definition edited_apps (r : ProcessControlRequest) (apps : app_table) : result app_table :=
  let target_id := _matching_app_id apps (process_id r) in
  let entry := mkApp (process_aliases r) (launcher r :: arguments r) (process_enabled r) in
  match original_id r with
  | None => if present target_id then Raise ValueError else Ok (dset (process_id r) entry apps)
  | Some original =>
    match _matching_app_id apps original with
    | None => Raise ValueError
    | Some existing_id =>
      if match target_id with Some t => negb (bool_decide (t = existing_id)) | None => false end then Raise ValueError
      else Ok (dset (process_id r) entry (ddel existing_id apps))
    end
  end.

(** A [next] without a match is an error of the server. *)
Definition save_process (r : ProcessControlRequest) : M desktop object :=
  load_apps true ≫= λ apps,
  lift (edited_apps r apps) ≫= λ apps,
  save_apps (apps_value apps) ≫= λ _,
  _control_processes ≫= λ processes,
  match List.find (λ item, eq_str (get (u "id") item) (process_id r)) processes with
  | Some process => mret (success [(u "process", VDict process)])
  | None => raise RuntimeError
  end.
Definition api_control_save_process (r : ProcessControlRequest) : M agent outcome :=
  or_error [AppsConfigError; ValueError] 400 "No se pudo guardar ese proceso." (reply (save_process r)).

Definition delete_process (app_id : pystr) : M desktop object :=
  load_apps true ≫= λ apps,
  match _matching_app_id apps app_id with
  | None => raise ValueError
  | Some existing_id => save_apps (apps_value (ddel existing_id apps)) ≫= λ _, mret (success [(u "deleted", VBool true)])
  end.
Definition api_control_delete_process (app_id : pystr) : M agent outcome :=
  or_error [AppsConfigError; ValueError] 400 "No se pudo eliminar ese proceso." (reply (delete_process app_id)).

Definition api_control_run_process (app_id : pystr) : M agent outcome :=
  or_error [AppsConfigError; ValueError] 400 "No se pudo ejecutar ese proceso."
    (on_desktop (open_app app_id) ≫= λ result,
     mret (if is_true (get (u "success") result) then Reply result else HttpError 409 "El proceso no está disponible.")).

Definition command_reply (m : M desktop object) : M agent outcome :=
  reply (m ≫= λ command, mret (success [(u "command", VDict command)])).
Definition api_control_update_command (command_id : pystr) (enabled : bool) (phrase : pystr) : M agent outcome :=
  or_error [ControlConfigError; ValueError] 400 "No se pudo guardar ese comando."
    (command_reply (update_command_control command_id enabled phrase)).
Definition api_control_reset_command (command_id : pystr) : M agent outcome :=
  or_error [ControlConfigError; ValueError] 400 "No se pudo restaurar ese comando."
    (command_reply (reset_command_control command_id)).

Definition update_whatsapp (r : WhatsAppControlRequest) : M desktop object :=
  let token := match access_token r with Some t => if nonempty t then Some (strip t) else None | None => None end in
  if automatic_send r && forget_access_token r then raise ValueError
  else if automatic_send r && negb (nonempty (number_id r)) then raise ValueError
  else
    (if automatic_send r && negb (present token)
     then get_whatsapp_access_token ≫= λ stored, if present stored then mret tt else raise ValueError
     else mret tt) ≫= λ _,
    set_whatsapp_settings (mkWhatsapp (if automatic_send r then u "cloud_api" else u "manual") (number_id r) (version r)) ≫= λ _,
    (match token with Some t => store_whatsapp_access_token (VStr t) | None => mret tt end) ≫= λ _,
    (if forget_access_token r then delete_whatsapp_access_token else mret tt) ≫= λ _,
    get_whatsapp_public_status ≫= λ whatsapp, mret (success [(u "whatsapp", VDict whatsapp)]).
Definition api_control_update_whatsapp (r : WhatsAppControlRequest) : M agent outcome :=
  or_error [ControlConfigError; ValueError] 400 "No se pudo guardar la automatización de WhatsApp." (reply (update_whatsapp r)).

(** *** Applications, the browser and music *)

Definition get_apps : M agent outcome :=
  reply (load_apps false ≫= λ apps, mret (success [(u "apps", VDict ((λ kv, (kv.1, str_list (Apps.aliases kv.2))) <$> apps))])).
Definition api_open_app (app : pystr) : M agent outcome := reply (open_app app).
Definition api_open_url (url : pystr) : M agent outcome :=
  except (on_desktop (lift (validate_external_url (VStr url))) ≫= λ url, mret (Some url)) [ValueError] (mret None) ≫= λ checked,
  match checked with
  | None => mret (HttpError 400 "La URL no es válida.")
  | Some url =>
    reply (open_validated_url (VStr url) "URL abierta en el navegador."%string "No he podido abrir la URL en el navegador."%string ≫= λ r,
           mret (without_destination r))
  end.
Definition api_web_search (query : pystr) : M agent outcome :=
  or_error [ValueError] 400 "La búsqueda no es válida." (reply (open_web_search (VStr query))).
Definition api_music_search (term : pystr) : M agent outcome :=
  or_error [ValueError] 400 "La búsqueda musical no es válida." (reply (open_apple_music_search (VStr term))).
Definition api_music_open : M agent outcome := reply (open_apple_music ≫= λ r, mret (without_destination r)).
Definition api_open_codex : M agent outcome := reply open_codex.

(** *** League *)

Definition league_unavailable (m : M agent outcome) : M agent outcome :=
  or_error [LeagueClientError] 503 "League no está disponible ahora." m.
Definition api_open_league : M agent outcome := reply open_league.
Definition api_league_status : M agent outcome := league_unavailable (reply (with_client League.status)).
Definition api_league_search_status : M agent outcome :=
  league_unavailable (reply (with_client (λ client, search_status client ≫= λ s, mret (search_object s)))).
(** Two handlers of one [try]: the first class that matches. *)
Definition api_league_search (queue : pystr) : M agent outcome :=
  try_with
    (reply (with_client_or_launch (λ client, start_search client (VStr queue)) open_league))
    (λ e, if is_a e ValueError then mret (HttpError 400 "La cola de League no es válida.")
          else if is_a e LeagueClientError then mret (HttpError 503 "League no está disponible ahora.")
          else raise e).
Definition api_league_wait (seconds : Z) : M agent outcome :=
  league_unavailable (reply (with_client (λ client, wait_for_match client seconds))).
Definition api_league_cancel_search : M agent outcome := league_unavailable (reply (with_client cancel_search)).

(** *** The computer *)

Definition api_system_status : M agent outcome := reply get_system_status.
Definition api_lock_pc : M agent outcome := reply lock_pc.
Definition api_power_status : M agent outcome := reply get_power_status.
Definition api_network_status : M agent outcome := reply get_network_status.
Definition api_media_action (action : pystr) : M agent outcome :=
  try_with (reply (send_media_action action))
    (λ e, if is_a e ValueError then mret (HttpError 400 "La acción multimedia no es válida.")
          else if is_a e RuntimeError then mret (HttpError 503 "El audio no está disponible ahora.")
          else raise e).
Definition api_get_volume : M agent outcome := reply get_volume.
Definition api_set_volume (percent : Z) : M agent outcome := reply (set_volume percent).
Definition api_mute : M agent outcome := reply mute.
Definition api_unmute : M agent outcome := reply unmute.

Definition api_list_timers : M agent outcome :=
  reply (on_timers (gets list_timers) ≫= λ timers, mret (success [(u "timers", VList (VDict <$> timers))])).
Definition timer_reply (m : M desktop object) : M agent outcome :=
  reply (m ≫= λ timer, mret (success [(u "timer", VDict timer)])).
Definition api_create_timer (seconds : Z) (label : pystr) : M agent outcome :=
  or_error [ValueError] 400 "El temporizador no es válido." (timer_reply (create_timer seconds label)).
Definition api_cancel_timer (timer_id : pystr) : M agent outcome :=
  match validate_timer_id (VStr timer_id) with
  | Raise e => if is_a e ValueError then mret (HttpError 400 "El identificador del temporizador no es válido.") else raise e
  | Ok timer_id =>
    or_error [TimerNotFoundError] 404 "Ese temporizador no existe." (timer_reply (on_timers (Timers.cancel (VStr timer_id))))
  end.

(** *** Messages and channels *)

Definition send_or_compose (phone message : pystr) : M desktop object :=
  whatsapp_automatic_send_active ≫= λ automatic,
  if automatic : bool then send_whatsapp_cloud_message (VStr phone) (VStr message)
  else open_whatsapp_compose (VStr phone) (VStr message).
Definition api_whatsapp_compose (phone message : pystr) : M agent outcome :=
  or_error [ValueError] 400 "La solicitud de WhatsApp no es válida." (reply (send_or_compose phone message)).
Definition api_whatsapp_open : M agent outcome := reply (open_whatsapp_web ≫= λ r, mret (without_destination r)).
Definition api_whatsapp_contact_compose (contact message : pystr) : M agent outcome :=
  or_error [ValueError] 400 "El contacto o mensaje de WhatsApp no es válido."
    (reply (resolve_whatsapp_contact contact ≫= λ '(_contact_name, phone), send_or_compose phone message)).
Definition api_whatsapp_contact_open (contact : pystr) : M agent outcome :=
  or_error [ValueError] 400 "El contacto de WhatsApp no está disponible."
    (reply (resolve_whatsapp_contact contact ≫= λ '(_contact_name, phone), open_whatsapp_chat (VStr phone))).
Definition api_whatsapp_phone_open (phone : pystr) : M agent outcome :=
  or_error [ValueError] 400 "El teléfono de WhatsApp no es válido." (reply (open_whatsapp_chat (VStr phone))).

Definition api_discord_open : M agent outcome := reply (open_discord_app ≫= λ r, mret (without_destination r)).
Definition api_discord_channel_open (channel_id : pystr) (guild_id : option pystr) : M agent outcome :=
  or_error [ValueError] 400 "El canal de Discord no es válido."
    (reply (open_discord_channel (VStr channel_id) (opt_str guild_id) ≫= λ r, mret (without_destination r))).
Definition api_discord_channel_call (channel_id : pystr) (guild_id : option pystr) : M agent outcome :=
  or_error [ValueError] 400 "El canal de Discord no es válido."
    (reply (open_discord_call (VStr channel_id) (opt_str guild_id) ≫= λ r, mret (without_destination r))).
Definition contact_channel_reply (contact : pystr) (open : value → value → M desktop object) : M agent outcome :=
  or_error [ValueError] 400 "El contacto de Discord no está disponible."
    (reply (resolve_discord_contact contact ≫= λ '(_contact_name, channel_id, guild_id),
            open (VStr channel_id) (str_or_none guild_id))).
Definition api_discord_contact_open (contact : pystr) : M agent outcome := contact_channel_reply contact open_discord_channel.
Definition api_discord_contact_call (contact : pystr) : M agent outcome := contact_channel_reply contact open_discord_call.

(** *** The Core *)

Definition api_pipa_protocol (g : gateways) : M agent outcome :=
  gets (λ s, Reply (success [
    (u "protocol_version", VInt 1); (u "websocket", VStr (u "/pipa/ws")); (u "tool_names", str_list (tool_names agent_catalog));
    (u "connected_sessions", VInt (count (sessions (pipa_core s))));
    (u "serial_gateway_configured", VBool (serial_configured g)); (u "serial_gateway_running", VBool (serial_running g));
    (u "serial_gateway_connected", VBool (serial_connected g)); (u "serial_gateway_security", VStr (serial_security_mode g));
    (u "mobile_transport", VStr (mobile_transport g)); (u "mobile_gateway_configured", VBool (_mobile_gateway_is_configured g));
    (u "mobile_gateway_running", VBool (mobile_running g)); (u "mobile_gateway_connected", VBool (mobile_connected g))])).

Definition api_pipa_challenge (cenv : challenge_env) (device_id : pystr) : M agent outcome :=
  or_error [TrustedUnlockError; ValueError] 404 "Dispositivo Pipa no emparejado."
    (on_core (create_challenge cenv device_id) ≫= λ challenge,
     mret (Reply (success [(u "challenge", VDict (challenge_dict challenge))]))).

(** ** One request *)

(** What the request reads besides its own text: the gateways, and the clock
    and the draws of a challenge. *)
Context (g : gateways) (cenv : challenge_env).

Definition run_endpoint (r : request) (e : endpoint) : M agent outcome :=
  match e with
  | Root => mret root | Panel => mret control_panel | PanelCss => mret control_panel_css | PanelJs => mret control_panel_js
  | Status => mret status | Reload => api_internal_reload r | Capabilities => api_capabilities g
  | IntegrationStatus => api_integration_status | Commands => api_commands | ControlOverview => api_control_overview
  | SaveProcess q => api_control_save_process q | DeleteProcess app_id => api_control_delete_process app_id
  | RunProcess app_id => api_control_run_process app_id
  | UpdateCommand command_id enabled phrase => api_control_update_command command_id enabled phrase
  | ResetCommand command_id => api_control_reset_command command_id | UpdateWhatsApp q => api_control_update_whatsapp q
  | GetApps => get_apps | OpenApp app => api_open_app app | OpenUrl url => api_open_url url
  | WebSearch query => api_web_search query | MusicSearch term => api_music_search term | MusicOpen => api_music_open
  | LeagueOpen => api_open_league | LeagueStatus => api_league_status | LeagueSearchStatus => api_league_search_status
  | LeagueSearch queue => api_league_search queue | LeagueWait seconds => api_league_wait seconds
  | LeagueCancel => api_league_cancel_search | CodexOpen => api_open_codex | SystemStatus => api_system_status
  | SystemLock => api_lock_pc | SystemPower => api_power_status | SystemNetwork => api_network_status
  | MediaAction action => api_media_action action | ListTimers => api_list_timers
  | CreateTimer seconds label => api_create_timer seconds label | CancelTimer timer_id => api_cancel_timer timer_id
  | WhatsAppCompose phone message => api_whatsapp_compose phone message | WhatsAppOpen => api_whatsapp_open
  | WhatsAppContactCompose contact message => api_whatsapp_contact_compose contact message
  | WhatsAppContactOpen contact => api_whatsapp_contact_open contact | WhatsAppPhoneOpen phone => api_whatsapp_phone_open phone
  | DiscordOpen => api_discord_open | DiscordChannelOpen channel_id guild_id => api_discord_channel_open channel_id guild_id
  | DiscordChannelCall channel_id guild_id => api_discord_channel_call channel_id guild_id
  | DiscordContactOpen contact => api_discord_contact_open contact | DiscordContactCall contact => api_discord_contact_call contact
  | PipaProtocol => api_pipa_protocol g | PipaChallenge device_id => api_pipa_challenge cenv device_id
  | GetVolume => api_get_volume | SetVolume percent => api_set_volume percent | Mute => api_mute | Unmute => api_unmute
  end.

(** [await call_next(request)] *)
Definition call_next (r : request) (body : bytes) : M agent response :=
  match dispatch_request r body with
  | Endpoint e => run_endpoint r e ≫= λ o, mret (respond o)
  | Invalid => mret handle_request_validation
  | Answered response => mret response
  end.

Definition reads_only (r : request) : bool := one_of (method r) ["GET"; "HEAD"; "OPTIONS"]%string.
Definition has_header (r : request) (name value : literal) : bool := bool_decide (header r (u name) = Some (u value)).
Arguments has_header r (name value)%_string_scope.
Definition walled_path (p : pystr) : bool := bool_decide (p ∈ LOCAL_CONFIRMATION_PATHS) || startswith (u "/control/") p.

(** The [Content-Length] check: a response when it refuses the request. *)
Definition length_refused (r : request) : option response :=
  match header r (u "content-length") with
  | None => None
  | Some n =>
    match int_of_text n with
    | Ok n => if MAX_REQUEST_BYTES <? n then Some (detail 413 "Solicitud demasiado grande.") else None
    | Raise _ => Some (detail 400 "Content-Length no válido.")
    end
  end.

Definition protect_local_http (r : request) : M agent response :=
  if negb (reads_only r) && negb (has_header r "x-pipa-local-request" "1") then
    mret (_harden_http_response (detail 403 "Falta la cabecera local de Pipα."))
  else if one_of (method r) ["POST"; "PUT"; "DELETE"]%string && walled_path (path r)
          && negb (has_header r "x-pipa-local-confirmation" "1") then
    mret (_harden_http_response (detail 403 "Falta la confirmación local explícita de Pipα."))
  else
    match length_refused r with
    | Some response => mret (_harden_http_response response)
    | None =>
      match (if reads_only r then Some [] else _read_bounded_body r) with
      | None => mret (_harden_http_response (detail 413 "Solicitud demasiado grande."))
      | Some body => call_next r body ≫= λ response, mret (_harden_http_response response)
      end
    end.

(** The application: the middleware, and the handler of what it raises. *)
Definition serve (r : request) : M agent response :=
  try_with (protect_local_http r) (λ _, mret handle_unexpected_request).
End Api.
Arguments agent V : clear implicits.

