(* ===== verification/HttpFacts.v ===== *)
(** * What the local HTTP server lets through

    Every route of [HttpApi] does no more than the tool it stands for, and the
    routes that do more than a safe tool are exactly behind the confirmation
    header; so a request without that header is harmless, whatever it asks. *)
From S2P Require Import Prelude Dict Value Effects TextPolicy PyText Json Protocol Timers Sessions Confirmations Tools Challenge.
From S2P Require Import PyStr Core CoreFacts Gate Urls Machine Apps Contacts ControlConfig League Desktop IntegrationCatalog.
From S2P Require Import AgentCatalog AgentFacts AgentCore HttpApi.

(** ** What a route may do *)

(** The tool a route stands for. *)
Definition tool_of (e : endpoint) : option literal :=
  match e with
  | IntegrationStatus => Some "integration_status" | RunProcess _ | OpenApp _ => Some "open_app" | OpenUrl _ => Some "open_url"
  | WebSearch _ => Some "web_search" | MusicSearch _ => Some "music_search" | MusicOpen => Some "music_open"
  | LeagueOpen => Some "league_open" | LeagueStatus => Some "league_status" | LeagueSearchStatus => Some "league_search_status"
  | LeagueSearch _ => Some "league_search" | LeagueWait _ => Some "league_wait" | LeagueCancel => Some "league_cancel"
  | CodexOpen => Some "open_codex" | SystemStatus => Some "system_status" | SystemLock => Some "system_lock"
  | SystemPower => Some "system_power" | SystemNetwork => Some "system_network" | MediaAction _ => Some "media_action"
  | ListTimers => Some "timer_list" | CreateTimer _ _ => Some "timer_create" | CancelTimer _ => Some "timer_cancel"
  | WhatsAppCompose _ _ => Some "whatsapp_compose" | WhatsAppOpen => Some "whatsapp_open"
  | WhatsAppContactCompose _ _ => Some "whatsapp_contact" | WhatsAppContactOpen _ => Some "whatsapp_contact_open"
  | WhatsAppPhoneOpen _ => Some "whatsapp_phone_open" | DiscordOpen => Some "discord_open_app"
  | DiscordChannelOpen _ _ => Some "discord_open" | DiscordChannelCall _ _ => Some "discord_call_channel"
  | DiscordContactOpen _ => Some "discord_contact" | DiscordContactCall _ => Some "discord_call"
  | SetVolume _ => Some "audio_volume" | Mute => Some "audio_mute" | Unmute => Some "audio_unmute"
  | _ => None
  end%string.

(** What a tool may do, and what the control panel may besides: replace one
    configuration file, or change the access token. *)
Inductive grant := Tool (p : permission) | Save (f : config_file) | Token.

Definition grants (e : endpoint) : list grant :=
  match e with
  | SaveProcess _ | DeleteProcess _ => [Save AppsLocal]
  | UpdateCommand _ _ _ | ResetCommand _ => [Save ControlLocal]
  | UpdateWhatsApp _ => [Save ControlLocal; Token]
  | GetVolume => [Tool Speakers]
  | _ => match tool_of e with Some t => Tool <$> permitted (u t) | None => [] end
  end.

Arguments has_header r (name value)%_string_scope.

Section Facts.
Context `{T : UnicodeText} {HT : UnicodeTextLaws T} `{D : UrlData} `{C : UnicodeCategories} `{W : Machine} `{F : Framework}.
Context {V : Type} `{I : VerifierI V}.
Implicit Types s : agent V.

(** A temporary file is one the machine made for the configuration file. *)
Definition granted (p : grant) (e : event) : Prop :=
  match p with
  | Tool p => permits p e
  | Save f =>
    match e with
    | Event o =>
      match o with
      | MakeDirectory => True
      | MakeTemporary g => g = f
      | WriteTemporary n _ | Unlink n => ∃ h, answer h (MakeTemporary f) = Ok n
      | ReplaceFile n g => g = f ∧ ∃ h, answer h (MakeTemporary f) = Ok n
      | _ => False
      end
    end
  | Token => match e with Event o => match o with WriteCredential _ | DeleteCredential => True | _ => False end end
  end.
Definition http_event (ps : list grant) (e : event) : Prop := passive e ∨ ∃ p, p ∈ ps ∧ granted p e.

Lemma http_of_tool ps gs e : Tool <$> ps ⊆ gs → tool_event ps e → http_event gs e.
Proof using Type.
  intros Hs [He|(p & Hp & He)]; [by left|right]. exists (Tool p). split; [|done]. by apply Hs, list_elem_of_fmap_2.
Qed.

(** *** Runs of the agent *)

Definition acts (P : event → Prop) {A} (m : M (agent V) A) : Prop :=
  moves (λ s s', grows P (desktop_of s) (desktop_of s')) (λ _, True) m.

#[local] Instance acts_preorder P : PreOrder (λ s s', grows P (desktop_of s) (desktop_of s')).
Proof. split; [intros s; reflexivity|]. intros s1 s2 s3 H1 H2. by etrans. Qed.

Lemma acts_ret P {A} (a : A) : acts P (mret a).
Proof using Type. by apply moves_ret; [apply _|]. Qed.
Lemma acts_raise P {A} e : acts P (raise e : M (agent V) A).
Proof using Type. by apply moves_raise, _. Qed.
Lemma acts_gets P {A} (f : agent V → A) : acts P (gets f).
Proof using Type. by apply moves_gets; [apply _|]. Qed.
Lemma acts_bind P {A B} (m : M (agent V) A) (k : A → M (agent V) B) : acts P m → (∀ a, acts P (k a)) → acts P (m ≫= k).
Proof using Type. intros Hm Hk. eapply moves_bind; [apply _|done|]. intros a _. apply Hk. Qed.
Lemma acts_except P {A} (m : M (agent V) A) cs k : acts P m → acts P k → acts P (except m cs k).
Proof using Type. apply moves_except, _. Qed.
Lemma acts_try P {A} (m : M (agent V) A) k : acts P m → (∀ e, acts P (k e)) → acts P (try_with m k).
Proof using Type. apply moves_try, _. Qed.
Lemma acts_desktop P {A} (m : M desktop A) : does P m → acts P (on_desktop m).
Proof using Type.
  intros Hm s. unfold on_desktop, on_core, on_router, on_world. do 3 apply wp_zoom.
  destruct (Hm (desktop_of s)) as [Hr _]. by split.
Qed.
Lemma acts_reply P (m : M desktop object) : does P m → acts P (reply m).
Proof using Type. intros Hm. apply acts_bind; [by apply acts_desktop|intros; apply acts_ret]. Qed.
Lemma acts_or_error P es status text (m : M (agent V) outcome) : acts P m → acts P (or_error es status text m).
Proof using Type. intros Hm. apply acts_except; [done|apply acts_ret]. Qed.

(** A route that runs a tool's operations. *)
Lemma does_tool t gs {A} (m : M desktop A) :
  Tool <$> permitted (u t) ⊆ gs → does (tool_event (permitted (u t))) m → does (http_event gs) m.
Proof using Type. intros Hs. apply does_weaken. intros e. by apply http_of_tool. Qed.
Lemma does_reading gs {A} (m : M desktop A) : does passive m → does (http_event gs) m.
Proof using Type. apply does_weaken. by left. Qed.

(** *** The panel *)

Lemma replace_file_does f gs encoded e : Save f ∈ gs → does (http_event gs) (replace_file f encoded e).
Proof using Type.
  intros Hf. assert (∀ A (o : op A), granted (Save f) (Event o) → does (http_event gs) (call o)) as Ho.
  { intros A o H. apply does_call. right. by exists (Save f). }
  unfold replace_file. apply does_bind; [by apply Ho|intros _]. apply does_except; [|apply does_raise].
  eapply does_bind_value; [apply moves_call; right; by exists (Save f)|]. intros n (h & Hn).
  assert (∃ h, answer h (MakeTemporary f) = Ok n) as Htmp by by exists h. intros w.
  assert (does (http_event gs) (call (WriteTemporary n encoded) ≫= λ _, call (ReplaceFile n f))) as H1.
  { apply does_bind; [by apply Ho|intros _; by apply Ho]. }
  assert (does (http_event gs) (except (call (Unlink n)) [OSError] (mret tt))) as H2.
  { apply does_except; [by apply Ho|apply does_ret]. }
  unfold wp, cleanup. destruct (H1 w) as [Hr _]. destruct ((call _ ≫= _) w) as [w' [a|x]]; [by split|].
  destruct (caught x _); [|by split]. destruct (H2 w') as [Hr' _]. destruct (except _ _ _ w') as [w2 [a|y]]; split; try done; by etrans.
Qed.

Lemma apps_read b : does passive (load_apps b).
Proof using Type. unfold load_apps, _get_apps_file. repeat does_step; done. Qed.
Lemma launcher_read l : does passive (launcher_resolved l).
Proof using Type. unfold launcher_resolved, resolve_launcher. repeat does_step; done. Qed.
Lemma does_collect P {A B} (f : A → M desktop B) l : (∀ x, does P (f x)) → does P (Effects.collect f l).
Proof using Type.
  intros Hf. induction l as [|x l IH]; cbn [Effects.collect]; [apply does_ret|].
  apply does_bind; [done|intros; apply does_bind; [exact IH|intros; apply does_ret]].
Qed.
Lemma processes_read : does passive _control_processes.
Proof using Type.
  unfold _control_processes. apply does_bind; [apply apps_read|intros apps]. apply does_collect. intros [i a].
  unfold process_object. destruct (Apps.command _); [apply does_raise|]. apply does_bind; [apply launcher_read|intros; apply does_ret].
Qed.
Lemma status_read : does passive get_whatsapp_public_status.
Proof using Type.
  unfold get_whatsapp_public_status, get_whatsapp_settings, whatsapp_credential_source, _environment_access_token,
    _credential_manager_access_token.
  repeat (apply automatic_passive || apply control_passive || does_step); done.
Qed.
Lemma apps_saved gs v : Save AppsLocal ∈ gs → does (http_event gs) (save_apps v).
Proof using Type.
  intros Hs. unfold save_apps. repeat lazymatch goal with |- does _ (lift _ ≫= _) => apply does_bind; [apply does_lift|intros ?] end.
  destruct (_ <? _); [apply does_raise|]. apply does_bind; [by apply replace_file_does|intros; apply does_ret].
Qed.
Lemma control_saved gs v : Save ControlLocal ∈ gs → does (http_event gs) (save_control_config v).
Proof using Type.
  intros Hs. unfold save_control_config. repeat lazymatch goal with
    | |- does _ (lift _ ≫= _) => apply does_bind; [apply does_lift|intros ?]
    | |- does _ (if ?b then _ else _) => destruct b
    | |- does _ (raise _) => apply does_raise
    | |- does _ (replace_file _ _ _ ≫= _) => apply does_bind; [by apply replace_file_does|intros ?]
    | |- does _ (mret _) => apply does_ret
    end.
Qed.

(** *** The routes *)

Lemma open_chat_does ps phone : Browse WHATSAPP_HOST ∈ ps → does (tool_event ps) (open_whatsapp_chat phone).
Proof using Type. intros Hp. unfold open_whatsapp_chat. eapply open_built_does; [done|]. intros x. apply chat_host. Qed.
Lemma send_or_compose_does ps phone message :
  Browse WHATSAPP_HOST ∈ ps → Send ∈ ps → does (tool_event ps) (send_or_compose phone message).
Proof using HT.
  intros Hb Hs. unfold send_or_compose. apply does_bind; [apply does_passively, automatic_passive|].
  intros []; [by apply send_does|]. unfold open_whatsapp_compose. eapply open_built_does; [done|]. intros x. apply compose_host.
Qed.
Lemma contact_does ps contact (k : pystr → M desktop object) :
  (∀ phone, does (tool_event ps) (k phone)) →
  does (tool_event ps) (resolve_whatsapp_contact contact ≫= λ '(_contact_name, phone), k phone).
Proof using HT. intros Hk. apply does_bind; [apply does_passively, resolve_whatsapp_passive|]. intros [n phone]. apply Hk. Qed.
Lemma channel_reply_acts P contact (open : value → value → M desktop object) :
  does P (resolve_discord_contact contact) → (∀ c g, does P (open c g)) → acts P (contact_channel_reply contact open).
Proof using Type.
  intros Hr Hk. unfold contact_channel_reply. apply acts_or_error, acts_reply. apply does_bind; [done|].
  intros [[n c] g]. apply Hk.
Qed.
Lemma update_whatsapp_does r : does (http_event [Save ControlLocal; Token]) (update_whatsapp r).
Proof using Type.
  assert (∀ A (o : op A), granted Token (Event o) → does (http_event [Save ControlLocal; Token]) (call o)) as Ho.
  { intros A o H. apply does_call. right. exists Token. split; [one|done]. }
  unfold update_whatsapp. cbv zeta. destruct (_ && _); [apply does_raise|]. destruct (_ && _); [apply does_raise|].
  apply does_bind.
  { destruct (_ && _); [|apply does_ret]. apply does_bind; [apply does_reading, token_passive|]. intros t.
    destruct (present t); [apply does_ret|apply does_raise]. }
  intros _. apply does_bind.
  { unfold set_whatsapp_settings. apply does_bind; [apply does_reading, control_passive|]. intros c.
    apply does_bind; [apply control_saved; one|intros; apply does_ret]. }
  intros _. apply does_bind.
  { destruct (match access_token r with Some _ => _ | None => _ end); [|apply does_ret]. unfold store_whatsapp_access_token.
    follows_args. destruct (_ <? _); [apply does_raise|]. destruct (negb _); [apply does_raise|].
    apply does_except; [by apply Ho|apply does_raise]. }
  intros _. apply does_bind.
  { destruct (forget_access_token r); [|apply does_ret]. unfold delete_whatsapp_access_token.
    apply does_bind; [apply does_reading; unfold _environment_access_token; repeat does_step; done|]. intros [t|]; [apply does_raise|].
    destruct (negb _); [apply does_ret|]. apply does_bind; [apply does_except; [by apply Ho|apply does_raise]|].
    intros [c|]; [destruct (_ =? _); [apply does_ret|apply does_raise]|apply does_ret]. }
  intros _. apply does_bind; [apply does_reading, status_read|intros; apply does_ret].
Qed.

Lemma edit_does id p : does (http_event [Save ControlLocal]) (set_command_preference id p.1 p.2) ∧
  does (http_event [Save ControlLocal]) (reset_command_preference id).
Proof using Type.
  unfold set_command_preference, reset_command_preference.
  split; (apply does_bind; [apply does_reading, control_passive|]); intros c;
    (apply does_bind; [apply control_saved; one|intros; apply does_ret]).
Qed.
Lemma control_of_read id : does passive (control_of id).
Proof using Type.
  unfold control_of. apply does_bind; [apply command_lists_read|]. intros cs. destruct (command_of id cs); [apply does_ret|apply does_raise].
Qed.
Lemma update_command_does id enabled phrase : does (http_event [Save ControlLocal]) (update_command_control id enabled phrase).
Proof using Type.
  unfold update_command_control. destruct (command_of id _COMMANDS) as [s|]; [|apply does_raise].
  apply does_bind; [apply does_lift|]. intros [|c cs]; [apply does_raise|]. cbv zeta.
  apply does_bind; [|intros; apply does_reading, control_of_read].
  match goal with |- does _ (set_command_preference ?i ?b ?p) => apply (edit_does i (b, p)) end.
Qed.
Lemma reset_command_does id : does (http_event [Save ControlLocal]) (reset_command_control id).
Proof using Type.
  unfold reset_command_control. destruct (command_of id _COMMANDS) as [s|]; [|apply does_raise].
  apply does_bind; [|intros; apply does_reading, control_of_read]. apply (edit_does id (true, None)).
Qed.

Lemma reload_run r s : ∃ s' o, api_internal_reload r s = (s', Ok o) ∧ desktop_of s' = desktop_of s.
Proof using Type.
  unfold api_internal_reload. destruct (negb _); [by eexists _, _|]. unfold mbind, M_bind, gets, modify.
  destruct (_uvicorn_server s); by eexists _, _.
Qed.

Lemma challenge_route_run cenv d s : desktop_of (api_pipa_challenge cenv d s).1 = desktop_of s.
Proof using Type.
  unfold api_pipa_challenge, or_error, except, mbind, M_bind, on_core, create_challenge, on_verifier, zoom.
  destruct (vi_create_challenge _ _ _ _) as [v [c|e]]; cbn; [done|]. by repeat case_match.
Qed.

Ltac route_acts :=
  repeat first
    [ apply acts_or_error | apply acts_reply | apply acts_ret
    | lazymatch goal with |- acts _ (league_unavailable _) => unfold league_unavailable end ].
(** The tool's own lemma, under the grants of the route. *)
Ltac as_tool t := apply (does_tool t); [done|].

(** A route does what its grants allow. *)
Lemma endpoint_acts g cenv r e : acts (http_event (grants e)) (run_endpoint g cenv r e).
Proof using HT.
  destruct e; cbn [run_endpoint grants tool_of];
    try lazymatch goal with |- acts _ (mret _) => apply acts_ret | |- acts _ (api_pipa_protocol _) => apply acts_gets end.
  - intros s. destruct (reload_run r s) as (s' & o & Hr & Hd). unfold wp. rewrite Hr. cbn [fst snd]. split; [|done]. by rewrite Hd.
  - apply acts_reply, does_reading. unfold get_capabilities. apply does_bind; [apply capabilities_passive|intros].
    apply does_bind; [apply command_lists_read|intros; apply does_ret].
  - apply acts_reply, does_reading, does_bind; [apply capabilities_passive|intros; apply does_ret].
  - apply acts_reply, does_reading, does_bind; [apply command_lists_read|intros; apply does_ret].
  - apply acts_reply, does_reading, does_bind; [apply processes_read|intros]. apply does_bind; [apply command_lists_read|intros].
    apply does_bind; [apply status_read|intros; apply does_ret].
  - apply acts_or_error, acts_reply. unfold save_process. apply does_bind; [apply does_reading, apps_read|intros]. follows_args.
    apply does_bind; [apply apps_saved; one|intros]. apply does_bind; [apply does_reading, processes_read|intros].
    destruct (find _ _); [apply does_ret|apply does_raise].
  - apply acts_or_error, acts_reply. unfold delete_process. apply does_bind; [apply does_reading, apps_read|intros apps].
    destruct (_matching_app_id apps app_id); [|apply does_raise]. apply does_bind; [apply apps_saved; one|intros; apply does_ret].
  - apply acts_or_error, acts_bind; [|intros; apply acts_ret]. apply acts_desktop. as_tool "open_app"%string. apply open_app_permitted. one.
  - apply acts_or_error, acts_reply, does_bind; [apply update_command_does|intros; apply does_ret].
  - apply acts_or_error, acts_reply, does_bind; [apply reset_command_does|intros; apply does_ret].
  - apply acts_or_error, acts_reply, update_whatsapp_does.
  - apply acts_reply, does_reading, does_bind; [apply apps_read|intros; apply does_ret].
  - apply acts_reply. as_tool "open_app"%string. apply open_app_permitted. one.
  - unfold api_open_url. apply (moves_bind _ (λ o, ∀ x, o = Some x → ∃ v, validate_external_url v = Ok x)).
    + apply moves_except; [apply _| |by apply moves_ret; [apply _|]].
      apply (moves_bind _ (λ x, validate_external_url (VStr url) = Ok x)).
      * intros s. split; [done|]. unfold on_desktop, on_core, on_router, on_world, zoom, lift.
        destruct (validate_external_url (VStr url)) eqn:E; cbn; [by intros ? [= <-]|done].
      * intros x Hx. apply moves_ret; [apply _|]. intros y [= <-]. by eexists.
    + intros [x|] Hx; [|apply acts_ret]. destruct (Hx x eq_refl) as [v Hv].
      apply acts_reply, does_bind; [|intros; apply does_ret]. as_tool "open_url"%string. apply open_validated_does. intros y Hy.
      exists BrowseAnywhere. split; [one|]. by eexists.
  - apply acts_or_error, acts_reply. as_tool "web_search"%string. unfold open_web_search. eapply open_built_does; [one|]. intros x. apply web_search_host.
  - apply acts_or_error, acts_reply. as_tool "music_search"%string. unfold open_apple_music_search. eapply open_built_does; [one|]. intros x. apply music_search_host.
  - apply acts_reply. as_tool "music_open"%string. apply music_open_may.
  - apply acts_reply. as_tool "league_open"%string. apply open_league_does; one.
  - apply acts_or_error, acts_reply. as_tool "league_status"%string. apply league_reads_may; [one|]. intros c. apply status_does.
  - apply acts_or_error, acts_reply. as_tool "league_search_status"%string. apply league_reads_may; [one|]. intros c Hc.
    apply does_bind; [by apply get_search|intros; apply does_ret].
  - apply acts_try; [|intros e; destruct (is_a e ValueError); [apply acts_ret|]; destruct (is_a e _); [apply acts_ret|apply acts_raise]].
    apply acts_reply. as_tool "league_search"%string. apply launched_search_may.
  - apply acts_or_error, acts_reply. as_tool "league_wait"%string. apply league_reads_may; [one|]. intros c. apply wait_does.
  - apply acts_or_error, acts_reply. as_tool "league_cancel"%string. apply league_cancel_may.
  - apply acts_reply. as_tool "open_codex"%string. unfold open_codex. apply open_app_permitted. one.
  - apply acts_reply. as_tool "system_status"%string. apply readings_may.
  - apply acts_reply. as_tool "system_lock"%string. apply lock_may.
  - apply acts_reply. as_tool "system_power"%string. apply readings_may.
  - apply acts_reply. as_tool "system_network"%string. apply readings_may.
  - apply acts_try; [|intros e; destruct (is_a e ValueError); [apply acts_ret|]; destruct (is_a e _); [apply acts_ret|apply acts_raise]].
    apply acts_reply. as_tool "media_action"%string. apply media_does. one.
  - apply acts_reply, does_bind; [apply does_timers|intros; apply does_ret].
  - apply acts_or_error. unfold timer_reply. apply acts_reply, does_bind; [|intros; apply does_ret]. as_tool "timer_create"%string. apply create_timer_may.
  - unfold api_cancel_timer. destruct (validate_timer_id _); [|destruct (is_a _ _); [apply acts_ret|apply acts_raise]].
    apply acts_or_error. unfold timer_reply. apply acts_reply, does_bind; [apply does_timers|intros; apply does_ret].
  - apply acts_or_error, acts_reply. as_tool "whatsapp_compose"%string. apply send_or_compose_does; one.
  - apply acts_reply. as_tool "whatsapp_open"%string. apply whatsapp_open_may.
  - apply acts_or_error, acts_reply. as_tool "whatsapp_contact"%string. apply contact_does. intros phone. apply send_or_compose_does; one.
  - apply acts_or_error, acts_reply. as_tool "whatsapp_contact_open"%string. apply contact_does. intros phone. apply open_chat_does. one.
  - apply acts_or_error, acts_reply. as_tool "whatsapp_phone_open"%string. apply open_chat_does. one.
  - apply acts_reply. as_tool "discord_open_app"%string. apply discord_open_app_may.
  - apply acts_or_error, acts_reply, does_bind; [|intros; apply does_ret]. as_tool "discord_open"%string. apply (proj1 (channel_may _ _ _ ltac:(one))).
  - apply acts_or_error, acts_reply, does_bind; [|intros; apply does_ret]. as_tool "discord_call_channel"%string. apply (proj2 (channel_may _ _ _ ltac:(one))).
  - apply channel_reply_acts; [apply does_reading, resolve_discord_passive|]. intros c g'. as_tool "discord_contact"%string. apply (proj1 (channel_may _ _ _ ltac:(one))).
  - apply channel_reply_acts; [apply does_reading, resolve_discord_passive|]. intros c g'. as_tool "discord_call"%string. apply (proj2 (channel_may _ _ _ ltac:(one))).
  - intros s. split; [|done]. by rewrite challenge_route_run.
  - apply acts_reply. apply (does_weaken (tool_event [Speakers])); [intros x; by apply http_of_tool|].
    unfold get_volume. apply speakers_does; [one|]. apply does_bind; [by apply does_passively, does_call|]. intros [[n f] m]. follows_args. apply does_ret.
  - apply acts_reply. as_tool "audio_volume"%string. apply set_volume_does. one.
  - apply acts_reply. as_tool "audio_mute"%string. apply mute_may.
  - apply acts_reply. as_tool "audio_unmute"%string. apply unmute_may.
Qed.

(** *** The wall *)

(** A route that does more than a safe tool is behind the confirmation. *)
Definition outward (e : endpoint) : bool :=
  negb (forallb (λ p, match p with Tool p => harmless p | _ => false end) (grants e)).
Definition walled (e : endpoint) : bool :=
  one_of (u (route e).1) ["POST"; "PUT"; "DELETE"]%string && walled_path (route e).2.

Lemma outward_walled e : outward e = true → walled e = true.
Proof using Type.
  destruct e; intros H; first [by vm_compute in H|by vm_compute].
Qed.

Lemma inward_harmless e x : outward e = false → http_event (grants e) x → tool_event UNASKED x.
Proof using Type.
  unfold outward. intros Ho%negb_false_iff [Hx|(p & Hp & Hx)]; [by left|].
  rewrite forallb_forall in Ho. specialize (Ho p (proj1 (list_elem_of_In _ _) Hp)). destruct p as [p| |]; [|done..].
  apply (harmless_event [p]); [by apply Forall_singleton|]. right. exists p. split; [by left|done].
Qed.

Lemma acts_run P {A} (m : M (agent V) A) s s' r :
  acts P m → m s = (s', r) → ∃ new, events (desktop_of s') = new ++ events (desktop_of s) ∧ Forall P new.
Proof using Type. intros Hm Hr. destruct (Hm s) as [Hg _]. by rewrite Hr in Hg. Qed.

Definition hardened (r : response) : Prop := ∀ kv, kv ∈ SECURITY_HEADERS → dget (u kv.1) (headers r) = Some (u kv.2).
Abbreviation set_headers h l := (foldl (λ h kv, dset (u kv.1) (u kv.2) h) h l).
Lemma set_headers_other k h (l : list (literal * literal)) :
  k ∉ (λ kv, u kv.1) <$> l → dget k (set_headers h l) = dget k h.
Proof using Type.
  revert h. induction l as [|a l IH]; intros h Hk; [done|]. rewrite fmap_cons in Hk. apply not_elem_of_cons in Hk as [Hne Hk].
  cbn [foldl]. rewrite IH by done. by apply dget_dset_ne.
Qed.
Lemma set_headers_in kv h (l : list (literal * literal)) :
  NoDup ((λ kv, u kv.1) <$> l) → kv ∈ l → dget (u kv.1) (set_headers h l) = Some (u kv.2).
Proof using Type.
  revert h. induction l as [|a l IH]; intros h Hn Hin; [by apply not_elem_of_nil in Hin|].
  rewrite fmap_cons in Hn. apply NoDup_cons in Hn as [Hf Hn]. cbn [foldl]. apply elem_of_cons in Hin as [->|Hin]; [|by apply IH].
  rewrite set_headers_other by done. apply dget_dset_eq.
Qed.
Lemma harden_ok r : hardened (_harden_http_response r).
Proof using Type. intros kv Hkv. apply set_headers_in; [by apply (bool_decide_unpack _)|done]. Qed.

(** Where a request that passes the middleware goes. *)
Inductive served g cenv (r : request) (s : agent V) : agent V → response → Prop :=
| served_refused resp : hardened resp → served g cenv r s s resp
| served_route e body s' out :
    dispatch_request r body = Endpoint e → (reads_only r || has_header r "x-pipa-local-request" "1" = true) →
    (walled e = true → has_header r "x-pipa-local-confirmation" "1" = true) →
    run_endpoint g cenv r e s = (s', out) →
    served g cenv r s s' (match out with Ok o => _harden_http_response (respond o) | Raise _ => handle_unexpected_request end).

Lemma serve_served `{!FrameworkLaws F} g cenv r s : ∃ s' resp, serve g cenv r s = (s', Ok resp) ∧ served g cenv r s s' resp.
Proof using Type.
  unfold serve, protect_local_http, try_with.
  destruct (negb (reads_only r) && negb _) eqn:El.
  { eexists _, _. split; [done|]. apply served_refused, harden_ok. }
  destruct (one_of _ _ && walled_path _ && negb _) eqn:Ec.
  { eexists _, _. split; [done|]. apply served_refused, harden_ok. }
  destruct (length_refused r) as [resp|].
  { eexists _, _. split; [done|]. apply served_refused, harden_ok. }
  destruct (if reads_only r then _ else _) as [body|].
  2:{ eexists _, _. split; [done|]. apply served_refused, harden_ok. }
  unfold call_next. destruct (dispatch_request r body) as [e| |resp] eqn:Ed.
  - unfold mbind, M_bind. destruct (run_endpoint g cenv r e s) as [s' [o|x]] eqn:Er.
    + eexists _, _. split; [done|]. eapply (served_route g cenv r s e body s' (Ok o)); [done| | |done].
      * destruct (reads_only r); [done|]. by destruct (has_header _ _ _).
      * intros Hw. apply dispatch_route in Ed as [Hm Hp]. unfold walled in Hw. rewrite <- Hm, <- Hp in Hw. rewrite Hw in Ec.
        by apply negb_false_iff in Ec.
    + eexists _, _. split; [done|]. eapply (served_route g cenv r s e body s' (Raise x)); [done| | |done].
      * destruct (reads_only r); [done|]. by destruct (has_header _ _ _).
      * intros Hw. apply dispatch_route in Ed as [Hm Hp]. unfold walled in Hw. rewrite <- Hm, <- Hp in Hw. rewrite Hw in Ec.
        by apply negb_false_iff in Ec.
  - eexists _, _. split; [done|]. apply served_refused, harden_ok.
  - eexists _, _. split; [done|]. apply served_refused, harden_ok.
Qed.

(** A request, its answer and what happened meanwhile. *)
Lemma serve_spec `{!FrameworkLaws F} g cenv r s :
  ∃ s' resp new, serve g cenv r s = (s', Ok resp) ∧ hardened resp ∧
    events (desktop_of s') = new ++ events (desktop_of s) ∧
    (reads_only r = false → has_header r "x-pipa-local-request" "1" = false → s' = s) ∧
    (has_header r "x-pipa-local-confirmation" "1" = false → Forall (tool_event UNASKED) new) ∧
    (s' = s ∨ ∃ e body, dispatch_request r body = Endpoint e ∧ method r = u (route e).1 ∧ path r = (route e).2 ∧
       Forall (http_event (grants e)) new).
Proof using HT.
  destruct (serve_served g cenv r s) as (s' & resp & Hs & Hv). exists s', resp. destruct Hv as [resp Hh|e body s' out Hd Hl Hc Hr].
  - exists []. split_and!; try done. by left.
  - destruct (acts_run _ _ _ _ _ (endpoint_acts g cenv r e) Hr) as (new & Hn & Hf). exists new. split_and!; [done| |done| | |].
    + destruct out; apply harden_ok.
    + intros Hro Hlo. by rewrite Hro, Hlo in Hl.
    + intros Hno. destruct (outward e) eqn:Ho.
      * rewrite Hc in Hno; [done|]. by apply outward_walled.
      * eapply Forall_impl; [exact Hf|]. intros x. by apply inward_harmless.
    + right. apply dispatch_route in Hd as Hrt. exists e, body. by destruct Hrt.
Qed.

(** C4: the wall of the local server.  Every request is answered, with the
    security headers, whatever a route raises.  One that may change something
    and lacks the local header changes nothing at all; one that lacks the
    confirmation header at most reads, moves the volume within its range,
    presses a media key or waits; and any other does no more than the grants of
    its route: those of the tool it stands for, or, behind the control panel's
    paths, replacing the one configuration file it edits and the access token. *)
Theorem http_wall `{!FrameworkLaws F} g cenv r s :
  ∃ s' resp new, serve g cenv r s = (s', Ok resp) ∧ hardened resp ∧
    events (desktop_of s') = new ++ events (desktop_of s) ∧
    (reads_only r = false → has_header r "x-pipa-local-request" "1" = false → s' = s) ∧
    (has_header r "x-pipa-local-confirmation" "1" = false → Forall (tool_event UNASKED) new) ∧
    (s' = s ∨ ∃ e body, dispatch_request r body = Endpoint e ∧ method r = u (route e).1 ∧ path r = (route e).2 ∧
       Forall (http_event (grants e)) new).
Proof using HT. apply serve_spec. Qed.

(** The tool of a route is a tool of the catalog. *)
Definition policy_names : list pystr := u ∘ fst <$> CONFIRMATION_TOOL_PATHS.
Lemma policy_checked : forallb (λ d, Bool.eqb (unsafe d) (bool_decide (Tools.name d ∈ policy_names))) agent_tools = true.
Proof using Type. by vm_compute. Qed.
Definition catalog_names : list pystr := Tools.name <$> agent_tools.
Lemma tool_listed e t : tool_of e = Some t → bool_decide (u t ∈ catalog_names) = true.
Proof using Type. destruct e; intros [= <-]; by vm_compute. Qed.
Lemma policy_walled e t : tool_of e = Some t → bool_decide (u t ∈ policy_names) = true → walled e = true.
Proof using Type. destruct e; intros [= <-] H; first [by vm_compute in H|by vm_compute]. Qed.

(** C15: the policy table of the local server names exactly the tools that ask
    for a confirmation on the device, and every route stands for a tool of the
    catalog that, when it is one of those, is behind the confirmation header:
    what needs a tap on the device needs the header here. *)
Theorem policy_covers_tools :
  (∀ d, d ∈ agent_tools → unsafe d = true ↔ Tools.name d ∈ policy_names) ∧
  (∀ e t, tool_of e = Some t → ∃ d, d ∈ agent_tools ∧ Tools.name d = u t ∧ (unsafe d = true → walled e = true)).
Proof using Type.
  assert (∀ d, d ∈ agent_tools → unsafe d = true ↔ Tools.name d ∈ policy_names) as Hp.
  { intros d Hd%list_elem_of_In. pose proof (proj1 (forallb_forall _ _) policy_checked d Hd) as H. apply Bool.eqb_prop in H.
    rewrite H. apply bool_decide_eq_true. }
  split; [exact Hp|]. intros e t He. pose proof (tool_listed e t He) as Hl. apply bool_decide_eq_true in Hl.
  apply list_elem_of_fmap in Hl as (d & Hn & Hd). exists d. split_and!; [done|done|]. intros Hu.
  apply (policy_walled e t He). apply bool_decide_eq_true. rewrite Hn. by apply Hp.
Qed.
End Facts.

(** ** Samples *)

(** A framework that knows these calls. *)
Definition sample_framework (endpoints : list endpoint) : Framework := λ r _,
  match List.find (λ e, bool_decide (method r = u (route e).1) && bool_decide (path r = (route e).2) && request_model e) endpoints with
  | Some e => Endpoint e
  | None => Answered (detail 404 "Not Found")
  end.
#[export] Instance sample_framework_laws endpoints : FrameworkLaws (sample_framework endpoints).
Proof.
  assert (∀ r b e, dispatch_request (Framework := sample_framework endpoints) r b = Endpoint e →
    method r = u (route e).1 ∧ path r = (route e).2 ∧ request_model e = true) as H.
  { intros r b e. unfold dispatch_request, sample_framework. destruct (find _ endpoints) as [e'|] eqn:E; [|done]. intros [= ->].
    apply find_some in E as [_ E]. rewrite !andb_true_iff, !bool_decide_eq_true in E. tauto. }
  split; intros r b e He; by destruct (H r b e He) as (? & ? & ?).
Qed.

Section Samples.
Local Instance sample_categories : UnicodeCategories := plain_categories.
Local Instance sample_urls : UrlData := plain_urls.
Local Instance sample_text : UnicodeText := PyText.ascii_text.
Local Instance sample_world : Machine := agent_machine.

Definition sample_agent_state : agent (verifier_state bool) := mkAgent (new_core start paired_state) None.
Definition no_gateways : gateways := mkGateways false false false (u "v1"%string) (u "disabled"%string) false false.
Definition with_headers (l : list (literal * literal)) : pystr → option pystr :=
  λ n, u ∘ snd <$> List.find (λ kv, bool_decide (u kv.1 = n)) l.
Definition posted (p : literal) (l : list (literal * literal)) : request := mkRequest (u "POST"%string) (u p) (with_headers l) NoReader.
Abbreviation sample_serve e := (serve (F := sample_framework [e]) (I := verifier_interface 5) no_gateways (sample_challenge_env 1 1000)).

Definition bare_lock : request := posted "/system/lock"%string [("x-pipa-local-request", "1")]%string.
Definition confirmed_lock : request :=
  posted "/system/lock"%string [("x-pipa-local-request", "1"); ("x-pipa-local-confirmation", "1")]%string.

(** Without the confirmation the station is not locked; with it, it is. *)
Lemma http_wall_witness :
  events (desktop_of (sample_serve SystemLock bare_lock sample_agent_state).1) = [] ∧
  events (desktop_of (sample_serve SystemLock confirmed_lock sample_agent_state).1) = [Event LockStation] ∧
  ∃ s' resp new, sample_serve SystemLock bare_lock sample_agent_state = (s', Ok resp) ∧ hardened resp ∧
    events (desktop_of s') = new ++ events (desktop_of sample_agent_state) ∧
    (reads_only bare_lock = false → has_header bare_lock "x-pipa-local-request"%string "1"%string = false → s' = sample_agent_state) ∧
    (has_header bare_lock "x-pipa-local-confirmation"%string "1"%string = false → Forall (tool_event UNASKED) new) ∧
    (s' = sample_agent_state ∨ ∃ e body, dispatch_request (Framework := sample_framework [SystemLock]) bare_lock body = Endpoint e ∧
       method bare_lock = u (route e).1 ∧ path bare_lock = (route e).2 ∧ Forall (http_event (grants e)) new).
Proof.
  split; [by vm_compute|]. split; [by vm_compute|].
  apply (http_wall (HT := PyText.ascii_text_laws) (F := sample_framework [SystemLock]) (I := verifier_interface 5) no_gateways
    (sample_challenge_env 1 1000) bare_lock sample_agent_state).
Defined.

Lemma policy_covers_tools_witness :
  (∀ d, d ∈ agent_tools → unsafe d = true ↔ Tools.name d ∈ policy_names) ∧
  (∀ e t, tool_of e = Some t → ∃ d, d ∈ agent_tools ∧ Tools.name d = u t ∧ (unsafe d = true → walled e = true)).
Proof. exact policy_covers_tools. Defined.

(** What the middleware refuses by itself. *)
Example refused_requests :
  let status r := match (sample_serve SystemLock r sample_agent_state).2 with Ok resp => status_code resp | Raise _ => 0 end in
  status (posted "/system/lock"%string []) = 403 ∧ status bare_lock = 403 ∧ status confirmed_lock = 200 ∧
  status (posted "/nowhere"%string [("x-pipa-local-request", "1")]%string) = 404 ∧
  status (posted "/nowhere"%string [("x-pipa-local-request", "1"); ("content-length", "16385")]%string) = 413 ∧
  status (posted "/nowhere"%string [("x-pipa-local-request", "1"); ("content-length", "x")]%string) = 400.
Proof. by vm_compute. Qed.
End Samples.
