(* ===== verification/ControlPanel.v ===== *)
(** * What the control panel's edits of the applications do

    The [/control/processes] routes of [windows-agent/main.py] load the
    allowlist, replace or remove one entry and save it.  The edit touches that
    entry only, a later load finds exactly the edited table, and a refusal
    leaves the file as it was. *)
From S2P Require Import Prelude Dict Value Effects TextPolicy PyText Json JsonParse JsonRoundtrip JsonIndent Protocol Timers Sessions.
From S2P Require Import Confirmations Tools Challenge Core CoreFacts Gate Urls Machine Apps Contacts ControlConfig League Desktop.
From S2P Require Import IntegrationCatalog AgentCatalog AgentFacts AgentCore HttpApi HttpFacts.

Section Panel.
Context `{T : UnicodeText} {HT : UnicodeTextLaws T} `{D : UrlData} `{C : UnicodeCategories} `{W : Machine}.
Context {V : Type} `{I : VerifierI V}.
Implicit Types s : agent V.

(** A run of the tools behind a route. *)
Lemma panel_reply_run (m : M desktop object) s w' r :
  m (desktop_of s) = (w', r) → ∃ s', reply m s = (s', match r with Ok o => Ok (Reply o) | Raise e => Raise e end) ∧ desktop_of s' = w'.
Proof using Type.
  intros Hm. unfold reply, on_desktop, HttpApi.on_core, on_router, on_world, zoom, mbind, M_bind.
  change (world (router (pipa_core s))) with (desktop_of s). rewrite Hm. destruct r; by eexists.
Qed.
Lemma or_error_run es status text (m : M (agent V) outcome) s s' r :
  m s = (s', r) → or_error es status text m s =
    (s', match r with Ok o => Ok o | Raise e => if caught e es then Ok (HttpError status text) else Raise e end).
Proof using Type. intros Hm. unfold or_error, except. rewrite Hm. destruct r as [o|e]; [done|]. by destruct (caught e es). Qed.

(** Reading leaves the stored files alone. *)
Lemma passive_stored {A} f (m : M desktop A) w w' r : does passive m → m w = (w', r) → stored f (events w') = stored f (events w).
Proof using Type.
  intros Hd Hr. destruct (does_run _ _ w Hd) as (new & Hn & Hf). rewrite Hr in Hn. cbn [fst] in Hn. rewrite Hn. apply reads_stored.
  eapply Forall_impl; [exact Hf|]. intros [A' o] Ho. by destruct o.
Qed.

Lemma validated_dwf v t : validate_apps_config v = Ok t → dwf t.
Proof using Type. by intros (d & seen & _ & _ & Hwf & _)%validate_apps_ok. Qed.

(** ** The edited table *)

Definition new_entry (q : ProcessControlRequest) : app_entry :=
  mkApp (process_aliases q) (launcher q :: arguments q) (process_enabled q).
Definition replaced (q : ProcessControlRequest) (before : app_table) : option pystr := original_id q ≫= _matching_app_id before.

Lemma edited_apps_exact q before after :
  dwf before → edited_apps q before = Ok after →
  dwf after ∧ dget (process_id q) after = Some (new_entry q) ∧
  ∀ id, id ≠ process_id q → dget id after = if bool_decide (replaced q before = Some id) then None else dget id before.
Proof using Type.
  intros Hwf. unfold edited_apps, replaced. fold (new_entry q). destruct (original_id q) as [o|]; cbn [mbind option_bind].
  - destruct (_matching_app_id before o) as [e|] eqn:Ee; [|done]. destruct (match _ with Some _ => _ | None => _ end); [done|].
    intros [= <-]. split_and!; [by apply dset_wf, ddel_wf|apply dget_dset_eq|]. intros id Hid. rewrite dget_dset_ne by done.
    case_bool_decide as He; [injection He as ->; by rewrite dget_ddel_eq|]. rewrite dget_ddel_ne; [done|congruence].
  - destruct (present _); [done|]. intros [= <-]. split_and!; [by apply dset_wf|apply dget_dset_eq|].
    intros id Hid. rewrite dget_dset_ne by done. by rewrite bool_decide_false.
Qed.

Lemma plain_apps_dset id a t : code_points id → plain (app_value a) → dwf t → plain (apps_value t) → plain (apps_value (dset id a t)).
Proof using Type.
  intros Hi Ha Hwf [_ Ht]%plain_dict. apply plain_dict_intro.
  - unfold dwf. rewrite <- list_fmap_compose. by apply (dset_wf id a) in Hwf.
  - rewrite Forall_fmap in Ht |- *. apply Forall_forall. intros [k b] [[-> ->]|Hin]%dset_elem; [done|].
    rewrite Forall_forall in Ht. by apply (Ht _ Hin).
Qed.
Lemma plain_apps_ddel id t : dwf t → plain (apps_value t) → plain (apps_value (ddel id t)).
Proof using Type.
  intros Hwf [_ Ht]%plain_dict. apply plain_dict_intro.
  - unfold dwf. rewrite <- list_fmap_compose. by apply (ddel_wf id) in Hwf.
  - rewrite Forall_fmap in Ht |- *. apply Forall_forall. intros kb [_ Hin]%list_elem_of_filter.
    rewrite Forall_forall in Ht. by apply (Ht _ Hin).
Qed.

(** The texts of a request are texts. *)
Definition request_texts (q : ProcessControlRequest) : Prop :=
  code_points (process_id q) ∧ Forall code_points (process_aliases q) ∧ Forall code_points (launcher q :: arguments q).

Lemma plain_entry q : request_texts q → plain (app_value (new_entry q)).
Proof using Type.
  intros (_ & Ha & Hc). assert (∀ l, Forall code_points l → plain (VList (VStr <$> l))) as Hl.
  { intros l Hl. apply plain_list_intro. by rewrite Forall_fmap. }
  unfold app_value. apply plain_dict_intro; [by apply (bool_decide_unpack _)|].
  apply Forall_cons. split; [split; [by apply (bool_decide_unpack _)|by apply Hl]|].
  apply Forall_cons. split; [split; [by apply (bool_decide_unpack _)|by apply Hl]|].
  apply Forall_singleton. split; [by apply (bool_decide_unpack _)|done].
Qed.
Lemma plain_edited q before after :
  request_texts q → dwf before → plain (apps_value before) → edited_apps q before = Ok after → plain (apps_value after).
Proof using Type.
  intros Hq Hwf Hp. unfold edited_apps. fold (new_entry q).
  assert (∀ t, dwf t → plain (apps_value t) → plain (apps_value (dset (process_id q) (new_entry q) t))) as Hset.
  { intros t Ht Hpt. apply plain_apps_dset; [apply Hq|by apply plain_entry|done|done]. }
  destruct (original_id q) as [o|].
  - destruct (_matching_app_id before o) as [e|]; [|done]. destruct (match _ with Some _ => _ | None => _ end); [done|].
    intros [= <-]. by apply Hset; [apply ddel_wf|apply plain_apps_ddel].
  - destruct (present _); [done|]. intros [= <-]. by apply Hset.
Qed.

(** ** Saving a process *)

Lemma collect_elem {A B} (f : A → M desktop B) l w w' out :
  Effects.collect f l w = (w', Ok out) → ∀ y, y ∈ out → ∃ x w1 w2, x ∈ l ∧ f x w1 = (w2, Ok y).
Proof using Type.
  revert w out. induction l as [|x l IH]; intros w out; cbn [Effects.collect]; [intros [= _ <-] y Hy; by apply not_elem_of_nil in Hy|].
  unfold mbind at 1, M_bind at 1. destruct (f x w) as [w1 [b|]] eqn:Ef; [|done].
  unfold mbind at 1, M_bind at 1. destruct (Effects.collect f l w1) as [w2 [bs|]] eqn:Ec; [|done].
  intros [= -> <-] y [->|Hy]%elem_of_cons; [exists x, w, w1; split; [by left|done]|].
  destruct (IH _ _ Ec y Hy) as (x' & v1 & v2 & Hx & Hf). exists x', v1, v2. split; [by right|done].
Qed.

(** The entry of the panel's list with this identifier is the table's. *)
Lemma listed_process (id : pystr) apps w w' ps p :
  dwf apps → Effects.collect (λ kv, process_object kv.1 kv.2) (merge_sort by_folded_id apps) w = (w', Ok ps) →
  List.find (λ item, eq_str (get (u "id") item) id) ps = Some p →
  ∃ a resolved, dget id apps = Some a ∧ Apps.command a ≠ [] ∧
    p = [(u "id", VStr id); (u "aliases", str_list (Apps.aliases a)); (u "launcher", VStr (default [] (head (Apps.command a))));
         (u "arguments", str_list (tail (Apps.command a))); (u "enabled", VBool (Apps.enabled a)); (u "launcher_resolved", VBool resolved)].
Proof using Type.
  intros Hwf Hc Hf. apply find_some in Hf as [Hp Hid]. apply list_elem_of_In in Hp.
  destruct (collect_elem _ _ _ _ _ Hc p Hp) as ([k a] & w1 & w2 & Hin & Hrun). cbn [fst snd] in Hrun.
  rewrite merge_sort_Permutation in Hin. unfold process_object in Hrun. destruct (Apps.command a) as [|l args] eqn:Ec; [done|].
  unfold mbind, M_bind in Hrun. destruct (launcher_resolved l w1) as [w3 [b|]]; [|done]. injection Hrun as _ <-.
  change (eq_str (get (u "id") _) id) with (bool_decide (k = id)) in Hid. apply bool_decide_eq_true in Hid as ->.
  exists a, b. rewrite Ec. split_and!; [by apply elem_dget|done|done].
Qed.

(** The list has an entry for every application. *)
Lemma resolution_returns `{!LookupLaws W} l w : ∃ w' b, launcher_resolved l w = (w', Ok b).
Proof using Type.
  unfold launcher_resolved, resolve_launcher. destruct (_ || _); [by eexists _, _|].
  unfold mbind, M_bind, call, mret, M_ret. pose proof (which_returns (events w) l) as Hw.
  destruct (answer _ _) as [[r|]|]; [..|done]; [destruct (_uses_shell_launcher [r])|]; by eexists _, _.
Qed.
Lemma processes_listed `{!LookupLaws W} apps : Forall (λ kv, Apps.command kv.2 ≠ []) apps → ∀ w,
  ∃ w' ps, Effects.collect (λ kv, process_object kv.1 kv.2) apps w = (w', Ok ps) ∧
    Forall2 (λ kv p, eq_str (get (u "id") p) kv.1 = true) apps ps.
Proof using Type.
  induction 1 as [|[id a] apps Ha _ IH]; intros w; [by exists w, []|]. cbn [Effects.collect fst snd] in *.
  assert (∃ w1 p, process_object id a w = (w1, Ok p) ∧ eq_str (get (u "id") p) id = true) as (w1 & p & Hp & Hid).
  { unfold process_object. destruct (Apps.command a) as [|l arguments]; [done|]. destruct (resolution_returns l w) as (w1 & b & Hb).
    erewrite bind_ok by exact Hb. eexists _, _. split; [done|]. by apply bool_decide_eq_true. }
  destruct (IH w1) as (w2 & ps & Hps & Hf). exists w2, (p :: ps). split; [|by constructor].
  erewrite bind_ok by exact Hp. by erewrite bind_ok by exact Hps.
Qed.
Lemma find_listed (id : pystr) (a : app_entry) apps ps :
  (id, a) ∈ apps → Forall2 (λ (kv : pystr * app_entry) p, eq_str (get (u "id") p) kv.1 = true) apps ps →
  is_Some (List.find (λ item, eq_str (get (u "id") item) id) ps).
Proof using Type.
  intros Hin Hf. induction Hf as [|kv p apps ps Hp _ IH]; [by apply not_elem_of_nil in Hin|]. cbn [List.find].
  apply elem_of_cons in Hin as [<-|Hin]; [cbn [fst] in Hp; by rewrite Hp|]. destruct (eq_str _ id); [done|by apply IH].
Qed.

Definition process_reply (q : ProcessControlRequest) (resolved : bool) : outcome :=
  Reply (success [(u "process", VDict [
    (u "id", VStr (process_id q)); (u "aliases", str_list (process_aliases q)); (u "launcher", VStr (launcher q));
    (u "arguments", str_list (arguments q)); (u "enabled", VBool (process_enabled q)); (u "launcher_resolved", VBool resolved)])]).

(** A load finds this table for as long as the file is not replaced. *)
Definition lists (w : desktop) (t : app_table) : Prop :=
  ∀ w1, stored AppsLocal (events w1) = stored AppsLocal (events w) → (load_apps true w1).2 = Ok t.

Lemma save_process_exact `{!FileLaws W, !LookupLaws W} q w w' r :
  request_texts q → (∀ before, (load_apps true w).2 = Ok before → plain (apps_value before)) →
  save_process q w = (w', r) →
  (∃ before after resolved o, (load_apps true w).2 = Ok before ∧ dwf before ∧ edited_apps q before = Ok after ∧ lists w' after ∧
     r = Ok o ∧ Reply o = process_reply q resolved) ∨
  (stored AppsLocal (events w') = stored AppsLocal (events w) ∧ is_ok r = false).
Proof using Type.
  intros Hq Hplain. unfold save_process. unfold mbind at 1, M_bind at 1.
  destruct (load_apps true w) as [w1 [before|e]] eqn:El.
  2:{ intros [= <- <-]. right. split; [|done]. by eapply passive_stored; [apply (apps_read true)|]. }
  pose proof (passive_stored AppsLocal _ _ _ _ (apps_read true) El) as Hs1.
  pose proof El as Hwf. apply load_apps_valid in Hwf as (v0 & Hwf%validated_dwf).
  unfold mbind at 1, M_bind at 1, lift at 1. destruct (edited_apps q before) as [after|e] eqn:Ee.
  2:{ intros [= <- <-]. by right. }
  unfold mbind at 1, M_bind at 1. destruct (save_apps (apps_value after) w1) as [w2 r2] eqn:Es.
  apply save_apps_exact in Es; [|by eapply plain_edited, Ee; [|done|apply Hplain]].
  destruct r2 as [t|e].
  2:{ intros [= <- <-]. right. split; [|done]. congruence. }
  destruct Es as [Ht%apps_value_same Hload]. subst t. intros Hrun. left.
  destruct (edited_apps_exact q before after Hwf Ee) as (Hwf' & Hget & _).
  pose proof (Hload w2 eq_refl) as Hl2. destruct (load_apps true w2) as [w3 r3] eqn:El2. cbn [snd] in Hl2. subst r3.
  destruct (processes_listed (merge_sort by_folded_id after)) with (w := w3) as (w4 & ps & Hps & Hf).
  { pose proof El2 as (v & Hv)%load_apps_valid. apply validate_apps_ok in Hv as (d & seen & _ & _ & _ & _ & _ & Hok).
    rewrite merge_sort_Permutation. eapply Forall_impl; [exact Hok|]. intros kv [_ [_ Hc _]] H0. by rewrite H0 in Hc. }
  assert (_control_processes w2 = (w4, Ok ps)) as Ep by (unfold _control_processes; by erewrite bind_ok by exact El2).
  erewrite bind_ok in Hrun by exact Ep.
  destruct (find_listed (process_id q) (new_entry q) (merge_sort by_folded_id after) ps) as [p Hfind].
  { rewrite merge_sort_Permutation. by apply dget_elem. }
  { exact Hf. }
  rewrite Hfind in Hrun. injection Hrun as <- <-.
  destruct (listed_process _ _ _ _ _ _ Hwf' Hps Hfind) as (a & b & Ha & _ & ->). rewrite Hget in Ha. injection Ha as <-.
  exists before, after, b. eexists. split_and!; try done.
  pose proof (passive_stored AppsLocal _ _ _ _ processes_read Ep) as Hs3. intros w5 Hw5. apply Hload. congruence.
Qed.

(** C40: saving a process in the panel edits that entry and no other, once and
    for all, and the answer says whether it did.  Either the route replies with
    the entry it was given, and the applications a later load finds are those
    before, without the entry the request renames and with that one; or the
    route does not succeed and the file is as it was.  The texts of the request
    and of the stored applications are made of code points. *)
Theorem process_edit_exact `{!FileLaws W, !LookupLaws W} q s s' out :
  request_texts q → (∀ before, (load_apps true (desktop_of s)).2 = Ok before → plain (apps_value before)) →
  api_control_save_process q s = (s', out) →
  (∃ before after resolved, out = Ok (process_reply q resolved) ∧
     (load_apps true (desktop_of s)).2 = Ok before ∧ lists (desktop_of s') after ∧
     dget (process_id q) after = Some (new_entry q) ∧
     (∀ id, id ≠ process_id q → dget id after = if bool_decide (replaced q before = Some id) then None else dget id before)) ∨
  (stored AppsLocal (events (desktop_of s')) = stored AppsLocal (events (desktop_of s)) ∧ ∀ o, out ≠ Ok (Reply o)).
Proof using Type.
  intros Hq Hplain. unfold api_control_save_process.
  destruct (save_process q (desktop_of s)) as [w' r] eqn:Er. destruct (panel_reply_run _ _ _ _ Er) as (s1 & Hr & Hd).
  rewrite (or_error_run _ _ _ _ _ _ _ Hr). intros [= <- <-]. rewrite Hd.
  apply save_process_exact in Er as [(before & after & resolved & o & Hb & Hwf & He & Hl & -> & Ho)|[Hs Hn]]; [..|done|done].
  - left. exists before, after, resolved. destruct (edited_apps_exact q before after Hwf He) as (_ & Hg & Hother).
    split_and!; try done. by rewrite Ho.
  - right. split; [done|]. intros o. destruct r as [o'|e]; [done|]. by repeat case_match.
Qed.
End Panel.

(** ** Samples *)

Section Samples.
Local Instance sample_categories : UnicodeCategories := plain_categories.
Local Instance sample_urls : UrlData := plain_urls.
Local Instance sample_text : UnicodeText := PyText.ascii_text.
Local Instance sample_world : Machine := agent_machine.

(** The calculator gets another name and another launcher. *)
Definition rename_request : ProcessControlRequest :=
  mkProcessRequest (u "calc"%string) (Some (u "Calculator"%string)) [u "calculadora"%string] (u "gcalc.exe"%string) [] true.
Definition sample_run : agent (verifier_state bool) * result outcome := api_control_save_process rename_request sample_agent_state.

Lemma process_edit_exact_witness :
  is_ok sample_run.2 = true ∧
  ((∃ before after resolved, sample_run.2 = Ok (process_reply rename_request resolved) ∧
     (load_apps true (desktop_of sample_agent_state)).2 = Ok before ∧ lists (desktop_of sample_run.1) after ∧
     dget (process_id rename_request) after = Some (new_entry rename_request) ∧
     (∀ id, id ≠ process_id rename_request →
        dget id after = if bool_decide (replaced rename_request before = Some id) then None else dget id before)) ∨
   (stored AppsLocal (events (desktop_of sample_run.1)) = stored AppsLocal (events (desktop_of sample_agent_state)) ∧
      ∀ o, sample_run.2 ≠ Ok (Reply o))).
Proof.
  split; [by vm_compute|]. apply (process_edit_exact rename_request sample_agent_state).
  - split_and!; unfold code_points; by apply (bool_decide_unpack _).
  - intros before Hb. vm_compute in Hb. injection Hb as <-. apply is_plain_ok. by vm_compute.
  - apply surjective_pairing.
Defined.

(** The panel lists the edited table, and a second entry of the same name is refused. *)
Example panel_renames :
  (load_apps true (desktop_of sample_run.1)).2 =
    Ok [(u "codex"%string, mkApp [u "Codex"%string] [u "codex"%string; u "--new"%string] true); (u "calc"%string, new_entry rename_request)] ∧
  (api_control_save_process (mkProcessRequest (u "CODEX"%string) None [] (u "x"%string) [] true) sample_agent_state).2
    = Ok (HttpError 400 "No se pudo guardar ese proceso."%string).
Proof. by vm_compute. Qed.

(** The WhatsApp panel saves the settings before it looks at the token: with a
    token that is too short the answer is that nothing could be saved, and
    messages are sent automatically from then on all the same. *)
Definition short_token_request : WhatsAppControlRequest :=
  mkWhatsAppRequest true (u "123456789"%string) (u "v23.0"%string) (Some (u "short"%string)) false.
Example partial_whatsapp_update :
  let run := api_control_update_whatsapp short_token_request sample_agent_state in
  whatsapp_request_ok short_token_request = true ∧
  run.2 = Ok (HttpError 400 "No se pudo guardar la automatización de WhatsApp."%string) ∧
  (get_whatsapp_settings (desktop_of sample_agent_state)).2 = Ok (mkWhatsapp (u "manual"%string) [] (u "v23.0"%string)) ∧
  (get_whatsapp_settings (desktop_of run.1)).2 = Ok (mkWhatsapp (u "cloud_api"%string) (u "123456789"%string) (u "v23.0"%string)).
Proof. by vm_compute. Qed.
End Samples.
