(* ===== verification/Cli.v ===== *)
(** * The command-line client: [windows-agent/pipa_cli.py]

    The commands that make one request to the local agent, the gate in front of
    those with an effect, and the two that only explain a phrase.  The state is
    what the client's own process reaches and the requests it has sent; the
    agent's answers are an argument.  The theorems: every command makes the
    request of the route it is for, those of the wall exactly when it is
    confirmed, so that without [--confirm] no command has an effect through
    the agent. *)
From S2P Require Import Prelude Dict Value Effects TextPolicy PyText Json JsonParse Protocol Timers Sessions Confirmations Tools.
From S2P Require Import Challenge PyStr Core CoreFacts Gate Intents PipaParser Urls Machine Apps Contacts ControlConfig League Desktop.
From S2P Require Import IntegrationCatalog AgentCatalog AgentFacts AgentCore HttpApi HttpFacts.

(** [tools/security_policy.py] *)
Definition CLI_CONFIRMATION_COMMANDS : list literal := [
  "open-app"; "codex-open"; "web-search"; "open-url"; "music-open"; "music-search"; "whatsapp-open"; "whatsapp-compose";
  "whatsapp-contact"; "whatsapp-contact-open"; "whatsapp-phone-open"; "discord-open"; "discord-channel";
  "discord-call-channel"; "discord-contact"; "discord-call"; "league-open"; "league-search"; "league-cancel"; "lock"]%string.

(** The parsed arguments of a command, by its sub-parser; those of the reports
    ([doctor], [readiness] and the self-tests) are left out. *)
Inductive arguments :=
| AStatus | ACapabilities | AIntegrationStatus | ACommands | ASelfTest | AProtocol | ASystemStatus
| AIntent (text : list pystr) | APreview (text : list pystr)
| AOpenApp (app : pystr) | ACodexOpen | AWebSearch (query : list pystr) | AOpenUrl (url : pystr) | AMusicOpen
| AMusicSearch (term : list pystr) | AWhatsAppOpen | AWhatsAppCompose (phone : pystr) (message : list pystr)
| AWhatsAppContact (contact : pystr) (message : list pystr) | AWhatsAppContactOpen (contact : pystr)
| AWhatsAppPhoneOpen (phone : pystr) | ADiscordOpen | ADiscordChannel (channel_id : pystr) (guild_id : option pystr)
| ADiscordCallChannel (channel_id : pystr) (guild_id : option pystr) | ADiscordContact (contact : pystr)
| ADiscordCall (contact : pystr) | ALeagueOpen | ALeagueStatus | ALeagueSearchStatus | ALeagueSearch (queue : pystr)
| ALeagueWait (seconds : Z) | ALeagueCancel | AAudioVolume (percent : option Z) | AAudioMute | AAudioUnmute
| APowerStatus | ANetworkStatus | AMediaAction (action : pystr) | AMusicPlay | AMusicNext | AMusicPrevious | AMusicStop
| ATimerList | ATimerCreate (seconds : Z) (label : list pystr) | ATimerCancel (timer_id : pystr) | ALock.

(** [arguments.command] *)
Definition command (a : arguments) : literal :=
  match a with
  | AStatus => "status" | ACapabilities => "capabilities" | AIntegrationStatus => "integration-status" | ACommands => "commands"
  | ASelfTest => "self-test" | AProtocol => "protocol" | ASystemStatus => "system-status" | AIntent _ => "intent"
  | APreview _ => "preview" | AOpenApp _ => "open-app" | ACodexOpen => "codex-open" | AWebSearch _ => "web-search"
  | AOpenUrl _ => "open-url" | AMusicOpen => "music-open" | AMusicSearch _ => "music-search" | AWhatsAppOpen => "whatsapp-open"
  | AWhatsAppCompose _ _ => "whatsapp-compose" | AWhatsAppContact _ _ => "whatsapp-contact"
  | AWhatsAppContactOpen _ => "whatsapp-contact-open" | AWhatsAppPhoneOpen _ => "whatsapp-phone-open"
  | ADiscordOpen => "discord-open" | ADiscordChannel _ _ => "discord-channel" | ADiscordCallChannel _ _ => "discord-call-channel"
  | ADiscordContact _ => "discord-contact" | ADiscordCall _ => "discord-call" | ALeagueOpen => "league-open"
  | ALeagueStatus => "league-status" | ALeagueSearchStatus => "league-search-status" | ALeagueSearch _ => "league-search"
  | ALeagueWait _ => "league-wait" | ALeagueCancel => "league-cancel" | AAudioVolume _ => "audio-volume"
  | AAudioMute => "audio-mute" | AAudioUnmute => "audio-unmute" | APowerStatus => "power-status"
  | ANetworkStatus => "network-status" | AMediaAction _ => "media-action" | AMusicPlay => "music-play" | AMusicNext => "music-next"
  | AMusicPrevious => "music-previous" | AMusicStop => "music-stop" | ATimerList => "timer-list"
  | ATimerCreate _ _ => "timer-create" | ATimerCancel _ => "timer-cancel" | ALock => "lock"
  end%string.
Definition gated (a : arguments) : bool := one_of (u (command a)) CLI_CONFIRMATION_COMMANDS.

(** ** The request of a command *)

(** A JSON body: its fields are strings and integers. *)
Inductive field := Text (s : pystr) | Number (z : Z).
Definition payload := list (literal * field).
Definition texts (l : list (literal * pystr)) : payload := (λ kv, (kv.1, Text kv.2)) <$> l.

(** [quote(text, safe='')] *)
Definition quote_strict_octet (b : Z) : pystr :=
  if always_safe b then [b] else [37; upper_hex (b / 16); upper_hex (b mod 16)].
Definition quote_strict (s : pystr) : result pystr :=
  match utf8_encode s with Some b => Ok (concat (quote_strict_octet <$> b)) | None => Raise UnicodeEncodeError end.

Definition channel_payload (channel_id : pystr) (guild_id : option pystr) : payload :=
  texts ([("channel_id", channel_id)]%string ++ match guild_id with Some g => [("guild_id"%string, g)] | None => [] end).

(** Method, path and body; [intent] and [preview] never get here. *)
Definition _route (a : arguments) : result (literal * pystr * option payload) :=
  let get p := Ok ("GET"%string, u p, None) in
  let post p l := Ok ("POST"%string, u p, Some (texts l)) in
  let media action := Ok ("POST"%string, u "/media/action", Some (texts [("action"%string, action)])) in
  match a with
  | AStatus => get "/status" | ACapabilities => get "/capabilities" | AIntegrationStatus => get "/integrations/status"
  | ACommands => get "/commands" | ASelfTest => get "/self-test" | AProtocol => get "/pipa/protocol"
  | ASystemStatus => get "/system/status"
  | AOpenApp app => post "/open-app" [("app", app)] | ACodexOpen => post "/codex/open" []
  | AWebSearch query => post "/web/search" [("query", join_words query)] | AOpenUrl url => post "/open-url" [("url", url)]
  | AMusicOpen => post "/music/open" [] | AMusicSearch term => post "/music/search" [("term", join_words term)]
  | AWhatsAppOpen => post "/whatsapp/open" []
  | AWhatsAppCompose phone message => post "/whatsapp/compose" [("phone", phone); ("message", join_words message)]
  | AWhatsAppContact contact message => post "/whatsapp/contact/compose" [("contact", contact); ("message", join_words message)]
  | AWhatsAppContactOpen contact => post "/whatsapp/contact/open" [("contact", contact)]
  | AWhatsAppPhoneOpen phone => post "/whatsapp/phone/open" [("phone", phone)]
  | ADiscordOpen => post "/discord/open" []
  | ADiscordChannel channel_id guild_id => Ok ("POST", u "/discord/channel/open", Some (channel_payload channel_id guild_id))
  | ADiscordCallChannel channel_id guild_id => Ok ("POST", u "/discord/channel/call", Some (channel_payload channel_id guild_id))
  | ADiscordContact contact => post "/discord/contact/open" [("contact", contact)]
  | ADiscordCall contact => post "/discord/contact/call" [("contact", contact)]
  | ALeagueOpen => post "/league/open" [] | ALeagueStatus => get "/league/status"
  | ALeagueSearchStatus => get "/league/search/status" | ALeagueSearch queue => post "/league/search" [("queue", queue)]
  | ALeagueWait seconds => Ok ("POST", u "/league/search/wait", Some [("seconds", Number seconds)])
  | ALeagueCancel => Ok ("DELETE", u "/league/search", None)
  | AAudioVolume None => get "/audio/volume"
  | AAudioVolume (Some percent) => Ok ("POST", u "/audio/volume", Some [("percent", Number percent)])
  | AAudioMute => post "/audio/mute" [] | AAudioUnmute => post "/audio/unmute" []
  | APowerStatus => get "/system/power" | ANetworkStatus => get "/system/network"
  | AMediaAction action => media action | AMusicPlay => media (u "play_pause") | AMusicNext => media (u "next")
  | AMusicPrevious => media (u "previous") | AMusicStop => media (u "stop")
  | ATimerList => get "/timers"
  | ATimerCreate seconds label => Ok ("POST", u "/timers", Some [("seconds", Number seconds); ("label", Text (join_words label))])
  | ATimerCancel timer_id =>
    timer_id ← reraise [ValueError] RuntimeError (validate_timer_id (VStr timer_id));
    quoted ← quote_strict timer_id;
    Ok ("DELETE", u "/timers/" ++ quoted, None)
  | ALock => post "/system/lock" []
  | AIntent _ | APreview _ => Raise RuntimeError
  end%string.

(** In seconds. *)
Definition _request_timeout (a : arguments) : Z :=
  if one_of (u (command a)) ["league-open"; "league-search"]%string then 40
  else match a with ALeagueWait seconds => Z.min 310 (Z.max 5 (seconds + 5)) | _ => 5 end.

(** [json.dumps(payload)] with its defaults: ASCII, and spaces after the
    separators. *)
Definition unicode_escape (c : Z) : pystr :=
  [92; 117; hex_digit (c / 4096); hex_digit (c / 256 mod 16); hex_digit (c / 16 mod 16); hex_digit (c mod 16)].
Definition escape_ascii (c : Z) : pystr :=
  if c <? 127 then escape_char c
  else if c <? 0x10000 then unicode_escape c
  else unicode_escape (0xD800 + (c - 0x10000) / 1024) ++ unicode_escape (0xDC00 + (c - 0x10000) mod 1024).
Definition dump_ascii (s : pystr) : pystr := [34] ++ concat (escape_ascii <$> s) ++ [34].
Definition dump_field (f : field) : result pystr := match f with Text s => Ok (dump_ascii s) | Number z => int_repr z end.
Definition dump_payload (p : payload) : result pystr :=
  items ← traverse (λ kv, v ← dump_field kv.2; Ok (dump_ascii (u kv.1) ++ u ": " ++ v)) p;
  Ok ([123] ++ JsonIndent.join_with (u ", ") items ++ [125]).

(** ** One run of the client *)

(** A request to the agent, and how [urlopen] ends: an HTTP error, no
    connection, no answer in time, or the bytes of the response. *)
Record http_request := mkHttp {
  rq_method : literal; rq_path : pystr; rq_headers : dict pystr pystr; rq_body : option pystr; rq_timeout : Z
}.
Inductive fetched := Rejected (code : Z) | Unreachable | TooSlow | Fetched (raw : bytes).

(** What the process prints, with its exit code. *)
Inductive printed := Printed (o : object) | Failed.
Definition exit_code (p : printed) : Z := match p with Printed _ => 0 | Failed => 1 end.

Section Client.
Context `{T : UnicodeText} {HT : UnicodeTextLaws T} `{D : UrlData} `{C : UnicodeCategories} `{W : Machine}.
(** The agent at the other end, given the requests it was sent before. *)
Context (agent_answers : list http_request → http_request → fetched).

Record client := mkClient { here : desktop; requests : list http_request }.
Definition on_here {A} (m : M desktop A) : M client A := zoom here (λ w s, mkClient w (requests s)) m.
Definition urlopen (q : http_request) : M client fetched :=
  gets (λ s, agent_answers (requests s) q) ≫= λ f, modify (λ s, mkClient (here s) (q :: requests s)) ≫= λ _, mret f.

Definition request_headers (method : literal) (path : pystr) (body : option pystr) : dict pystr pystr :=
  let outbound := one_of (u method) ["POST"; "DELETE"]%string in
  [(u "Accept", u "application/json")]
  ++ (match body with Some _ => [(u "Content-Type", u "application/json")] | None => [] end)
  ++ (if outbound then [(u "X-Pipa-Local-Request", u "1")] else [])
  ++ (if bool_decide (path ∈ LOCAL_CONFIRMATION_PATHS) && outbound then [(u "X-Pipa-Local-Confirmation", u "1")] else []).

(** [json.loads(raw.decode("utf-8"))], which must be an object. *)
Definition read_answer (raw : bytes) : result object :=
  v ← reraise [UnicodeDecodeError; JSONDecodeError] RuntimeError (loads_utf8 keep_last raw);
  match v with VDict d => Ok d | _ => Raise RuntimeError end.

Definition _request (method : literal) (path : pystr) (payload : option payload) (timeout : Z) : M client object :=
  lift (match payload with Some p => b ← dump_payload p; Ok (Some b) | None => Ok None end) ≫= λ body,
  urlopen (mkHttp method path (request_headers method path body) body timeout) ≫= λ answer,
  match answer with
  | Fetched raw => lift (read_answer (slice_to (64 * 1024) raw))
  | Rejected _ | Unreachable | TooSlow => raise RuntimeError
  end.

(** *** Explaining a phrase *)

Definition unrecognized : object :=
  [(u "recognized", VBool false); (u "message", VStr (u "La frase no tiene un comando compatible."))].
Definition _inspect_intent (text : pystr) : result object :=
  parsed ← Intents.parse_text_intent text;
  Ok match parsed with
     | None => unrecognized
     | Some p => [(u "recognized", VBool true); (u "tool_name", VStr (intent_tool p)); (u "arguments", VDict (intent_arguments p));
                  (u "side_effects", VBool false)]
     end.

(** [catalog.get(intent.tool_name)], as the agent wrote the tool. *)
Definition entry_named (n : pystr) : result agent_tool :=
  match List.find (λ t, bool_decide (entry_name t = n)) agent_entries with Some t => Ok t | None => Raise KeyError end.

(** The validator and the preparer of the tool. *)
Definition arguments_valid (t : agent_tool) (a : object) : M desktop bool :=
  except
    (run_validator t a ≫= λ _,
     match run_preparer t with Some prepare => prepare a ≫= λ _, mret true | None => mret true end)
    [KeyError; TypeError; ValueError] (mret false).
Definition described (entry : option object) : value :=
  match entry with
  | Some c => match get (u "description") c with VStr s => VStr s | _ => VStr (u "Herramienta local de Pipa.") end
  | None => VStr (u "Herramienta local de Pipa.")
  end.
Definition preview_message (t : agent_tool) (a : object) (valid : bool) : M desktop value :=
  if negb valid then mret (VStr (u "La frase se reconoce, pero sus argumentos o la configuración local todavía no están listos."))
  else match run_summary t with
       | Some summary =>
         if unsafe (registered t) then summary a else mret (VStr (u "La herramienta se ejecutaría sin confirmación adicional."))
       | None => mret (VStr (u "La herramienta se ejecutaría sin confirmación adicional."))
       end.

Definition _preview_intent (text : pystr) : M desktop object :=
  lift (Intents.parse_text_intent text) ≫= λ parsed,
  match parsed with
  | None => mret unrecognized
  | Some p =>
    lift (entry_named (intent_tool p)) ≫= λ t,
    arguments_valid t (intent_arguments p) ≫= λ valid,
    get_command_catalog ≫= λ commands,
    preview_message t (intent_arguments p) valid ≫= λ message,
    mret [(u "recognized", VBool true); (u "tool_name", VStr (intent_tool p)); (u "arguments", VDict (intent_arguments p));
          (u "arguments_valid", VBool valid); (u "safety", VStr (entry_safety t)); (u "requires_confirmation", VBool (unsafe (registered t)));
          (u "side_effects", VBool false); (u "message", message);
          (u "description", described (List.find (λ c, eq_str (get (u "tool_name") c) (intent_tool p)) commands))]
  end.

(** *** [main] *)

(** The one request of the other commands, past the gate. *)
Definition contact_agent (a : arguments) (confirm : bool) : M client object :=
  if gated a && negb confirm then raise RuntimeError
  else
    lift (_route a) ≫= λ '(method, path, payload),
    _request method path payload (_request_timeout a).

Definition main (a : arguments) (confirm : bool) : M client printed :=
  except
    (match a with
     | AIntent text => lift (_inspect_intent (join_words text))
     | APreview text => on_here (_preview_intent (join_words text))
     | _ => contact_agent a confirm
     end ≫= λ o, mret (Printed o))
    [RuntimeError; ValueError] (mret Failed).
End Client.

(** ** What the commands are for *)

(** The function of the server behind each command. *)
Definition endpoint_of (a : arguments) : option endpoint :=
  match a with
  | AStatus => Some Status | ACapabilities => Some Capabilities | AIntegrationStatus => Some IntegrationStatus
  | ACommands => Some Commands | AProtocol => Some PipaProtocol | ASystemStatus => Some SystemStatus
  | AOpenApp app => Some (OpenApp app) | ACodexOpen => Some CodexOpen | AWebSearch query => Some (WebSearch (join_words query))
  | AOpenUrl url => Some (OpenUrl url) | AMusicOpen => Some MusicOpen | AMusicSearch term => Some (MusicSearch (join_words term))
  | AWhatsAppOpen => Some WhatsAppOpen | AWhatsAppCompose phone message => Some (WhatsAppCompose phone (join_words message))
  | AWhatsAppContact contact message => Some (WhatsAppContactCompose contact (join_words message))
  | AWhatsAppContactOpen contact => Some (WhatsAppContactOpen contact) | AWhatsAppPhoneOpen phone => Some (WhatsAppPhoneOpen phone)
  | ADiscordOpen => Some DiscordOpen | ADiscordChannel channel_id guild_id => Some (DiscordChannelOpen channel_id guild_id)
  | ADiscordCallChannel channel_id guild_id => Some (DiscordChannelCall channel_id guild_id)
  | ADiscordContact contact => Some (DiscordContactOpen contact) | ADiscordCall contact => Some (DiscordContactCall contact)
  | ALeagueOpen => Some LeagueOpen | ALeagueStatus => Some LeagueStatus | ALeagueSearchStatus => Some LeagueSearchStatus
  | ALeagueSearch queue => Some (LeagueSearch queue) | ALeagueWait seconds => Some (LeagueWait seconds)
  | ALeagueCancel => Some LeagueCancel | AAudioVolume None => Some GetVolume
  | AAudioVolume (Some percent) => Some (SetVolume percent) | AAudioMute => Some Mute | AAudioUnmute => Some Unmute
  | APowerStatus => Some SystemPower | ANetworkStatus => Some SystemNetwork | AMediaAction action => Some (MediaAction action)
  | AMusicPlay => Some (MediaAction (u "play_pause")) | AMusicNext => Some (MediaAction (u "next"))
  | AMusicPrevious => Some (MediaAction (u "previous")) | AMusicStop => Some (MediaAction (u "stop"))
  | ATimerList => Some ListTimers | ATimerCreate seconds label => Some (CreateTimer seconds (join_words label))
  | ATimerCancel timer_id => Some (CancelTimer timer_id) | ALock => Some SystemLock
  | ASelfTest | AIntent _ | APreview _ => None
  end.

(** The fields of the request model of a function. *)
Definition model_fields (e : endpoint) : payload :=
  match e with
  | OpenApp app => texts [("app", app)] | OpenUrl url => texts [("url", url)] | WebSearch query => texts [("query", query)]
  | MusicSearch term => texts [("term", term)] | LeagueSearch queue => texts [("queue", queue)]
  | LeagueWait seconds => [("seconds", Number seconds)] | MediaAction action => texts [("action", action)]
  | CreateTimer seconds label => [("seconds", Number seconds); ("label", Text label)]
  | WhatsAppCompose phone message => texts [("phone", phone); ("message", message)]
  | WhatsAppPhoneOpen phone => texts [("phone", phone)]
  | WhatsAppContactCompose contact message => texts [("contact", contact); ("message", message)]
  | WhatsAppContactOpen contact | DiscordContactOpen contact | DiscordContactCall contact => texts [("contact", contact)]
  | DiscordChannelOpen channel_id guild_id | DiscordChannelCall channel_id guild_id => channel_payload channel_id guild_id
  | SetVolume percent => [("percent", Number percent)]
  | _ => []
  end%string.

Section Facts.
Context `{T : UnicodeText} {HT : UnicodeTextLaws T} `{D : UrlData} `{C : UnicodeCategories} `{W : Machine}.

(** Whether the device would ask before running the tool of a function. *)
Definition asks_on_device (e : endpoint) : bool :=
  match tool_of e with
  | Some t => existsb (λ d, unsafe d && bool_decide (Tools.name d = u t)) agent_tools
  | None => false
  end.

Lemma quote_word s : is_timer_id s = true → quote_strict s = Ok s.
Proof using Type.
  unfold is_timer_id, matches_class. intros Hs. apply andb_true_iff in Hs as [[Hs _]%andb_true_iff _].
  assert (Forall (λ c, word_char c = true) s) as Hw.
  { apply Forall_forall. intros c Hc. rewrite forallb_forall in Hs. by apply Hs, list_elem_of_In. }
  unfold quote_strict. rewrite utf8_encode_ascii.
  - f_equal. clear Hs. induction Hw as [|c s Hc _ IH]; [done|]. cbn. rewrite IH. unfold quote_strict_octet.
    enough (always_safe c = true) as -> by done. unfold word_char in Hc. unfold always_safe.
    apply orb_true_iff in Hc as [[->| ->]%orb_true_iff| ->]; by rewrite ?orb_true_r.
  - eapply Forall_impl; [exact Hw|]. intros c Hc. unfold word_char, ascii_alnum, ascii_alpha, ascii_upper, ascii_lower, ascii_digit, ascii in *. lia.
Qed.

Lemma route_served a m p pl :
  _route a = Ok (m, p, pl) → a ≠ ASelfTest →
  ∃ e, endpoint_of a = Some e ∧ (m, p) = route e ∧ default [] pl = model_fields e ∧
    gated a = walled e ∧ gated a = asks_on_device e.
Proof using Type.
  intros Hr Hne. destruct a; try done;
    try (injection Hr as <- <- <-; eexists; split_and!; [done|done|done|by vm_compute|by vm_compute]).
  - destruct percent; injection Hr as <- <- <-; eexists; split_and!; [done|done|done|by vm_compute|by vm_compute|done|done|done|by vm_compute|by vm_compute].
  - unfold _route in Hr. cbn [validate_timer_id] in Hr. destruct (is_timer_id timer_id) eqn:Et; [|done].
    cbn [reraise mbind result_bind] in Hr. rewrite quote_word in Hr by done. injection Hr as <- <- <-.
    eexists. split_and!; [done|done|done|by vm_compute|by vm_compute].
Qed.

(** ** What the client does by itself: it reads, and makes one request at most *)

Context (agent_answers : list http_request → http_request → fetched).
Abbreviation main := (main agent_answers).
Abbreviation contact_agent := (contact_agent agent_answers).

(** The catalog gives the entry of that name. *)
Lemma entry_registered n t : entry_named n = Ok t → t ∈ agent_entries ∧ get_tool n agent_catalog = Ok (registered t).
Proof using Type.
  unfold entry_named. destruct (List.find _ _) as [t'|] eqn:Ef; [|done]. intros [= ->].
  apply find_some in Ef as [Hin Hn]. apply list_elem_of_In in Hin. apply bool_decide_eq_true in Hn as <-. split; [done|].
  unfold get_tool. rewrite (elem_dget (entry_name t) (registered t)); [done| |].
  - unfold dwf, dkeys, agent_catalog, tool_table. rewrite <- list_fmap_compose. exact agent_names.
  - apply list_elem_of_fmap. exists (registered t). split; [done|]. by apply list_elem_of_fmap_2.
Qed.

Lemma preview_reads text : does passive (_preview_intent text).
Proof using HT.
  unfold _preview_intent. apply does_bind; [apply does_lift|]. intros [p|]; [|apply does_ret].
  eapply does_bind_value; [apply moves_lift; [apply _|]; intros t Ht; exact (proj1 (entry_registered _ _ Ht))|].
  intros t Hin. pose proof entries_consult_only as He. rewrite Forall_forall in He. specialize (He t Hin (intent_arguments p)).
  destruct He as (Hv & Hs & Hp). apply does_bind; [|intros valid; apply does_bind; [apply command_lists_read|intros commands]].
  - unfold arguments_valid. apply does_except; [|apply does_ret]. apply does_bind; [exact Hv|intros _].
    destruct (run_preparer t); [|apply does_ret]. apply does_bind; [by apply Hp|intros; apply does_ret].
  - apply does_bind; [|intros; apply does_ret]. unfold preview_message. destruct (negb valid); [apply does_ret|].
    destruct (run_summary t); [|apply does_ret]. destruct (unsafe _); [by apply Hs|apply does_ret].
Qed.

(** The request a command makes. *)
Definition request_of (a : arguments) (q : http_request) : Prop :=
  ∃ m p pl body, _route a = Ok (m, p, pl) ∧
    q = mkHttp m p (request_headers m p body) body (_request_timeout a) ∧
    match pl with Some l => ∃ b, dump_payload l = Ok b ∧ body = Some b | None => body = None end.

(** Nothing is sent, or the one request of a command that passed the gate. *)
Definition contacted (a : arguments) (confirm : bool) (s s' : client) : Prop :=
  here s' = here s ∧
  (requests s' = requests s ∨
   gated a && negb confirm = false ∧ ∃ q, request_of a q ∧ requests s' = q :: requests s).

Lemma contact_run a confirm s s' r : contact_agent a confirm s = (s', r) → contacted a confirm s s'.
Proof using Type.
  unfold Cli.contact_agent. destruct (gated a && negb confirm) eqn:Eg; [intros [= <- <-]; split; [done|by left]|].
  destruct (_route a) as [[[m p] pl]|e] eqn:Er; [|intros [= <- <-]; split; [done|by left]].
  erewrite bind_ok by done. unfold _request.
  destruct (match pl with Some l => b ← dump_payload l; Ok (Some b) | None => Ok None end) as [body|e] eqn:Eb.
  2:{ intros [= <- <-]. split; [done|by left]. }
  erewrite bind_ok by done. set (q := mkHttp m p (request_headers m p body) body (_request_timeout a)).
  intros Hrun. assert (s' = mkClient (here s) (q :: requests s)) as ->.
  { erewrite bind_ok in Hrun by done. destruct (agent_answers (requests s) q); cbn [raise lift] in Hrun; by apply (f_equal fst) in Hrun. }
  split; [done|]. right. split; [done|]. eexists. split; [|done]. exists m, p, pl, body. split_and!; [done|done|].
  destruct pl as [l|]; [|by injection Eb as <-]. destruct (dump_payload l) as [b|] eqn:Ed; [|done]. injection Eb as <-. by exists b.
Qed.

Lemma main_run a confirm s s' out :
  main a confirm s = (s', out) →
  ∃ old, events (here s') = old ++ events (here s) ∧ Forall passive old ∧
    (requests s' = requests s ∨
     gated a && negb confirm = false ∧ ∃ q, request_of a q ∧ requests s' = q :: requests s).
Proof using HT.
  assert (∀ (m : M client object) s1 r, m s = (s1, r) →
    except (m ≫= λ o, mret (Printed o)) [RuntimeError; ValueError] (mret Failed) s = (s', out) → s' = s1) as Hrest.
  { intros m s1 r Hm. unfold except, mbind, M_bind. rewrite Hm. destruct r as [o|e]; [by intros [= <- _]|].
    by destruct (caught e _); intros [= <- _]. }
  unfold Cli.main.
  assert (∀ m : M client object, (∃ s1 r, m s = (s1, r) ∧ contacted a confirm s s1) →
    except (m ≫= λ o, mret (Printed o)) [RuntimeError; ValueError] (mret Failed) s = (s', out) →
    ∃ old, events (here s') = old ++ events (here s) ∧ Forall passive old ∧
      (requests s' = requests s ∨ gated a && negb confirm = false ∧ ∃ q, request_of a q ∧ requests s' = q :: requests s)) as Hsent.
  { intros m (s1 & r & Hm & Hh & Hq) Hrun. rewrite (Hrest m s1 r Hm Hrun), Hh. by exists []. }
  pose proof (λ a, surjective_pairing (contact_agent a confirm s)) as Hpair.
  destruct a; try (apply Hsent; eexists _, _; split; [apply Hpair|by eapply contact_run, Hpair]).
  - apply Hsent. eexists _, _. split; [done|]. split; [done|by left].
  - intros Hrun. destruct (_preview_intent (join_words text) (here s)) as [w r] eqn:Ep.
    pose proof (zoom_run here (λ w s, mkClient w (requests s)) _ s w r Ep) as Hz. rewrite (Hrest _ _ _ Hz Hrun).
    destruct (does_run _ _ (here s) (preview_reads (join_words text))) as (old & Ho & Hp). rewrite Ep in Ho.
    exists old. by split_and!; [..|left].
Qed.

(** ** Against the server *)

Context `{F : Framework} {V : Type} `{I : VerifierI V}.

(** The request as the server sees it; the other headers of [urllib] are free. *)
Record arrives (q : http_request) (r : request) : Prop := {
  arrives_method : method r = u (rq_method q);
  arrives_path : path r = rq_path q;
  arrives_local : header r (u "x-pipa-local-request") = dget (u "X-Pipa-Local-Request") (rq_headers q);
  arrives_confirmed : header r (u "x-pipa-local-confirmation") = dget (u "X-Pipa-Local-Confirmation") (rq_headers q)
}.

(** The confirmation header goes with the gated commands. *)
Lemma gated_header a m p pl body :
  _route a = Ok (m, p, pl) →
  dget (u "X-Pipa-Local-Confirmation") (request_headers m p body) = if gated a then Some (u "1") else None.
Proof using Type.
  intros Hr. assert (bool_decide (p ∈ LOCAL_CONFIRMATION_PATHS) && one_of (u m) ["POST"; "DELETE"]%string = gated a) as Hg.
  { destruct a; try done; try (injection Hr as <- <- _; by vm_compute).
    - destruct percent; injection Hr as <- <- _; by vm_compute.
    - unfold _route in Hr. cbn [validate_timer_id] in Hr. destruct (is_timer_id timer_id) eqn:Et; [|done].
      cbn [reraise mbind result_bind] in Hr. rewrite quote_word in Hr by done. injection Hr as <- <- _. by vm_compute. }
  unfold request_headers. rewrite Hg. by destruct body, (one_of (u m) _), (gated a).
Qed.

(** A route of the server is that of the command's function, with its grants. *)
Lemma endpoint_grants a e e' :
  endpoint_of a = Some e → u (route e').1 = u (route e).1 → (route e').2 = (route e).2 → grants e' = grants e.
Proof using Type.
  intros He Hm Hp. destruct a; try match goal with o : option Z |- _ => destruct o end; try done; injection He as <-;
    destruct e'; first [exfalso; vm_compute in Hm; discriminate Hm|exfalso; vm_compute in Hp; discriminate Hp|reflexivity].
Qed.

(** C16: the client speaks the language of the server.  The request of a command
    is the route of the function it is for, with the fields of its request
    model; and the commands that need [--confirm] are those whose route is
    behind the confirmation header, which are those whose tool asks for a
    confirmation on the device. *)
Theorem cli_routes_served a m p pl :
  _route a = Ok (m, p, pl) → a ≠ ASelfTest →
  ∃ e, endpoint_of a = Some e ∧ (m, p) = route e ∧ default [] pl = model_fields e ∧
    gated a = walled e ∧ gated a = asks_on_device e.
Proof using Type. apply route_served. Qed.

(** C5: the gate of the client.  By itself a command only reads.  It makes one
    request at most, and none when it needs [--confirm] and has not got it; and
    whatever the state of the agent, the request of a command does no more
    there than the function it is for, and at most what a tool may do unasked
    unless the command was confirmed. *)
Theorem cli_gate `{!FrameworkLaws F} a confirm s s' out :
  main a confirm s = (s', out) →
  (∃ old, events (here s') = old ++ events (here s) ∧ Forall passive old) ∧
  (requests s' = requests s ∨
   gated a && negb confirm = false ∧ ∃ q, requests s' = q :: requests s ∧
   ∀ r g cenv (b : agent V), arrives q r →
     ∃ b' resp new, serve g cenv r b = (b', Ok resp) ∧ events (desktop_of b') = new ++ events (desktop_of b) ∧
       (gated a = false → Forall (tool_event UNASKED) new) ∧
       ∀ e, endpoint_of a = Some e → Forall (http_event (grants e)) new).
Proof using HT.
  intros Hrun. destruct (main_run _ _ _ _ _ Hrun) as (old & Ho & Hp & Hs). split; [by exists old|].
  destruct Hs as [Hs|(Hg & q & (m & p & pl & body & Hr & -> & _) & Hs)]; [by left|right].
  split; [done|]. eexists. split; [exact Hs|]. intros r g cenv b [Hm Hpath _ Hc].
  destruct (serve_spec g cenv r b) as (b' & resp & new & Hserve & _ & Hn & _ & Hun & Hwhat). exists b', resp, new.
  split_and!; [done|done| |].
  - intros Hga. apply Hun. unfold has_header. rewrite Hc. cbn [rq_headers].
    by rewrite (gated_header a m p pl body Hr), Hga.
  - intros e He. destruct Hwhat as [->|(e' & body' & _ & Hm' & Hp' & Hf)].
    { destruct new as [|x new]; [done|]. apply (f_equal length) in Hn. rewrite length_app in Hn. cbn in Hn. lia. }
    assert (a ≠ ASelfTest) as Hne by (by intros ->).
    destruct (route_served a m p pl Hr Hne) as (e0 & He0 & Hroute & _). rewrite He in He0. injection He0 as <-.
    rewrite <- (endpoint_grants a e e' He); [done| |].
    + rewrite <- Hm', Hm. cbn [rq_method]. by rewrite <- Hroute.
    + rewrite <- Hp', Hpath. cbn [rq_path]. by rewrite <- Hroute.
Qed.
End Facts.

(** ** Samples *)

Section Samples.
Local Instance sample_categories : UnicodeCategories := plain_categories.
Local Instance sample_urls : UrlData := plain_urls.
Local Instance sample_text : UnicodeText := PyText.ascii_text.
Local Instance sample_world : Machine := agent_machine.
Local Instance sample_locking : Framework := sample_framework [SystemLock].

(** An agent that says yes. *)
Definition agreeable (_ : list http_request) (_ : http_request) : fetched := Fetched (u "{}"%string).
Definition idle_client : client := mkClient start [].

Lemma cli_routes_served_witness :
  ∃ e, endpoint_of (ATimerCancel (u "abc_1"%string)) = Some e ∧ ("DELETE"%string, u "/timers/abc_1"%string) = route e ∧
    default [] None = model_fields e ∧ gated (ATimerCancel (u "abc_1"%string)) = walled e ∧
    gated (ATimerCancel (u "abc_1"%string)) = asks_on_device e.
Proof. apply (cli_routes_served (ATimerCancel (u "abc_1"%string)) "DELETE"%string (u "/timers/abc_1"%string) None); [by vm_compute|done]. Defined.

Lemma cli_gate_witness :
  (main agreeable ALock false idle_client).2 = Ok Failed ∧ (main agreeable ALock false idle_client).1 = idle_client ∧
  (main agreeable ALock true idle_client).2 = Ok (Printed []) ∧
  let s' := (main agreeable ALock true idle_client).1 in
  (∃ old, events (here s') = old ++ [] ∧ Forall passive old) ∧
  (requests s' = [] ∨
   gated ALock && negb true = false ∧ ∃ q, requests s' = [q] ∧
   ∀ r g cenv (b : agent (verifier_state bool)), arrives q r →
     ∃ b' resp new, serve (I := verifier_interface 5) g cenv r b = (b', Ok resp) ∧
       events (desktop_of b') = new ++ events (desktop_of b) ∧
       (gated ALock = false → Forall (tool_event UNASKED) new) ∧
       ∀ e, endpoint_of ALock = Some e → Forall (http_event (grants e)) new).
Proof.
  split; [by vm_compute|]. split; [by vm_compute|]. split; [by vm_compute|].
  apply (cli_gate (HT := PyText.ascii_text_laws) agreeable ALock true idle_client _ (main agreeable ALock true idle_client).2).
  apply surjective_pairing.
Defined.

(** What the client sends, and how it explains a phrase it would not run. *)
Example lock_request :
  requests (main agreeable ALock true idle_client).1 =
    [mkHttp "POST"%string (u "/system/lock"%string)
       [(u "Accept"%string, u "application/json"%string); (u "Content-Type"%string, u "application/json"%string);
        (u "X-Pipa-Local-Request"%string, u "1"%string); (u "X-Pipa-Local-Confirmation"%string, u "1"%string)]
       (Some (u "{}"%string)) 5].
Proof. by vm_compute. Qed.
Example preview_of_codex :
  match (main agreeable (APreview [u "abre"%string; u "codex"%string]) false idle_client).2 with
  | Ok (Printed o) => get (u "tool_name"%string) o = VStr (u "open_codex"%string) ∧ get (u "requires_confirmation"%string) o = VBool true
                      ∧ get (u "arguments_valid"%string) o = VBool true
  | _ => False
  end.
Proof. vm_compute. split_and!; reflexivity. Qed.
Example dumped_payload :
  dump_payload [("phone"%string, Text (u "+34"%string)); ("message"%string, Text [241; 0x1F600; 34]); ("seconds"%string, Number (-5))] =
    Ok (u "{" ++ [34] ++ u "phone" ++ [34] ++ u ": " ++ [34] ++ u "+34" ++ [34] ++ u ", " ++ [34] ++ u "message" ++ [34] ++ u ": "
        ++ [34] ++ u "\u00f1\ud83d\ude00\" ++ [34; 34] ++ u ", " ++ [34] ++ u "seconds" ++ [34] ++ u ": -5}")%string.
Proof. by vm_compute. Qed.
End Samples.
