(* ===== verification/Isolation.v ===== *)
(** * Sessions do not reach each other

    Whatever a session sends to [PipaCore.handle], the other sessions keep
    their state and their pending confirmations: only sessions that are idle
    and confirmations that have expired go. *)
From S2P Require Import Prelude Dict Value Effects TextPolicy Protocol Sessions.
From S2P Require Import Confirmations Memory Tools Challenge PyStr Captions Core CoreFacts Gate.

Section Isolation.
Context {W V : Type} `{I : VerifierI V} `{UnicodeData} `{IntentParser}.
Context (ttl_seconds : Z) (catalog : dict pystr (ToolDefinition W)).
Context (command_catalog capability_catalog : option (W → result value)).
Context (command_catalog_authoritative : bool).
Context (env : core_env) (sid : pystr).
Implicit Types (σ : core_state W V) (s : DeviceSession).

Abbreviation pendings σ := (Tools.pending (router σ)).

(** Between [t] and [t'] only entries of owner [sid], and expired ones, come or
    go, and the one under the identifier drawn in this call. *)
Definition own_pending (t t' : pending_table) : Prop :=
  dwf t → dwf t' ∧ ∀ k p o, owner_id p = Some o → o ≠ sid →
    ((k, p) ∈ t' → (k, p) ∈ t) ∧
    (k ≠ confirm_token env → t_confirm env < Confirmations.expires_at p → (k, p) ∈ t → (k, p) ∈ t').
Record own_only σ σ' : Prop := {
  oo_sessions : ∀ i, i ≠ sid → dget i (sessions σ') = dget i (sessions σ);
  oo_pending : own_pending (pendings σ) (pendings σ')
}.

#[local] Instance own_pending_preorder : PreOrder own_pending.
Proof using Type.
  split; [by intros t ?|]. intros t1 t2 t3 H1 H2 Hwf. destruct (H1 Hwf) as [Hwf2 H1']. destruct (H2 Hwf2) as [Hwf3 H2'].
  split; [done|]. intros k p o Ho Hne. destruct (H1' k p o Ho Hne), (H2' k p o Ho Hne). auto.
Qed.
#[local] Instance own_only_preorder : PreOrder own_only.
Proof using Type.
  split; [by split|]. intros σ1 σ2 σ3 [Hs1 Hp1] [Hs2 Hp2]. split; [|by etrans].
  intros i Hi. by rewrite Hs2, Hs1.
Qed.

(** ** The router *)

Lemma own_filter (P : pystr * PendingConfirmation → Prop) `{!∀ x, Decision (P x)} t :
  (∀ k p o, owner_id p = Some o → o ≠ sid → t_confirm env < Confirmations.expires_at p → P (k, p)) →
  own_pending t (filter P t).
Proof using Type.
  intros HP Hwf. split; [by apply filter_sublist_wf|]. intros k p o Ho Hne.
  rewrite list_elem_of_filter. split; [tauto|]. eauto.
Qed.

Lemma own_consume cid t t' r : consume cid (Some sid) (t_confirm env) t = (t', r) → own_pending t t'.
Proof using Type.
  intros Hrun%consume_run. destruct r as [p|e]; [|by destruct Hrun as [_ ->]].
  destruct Hrun as (Hp & -> & _ & Ho). intros Hwf. split; [by apply ddel_wf|]. intros k q o Hq Hne.
  rewrite ddel_elem. split; [tauto|]. intros _ _ Hin. split; [|done]. intros ->.
  apply elem_dget in Hin; [|done]. rewrite Hp in Hin. simplify_eq. destruct Ho; congruence.
Qed.

Lemma own_ask d n values c dg (s s' : router_state W) out :
  ask ttl_seconds (router_env env) d n values (Some sid) c dg s = (s', out) → own_pending (Tools.pending s) (Tools.pending s').
Proof using Type.
  intros Hrun. destruct (decide (NoDup (dkeys (Tools.pending s)))) as [Hwf|]; [|by intros ?].
  apply ask_run in Hrun as [_ Hrun]; [|done].
  assert (own_pending (Tools.pending s) (filter (λ kv, ¬ expired (t_confirm env) kv.2) (Tools.pending s))) as Hf.
  { apply own_filter. intros k p o _ _ Ht. unfold expired. cbn. lia. }
  destruct out as [r|e]; [|by destruct Hrun as [-> | ->]].
  destruct Hrun as (p & _ & -> & _ & Hp & _). etrans; [exact Hf|].
  intros Hwf'. split; [by apply dset_wf|]. intros k q o Hq Hne. split.
  - intros [[-> ->]|Hin]%dset_elem; [congruence|done].
  - intros Hk _ Hin. by apply dset_elem_ne.
Qed.

Lemma own_invoke n a c dg (s s' : router_state W) out :
  invoke ttl_seconds catalog (router_env env) n a None (Some sid) c dg s = (s', out) →
  own_pending (Tools.pending s) (Tools.pending s').
Proof using Type.
  rewrite invoke_unfold. destruct (get_tool n catalog) as [d|]; [|by intros [= <- _]].
  destruct (validate_arguments d a (world s)) as [v|]; [|by intros [= <- _]].
  destruct (unsafe d); [apply own_ask|]. rewrite execute_run. by intros [= <- _].
Qed.

Lemma own_resolve cid acc (s s' : router_state W) out :
  resolve_confirmation catalog (router_env env) cid acc (Some sid) s = (s', out) →
  own_pending (Tools.pending s) (Tools.pending s').
Proof using Type.
  rewrite resolve_unfold. cbn [Tools.now router_env].
  destruct (consume cid (Some sid) (t_confirm env) (Tools.pending s)) as [t [p|]] eqn:Ec; apply own_consume in Ec;
    [|by intros [= <- _]].
  destruct (negb acc); [by intros [= <- _]|]. cbn zeta.
  repeat case_match; by intros [= <- _].
Qed.

Lemma own_cancel (s s' : router_state W) out :
  cancel_pending sid s = (s', out) → own_pending (Tools.pending s) (Tools.pending s').
Proof using Type.
  unfold cancel_pending, on_pending, zoom, cancel_for_owner. destruct (negb _); [by intros [= <- _]|].
  intros [= <- _]. cbn. destruct (decide (NoDup (dkeys (Tools.pending s)))) as [Hwf|]; [|by intros ?].
  rewrite ddel_keys_where by done. apply own_filter. intros k p o Ho Hne _. cbn. congruence.
Qed.

(** ** The dispatcher *)

Abbreviation frame := (moves own_only).

Lemma frame_router {A} (m : M (router_state W) A) :
  (∀ (s s' : router_state W) r, m s = (s', r) → own_pending (Tools.pending s) (Tools.pending s')) →
  frame (λ _, True) (on_router m).
Proof using Type.
  intros Hm σ. unfold on_router, wp, zoom. destruct (m (router σ)) as [rs r] eqn:E. apply Hm in E. by split.
Qed.

Definition mine s : Prop := session_id s = sid.

Lemma frame_save s : mine s → frame mine (save s).
Proof using Type.
  intros Hs σ. split; [|by intros a [= <-]]. split; [|done]. intros i Hi.
  apply (dget_dalter_ne (λ _, s)). by rewrite (Hs : session_id s = sid).
Qed.

Lemma frame_set_ui s st c : mine s → frame mine (set_ui s st c).
Proof using Type.
  intros Hs. unfold set_ui. eapply (moves_bind _ mine); [|by intros a Ha; apply frame_save].
  apply moves_lift; [apply _|]. unfold set_state. intros a. destruct (one_of st UI_STATES); [|done]. by intros [= <-].
Qed.

Lemma frame_pure {A} (r : result A) : frame (λ _, True) (lift r).
Proof using Type. by apply moves_lift; [apply _|]. Qed.
Lemma frame_gets {A} (f : core_state W V → A) : frame (λ _, True) (gets f).
Proof using Type. by apply moves_gets; [apply _|]. Qed.
Lemma frame_provide f : frame (λ _, True) (provide f).
Proof using Type. by intros σ. Qed.
Lemma frame_facts {A} (m : M facts_table A) : frame (λ _, True) (on_facts m).
Proof using Type. intros σ. unfold on_facts, wp, zoom. by destruct (m (facts σ)). Qed.
Lemma frame_attempt {A} P (m : M (core_state W V) A) : frame P m → frame (λ _, True) (attempt m).
Proof using Type.
  intros Hm σ. specialize (Hm σ). unfold attempt, wp in *. destruct (m σ). by split; [apply Hm|].
Qed.
Lemma frame_reply l : frame (λ _, True) (reply l).
Proof using Type. apply frame_pure. Qed.
Lemma frame_weaken {A} (P : A → Prop) (m : M (core_state W V) A) : frame P m → frame (λ _, True) m.
Proof using Type. intros Hm σ. eapply wp_mono; [|apply Hm]. by intros r σ' [? _]. Qed.

Create HintDb frames discriminated.
#[local] Hint Resolve frame_pure frame_gets frame_provide frame_facts frame_reply frame_save frame_set_ui
  own_invoke own_resolve own_cancel : frames.

(** One construct of the dispatcher. *)
Ltac frame_step :=
  lazymatch goal with
  | H : mine ?s |- frame _ (on_router ?m) =>
    apply frame_router; try rewrite (H : session_id s = sid); eauto with frames
  | |- frame _ (set_ui _ _ _ ≫= _) => eapply moves_bind; [apply _|by apply frame_set_ui|intros ? ?]
  | |- frame _ (save _ ≫= _) => eapply moves_bind; [apply _|by apply frame_save|intros ? ?]
  | |- frame _ (_ ≫= _) => eapply (moves_bind _ (λ _, True)); [|intros ? _]
  | |- frame _ (attempt _) => eapply (frame_attempt (λ _, True))
  | |- frame _ (except _ _ _) => apply moves_except; [apply _|..]
  | |- frame _ (mret _) => by apply moves_ret; [apply _|]
  | |- frame _ (match ?x with _ => _ end) => destruct x
  | |- frame _ _ => solve [eauto with frames]
  end.

Lemma frame_after_invoke s n c r : mine s → frame (λ _, True) (after_invoke s n c r).
Proof using Type. intros Hs. unfold after_invoke. repeat frame_step. Qed.

Lemma frame_run_tool s n a c dg : mine s → frame (λ _, True) (_run_tool ttl_seconds catalog env s n a c dg).
Proof using Type.
  intros Hs. unfold _run_tool, remember_tool, remember_call, recall_tool. repeat frame_step.
  by apply frame_after_invoke.
Qed.

Lemma frame_route_transcript s v :
  mine s → frame (λ _, True)
    (_route_transcript ttl_seconds catalog command_catalog command_catalog_authoritative env s v).
Proof using Type.
  intros Hs. unfold _route_transcript, current_commands. repeat frame_step. by apply frame_run_tool.
Qed.

Lemma frame_catalog : frame (λ _, True) (_catalog_response catalog command_catalog capability_catalog).
Proof using Type. unfold _catalog_response, catalog_reply. cbn zeta. repeat frame_step. Qed.

Lemma frame_dispatch s t f :
  mine s → frame (λ _, True) (dispatch_message ttl_seconds catalog command_catalog capability_catalog
    command_catalog_authoritative env s t f).
Proof using Type.
  intros Hs. unfold dispatch_message, on_device_status, on_device_hello, on_tool_call, on_confirm, resolve_call,
    confirmation_required. cbn zeta.
  repeat frame_step; auto using frame_catalog, frame_route_transcript, frame_run_tool.
Qed.

(** The session [i] if it is not idle at [now]. *)
Definition live_session (now : Z) (r : registry) (i : pystr) : option DeviceSession :=
  match dget i r with
  | Some s => if decide (idle now s) then None else Some s
  | None => None
  end.

(** C28: A message of one session does not reach the others: each other session
    stays as it is, or is gone because it was idle; no confirmation of theirs
    appears; and an unexpired confirmation of a live one stays pending,
    whatever the message was, an accepted confirmation included. *)
Theorem sessions_isolated cm σ (Hok : core_ok σ) :
  let σ' := (handle ttl_seconds catalog command_catalog capability_catalog command_catalog_authoritative
               env sid cm σ).1 in
  (∀ i, i ≠ sid → dget i (sessions σ') = live_session (t_prune env) (sessions σ) i) ∧
  ∀ k p o, owner_id p = Some o → o ≠ sid →
    ((k, p) ∈ pendings σ' → (k, p) ∈ pendings σ) ∧
    (∀ s, dget o (sessions σ) = Some s → ¬ idle (t_prune env) s → k ≠ confirm_token env →
       t_confirm env < Confirmations.expires_at p → (k, p) ∈ pendings σ → (k, p) ∈ pendings σ').
Proof using Type.
  intros σ'. destruct (prune_stale_run env σ Hok) as (σ1 & Hrun & Hok1 & Hsh & Hs1 & _ & Hkeep).
  assert (own_only σ1 σ') as [Hos Hop].
  { subst σ'. unfold handle. erewrite bind_ok by exact Hrun. erewrite bind_ok by done. cbn beta.
    destruct (get_session sid (sessions σ1)) as [s|] eqn:Hget; [|apply (frame_reply _ σ1)].
    apply (moves_bind own_only mine (λ _, True)).
    - apply frame_save. unfold mine, touch. cbn. eapply ok_ids; [apply Hok1|by apply dget_elem].
    - intros s' Hs'. by apply frame_dispatch. }
  split.
  - intros i Hi. rewrite Hos by done. exact (pruned_session env i σ σ1 (proj1 Hok) Hs1).
  - intros k p o Ho Hne. destruct (Hop ltac:(apply Hok1)) as [_ Hp]. destruct (Hp k p o Ho Hne) as [Hnew Hold]. split.
    + intros Hin%Hnew. by apply (sh_pending _ _ Hsh).
    + intros s Hs Hlive Hk Ht Hin. apply Hold; [done..|]. by eapply Hkeep.
Qed.
End Isolation.

(** ** A second session beside one that waits for a confirmation *)

Definition guest_env : core_env :=
  {| t_prune := 1010; t_touch := 1010; t_verify := 1010; t_session := 1010; t_confirm := 1010;
     session_token := u "guest"; confirm_token := u "tok2" |}.
Definition core4 : sample_state :=
  (on_sessions (Sessions.create (u "phone") VNone [VStr (u "display"); VStr (u "touch")] true 1010 (u "guest")) core3).1.

Lemma core4_ok : core_ok (I := verifier_interface 5) core4.
Proof.
  refine (core_step_ok 60 sample_catalog None None false _ _ core3_ok
    (step_open 60 sample_catalog None None false core3 (u "phone") VNone [VStr (u "display"); VStr (u "touch")] true 1010
       (u "guest") _)).
  split_and!; [done|by vm_compute|]. intros k p Hin.
  assert (Forall (λ kv, owner_id kv.2 ≠ Some (u "guest")) (Tools.pending (router core3))) as HF.
  { vm_compute. repeat constructor. discriminate. }
  rewrite Forall_forall in HF. exact (HF _ Hin).
Qed.

Definition guest_call : sample_state := (sample_handle guest_env (u "guest") (parsed call_message) core4).1.

#[local] Strategy 1000 [handle].
#[local] Opaque handle.

Lemma guest_called : len (Tools.pending (router guest_call)) = 2.
Proof. by vm_compute. Qed.

Lemma sessions_isolated_witness :
  len (Tools.pending (router guest_call)) = 2 ∧
  ∀ i, i ≠ u "guest" → dget i (sessions guest_call) = live_session 1010 (sessions core4) i.
Proof.
  exact (conj guest_called
    (proj1 (sessions_isolated 60 sample_catalog None None false guest_env (u "guest") (parsed call_message) core4 core4_ok))).
Defined.
