(* ===== verification/Connection.v ===== *)
(** * One authenticated connection: [backend/pipa_core/connection.py]

    [AuthenticatedConnection] is the lifecycle every transport shares: it
    issues challenges no faster than one a second, opens the session of a
    device whose signed response the Core accepted, asks to close after three
    failures and forwards everything else to [PipaCore.handle].  The Core is
    shared by all connections, so a method runs on the pair of the connection
    and the Core. *)
From S2P Require Import Prelude Dict Value Effects Protocol Sessions Confirmations Tools Challenge PyStr Captions Core.
From S2P Require Import CoreFacts Gate.

Definition MAX_AUTH_FAILURES : Z := 3.
Definition MIN_CHALLENGE_INTERVAL_SECONDS : Z := 1.
Definition AUTHENTICATION_TIMEOUT_SECONDS : Z := 20.
Definition SESSION_IDLE_SECONDS : Z := 10 * 60.

Record ConnectionResult := mkResult { responses : list object; wants_close : bool }.

Record connection := mkConnection {
  conn_session : option pystr;
  auth_failures : Z;
  last_challenge_at : option Z;
  connected_at : Z;
  last_activity_at : Z
}.

(** Attribute assignments. *)
Definition with_session (sid : option pystr) (c : connection) : connection :=
  mkConnection sid (auth_failures c) (last_challenge_at c) (connected_at c) (last_activity_at c).
Definition with_failures (n : Z) (c : connection) : connection :=
  mkConnection (conn_session c) n (last_challenge_at c) (connected_at c) (last_activity_at c).
Definition with_challenge_at (t : Z) (c : connection) : connection :=
  mkConnection (conn_session c) (auth_failures c) (Some t) (connected_at c) (last_activity_at c).
Definition with_activity (t : Z) (c : connection) : connection :=
  mkConnection (conn_session c) (auth_failures c) (last_challenge_at c) (connected_at c) t.

(** [AuthenticatedConnection(core, clock=...)] at clock reading [now]. *)
Definition new_connection (now : Z) : connection := mkConnection None 0 None now now.

(** The clock readings of one [process], and what the Core reads and draws. *)
Record conn_env := {
  t_activity : Z;
  t_challenge : Z;
  core_readings : core_env;
  challenge_draws : challenge_env
}.

(** [message.fields[k]] handed over as an identifier: the parser left a string
    there, and the verifier refuses anything else with [ValueError]. *)
Definition field_str (k : pystr) (f : object) : result pystr :=
  v ← getitem k f; match v with VStr s => Ok s | _ => Raise ValueError end.

Section Connection.
Context {W V : Type} `{I : VerifierI V} `{UnicodeData} `{IntentParser}.
Context (ttl_seconds : Z) (catalog : dict pystr (ToolDefinition W)).
Context (command_catalog capability_catalog : option (W → result value)).
Context (command_catalog_authoritative : bool).
(** Clock ticks in one second. *)
Context (second : Z).

Abbreviation linked := (connection * core_state W V)%type.
Definition on_core {A} (m : M (core_state W V) A) : M linked A := zoom snd (λ σ s, (s.1, σ)) m.
Definition on_conn (f : connection → connection) : M linked unit := modify (λ s, (f s.1, s.2)).

(** [ConnectionResult([response])] *)
Definition answer (response : result object) (close : bool) : M linked ConnectionResult :=
  lift (r ← response; Ok (mkResult [r] close)).

Definition _authentication_failure : M linked ConnectionResult :=
  on_conn (λ c, with_failures (auth_failures c + 1) c) ≫= λ _,
  gets (λ s, MAX_AUTH_FAILURES <=? auth_failures s.1) ≫= λ over,
  answer (bare_error "authentication_failed") over.

Definition rate_limited (now : Z) (c : connection) : bool :=
  match last_challenge_at c with
  | Some last => now - last <? MIN_CHALLENGE_INTERVAL_SECONDS * second
  | None => false
  end.

Definition _challenge (env : conn_env) (m : client_message) : M linked ConnectionResult :=
  gets (λ s, conn_session s.1) ≫= λ sid,
  match sid with
  | Some _ => answer (bare_error "already_authenticated") false
  | None =>
    gets (λ s, rate_limited (t_challenge env) s.1) ≫= λ limited,
    if limited : bool then answer (bare_error "rate_limited") false
    else
      on_conn (with_challenge_at (t_challenge env)) ≫= λ _,
      except
        (lift (field_str (u "device_id") (fields m)) ≫= λ d,
         on_core (create_challenge (challenge_draws env) d) ≫= λ c, mret (Some c))
        [TrustedUnlockError; ValueError] (mret None) ≫= λ challenge,
      match challenge with
      | None => _authentication_failure
      | Some c => answer (server_message (u "challenge") [(u "challenge", VDict (challenge_dict c))]) false
      end
  end.

(** [self.core.authenticate(...)] with the fields of a [hello]. *)
Definition authenticate_hello (env : conn_env) (f : object) : M linked DeviceSession :=
  lift (field_str (u "device_id") f) ≫= λ d,
  lift (field_str (u "challenge_id") f) ≫= λ c,
  lift (field_str (u "signature") f) ≫= λ sg,
  on_core (authenticate (core_readings env) d c sg (get (u "firmware_version") f) (get (u "capabilities") f)).

(** The outcome of [authenticate], by the [except] clause it ends in. *)
Inductive login := LoggedIn (session : DeviceSession) | SessionLimit | LoginFailed.

Definition _authenticate (env : conn_env) (m : client_message) : M linked ConnectionResult :=
  if negb (msg_type m =s "hello") then answer (bare_error "authentication_required") false
  else
    except
      (except (authenticate_hello env (fields m) ≫= λ session, mret (LoggedIn session))
         [SessionLimitError] (mret SessionLimit))
      [TrustedUnlockError; ValueError] (mret LoginFailed) ≫= λ out,
    match out with
    | SessionLimit => answer (bare_error "session_limit") true
    | LoginFailed => _authentication_failure
    | LoggedIn session =>
      on_conn (with_session (Some (session_id session))) ≫= λ _,
      on_conn (with_failures 0) ≫= λ _,
      answer (ui ← ui_message session;
              server_message (u "ready")
                [(u "session_id", VStr (session_id session)); (u "ui_state", VDict ui)]) false
    end.

Definition process (env : conn_env) (m : client_message) : M linked ConnectionResult :=
  on_conn (with_activity (t_activity env)) ≫= λ _,
  if msg_type m =s "challenge_request" then _challenge env m
  else
    gets (λ s, conn_session s.1) ≫= λ sid,
    match sid with
    | None => _authenticate env m
    | Some sid =>
      if msg_type m =s "hello" then answer (bare_error "already_authenticated") false
      else
        on_core (handle ttl_seconds catalog command_catalog capability_catalog
                   command_catalog_authoritative (core_readings env) sid m) ≫= λ rs,
        mret (mkResult rs false)
    end.

(** [AuthenticatedConnection.idle], at clock reading [now]. *)
Definition idle (now : Z) (c : connection) : bool :=
  match conn_session c with
  | None => AUTHENTICATION_TIMEOUT_SECONDS * second <=? now - connected_at c
  | Some _ => SESSION_IDLE_SECONDS * second <=? now - last_activity_at c
  end.

Definition close : M linked unit :=
  gets (λ s, conn_session s.1) ≫= λ sid,
  match sid with
  | None => mret tt
  | Some sid => on_core (Core.close sid) ≫= λ _, on_conn (with_session None)
  end.
End Connection.

(** ** What a call of [process] does *)

Section Facts.
Context {W V : Type} `{I : VerifierI V} {HI : VerifierLaws I} `{UnicodeData} `{IntentParser}.
Context (ttl_seconds : Z) (catalog : dict pystr (ToolDefinition W)).
Context (command_catalog capability_catalog : option (W → result value)).
Context (command_catalog_authoritative : bool) (second : Z).
Implicit Types (σ : core_state W V) (c : connection).

Abbreviation pendings σ := (Tools.pending (router σ)).
Abbreviation process := (process ttl_seconds catalog command_catalog capability_catalog
  command_catalog_authoritative second).
Abbreviation provider_ok := (provider_ok command_catalog).
Abbreviation message_effect := (message_effect catalog).

Lemma authenticate_raises env d cid sg fw caps l σ σ' e :
  core_ok σ → py_tuple (or_empty caps) = Ok l → authenticate env d cid sg fw caps σ = (σ', Raise e) →
  caught e [TrustedUnlockError; ValueError] = true.
Proof using HI.
  intros Hok Hl. unfold authenticate. destruct (prune_stale_run env σ Hok) as (σ1 & Hrun & Hok1 & _).
  unfold mbind at 1, M_bind at 1. rewrite Hrun. unfold mbind at 1, M_bind at 1. cbn [lift].
  destruct (check_signed _) as [r|e'] eqn:Ec; [|intros [= _ <-]; by apply check_signed_raises in Ec as ->].
  unfold mbind at 1, M_bind at 1. unfold on_verifier, zoom.
  destruct (vi_verify_response r (t_verify env) (verifier σ1)) as [v [a|e']] eqn:Ev.
  - unfold mbind at 1, M_bind at 1. cbn [lift]. rewrite Hl.
    unfold on_sessions, zoom. cbn [sessions].
    destruct (create_session_run (auth_device_id a) fw l true (t_session env) (session_token env) (sessions σ1))
      as [(-> & _)|(-> & _)]; [apply Hok1|done|]. by intros [= _ <-].
  - intros [= _ <-]. apply (vi_verify_raises _ _ _ _ _ (b_verifier _ (proj1 Hok1))) in Ev.
    unfold caught. cbn [existsb]. by rewrite Ev.
Qed.

Lemma on_core_run {A} (m : M (core_state W V) A) c σ σ' r :
  m σ = (σ', r) → on_core m (c, σ) = ((c, σ'), r).
Proof. apply (zoom_run snd (λ σ s, (s.1, σ)) m (c, σ)). Qed.

(** The envelopes a connection answers with by itself. *)
Lemma answer_run r b (s : connection * core_state W V) :
  sends r → ∃ o, r = Ok o ∧ envelope_ok o ∧ answer r b s = (s, Ok (mkResult [o] b)).
Proof. intros (o & -> & Ho). by exists o. Qed.

Definition sent (r : result object) : list object := match r with Ok o => [o] | Raise _ => [] end.
Arguments sent : simpl never.
Definition failure_response : list object := sent (bare_error "authentication_failed").

(** The five ways an unauthenticated connection answers, and what each does to
    the connection itself. *)
Inductive outside (env : conn_env) (m : client_message) c : connection → ConnectionResult → Prop :=
| out_refused code : (code = "authentication_required" ∨ code = "rate_limited")%string →
    outside env m c c (mkResult (sent (bare_error code)) false)
| out_challenge ch : msg_type m = u "challenge_request" → rate_limited second (t_challenge env) c = false →
    outside env m c (with_challenge_at (t_challenge env) c)
      (mkResult (sent (server_message (u "challenge") [(u "challenge", VDict (challenge_dict ch))])) false)
| out_failed c1 : c1 = c ∨ (rate_limited second (t_challenge env) c = false ∧ c1 = with_challenge_at (t_challenge env) c) →
    outside env m c (with_failures (auth_failures c + 1) c1)
      (mkResult failure_response (MAX_AUTH_FAILURES <=? auth_failures c + 1))
| out_limit : msg_type m = u "hello" → outside env m c c (mkResult (sent (bare_error "session_limit")) true)
| out_ready s ui : msg_type m = u "hello" → ui_message s = Ok ui →
    outside env m c (with_failures 0 (with_session (Some (session_id s)) c))
      (mkResult (sent (server_message (u "ready")
                   [(u "session_id", VStr (session_id s)); (u "ui_state", VDict ui)])) false).

(** The session a [hello] opened: the verifier accepted the device's response. *)
Definition verified_login (env : conn_env) (f : object) (sid : pystr) σ σ' : Prop :=
  ∃ d cid sg l v a s,
    get (u "device_id") f = VStr d ∧ get (u "challenge_id") f = VStr cid ∧ get (u "signature") f = VStr sg ∧
    vi_verify_response (mkSigned cid d sg) (t_verify (core_readings env)) (verifier σ) = (v, Ok a) ∧
    auth_device_id a = d ∧ sid = session_token (core_readings env) ∧
    s = new_session d (get (u "firmware_version") f) l true (t_session (core_readings env)) sid ∧
    dget sid (sessions σ') = Some s.

Lemma sent_envelope r : sends r → Forall envelope_ok (sent r).
Proof. intros (o & -> & Ho). by repeat constructor. Qed.

Lemma answer_sent r b (s : connection * core_state W V) :
  sends r → answer r b s = (s, Ok (mkResult (sent r) b)).
Proof. by intros (o & -> & Ho). Qed.

Lemma outside_envelopes env m c c' r : outside env m c c' r → Forall envelope_ok (responses r).
Proof. destruct 1; apply sent_envelope; try apply sends_bare_error; sends_now. Qed.

Lemma outside_connected env m c c' r : outside env m c c' r → connected_at c' = connected_at c.
Proof. destruct 1 as [| |c1 [->|[_ ->]]| |]; done. Qed.

Lemma outside_activity env m c t c' r :
  outside env m (with_activity t c) c' r → connected_at c' = connected_at c ∧ last_activity_at c' = t.
Proof. destruct 1 as [| |c1 [->|[_ ->]]| |]; done. Qed.

Lemma field_str_get k f d : get k f = VStr d → field_str k f = Ok d.
Proof. unfold get, field_str, getitem, mbind, result_bind. destruct (dget k f) as [v|]; [|done]. by intros [= ->]. Qed.

Lemma authentication_failure_run c σ :
  _authentication_failure (c, σ) =
    ((with_failures (auth_failures c + 1) c, σ), Ok (mkResult failure_response (MAX_AUTH_FAILURES <=? auth_failures c + 1))).
Proof. unfold _authentication_failure, on_conn, modify, gets, mbind, M_bind. cbn [fst snd]. by rewrite answer_sent by apply sends_bare_error. Qed.

Lemma challenge_run env m c σ d :
  core_ok σ → conn_session c = None → msg_type m = u "challenge_request" → get (u "device_id") (fields m) = VStr d →
  ∃ c' v r, _challenge second env m (c, σ) = ((c', mkCore (sessions σ) (router σ) (facts σ) v), Ok r) ∧
    outside env m c c' r ∧ core_ok (mkCore (sessions σ) (router σ) (facts σ) v).
Proof using HI.
  intros Hok Hc Ht Hd. unfold _challenge. erewrite bind_ok by done. cbn [fst]. rewrite Hc.
  erewrite bind_ok by done. cbn [fst].
  assert (σ = mkCore (sessions σ) (router σ) (facts σ) (verifier σ)) as Heta by by destruct σ.
  destruct (rate_limited second (t_challenge env) c) eqn:Hl.
  { rewrite answer_sent by apply sends_bare_error. exists c, (verifier σ). rewrite <- Heta.
    eexists. split_and!; [done| |done]. apply out_refused. by right. }
  erewrite bind_ok by done. cbn [fst snd].
  destruct (create_challenge_post (challenge_draws env) d σ Hok) as (v & r & Hrun & Hok' & Hv).
  set (s1 := (with_challenge_at (t_challenge env) c, mkCore (sessions σ) (router σ) (facts σ) v)).
  assert (on_core (create_challenge (challenge_draws env) d) (with_challenge_at (t_challenge env) c, σ) = (s1, r)) as Hcore
    by exact (on_core_run _ _ _ _ _ Hrun).
  rewrite (field_str_get _ _ d Hd). destruct r as [ch|e].
  - erewrite bind_ok by (apply except_ok; erewrite bind_ok by done; by erewrite bind_ok by exact Hcore).
    cbn beta iota. rewrite answer_sent by sends_now. eexists _, v, _. split_and!; [done| |done]. by apply out_challenge.
  - erewrite bind_ok.
    2:{ erewrite except_caught; [done|erewrite bind_ok by done; by eapply bind_raise|].
        by eapply vi_create_raises; [apply (proj1 Hok)|]. }
    cbn beta iota. subst s1. rewrite authentication_failure_run.
    eexists _, v, _. split_and!; [done| |done]. apply (out_failed env m c). by right.
Qed.

Lemma authenticate_refused env m c σ :
  (msg_type m =s "hello") = false →
  _authenticate env m (c, σ) = ((c, σ), Ok (mkResult (sent (bare_error "authentication_required")) false)).
Proof. intros Ht. unfold _authenticate. rewrite Ht. cbn [negb]. by rewrite answer_sent by apply sends_bare_error. Qed.

(** The fields of a parsed [hello]. *)
Definition hello_fields (f : object) (d cid sg : pystr) (l : list value) : Prop :=
  get (u "device_id") f = VStr d ∧ get (u "challenge_id") f = VStr cid ∧ get (u "signature") f = VStr sg ∧
  py_tuple (or_empty (get (u "capabilities") f)) = Ok l.

Lemma check_signed_same r r' : check_signed r = Ok r' → r' = r.
Proof. apply check_signed_id. Qed.

Definition kept σ σ' : Prop :=
  the_world σ' = the_world σ ∧ facts σ' = facts σ ∧ (∀ kv, kv ∈ pendings σ' → kv ∈ pendings σ).

Lemma hello_run env m c σ d cid sg l :
  core_ok σ → fresh_session (session_token (core_readings env)) σ → msg_type m = u "hello" →
  hello_fields (fields m) d cid sg l → conn_session c = None →
  ∃ c' σ' r, _authenticate env m (c, σ) = ((c', σ'), Ok r) ∧ outside env m c c' r ∧ core_ok σ' ∧ kept σ σ' ∧
    (∀ sid, conn_session c' = Some sid → verified_login env (fields m) sid σ σ') ∧
    (conn_session c' = None → ∀ sid s, dget sid (sessions σ') = Some s → dget sid (sessions σ) = Some s).
Proof using HI.
  intros Hok Hf Ht (Hd & Hcid & Hsg & Hl) Hc. unfold _authenticate. rewrite Ht. cbn [negb is_lit].
  replace (u "hello" =s "hello") with true by done. cbn [negb].
  destruct (authenticate_post (core_readings env) d cid sg (get (u "firmware_version") (fields m))
    (get (u "capabilities") (fields m)) σ Hok Hf) as (σ' & r & Hrun & Hok' & Hw & Hfa & Hp & Hr).
  assert (authenticate_hello env (fields m) (c, σ) = ((c, σ'), r)) as Hhello.
  { unfold authenticate_hello. rewrite (field_str_get _ _ _ Hd), (field_str_get _ _ _ Hcid), (field_str_get _ _ _ Hsg).
    do 3 erewrite bind_ok by done. by apply on_core_run. }
  destruct r as [s|e].
  - destruct Hr as (l' & response & v & a & _ & Hck & Hv & Ha & Hs & Hget). apply check_signed_id in Hck as ->.
    erewrite bind_ok by (do 2 apply except_ok; by erewrite bind_ok by exact Hhello). cbn [fst snd].
    do 2 erewrite bind_ok by done. cbn [fst snd].
    rewrite answer_sent by sends_now. eexists _, σ', _. split; [reflexivity|].
    split_and!; [by apply out_ready|done|by split_and!| |done].
    intros sid [= <-]. exists d, cid, sg, l', v, a, s.
    assert (session_id s = session_token (core_readings env)) as -> by by rewrite Hs. by split_and!.
  - pose proof (authenticate_raises _ _ _ _ _ _ _ _ _ _ Hok Hl Hrun) as He.
    destruct (caught e [SessionLimitError]) eqn:El.
    + erewrite bind_ok.
      2:{ apply except_ok. etrans; [eapply except_caught; [by eapply bind_raise|done]|done]. }
      cbn beta iota. rewrite answer_sent by apply sends_bare_error. eexists c, σ', _. split; [done|].
      split_and!; [by apply out_limit|done|by split_and!|by rewrite Hc|done].
    + erewrite bind_ok.
      2:{ etrans; [eapply except_caught; [eapply except_missed; [by eapply bind_raise|done]|done]|done]. }
      rewrite authentication_failure_run. eexists _, σ', _. split; [done|].
      split_and!; [apply out_failed; by left|done|by split_and!|cbn; by rewrite Hc|done].
Qed.

Lemma parsed_challenge v cm :
  parse_client_message v = Ok cm → msg_type cm = u "challenge_request" →
  ∃ d, get (u "device_id") (fields cm) = VStr d.
Proof.
  intros (m & _ & _ & _ & [Ht (ver & _ & Hf)] & Hm & _)%parse_client_message_carries Hc. rewrite Hf.
  rewrite Hc in Ht. destruct m; try (cbn [type_of] in Ht; lit_discriminate); [by eexists|].
  exfalso. cbn [type_of message_ok] in *. subst. vm_compute in Hm. done.
Qed.

Lemma parsed_hello v cm :
  parse_client_message v = Ok cm → msg_type cm = u "hello" → ∃ d cid sg l, hello_fields (fields cm) d cid sg l.
Proof.
  intros (m & _ & _ & _ & [Ht (ver & _ & Hf)] & Hm & _)%parse_client_message_carries Hc. rewrite Hf.
  rewrite Hc in Ht. destruct m; try (cbn [type_of] in Ht; lit_discriminate).
  - exists device_id, challenge_id, signature, (VStr <$> capabilities).
    destruct firmware_version; split_and!; try reflexivity; by destruct capabilities.
  - exfalso. cbn [type_of message_ok] in *. subst. vm_compute in Hm. done.
Qed.

(** [process] on either side of authentication. *)
Lemma process_run env v cm c σ :
  core_ok σ → parse_client_message v = Ok cm → provider_ok (the_world σ) →
  fresh_session (session_token (core_readings env)) σ →
  ∃ c' σ' r, process env cm (c, σ) = ((c', σ'), Ok r) ∧ Forall envelope_ok (responses r) ∧ core_ok σ' ∧
    match conn_session c with
    | Some sid => c' = with_activity (t_activity env) c ∧ message_effect (core_readings env) sid cm σ σ'
    | None =>
      outside env cm (with_activity (t_activity env) c) c' r ∧ kept σ σ' ∧
      (∀ sid, conn_session c' = Some sid → msg_type cm = u "hello" ∧ verified_login env (fields cm) sid σ σ') ∧
      (conn_session c' = None → ∀ sid s, dget sid (sessions σ') = Some s → dget sid (sessions σ) = Some s)
    end.
Proof using HI.
  intros Hok Hp Hprov Hf. unfold process. erewrite bind_ok by done. cbn [fst snd].
  set (c1 := with_activity (t_activity env) c). assert (conn_session c1 = conn_session c) as Hc by done.
  destruct (msg_type cm =s "challenge_request") eqn:Hcr.
  - apply is_lit_true in Hcr. destruct (parsed_challenge v cm Hp Hcr) as [d Hd]. destruct (conn_session c) as [sid|].
    + unfold _challenge. erewrite bind_ok by done. cbn [fst]. rewrite Hc, answer_sent by apply sends_bare_error.
      eexists _, σ, _. split_and!; [done|apply sent_envelope, sends_bare_error|done|done|].
      by apply effect_tool, effect_none.
    + destruct (challenge_run env cm c1 σ d) as (c' & w & r & -> & Ho & Hok'); [done..|].
      eexists _, _, _. split_and!; [done|by eapply outside_envelopes|done|done|done| |done].
      intros sid Hs. exfalso. change (conn_session c = None) in Hc.
      destruct Ho as [| |c2 [->|[_ ->]]|Hh|s ui Hh]; cbn in Hs; try congruence;
        rewrite Hcr in Hh; lit_discriminate.
  - erewrite bind_ok by done. cbn [fst]. rewrite Hc. destruct (conn_session c) as [sid|] eqn:Hs.
    + destruct (msg_type cm =s "hello") eqn:Hh.
      { rewrite answer_sent by apply sends_bare_error.
        eexists _, σ, _. split_and!; [done|apply sent_envelope, sends_bare_error|done|done|].
        by apply effect_tool, effect_none. }
      destruct (parse_client_message_carries v cm Hp) as (m & _ & _ & _ & Hcm & Hm & _).
      edestruct (handle_post ttl_seconds catalog command_catalog capability_catalog
        command_catalog_authoritative (core_readings env) sid cm m σ) as (σ' & r & Hrun & (os & -> & Hos) & Hok' & He);
        [done..|].
      erewrite bind_ok by by apply on_core_run. eexists _, σ', _. by split_and!.
    + destruct (msg_type cm =s "hello") eqn:Hh.
      * apply is_lit_true in Hh. destruct (parsed_hello v cm Hp Hh) as (d & cid & sg & l & Hhf).
        destruct (hello_run env cm c1 σ d cid sg l) as (c' & σ' & r & -> & Ho & Hok' & Hk & Hv & Hn); [done..|].
        exists c', σ', r. split_and!; [done|by eapply outside_envelopes|done|done|done| |done].
        intros sid Hsid. split; [done|by apply Hv].
      * rewrite authenticate_refused by done. eexists _, σ, _.
        split_and!; [done|apply sent_envelope, sends_bare_error|done| |done|by rewrite Hc|done].
        apply out_refused. by left.
Qed.

(** [process] as a transport sees it: an answer, on a Core that stays sound. *)
Lemma process_sound env v cm c σ :
  core_ok σ → conn_session c ≠ Some [] → parse_client_message v = Ok cm → provider_ok (the_world σ) →
  fresh_session (session_token (core_readings env)) σ →
  ∃ c' σ' r, process env cm (c, σ) = ((c', σ'), Ok r) ∧ Forall envelope_ok (responses r) ∧ core_ok σ' ∧
    conn_session c' ≠ Some [].
Proof using HI.
  intros Hok Hne Hp Hprov Hf. destruct (process_run env v cm c σ Hok Hp Hprov Hf) as (c' & σ' & r & Hrun & Hos & Hok' & Hcase).
  exists c', σ', r. split_and!; try done. destruct (conn_session c) as [sid|] eqn:Hs; [by destruct Hcase as [-> _]; cbn; rewrite Hs|].
  destruct Hcase as (_ & _ & Hlog & _). intros Hnil. destruct (Hlog [] Hnil) as [_ (d' & cid & sg & l & v' & a & s0 & H9)].
  destruct Hf as [Hne' _]. apply Hne'. by destruct H9 as (_ & _ & _ & _ & _ & <- & _).
Qed.

(** What closing the connection leaves of its session: nothing. *)
Definition ended (l l' : connection * core_state W V) : Prop :=
  conn_session l'.1 = None ∧ shrinks l.2 l'.2 ∧
  match conn_session l.1 with
  | Some sid => sessions l'.2 = ddel sid (sessions l.2) ∧
      Tools.pending (router l'.2) = filter (λ kv, ¬ owned_by (Some sid) kv.2) (Tools.pending (router l.2))
  | None => l'.2 = l.2
  end.
Lemma close_ends c σ :
  core_ok σ → conn_session c ≠ Some [] →
  ∃ l', close (c, σ) = (l', Ok tt) ∧ core_ok l'.2 ∧ ended (c, σ) l'.
Proof using Type.
  intros Hc Hne. unfold close. erewrite bind_ok by done. unfold ended. cbn [fst snd]. destruct (conn_session c) as [sid|] eqn:Hs.
  - destruct (close_run sid σ Hc) as (σ' & Hrun & Hok' & Hsh & _ & Hss & Hp); [congruence|].
    exists (with_session None c, σ'). split; [|by split_and!].
    by erewrite bind_ok by (unfold on_core; exact (zoom_run _ _ _ (c, σ) _ _ Hrun)).
  - by exists (c, σ).
Qed.

(** ** The life of a connection

    One [process] as its transport sees it. *)
Record exchange := mkExchange {
  x_time : Z;
  x_before : option pystr;
  x_result : ConnectionResult
}.
Definition first_response (r : ConnectionResult) : object := default [] (head (responses r)).

(** An unauthenticated call answered [authentication_failed], or with a
    challenge. *)
Definition failed (x : exchange) : Prop :=
  x_before x = None ∧ get (u "code") (first_response (x_result x)) = VStr (u "authentication_failed").
#[local] Instance failed_dec x : Decision (failed x).
Proof using Type.
  unfold failed. destruct (x_before x); [by right; intros [? _]|].
  destruct (get _ _) as [| | | |s| |]; try (by right; intros [_ ?]).
  destruct (decide (s = u "authentication_failed")) as [->|]; [by left|right; intros [_ ?]; congruence].
Defined.
Definition challenged (x : exchange) : Prop :=
  x_before x = None ∧ get (u "type") (first_response (x_result x)) = VStr (u "challenge").

Definition failures (log : list exchange) : Z := len (filter failed log).
Definition still_open (log : list exchange) : Prop :=
  ∀ x, last log = Some x → wants_close (x_result x) = false.

(** Calls of [process] on a new connection, at times that do not go back, until
    a result asks to close; between two of them the rest of the program may do
    anything to the Core that keeps it sound. *)
Inductive attempts (t0 : Z) : list exchange → Z → connection → Prop :=
| attempts_new : attempts t0 [] t0 (new_connection t0)
| attempts_process env v cm log t c c' σ σ' r :
    attempts t0 log t c → still_open log →
    core_ok σ → parse_client_message v = Ok cm → provider_ok (the_world σ) →
    fresh_session (session_token (core_readings env)) σ →
    t <= t_activity env <= t_challenge env →
    process env cm (c, σ) = ((c', σ'), Ok r) →
    attempts t0 (log ++ [mkExchange (t_challenge env) (conn_session c) r]) (t_challenge env) c'.

Record attempts_ok (t0 : Z) (log : list exchange) c : Prop := {
  at_connected : connected_at c = t0;
  at_failures : failures log <= MAX_AUTH_FAILURES;
  at_open : still_open log → conn_session c = None → auth_failures c = failures log ∧ failures log < MAX_AUTH_FAILURES;
  at_last : ∀ x, x ∈ log → challenged x → ∃ t, last_challenge_at c = Some t ∧ x_time x <= t;
  at_spaced : ∀ i j x y, (i < j)%nat → log !! i = Some x → log !! j = Some y → challenged x → challenged y →
    x_time x + MIN_CHALLENGE_INTERVAL_SECONDS * second <= x_time y
}.

Lemma failures_snoc log x : failures (log ++ [x]) = failures log + (if decide (failed x) then 1 else 0).
Proof.
  unfold failures. rewrite filter_app, len_app. f_equal. rewrite filter_cons. by case_decide.
Qed.

Lemma still_open_snoc log x : still_open (log ++ [x]) ↔ wants_close (x_result x) = false.
Proof. unfold still_open. rewrite last_snoc. split; [by intros H'; apply H'|by intros ? ? [= <-]]. Qed.

(** What one unauthenticated exchange adds to the log. *)
Lemma outside_exchange env m c0 c c' r x :
  outside env m c c' r → c = with_activity (t_activity env) c0 → conn_session c0 = None → x = mkExchange (t_challenge env) None r →
  (conn_session c' = None → auth_failures c' = auth_failures c0 + (if decide (failed x) then 1 else 0)) ∧
  (failed x → conn_session c' = None ∧ wants_close r = (MAX_AUTH_FAILURES <=? auth_failures c0 + 1)) ∧
  (challenged x → last_challenge_at c' = Some (t_challenge env) ∧ rate_limited second (t_challenge env) c0 = false) ∧
  (last_challenge_at c' = last_challenge_at c0 ∨
   last_challenge_at c' = Some (t_challenge env) ∧ rate_limited second (t_challenge env) c0 = false).
Proof.
  intros Ho Hc Hnone Hx. subst c x. unfold failed, challenged. cbn [x_before x_result x_time].
  destruct Ho as [code [->| ->]|ch Ht Hl|c1 [->|[Hl ->]]|Ht|s ui Ht Hui]; cbn [conn_session auth_failures last_challenge_at
    wants_close with_failures with_challenge_at with_session with_activity] in *.
  all: split_and!; try (by auto); try (intros [_ Hx]; by vm_compute in Hx).
  all: try (intros Hs; rewrite decide_False by (intros [_ Hx]; by vm_compute in Hx); lia).
  all: try (intros Hs; rewrite decide_True by (split; [done|by vm_compute]); lia).
Qed.

Lemma attempts_snoc t0 t log c env m c' r :
  attempts_ok t0 log c → still_open log → t <= t_activity env <= t_challenge env →
  (∀ x, x ∈ log → x_time x <= t) →
  match conn_session c with
  | Some _ => c' = with_activity (t_activity env) c
  | None => outside env m (with_activity (t_activity env) c) c' r
  end →
  attempts_ok t0 (log ++ [mkExchange (t_challenge env) (conn_session c) r]) c'.
Proof.
  intros [Hconn Hfail Hopen Hlast Hsp] Hso Ht Htimes Ho. set (x := mkExchange _ _ r).
  destruct (conn_session c) as [sid|] eqn:Hs.
  - assert (¬ failed x) as Hnf by by intros [? _]. assert (¬ challenged x) as Hnc by by intros [? _].
    subst c'. split; rewrite ?failures_snoc, ?decide_False, ?Z.add_0_r by done; try done.
    + cbn. by rewrite Hs.
    + intros y [Hy| ->%list_elem_of_singleton]%elem_of_app; [by apply Hlast|done].
    + intros i j y z Hij Hi Hj Hcy Hcz. apply lookup_app_Some in Hi, Hj.
      destruct Hj as [Hj|[_ Hj]]; [|apply list_lookup_singleton_Some in Hj as [_ <-]; done].
      destruct Hi as [Hi|[Hl _]]; [by eapply (Hsp i j)|]. apply lookup_lt_Some in Hj. lia.
  - destruct (outside_exchange env m c _ c' r x Ho) as (Ha & Hf & Hc & Hla); [done..|].
    pose proof (outside_connected _ _ _ _ _ Ho) as Hcon. destruct (Hopen Hso eq_refl) as [Haf Hlt].
    split.
    + by rewrite Hcon.
    + rewrite failures_snoc. unfold MAX_AUTH_FAILURES in *. case_decide; lia.
    + rewrite still_open_snoc, failures_snoc. intros Hw Hn. specialize (Ha Hn). split; [lia|].
      case_decide as Hfx; [|lia]. destruct (Hf Hfx) as [_ Hwc]. cbn in Hw. rewrite Hw in Hwc. reflect. lia.
    + intros y [Hy| ->%list_elem_of_singleton]%elem_of_app Hcy.
      * destruct (Hlast y Hy Hcy) as (t1 & Hl & ?). destruct Hla as [->|[-> _]]; [by exists t1|].
        eexists. split; [done|]. specialize (Htimes y Hy). lia.
      * exists (t_challenge env). split; [by apply Hc|done].
    + intros i j y z Hij Hi Hj Hcy Hcz. apply lookup_app_Some in Hi, Hj.
      destruct Hi as [Hi|[Hl Hi]];
        [|apply list_lookup_singleton_Some in Hi as [? _];
          destruct Hj as [Hj|[_ [? _]%list_lookup_singleton_Some]]; [apply lookup_lt_Some in Hj|]; lia].
      destruct Hj as [Hj|[_ [_ <-]%list_lookup_singleton_Some]]; [by eapply (Hsp i j)|].
      apply list_elem_of_lookup_2 in Hi. destruct (Hlast y Hi Hcy) as (t1 & Hl & Hle). destruct (Hc Hcz) as [_ Hr].
      unfold rate_limited in Hr. rewrite Hl in Hr. reflect. cbn. lia.
Qed.

Lemma attempts_is_ok t0 log t c : attempts t0 log t c → attempts_ok t0 log c ∧ t0 <= t ∧ ∀ x, x ∈ log → x_time x <= t.
Proof using HI.
  induction 1 as [|env v cm log t c c' σ σ' r _ (IH & Ht0 & Htimes) Hso Hok Hp Hprov Hf Ht Hrun].
  - split_and!; [|done|by intros x ?%not_elem_of_nil].
    split; try done; intros; by (exfalso; eapply not_elem_of_nil) || by (exfalso; eapply lookup_nil_is_Some).
  - destruct (process_run env v cm c σ) as (c2 & σ2 & r2 & Hrun2 & _ & _ & Hcase); [done..|].
    rewrite Hrun in Hrun2. injection Hrun2 as <- <- <-.
    split_and!; [|lia|].
    + apply (attempts_snoc t0 t log c env cm); [done..|]. destruct (conn_session c); [apply Hcase|apply Hcase].
    + intros x [Hx| ->%list_elem_of_singleton]%elem_of_app; [specialize (Htimes x Hx); lia|done].
Qed.

(** C25: A parsed message on a connection is always answered, with envelopes of
    the wire contract, and keeps the Core sound.  Before authentication it
    changes neither the world nor the memory, adds no pending action, and opens
    a session only if it is a [hello] whose signed response the verifier
    accepted for that device; after it, the connection acts on its own session
    only, within the limits of [handle]. *)
Theorem connection_gate env v cm c σ (Hok : core_ok σ) (Hparse : parse_client_message v = Ok cm)
    (Hprov : provider_ok (the_world σ)) (Hfresh : fresh_session (session_token (core_readings env)) σ) :
  ∃ c' σ' r, process env cm (c, σ) = ((c', σ'), Ok r) ∧ Forall envelope_ok (responses r) ∧ core_ok σ' ∧
    match conn_session c with
    | Some sid => conn_session c' = Some sid ∧ message_effect (core_readings env) sid cm σ σ'
    | None =>
      kept σ σ' ∧
      match conn_session c' with
      | Some sid => msg_type cm = u "hello" ∧ verified_login env (fields cm) sid σ σ'
      | None => ∀ sid s, dget sid (sessions σ') = Some s → dget sid (sessions σ) = Some s
      end
    end.
Proof using HI.
  destruct (process_run env v cm c σ) as (c' & σ' & r & Hrun & Hos & Hok' & Hcase); [done..|].
  exists c', σ', r. split_and!; [done..|]. destruct (conn_session c) as [sid|] eqn:Hs.
  - destruct Hcase as [-> He]. by split.
  - destruct Hcase as (_ & Hk & Hlog & Hn). split; [done|]. destruct (conn_session c') as [sid|]; auto.
Qed.

(** C26: However often a peer tries, a connection is answered
    [authentication_failed] at most three times and gets at most one challenge
    a second; and one that has not authenticated is due for closing twenty
    seconds after it was opened, whatever it sent. *)
Theorem attempts_bounded t0 log t c (Hrun : attempts t0 log t c) :
  failures log <= MAX_AUTH_FAILURES ∧
  (∀ i j x y, (i < j)%nat → log !! i = Some x → log !! j = Some y → challenged x → challenged y →
     x_time x + MIN_CHALLENGE_INTERVAL_SECONDS * second <= x_time y) ∧
  (conn_session c = None → ∀ now, t0 + AUTHENTICATION_TIMEOUT_SECONDS * second <= now → idle second now c = true).
Proof using HI.
  apply attempts_is_ok in Hrun as [Hok _]. split_and!; [apply Hok|apply Hok|].
  intros Hs now Hnow. unfold idle. rewrite Hs, (at_connected _ _ _ Hok). apply Z.leb_le. lia.
Qed.
End Facts.

(** ** A device that connects, asks for a challenge and signs it *)

#[local] Strategy 1000 [process handle].
#[local] Opaque process.

Definition sample_conn_env (t : Z) : conn_env :=
  {| t_activity := t; t_challenge := t; core_readings := sample_core_env t;
     challenge_draws := sample_challenge_env 1 t |}.
Abbreviation sample_process := (process (I := verifier_interface 5) 60 sample_catalog None None false 1).

Definition challenge_message : value :=
  VDict [(u "type", VStr (u "challenge_request")); (u "protocol_version", VInt 1); (u "device_id", VStr (u "esp32"))].
Definition hello_message : value :=
  VDict [(u "type", VStr (u "hello")); (u "protocol_version", VInt 1); (u "device_id", VStr (u "esp32"));
         (u "challenge_id", VStr (challenge_id sample_challenge));
         (u "signature", VStr (signature sample_response))].

Definition conn_run1 : (connection * sample_state) * result ConnectionResult :=
  sample_process (sample_conn_env 1000) (parsed challenge_message) (new_connection 999, core0).
Definition conn_run2 : (connection * sample_state) * result ConnectionResult :=
  sample_process (sample_conn_env 1005) (parsed hello_message) conn_run1.1.

Lemma conn_runs : conn_session conn_run1.1.1 = None ∧ conn_session conn_run2.1.1 = Some (u "s").
Proof. by vm_compute. Qed.

Definition waiting_conn : connection := with_challenge_at 1000 (with_activity 1000 (new_connection 999)).
Definition conn_login : (connection * sample_state) * result ConnectionResult :=
  sample_process (sample_conn_env 1005) (parsed hello_message) (waiting_conn, core1).

Lemma conn_login_session : conn_session conn_login.1.1 = Some (u "s").
Proof. by vm_compute. Qed.

Lemma hello_parsed : parse_client_message hello_message = Ok (parsed hello_message).
Proof. apply sample_parsed. by vm_compute. Qed.
Lemma challenge_parsed : parse_client_message challenge_message = Ok (parsed challenge_message).
Proof. apply sample_parsed. by vm_compute. Qed.

Lemma connection_gate_witness :
  conn_session conn_login.1.1 = Some (u "s") ∧
  ∃ c' σ' r, conn_login = ((c', σ'), Ok r) ∧ Forall envelope_ok (responses r) ∧
    core_ok (I := verifier_interface 5) σ' ∧ kept core1 σ'.
Proof.
  refine (conj conn_login_session _).
  destruct (connection_gate (I := verifier_interface 5) 60 sample_catalog None None false 1 (sample_conn_env 1005)
    hello_message (parsed hello_message) waiting_conn core1 core1_ok hello_parsed Logic.I sample_fresh)
    as (c' & σ' & r & Hrun & Hr & Hok & Hk & _).
  exists c', σ', r. exact (conj Hrun (conj Hr (conj Hok Hk))).
Defined.

Lemma conn_run1_ok : is_ok conn_run1.2 = true.
Proof. by vm_compute. Qed.

Lemma sample_fresh0 : fresh_session (u "s") core0.
Proof. split_and!; [done|done|]. by intros k p ?%not_elem_of_nil. Qed.

Definition conn_log : list exchange :=
  [mkExchange 1000 None (ok_or (mkResult [] true) conn_run1.2)].

Lemma sample_attempts :
  attempts (I := verifier_interface 5) 60 sample_catalog None None false 1 999 conn_log 1000 conn_run1.1.1.
Proof.
  refine (attempts_process 60 sample_catalog None None false 1 999 (sample_conn_env 1000) challenge_message
    (parsed challenge_message) [] 999 (new_connection 999) conn_run1.1.1 core0 conn_run1.1.2 _
    (attempts_new _ _ _ _ _ _ 999) _ core0_ok challenge_parsed Logic.I sample_fresh0 _ _).
  - by intros x.
  - cbn. lia.
  - etrans; [exact (pair_ok (mkResult [] true) conn_run1 conn_run1_ok)|]. by destruct conn_run1.1.
Qed.

Lemma attempts_bounded_witness :
  conn_session conn_run1.1.1 = None ∧
  failures conn_log <= MAX_AUTH_FAILURES ∧ Connection.idle 1 1019 conn_run1.1.1 = true.
Proof.
  refine (conj (proj1 conn_runs) _).
  destruct (attempts_bounded (I := verifier_interface 5) 60 sample_catalog None None false 1 999 conn_log 1000
    conn_run1.1.1 sample_attempts) as (Hf & _ & Hi).
  refine (conj Hf (Hi (proj1 conn_runs) 1019 _)). unfold AUTHENTICATION_TIMEOUT_SECONDS. lia.
Defined.
