(* ===== verification/SecureSession.v ===== *)
(** * The encrypted session: [secure_session.py]

    The signed Diffie-Hellman handshake of protocol v2 and the record layer it
    keys.  [create_client_hello], [create_server_hello] and
    [complete_client_handshake] are the three steps of the handshake; [seal]
    and [open] send and receive one record.  Keys, nonces and session
    identifiers the code draws at random are arguments.  Ed25519, X25519, HKDF
    and ChaCha20-Poly1305 are the interfaces of [Crypto]. *)
From S2P Require Import Prelude Dict Value Effects Encoding Json Sha256 Crypto.

Definition SECURE_PROTOCOL_VERSION : Z := 2.
Definition NONCE_BYTES : Z := 32.
Definition AEAD_KEY_BYTES : Z := 32.
Definition NONCE_PREFIX_BYTES : Z := 4.
Definition MAX_RECORD_BYTES : Z := 64 * 1024.
Definition MAX_ADDITIONAL_DATA_BYTES : Z := 1024.
Definition MAX_SEQUENCE : Z := Z.shiftl 1 64 - 1.
Definition HKDF_INFO : bytes := u "pipa/secure-session/v2".

Definition _encode (b : bytes) : pystr := Base64.encode b.

Definition decode_text (s : pystr) (expected_length : option Z) : result bytes :=
  _ ← ensure (nonempty s && forallb Base64.alphabet s) HandshakeError;
  decoded ← (match Base64.decode_padded s with Some b => Ok b | None => Raise HandshakeError end);
  _ ← ensure (bool_decide (_encode decoded = s)) HandshakeError;
  _ ← ensure (match expected_length with Some n => len decoded =? n | None => true end) HandshakeError;
  Ok decoded.

Definition _decode (v : value) (expected_length : option Z) : result bytes :=
  match v with VStr s => decode_text s expected_length | _ => Raise HandshakeError end.

(** [_SESSION_ID_PATTERN] and [_IDENTITY_ID_PATTERN] *)
Definition is_session_id (s : pystr) : bool := matches_class Base64.alphabet 1 128 s.

Definition _session_id (v : value) : result pystr :=
  match v with VStr s => if is_session_id s then Ok s else Raise HandshakeError | _ => Raise HandshakeError end.
Definition _identity_id (v : value) : result pystr :=
  match v with VStr s => if is_session_id s then Ok s else Raise HandshakeError | _ => Raise HandshakeError end.

Definition _canonical (d : object) : result bytes :=
  reraise [TypeError; ValueError] HandshakeError (dump_bytes true false (VDict d)).

(** ** Handshake messages *)

Record ClientHello := mkClientHello {
  c_session_id : pystr;
  c_client_id : pystr;
  c_client_key : pystr;
  c_client_nonce : pystr;
  c_signature : pystr;
  c_version : value
}.

Record ServerHello := mkServerHello {
  s_session_id : pystr;
  s_client_id : pystr;
  s_server_id : pystr;
  s_client_key : pystr;
  s_client_nonce : pystr;
  s_server_key : pystr;
  s_server_nonce : pystr;
  s_signature : pystr;
  s_version : value
}.

(** A validated attribute: the string itself. *)
Definition decoded_text (v : value) (n : option Z) : result pystr :=
  _ ← _decode v n;
  match v with VStr s => Ok s | _ => Raise TypeError end.

(** [_validate_handshake_fields] *)
Definition validate_handshake_fields (version session_id client_id client_key client_nonce : value)
  : result (pystr * pystr * pystr * pystr) :=
  _ ← ensure (eq_int version SECURE_PROTOCOL_VERSION) HandshakeError;
  sid ← _session_id session_id;
  cid ← _identity_id client_id;
  key ← decoded_text client_key (Some 32);
  nonce ← decoded_text client_nonce (Some 32);
  Ok (sid, cid, key, nonce).

(** [ClientHello(...)] *)
Definition client_hello (session_id client_id client_key client_nonce signature version : value)
  : result ClientHello :=
  '(sid, cid, key, nonce) ←
    validate_handshake_fields version session_id client_id client_key client_nonce;
  sig ← decoded_text signature (Some 64);
  Ok (mkClientHello sid cid key nonce sig version).

(** [ServerHello(...)] *)
Definition server_hello (session_id client_id server_id client_key client_nonce server_key server_nonce
    signature version : value) : result ServerHello :=
  '(sid, cid, key, nonce) ←
    validate_handshake_fields version session_id client_id client_key client_nonce;
  server ← _identity_id server_id;
  skey ← decoded_text server_key (Some 32);
  snonce ← decoded_text server_nonce (Some 32);
  sig ← decoded_text signature (Some 64);
  Ok (mkServerHello sid cid server key nonce skey snonce sig version).

(** [ClientHello.unsigned_dict] *)
Definition unsigned_dict (h : ClientHello) : object :=
  [(u "client_ephemeral_public_key", VStr (c_client_key h)); (u "client_id", VStr (c_client_id h));
   (u "client_nonce", VStr (c_client_nonce h)); (u "protocol_version", c_version h);
   (u "session_id", VStr (c_session_id h))].
Definition client_hello_dict (h : ClientHello) : object :=
  unsigned_dict h ++ [(u "signature", VStr (c_signature h))].

(** [ServerHello.transcript_dict] *)
Definition transcript_dict (h : ServerHello) : object :=
  [(u "client_ephemeral_public_key", VStr (s_client_key h)); (u "client_id", VStr (s_client_id h));
   (u "client_nonce", VStr (s_client_nonce h)); (u "protocol_version", s_version h);
   (u "server_ephemeral_public_key", VStr (s_server_key h)); (u "server_id", VStr (s_server_id h));
   (u "server_nonce", VStr (s_server_nonce h)); (u "session_id", VStr (s_session_id h))].
Definition server_hello_dict (h : ServerHello) : object :=
  transcript_dict h ++ [(u "signature", VStr (s_signature h))].

Definition _client_signature_data (h : ClientHello) : result bytes :=
  _canonical ((u "role", VStr (u "client")) :: unsigned_dict h).
Definition _server_signature_data (h : ServerHello) : result bytes :=
  _canonical ((u "role", VStr (u "server")) :: transcript_dict h).
Definition _transcript_hash (h : ServerHello) : result bytes :=
  b ← _canonical (transcript_dict h); Ok (sha256 b).

(** ** The record layer *)

Record SecureSession := mkSecure {
  session_id : pystr;
  send_key : bytes;
  receive_key : bytes;
  send_prefix : bytes;
  receive_prefix : bytes;
  send_sequence : Z;
  receive_sequence : Z;
  closed : bool
}.
Definition with_send_sequence (n : Z) (s : SecureSession) : SecureSession :=
  mkSecure (session_id s) (send_key s) (receive_key s) (send_prefix s) (receive_prefix s) n
    (receive_sequence s) (closed s).
Definition with_receive_sequence (n : Z) (s : SecureSession) : SecureSession :=
  mkSecure (session_id s) (send_key s) (receive_key s) (send_prefix s) (receive_prefix s)
    (send_sequence s) n (closed s).
Definition with_closed (s : SecureSession) : SecureSession :=
  mkSecure (session_id s) (send_key s) (receive_key s) (send_prefix s) (receive_prefix s)
    (send_sequence s) (receive_sequence s) true.

(** [SecureSession(...)] *)
Definition new_session (sid : pystr) (sk rk sp rp : bytes) : result SecureSession :=
  _ ← _session_id (VStr sid);
  _ ← ensure ((len sk =? AEAD_KEY_BYTES) && (len rk =? AEAD_KEY_BYTES)
              && (len sp =? NONCE_PREFIX_BYTES) && (len rp =? NONCE_PREFIX_BYTES)) TypeError;
  Ok (mkSecure sid sk rk sp rp 0 0 false).

Inductive role := Client | Server.

Section Crypto.
Context {SK PK XSK XPK : Type} `{E : Ed25519 SK PK} `{X : X25519 XSK XPK} `{K : HKDF} `{A : AEAD}.

(** [frame["sequence"]] as eight big-endian bytes after the prefix. *)
Definition _nonce (prefix : bytes) (sequence : Z) : bytes := prefix ++ be_bytes 8 sequence.

Definition header (s : SecureSession) (sequence : Z) : object :=
  [(u "protocol_version", VInt SECURE_PROTOCOL_VERSION); (u "sequence", VInt sequence);
   (u "session_id", VStr (session_id s))].

Definition _ensure_open : M SecureSession unit :=
  gets closed ≫= λ c, if c : bool then raise ClosedSessionError else mret tt.

Definition _validate_additional_data (aad : bytes) : result bytes :=
  _ ← ensure (len aad <=? MAX_ADDITIONAL_DATA_BYTES) RecordError; Ok aad.

Definition seal (payload additional_data : bytes) : M SecureSession object :=
  _ensure_open ≫= λ _,
  if MAX_RECORD_BYTES <? len payload then raise RecordError
  else
    lift (_validate_additional_data additional_data) ≫= λ aad,
    gets id ≫= λ s,
    let sequence := send_sequence s in
    if MAX_SEQUENCE <? sequence then raise RecordError
    else
      lift (_canonical (header s sequence)) ≫= λ h,
      let ciphertext := aead_encrypt (send_key s) (_nonce (send_prefix s) sequence) payload (h ++ aad) in
      modify (with_send_sequence (sequence + 1)) ≫= λ _,
      mret (header s sequence ++ [(u "ciphertext", VStr (_encode ciphertext))]).

Definition _decode_record (v : value) : result bytes :=
  reraise [HandshakeError] RecordError (_decode v None).

(** The checks of [open] before the ciphertext is read. *)
Definition frame_sequence (s : SecureSession) (frame : object) : result Z :=
  _ ← ensure (eq_int (get (u "protocol_version") frame) SECURE_PROTOCOL_VERSION
              && eq_str (get (u "session_id") frame) (session_id s)) RecordError;
  match get (u "sequence") frame with
  | VInt sequence =>
    if (0 <=? sequence) && (sequence <=? MAX_SEQUENCE) then
      if sequence =? receive_sequence s then Ok sequence else Raise ReplayError
    else Raise RecordError
  | _ => Raise RecordError
  end.

(** [self._receive_cipher.decrypt(...)] with [InvalidTag] reported as
    [RecordError]. *)
Definition decrypt_record (s : SecureSession) (sequence : Z) (ciphertext aad : bytes) : result bytes :=
  h ← _canonical (header s sequence);
  match aead_decrypt (receive_key s) (_nonce (receive_prefix s) sequence) ciphertext (h ++ aad) with
  | Some payload => Ok payload
  | None => Raise RecordError
  end.

Definition read_record (s : SecureSession) (frame : object) (additional_data : bytes) : result bytes :=
  sequence ← frame_sequence s frame;
  ciphertext ← _decode_record (get (u "ciphertext") frame);
  _ ← ensure (len ciphertext <=? MAX_RECORD_BYTES + 16) RecordError;
  aad ← _validate_additional_data additional_data;
  payload ← decrypt_record s sequence ciphertext aad;
  _ ← ensure (len payload <=? MAX_RECORD_BYTES) RecordError;
  Ok payload.

Definition open (frame : object) (additional_data : bytes) : M SecureSession bytes :=
  _ensure_open ≫= λ _,
  gets id ≫= λ s,
  lift (read_record s frame additional_data) ≫= λ payload,
  modify (λ s, with_receive_sequence (receive_sequence s + 1) s) ≫= λ _,
  mret payload.

Definition close : M SecureSession unit := modify with_closed.

(** ** Key derivation *)

Definition secure_session_from_shared_secret (sid : pystr) (secret transcript : bytes) (r : role)
  : result SecureSession :=
  _ ← _session_id (VStr sid);
  _ ← ensure (len secret =? 32) HandshakeError;
  _ ← ensure (len transcript =? 32) HandshakeError;
  _ ← ensure (existsb (λ b, negb (b =? 0)) secret) HandshakeError;
  let material := hkdf transcript (HKDF_INFO ++ transcript) (AEAD_KEY_BYTES * 2 + NONCE_PREFIX_BYTES * 2) secret in
  let client_key := take 32 material in
  let server_key := take 32 (drop 32 material) in
  let client_prefix := take 4 (drop 64 material) in
  let server_prefix := drop 68 material in
  match r with
  | Client => new_session sid client_key server_key client_prefix server_prefix
  | Server => new_session sid server_key client_key server_prefix client_prefix
  end.

Definition _derive_session (r : role) (sid client_key : pystr) (own : XSK) (server_key : pystr)
    (transcript : bytes) : result SecureSession :=
  secret ← reraise [ValueError; HandshakeError] HandshakeError
    (peer ← _decode (VStr (match r with Client => server_key | Server => client_key end)) (Some 32);
     x_exchange own (x_from_raw peer));
  _ ← ensure (existsb (λ b, negb (b =? 0)) secret) HandshakeError;
  secure_session_from_shared_secret sid secret transcript r.

(** ** The handshake *)

Record SecureIdentity := mkIdentity { identity_id : pystr; private_key : SK }.

(** [SecureIdentity(...)] *)
Definition check_identity (i : SecureIdentity) : result SecureIdentity :=
  _ ← _identity_id (VStr (identity_id i)); Ok i.

Definition public_key_b64 (i : SecureIdentity) : pystr := _encode (ed_raw (ed_public (private_key i))).

(** [session_id or _encode(secrets.token_bytes(16))] *)
Definition chosen_session_id (session_id : option pystr) (drawn : bytes) : pystr :=
  match session_id with
  | Some s => if nonempty s then s else _encode drawn
  | None => _encode drawn
  end.

Definition create_client_hello (i : SecureIdentity) (session_id : option pystr) (drawn : bytes)
    (ephemeral : XSK) (nonce : bytes) : result (ClientHello * XSK) :=
  _ ← ensure (len nonce =? NONCE_BYTES) HandshakeError;
  sid ← _session_id (VStr (chosen_session_id session_id drawn));
  unsigned ← client_hello (VStr sid) (VStr (identity_id i)) (VStr (_encode (x_raw (x_public ephemeral))))
    (VStr (_encode nonce)) (VStr (repeat 65 86)) (VInt SECURE_PROTOCOL_VERSION);
  data ← _client_signature_data unsigned;
  signed ← client_hello (VStr (c_session_id unsigned)) (VStr (c_client_id unsigned))
    (VStr (c_client_key unsigned)) (VStr (c_client_nonce unsigned))
    (VStr (_encode (ed_sign (private_key i) data))) (c_version unsigned);
  Ok (signed, ephemeral).

(** [public_key.verify(_decode(signature), data)] *)
Definition verify_signature (pk : PK) (signature : pystr) (data : result bytes) : result unit :=
  reraise [InvalidSignature; HandshakeError] HandshakeError
    (s ← _decode (VStr signature) (Some 64);
     d ← data;
     ensure (ed_verify pk s d) InvalidSignature).

Definition create_server_hello (i : SecureIdentity) (hello : ClientHello) (client_public_key : PK)
    (ephemeral : XSK) (nonce : bytes) : result (ServerHello * SecureSession) :=
  _ ← verify_signature client_public_key (c_signature hello) (_client_signature_data hello);
  _ ← ensure (len nonce =? NONCE_BYTES) HandshakeError;
  let unsigned := mkServerHello (c_session_id hello) (c_client_id hello) (identity_id i)
    (c_client_key hello) (c_client_nonce hello) (_encode (x_raw (x_public ephemeral))) (_encode nonce) []
    (c_version hello) in
  data ← _server_signature_data unsigned;
  signed ← server_hello (VStr (s_session_id unsigned)) (VStr (s_client_id unsigned))
    (VStr (s_server_id unsigned)) (VStr (s_client_key unsigned)) (VStr (s_client_nonce unsigned))
    (VStr (s_server_key unsigned)) (VStr (s_server_nonce unsigned))
    (VStr (_encode (ed_sign (private_key i) data))) (s_version unsigned);
  transcript ← _transcript_hash signed;
  session ← _derive_session Server (s_session_id signed) (c_client_key hello) ephemeral
    (s_server_key signed) transcript;
  Ok (signed, session).

(** The response answers this very hello. *)
Definition bound_to (hello : ClientHello) (response : ServerHello) : bool :=
  bool_decide (s_session_id response = c_session_id hello) && bool_decide (s_client_id response = c_client_id hello)
  && bool_decide (s_client_key response = c_client_key hello)
  && bool_decide (s_client_nonce response = c_client_nonce hello).

Definition complete_client_handshake (i : SecureIdentity) (hello : ClientHello) (ephemeral : XSK)
    (response : ServerHello) (server_public_key : PK) (expected_server_id : option pystr)
  : result SecureSession :=
  _ ← ensure (bool_decide (c_client_id hello = identity_id i)) HandshakeError;
  _ ← match expected_server_id with
      | None => Ok tt
      | Some e => _ ← _identity_id (VStr e); ensure (bool_decide (s_server_id response = e)) HandshakeError
      end;
  _ ← ensure (bound_to hello response) HandshakeError;
  _ ← ensure (bool_decide (_encode (x_raw (x_public ephemeral)) = c_client_key hello)) HandshakeError;
  _ ← verify_signature server_public_key (s_signature response) (_server_signature_data response);
  transcript ← _transcript_hash response;
  _derive_session Client (s_session_id response) (c_client_key hello) ephemeral (s_server_key response) transcript.
End Crypto.

Section Lemmas.
Context {SK PK XSK XPK : Type} `{E : Ed25519 SK PK} `{X : X25519 XSK XPK} `{K : HKDF} `{A : AEAD}.

(** ** Texts *)

Lemma alphabet_text s : forallb Base64.alphabet s = true → Forall ascii s.
Proof.
  intros H. apply Forall_forall. intros c Hc%list_elem_of_In. rewrite forallb_forall in H. apply H in Hc.
  unfold Base64.alphabet, ascii_alnum, ascii_alpha, ascii_upper, ascii_lower, ascii_digit, ascii in *. lia.
Qed.

Lemma encode_nonempty b : b ≠ [] → nonempty (_encode b) = true.
Proof. destruct b as [|x [|y [|z b]]]; done. Qed.

Lemma decode_text_encode b n :
  Forall is_octet b → b ≠ [] → (∀ k, n = Some k → len b = k) → decode_text (_encode b) n = Ok b.
Proof.
  intros Hb Hne Hn. unfold decode_text. rewrite encode_nonempty by done. unfold _encode at 1 2.
  rewrite Base64.encode_alphabet, Base64.decode_encode by done. cbn [andb ensure mbind result_bind].
  rewrite bool_decide_true by done. destruct n as [k|]; [|done].
  by rewrite (Hn k eq_refl), Z.eqb_refl.
Qed.

Lemma decode_text_ok s n b :
  decode_text s n = Ok b → s = _encode b ∧ Forall ascii s ∧ ∀ k, n = Some k → len b = k.
Proof.
  unfold decode_text. intros. result_inv; reflect;
    (split_and!; [done|by apply alphabet_text|intros k Hk; by simplify_eq]).
Qed.

Lemma session_id_text s : is_session_id s = true → Forall ascii s.
Proof. unfold is_session_id, matches_class. intros. reflect. by apply alphabet_text. Qed.

Lemma _session_id_ok v s : _session_id v = Ok s → v = VStr s ∧ is_session_id s = true.
Proof. destruct v; try done. simpl. case_match; [|done]. by intros [= <-]. Qed.
Lemma _identity_id_ok v s : _identity_id v = Ok s → v = VStr s ∧ is_session_id s = true.
Proof. apply _session_id_ok. Qed.
Lemma decoded_text_ok v n s :
  decoded_text v n = Ok s → v = VStr s ∧ ∃ b, decode_text s n = Ok b.
Proof. unfold decoded_text. intros. destruct v; try done. simpl in *. result_inv. eauto. Qed.

Lemma canonical_ascii d : value_ascii (VDict d) → ∃ b, _canonical d = Ok b.
Proof.
  intros H. destruct (dump_bytes_ascii true false _ H) as (b & Hb & _). exists b. unfold _canonical. by rewrite Hb.
Qed.
Lemma canonical_raises d e : _canonical d = Raise e → e = HandshakeError.
Proof.
  unfold _canonical, reraise. destruct (dump_bytes _ _ _) eqn:Ed; [done|].
  by rewrite (dump_bytes_raises _ _ _ _ Ed); intros [= <-].
Qed.

(** ** Invariant of a session *)

Record session_ok (s : SecureSession) : Prop := {
  ok_id : is_session_id (session_id s) = true;
  ok_prefix : len (send_prefix s) = NONCE_PREFIX_BYTES ∧ len (receive_prefix s) = NONCE_PREFIX_BYTES;
  ok_keys : len (send_key s) = AEAD_KEY_BYTES ∧ len (receive_key s) = AEAD_KEY_BYTES;
  ok_send : 0 <= send_sequence s <= MAX_SEQUENCE + 1;
  ok_receive : 0 <= receive_sequence s <= MAX_SEQUENCE + 1
}.

Lemma new_session_ok sid sk rk sp rp s :
  new_session sid sk rk sp rp = Ok s → s = mkSecure sid sk rk sp rp 0 0 false ∧ session_ok s.
Proof.
  unfold new_session, mbind, result_bind. destruct (_session_id _) as [x|] eqn:Es; [|done].
  apply _session_id_ok in Es as [[= <-] Hid]. intros. result_inv. reflect. split; [done|]. by split.
Qed.

Lemma header_canonical s n :
  is_session_id (session_id s) = true → 0 <= n <= MAX_SEQUENCE → ∃ h, _canonical (header s n) = Ok h.
Proof.
  intros Hid Hn. change MAX_SEQUENCE with (2 ^ 64 - 1) in Hn. apply canonical_ascii. cbn [value_text header].
  split_and!; try (by apply session_id_text); try (apply small_int_ascii; unfold SECURE_PROTOCOL_VERSION; lia); done.
Qed.

(** ** Records *)

(** The frame [seal] builds at sequence number [n]. *)
Definition record_of (s : SecureSession) (n : Z) (h p aad : bytes) : object :=
  header s n ++ [(u "ciphertext", VStr (_encode (aead_encrypt (send_key s) (_nonce (send_prefix s) n) p (h ++ aad))))].

Lemma seal_run s p aad s' r :
  session_ok s → seal p aad s = (s', r) →
  (∃ h, closed s = false ∧ len p <= MAX_RECORD_BYTES ∧ len aad <= MAX_ADDITIONAL_DATA_BYTES ∧
     send_sequence s <= MAX_SEQUENCE ∧ _canonical (header s (send_sequence s)) = Ok h ∧ r = Ok (record_of s (send_sequence s) h p aad) ∧
     s' = with_send_sequence (send_sequence s + 1) s) ∨
  (s' = s ∧ ∃ e, r = Raise e ∧ is_a e RecordError = true).
Proof.
  intros Hs. unfold seal, _ensure_open, _validate_additional_data, lift, gets, modify, raise, mret, M_ret, mbind, M_bind.
  destruct (closed s) eqn:Ec; [intros [= <- <-]; right; eauto|].
  destruct (MAX_RECORD_BYTES <? len p) eqn:Ep; [intros [= <- <-]; right; eauto|].
  unfold ensure, result_bind. destruct (len aad <=? _) eqn:Ea; [|intros [= <- <-]; right; eauto]. cbn [id].
  destruct (MAX_SEQUENCE <? send_sequence s) eqn:Eq; [intros [= <- <-]; right; eauto|]. reflect.
  destruct (header_canonical s (send_sequence s)) as [h Hh]; [apply Hs|split; [apply Hs|done]|].
  rewrite Hh. intros [= <- <-]. left. exists h. by split_and!.
Qed.

Lemma decode_text_raises s n : raises_only (λ e, e = HandshakeError) (decode_text s n).
Proof. unfold decode_text. repeat raises_step; done. Qed.

Lemma decode_record_raises v : raises_only (λ e, e = RecordError) (_decode_record v).
Proof.
  unfold _decode_record, reraise, _decode. destruct v; try (by intros ? [= <-]).
  destruct (decode_text s None) as [|e] eqn:Ed; [apply raises_only_ok|].
  apply decode_text_raises in Ed as ->. by intros ? [= <-].
Qed.

Lemma frame_sequence_ok s f n :
  frame_sequence s f = Ok n → n = receive_sequence s ∧ 0 <= n <= MAX_SEQUENCE ∧
    get (u "sequence") f = VInt n ∧ get (u "session_id") f = VStr (session_id s).
Proof.
  unfold frame_sequence. intros. result_inv. reflect. split_and!; try done.
  unfold eq_str in *. case_match; try done. reflect. by f_equal.
Qed.

Lemma frame_sequence_raises s f : raises_only (λ e, is_a e RecordError = true) (frame_sequence s f).
Proof. unfold frame_sequence. repeat raises_step; done. Qed.

Lemma decrypt_record_raises s n c aad :
  is_session_id (session_id s) = true → 0 <= n <= MAX_SEQUENCE →
  raises_only (λ e, e = RecordError) (decrypt_record s n c aad).
Proof.
  intros Hid Hn. unfold decrypt_record. destruct (header_canonical s n Hid Hn) as [h ->]. cbn [mbind result_bind].
  case_match; [apply raises_only_ok|by apply raises_only_raise].
Qed.

Lemma read_record_raises s f aad :
  is_session_id (session_id s) = true → raises_only (λ e, is_a e RecordError = true) (read_record s f aad).
Proof.
  intros Hid. unfold read_record, _validate_additional_data.
  destruct (frame_sequence s f) as [n|] eqn:En; cbn [mbind result_bind];
    [|intros ? [= <-]; by eapply frame_sequence_raises].
  apply frame_sequence_ok in En as (_ & Hn & _).
  repeat raises_step; try done;
    (eapply raises_only_weaken; [by first [apply decode_record_raises|apply decrypt_record_raises]|by intros e ->]).
Qed.

Lemma open_run s f aad s' r :
  session_ok s → open f aad s = (s', r) →
  (∃ p, closed s = false ∧ read_record s f aad = Ok p ∧ receive_sequence s <= MAX_SEQUENCE ∧ r = Ok p ∧
     s' = with_receive_sequence (receive_sequence s + 1) s) ∨
  (s' = s ∧ ∃ e, r = Raise e ∧ is_a e RecordError = true).
Proof.
  intros Hs. unfold open, _ensure_open, lift, gets, modify, raise, mret, M_ret, mbind, M_bind.
  destruct (closed s) eqn:Ec; [intros [= <- <-]; right; eauto|]. cbn [id].
  destruct (read_record s f aad) as [p|e] eqn:Er; intros [= <- <-].
  - left. exists p. split_and!; try done. unfold read_record in Er. unfold mbind, result_bind in Er.
    destruct (frame_sequence s f) as [n|] eqn:En; [|done]. apply frame_sequence_ok in En as (-> & Hn & _). lia.
  - right. split; [done|]. exists e. split; [done|]. by eapply read_record_raises; [apply Hs|].
Qed.

Lemma keeps_seal p aad : keeps session_ok (seal p aad).
Proof.
  intros s Hs. apply wp_intro. intros s' r Hr. apply seal_run in Hr as [(h & _ & _ & _ & Hq & _ & _ & ->)|[-> _]]; [|done|done].
  destruct Hs as [? ? ? [? ?] ?]. split; try done. simpl. lia.
Qed.

Lemma keeps_open f aad : keeps session_ok (open f aad).
Proof.
  intros s Hs. apply wp_intro. intros s' r Hr. apply open_run in Hr as [(p & _ & _ & Hq & _ & ->)|[-> _]]; [|done|done].
  destruct Hs as [? ? ? ? [? ?]]. split; try done. simpl. lia.
Qed.

Lemma keeps_close : keeps session_ok close.
Proof. apply keeps_modify. by intros s [? ? ? ? ?]. Qed.

(** ** Matching endpoints *)

(** What [a] sends [b] can read. *)
Record reads (b a : SecureSession) : Prop := {
  rd_id : session_id b = session_id a;
  rd_key : receive_key b = send_key a;
  rd_prefix : receive_prefix b = send_prefix a
}.

Context {HA : AEADLaws A}.

(** The record [a] sealed at the number [b] expects is read back. *)
Lemma read_record_of a b h p aad :
  reads b a → is_session_id (session_id a) = true → 0 <= receive_sequence b <= MAX_SEQUENCE →
  _canonical (header a (receive_sequence b)) = Ok h → Forall is_octet p →
  len p <= MAX_RECORD_BYTES → len aad <= MAX_ADDITIONAL_DATA_BYTES →
  read_record b (record_of a (receive_sequence b) h p aad) aad = Ok p.
Proof using HA.
  intros [Hid Hk Hp] Hok Hn Hh Ho Hl Ha. set (n := receive_sequence b) in *.
  set (c := aead_encrypt (send_key a) (_nonce (send_prefix a) n) p (h ++ aad)).
  assert (frame_sequence b (record_of a n h p aad) = Ok n) as Hf.
  { unfold frame_sequence. change (get (u "protocol_version") _) with (VInt 2).
    change (get (u "session_id") _) with (VStr (session_id a)).
    change (get (u "sequence") _) with (VInt n). rewrite Hid.
    unfold eq_str. rewrite bool_decide_true by done. cbn [eq_int andb]. 
    rewrite (proj2 (Z.leb_le 0 n)), (proj2 (Z.leb_le n MAX_SEQUENCE)) by lia. fold n. by rewrite Z.eqb_refl. }
  assert (len c = len p + 16) as Hc by apply aead_encrypt_len.
  assert (_decode_record (get (u "ciphertext") (record_of a n h p aad)) = Ok c) as Hd.
  { change (get (u "ciphertext") _) with (VStr (_encode c)). unfold _decode_record, _decode.
    rewrite decode_text_encode; [done|by apply aead_encrypt_octets| |done].
    intros E0. rewrite E0 in Hc. pose proof (len_nonneg p). autorewrite with len in Hc. lia. }
  assert ((len c <=? MAX_RECORD_BYTES + 16) = true) as H1 by (apply Z.leb_le; lia).
  assert ((len p <=? MAX_RECORD_BYTES) = true) as H2 by by apply Z.leb_le.
  assert ((len aad <=? MAX_ADDITIONAL_DATA_BYTES) = true) as H3 by by apply Z.leb_le.
  unfold read_record, ensure, _validate_additional_data, decrypt_record, ensure.
  rewrite Hf, H3. cbn [mbind result_bind]. rewrite Hd. cbn [mbind result_bind]. rewrite H1. cbn [mbind result_bind].
  replace (header b n) with (header a n) by (unfold header; by rewrite Hid). rewrite Hh. cbn [mbind result_bind].
  rewrite Hk, Hp. unfold c. rewrite aead_decrypt_encrypt. cbn [mbind result_bind]. by rewrite H2.
Qed.
End Lemmas.

(** ** One direction of the channel

    A sender and a receiver of matching keys, joined by a network that keeps
    every sealed frame and delivers frames in any order, any number of times,
    or not at all; it may also deliver any frame the authenticated decryption
    refuses. *)

Record link := mkLink {
  sender : SecureSession;
  receiver : SecureSession;
  wire : list object;
  sent : list bytes;
  received : list bytes
}.

Definition add_ok {T} (l : list T) (r : result T) : list T := match r with Ok x => l ++ [x] | Raise _ => l end.

Section Link.
Context `{K : HKDF} `{A : AEAD} {HA : AEADLaws A} (aad : bytes).

(** The decryption of a frame that was not sealed by the peer fails. *)
Definition refused (s : SecureSession) (f : object) : Prop :=
  ∀ n c h, frame_sequence s f = Ok n → _decode_record (get (u "ciphertext") f) = Ok c →
    _canonical (header s n) = Ok h →
    aead_decrypt (receive_key s) (_nonce (receive_prefix s) n) c (h ++ aad) = None.

Inductive link_step (l : link) : link → Prop :=
| link_send p s' r :
    Forall is_octet p → seal p aad (sender l) = (s', r) →
    link_step l (mkLink s' (receiver l) (add_ok (wire l) r) (match r with Ok _ => sent l ++ [p] | Raise _ => sent l end)
                   (received l))
| link_deliver f s' r :
    f ∈ wire l → open f aad (receiver l) = (s', r) →
    link_step l (mkLink (sender l) s' (wire l) (sent l) (add_ok (received l) r))
| link_inject f s' r :
    refused (receiver l) f → open f aad (receiver l) = (s', r) →
    link_step l (mkLink (sender l) s' (wire l) (sent l) (add_ok (received l) r))
| link_close_sender : link_step l (mkLink (with_closed (sender l)) (receiver l) (wire l) (sent l) (received l))
| link_close_receiver : link_step l (mkLink (sender l) (with_closed (receiver l)) (wire l) (sent l) (received l)).

Definition new_link (a b : SecureSession) : link := mkLink a b [] [] [].

(** *** What it implements: a first-in first-out queue *)

Record fifo := mkFifo { put : list bytes; got : list bytes }.
Inductive fifo_step (q : fifo) : fifo → Prop :=
| fifo_put p : fifo_step q (mkFifo (put q ++ [p]) (got q))
| fifo_get p : put q !! length (got q) = Some p → fifo_step q (mkFifo (put q) (got q ++ [p])).

Definition queue_of (l : link) : fifo := mkFifo (sent l) (received l).

(** [f] is the record number [i], of payload [p]. *)
Definition record_at (s : SecureSession) (i : nat) (f : object) (p : bytes) : Prop :=
  ∃ h, _canonical (header s (Z.of_nat i)) = Ok h ∧ f = record_of s (Z.of_nat i) h p aad ∧
    Forall is_octet p ∧ len p <= MAX_RECORD_BYTES ∧ len aad <= MAX_ADDITIONAL_DATA_BYTES.

Definition wire_ok (l : link) : Prop :=
  length (wire l) = length (sent l) ∧
  ∀ i f, wire l !! i = Some f → ∃ p, sent l !! i = Some p ∧ record_at (sender l) i f p.

Record link_ok (l : link) : Prop := {
  l_sender : session_ok (sender l);
  l_receiver : session_ok (receiver l);
  l_reads : reads (receiver l) (sender l);
  l_sent : send_sequence (sender l) = len (sent l);
  l_received : receive_sequence (receiver l) = len (received l);
  l_wire : wire_ok l
}.
Lemma record_of_length l i f : wire_ok l → wire l !! i = Some f → get (u "sequence") f = VInt (Z.of_nat i).
Proof. intros [_ Hw] Hf. by destruct (Hw i f Hf) as (p & _ & h & _ & -> & _). Qed.

(** Delivering a frame of the wire that is accepted yields the next payload. *)
Lemma deliver_next l f p s' :
  link_ok l → f ∈ wire l → open f aad (receiver l) = (s', Ok p) → sent l !! length (received l) = Some p.
Proof using HA.
  intros [Hs Hr Hrd Hse Hre Hw] (i & Hf)%list_elem_of_lookup Ho.
  apply open_run in Ho as [(p' & _ & Hp & Hq & [= <-] & _)|[_ (e & [=] & _)]]; [|done].
  pose proof (record_of_length l i f Hw Hf) as Hseq. destruct Hw as [_ Hw].
  destruct (Hw i f Hf) as (p' & Hp' & h & Hh & -> & Ho & Hl & Ha).
  assert (receive_sequence (receiver l) = Z.of_nat i) as Hi.
  { unfold read_record in Hp. unfold mbind, result_bind in Hp.
    destruct (frame_sequence _ _) as [n|] eqn:En; [|done]. apply frame_sequence_ok in En as (-> & _ & Hg & _).
    rewrite Hseq in Hg. by injection Hg. }
  rewrite <- Hi in Hp, Hh. rewrite (read_record_of (sender l)) in Hp; try done.
  - injection Hp as <-. assert (length (received l) = i) as ->; [|done].
    unfold len in Hre. lia.
  - apply Hs.
  - split; [apply Hr|done].
Qed.

Lemma inject_refused s f p s' : refused s f → open f aad s = (s', Ok p) → session_ok s → False.
Proof.
  intros Hf Ho Hs. apply open_run in Ho as [(p' & _ & Hp & _)|[_ (e & [=] & _)]]; [|done].
  unfold read_record in Hp. unfold mbind, result_bind in Hp.
  destruct (frame_sequence s f) as [n|] eqn:En; [|done].
  destruct (_decode_record _) as [c|] eqn:Ec; [|done].
  destruct (ensure _ _); [|done].
  unfold _validate_additional_data, mbind, result_bind in Hp. destruct (ensure (len aad <=? _) _); [|done].
  unfold decrypt_record, mbind, result_bind in Hp. destruct (_canonical _) as [h|] eqn:Eh; [|done].
  by rewrite (Hf n c h) in Hp.
Qed.

Lemma record_at_same s s' i f p :
  session_id s' = session_id s → send_key s' = send_key s → send_prefix s' = send_prefix s →
  record_at s i f p → record_at s' i f p.
Proof.
  intros H1 H2 H3 (h & Hh & -> & ? & ? & ?). exists h. unfold record_of, header in *. rewrite H1, H2, H3. by split_and!.
Qed.

Lemma link_step_ok l l' : link_ok l → link_step l l' → link_ok l' ∧ rtc fifo_step (queue_of l) (queue_of l').
Proof using HA.
  intros Hl Hstep. pose proof Hl as [Hs Hr Hrd Hse Hre [Hlen Hw]].
  destruct Hstep as [p s' r Ho Hrun|f s' r Hin Hrun|f s' r Hf Hrun| |]; unfold queue_of; cbn [sent received].
  - pose proof (keeps_seal p aad (sender l) Hs) as Hs'. unfold wp in Hs'. rewrite Hrun in Hs'.
    apply seal_run in Hrun as [(h & _ & Hp & Ha & Hq & Hh & -> & ->)|[-> (e & -> & _)]]; [|by split|done].
    split; [|by apply rtc_once, fifo_put]. cbn [add_ok]. split; cbn [sender receiver wire sent received]; try done.
    + by destruct Hrd.
    + autorewrite with len. simpl. lia.
    + split; cbn [wire sent sender]; [rewrite !length_app; simpl; lia|]. intros i f Hf.
      apply lookup_snoc_Some in Hf as [[Hlt Hf]|[-> <-]].
      * destruct (Hw i f Hf) as (q & Hq' & Hat). exists q. split; [by apply lookup_app_l_Some|].
        by eapply record_at_same; [..|exact Hat].
      * exists p. rewrite Hlen. split; [by apply list_lookup_middle|]. exists h.
        unfold len in Hse. rewrite <- Hse. by split_and!.
  - pose proof (keeps_open f aad (receiver l) Hr) as Hr'. unfold wp in Hr'. rewrite Hrun in Hr'. simpl in Hr'.
    destruct r as [p|e]; cbn [add_ok].
    + pose proof (deliver_next l f p s' Hl Hin Hrun) as Hnext.
      split; [|by apply rtc_once, fifo_get].
      apply open_run in Hrun as [(p' & _ & _ & _ & _ & ->)|[_ (e & [=] & _)]]; [|done].
      split; cbn [sender receiver wire sent received]; try done.
      * by destruct Hrd.
      * autorewrite with len. simpl. lia.
    + apply open_run in Hrun as [(p' & _ & _ & _ & [=] & _)|[-> _]]; [|done]. by split.
  - destruct r as [p|e]; [exfalso; by eapply inject_refused|]. cbn [add_ok].
    apply open_run in Hrun as [(p' & _ & _ & _ & [=] & _)|[-> _]]; [|done]. by split.
  - split; [|done]. split; [by destruct Hs|done|by destruct Hrd|done|done|].
    split; [done|]. intros i f Hf. destruct (Hw i f Hf) as (q & ? & Hat). exists q.
    split; [done|]. by eapply record_at_same; [..|exact Hat].
  - split; [|done]. split; [done|by destruct Hr|by destruct Hrd|done..].
Qed.

Lemma new_link_ok a b :
  session_ok a → session_ok b → reads b a → send_sequence a = 0 → receive_sequence b = 0 → link_ok (new_link a b).
Proof. intros. split; try done. Qed.

Lemma fifo_prefix q q' : rtc fifo_step q q' → got q `prefix_of` put q → got q' `prefix_of` put q'.
Proof.
  induction 1 as [|q1 q2 q3 Hstep _ IH]; [done|]. intros Hp. apply IH.
  destruct Hstep as [p|p Hl]; simpl; [by apply prefix_app_r|].
  destruct Hp as [k Hk]. rewrite Hk in Hl |- *. rewrite lookup_app_r, Nat.sub_diag in Hl by lia.
  destruct k as [|x k]; [done|]. injection Hl as ->. exists k. by rewrite <- app_assoc.
Qed.

(** C20: The record layer refines a first-in first-out queue: whatever the
    network reorders, repeats, drops or injects, every run of the two endpoints
    is a run of the queue, so the receiver has read, in order, a prefix of the
    payloads that were sealed, none of them twice. *)
Theorem channel_refines_fifo a b l
    (Ha : session_ok a) (Hb : session_ok b) (Hreads : reads b a)
    (Hsend : send_sequence a = 0) (Hreceive : receive_sequence b = 0)
    (Hrun : rtc link_step (new_link a b) l) :
  rtc fifo_step (mkFifo [] []) (queue_of l) ∧ received l `prefix_of` sent l.
Proof using HA.
  assert (∀ l0, link_ok l0 → rtc link_step l0 l → rtc fifo_step (queue_of l0) (queue_of l)) as Hsim.
  { intros l0 Hok Hr. induction Hr as [|l1 l2 l3 Hstep _ IH]; [done|].
    destruct (link_step_ok l1 l2 Hok Hstep) as [Hok' Hq]. etransitivity; [exact Hq|by apply IH]. }
  assert (rtc fifo_step (mkFifo [] []) (queue_of l)) as Hq by by apply (Hsim (new_link a b)); [apply new_link_ok|].
  split; [done|]. by apply (fifo_prefix _ _ Hq).
Qed.
End Link.

(** ** Nonces *)

(** A call on a session, and what it put on the wire. *)
Inductive session_call := CallSeal (p aad : bytes) | CallOpen (f : object) (aad : bytes) | CallClose.

Section Nonces.
Context `{K : HKDF} `{A : AEAD}.

(** What a call put on the wire: the payload, the additional data and the frame. *)
Definition run_session (c : session_call) (s : SecureSession) : SecureSession * list (bytes * bytes * object) :=
  match c with
  | CallSeal p aad => let '(s', r) := seal p aad s in (s', match r with Ok f => [(p, aad, f)] | Raise _ => [] end)
  | CallOpen f aad => ((open f aad s).1, [])
  | CallClose => ((close s).1, [])
  end.

(** The frames of a list of calls, and the session after them. *)
Fixpoint frames_of (calls : list session_call) (s : SecureSession) : list (bytes * bytes * object) * SecureSession :=
  match calls with
  | [] => ([], s)
  | c :: cs => let '(s', fs) := run_session c s in let '(rest, s'') := frames_of cs s' in (fs ++ rest, s'')
  end.

(** The ciphertext in the frame is what the cipher makes of the payload under
    the key, the nonce of the number the frame carries, and the additional data
    after a header. *)
Definition encrypted_under (key prefix : bytes) (sent : bytes * bytes * object) (n : Z) : Prop :=
  get (u "sequence") sent.2 = VInt n ∧
  ∃ h, get (u "ciphertext") sent.2 = VStr (_encode (aead_encrypt key (_nonce prefix n) sent.1.1 (h ++ sent.1.2))).

Lemma nonce_inj p i j :
  0 <= i <= MAX_SEQUENCE → 0 <= j <= MAX_SEQUENCE → _nonce p i = _nonce p j → i = j.
Proof.
  change MAX_SEQUENCE with (2 ^ 64 - 1). unfold _nonce. intros Hi Hj He%app_inv_head.
  apply (be_bytes_inj 8) in He; [done|..]; change (256 ^ Z.of_nat 8) with (2 ^ 64); lia.
Qed.

Lemma record_encrypted s n h p aad : encrypted_under (send_key s) (send_prefix s) (p, aad, record_of s n h p aad) n.
Proof. split; [done|]. by exists h. Qed.

Lemma run_session_ok c s :
  session_ok s →
  let out := run_session c s in
  session_ok out.1 ∧ send_prefix out.1 = send_prefix s ∧ send_key out.1 = send_key s ∧
  ((out.2 = [] ∧ send_sequence out.1 = send_sequence s) ∨
   (∃ sent, out.2 = [sent] ∧ encrypted_under (send_key s) (send_prefix s) sent (send_sequence s) ∧
    send_sequence s <= MAX_SEQUENCE ∧ send_sequence out.1 = send_sequence s + 1)).
Proof.
  intros Hs. destruct c as [p aad|f aad|]; simpl.
  - pose proof (keeps_seal p aad s Hs) as Hk. unfold wp in Hk. destruct (seal p aad s) as [s' r] eqn:Er. simpl in *.
    apply seal_run in Er as [(h & _ & _ & _ & Hq & _ & -> & ->)|[-> (e & -> & _)]]; [..|done]; (split_and!; [done..|]).
    + right. eexists. split_and!; [done|apply record_encrypted|done|done].
    + by left.
  - pose proof (keeps_open f aad s Hs) as Hk. unfold wp in Hk. destruct (open f aad s) as [s' r] eqn:Er. simpl in *.
    apply open_run in Er as [(p & _ & _ & _ & _ & ->)|[-> _]]; [..|done]; (split_and!; [done..|]); by left.
  - split_and!; [by destruct Hs|done|done|by left].
Qed.

(** The numbers a session seals under from now on. *)
Lemma frames_of_spec calls : ∀ s, session_ok s →
  ∃ ns, Forall2 (encrypted_under (send_key s) (send_prefix s)) (frames_of calls s).1 ns ∧
    NoDup (_nonce (send_prefix s) <$> ns) ∧ Forall (λ n, send_sequence s <= n <= MAX_SEQUENCE) ns.
Proof.
  induction calls as [|c calls IH]; intros s Hs; simpl; [by exists []; repeat constructor|].
  destruct (run_session_ok c s Hs) as (Hs' & Hp & Hk & Hcase). destruct (run_session c s) as [s' fs]. simpl in *.
  destruct (IH s' Hs') as (ns & Hf & Hnd & Hin). destruct (frames_of calls s') as [rest s'']. simpl in *. rewrite Hp, Hk in *.
  pose proof (ok_send _ Hs). destruct Hcase as [[-> Hseq]|(sent & -> & He & Hmax & Hseq)]; rewrite Hseq in Hin; [by exists ns|].
  exists (send_sequence s :: ns). csimpl. split_and!.
  - by constructor.
  - apply NoDup_cons. split; [|done]. intros (i & Hi & Hn)%list_elem_of_fmap. rewrite Forall_forall in Hin.
    apply Hin in Hn. apply nonce_inj in Hi; lia.
  - constructor; [lia|]. eapply Forall_impl; [exact Hin|]. intros n Hn. cbn beta in Hn. lia.
Qed.

(** C24: Over any calls on a session the cipher never encrypts twice under the
    same nonce: the ciphertext of every frame the session put on the wire is
    what the cipher makes of the payload under the session's key and the nonce
    of one 64-bit number, the one the frame carries, and the nonces of two
    frames are never the same; sealing stops, rather than wrap around, when the
    numbers are exhausted. *)
Theorem nonces_never_repeat calls s (Hs : session_ok s) :
  ∃ ns, Forall2 (encrypted_under (send_key s) (send_prefix s)) (frames_of calls s).1 ns ∧
    NoDup (_nonce (send_prefix s) <$> ns) ∧ Forall (λ n, 0 <= n <= MAX_SEQUENCE) ns.
Proof.
  destruct (frames_of_spec calls s Hs) as (ns & Hf & Hnd & Hin). exists ns. split_and!; [done..|].
  eapply Forall_impl; [exact Hin|]. intros n Hn. pose proof (ok_send _ Hs). cbn beta in Hn. lia.
Qed.

(** Sealing and opening always return or raise an error of the
    [RecordError] family; a refused record leaves the session as it was, an
    accepted one moves exactly its sequence number. *)
Theorem records_total s p f aad (Hs : session_ok s) :
  match seal p aad s with
  | (s', Ok _) => s' = with_send_sequence (send_sequence s + 1) s
  | (s', Raise e) => s' = s ∧ is_a e RecordError = true
  end ∧
  match open f aad s with
  | (s', Ok q) => s' = with_receive_sequence (receive_sequence s + 1) s ∧ read_record s f aad = Ok q
  | (s', Raise e) => s' = s ∧ is_a e RecordError = true
  end.
Proof.
  split.
  - destruct (seal p aad s) as [s' r] eqn:Er.
    apply seal_run in Er as [(h & _ & _ & _ & _ & _ & -> & ->)|[-> (e & -> & He)]]; done.
  - destruct (open f aad s) as [s' r] eqn:Er.
    apply open_run in Er as [(q & _ & Hq & _ & -> & ->)|[-> (e & -> & He)]]; done.
Qed.

Context {HA : AEADLaws A}.

(** The next record a peer sealed is read back: opening inverts sealing
    as long as the receiver is open and expects that number, and both ends
    stay in step. *)
Theorem open_seal a b p aad a' f (Ha : session_ok a) (Hb : session_ok b) (Hreads : reads b a)
    (Hstep : receive_sequence b = send_sequence a) (Hopen : closed b = false) (Hp : Forall is_octet p)
    (Hseal : seal p aad a = (a', Ok f)) :
  ∃ b', open f aad b = (b', Ok p) ∧ reads b' a' ∧ receive_sequence b' = send_sequence a'.
Proof using HA.
  apply seal_run in Hseal as [(h & _ & Hl & Haad & Hq & Hh & [= ->] & ->)|[_ (e & [=] & _)]]; [|done].
  exists (with_receive_sequence (receive_sequence b + 1) b). split_and!; [|by destruct Hreads|simpl; lia].
  unfold open, _ensure_open, lift, gets, modify, raise, mret, M_ret, mbind, M_bind. rewrite Hopen. cbn [id].
  rewrite <- Hstep in Hh |- *. rewrite (read_record_of a); try done; [apply Ha|].
  rewrite Hstep. split; [apply Ha|done].
Qed.
End Nonces.

(** ** The handshake *)

Section Handshake.
Context {SK PK XSK XPK : Type} `{E : Ed25519 SK PK} {HE : Ed25519Laws E} `{X : X25519 XSK XPK} {HX : X25519Laws X}.
Context `{K : HKDF} {HK : HKDFLaws K}.

(** The two ends of one session. *)
Definition mirror (a b : SecureSession) : Prop :=
  session_ok a ∧ session_ok b ∧ reads b a ∧ reads a b ∧
  send_sequence a = 0 ∧ receive_sequence a = 0 ∧ send_sequence b = 0 ∧ receive_sequence b = 0 ∧
  closed a = false ∧ closed b = false.

(** A text that carries [n] bytes. *)
Definition carries_bytes (n : Z) (s : pystr) : Prop := ∃ b, decode_text s (Some n) = Ok b.

Lemma carries_encode b n : Forall is_octet b → len b = n → 0 < n → carries_bytes n (_encode b).
Proof.
  intros Hb Hn Hpos. exists b. apply decode_text_encode; [done| |by intros k [= <-]].
  intros ->. rewrite len_nil in Hn. lia.
Qed.

Lemma carries_ascii n s : carries_bytes n s → Forall ascii s.
Proof. by intros (b & (_ & ? & _)%decode_text_ok). Qed.

Lemma decoded_text_carries n s : carries_bytes n s → decoded_text (VStr s) (Some n) = Ok s.
Proof. intros [b Hb]. unfold decoded_text, _decode. by rewrite Hb. Qed.

Lemma placeholder_carries : carries_bytes 64 (repeat 65 86).
Proof. exists (repeat 0 64). by vm_compute. Qed.

Lemma _session_id_str s : is_session_id s = true → _session_id (VStr s) = Ok s.
Proof. simpl. by intros ->. Qed.
Lemma _identity_id_str s : is_session_id s = true → _identity_id (VStr s) = Ok s.
Proof. simpl. by intros ->. Qed.

Lemma client_hello_intro sid cid key nonce sig :
  is_session_id sid = true → is_session_id cid = true → carries_bytes 32 key → carries_bytes 32 nonce →
  carries_bytes 64 sig →
  client_hello (VStr sid) (VStr cid) (VStr key) (VStr nonce) (VStr sig) (VInt SECURE_PROTOCOL_VERSION)
  = Ok (mkClientHello sid cid key nonce sig (VInt SECURE_PROTOCOL_VERSION)).
Proof.
  intros Hs Hc Hk Hn Hg. unfold client_hello, validate_handshake_fields.
  change (eq_int (VInt SECURE_PROTOCOL_VERSION) SECURE_PROTOCOL_VERSION) with true. cbn [ensure mbind result_bind].
  by rewrite _session_id_str, _identity_id_str, !decoded_text_carries.
Qed.

Lemma server_hello_intro sid cid server key nonce skey snonce sig :
  is_session_id sid = true → is_session_id cid = true → is_session_id server = true →
  carries_bytes 32 key → carries_bytes 32 nonce → carries_bytes 32 skey → carries_bytes 32 snonce →
  carries_bytes 64 sig →
  server_hello (VStr sid) (VStr cid) (VStr server) (VStr key) (VStr nonce) (VStr skey) (VStr snonce) (VStr sig)
    (VInt SECURE_PROTOCOL_VERSION)
  = Ok (mkServerHello sid cid server key nonce skey snonce sig (VInt SECURE_PROTOCOL_VERSION)).
Proof.
  intros Hs Hc Hv Hk Hn Hk' Hn' Hg. unfold server_hello, validate_handshake_fields.
  change (eq_int (VInt SECURE_PROTOCOL_VERSION) SECURE_PROTOCOL_VERSION) with true. cbn [ensure mbind result_bind].
  by rewrite _session_id_str, !_identity_id_str, !decoded_text_carries.
Qed.

Lemma verify_own_signature sk d :
  verify_signature (ed_public sk) (_encode (ed_sign sk d)) (Ok d) = Ok tt.
Proof using HE.
  unfold verify_signature, _decode. rewrite decode_text_encode.
  - cbn [mbind result_bind]. by rewrite ed_verify_sign.
  - apply ed_sign_octets.
  - intros H0. pose proof (ed_sign_len sk d) as Hl. by rewrite H0 in Hl.
  - intros k [= <-]. apply ed_sign_len.
Qed.

(** Both ends derive the same keys, in opposite directions. *)
Lemma derived_mirror sid secret transcript :
  is_session_id sid = true → len secret = 32 → len transcript = 32 →
  existsb (λ b, negb (b =? 0)) secret = true →
  ∃ a b, secure_session_from_shared_secret sid secret transcript Client = Ok a ∧
    secure_session_from_shared_secret sid secret transcript Server = Ok b ∧ mirror a b.
Proof using HK.
  intros Hs Hl Ht Hz. unfold secure_session_from_shared_secret. rewrite _session_id_str by done.
  rewrite Hl, Ht, Hz. cbn [Z.eqb Pos.eqb ensure mbind result_bind]. unfold new_session. rewrite _session_id_str by done.
  set (m := hkdf _ _ _ _). assert (len m = 72) as Hm by (by apply hkdf_len).
  assert (length m = 72%nat) as Hm' by (unfold len in Hm; lia).
  assert (len (take 32 m) = 32) as H1 by (unfold len; rewrite length_take; lia).
  assert (len (take 32 (drop 32 m)) = 32) as H2 by (unfold len; rewrite length_take, length_drop; lia).
  assert (len (take 4 (drop 64 m)) = 4) as H3 by (unfold len; rewrite length_take, length_drop; lia).
  assert (len (drop 68 m) = 4) as H4 by (unfold len; rewrite length_drop; lia).
  rewrite H1, H2, H3, H4. cbn [ensure mbind result_bind].
  change (AEAD_KEY_BYTES) with 32. change NONCE_PREFIX_BYTES with 4. cbn [Z.eqb Pos.eqb andb ensure mbind result_bind].
  eexists _, _. split; [done|]. split; [done|].
  split_and!; try done; split; simpl; try done.
Qed.

Lemma transcript_ascii_ok h :
  is_session_id (s_session_id h) = true → is_session_id (s_client_id h) = true →
  is_session_id (s_server_id h) = true → carries_bytes 32 (s_client_key h) → carries_bytes 32 (s_client_nonce h) →
  carries_bytes 32 (s_server_key h) → carries_bytes 32 (s_server_nonce h) → s_version h = VInt SECURE_PROTOCOL_VERSION →
  value_ascii (VDict (transcript_dict h)).
Proof.
  intros H1 H2 H3 H4%carries_ascii H5%carries_ascii H6%carries_ascii H7%carries_ascii H8.
  apply session_id_text in H1, H2, H3. cbn [value_text transcript_dict]. rewrite H8.
  split_and!; try done; try (by apply session_id_text); by apply small_int_ascii.
Qed.

Lemma unsigned_ascii_ok h :
  is_session_id (c_session_id h) = true → is_session_id (c_client_id h) = true →
  carries_bytes 32 (c_client_key h) → carries_bytes 32 (c_client_nonce h) → c_version h = VInt SECURE_PROTOCOL_VERSION →
  value_ascii (VDict (unsigned_dict h)).
Proof.
  intros H1 H2 H4%carries_ascii H5%carries_ascii H8. apply session_id_text in H1, H2.
  cbn [value_text unsigned_dict]. rewrite H8. split_and!; try done; try (by apply session_id_text); by apply small_int_ascii.
Qed.

Lemma canonical_role r d : Forall ascii r → value_ascii (VDict d) → ∃ b, _canonical ((u "role", VStr r) :: d) = Ok b.
Proof.
  intros Hr Hd. apply canonical_ascii. cbn [value_text] in *. split_and!; [by apply session_id_text|done|done].
Qed.

Record hello_ok (h : ClientHello) : Prop := {
  h_session : is_session_id (c_session_id h) = true;
  h_client : is_session_id (c_client_id h) = true;
  h_key : carries_bytes 32 (c_client_key h);
  h_nonce : carries_bytes 32 (c_client_nonce h);
  h_signature : carries_bytes 64 (c_signature h);
  h_version : c_version h = VInt SECURE_PROTOCOL_VERSION
}.

Lemma own_key_carries (k : XSK) : carries_bytes 32 (_encode (x_raw (x_public k))).
Proof using HX. apply carries_encode; [apply x_raw_octets|apply x_raw_len|done]. Qed.
Lemma own_signature_carries (i : SecureIdentity) d : carries_bytes 64 (_encode (ed_sign (private_key i) d)).
Proof using HE. apply carries_encode; [apply ed_sign_octets|apply ed_sign_len|done]. Qed.

Lemma client_signature_data_ok h : hello_ok h → ∃ d, _client_signature_data h = Ok d.
Proof.
  intros []. apply canonical_role; [by apply session_id_text|by apply unsigned_ascii_ok].
Qed.

Lemma create_client_hello_ok (ci : SecureIdentity) chosen drawn (cx : XSK) cn :
  is_session_id (identity_id ci) = true → is_session_id (chosen_session_id chosen drawn) = true →
  len cn = 32 → Forall is_octet cn →
  ∃ h, create_client_hello ci chosen drawn cx cn = Ok (h, cx) ∧ hello_ok h ∧ c_client_id h = identity_id ci ∧
    c_client_key h = _encode (x_raw (x_public cx)) ∧
    verify_signature (ed_public (private_key ci)) (c_signature h) (_client_signature_data h) = Ok tt ∧
    c_session_id h = chosen_session_id chosen drawn.
Proof using HE HX.
  intros Hci Hid Hcn Ho. set (sid := chosen_session_id chosen drawn) in *.
  assert (carries_bytes 32 (_encode cn)) as Hn by by apply carries_encode.
  set (h := λ sig, mkClientHello sid (identity_id ci) (_encode (x_raw (x_public cx))) (_encode cn) sig
    (VInt SECURE_PROTOCOL_VERSION)).
  assert (∀ sig, carries_bytes 64 sig → hello_ok (h sig)) as Hh by (intros; split; try done; apply own_key_carries).
  destruct (client_signature_data_ok (h (repeat 65 86)) (Hh _ placeholder_carries)) as [d Hd].
  exists (h (_encode (ed_sign (private_key ci) d))). split_and!; try done; auto using own_signature_carries.
  - unfold create_client_hello, ensure. rewrite Hcn. change (32 =? NONCE_BYTES) with true. cbn [mbind result_bind].
    fold sid. rewrite _session_id_str by done. cbn [mbind result_bind].
    rewrite client_hello_intro by auto using own_key_carries, placeholder_carries. cbn [mbind result_bind].
    fold (h (repeat 65 86)). rewrite Hd. cbn [mbind result_bind c_session_id c_client_id c_client_key c_client_nonce c_version h].
    by rewrite client_hello_intro by auto using own_key_carries, own_signature_carries.
  - change (_client_signature_data (h _)) with (_client_signature_data (h (repeat 65 86))). rewrite Hd.
    apply verify_own_signature.
Qed.

(** What the server answers, and the derivation it starts. *)
Lemma create_server_hello_ok (si : SecureIdentity) h pk (sx : XSK) sn :
  hello_ok h → verify_signature pk (c_signature h) (_client_signature_data h) = Ok tt →
  is_session_id (identity_id si) = true → len sn = 32 → Forall is_octet sn →
  ∃ r t, bound_to h r = true ∧ s_server_id r = identity_id si ∧ s_server_key r = _encode (x_raw (x_public sx)) ∧
    verify_signature (ed_public (private_key si)) (s_signature r) (_server_signature_data r) = Ok tt ∧
    _transcript_hash r = Ok t ∧ len t = 32 ∧
    create_server_hello si h pk sx sn =
      (s ← _derive_session Server (c_session_id h) (c_client_key h) sx (s_server_key r) t; Ok (r, s)).
Proof using HE HX.
  intros [Hs Hc Hk Hn Hg Hv] Hver Hsi Hsn Ho.
  assert (carries_bytes 32 (_encode sn)) as Hsn' by by apply carries_encode.
  set (r := λ sig, mkServerHello (c_session_id h) (c_client_id h) (identity_id si) (c_client_key h) (c_client_nonce h)
    (_encode (x_raw (x_public sx))) (_encode sn) sig (VInt SECURE_PROTOCOL_VERSION)).
  destruct (canonical_role (u "server") (transcript_dict (r []))) as [d Hd];
    [by apply session_id_text|apply transcript_ascii_ok; try done; apply own_key_carries|].
  set (sig := _encode (ed_sign (private_key si) d)).
  destruct (canonical_ascii (transcript_dict (r sig))) as [t Ht];
    [apply transcript_ascii_ok; try done; apply own_key_carries|].
  exists (r sig), (sha256 t). split_and!; try done.
  - unfold bound_to, r. cbn [s_session_id s_client_id s_client_key s_client_nonce]. by rewrite !bool_decide_true.
  - change (_server_signature_data (r sig)) with (_canonical ((u "role", VStr (u "server")) :: transcript_dict (r []))).
    rewrite Hd. apply verify_own_signature.
  - unfold _transcript_hash. by rewrite Ht.
  - apply length_sha256.
  - unfold create_server_hello. rewrite Hver. unfold ensure. rewrite Hsn. change (32 =? NONCE_BYTES) with true.
    cbn [mbind result_bind]. rewrite Hv. fold (r []). unfold _server_signature_data at 1. rewrite Hd. cbn [mbind result_bind].
    unfold r at 1 2 3 4 5 6 7 8. cbn [s_session_id s_client_id s_server_id s_client_key s_client_nonce s_server_key s_server_nonce s_version].
    rewrite server_hello_intro by auto using own_key_carries, own_signature_carries. cbn [mbind result_bind].
    fold sig. fold (r sig). unfold _transcript_hash. by rewrite Ht.
Qed.

Lemma derive_session_run role sid ck (own : XSK) sk t peer secret :
  (match role with Client => sk | Server => ck end) = _encode (x_raw peer) →
  x_exchange own peer = Ok secret → existsb (λ b, negb (b =? 0)) secret = true →
  _derive_session role sid ck own sk t = secure_session_from_shared_secret sid secret t role.
Proof using HX.
  intros He Hx Hz. unfold _derive_session, _decode. rewrite He, decode_text_encode.
  - cbn [mbind result_bind reraise]. rewrite x_from_raw_raw, Hx. cbn [reraise mbind result_bind]. by rewrite Hz.
  - apply x_raw_octets.
  - intros H0. pose proof (x_raw_len peer) as Hl. by rewrite H0 in Hl.
  - intros k [= <-]. apply x_raw_len.
Qed.

(** Two honest endpoints always complete the handshake: from identities
    with well-formed names, 32-byte nonces and an exchange whose secret is not
    zero, the client's hello is answered, the answer is accepted under the
    pinned identity, and the two sessions mirror each other: what either seals
    the other reads. *)
Theorem handshake_agreement (ci si : SecureIdentity) chosen drawn (cx sx : XSK) cn sn secret
    (Hci : is_session_id (identity_id ci) = true) (Hsi : is_session_id (identity_id si) = true)
    (Hid : is_session_id (chosen_session_id chosen drawn) = true)
    (Hcn : len cn = 32) (Hcn' : Forall is_octet cn) (Hsn : len sn = 32) (Hsn' : Forall is_octet sn)
    (Hx : x_exchange cx (x_public sx) = Ok secret) (Hz : existsb (λ b, negb (b =? 0)) secret = true) :
  ∃ hello response cs ss,
    create_client_hello ci chosen drawn cx cn = Ok (hello, cx) ∧
    create_server_hello si hello (ed_public (private_key ci)) sx sn = Ok (response, ss) ∧
    complete_client_handshake ci hello cx response (ed_public (private_key si)) (Some (identity_id si)) = Ok cs ∧
    mirror cs ss.
Proof using HE HX HK.
  destruct (create_client_hello_ok ci chosen drawn cx cn) as (h & Hh & Hok & Hc & Hk & Hv & _); [done..|].
  destruct (create_server_hello_ok si h (ed_public (private_key ci)) sx sn)
    as (r & t & Hb & Hs & Hsk & Hvs & Ht & Htl & Hr); [done..|].
  assert (len secret = 32) as Hlen by by eapply x_exchange_len.
  destruct (derived_mirror (c_session_id h) secret t) as (cs & ss & Hcs & Hss & Hm); [apply Hok|done..|].
  exists h, r, cs, ss. split_and!; [done| | |done].
  - rewrite Hr, (derive_session_run Server _ _ _ _ _ (x_public cx) secret); [by rewrite Hss|done| |done].
    by rewrite <- (x_agree cx sx).
  - unfold complete_client_handshake. unfold ensure at 1. rewrite bool_decide_true by done. cbn [mbind result_bind].
    rewrite _identity_id_str by done. cbn [mbind result_bind]. unfold ensure. rewrite Hs, Hk, Hb, !bool_decide_true by done.
    cbn [mbind result_bind]. rewrite Hvs, Ht. cbn [mbind result_bind]. unfold bound_to in Hb. reflect.
    rewrite (derive_session_run Client _ _ _ _ _ (x_public sx) secret) by done. congruence.
Qed.

Lemma verify_signature_ok pk sig (data : result bytes) :
  verify_signature pk sig data = Ok tt →
  ∃ s d, decode_text sig (Some 64) = Ok s ∧ data = Ok d ∧ ed_verify pk s d = true.
Proof.
  unfold verify_signature, reraise, _decode, mbind, result_bind.
  destruct (decode_text sig (Some 64)) as [s|]; [|by case_match].
  destruct data as [d|]; [|by case_match]. unfold ensure. destruct (ed_verify pk s d) eqn:Ev; [|done]. eauto.
Qed.

Lemma derive_session_ok role sid ck (own : XSK) sk t s :
  _derive_session role sid ck own sk t = Ok s →
  ∃ peer secret, decode_text (match role with Client => sk | Server => ck end) (Some 32) = Ok peer ∧
    x_exchange own (x_from_raw peer) = Ok secret ∧ secure_session_from_shared_secret sid secret t role = Ok s.
Proof.
  unfold _derive_session, _decode, reraise, mbind, result_bind.
  destruct (decode_text _ _) as [peer|e]; [|simpl; by repeat case_match].
  destruct (x_exchange own (x_from_raw peer)) as [secret|e] eqn:Ex; [|simpl; by repeat case_match].
  unfold ensure. case_match; [|done]. intros. by exists peer, secret.
Qed.

(** C21: The client derives a session only from a response that answers its own
    hello, names the pinned identity and is signed by the pinned key over the
    whole transcript, both ephemeral keys included; the session keys come from
    the exchange with exactly the signed server key and from exactly that
    transcript. *)
Theorem handshake_authenticated (i : SecureIdentity (SK := SK)) h (own : XSK) r (pk : PK) server s
    (Hok : complete_client_handshake i h own r pk (Some server) = Ok s) :
  bound_to h r = true ∧ c_client_id h = identity_id i ∧ s_server_id r = server ∧
  c_client_key h = _encode (x_raw (x_public own)) ∧
  ∃ sig signed transcript peer secret,
    decode_text (s_signature r) (Some 64) = Ok sig ∧
    _canonical ((u "role", VStr (u "server")) :: transcript_dict r) = Ok signed ∧ ed_verify pk sig signed = true ∧
    _canonical (transcript_dict r) = Ok transcript ∧
    decode_text (s_server_key r) (Some 32) = Ok peer ∧ x_exchange own (x_from_raw peer) = Ok secret ∧
    secure_session_from_shared_secret (c_session_id h) secret (sha256 transcript) Client = Ok s.
Proof.
  unfold complete_client_handshake in Hok. unfold mbind, result_bind, ensure in Hok.
  case_bool_decide as H1; [|done]. destruct (_identity_id (VStr server)); [|done].
  case_bool_decide as H2; [|done]. destruct (bound_to h r) eqn:Hb; [|done]. case_bool_decide as H3; [|done].
  destruct (verify_signature _ _ _) as [[]|] eqn:Ev; [|done].
  destruct (_transcript_hash r) as [t|] eqn:Et; [|done].
  apply verify_signature_ok in Ev as (sig & d & Hs & Hd & Hv).
  apply derive_session_ok in Hok as (peer & secret & Hp & Hx & Hsec).
  unfold _transcript_hash, mbind, result_bind in Et. destruct (_canonical (transcript_dict r)) as [tr|] eqn:Etr; [|done].
  injection Et as <-. split_and!; try done. exists sig, d, tr, peer, secret. split_and!; try done.
  unfold bound_to in Hb. reflect. congruence.
Qed.
End Handshake.

(** ** A handshake and a record over the model of the laws *)

(** The runs below are computed by [vm_compute] only. *)
#[local] Strategy 1000 [create_client_hello create_server_hello complete_client_handshake seal open].
#[local] Opaque create_client_hello create_server_hello complete_client_handshake seal open.

Definition sample_client : SecureIdentity (SK := bool) := mkIdentity (u "phone") true.
Definition sample_server : SecureIdentity (SK := bool) := mkIdentity (u "pipa") false.
Definition sample_nonce (x : Z) : bytes := replicate 32 x.
Definition sample_hello : ClientHello :=
  match create_client_hello sample_client (Some (u "s1")) [] true (sample_nonce 1) with
  | Ok (h, _) => h
  | Raise _ => mkClientHello [] [] [] [] [] VNone
  end.
Definition no_session : SecureSession := mkSecure [] [] [] [] [] 0 0 false.
Definition no_answer : ServerHello * SecureSession := (mkServerHello [] [] [] [] [] [] [] [] VNone, no_session).
Definition sample_accepted : result (ServerHello * SecureSession) :=
  create_server_hello sample_server sample_hello true false (sample_nonce 2).
Definition sample_answer : ServerHello * SecureSession :=
  ok_or no_answer sample_accepted.
Definition sample_completed : result SecureSession :=
  complete_client_handshake sample_client sample_hello true sample_answer.1 false (Some (u "pipa")).
Definition sample_secure : SecureSession :=
  ok_or no_session sample_completed.

Lemma sample_nonce_octets x : is_octet x → Forall is_octet (sample_nonce x).
Proof. intros. by apply Forall_replicate. Qed.

Lemma handshake_agreement_witness :
  ∃ hello response cs ss,
    create_client_hello sample_client (Some (u "s1")) [] true (sample_nonce 1) = Ok (hello, true) ∧
    create_server_hello sample_server hello (ed_public (private_key sample_client)) false (sample_nonce 2)
      = Ok (response, ss) ∧
    complete_client_handshake sample_client hello true response (ed_public (private_key sample_server))
      (Some (identity_id sample_server)) = Ok cs ∧
    mirror cs ss.
Proof.
  apply (handshake_agreement sample_client sample_server (Some (u "s1")) [] true false (sample_nonce 1) (sample_nonce 2)
    (be_bytes 32 1)).
  1-4: vm_compute; reflexivity.
  1: by apply sample_nonce_octets.
  1: vm_compute; reflexivity.
  1: by apply sample_nonce_octets.
  1: vm_compute; reflexivity.
  vm_compute; reflexivity.
Defined.

Lemma sample_secure_accepted : sample_completed = Ok sample_secure.
Proof. apply ok_or_eq. vm_compute. reflexivity. Qed.

Lemma handshake_authenticated_witness :
  bound_to sample_hello sample_answer.1 = true ∧ s_server_id sample_answer.1 = u "pipa".
Proof.
  pose proof (handshake_authenticated (E := toy_ed25519) (X := toy_x25519) (K := toy_hkdf) sample_client sample_hello true sample_answer.1 false (u "pipa") sample_secure
    sample_secure_accepted) as (Hb & _ & Hs & _). exact (conj Hb Hs).
Defined.

Definition key_of (x : Z) : bytes := repeat x 32.
Definition sample_a : SecureSession := mkSecure (u "s1") (key_of 1) (key_of 2) (repeat 3 4) (repeat 4 4) 0 0 false.
Definition sample_b : SecureSession := mkSecure (u "s1") (key_of 2) (key_of 1) (repeat 4 4) (repeat 3 4) 0 0 false.

Lemma sample_a_ok : session_ok sample_a.
Proof. by split. Qed.
Lemma sample_b_ok : session_ok sample_b.
Proof. by split. Qed.
Lemma sample_reads : reads sample_b sample_a.
Proof. by split. Qed.

Definition sample_sealed : SecureSession * result object := seal (u "hola") (u "aad") sample_a.
Definition sample_frame : object := ok_or [] sample_sealed.2.

Lemma sample_sealed_is_ok : is_ok sample_sealed.2 = true.
Proof. vm_compute. reflexivity. Qed.
Lemma sample_sealed_ok : sample_sealed = (sample_sealed.1, Ok sample_frame).
Proof. exact (pair_ok [] sample_sealed sample_sealed_is_ok). Qed.

Lemma sample_octets : Forall is_octet (u "hola").
Proof. apply (bool_decide_unpack _). vm_compute. exact I. Qed.

(** One record sent, delivered twice and read once. *)
Definition read_once : SecureSession * result bytes := open sample_frame (u "aad") sample_b.
Definition read_twice : SecureSession * result bytes := open sample_frame (u "aad") read_once.1.
Definition link1 : link := mkLink sample_sealed.1 sample_b [sample_frame] [u "hola"] [].
Definition link2 : link := mkLink sample_sealed.1 read_once.1 [sample_frame] [u "hola"] (add_ok [] read_once.2).
Definition link3 : link :=
  mkLink sample_sealed.1 read_twice.1 [sample_frame] [u "hola"] (add_ok (add_ok [] read_once.2) read_twice.2).

Lemma sample_link_runs : rtc (link_step (u "aad")) (new_link sample_a sample_b) link3.
Proof.
  refine (rtc_l _ _ link1 _ _ (rtc_l _ _ link2 _ _ (rtc_once _ link3 _))).
  - exact (link_send (A := toy_aead) (u "aad") (new_link sample_a sample_b) (u "hola") _ _ sample_octets sample_sealed_ok).
  - exact (link_deliver (A := toy_aead) (u "aad") link1 sample_frame _ _ (list_elem_of_here _ _) (surjective_pairing read_once)).
  - exact (link_deliver (A := toy_aead) (u "aad") link2 sample_frame _ _ (list_elem_of_here _ _) (surjective_pairing read_twice)).
Qed.

Lemma channel_refines_fifo_witness :
  received link3 = [u "hola"] ∧ rtc fifo_step (mkFifo [] []) (queue_of link3) ∧ received link3 `prefix_of` sent link3.
Proof.
  split; [vm_compute; reflexivity|].
  exact (channel_refines_fifo (A := toy_aead) (u "aad") sample_a sample_b link3 sample_a_ok sample_b_ok sample_reads eq_refl eq_refl
    sample_link_runs).
Defined.

Lemma nonces_never_repeat_witness :
  let calls := [CallSeal (u "a") []; CallOpen [] []; CallSeal (u "b") []; CallClose; CallSeal (u "c") []] in
  len (frames_of (A := toy_aead) calls sample_a).1 = 2 ∧
  ∃ ns, Forall2 (encrypted_under (A := toy_aead) (send_key sample_a) (send_prefix sample_a)) (frames_of (A := toy_aead) calls sample_a).1 ns ∧
    NoDup (_nonce (send_prefix sample_a) <$> ns) ∧ Forall (λ n, 0 <= n <= MAX_SEQUENCE) ns.
Proof.
  intros calls. split; [by vm_compute|]. apply (nonces_never_repeat (A := toy_aead) calls sample_a sample_a_ok).
Defined.
