(* ===== verification/SecureChannel.v ===== *)
(** * JSON over the record layer: [windows-agent/secure_json_channel.py]

    [SecureJsonChannel] prints an object with sorted names, seals it under a
    fixed additional datum, and on the other side opens the frame and decodes
    the object, refusing repeated names.  The channel has no state but its
    session. *)
From S2P Require Import Prelude Dict Value Effects Encoding Json JsonParse JsonRoundtrip Crypto SecureSession.

Definition SECURE_JSON_AAD : bytes := u "pipa/json/v2".
Definition FRAME_FIELDS : list pystr := [u "ciphertext"; u "protocol_version"; u "sequence"; u "session_id"].

Definition reject_json_duplicates (pairs : list (pystr * value)) : result object :=
  reject_duplicates SecureJsonError pairs [].

Section Channel.
Context `{A : AEAD}.

Definition seal_message (payload : object) : M SecureSession object :=
  lift (reraise [TypeError; ValueError] SecureJsonError (dump_bytes true false (VDict payload))) ≫= λ encoded,
  if MAX_RECORD_BYTES <? len encoded then raise SecureJsonError
  else seal encoded SECURE_JSON_AAD.

(** What the decrypted bytes decode to. *)
Definition read_payload (encoded : bytes) : result object :=
  payload ← reraise [UnicodeDecodeError; JSONDecodeError; SecureJsonError] SecureJsonError
    (loads_utf8 reject_json_duplicates encoded);
  match payload with VDict d => Ok d | _ => Raise SecureJsonError end.

Definition open_message (frame : object) : M SecureSession object :=
  if negb (keys_exactly FRAME_FIELDS frame) then raise SecureJsonError
  else
    open frame SECURE_JSON_AAD ≫= λ encoded,
    lift (read_payload encoded).

Definition close_channel : M SecureSession unit := close.
End Channel.

Section Facts.
Context `{A : AEAD}.
Implicit Types (s : SecureSession).

Lemma read_payload_raises b : raises_only (λ e, e = SecureJsonError ∨ e = ValueError) (read_payload b).
Proof.
  unfold read_payload. apply raises_only_bind.
  - apply raises_only_reraise; [by left|].
    eapply (raises_only_weaken _ (λ e, e = SecureJsonError ∨ e = JSONDecodeError ∨ e = UnicodeDecodeError ∨ e = ValueError)).
    + unfold loads_utf8. destruct (utf8_decode b) as [t|]; [|by intros e [= <-]; auto].
      apply loads_raises; [by auto..|]. intros pairs e He. left. by eapply reject_duplicates_raises.
    + intros e He Hc. destruct He as [->|[->|[->| ->]]]; auto; done.
  - intros v. destruct v; repeat raises_step; auto.
Qed.

Lemma seal_message_run s d s' r :
  session_ok s → seal_message d s = (s', r) →
  (∃ b h, dump_bytes true false (VDict d) = Ok b ∧ seal b SECURE_JSON_AAD s = (s', r) ∧
     r = Ok (record_of s (send_sequence s) h b SECURE_JSON_AAD) ∧ s' = with_send_sequence (send_sequence s + 1) s) ∨
  (s' = s ∧ ∃ e, r = Raise e ∧ is_a e RecordError = true).
Proof.
  intros Hs. unfold seal_message, lift. unfold mbind, M_bind.
  destruct (dump_bytes true false (VDict d)) as [b|e] eqn:Ed; cbn [reraise].
  - destruct (MAX_RECORD_BYTES <? len b); [intros [= <- <-]; right; eauto|]. intros Hr.
    pose proof (seal_run s b SECURE_JSON_AAD s' r Hs Hr) as [(h & _ & _ & _ & _ & _ & -> & ->)|Hf]; [left|by right].
    exists b, h. by split_and!.
  - rewrite (dump_bytes_raises _ _ _ _ Ed). intros [= <- <-]. right. eauto.
Qed.

Lemma open_message_run s f s' r :
  session_ok s → open_message f s = (s', r) →
  (∃ b, read_record s f SECURE_JSON_AAD = Ok b ∧ r = read_payload b ∧ closed s = false ∧
     s' = with_receive_sequence (receive_sequence s + 1) s) ∨
  (s' = s ∧ ∃ e, r = Raise e ∧ is_a e RecordError = true).
Proof.
  intros Hs. unfold open_message. destruct (negb _); [intros [= <- <-]; right; eauto|].
  unfold mbind, M_bind. destruct (open f SECURE_JSON_AAD s) as [s1 out] eqn:Eo.
  apply open_run in Eo as [(b & Hc & Hb & _ & -> & ->)|[-> (e & -> & He)]]; [| |done].
  - intros [= <- <-]. left. exists b. by split_and!.
  - intros [= <- <-]. right. eauto.
Qed.

Lemma keeps_seal_message d : keeps session_ok (seal_message d).
Proof.
  unfold seal_message. repeat keeps_step. apply keeps_seal.
Qed.

Lemma keeps_open_message f : keeps session_ok (open_message f).
Proof.
  unfold open_message. repeat keeps_step. apply keeps_open.
Qed.

Lemma record_of_fields s n h p aad : keys_exactly FRAME_FIELDS (record_of s n h p aad) = true.
Proof. by vm_compute. Qed.

Context {HA : AEADLaws A}.

(** Whatever JSON object a paired endpoint seals, the other endpoint opens
    the frame to that same object, its names in sorted order, as long as the
    receiver expects that record; both ends stay in step for the next one. *)
Theorem secure_json_roundtrip a b d a' f (Ha : session_ok a) (Hb : session_ok b) (Hreads : reads b a)
    (Hstep : receive_sequence b = send_sequence a) (Hopen : closed b = false) (Hd : plain (VDict d))
    (Hseal : seal_message d a = (a', Ok f)) :
  ∃ b' d', open_message f b = (b', Ok d') ∧ VDict d' = sorted_value (VDict d) ∧ d' ≡ₚ ((λ kv, (kv.1, sorted_value kv.2)) <$> d) ∧
    reads b' a' ∧ receive_sequence b' = send_sequence a' ∧ closed b' = false ∧ session_ok b'.
Proof using HA.
  destruct (seal_message_run _ _ _ _ Ha Hseal) as [(p & h & Hp & Hs & [= ->] & _)|[_ (e & [=] & _)]].
  assert (Forall is_octet p) as Hoct.
  { unfold dump_bytes, mbind, result_bind in Hp. destruct (dumps _ _ _) as [t|]; [|done].
    destruct (utf8_encode t) eqn:Et; [|done]. injection Hp as <-. by eapply utf8_encode_octets. }
  destruct (open_seal a b p SECURE_JSON_AAD a' _ Ha Hb Hreads Hstep Hopen Hoct Hs) as (b' & Ho & Hr & Hq).
  exists b', (merge_sort key_le ((λ kv, (kv.1, sorted_value kv.2)) <$> d)).
  assert (open_message (record_of a (send_sequence a) h p SECURE_JSON_AAD) b =
    (b', Ok (merge_sort key_le ((λ kv, (kv.1, sorted_value kv.2)) <$> d)))) as Hm.
  { unfold open_message. rewrite record_of_fields. cbn [negb]. erewrite bind_ok by exact Ho.
    unfold lift, read_payload, reject_json_duplicates. by rewrite (loads_utf8_dump true SecureJsonError false _ p Hd Hp). }
  split_and!; try done.
  - apply merge_sort_Permutation.
  - apply open_run in Ho as [(? & Hc & _ & _ & _ & ->)|[_ (e & [=] & _)]]; done.
  - pose proof (keeps_open_message (record_of a (send_sequence a) h p SECURE_JSON_AAD) b Hb) as Hk.
    by apply (wp_run _ _ _ _ _ Hk) in Hm.
Qed.
End Facts.

Definition sample_object : object := [(u "type", VStr (u "event")); (u "name", VStr (u "ruedas")); (u "n", VInt 3)].
Definition sample_sent : SecureSession * result object := seal_message sample_object sample_a.

Lemma secure_json_roundtrip_witness :
  ∃ b' d', open_message (ok_or [] sample_sent.2) sample_b = (b', Ok d') ∧ VDict d' = sorted_value (VDict sample_object) ∧
    d' ≡ₚ ((λ kv, (kv.1, sorted_value kv.2)) <$> sample_object) ∧
    reads b' sample_sent.1 ∧ receive_sequence b' = send_sequence sample_sent.1 ∧ closed b' = false ∧ session_ok b'.
Proof.
  refine (secure_json_roundtrip (A := toy_aead) sample_a sample_b sample_object sample_sent.1 (ok_or [] sample_sent.2)
    sample_a_ok sample_b_ok sample_reads eq_refl eq_refl _ _).
  - split; [apply (bool_decide_unpack _); by vm_compute|].
    repeat first [apply nonneg_text; by vm_compute | apply conj | exact Logic.I].
  - apply pair_ok. by vm_compute.
Defined.
