(* ===== verification/Audio.v ===== *)
(** * Encrypted audio streams: [windows-agent/secure_audio.py], capture gate,
    sender and receiver

    The policy gate a capture must pass, and the two ends of a bounded stream
    of PCM chunks sealed as records of a secure session.  The buffers of the
    module are mutable [bytearray]s: they live in a heap that grows with every
    allocation, so that zeroing a buffer is seen by everyone who holds it. *)
From S2P Require Import Prelude Dict Value Effects Encoding Json JsonRoundtrip Crypto SecureSession.

Definition AUDIO_PROTOCOL_VERSION : Z := 2.
Definition AUDIO_AAD_PREFIX : bytes := u "pipa/audio/v2" ++ [0].
Definition AUDIO_SAMPLE_RATE : Z := 16000.
Definition AUDIO_CHANNELS : Z := 1.
Definition AUDIO_BITS_PER_SAMPLE : Z := 16.
Definition AUDIO_BYTES_PER_SAMPLE : Z := AUDIO_BITS_PER_SAMPLE / 8.
Definition MAX_AUDIO_CHUNK_BYTES : Z := 4096.
Definition MAX_AUDIO_CHUNKS : Z := 64.
Definition MAX_AUDIO_STREAM_BYTES : Z := MAX_AUDIO_CHUNK_BYTES * MAX_AUDIO_CHUNKS.
Definition MAX_AUDIO_STREAM_DURATION_MS : Z :=
  MAX_AUDIO_STREAM_BYTES * 1000 / (AUDIO_SAMPLE_RATE * AUDIO_CHANNELS * AUDIO_BYTES_PER_SAMPLE).

Definition RECORD_FIELDS : list pystr := [u "ciphertext"; u "protocol_version"; u "sequence"; u "session_id"].
Definition AUDIO_FIELDS : list pystr :=
  [u "audio_protocol_version"; u "bits_per_sample"; u "channels"; u "chunk_index"; u "final"; u "sample_rate";
   u "stream_id"].
Definition FRAME_FIELDS : list pystr := RECORD_FIELDS ++ AUDIO_FIELDS.

Record AudioStreamSummary := mkSummary { summary_bytes : Z; summary_duration_ms : Z }.

(** ** The capture gate *)

Inductive AudioCaptureState := DISABLED | CODEC_READY | LISTENING | DRAINING | ERROR.
#[global] Instance capture_state_eq_dec : EqDecision AudioCaptureState.
Proof. solve_decision. Defined.

Definition can_capture (g : AudioCaptureState) : bool := bool_decide (g = LISTENING).
Definition can_advertise_audio (g : AudioCaptureState) : bool := bool_decide (g = CODEC_READY).

Definition mark_codec_ready (codec_initialized : bool) : M AudioCaptureState bool := λ g,
  if negb (bool_decide (g ∈ [DISABLED; ERROR])) then (g, Ok false)
  else if negb codec_initialized then (ERROR, Ok false)
  else (CODEC_READY, Ok true).

Definition begin_listening (display_ready consented secure_transport_ready : bool) : M AudioCaptureState bool := λ g,
  if negb (bool_decide (g = CODEC_READY)) || negb display_ready || negb consented || negb secure_transport_ready
  then (g, Ok false)
  else (LISTENING, Ok true).

Definition begin_draining : M AudioCaptureState bool := λ g,
  if negb (bool_decide (g = LISTENING)) then (g, Ok false) else (DRAINING, Ok true).
Definition finish_draining : M AudioCaptureState bool := λ g,
  if negb (bool_decide (g = DRAINING)) then (g, Ok false) else (CODEC_READY, Ok true).
Definition fail : M AudioCaptureState unit := λ _, (ERROR, Ok tt).

(** ** Metadata *)

Definition _canonical (d : object) : result bytes :=
  reraise [TypeError; ValueError] AudioFrameError (dump_bytes true false (VDict d)).

(** [_STREAM_ID_PATTERN.fullmatch] *)
Definition is_stream_id (s : pystr) : bool := matches_class Base64.alphabet 1 64 s.

Definition _validate_stream_id (v : value) : result pystr :=
  match v with
  | VStr s => if is_stream_id s then Ok s else Raise AudioFrameError
  | _ => Raise AudioFrameError
  end.

Definition _validate_chunk_index (v : value) : result Z :=
  match v with
  | VInt i => if (0 <=? i) && (i <? MAX_AUDIO_CHUNKS) then Ok i else Raise AudioFrameError
  | _ => Raise AudioFrameError
  end.

(** The fields of validated metadata that can vary. *)
Record metadata := mkMetadata { chunk_index : Z; final : bool; stream_id : pystr }.
Definition metadata_dict (m : metadata) : object :=
  [(u "audio_protocol_version", VInt AUDIO_PROTOCOL_VERSION); (u "bits_per_sample", VInt AUDIO_BITS_PER_SAMPLE);
   (u "channels", VInt AUDIO_CHANNELS); (u "chunk_index", VInt (chunk_index m)); (u "final", VBool (final m));
   (u "sample_rate", VInt AUDIO_SAMPLE_RATE); (u "stream_id", VStr (stream_id m))].

Definition _validate_metadata (d : object) : result metadata :=
  _ ← ensure (keys_exactly AUDIO_FIELDS d) AudioFrameError;
  _ ← ensure (eq_int (get (u "audio_protocol_version") d) AUDIO_PROTOCOL_VERSION) AudioFrameError;
  s ← _validate_stream_id (get (u "stream_id") d);
  i ← _validate_chunk_index (get (u "chunk_index") d);
  match get (u "final") d with
  | VBool f =>
    _ ← ensure (negb ((i =? MAX_AUDIO_CHUNKS - 1) && negb f)) AudioFrameError;
    _ ← ensure (eq_int (get (u "sample_rate") d) AUDIO_SAMPLE_RATE
                && eq_int (get (u "channels") d) AUDIO_CHANNELS
                && eq_int (get (u "bits_per_sample") d) AUDIO_BITS_PER_SAMPLE) AudioFrameError;
    Ok (mkMetadata i f s)
  | _ => Raise AudioFrameError
  end.

Definition _additional_data (m : metadata) : result bytes :=
  b ← _canonical (metadata_dict m); Ok (AUDIO_AAD_PREFIX ++ b).

Definition chunk_size_ok (b : bytes) : bool :=
  (0 <? len b) && (len b <=? MAX_AUDIO_CHUNK_BYTES) && (len b mod AUDIO_BYTES_PER_SAMPLE =? 0).
Definition _validate_samples (b : bytes) : result bytes :=
  if chunk_size_ok b then Ok b else Raise AudioFrameError.
Definition _validate_decrypted_samples (b : bytes) : result bytes :=
  if chunk_size_ok b then Ok b else Raise AudioFrameError.

(** [frame.update(d)] *)
Definition dupdate (f d : object) : object := foldl (λ f kv, dset kv.1 kv.2 f) f d.

Section Stream.
Context `{A : AEAD}.

(** ** [SecureAudioSender] *)

Record audio_sender := mkSender {
  tx_session : SecureSession;
  tx_stream_id : pystr;
  tx_next_chunk : Z;
  tx_stream_bytes : Z;
  tx_finished : bool
}.
Definition with_tx_session (s : SecureSession) (t : audio_sender) : audio_sender :=
  mkSender s (tx_stream_id t) (tx_next_chunk t) (tx_stream_bytes t) (tx_finished t).

Definition new_sender (session : SecureSession) (sid : value) : result audio_sender :=
  sid ← _validate_stream_id sid; Ok (mkSender session sid 0 0 false).

(** The checks of [seal_chunk], up to the metadata of the chunk. *)
Definition next_metadata (t : audio_sender) (samples : bytes) (fin : bool) : result metadata :=
  _ ← ensure (negb (tx_finished t)) AudioFrameError;
  _ ← ensure (tx_next_chunk t <? MAX_AUDIO_CHUNKS) AudioFrameError;
  samples ← _validate_samples samples;
  _ ← ensure (tx_stream_bytes t + len samples <=? MAX_AUDIO_STREAM_BYTES) AudioFrameError;
  _ ← ensure (negb ((tx_next_chunk t =? MAX_AUDIO_CHUNKS - 1) && negb fin)) AudioFrameError;
  _validate_metadata
    [(u "audio_protocol_version", VInt AUDIO_PROTOCOL_VERSION); (u "bits_per_sample", VInt AUDIO_BITS_PER_SAMPLE);
     (u "channels", VInt AUDIO_CHANNELS); (u "chunk_index", VInt (tx_next_chunk t)); (u "final", VBool fin);
     (u "sample_rate", VInt AUDIO_SAMPLE_RATE); (u "stream_id", VStr (tx_stream_id t))].

Definition seal_chunk (samples : bytes) (fin : bool) : M audio_sender object :=
  gets id ≫= λ t,
  lift (next_metadata t samples fin) ≫= λ m,
  lift (_additional_data m) ≫= λ aad,
  zoom tx_session with_tx_session (seal samples aad) ≫= λ frame,
  modify (λ t, mkSender (tx_session t) (tx_stream_id t) (tx_next_chunk t + 1)
                 (tx_stream_bytes t + len samples) fin) ≫= λ _,
  mret (dupdate frame (metadata_dict m)).

Definition cancel_sending : M audio_sender unit :=
  modify (λ t, mkSender (tx_session t) (tx_stream_id t) 0 0 true).

(** ** [SecureAudioReceiver] *)

Record audio_receiver := mkReceiver {
  rx_session : SecureSession;
  rx_stream_id : option pystr;
  rx_next_chunk : Z;
  rx_stream_bytes : Z;
  rx_finished : bool;
  rx_buffers : list bytes    (* every [bytearray] allocated so far *)
}.
Definition with_rx_session (s : SecureSession) (r : audio_receiver) : audio_receiver :=
  mkReceiver s (rx_stream_id r) (rx_next_chunk r) (rx_stream_bytes r) (rx_finished r) (rx_buffers r).
Definition with_rx_stream (sid : option pystr) (r : audio_receiver) : audio_receiver :=
  mkReceiver (rx_session r) sid (rx_next_chunk r) (rx_stream_bytes r) (rx_finished r) (rx_buffers r).
Definition with_rx_counts (n b : Z) (f : bool) (r : audio_receiver) : audio_receiver :=
  mkReceiver (rx_session r) (rx_stream_id r) n b f (rx_buffers r).
Definition with_rx_buffers (h : list bytes) (r : audio_receiver) : audio_receiver :=
  mkReceiver (rx_session r) (rx_stream_id r) (rx_next_chunk r) (rx_stream_bytes r) (rx_finished r) h.

Definition new_receiver (session : SecureSession) : audio_receiver := mkReceiver session None 0 0 false [].

Definition complete (r : audio_receiver) : bool := rx_finished r.
Definition duration_ms (stream_bytes : Z) : Z :=
  stream_bytes * 1000 / (AUDIO_SAMPLE_RATE * AUDIO_CHANNELS * AUDIO_BYTES_PER_SAMPLE).
Definition stream_duration_ms (r : audio_receiver) : Z := duration_ms (rx_stream_bytes r).

(** [bytearray(b)]: the new buffer, named by its place in the heap. *)
Definition alloc (b : bytes) : M audio_receiver nat := λ r,
  (with_rx_buffers (rx_buffers r ++ [b]) r, Ok (length (rx_buffers r))).

Definition zeros (b : bytes) : bytes := replicate (length b) 0.
Definition _zero_buffer (ref : nat) : M audio_receiver unit :=
  modify (λ r, with_rx_buffers (alter zeros ref (rx_buffers r)) r).

Definition _discard_state : M audio_receiver unit := modify (λ r, with_rx_counts 0 0 false (with_rx_stream None r)).

(** The metadata of a frame, and its place in the stream. *)
Definition frame_metadata (frame : value) : result (object * metadata) :=
  match frame with
  | VDict f =>
    _ ← ensure (keys_exactly FRAME_FIELDS f) AudioFrameError;
    m ← _validate_metadata ((λ k, (k, get k f)) <$> AUDIO_FIELDS);
    Ok (f, m)
  | _ => Raise AudioFrameError
  end.

Definition check_place (m : metadata) : M audio_receiver unit :=
  gets rx_finished ≫= λ finished,
  lift (ensure (negb finished) AudioFrameError) ≫= λ _,
  gets rx_stream_id ≫= λ sid,
  match sid with
  | None =>
    lift (ensure (chunk_index m =? 0) AudioFrameError) ≫= λ _,
    modify (with_rx_stream (Some (stream_id m)))
  | Some s => lift (ensure (bool_decide (stream_id m = s)) AudioFrameError)
  end ≫= λ _,
  gets rx_next_chunk ≫= λ n,
  lift (ensure (chunk_index m =? n) AudioFrameError).

(** The body of [open_chunk].  [plaintext], the local variable its [except]
    clause zeroes, is the second component of the state. *)
Definition set_plaintext (b : bytes) : M (audio_receiver * nat) unit := λ s,
  let '(r, ref) := alloc b s.1 in ((r, ok_or s.2 ref), Ok tt).
Definition on_receiver {B} (m : M audio_receiver B) : M (audio_receiver * nat) B := zoom fst (λ r s, (r, s.2)) m.

Definition open_body (frame : value) : M (audio_receiver * nat) unit :=
  lift (frame_metadata frame) ≫= λ fm,
  on_receiver (check_place fm.2) ≫= λ _,
  lift (_additional_data fm.2) ≫= λ aad,
  on_receiver (zoom rx_session with_rx_session (open fm.1 aad)) ≫= λ decrypted,
  set_plaintext decrypted ≫= λ _,
  lift (_validate_decrypted_samples decrypted) ≫= λ samples,
  gets (λ s, rx_stream_bytes s.1) ≫= λ n,
  lift (ensure (n + len samples <=? MAX_AUDIO_STREAM_BYTES) AudioFrameError) ≫= λ _,
  on_receiver (modify (λ r, with_rx_counts (rx_next_chunk r + 1) (rx_stream_bytes r + len samples) (final fm.2) r)).

Definition on_session {B} (m : M SecureSession B) : M audio_receiver B := zoom rx_session with_rx_session m.

(** The returned reference is the buffer with the samples. *)
Definition open_chunk (frame : value) : M audio_receiver nat := λ r,
  let '(r0, empty) := alloc [] r in
  match open_body frame (r0, ok_or 0%nat empty) with
  | ((r', plaintext), Ok _) => (r', Ok plaintext)
  | ((r', plaintext), Raise e) =>
    if caught e [AudioFrameError; RecordError] then
      (_zero_buffer plaintext ≫= λ _, _discard_state ≫= λ _, on_session SecureSession.close ≫= λ _,
       raise AudioFrameError) r'
    else (r', Raise e)
  end.

Definition cancel_receiving : M audio_receiver unit := _discard_state.
Definition close_receiver : M audio_receiver unit :=
  _discard_state ≫= λ _, on_session SecureSession.close.
End Stream.

Section Facts.
Context `{A : AEAD}.
Implicit Types (r : audio_receiver) (t : audio_sender) (m : metadata).

(** ** What the checks establish *)

Record metadata_ok m : Prop := {
  md_index : 0 <= chunk_index m < MAX_AUDIO_CHUNKS;
  md_stream : is_stream_id (stream_id m) = true;
  md_last : chunk_index m = MAX_AUDIO_CHUNKS - 1 → final m = true
}.

Lemma validate_metadata_ok d m : _validate_metadata d = Ok m →
  metadata_ok m ∧ get (u "chunk_index") d = VInt (chunk_index m) ∧ get (u "final") d = VBool (final m) ∧
  get (u "stream_id") d = VStr (stream_id m).
Proof.
  unfold _validate_metadata, _validate_stream_id, _validate_chunk_index. intros H.
  result_inv. reflect. cbn [chunk_index final stream_id]. split_and!; try done. split; cbn [chunk_index final stream_id]; [lia|done|].
  intros ->. destruct Heqb1 as [Hn|Hn]; [by rewrite Z.eqb_refl in Hn|by destruct b].
Qed.

Lemma validate_metadata_raises d : raises_only (λ e, e = AudioFrameError) (_validate_metadata d).
Proof. unfold _validate_metadata, _validate_stream_id, _validate_chunk_index. repeat raises_step; done. Qed.

Lemma frame_metadata_raises v : raises_only (λ e, e = AudioFrameError) (frame_metadata v).
Proof. unfold frame_metadata. repeat raises_step; try done. apply validate_metadata_raises. Qed.

Lemma additional_data_raises m : raises_only (λ e, e = AudioFrameError) (_additional_data m).
Proof.
  unfold _additional_data, _canonical. apply raises_only_bind; [|intros; apply raises_only_ok].
  apply raises_only_reraise; [done|]. intros e He Hc. by rewrite (dump_bytes_raises _ _ _ _ He) in Hc.
Qed.

Lemma decrypted_samples_raises b : raises_only (λ e, e = AudioFrameError) (_validate_decrypted_samples b).
Proof. unfold _validate_decrypted_samples. repeat raises_step; done. Qed.

(** [m] is the metadata of the chunk the receiver waits for. *)
Definition expected m r : Prop :=
  rx_finished r = false ∧ chunk_index m = rx_next_chunk r ∧
  match rx_stream_id r with Some s => stream_id m = s | None => chunk_index m = 0 end.

Lemma check_place_run m r r' out :
  check_place m r = (r', out) →
  (r' = r ∨ r' = with_rx_stream (Some (stream_id m)) r) ∧
  match out with
  | Ok _ => expected m r ∧ rx_stream_id r' = Some (stream_id m) ∧ r' = with_rx_stream (Some (stream_id m)) r
  | Raise e => e = AudioFrameError
  end.
Proof.
  unfold check_place, expected, gets, lift, ensure, modify, mbind, M_bind. destruct r as [s sid n b f h]. cbn.
  destruct f; [intros [= <- <-]; auto|]. cbn. destruct sid as [s0|]; cbn.
  - case_bool_decide as Hs; [|intros [= <- <-]; auto]. subst s0.
    destruct (Z.eqb_spec (chunk_index m) n); intros [= <- <-]; auto 10.
  - destruct (Z.eqb_spec (chunk_index m) 0) as [H0|]; [|intros [= <- <-]; auto]. cbn.
    destruct (Z.eqb_spec (chunk_index m) n); intros [= <- <-]; auto 10.
Qed.

Lemma check_place_ok m r : expected m r → check_place m r = (with_rx_stream (Some (stream_id m)) r, Ok tt).
Proof.
  unfold check_place, expected, gets, lift, ensure, modify, mbind, M_bind. destruct r as [s sid n b f h]. cbn.
  intros (-> & <- & Hs). cbn. destruct sid as [s0|]; cbn.
  - subst s0. rewrite bool_decide_true by done. cbn. by rewrite Z.eqb_refl.
  - by rewrite Hs.
Qed.

(** ** The outcomes of [open_chunk] *)

(** What an accepted frame carries. *)
Record accepted_chunk (frame : value) r m (p : bytes) : Prop := {
  ac_metadata : ∃ f aad, frame_metadata frame = Ok (f, m) ∧ _additional_data m = Ok aad ∧
    closed (rx_session r) = false ∧ read_record (rx_session r) f aad = Ok p;
  ac_expected : expected m r;
  ac_size : chunk_size_ok p = true;
  ac_bound : rx_stream_bytes r + len p <= MAX_AUDIO_STREAM_BYTES
}.

Definition received_chunk m (p : bytes) r : audio_receiver :=
  mkReceiver (with_receive_sequence (receive_sequence (rx_session r) + 1) (rx_session r)) (Some (stream_id m))
    (rx_next_chunk r + 1) (rx_stream_bytes r + len p) (final m) (rx_buffers r ++ [[]; p]).

Definition all_zero (b : bytes) : Prop := Forall (λ x, x = 0) b.

(** The stream is abandoned and its session closed. *)
Record abandoned r r' : Prop := {
  ab_stream : rx_stream_id r' = None ∧ rx_next_chunk r' = 0 ∧ rx_stream_bytes r' = 0 ∧ rx_finished r' = false;
  ab_closed : closed (rx_session r') = true;
  ab_session : session_ok (rx_session r');
  ab_buffers : ∃ h, rx_buffers r' = rx_buffers r ++ h ∧ Forall all_zero h
}.

Lemma all_zero_zeros b : all_zero (zeros b).
Proof. by apply Forall_replicate. Qed.

Lemma alter_last {B} (f : B → B) (l : list B) x : alter f (length l) (l ++ [x]) = l ++ [f x].
Proof. induction l as [|y l IH]; [done|]. simpl. f_equal. apply IH. Qed.

(** The state in which the body of [open_chunk] may raise: nothing but the
    stream name, the session's cursor and the new buffers has changed, and only
    the newest buffer, the one [plaintext] names, may hold samples. *)
Definition body_raised r (s : audio_receiver * nat) : Prop :=
  session_ok (rx_session s.1) ∧
  ∃ h x, rx_buffers s.1 = rx_buffers r ++ h ++ [x] ∧ s.2 = length (rx_buffers r ++ h) ∧ Forall all_zero h.

Lemma open_chunk_failed frame r s e :
  open_body frame (with_rx_buffers (rx_buffers r ++ [[]]) r, length (rx_buffers r)) = (s, Raise e) →
  e = AudioFrameError ∨ is_a e RecordError = true → body_raised r s →
  ∃ r', open_chunk frame r = (r', Raise AudioFrameError) ∧ abandoned r r'.
Proof.
  intros Hb He (Hok & h & x & Hh & Hp & Hz). unfold open_chunk, alloc. cbn [ok_or]. rewrite Hb.
  destruct s as [r1 ref]. cbn [fst snd] in *.
  assert (caught e [AudioFrameError; RecordError] = true) as ->.
  { unfold caught. cbn [existsb]. destruct He as [->| ->]; [done|]. by rewrite orb_true_r. }
  eexists. split; [reflexivity|]. rewrite app_assoc in Hh. split; try done.
  - by apply keeps_close in Hok.
  - cbn [rx_buffers with_rx_session with_rx_counts with_rx_stream with_rx_buffers rx_session].
    exists (h ++ [zeros x]). rewrite Hh, Hp, alter_last, app_assoc. split; [done|].
    apply Forall_app. split; [done|]. constructor; [apply all_zero_zeros|done].
Qed.

(** Before the record is decrypted no buffer holds samples. *)
Lemma body_raised_early r r1 :
  session_ok (rx_session r) → rx_session r1 = rx_session r → rx_buffers r1 = rx_buffers r ++ [[]] →
  body_raised r (r1, length (rx_buffers r)).
Proof.
  intros Hok Hs Hb. split; cbn [fst snd]; [by rewrite Hs|]. exists [], []. cbn [fst snd app]. rewrite app_nil_r. split_and!; [done|done|constructor].
Qed.

Lemma on_receiver_run {B} (k : M audio_receiver B) r ref r' o :
  k r = (r', o) → on_receiver k (r, ref) = ((r', ref), o).
Proof. intros Hk. exact (zoom_run _ _ _ (r, ref) _ _ Hk). Qed.

Lemma lift_ok {S B} (x : result B) (s : S) b : x = Ok b → lift x s = (s, Ok b).
Proof. by intros ->. Qed.
Lemma lift_raise {S B} (x : result B) (s : S) e : x = Raise e → lift x s = (s, Raise e).
Proof. by intros ->. Qed.

Lemma open_body_run frame r s out :
  session_ok (rx_session r) →
  open_body frame (with_rx_buffers (rx_buffers r ++ [[]]) r, length (rx_buffers r)) = (s, out) →
  match out with
  | Ok _ => ∃ m p, accepted_chunk frame r m p ∧ s = (received_chunk m p r, S (length (rx_buffers r)))
  | Raise e => (e = AudioFrameError ∨ is_a e RecordError = true) ∧ body_raised r s
  end.
Proof.
  intros Hok. set (r0 := with_rx_buffers _ _). unfold open_body.
  destruct (frame_metadata frame) as [[f m]|e] eqn:Ef.
  2:{ erewrite bind_raise by (by apply lift_raise). intros [= <- <-]. apply frame_metadata_raises in Ef as ->.
      split; [by left|]. by apply body_raised_early. }
  erewrite bind_ok by (by apply lift_ok). cbn [fst snd].
  destruct (check_place m r0) as [r1 [[]|e]] eqn:Ec; pose proof Ec as Hc; apply check_place_run in Hc as [Hr1 Ho1].
  2:{ erewrite bind_raise by exact (on_receiver_run _ _ _ _ _ Ec). intros [= <- <-]. subst e. split; [by left|].
      by destruct Hr1 as [->| ->]; apply body_raised_early. }
  erewrite bind_ok by exact (on_receiver_run _ _ _ _ _ Ec). destruct Ho1 as (Hexp & _ & ->). clear Hr1 Ec.
  destruct (_additional_data m) as [aad|e] eqn:Ea.
  2:{ erewrite bind_raise by (by apply lift_raise). intros [= <- <-]. apply additional_data_raises in Ea as ->.
      split; [by left|]. by apply body_raised_early. }
  erewrite bind_ok by (by apply lift_ok). set (r1 := with_rx_stream _ _).
  destruct (open f aad (rx_session r1)) as [s1 o1] eqn:Eo.
  pose proof (zoom_run rx_session with_rx_session (open f aad) r1 _ _ Eo) as Hz.
  pose proof (keeps_open f aad (rx_session r1) Hok) as Hk. apply (wp_run _ _ _ _ _ Hk) in Eo as Hs1.
  apply open_run in Eo as [(p & Hc & Hp & _ & -> & ->)|[-> (e & -> & He)]]; [| |done].
  2:{ erewrite bind_raise by exact (on_receiver_run _ _ _ _ _ Hz). intros [= <- <-]. split; [by right|].
      by apply body_raised_early. }
  erewrite bind_ok by exact (on_receiver_run _ _ _ _ _ Hz). erewrite bind_ok by reflexivity.
  set (r2 := with_rx_buffers _ _).
  assert (body_raised r (r2, length (rx_buffers r ++ [[]]))) as Hraised.
  { split; [done|]. exists [[]], p. cbn [fst snd]. split_and!; [by rewrite app_assoc|done|by repeat constructor]. }
  unfold _validate_decrypted_samples at 1. destruct (chunk_size_ok p) eqn:Esz.
  2:{ erewrite bind_raise by (by apply lift_raise). intros [= <- <-]. split; [by left|done]. }
  erewrite bind_ok by (by apply lift_ok). erewrite bind_ok by reflexivity.
  destruct (rx_stream_bytes r + len p <=? MAX_AUDIO_STREAM_BYTES) eqn:Eb.
  2:{ erewrite bind_raise by (apply lift_raise; unfold ensure; change (rx_stream_bytes _) with (rx_stream_bytes r); by rewrite Eb). intros [= <- <-]. split; [by left|done]. }
  erewrite bind_ok by (apply lift_ok; unfold ensure; change (rx_stream_bytes _) with (rx_stream_bytes r); by rewrite Eb). intros [= <- <-]. exists m, p. reflect. split.
  - split; try done. by exists f, aad.
  - unfold received_chunk. f_equal; [|rewrite length_app; simpl; lia].
    unfold with_rx_counts, r2, with_rx_buffers. cbn. by rewrite <- app_assoc.
Qed.

(** Opening a frame either accepts the next chunk of the stream, on a fresh
    buffer, or abandons the stream. *)
Lemma open_chunk_run frame r r' out :
  session_ok (rx_session r) → open_chunk frame r = (r', out) →
  (∃ m p, accepted_chunk frame r m p ∧ out = Ok (S (length (rx_buffers r))) ∧ r' = received_chunk m p r) ∨
  (out = Raise AudioFrameError ∧ abandoned r r').
Proof.
  intros Hok Hrun.
  destruct (open_body frame (with_rx_buffers (rx_buffers r ++ [[]]) r, length (rx_buffers r))) as [s o] eqn:Eb.
  pose proof (open_body_run frame r s o Hok Eb) as Hb. destruct o as [[]|e].
  - left. destruct Hb as (m & p & Ha & ->). exists m, p. split; [done|].
    unfold open_chunk, alloc in Hrun. cbn [ok_or] in Hrun. rewrite Eb in Hrun. by injection Hrun as <- <-.
  - right. destruct Hb as [He Hb]. destruct (open_chunk_failed frame r s e Eb He Hb) as (r1 & Hr & Hab).
    rewrite Hr in Hrun. by injection Hrun as <- <-.
Qed.

(** ** What the sender puts on the wire *)

Lemma dupdate_frame v1 v2 v3 v4 m :
  let f := [(u "protocol_version", v1); (u "sequence", v2); (u "session_id", v3); (u "ciphertext", v4)] in
  dupdate f (metadata_dict m) = f ++ metadata_dict m ∧ keys_exactly FRAME_FIELDS (f ++ metadata_dict m) = true ∧
  ((λ k, (k, get k (f ++ metadata_dict m))) <$> AUDIO_FIELDS) = metadata_dict m.
Proof. split_and!; by vm_compute. Qed.

Lemma validate_metadata_dict m : metadata_ok m → _validate_metadata (metadata_dict m) = Ok m.
Proof.
  intros [Hi Hs Hl]. unfold _validate_metadata.
  change (keys_exactly AUDIO_FIELDS (metadata_dict m)) with true.
  change (get (u "audio_protocol_version") _) with (VInt 2). change (get (u "stream_id") _) with (VStr (stream_id m)).
  change (get (u "chunk_index") _) with (VInt (chunk_index m)). change (get (u "final") _) with (VBool (final m)).
  change (get (u "sample_rate") _) with (VInt 16000). change (get (u "channels") _) with (VInt 1).
  change (get (u "bits_per_sample") _) with (VInt 16). cbn [_validate_stream_id _validate_chunk_index]. rewrite Hs.
  rewrite (proj2 (Z.leb_le _ _)), (proj2 (Z.ltb_lt _ _)) by lia. cbn.
  destruct m as [i f sid]. cbn [chunk_index final stream_id] in *. destruct (Z.eqb_spec i (MAX_AUDIO_CHUNKS - 1)); [by rewrite Hl|done].
Qed.

Lemma alphabet_escape s : forallb Base64.alphabet s = true → concat (escape_char <$> s) = s.
Proof.
  induction s as [|c s IH]; [done|]. cbn [forallb]. intros [Hc Hs]%andb_prop. csimpl. rewrite IH by done.
  assert (escape_char c = [c]) as ->; [|done].
  unfold Base64.alphabet, ascii_alnum, ascii_alpha, ascii_upper, ascii_lower, ascii_digit in Hc.
  unfold escape_char. repeat (case_match; reflect; try lia); done.
Qed.

(** The text of the metadata, but for its variable parts, is short. *)
Lemma metadata_text_len (d t : pystr) (f : bool) :
  len (dump_items true
    [(u "audio_protocol_version", u "2"); (u "bits_per_sample", u "16"); (u "channels", u "1"); (u "chunk_index", d);
     (u "final", if f then u "true" else u "false"); (u "sample_rate", u "16000"); (u "stream_id", t)])
  <= 200 + len d + len t.
Proof.
  destruct f; vm_compute dump_items; autorewrite with len; lia.
Qed.

(** The additional data of a chunk always fits a record. *)
Lemma additional_data_ok m : metadata_ok m → ∃ aad, _additional_data m = Ok aad ∧ len aad <= MAX_ADDITIONAL_DATA_BYTES.
Proof.
  intros [Hi Hs _]. unfold is_stream_id, matches_class in Hs. apply andb_prop in Hs as [Ha Hl]. reflect.
  assert (int_repr (chunk_index m) = Ok (digits (chunk_index m)) ∧ len (digits (chunk_index m)) <= 6) as [Hd Hld].
  { pose proof (len_digits (chunk_index m)). unfold MAX_AUDIO_CHUNKS in *.
    pose proof (Z.log2_le_mono (chunk_index m) 63). change (Z.log2 63) with 5 in *. split; [|lia].
    unfold int_repr. rewrite Z.abs_eq by lia. rewrite (proj2 (Z.ltb_ge _ _)) by (unfold MAX_STR_DIGITS; lia).
    by rewrite (proj2 (Z.ltb_ge _ _)) by lia. }
  assert (Forall ascii (stream_id m)) as Hasc by by apply alphabet_text.
  set (items := [(u "audio_protocol_version", u "2"); (u "bits_per_sample", u "16"); (u "channels", u "1");
    (u "chunk_index", digits (chunk_index m)); (u "final", if final m then u "true" else u "false");
    (u "sample_rate", u "16000"); (u "stream_id", dump_str (stream_id m))]).
  assert (dumps true false (VDict (metadata_dict m)) = Ok (dump_items true items)) as Ht.
  { cbn [dumps metadata_dict chunk_index final stream_id]. rewrite Hd. by destruct (final m). }
  destruct (dump_bytes_ascii true false (VDict (metadata_dict m))) as (b & Hb & Hba).
  { cbn [value_text metadata_dict]. split_and!; try done; try (apply small_int_ascii; unfold MAX_AUDIO_CHUNKS in *; lia);
      apply (bool_decide_unpack _); by vm_compute. }
  assert (b = dump_items true items) as ->.
  { unfold dump_bytes in Hb. rewrite Ht in Hb. cbn [mbind result_bind] in Hb.
    destruct (utf8_encode (dump_items true items)) as [b'|] eqn:Eu; [|done]. injection Hb as ->.
    apply (utf8_roundtrip false) in Eu. pose proof (utf8_roundtrip false b b (utf8_encode_ascii b Hba)). congruence. }
  exists (AUDIO_AAD_PREFIX ++ dump_items true items). unfold _additional_data, _canonical. rewrite Hb. split; [done|].
  rewrite len_app. change (len AUDIO_AAD_PREFIX) with 14.
  pose proof (metadata_text_len (digits (chunk_index m)) (dump_str (stream_id m)) (final m)) as Hlen. fold items in Hlen.
  assert (len (dump_str (stream_id m)) = 2 + len (stream_id m)) as Hds.
  { unfold dump_str. rewrite alphabet_escape by done. autorewrite with len. lia. }
  unfold MAX_ADDITIONAL_DATA_BYTES. lia.
Qed.

Lemma seal_ok s p aad :
  session_ok s → closed s = false → len p <= MAX_RECORD_BYTES → len aad <= MAX_ADDITIONAL_DATA_BYTES →
  send_sequence s <= MAX_SEQUENCE →
  ∃ h, SecureSession._canonical (header s (send_sequence s)) = Ok h ∧
    seal p aad s = (with_send_sequence (send_sequence s + 1) s, Ok (record_of s (send_sequence s) h p aad)).
Proof.
  intros Hs Hc Hp Ha Hq. destruct (header_canonical s (send_sequence s)) as [h Hh]; [apply Hs|split; [apply Hs|done]|].
  exists h. split; [done|]. unfold seal, _ensure_open, _validate_additional_data, ensure, lift, gets, modify, mret, M_ret, mbind, M_bind.
  rewrite Hc, (proj2 (Z.ltb_ge _ _)) by done. rewrite (proj2 (Z.leb_le _ _)) by done. cbn [id result_bind].
  by rewrite (proj2 (Z.ltb_ge _ _)), Hh by done.
Qed.

(** The sender's place in its stream. *)
Record sending t : Prop := {
  sn_session : session_ok (tx_session t);
  sn_open : closed (tx_session t) = false;
  sn_stream : is_stream_id (tx_stream_id t) = true;
  sn_next : 0 <= tx_next_chunk t;
  sn_bytes : tx_stream_bytes t <= MAX_AUDIO_CHUNK_BYTES * tx_next_chunk t;
  sn_active : tx_finished t = false
}.

Definition sent_chunk (c : bytes) (fin : bool) t : audio_sender :=
  mkSender (with_send_sequence (send_sequence (tx_session t) + 1) (tx_session t)) (tx_stream_id t)
    (tx_next_chunk t + 1) (tx_stream_bytes t + len c) fin.

Lemma seal_chunk_ok t c fin :
  sending t → tx_next_chunk t < MAX_AUDIO_CHUNKS → chunk_size_ok c = true →
  (tx_next_chunk t = MAX_AUDIO_CHUNKS - 1 → fin = true) → send_sequence (tx_session t) <= MAX_SEQUENCE →
  let m := mkMetadata (tx_next_chunk t) fin (tx_stream_id t) in
  ∃ aad f, metadata_ok m ∧ _additional_data m = Ok aad ∧
    seal c aad (tx_session t) = (with_send_sequence (send_sequence (tx_session t) + 1) (tx_session t), Ok f) ∧
    seal_chunk c fin t = (sent_chunk c fin t, Ok (dupdate f (metadata_dict m))).
Proof.
  intros [Hs Hc Hid H0 Hb Hf] Hn Hsz Hfin Hq m. assert (metadata_ok m) as Hm by by split.
  pose proof Hsz as Hsz'. unfold chunk_size_ok in Hsz'. rewrite !andb_true_iff in Hsz'. reflect.
  destruct (additional_data_ok m Hm) as (aad & Ha & Hl).
  destruct (seal_ok (tx_session t) c aad) as (h & Hh & Hseal); try done.
  { unfold MAX_RECORD_BYTES, MAX_AUDIO_CHUNK_BYTES in *. lia. }
  exists aad, (record_of (tx_session t) (send_sequence (tx_session t)) h c aad). split_and!; try done.
  assert (next_metadata t c fin = Ok m) as Hnext.
  { unfold next_metadata, ensure, _validate_samples. rewrite Hf, Hsz. cbn [negb mbind result_bind].
    rewrite (proj2 (Z.ltb_lt _ _)) by done. cbn [mbind result_bind].
    rewrite (proj2 (Z.leb_le _ _)) by (unfold MAX_AUDIO_STREAM_BYTES, MAX_AUDIO_CHUNKS, MAX_AUDIO_CHUNK_BYTES in *; lia).
    assert (negb ((tx_next_chunk t =? MAX_AUDIO_CHUNKS - 1) && negb fin) = true) as ->
      by (destruct (Z.eqb_spec (tx_next_chunk t) (MAX_AUDIO_CHUNKS - 1)); [by rewrite Hfin|done]).
    exact (validate_metadata_dict m Hm). }
  unfold seal_chunk. erewrite bind_ok by reflexivity. erewrite bind_ok by (by apply lift_ok).
  erewrite bind_ok by (by apply lift_ok). erewrite bind_ok by exact (zoom_run tx_session with_tx_session _ t _ _ Hseal).
  done.
Qed.

(** A record opens the same with the metadata beside it. *)
Lemma read_record_metadata b a n h c aad m :
  read_record b (dupdate (record_of a n h c aad) (metadata_dict m)) aad = read_record b (record_of a n h c aad) aad.
Proof. unfold record_of, header. cbn [app]. by rewrite (proj1 (dupdate_frame _ _ _ _ m)). Qed.

Lemma frame_metadata_sealed a n h c aad m :
  metadata_ok m →
  let f := dupdate (record_of a n h c aad) (metadata_dict m) in frame_metadata (VDict f) = Ok (f, m).
Proof.
  intros Hm f. unfold f, record_of, header. cbn [app].
  match goal with |- context [VStr (_encode ?x)] => generalize (VStr (_encode x)); intros v4 end.
  destruct (dupdate_frame (VInt SECURE_PROTOCOL_VERSION) (VInt n) (VStr (session_id a)) v4 m) as (-> & Hk & Hp).
  unfold frame_metadata. rewrite Hk. cbn [ensure mbind result_bind]. rewrite Hp.
  by rewrite validate_metadata_dict.
Qed.

(** An accepted frame is received. *)
Lemma open_chunk_ok frame r m p :
  session_ok (rx_session r) → accepted_chunk frame r m p →
  open_chunk frame r = (received_chunk m p r, Ok (S (length (rx_buffers r)))).
Proof.
  intros Hok [(f & aad & Hf & Ha & Hc & Hp) Hexp Hsz Hb].
  assert (check_place m (with_rx_buffers (rx_buffers r ++ [[]]) r) =
    (with_rx_stream (Some (stream_id m)) (with_rx_buffers (rx_buffers r ++ [[]]) r), Ok tt)) as Hplace by by apply check_place_ok.
  assert (open f aad (rx_session r) = (with_receive_sequence (receive_sequence (rx_session r) + 1) (rx_session r), Ok p)) as Ho.
  { unfold open, _ensure_open, gets, lift, modify, mret, M_ret, mbind, M_bind. cbn [id]. by rewrite Hc, Hp. }
  assert (open_body frame (with_rx_buffers (rx_buffers r ++ [[]]) r, length (rx_buffers r)) =
    ((received_chunk m p r, S (length (rx_buffers r))), Ok tt)) as Hbody.
  { unfold open_body. erewrite bind_ok by (by apply lift_ok).
    erewrite bind_ok by exact (on_receiver_run _ _ _ _ _ Hplace). erewrite bind_ok by (by apply lift_ok).
    erewrite bind_ok by exact (on_receiver_run _ _ _ _ _ (zoom_run rx_session with_rx_session _
      (with_rx_stream (Some (stream_id m)) (with_rx_buffers (rx_buffers r ++ [[]]) r)) _ _ Ho)).
    erewrite bind_ok by reflexivity.
    erewrite bind_ok by (apply lift_ok; unfold _validate_decrypted_samples; by rewrite Hsz).
    erewrite bind_ok by reflexivity.
    erewrite bind_ok by (apply lift_ok; unfold ensure; change (rx_stream_bytes _) with (rx_stream_bytes r);
      by rewrite (proj2 (Z.leb_le _ _)) by done).
    unfold on_receiver, zoom, modify, received_chunk, with_rx_counts. cbn. rewrite length_app, <- app_assoc. simpl.
    do 3 f_equal. lia. }
  unfold open_chunk, alloc. cbn [ok_or]. by rewrite Hbody.
Qed.

(** ** A whole stream *)

(** The calls that send the chunks: the last one is final. *)
Fixpoint marked (cs : list bytes) : list (bytes * bool) :=
  match cs with
  | [] => []
  | [c] => [(c, true)]
  | c :: cs' => (c, false) :: marked cs'
  end.
Definition send_stream (cs : list bytes) : M audio_sender (list object) :=
  collect (λ cf, seal_chunk cf.1 cf.2) (marked cs).
Definition receive_stream (fs : list object) : M audio_receiver (list nat) :=
  collect (λ f, open_chunk (VDict f)) fs.

(** Both ends have seen the same chunks of a stream that has not ended. *)
Record in_step t r : Prop := {
  is_sending : sending t;
  is_session : session_ok (rx_session r);
  is_reads : reads (rx_session r) (tx_session t);
  is_sequence : receive_sequence (rx_session r) = send_sequence (tx_session t);
  is_open : closed (rx_session r) = false;
  is_next : rx_next_chunk r = tx_next_chunk t;
  is_bytes : rx_stream_bytes r = tx_stream_bytes t;
  is_active : rx_finished r = false;
  is_stream : match rx_stream_id r with Some s => s = tx_stream_id t | None => rx_next_chunk r = 0 end
}.

Definition chunk_ok (c : bytes) : Prop := chunk_size_ok c = true ∧ Forall is_octet c.

Lemma chunk_ok_len c : chunk_ok c → 0 < len c <= MAX_AUDIO_CHUNK_BYTES.
Proof. intros [Hc _]. unfold chunk_size_ok in Hc. reflect. lia. Qed.

Context {HA : AEADLaws A}.

(** One chunk crosses. *)
Lemma chunk_crosses t r c fin :
  in_step t r → chunk_ok c → tx_next_chunk t < MAX_AUDIO_CHUNKS →
  (tx_next_chunk t = MAX_AUDIO_CHUNKS - 1 → fin = true) → send_sequence (tx_session t) <= MAX_SEQUENCE →
  let m := mkMetadata (tx_next_chunk t) fin (tx_stream_id t) in
  ∃ f, seal_chunk c fin t = (sent_chunk c fin t, Ok f) ∧
    open_chunk (VDict f) r = (received_chunk m c r, Ok (S (length (rx_buffers r)))) ∧
    (fin = false → in_step (sent_chunk c fin t) (received_chunk m c r)).
Proof using HA.
  intros [Hsn Hs Hr Hq Hopen Hn Hb Hf Hid] Hc Hlt Hfin Hmax m.
  pose proof (chunk_ok_len c Hc) as Hl. destruct Hc as [Hsz Hoct].
  destruct (seal_chunk_ok t c fin Hsn Hlt Hsz Hfin Hmax) as (aad & f & Hm & Ha & Hseal & Hrun). fold m in Hm, Ha, Hrun.
  pose proof Hsn as [Hts Htc Htid Ht0 Htb Htf].
  destruct (open_seal (tx_session t) (rx_session r) c aad _ f Hts Hs Hr Hq Hopen Hoct Hseal) as (s' & Ho & Hr' & Hq').
  pose proof Ho as Ho2. apply open_run in Ho2 as [(p & _ & Hp & _ & [= <-] & ->)|[_ (e & [=] & _)]]; [|done].
  pose proof (wp_run _ _ _ _ _ (keeps_open f aad (rx_session r) Hs) Ho) as Hs'.
  pose proof (wp_run _ _ _ _ _ (keeps_seal c aad (tx_session t) Hts) Hseal) as Hts'.
  apply seal_run in Hseal as [(h & _ & _ & _ & _ & _ & [= ->] & _)|[_ (e & [=] & _)]]; [|done].
  exists (dupdate (record_of (tx_session t) (send_sequence (tx_session t)) h c aad) (metadata_dict m)).
  split_and!; [done| |].
  - apply open_chunk_ok; [done|]. split; [|split_and!; [done|done|]|done|].
    + eexists _, aad. split_and!; [by apply frame_metadata_sealed|done|done|]. by rewrite read_record_metadata.
    + destruct (rx_stream_id r); [by subst|]. simpl. lia.
    + rewrite Hb. unfold MAX_AUDIO_STREAM_BYTES, MAX_AUDIO_CHUNKS, MAX_AUDIO_CHUNK_BYTES in *. lia.
  - intros ->. split; try done; cbn; [|lia|by rewrite Hb].
    split; try done; cbn; lia.
Qed.

Lemma stream_crosses cs t r :
  in_step t r → cs ≠ [] → Forall chunk_ok cs → tx_next_chunk t + len cs <= MAX_AUDIO_CHUNKS →
  send_sequence (tx_session t) + len cs <= MAX_SEQUENCE + 1 →
  ∃ t' fs r' refs, send_stream cs t = (t', Ok fs) ∧ receive_stream fs r = (r', Ok refs) ∧
    Forall2 (λ ref c, rx_buffers r' !! ref = Some c) refs cs ∧ complete r' = true ∧
    rx_stream_bytes r' = rx_stream_bytes r + len (concat cs) ∧ rx_buffers r `prefix_of` rx_buffers r' ∧
    reads (rx_session r') (tx_session t') ∧ receive_sequence (rx_session r') = send_sequence (tx_session t').
Proof using HA.
  revert t r. induction cs as [|c cs IH]; [done|]. intros t r His _ [Hc Hcs]%Forall_cons Hn Hq. rewrite len_cons in Hn, Hq.
  pose proof (len_nonneg cs). destruct cs as [|c2 cs'].
  - destruct (chunk_crosses t r c true His Hc) as (f & Hs & Ho & _); [lia|done|lia|].
    eexists _, [f], _, _. unfold send_stream, receive_stream. cbn [marked collect fst snd].
    erewrite bind_ok by exact Hs. erewrite bind_ok by reflexivity. split; [reflexivity|].
    erewrite bind_ok by exact Ho. erewrite bind_ok by reflexivity. split; [reflexivity|].
    destruct His as [[] ? [] ? ? ? ? ? ?]. cbn [rx_buffers received_chunk complete rx_finished final rx_stream_bytes concat rx_session tx_session sent_chunk].
    split_and!; [|done|by rewrite app_nil_r|by eexists|done|cbn; lia].
    constructor; [|constructor]. by rewrite lookup_app_r, Nat.sub_succ_l, Nat.sub_diag by lia.
  - destruct (chunk_crosses t r c false His Hc) as (f & Hs & Ho & Hnext); [lia|rewrite len_cons in *; pose proof (len_nonneg cs'); lia|lia|].
    destruct (IH _ _ (Hnext eq_refl) ltac:(done) Hcs) as (t' & fs & r' & refs & Hst & Hrt & Hrefs & Hfin & Hbytes & Hpre & Hend);
      [cbn; lia|cbn; lia|].
    exists t', (f :: fs), r', (S (length (rx_buffers r)) :: refs). unfold send_stream, receive_stream in *.
    cbn [marked collect fst snd]. erewrite bind_ok by exact Hs. erewrite bind_ok by exact Hst. split; [reflexivity|].
    erewrite bind_ok by exact Ho. erewrite bind_ok by exact Hrt. split; [reflexivity|].
    split_and!; [|done| | |apply Hend..].
    + constructor; [|done]. eapply prefix_lookup_Some; [|exact Hpre]. cbn [rx_buffers received_chunk].
      by rewrite lookup_app_r, Nat.sub_succ_l, Nat.sub_diag by lia.
    + rewrite Hbytes. cbn [rx_stream_bytes received_chunk concat]. rewrite !len_app. lia.
    + etransitivity; [|exact Hpre]. by eexists.
Qed.

(** A stream of at most 64 well-formed chunks crosses an authenticated
    session unchanged: the sender seals every chunk, the receiver accepts every
    frame in order, each returned buffer holds the chunk that was sent, the
    stream is complete with its last chunk and its byte count is exact. *)
Theorem audio_roundtrip a b sid cs (Ha : session_ok a) (Hb : session_ok b) (Hreads : reads b a)
    (Hstep : receive_sequence b = send_sequence a) (Hopen : closed a = false ∧ closed b = false)
    (Hid : is_stream_id sid = true) (Hcs : Forall chunk_ok cs) (Hn : 1 <= len cs <= MAX_AUDIO_CHUNKS)
    (Hq : send_sequence a + len cs <= MAX_SEQUENCE + 1) :
  ∃ t' fs r' refs, send_stream cs (mkSender a sid 0 0 false) = (t', Ok fs) ∧
    receive_stream fs (new_receiver b) = (r', Ok refs) ∧
    Forall2 (λ ref c, rx_buffers r' !! ref = Some c) refs cs ∧ complete r' = true ∧
    rx_stream_bytes r' = len (concat cs) ∧
    reads (rx_session r') (tx_session t') ∧ receive_sequence (rx_session r') = send_sequence (tx_session t').
Proof using HA.
  destruct (stream_crosses cs (mkSender a sid 0 0 false) (new_receiver b))
    as (t' & fs & r' & refs & Hs & Hr & Hrefs & Hc & Hby & _ & Hend); cbn; try done; try lia.
  - destruct Hopen. by split; [split; cbn; try done; lia|..].
  - intros ->. rewrite len_nil in Hn. lia.
  - exists t', fs, r', refs. split_and!; [done..|by rewrite Hby|apply Hend|apply Hend].
Qed.

(** A frame is accepted exactly when it is the next chunk of the stream and
    its record authenticates; its samples are then in a fresh buffer.  Any
    other frame raises [AudioFrameError], forgets the stream, closes the secure
    session and leaves no sample in a buffer. *)
Theorem open_chunk_exact frame r (Hok : session_ok (rx_session r)) :
  (∃ m p, accepted_chunk frame r m p ∧
     open_chunk frame r = (received_chunk m p r, Ok (S (length (rx_buffers r))))) ∨
  ((¬ ∃ m p, accepted_chunk frame r m p) ∧
   ∃ r', open_chunk frame r = (r', Raise AudioFrameError) ∧ abandoned r r').
Proof.
  destruct (open_chunk frame r) as [r' out] eqn:Hrun.
  destruct (open_chunk_run frame r r' out Hok Hrun) as [(m & p & Ha & -> & ->)|[-> Hab]].
  - left. by exists m, p.
  - right. split; [|by exists r']. intros (m & p & Ha). by rewrite (open_chunk_ok frame r m p Hok Ha) in Hrun.
Qed.

(** ** Bounds *)

(** The receiver's counters, between calls. *)
Record receiver_ok r : Prop := {
  ro_session : session_ok (rx_session r);
  ro_next : 0 <= rx_next_chunk r <= MAX_AUDIO_CHUNKS;
  ro_bytes : 0 <= rx_stream_bytes r <= MAX_AUDIO_CHUNK_BYTES * rx_next_chunk r;
  ro_last : rx_next_chunk r = MAX_AUDIO_CHUNKS → rx_finished r = true
}.

Lemma new_receiver_ok s : session_ok s → receiver_ok (new_receiver s).
Proof. by split. Qed.

Lemma accepted_metadata frame r m p : accepted_chunk frame r m p → metadata_ok m.
Proof.
  intros [(f & aad & Hf & _) _ _ _]. destruct frame; try done. unfold frame_metadata, mbind, result_bind in Hf.
  destruct (ensure _ _); [|done]. destruct (_validate_metadata _) as [m'|] eqn:Em; [|done]. injection Hf as _ ->.
  by apply validate_metadata_ok in Em as [? _].
Qed.

Lemma received_chunk_ok frame r m p :
  receiver_ok r → accepted_chunk frame r m p → receiver_ok (received_chunk m p r).
Proof.
  intros [Hs Hn Hb Hl] Ha. pose proof (accepted_metadata _ _ _ _ Ha) as [Hi _ Hlast].
  destruct Ha as [(f & aad & _ & _ & Hc & Hp) (Hf & Hidx & _) Hsz _].
  assert (Forall is_octet p → chunk_ok p) as Hck by by split. unfold chunk_size_ok in Hsz. reflect.
  split; cbn.
  - assert (open f aad (rx_session r) = (with_receive_sequence (receive_sequence (rx_session r) + 1) (rx_session r), Ok p)) as Ho.
    { unfold open, _ensure_open, gets, lift, modify, mret, M_ret, mbind, M_bind. cbn [id]. by rewrite Hc, Hp. }
    exact (wp_run _ _ _ _ _ (keeps_open f aad (rx_session r) Hs) Ho).
  - lia.
  - lia.
  - intros Hmax. apply Hlast. lia.
Qed.

Lemma abandoned_ok r r' : abandoned r r' → receiver_ok r'.
Proof. intros [(_ & Hn & Hb & _) _ Hs _]. by split; rewrite ?Hn, ?Hb. Qed.

Lemma keeps_open_chunk frame : keeps receiver_ok (open_chunk frame).
Proof.
  intros r Hr. apply wp_intro. intros r' out Hrun.
  apply open_chunk_run in Hrun as [(m & p & Ha & _ & ->)|[_ Hab]]; [by eapply received_chunk_ok|by eapply abandoned_ok|apply Hr].
Qed.

Lemma keeps_cancel_receiving : keeps receiver_ok cancel_receiving.
Proof. apply keeps_modify. by intros r [? _ _ _]. Qed.

Lemma keeps_close_receiver : keeps receiver_ok close_receiver.
Proof. intros r [Hs _ _ _]. split; try done. by apply keeps_close in Hs. Qed.

Lemma duration_bound r : receiver_ok r → 0 <= stream_duration_ms r <= MAX_AUDIO_STREAM_DURATION_MS.
Proof.
  intros [_ Hn Hb _]. unfold stream_duration_ms, duration_ms. change (AUDIO_SAMPLE_RATE * _ * _) with 32000.
  change MAX_AUDIO_STREAM_DURATION_MS with 8192. unfold MAX_AUDIO_CHUNKS, MAX_AUDIO_CHUNK_BYTES in *. lia.
Qed.
End Facts.

(** ** Two chunks between the ends of one session *)

Definition sample_chunks : list bytes := [[1; 2; 3; 4]; [5; 6]].

Lemma audio_roundtrip_witness :
  ∃ t' fs r' refs, send_stream sample_chunks (mkSender sample_a (u "voz-1") 0 0 false) = (t', Ok fs) ∧
    receive_stream fs (new_receiver sample_b) = (r', Ok refs) ∧
    Forall2 (λ ref c, rx_buffers r' !! ref = Some c) refs sample_chunks ∧ complete r' = true ∧
    rx_stream_bytes r' = len (concat sample_chunks) ∧
    reads (rx_session r') (tx_session t') ∧ receive_sequence (rx_session r') = send_sequence (tx_session t').
Proof.
  refine (audio_roundtrip (A := toy_aead) sample_a sample_b (u "voz-1") sample_chunks sample_a_ok sample_b_ok sample_reads
    eq_refl (conj eq_refl eq_refl) eq_refl _ _ _).
  - apply (bool_decide_unpack _). vm_compute. exact I.
  - split; discriminate.
  - discriminate.
Defined.

(** A second chunk sent before the first: refused, and the session closed. *)
Definition sample_frames : list object :=
  ok_or [] (send_stream sample_chunks (mkSender sample_a (u "voz-1") 0 0 false)).2.
Definition late_frame : value := VDict (default [] (sample_frames !! 1%nat)).

Lemma open_chunk_exact_witness :
  ∃ r', open_chunk late_frame (new_receiver sample_b) = (r', Raise AudioFrameError) ∧ closed (rx_session r') = true.
Proof.
  destruct (open_chunk_exact late_frame (new_receiver sample_b) sample_b_ok) as [(m & p & _ & Hrun)|[_ (r' & Hrun & Hab)]].
  - exfalso. apply (f_equal (λ x, is_ok x.2)) in Hrun. vm_compute in Hrun. discriminate.
  - exists r'. split; [exact Hrun|apply Hab].
Defined.
