(* ===== verification/SecureAudio.v ===== *)
(** * The audio lifecycle: [windows-agent/secure_audio.py], consumer,
    transcriber and command bridge

    [SecureAudioConsumer] hands each authenticated chunk to a callback and
    zeroes its buffer; [SecureAudioTranscriber] is that callback around an
    injected speech provider; [SecureAudioCommandBridge] dispatches the one
    final transcript.  The provider, its reset and the dispatcher are
    parameters: they act on a state of their own and may raise anything; the
    provider may also overwrite the buffer it is shown.  They are taken to keep
    no export of the view they are shown, such as an array built over it: with
    one, [view.release()] would raise [BufferError] before the buffer is
    zeroed. *)
From S2P Require Import Prelude Dict Value Effects TextPolicy Crypto SecureSession Audio.

(** ** [SecureAudioConsumer] *)

Record audio_consumer := mkConsumer {
  receiver : audio_receiver;
  gate : AudioCaptureState;
  on_chunk : bool;            (* the callback is still referenced *)
  consumer_closed : bool;
  consumer_finished : bool
}.
Definition with_receiver (r : audio_receiver) (c : audio_consumer) : audio_consumer :=
  mkConsumer r (gate c) (on_chunk c) (consumer_closed c) (consumer_finished c).
Definition with_gate (g : AudioCaptureState) (c : audio_consumer) : audio_consumer :=
  mkConsumer (receiver c) g (on_chunk c) (consumer_closed c) (consumer_finished c).
Definition with_finished (b : bool) (c : audio_consumer) : audio_consumer :=
  mkConsumer (receiver c) (gate c) (on_chunk c) (consumer_closed c) b.
Definition dropped (c : audio_consumer) : audio_consumer :=
  mkConsumer (receiver c) (gate c) false true (consumer_finished c).

Definition new_consumer (r : audio_receiver) (g : AudioCaptureState) : audio_consumer :=
  mkConsumer r g true false false.

Definition on_gate {B} (m : M AudioCaptureState B) : M audio_consumer B := zoom gate with_gate m.
Definition on_rx {B} (m : M audio_receiver B) : M audio_consumer B := zoom receiver with_receiver m.

(** [not gate.begin_draining() or not gate.finish_draining()] *)
Definition cannot_drain : M audio_consumer bool :=
  on_gate begin_draining ≫= λ b,
  if b : bool then on_gate finish_draining ≫= λ f, mret (negb f) else mret true.

Definition begin_capture (display_ready consented secure_transport_ready : bool) : M audio_consumer unit :=
  gets consumer_closed ≫= λ c,
  if c : bool then raise AudioFrameError
  else
    on_gate (begin_listening display_ready consented secure_transport_ready) ≫= λ b,
    if b : bool then mret tt else raise AudioFrameError.

Definition close_consumer : M audio_consumer unit :=
  gets consumer_closed ≫= λ c,
  if c : bool then mret tt
  else
    on_rx close_receiver ≫= λ _, on_gate fail ≫= λ _,
    modify (λ c, with_finished false (dropped c)).

Definition finalize_consumer : M audio_consumer AudioStreamSummary :=
  gets (λ c, consumer_closed c || negb (consumer_finished c) || negb (complete (receiver c))) ≫= λ bad,
  if bad : bool then close_consumer ≫= λ _, raise AudioFrameError
  else
    cannot_drain ≫= λ stuck,
    if stuck : bool then close_consumer ≫= λ _, raise AudioFrameError
    else gets (λ c, mkSummary (rx_stream_bytes (receiver c)) (stream_duration_ms (receiver c))).

Definition cancel_consumer : M audio_consumer unit :=
  gets consumer_closed ≫= λ c,
  if c : bool then mret tt
  else
    on_rx cancel_receiving ≫= λ _,
    gets (λ c, bool_decide (gate c = LISTENING)) ≫= λ l,
    (if l : bool then cannot_drain ≫= λ stuck, if stuck : bool then on_gate fail else mret tt else mret tt) ≫= λ _,
    modify (with_finished false).

Section Consumer.
(** The callback acts on the state of its object and on the buffer it is
    shown; its argument tells whether the chunk is the final one.  It keeps no
    export of the view, so [view.release()] succeeds and has no effect on the
    state. *)
Context `{A : AEAD} {C : Type} (callback : bool → M (C * bytes) unit).

Definition on_consumer {B} (m : M audio_consumer B) : M (audio_consumer * C) B := zoom fst (λ c s, (c, s.2)) m.

(** [callback(memoryview(buffer), final)] *)
Definition call_back (ref : nat) (fin : bool) : M (audio_consumer * C) unit := λ s,
  let r := receiver s.1 in
  let '((c, b), out) := callback fin (s.2, default [] (rx_buffers r !! ref)) in
  ((with_receiver (with_rx_buffers (<[ref := b]> (rx_buffers r)) r) s.1, c), out).

(** The body of the second [try] of [consume_frame]. *)
Definition deliver (ref : nat) (fin : bool) : M (audio_consumer * C) unit :=
  gets (λ s, on_chunk s.1) ≫= λ held,
  if negb held then raise AudioFrameError else call_back ref fin.

Definition consume_frame (frame : value) : M (audio_consumer * C) bool :=
  gets (λ s, consumer_closed s.1) ≫= λ closed,
  if closed : bool then raise AudioFrameError
  else
    gets (λ s, consumer_finished s.1) ≫= λ finished,
    if finished : bool then on_consumer close_consumer ≫= λ _, raise AudioFrameError
    else
      gets (λ s, can_capture (gate s.1)) ≫= λ capturing,
      if negb capturing then on_consumer close_consumer ≫= λ _, raise AudioFrameError
      else
        cleanup (on_consumer (on_rx (open_chunk frame))) [AudioFrameError]
          (on_consumer (on_gate fail ≫= λ _, modify dropped)) ≫= λ samples,
        gets (λ s, complete (receiver s.1)) ≫= λ fin,
        finally
          (try_with (deliver samples fin)
             (λ e, on_consumer close_consumer ≫= λ _, raise AudioFrameError))
          (on_consumer (on_rx (_zero_buffer samples))) ≫= λ _,
        on_consumer (modify (with_finished fin)) ≫= λ _,
        mret fin.
End Consumer.

(** ** [SecureAudioTranscriber] *)

Section Transcriber.
(** The provider returns a value ([None] for no transcript). *)
Context `{A : AEAD} {P : Type} (provider : bool → M (P * bytes) value) (reset_provider : M P unit).

Record transcriber := mkTranscriber {
  transcript : option pystr;
  provider_held : bool;
  reset_held : bool;
  provider_closed : bool;
  finalized : bool;
  provider_state : P
}.
Definition with_transcript (t : option pystr) (x : transcriber) : transcriber :=
  mkTranscriber t (provider_held x) (reset_held x) (provider_closed x) (finalized x) (provider_state x).
Definition with_finalized (b : bool) (x : transcriber) : transcriber :=
  mkTranscriber (transcript x) (provider_held x) (reset_held x) (provider_closed x) b (provider_state x).
Definition with_provider_state (p : P) (x : transcriber) : transcriber :=
  mkTranscriber (transcript x) (provider_held x) (reset_held x) (provider_closed x) (finalized x) p.

(** [reset] tells whether a [reset_provider] was given. *)
Definition new_transcriber (reset : bool) (p : P) : transcriber := mkTranscriber None true reset false false p.

(** [provider(view, final)] *)
Definition provide (fin : bool) : M (transcriber * bytes) value := λ s,
  let '((p, b), out) := provider fin (provider_state s.1, s.2) in ((with_provider_state p s.1, b), out).

Definition on_fields {B} (m : M transcriber B) : M (transcriber * bytes) B := zoom fst (λ x s, (x, s.2)) m.

Definition _consume_chunk (fin : bool) : M (transcriber * bytes) unit :=
  gets (λ s, transcript s.1) ≫= λ t,
  match t with
  | Some _ => raise AudioFrameError
  | None =>
    gets (λ s, provider_held s.1) ≫= λ held,
    if negb held then raise AudioFrameError
    else
      provide fin ≫= λ result,
      match result with
      | VNone => mret tt
      | _ =>
        if negb fin then raise AudioFrameError
        else
          lift (reraise [ValueError] AudioFrameError
                  (t ← validate_bounded_text result 4000 false; Ok (strip t))) ≫= λ t,
          on_fields (modify (with_transcript (Some t)))
      end
  end.

Definition tstate : Type := audio_consumer * transcriber.
Definition on_tc {B} (m : M audio_consumer B) : M tstate B := zoom fst (λ c s, (c, s.2)) m.
Definition on_t {B} (m : M transcriber B) : M tstate B := zoom snd (λ x s, (s.1, x)) m.

(** [SecureAudioTranscriber.closed] and [.transcript] *)
Definition transcriber_closed (s : tstate) : bool := provider_closed s.2 || consumer_closed s.1.
Definition final_transcript (x : transcriber) : option pystr := if finalized x then transcript x else None.

(** [reset_provider()] *)
Definition call_reset : M transcriber unit := zoom provider_state with_provider_state reset_provider.

Definition close_transcriber : M tstate unit :=
  gets (λ s, provider_closed s.2) ≫= λ c,
  if c : bool then mret tt
  else
    gets (λ s, reset_held s.2) ≫= λ reset,
    on_t (modify (λ x, mkTranscriber None false false true false (provider_state x))) ≫= λ _,
    finally (try_with (if reset : bool then on_t call_reset else mret tt) (λ _, mret tt))
      (on_tc close_consumer).

Definition _reset_provider_state : M transcriber unit :=
  gets reset_held ≫= λ reset,
  if negb reset then mret tt else try_with call_reset (λ _, raise AudioFrameError).

Definition begin_transcribing (display_ready consented secure_transport_ready : bool) : M tstate unit :=
  on_tc (begin_capture display_ready consented secure_transport_ready).

Definition transcribe_frame (frame : value) : M tstate bool :=
  gets transcriber_closed ≫= λ c,
  if c : bool then raise AudioFrameError else consume_frame _consume_chunk frame.

Definition finalize_transcriber : M tstate AudioStreamSummary :=
  on_tc finalize_consumer ≫= λ summary,
  gets (λ s, transcript s.2) ≫= λ t,
  match t with
  | None => close_transcriber ≫= λ _, raise AudioFrameError
  | Some _ => on_t (modify (with_finalized true)) ≫= λ _, mret summary
  end.

Definition cancel_transcriber : M tstate unit :=
  gets transcriber_closed ≫= λ c,
  if c : bool then mret tt
  else
    cleanup (on_tc cancel_consumer ≫= λ _, on_t _reset_provider_state) [AudioFrameError] close_transcriber ≫= λ _,
    on_t (modify (λ x, with_finalized false (with_transcript None x))).

(** ** [SecureAudioCommandBridge] *)

Context {D : Type} (dispatch : pystr → M D value).

Record bridge := mkBridge {
  transcriber_held : bool;
  dispatch_held : bool;
  dispatched : bool;
  lifecycle : tstate;
  dispatcher : D
}.
Definition with_lifecycle (s : tstate) (b : bridge) : bridge :=
  mkBridge (transcriber_held b) (dispatch_held b) (dispatched b) s (dispatcher b).
Definition with_dispatched (x : bool) (b : bridge) : bridge :=
  mkBridge (transcriber_held b) (dispatch_held b) x (lifecycle b) (dispatcher b).
Definition with_dispatcher (d : D) (b : bridge) : bridge :=
  mkBridge (transcriber_held b) (dispatch_held b) (dispatched b) (lifecycle b) d.

Definition new_bridge (s : tstate) (d : D) : bridge := mkBridge true true false s d.

Definition on_lifecycle {B} (m : M tstate B) : M bridge B := zoom lifecycle with_lifecycle m.

Definition close_bridge : M bridge unit :=
  gets transcriber_held ≫= λ held,
  modify (λ b, mkBridge false false (dispatched b) (lifecycle b) (dispatcher b)) ≫= λ _,
  if held : bool then on_lifecycle close_transcriber else mret tt.

Definition _require_transcriber : M bridge unit :=
  gets (λ b, negb (transcriber_held b) || transcriber_closed (lifecycle b)) ≫= λ gone,
  if gone : bool then close_bridge ≫= λ _, raise AudioFrameError else mret tt.

Definition bridge_begin (display_ready consented secure_transport_ready : bool) : M bridge unit :=
  _require_transcriber ≫= λ _, on_lifecycle (begin_transcribing display_ready consented secure_transport_ready).
Definition bridge_frame (frame : value) : M bridge bool :=
  _require_transcriber ≫= λ _, on_lifecycle (transcribe_frame frame).

Definition bridge_finalize : M bridge (AudioStreamSummary * value) :=
  gets dispatched ≫= λ d,
  if d : bool then raise AudioFrameError
  else
    _require_transcriber ≫= λ _,
    try_with (on_lifecycle finalize_transcriber)
      (λ _, close_bridge ≫= λ _, raise AudioFrameError) ≫= λ summary,
    gets (λ b, final_transcript (lifecycle b).2) ≫= λ t,
    gets dispatch_held ≫= λ held,
    match t, held with
    | Some t, true =>
      try_with (zoom dispatcher with_dispatcher (dispatch t))
        (λ _, close_bridge ≫= λ _, raise AudioFrameError) ≫= λ result,
      modify (with_dispatched true) ≫= λ _,
      close_bridge ≫= λ _,
      mret (summary, result)
    | _, _ => close_bridge ≫= λ _, raise AudioFrameError
    end.

Definition bridge_cancel : M bridge unit :=
  gets transcriber_held ≫= λ held,
  if negb held then mret tt
  else on_lifecycle cancel_transcriber ≫= λ _, modify (with_dispatched false).
End Transcriber.

(** ** The consumer *)

Section ConsumerFacts.
Context `{A : AEAD}.
Implicit Types (c : audio_consumer) (r : audio_receiver).

(** The outcomes of the consumer's methods, as functions of its fields. *)
Definition closed_rx r : audio_receiver := mkReceiver (with_closed (rx_session r)) None 0 0 false (rx_buffers r).
Definition shut c : audio_consumer :=
  if consumer_closed c then c else mkConsumer (closed_rx (receiver c)) ERROR false true false.

Lemma close_consumer_run c : close_consumer c = (shut c, Ok tt).
Proof. by destruct c as [[] ? ? [] ?]. Qed.

Lemma begin_capture_run c d k s c' out :
  begin_capture d k s c = (c', out) →
  (out = Ok tt ∧ d = true ∧ k = true ∧ s = true ∧ consumer_closed c = false ∧ gate c = CODEC_READY ∧ c' = with_gate LISTENING c) ∨
  (out = Raise AudioFrameError ∧ c' = c).
Proof.
  destruct c as [r g oc [] fi].
  - intros [= <- <-]. by right.
  - unfold begin_capture, on_gate, zoom, begin_listening, mbind, M_bind, gets. cbn.
    case_bool_decide as Hg; [subst g|by intros [= <- <-]; right].
    destruct d, k, s; intros [= <- <-]; first [by right|by left].
Qed.

Lemma cannot_drain_run c :
  cannot_drain c = if decide (gate c = LISTENING) then (with_gate CODEC_READY c, Ok false) else (c, Ok true).
Proof. by destruct c as [r [] oc cl fi]. Qed.

Definition summary_of r : AudioStreamSummary := mkSummary (rx_stream_bytes r) (stream_duration_ms r).

Lemma finalize_consumer_run c c' out :
  finalize_consumer c = (c', out) →
  (out = Ok (summary_of (receiver c)) ∧ consumer_closed c = false ∧ consumer_finished c = true ∧
     complete (receiver c) = true ∧ gate c = LISTENING ∧ c' = with_gate CODEC_READY c) ∨
  (out = Raise AudioFrameError ∧ c' = shut c).
Proof.
  unfold finalize_consumer. erewrite bind_ok by reflexivity.
  destruct (consumer_closed c || _ || _) eqn:Hb.
  - erewrite bind_ok by apply close_consumer_run. intros [= <- <-]. by right.
  - apply orb_false_iff in Hb as [[Hc Hf]%orb_false_iff Hr]. apply negb_false_iff in Hf, Hr.
    destruct (decide (gate c = LISTENING)) as [Hg|Hg].
    + erewrite bind_ok by (rewrite cannot_drain_run, decide_True by done; reflexivity).
      intros [= <- <-]. left. by destruct c.
    + erewrite bind_ok by (rewrite cannot_drain_run, decide_False by done; reflexivity). cbv iota.
      erewrite bind_ok by apply close_consumer_run. intros [= <- <-]. by right.
Qed.

Definition discarded r : audio_receiver := mkReceiver (rx_session r) None 0 0 false (rx_buffers r).

Lemma cancel_consumer_run c :
  cancel_consumer c = (if consumer_closed c then c
    else mkConsumer (discarded (receiver c)) (if decide (gate c = LISTENING) then CODEC_READY else gate c)
           (on_chunk c) false false, Ok tt).
Proof. by destruct c as [[] [] ? [] ?]. Qed.

(** Between the calls of its methods. *)
Record consumer_ok c : Prop := {
  co_receiver : receiver_ok (receiver c);
  co_zero : Forall all_zero (rx_buffers (receiver c));
  co_closed : consumer_closed c = true →
    on_chunk c = false ∧ gate c ≠ LISTENING ∧ closed (rx_session (receiver c)) = true;
  co_held : consumer_closed c = false → on_chunk c = true
}.

Lemma new_consumer_ok s : session_ok s → consumer_ok (new_consumer (new_receiver s) DISABLED).
Proof. intros Hs. split; [by apply new_receiver_ok|constructor|done|done]. Qed.

Lemma shut_ok c : consumer_ok c → consumer_ok (shut c).
Proof.
  intros Hc. unfold shut. destruct (consumer_closed c) eqn:Ec; [done|]. destruct Hc as [[Hs _ _ _] Hz _ _].
  split; [split|done|done|done]; try done. by apply keeps_close in Hs.
Qed.

Lemma shut_closed c : consumer_closed (shut c) = true.
Proof. unfold shut. by destruct (consumer_closed c) eqn:Ec. Qed.

Lemma with_gate_ok g c : consumer_ok c → consumer_closed c = false → consumer_ok (with_gate g c).
Proof. intros [? ? ? ?] Hc. split; [done|done|by cbn; rewrite Hc|done]. Qed.

Lemma discarded_ok r : receiver_ok r → receiver_ok (discarded r).
Proof. intros [Hs _ _ _]. by split. Qed.

Lemma alter_after (l : list bytes) x y : alter zeros (S (length l)) (l ++ [x; y]) = l ++ [x; zeros y].
Proof. induction l as [|w l IH]; [done|]. simpl. f_equal. apply IH. Qed.
End ConsumerFacts.

Section Delivery.
Context `{A : AEAD} {C : Type} (callback : bool → M (C * bytes) unit).
Implicit Types (c : audio_consumer) (r : audio_receiver) (x : C).

Lemma on_consumer_run {B} (k : M audio_consumer B) c x c' o :
  k c = (c', o) → on_consumer k (c, x) = ((c', x), o).
Proof. intros Hk. exact (zoom_run _ _ _ (c, x) _ _ Hk). Qed.

(** The chunk was shown to the callback and its buffer zeroed. *)
Definition after_chunk m p (b : bytes) c : audio_consumer :=
  mkConsumer (with_rx_buffers (rx_buffers (receiver c) ++ [[]; zeros b]) (received_chunk m p (receiver c)))
    LISTENING true false (final m).

Lemma after_chunk_ok frame m p b c :
  consumer_ok c → accepted_chunk frame (receiver c) m p → consumer_ok (after_chunk m p b c).
Proof.
  intros Hc Ha. split; [|..|done|done].
  - destruct (received_chunk_ok frame _ _ _ (co_receiver c Hc) Ha) as [H1 H2 H3 H4]. by split.
  - cbn. apply Forall_app. split; [apply Hc|]. repeat constructor. apply all_zero_zeros.
Qed.

(** [deliver] and the [try] around it. *)
Lemma deliver_run m p c x x' b o :
  on_chunk c = true → callback (final m) (x, p) = ((x', b), o) →
  let c1 := with_receiver (received_chunk m p (receiver c)) c in
  let c2 := with_receiver (with_rx_buffers (rx_buffers (receiver c) ++ [[]; b]) (receiver c1)) c in
  deliver callback (S (length (rx_buffers (receiver c)))) (final m) (c1, x) = ((c2, x'), o).
Proof.
  intros Hon Hcb c1 c2. unfold deliver. erewrite bind_ok by reflexivity. change (on_chunk (c1, x).1) with (on_chunk c).
  rewrite Hon. cbn [negb]. unfold call_back.
  change (rx_buffers (receiver (c1, x).1)) with (rx_buffers (receiver c) ++ [[]; p]).
  assert (∀ y, (rx_buffers (receiver c) ++ [[]; y]) !! S (length (rx_buffers (receiver c))) = Some y) as Hl.
  { intros y. rewrite lookup_app_r by lia. by rewrite Nat.sub_succ_l, Nat.sub_diag by lia. }
  rewrite Hl. change (default [] (Some p)) with p. cbn [fst snd]. rewrite Hcb.
  rewrite insert_app_r_alt by lia. rewrite Nat.sub_succ_l, Nat.sub_diag by lia. done.
Qed.

Lemma consume_frame_run frame c x s out :
  consumer_ok c → consume_frame callback frame (c, x) = (s, out) →
  consumer_ok s.1 ∧
  ((s.2 = x ∧ out = Raise AudioFrameError ∧ consumer_closed s.1 = true) ∨
   (∃ m p b o, accepted_chunk frame (receiver c) m p ∧ consumer_closed c = false ∧ consumer_finished c = false ∧
      gate c = LISTENING ∧ callback (final m) (x, p) = ((s.2, b), o) ∧
      match o with
      | Ok _ => out = Ok (final m) ∧ s.1 = after_chunk m p b c
      | Raise _ => out = Raise AudioFrameError ∧ consumer_closed s.1 = true
      end)).
Proof.
  intros Hc. unfold consume_frame. erewrite bind_ok by reflexivity. cbn [fst snd].
  destruct (consumer_closed c) eqn:Ecl; [intros [= <- <-]; split; [done|left; by split_and!]|].
  erewrite bind_ok by reflexivity. cbn [fst snd]. destruct (consumer_finished c) eqn:Efi.
  { erewrite bind_ok by exact (on_consumer_run _ _ _ _ _ (close_consumer_run c)). intros [= <- <-].
    split; [by apply shut_ok|left]. split_and!; [done|done|apply shut_closed]. }
  erewrite bind_ok by reflexivity. cbn [fst snd]. unfold can_capture.
  case_bool_decide as Hg; cbn [negb]; cbv iota.
  2:{ erewrite bind_ok by exact (on_consumer_run _ _ _ _ _ (close_consumer_run c)). intros [= <- <-].
    split; [by apply shut_ok|left]. split_and!; [done|done|apply shut_closed]. }
  destruct (open_chunk frame (receiver c)) as [r1 o1] eqn:Eo.
  pose proof (on_consumer_run _ c x _ _ (zoom_run receiver with_receiver _ c _ _ Eo)) as Hrx.
  destruct (open_chunk_run frame _ _ _ (ro_session _ (co_receiver c Hc)) Eo) as [(m & p & Ha & -> & ->)|[-> Hab]].
  2:{ erewrite bind_raise by (eapply cleanup_caught; [exact Hrx|done|reflexivity]). intros [= <- <-].
    split; [|left; by split_and!]. split; try done.
    - by eapply abandoned_ok.
    - destruct (ab_buffers _ _ Hab) as (h & Hh & Hz). cbn. rewrite Hh. apply Forall_app. split; [apply Hc|done].
    - intros _. split_and!; [done|done|apply Hab]. }
  erewrite bind_ok by (eapply cleanup_ok; exact Hrx). erewrite bind_ok by reflexivity.
  change (complete (receiver (_, x).1)) with (final m).
  destruct (callback (final m) (x, p)) as [[x' b] o] eqn:Ecb.
  pose proof (deliver_run m p c x x' b o (co_held c Hc Ecl) Ecb) as Hd. cbv zeta in Hd.
  set (c2 := with_receiver (with_rx_buffers _ _) c) in Hd.
  assert (_zero_buffer (S (length (rx_buffers (receiver c)))) (receiver c2) =
    (receiver (after_chunk m p b c), Ok tt)) as Hz.
  { unfold _zero_buffer, modify. change (rx_buffers (receiver c2)) with (rx_buffers (receiver c) ++ [[]; b]).
    by rewrite alter_after. }
  pose proof (after_chunk_ok frame m p b c Hc Ha) as Hok.
  destruct o as [[]|e].
  - erewrite bind_ok.
    2:{ eapply finally_run; [apply try_ok; exact Hd|].
        exact (on_consumer_run _ _ x' _ _ (zoom_run receiver with_receiver _ c2 _ _ Hz)). }
    assert (with_finished (final m) (with_receiver (receiver (after_chunk m p b c)) c2) = after_chunk m p b c) as Heq.
    { unfold c2, with_finished, with_receiver, after_chunk. cbn. by rewrite Hg, Ecl, (co_held c Hc Ecl). }
    intros [= <- <-]. cbn [fst snd].
    match goal with |- consumer_ok ?y ∧ _ =>
      change y with (with_finished (final m) (with_receiver (receiver (after_chunk m p b c)) c2)) end.
    rewrite Heq. split; [done|]. right. exists m, p, b, (Ok tt). by split_and!.
  - assert (finally (try_with (deliver callback (S (length (rx_buffers (receiver c)))) (final m))
        (λ _, on_consumer close_consumer ≫= λ _, raise AudioFrameError))
        (on_consumer (on_rx (_zero_buffer (S (length (rx_buffers (receiver c)))))))
        (with_receiver (received_chunk m p (receiver c)) c, x) =
      ((shut (with_receiver (receiver (after_chunk m p b c)) c2), x'), Raise AudioFrameError)) as Hfin.
    { eapply finally_run; [erewrite try_raise by exact Hd; erewrite bind_ok by exact (on_consumer_run _ _ x' _ _ (close_consumer_run c2)); reflexivity|].
      unfold shut. change (consumer_closed (with_receiver _ _)) with (consumer_closed c2).
      change (consumer_closed c2) with (consumer_closed c). rewrite Ecl.
      unfold _zero_buffer, on_rx, on_consumer, zoom, modify. cbn [fst snd].
      change (rx_buffers (receiver (mkConsumer (closed_rx (receiver c2)) ERROR false true false)))
        with (rx_buffers (receiver c) ++ [[]; b]). by rewrite alter_after. }
    erewrite bind_raise by exact Hfin. intros [= <- <-]. cbn [fst snd].
    assert (consumer_ok (with_receiver (receiver (after_chunk m p b c)) c2)) as Hok2.
    { destruct Hok as [H1 H2 _ _]. by split; [..|cbn; rewrite Ecl|cbn; apply Hc]. }
    split; [by apply shut_ok|]. right. exists m, p, b, (Raise e). split_and!; try done. apply shut_closed.
Qed.
End Delivery.

(** ** The transcriber and the bridge *)

Section BridgeFacts.
Context `{A : AEAD} {P : Type} (provider : bool → M (P * bytes) value) (reset_provider : M P unit).
Context {D : Type} (dispatch : pystr → M D value).
Implicit Types (x : transcriber (P := P)) (s : tstate (P := P)) (b : bridge (P := P) (D := D)).

(** A transcript that may be dispatched. *)
Definition good_text (t : pystr) : Prop := ∃ t0, bounded_text 4000 false t0 ∧ t = strip t0.

Record tstate_ok s : Prop := {
  to_consumer : consumer_ok s.1;
  to_text : ∀ t, transcript s.2 = Some t → good_text t;
  to_closed : provider_closed s.2 = true → consumer_closed s.1 = true
}.

Lemma call_reset_run x :
  ∃ p o, call_reset reset_provider x = (with_provider_state p x, o).
Proof. unfold call_reset, zoom. destruct (reset_provider (provider_state x)) as [p o]. eauto. Qed.

Lemma on_tc_run {B} (k : M audio_consumer B) s c' o : k s.1 = (c', o) → on_tc k s = ((c', s.2), o).
Proof. intros Hk. exact (zoom_run _ _ _ s _ _ Hk). Qed.
Lemma on_t_run {B} (k : M transcriber B) s x' o : k s.2 = (x', o) → on_t k s = ((s.1, x'), o).
Proof. intros Hk. exact (zoom_run _ _ _ s _ _ Hk). Qed.

(** Closing never fails; afterwards nothing can be captured or dispatched. *)
Lemma close_transcriber_run s :
  tstate_ok s → ∃ s', close_transcriber reset_provider s = (s', Ok tt) ∧ tstate_ok s' ∧
    provider_closed s'.2 = true ∧ consumer_closed s'.1 = true.
Proof.
  intros Hs. unfold close_transcriber. erewrite bind_ok by reflexivity.
  destruct (provider_closed s.2) eqn:Ep; [exists s; split_and!; try done; by apply Hs|].
  erewrite bind_ok by reflexivity. erewrite bind_ok by reflexivity.
  set (s1 := (s.1, mkTranscriber None false false true false (provider_state s.2))).
  assert (∃ p, try_with (if reset_held s.2 then on_t (call_reset reset_provider) else mret tt) (λ _, mret tt) s1 =
    ((s.1, with_provider_state p s1.2), Ok tt)) as [p Ht].
  { destruct (reset_held s.2); [|by exists (provider_state s.2)].
    destruct (call_reset_run s1.2) as (p & o & Hr). exists p. apply (on_t_run _ s1) in Hr.
    destruct o as [[]|e]; [by erewrite try_ok by exact Hr|by erewrite try_raise by exact Hr]. }
  eexists. split; [eapply finally_run; [exact Ht|exact (on_tc_run _ (s.1, _) _ _ (close_consumer_run s.1))]|].
  split_and!; [|done|apply shut_closed]. destruct Hs as [Hc _ _ _].
  split; [by apply shut_ok|done|intros _; apply shut_closed].
Qed.

(** What the callback does to the transcriber. *)
Lemma consume_chunk_run x fin p x' buf out :
  _consume_chunk provider fin (x, p) = ((x', buf), out) → (∀ t, transcript x = Some t → good_text t) →
  (∀ t, transcript x' = Some t → good_text t) ∧ finalized x' = finalized x ∧ provider_closed x' = provider_closed x ∧
  (provider_state x' = provider_state x ∨ provider_state x' = (provider fin (provider_state x, p)).1.1).
Proof.
  unfold _consume_chunk. erewrite bind_ok by reflexivity. cbn [fst]. intros Hrun Hx.
  destruct (transcript x) as [t|] eqn:Et; [injection Hrun as <- <- <-; rewrite Et; auto|].
  erewrite bind_ok in Hrun by reflexivity. cbn [fst] in Hrun.
  destruct (provider_held x) eqn:Eh; cbn [negb] in Hrun; [|injection Hrun as <- <- <-; rewrite Et; auto].
  unfold provide in Hrun. unfold mbind at 1, M_bind at 1 in Hrun. cbn [fst snd] in Hrun.
  destruct (provider fin (provider_state x, p)) as [[ps b'] [v|e]] eqn:Ep; [|injection Hrun as <- <- <-; cbn; rewrite Et; auto].
  set (x1 := with_provider_state ps x) in Hrun.
  assert (transcript x1 = None) as Hx1 by done.
  assert (∀ (r : pystr), (t ← validate_bounded_text v 4000 false; Ok (strip t)) = Ok r → good_text r) as Hgood.
  { intros r Hr. unfold mbind, result_bind in Hr. destruct (validate_bounded_text v 4000 false) as [t0|] eqn:Ev; [|done].
    injection Hr as <-. exists t0. split; [|done]. by apply validate_bounded_text_spec in Ev as [_ ?]. }
  assert (v = VNone ∧ (x', buf, out) = (x1, b', Ok tt) ∨ v ≠ VNone ∧
    (if negb fin then raise AudioFrameError
     else lift (reraise [ValueError] AudioFrameError (t ← validate_bounded_text v 4000 false; Ok (strip t))) ≫= λ t,
          on_fields (modify (with_transcript (Some t)))) (x1, b') = ((x', buf), out)) as [[-> Hr]|[_ Hr]].
  { destruct v; [left|right..]; (split; [done|]); first [by injection Hrun as <- <- <-|exact Hrun]. }
  - injection Hr as -> -> ->. rewrite Hx1. auto.
  - clear Hrun. destruct fin; cbn [negb] in Hr; [|injection Hr as <- <- <-; rewrite Hx1; auto].
    unfold lift in Hr. unfold mbind at 1, M_bind at 1 in Hr.
    destruct (t ← validate_bounded_text v 4000 false; Ok (strip t)) as [t|e] eqn:Ev; cbn [reraise] in Hr.
    + injection Hr as <- <- <-. cbn. split_and!; [|done|done|auto]. intros t' [= <-]. by apply Hgood.
    + destruct (caught e [ValueError]); injection Hr as <- <- <-; rewrite Hx1; auto.
Qed.

Lemma closed_not_listening c : consumer_ok c → consumer_closed c = true → gate c ≠ LISTENING.
Proof. intros Hc Hcl. by apply (co_closed c Hc). Qed.

Lemma transcribe_frame_run frame s s' out :
  tstate_ok s → transcribe_frame provider frame s = (s', out) →
  tstate_ok s' ∧ (gate s'.1 = LISTENING → gate s.1 = LISTENING) ∧
  (provider_state s'.2 = provider_state s.2 ∨
   gate s.1 = LISTENING ∧ ∃ m p, accepted_chunk frame (receiver s.1) m p ∧
     provider_state s'.2 = (provider (final m) (provider_state s.2, p)).1.1).
Proof.
  intros Hs. unfold transcribe_frame. erewrite bind_ok by reflexivity.
  destruct (transcriber_closed s) eqn:Ec; [intros [= <- <-]; auto|]. apply orb_false_iff in Ec as [Hp Hc].
  destruct s as [c x]. cbn [fst snd] in *. intros Hrun.
  apply consume_frame_run in Hrun as [Hok [(Hx & -> & Hcl)|(m & p & buf & o & Ha & _ & _ & Hg & Hcb & Ho)]]; [| |apply Hs].
  - rewrite Hx. split_and!; [|intros Hg; by apply closed_not_listening in Hcl|by left].
    destruct Hs as [_ Ht _]. split; [done|by rewrite Hx|by rewrite Hx; cbn; rewrite Hp].
  - apply consume_chunk_run in Hcb as (Ht & _ & Hpc & Hps); [|apply Hs].
    split_and!; [|done|].
    + split; [done|done|]. by rewrite Hpc, Hp.
    + destruct Hps as [Hps|Hps]; [by left|right]. split; [done|]. by exists m, p.
Qed.

Lemma finalize_transcriber_run s :
  tstate_ok s → ∃ s' out, finalize_transcriber reset_provider s = (s', out) ∧ tstate_ok s' ∧ gate s'.1 ≠ LISTENING ∧
    match out with
    | Ok _ => ∃ t, final_transcript s'.2 = Some t
    | Raise e => e = AudioFrameError
    end.
Proof.
  intros Hs. unfold finalize_transcriber. destruct (finalize_consumer s.1) as [c' o] eqn:Ef.
  pose proof (on_tc_run _ s c' o Ef) as Hrun. pose proof Hs as [Hc Ht Hcl].
  apply finalize_consumer_run in Ef as [(-> & Hopen & _ & _ & _ & ->)|[-> ->]].
  2:{ exists (shut s.1, s.2), (Raise AudioFrameError). erewrite bind_raise by exact Hrun. split_and!; [done| | |done].
      - split; [by apply shut_ok|done|intros _; apply shut_closed].
      - apply closed_not_listening; [by apply shut_ok|apply shut_closed]. }
  erewrite bind_ok by exact Hrun. erewrite bind_ok by reflexivity. cbn [snd].
  set (s1 := (with_gate CODEC_READY s.1, s.2)).
  assert (tstate_ok s1) as Hs1.
  { split; [by apply with_gate_ok|done|done]. }
  destruct (transcript s.2) as [t|] eqn:Et.
  - eexists _, _. split; [erewrite bind_ok by reflexivity; reflexivity|]. split_and!; [|done|].
    + destruct Hs1 as [H1 H2 H3]. by split.
    + exists t. unfold final_transcript. cbn. by rewrite Et.
  - destruct (close_transcriber_run s1 Hs1) as (s' & Hcr & Hok & _ & Hcl'). exists s', (Raise AudioFrameError).
    split; [by erewrite bind_ok by exact Hcr|]. split_and!; [done| |done]. apply closed_not_listening; [apply Hok|done].
Qed.

Lemma cancel_transcriber_run s :
  tstate_ok s → ∃ s' out, cancel_transcriber reset_provider s = (s', out) ∧ tstate_ok s' ∧ gate s'.1 ≠ LISTENING ∧
    (out = Ok tt ∨ out = Raise AudioFrameError).
Proof.
  intros Hs. unfold cancel_transcriber. erewrite bind_ok by reflexivity. pose proof Hs as [Hc Ht Hcl].
  destruct (transcriber_closed s) eqn:Ec.
  { exists s, (Ok tt). split_and!; [done|done| |by left]. apply closed_not_listening; [done|].
    apply orb_true_iff in Ec as [?|?]; [by apply Hcl|done]. }
  apply orb_false_iff in Ec as [Hp Hopen]. set (c1 := (cancel_consumer s.1).1).
  assert (consumer_ok c1 ∧ gate c1 ≠ LISTENING) as [Hc1 Hg1].
  { unfold c1. rewrite cancel_consumer_run, Hopen. destruct Hc as [Hr Hz _ Hh]. split.
    - split; [by apply discarded_ok|done|done|intros _; by apply Hh].
    - cbn. case_decide; [done|done]. }
  assert (on_tc cancel_consumer s = ((c1, s.2), Ok tt)) as Hcan.
  { apply on_tc_run. unfold c1. by rewrite cancel_consumer_run. }
  assert (tstate_ok (c1, s.2)) as Hs1 by (split; [done|done|by cbn; rewrite Hp]).
  assert (∃ p o, on_t (_reset_provider_state reset_provider) (c1, s.2) = ((c1, with_provider_state p s.2), o) ∧
    (o = Ok tt ∨ o = Raise AudioFrameError)) as (p & o & Hreset & Ho).
  { unfold _reset_provider_state. destruct (reset_held s.2) eqn:Er.
    - destruct (call_reset_run s.2) as (p & o & Hr). exists p. destruct o as [[]|e].
      + exists (Ok tt). split; [|by left]. apply (on_t_run _ (c1, s.2)). cbn [snd]. erewrite bind_ok by reflexivity.
        rewrite Er. cbn [negb]. by erewrite try_ok by exact Hr.
      + exists (Raise AudioFrameError). split; [|by right]. apply (on_t_run _ (c1, s.2)). cbn [snd].
        erewrite bind_ok by reflexivity. rewrite Er. cbn [negb]. by erewrite try_raise by exact Hr.
    - exists (provider_state s.2), (Ok tt). split; [|by left]. apply (on_t_run _ (c1, s.2)). cbn [snd].
      erewrite bind_ok by reflexivity. rewrite Er. by destruct (s.2). }
  assert (tstate_ok (c1, with_provider_state p s.2)) as Hs2 by by destruct Hs1 as [? ? ?].
  destruct Ho as [->| ->].
  - eexists _, (Ok tt). split; [erewrite bind_ok by (eapply cleanup_ok; erewrite bind_ok by exact Hcan; exact Hreset); reflexivity|].
    split_and!; [|done|by left]. destruct Hs2 as [? ? ?]. by split.
  - destruct (close_transcriber_run _ Hs2) as (s' & Hcr & Hok & _ & Hcl'). exists s', (Raise AudioFrameError).
    split; [erewrite bind_raise by (eapply cleanup_caught; [erewrite bind_ok by exact Hcan; exact Hreset|done|exact Hcr]); reflexivity|].
    split_and!; [done| |by right]. apply closed_not_listening; [apply Hok|done].
Qed.

(** *** Calls of the bridge *)

Inductive bridge_call :=
| BReady (codec_initialized : bool)
| BBegin (display_ready consented secure_transport_ready : bool)
| BFrame (frame : value)
| BFinalize
| BCancel
| BClose.

Definition run_bridge b (c : bridge_call) : bridge :=
  match c with
  | BReady i => (on_lifecycle (on_tc (on_gate (mark_codec_ready i))) b).1
  | BBegin d k t => (bridge_begin reset_provider d k t b).1
  | BFrame f => (bridge_frame provider reset_provider f b).1
  | BFinalize => (bridge_finalize reset_provider dispatch b).1
  | BCancel => (bridge_cancel reset_provider b).1
  | BClose => (close_bridge reset_provider b).1
  end.

(** The last capture was begun with display, consent and secure transport, and
    neither finished nor abandoned since. *)
Definition consent (granted : bool) (c : bridge_call) : bool :=
  match c with
  | BBegin true true true => true
  | BFinalize | BCancel | BClose => false
  | _ => granted
  end.
Definition consented (past : list bridge_call) : bool := foldl consent false past.

Record bridge_ok (granted : bool) (d0 : D) b : Prop := {
  bo_state : tstate_ok (lifecycle b);
  bo_held : transcriber_held b = false → provider_closed (lifecycle b).2 = true;
  bo_consent : gate (lifecycle b).1 = LISTENING → granted = true;
  bo_spent : dispatched b = true → transcriber_held b = false;
  bo_dispatch : dispatcher b = d0 ∨
    ∃ t, good_text t ∧ dispatcher b = (dispatch t d0).1 ∧ transcriber_held b = false
}.

Lemma on_lifecycle_run {B} (k : M tstate B) b s o : k (lifecycle b) = (s, o) → on_lifecycle k b = (with_lifecycle s b, o).
Proof. intros Hk. exact (zoom_run _ _ _ b _ _ Hk). Qed.

(** A change of the lifecycle alone. *)
Lemma with_lifecycle_ok granted granted' d0 b s :
  bridge_ok granted d0 b → tstate_ok s → (transcriber_held b = false → provider_closed s.2 = true) →
  (gate s.1 = LISTENING → granted' = true) → bridge_ok granted' d0 (with_lifecycle s b).
Proof. intros [_ _ _ Hsp Hd] Hs Hh Hg. by split. Qed.

Lemma close_bridge_run b :
  tstate_ok (lifecycle b) → (transcriber_held b = false → provider_closed (lifecycle b).2 = true) →
  ∃ s, close_bridge reset_provider b = (mkBridge false false (dispatched b) s (dispatcher b), Ok tt) ∧
    tstate_ok s ∧ provider_closed s.2 = true.
Proof.
  intros Hs Hh. unfold close_bridge. erewrite bind_ok by reflexivity. erewrite bind_ok by reflexivity.
  destruct (transcriber_held b).
  - destruct (close_transcriber_run _ Hs) as (s & Hr & Hok & Hp & Hc). exists s. split_and!; [|done..].
    exact (on_lifecycle_run _ (mkBridge false false (dispatched b) (lifecycle b) (dispatcher b)) _ _ Hr).
  - exists (lifecycle b). split_and!; [done|done|by apply Hh].
Qed.

(** A closed bridge whose dispatcher has run at most once is sound for ever. *)
Lemma closed_ok granted d0 y z s d :
  tstate_ok s → provider_closed s.2 = true → (d = d0 ∨ ∃ t, good_text t ∧ d = (dispatch t d0).1) →
  bridge_ok granted d0 (mkBridge false y z s d).
Proof.
  intros Hs Hp Hd. split; cbn; [done|done| |done|].
  - intros Hg. exfalso. apply (closed_not_listening s.1); [apply Hs|by apply Hs|done].
  - destruct Hd as [?|(t & ? & ?)]; [by left|right; by exists t].
Qed.

Lemma close_sound granted d0 b :
  tstate_ok (lifecycle b) → (transcriber_held b = false → provider_closed (lifecycle b).2 = true) →
  (dispatcher b = d0 ∨ ∃ t, good_text t ∧ dispatcher b = (dispatch t d0).1) →
  ∃ b', close_bridge reset_provider b = (b', Ok tt) ∧ bridge_ok granted d0 b'.
Proof.
  intros Hs Hh Hd. destruct (close_bridge_run b Hs Hh) as (s & Hr & Hok & Hp). eexists. split; [exact Hr|by apply closed_ok].
Qed.

Lemma close_ok granted granted' d0 b :
  bridge_ok granted d0 b → ∃ b', close_bridge reset_provider b = (b', Ok tt) ∧ bridge_ok granted' d0 b'.
Proof.
  intros [Hs Hh _ _ Hd]. apply close_sound; [done|done|]. destruct Hd as [?|(t & ? & ? & _)]; [by left|right; by exists t].
Qed.

(** [_require_transcriber] goes on only with an open transcriber. *)
Lemma require_run granted granted' d0 b :
  bridge_ok granted d0 b →
  (_require_transcriber reset_provider b = (b, Ok tt) ∧ transcriber_held b = true ∧ transcriber_closed (lifecycle b) = false) ∨
  ∃ b', _require_transcriber reset_provider b = (b', Raise AudioFrameError) ∧ bridge_ok granted' d0 b'.
Proof.
  intros Hb. unfold _require_transcriber. erewrite bind_ok by reflexivity.
  destruct (negb (transcriber_held b) || transcriber_closed (lifecycle b)) eqn:Eg.
  - right. destruct (close_ok granted granted' d0 b Hb) as (b' & Hr & Hok). exists b'.
    split; [by erewrite bind_ok by exact Hr|done].
  - left. apply orb_false_iff in Eg as [Hh%negb_false_iff Hc]. by split_and!.
Qed.

(** A bridge without its transcriber captures nothing. *)
Lemma released_ok granted granted' d0 b :
  bridge_ok granted d0 b → transcriber_held b = false → bridge_ok granted' d0 b.
Proof.
  intros [Hs Hh _ Hsp Hd] Hn. split; try done. intros Hg. exfalso.
  apply (closed_not_listening (lifecycle b).1); [apply Hs|by apply Hs, Hh|done].
Qed.

Lemma finalize_bridge_ok granted d0 b : bridge_ok granted d0 b → bridge_ok false d0 (run_bridge b BFinalize).
Proof.
  intros Hb. cbn [run_bridge]. unfold bridge_finalize. erewrite bind_ok by reflexivity.
  destruct (dispatched b) eqn:Edi; [by eapply released_ok, Hb|].
  destruct (require_run granted false d0 b Hb) as [(Hr & Hh & Hc)|(b' & Hr & Hok)]; [|by erewrite bind_raise by exact Hr].
  erewrite bind_ok by exact Hr.
  destruct (finalize_transcriber_run (lifecycle b) (bo_state _ _ _ Hb)) as (s & o & Hf & Hs & Hg & Ho).
  apply on_lifecycle_run in Hf as Hf'. set (b1 := with_lifecycle s b) in *.
  assert (bridge_ok false d0 b1) as Hb1.
  { eapply with_lifecycle_ok; [exact Hb|done|by rewrite Hh|done]. }
  assert (dispatcher b = d0) as Hd0 by (destruct (bo_dispatch _ _ _ Hb) as [?|(t & _ & _ & ?)]; [done|congruence]).
  destruct (close_ok false false d0 b1 Hb1) as (bc & Hcl & Hok).
  destruct o as [summary|e].
  2:{ erewrite bind_raise by (erewrite try_raise by exact Hf'; by erewrite bind_ok by exact Hcl). done. }
  erewrite bind_ok by (by apply try_ok). erewrite bind_ok by reflexivity. erewrite bind_ok by reflexivity.
  destruct Ho as [t Ht]. change (lifecycle b1) with s. rewrite Ht.
  destruct (dispatch_held b1); [|by erewrite bind_ok by exact Hcl].
  assert (good_text t) as Hgood.
  { unfold final_transcript in Ht. destruct (finalized s.2); [|done]. by apply Hs. }
  destruct (dispatch t (dispatcher b1)) as [d o] eqn:Ed.
  pose proof (zoom_run dispatcher with_dispatcher (dispatch t) b1 _ _ Ed) as Hz.
  assert (d = (dispatch t d0).1) as Hd by (change (dispatcher b1) with (dispatcher b) in Ed; rewrite <- Hd0, Ed; done).
  assert (∀ z, ∃ b', close_bridge reset_provider (mkBridge (transcriber_held b) (dispatch_held b) z s d) = (b', Ok tt) ∧
    bridge_ok false d0 b') as Hclose.
  { intros z. apply close_sound; [done|by cbn; rewrite Hh|]. right. by exists t. }
  destruct o as [result|e].
  - destruct (Hclose true) as (b' & Hr' & Hok'). erewrite bind_ok by (apply try_ok; exact Hz).
    erewrite bind_ok by reflexivity. by erewrite bind_ok by exact Hr'.
  - destruct (Hclose (dispatched b)) as (b' & Hr' & Hok').
    erewrite bind_raise by (erewrite try_raise by exact Hz; by erewrite bind_ok by exact Hr'). done.
Qed.

Lemma run_bridge_ok granted d0 b c : bridge_ok granted d0 b → bridge_ok (consent granted c) d0 (run_bridge b c).
Proof.
  intros Hb. pose proof Hb as [Hs Hh Hg _ _]. destruct c as [i|d k t|f| | |].
  - cbn [run_bridge consent]. destruct (mark_codec_ready i (gate (lifecycle b).1)) as [g o] eqn:Em.
    erewrite (on_lifecycle_run _ b) by exact (on_tc_run _ (lifecycle b) _ _ (zoom_run gate with_gate _ (lifecycle b).1 _ _ Em)).
    cbn [fst]. assert (g = gate (lifecycle b).1 ∨ g ≠ LISTENING) as Hg'.
    { unfold mark_codec_ready in Em. destruct (negb _); [injection Em as <- <-; by left|].
      destruct (negb i); injection Em as <- <-; by right. }
    eapply with_lifecycle_ok; [exact Hb| |done|by cbn; destruct Hg' as [->|?]].
    destruct Hs as [[H1 H2 H3 H4] H5 H6]. split; [|done|done]. split; [done|done| |done].
    intros Hc. destruct (H3 Hc) as (? & ? & ?). split_and!; [done| |done]. cbn. by destruct Hg' as [->|?].
  - cbn [run_bridge]. unfold bridge_begin. set (granted' := consent granted (BBegin d k t)).
    destruct (require_run granted granted' d0 b Hb) as [(Hr & Hhe & Hc)|(b' & Hr & Hok)]; [|by erewrite bind_raise by exact Hr].
    erewrite bind_ok by exact Hr. destruct (begin_capture d k t (lifecycle b).1) as [c' o] eqn:Eb.
    erewrite (on_lifecycle_run _ b) by exact (on_tc_run _ (lifecycle b) _ _ Eb). cbn [fst].
    apply begin_capture_run in Eb as [(_ & -> & -> & -> & Hop & _ & ->)|[_ ->]].
    + eapply with_lifecycle_ok; [exact Hb| |by rewrite Hhe|done]. destruct Hs as [H1 H2 H3].
      split; [by apply with_gate_ok|done|done].
    + eapply with_lifecycle_ok; [exact Hb|by destruct Hs as [? ? ?]|done|]. cbn. intros HL. specialize (Hg HL).
      subst granted'. cbn [consent]. by destruct d, k, t.
  - cbn [run_bridge consent]. unfold bridge_frame.
    destruct (require_run granted granted d0 b Hb) as [(Hr & Hhe & Hc)|(b' & Hr & Hok)]; [|by erewrite bind_raise by exact Hr].
    erewrite bind_ok by exact Hr. destruct (transcribe_frame provider f (lifecycle b)) as [s o] eqn:Et.
    erewrite on_lifecycle_run by exact Et. apply transcribe_frame_run in Et as (Hok & Hl & _); [|done].
    eapply with_lifecycle_ok; [exact Hb|done|by rewrite Hhe|by eauto].
  - by apply (finalize_bridge_ok granted).
  - cbn [run_bridge consent]. unfold bridge_cancel. erewrite bind_ok by reflexivity.
    destruct (transcriber_held b) eqn:Ehe; cbn [negb]; cbv iota; [|by eapply released_ok].
    destruct (cancel_transcriber_run (lifecycle b) Hs) as (s & o & Hr & Hok & Hgl & Ho).
    apply on_lifecycle_run in Hr. assert (bridge_ok false d0 (with_lifecycle s b)) as Hb1.
    { eapply with_lifecycle_ok; [exact Hb|done|by rewrite Ehe|done]. }
    destruct Ho as [->| ->]; [|by erewrite bind_raise by exact Hr]. erewrite bind_ok by exact Hr.
    destruct Hb1 as [? ? ? ? ?]. by split.
  - cbn [run_bridge consent]. destruct (close_ok granted false d0 b Hb) as (b' & Hr & Hok). by rewrite Hr.
Qed.

Lemma reached_ok session reset p0 d0 calls :
  session_ok session →
  bridge_ok (consented calls) d0
    (foldl run_bridge (new_bridge (new_consumer (new_receiver session) DISABLED, new_transcriber reset p0) d0) calls).
Proof.
  intros Hs. assert (∀ granted b, bridge_ok granted d0 b → bridge_ok (foldl consent granted calls) d0 (foldl run_bridge b calls)) as H.
  { induction calls as [|c calls IH]; intros granted b Hb; [done|]. by apply IH, run_bridge_ok. }
  apply H. split; [|done|done|done|by left]. split; [by apply new_consumer_ok|done|done].
Qed.

(** C30: Whatever calls a bridge receives, in any order, its dispatcher runs at
    most once, on a bounded, stripped transcript without control characters;
    from then on the bridge has released its transcriber and the secure session
    is closed.  Between calls no buffer of the audio layer holds a sample, for
    a provider that keeps no export of the view it is shown. *)
Theorem bridge_dispatches_once session reset p0 d0 calls (Hs : session_ok session) :
  let b := foldl run_bridge
    (new_bridge (new_consumer (new_receiver session) DISABLED, new_transcriber reset p0) d0) calls in
  Forall all_zero (rx_buffers (receiver (lifecycle b).1)) ∧
  (dispatcher b = d0 ∨
   ∃ t, good_text t ∧ dispatcher b = (dispatch t d0).1 ∧ transcriber_held b = false ∧
     closed (rx_session (receiver (lifecycle b).1)) = true).
Proof.
  intros b. destruct (reached_ok session reset p0 d0 calls Hs) as [Hok Hh _ _ Hd]. fold b in Hok, Hh, Hd.
  split; [apply Hok|]. destruct Hd as [?|(t & Ht & He & Hn)]; [by left|right]. exists t. split_and!; [done..|].
  apply (co_closed _ (to_consumer _ Hok)), Hok, Hh, Hn.
Qed.

(** The speech provider is shown samples only for a frame that
    authenticates as the next chunk of the stream, and only while the last
    capture was begun with the display ready, the user's consent and a secure
    transport, and was neither finished nor abandoned since. *)
Theorem capture_needs_consent session reset p0 d0 calls frame s' out (Hs : session_ok session) :
  let b := foldl run_bridge
    (new_bridge (new_consumer (new_receiver session) DISABLED, new_transcriber reset p0) d0) calls in
  transcribe_frame provider frame (lifecycle b) = (s', out) →
  provider_state s'.2 = provider_state (lifecycle b).2 ∨
  (consented calls = true ∧
   ∃ m p, accepted_chunk frame (receiver (lifecycle b).1) m p ∧
     provider_state s'.2 = (provider (final m) (provider_state (lifecycle b).2, p)).1.1).
Proof.
  intros b Hrun. destruct (reached_ok session reset p0 d0 calls Hs) as [Hok _ Hg _ _]. fold b in Hok, Hg.
  apply transcribe_frame_run in Hrun as (_ & _ & [?|[HL Ha]]); [by left|right|done]. split; [by apply Hg|done].
Qed.
End BridgeFacts.

(** ** A capture of two chunks, transcribed and dispatched *)

(** A provider that counts the bytes it is shown and scribbles on the buffer,
    and a dispatcher that keeps the commands. *)
Definition sample_provider (fin : bool) : M (Z * bytes) value := λ s,
  ((s.1 + len s.2, (λ _, 255) <$> s.2), Ok (if fin then VStr (u " pon música ") else VNone)).
Definition sample_reset : M Z unit := λ _, (0, Ok tt).
Definition sample_dispatch (t : pystr) : M (list pystr) value := λ d, (d ++ [t], Ok VNone).

Definition sample_begun : list bridge_call := [BReady true; BBegin true true true].
Definition sample_delivery : list bridge_call := (λ f, BFrame (VDict f)) <$> sample_frames.
Definition sample_bridge_calls : list bridge_call := sample_begun ++ sample_delivery ++ [BFinalize; BFinalize; BBegin true true true].

Definition sample_run (calls : list bridge_call) : bridge (P := Z) (D := list pystr) :=
  foldl (run_bridge sample_provider sample_reset sample_dispatch)
    (new_bridge (new_consumer (new_receiver sample_b) DISABLED, new_transcriber true 0) []) calls.

Lemma bridge_dispatches_once_witness :
  dispatcher (sample_run sample_bridge_calls) = [u "pon música"] ∧
  Forall all_zero (rx_buffers (receiver (lifecycle (sample_run sample_bridge_calls)).1)).
Proof.
  split; [vm_compute; reflexivity|].
  exact (proj1 (bridge_dispatches_once sample_provider sample_reset sample_dispatch sample_b true 0 [] sample_bridge_calls sample_b_ok)).
Defined.

Definition first_frame : value := VDict (default [] (sample_frames !! 0%nat)).
Lemma capture_needs_consent_witness :
  provider_state (transcribe_frame sample_provider first_frame (lifecycle (sample_run sample_begun))).1.2 = 4 ∧
  consented sample_begun = true.
Proof.
  split; [vm_compute; reflexivity|].
  destruct (capture_needs_consent sample_provider sample_reset sample_dispatch sample_b true 0 [] sample_begun first_frame
    _ _ sample_b_ok (surjective_pairing _)) as [Heq|[Hc _]]; [|exact Hc].
  exfalso. vm_compute in Heq. discriminate.
Defined.
