(* ===== verification/SecureServer.v ===== *)
(** * The server endpoint of the encrypted session: [secure_session_server.py]

    [SecureSessionServer] checks the shape of a client hello, looks the device
    up among the paired ones, refuses session identifiers it has seen in the
    last thirty minutes and answers with [create_server_hello].  The replay
    cache is an insertion-ordered dictionary; monotonic clock readings are
    ticks. *)
From S2P Require Import Prelude Dict Value Effects Encoding Json Sha256 Crypto SecureSession.

Definition MAX_CLIENT_HELLO_BYTES : Z := 4096.
Definition MAX_USED_SESSION_IDS : Z := 4096.
Definition SESSION_ID_REPLAY_TTL_SECONDS : Z := 30 * 60.

Definition CLIENT_HELLO_FIELDS : list pystr :=
  [u "client_ephemeral_public_key"; u "client_id"; u "client_nonce"; u "protocol_version"; u "session_id";
   u "signature"].

Section Server.
Context {SK PK XSK XPK : Type} `{E : Ed25519 SK PK} `{X : X25519 XSK XPK} `{K : HKDF}.
(** Clock ticks in one second. *)
Context (second : Z).

Record server_state := mkServer {
  identity : SecureIdentity (SK := SK);
  trusted_devices : dict pystr PK;
  used_session_ids : dict pystr Z
}.
Definition with_used (used : dict pystr Z) (s : server_state) : server_state :=
  mkServer (identity s) (trusted_devices s) used.

(** What one call of [accept_client_hello] reads and draws. *)
Record accept_env := { e_now : Z; e_ephemeral : XSK; e_nonce : bytes }.

Definition _copy_trusted_devices (devices : dict pystr PK) : result (dict pystr PK) :=
  _ ← ensure (forallb (λ kv, nonempty kv.1) devices) ValueError; Ok devices.

(** [SecureSessionServer(...)] *)
Definition new_server (i : SecureIdentity (SK := SK)) (devices : dict pystr PK) : result server_state :=
  d ← _copy_trusted_devices devices; Ok (mkServer i d []).

Definition refresh_trusted_devices (devices : dict pystr PK) : M server_state unit :=
  lift (_copy_trusted_devices devices) ≫= λ d, modify (λ s, mkServer (identity s) d (used_session_ids s)).

Definition is_trusted_device (d : pystr) (pk : PK) (s : server_state) : bool :=
  match dget d (trusted_devices s) with
  | Some current => bool_decide (ed_raw current = ed_raw pk)
  | None => false
  end.

Definition trusted_device_public_key (d : pystr) (s : server_state) : option PK := dget d (trusted_devices s).

(** The checks of a payload, and [ClientHello( **payload )]. *)
Definition read_client_hello (payload : object) : result ClientHello :=
  encoded ← reraise [TypeError; ValueError] HandshakeError (dump_bytes false false (VDict payload));
  _ ← ensure (len encoded <=? MAX_CLIENT_HELLO_BYTES) HandshakeError;
  _ ← ensure (keys_exactly CLIENT_HELLO_FIELDS payload) HandshakeError;
  reraise [TypeError; ValueError] HandshakeError
    (client_hello (get (u "session_id") payload) (get (u "client_id") payload)
       (get (u "client_ephemeral_public_key") payload) (get (u "client_nonce") payload)
       (get (u "signature") payload) (get (u "protocol_version") payload)).

(** [while used: ... if oldest_seen > cutoff: break; pop(oldest)] *)
Fixpoint evict (cutoff : Z) (used : dict pystr Z) : dict pystr Z :=
  match used with
  | [] => []
  | (_, seen) :: rest => if cutoff <? seen then used else evict cutoff rest
  end.

Definition remember_id (sid : pystr) (now : Z) (used : dict pystr Z) : dict pystr Z :=
  dset sid now (if MAX_USED_SESSION_IDS <=? len used then dpop_oldest used else used).

Definition accept_client_hello (env : accept_env) (payload : object)
  : M server_state (object * SecureSession) :=
  lift (read_client_hello payload) ≫= λ hello,
  gets (λ s, dget (c_client_id hello) (trusted_devices s)) ≫= λ key,
  match key with
  | None => raise HandshakeError
  | Some pk =>
    modify (λ s, with_used (evict (e_now env - SESSION_ID_REPLAY_TTL_SECONDS * second) (used_session_ids s)) s) ≫= λ _,
    gets (λ s, dmem (c_session_id hello) (used_session_ids s)) ≫= λ seen,
    if seen : bool then raise HandshakeError
    else
      gets identity ≫= λ i,
      lift (create_server_hello i hello pk (e_ephemeral env) (e_nonce env)) ≫= λ answer,
      modify (λ s, with_used (remember_id (c_session_id hello) (e_now env) (used_session_ids s)) s) ≫= λ _,
      mret (server_hello_dict answer.1, answer.2)
  end.
End Server.
Arguments server_state SK PK : clear implicits.
Arguments accept_env XSK : clear implicits.

Section Facts.
Context {SK PK XSK XPK : Type} `{E : Ed25519 SK PK} `{X : X25519 XSK XPK} `{K : HKDF}.
Context (second : Z).
Implicit Types (s : server_state SK PK) (env : accept_env XSK).

Abbreviation accept := (accept_client_hello second).

Lemma _decode_raises v n : raises_only (λ e, e = HandshakeError) (_decode v n).
Proof. destruct v; try (by apply raises_only_raise). apply decode_text_raises. Qed.

Lemma decoded_text_raises v n : raises_only (λ e, e = HandshakeError) (decoded_text v n).
Proof.
  intros e. unfold decoded_text, mbind, result_bind. destruct (_decode v n) as [b|e'] eqn:Ed.
  - by destruct v.
  - intros [= <-]. by eapply _decode_raises.
Qed.

Lemma _session_id_raises v : raises_only (λ e, e = HandshakeError) (_session_id v).
Proof. unfold _session_id. repeat raises_step; done. Qed.

Lemma client_hello_raises a b c d e f : raises_only (λ e, e = HandshakeError) (client_hello a b c d e f).
Proof.
  unfold client_hello, validate_handshake_fields.
  repeat first [apply decoded_text_raises|apply _session_id_raises|raises_step|done].
Qed.

Lemma reraise_raises {A} cs e (r : result A) :
  raises_only (λ x, caught x cs = true) r → raises_only (λ x, x = e) (reraise cs e r).
Proof. intros H x. unfold reraise. destruct r as [a|y]; [done|]. rewrite (H y eq_refl). by intros [= <-]. Qed.

Lemma read_client_hello_raises p : raises_only (λ e, e = HandshakeError) (read_client_hello p).
Proof.
  unfold read_client_hello.
  repeat first [apply reraise_raises|raises_step|done].
  - intros e. apply dump_bytes_raises.
  - eapply raises_only_weaken; [apply client_hello_raises|]. by intros e ->.
Qed.

(** ** The answer *)

Lemma verify_signature_raises (pk : PK) sig data :
  raises_only (λ e, e = HandshakeError) data → raises_only (λ e, e = HandshakeError) (verify_signature pk sig data).
Proof.
  intros Hd. unfold verify_signature. apply reraise_raises. repeat raises_step; try done.
  - eapply raises_only_weaken; [apply decode_text_raises|]. by intros e ->.
  - eapply raises_only_weaken; [exact Hd|]. by intros e ->.
Qed.

Lemma canonical_raises_only d : raises_only (λ e, e = HandshakeError) (_canonical d).
Proof. intros e. apply canonical_raises. Qed.

Lemma server_hello_raises a b c d e f g h i : raises_only (λ e, e = HandshakeError) (server_hello a b c d e f g h i).
Proof.
  unfold server_hello, validate_handshake_fields.
  repeat first [apply decoded_text_raises|apply _session_id_raises|raises_step|done].
Qed.

Lemma shared_secret_session sid secret t r ss :
  secure_session_from_shared_secret sid secret t r = Ok ss → session_id ss = sid ∧ session_ok ss.
Proof.
  unfold secure_session_from_shared_secret. intros Hs.
  unfold mbind, result_bind in Hs. destruct (_session_id _); [|done].
  do 3 (destruct (ensure _ _); [|done]).
  destruct r; apply new_session_ok in Hs as [-> Hok]; done.
Qed.

Context {HX : X25519Laws X} {HK : HKDFLaws K}.

Lemma shared_secret_raises sid secret t r :
  raises_only (λ e, e = HandshakeError) (secure_session_from_shared_secret sid secret t r).
Proof using HK.
  intros e. unfold secure_session_from_shared_secret, mbind, result_bind.
  destruct (_session_id (VStr sid)) as [x|e'] eqn:Es; [|intros [= <-]; by eapply _session_id_raises].
  apply _session_id_ok in Es as [[= <-] Hid].
  destruct (len secret =? 32) eqn:E1; cbn [ensure]; [|by intros [= <-]].
  destruct (len t =? 32) eqn:E2; cbn [ensure]; [|by intros [= <-]].
  destruct (existsb _ secret) eqn:E3; cbn [ensure]; [|by intros [= <-]]. reflect.
  destruct (derived_mirror sid secret t) as (a & b & Ha & Hb & _); [done..|].
  unfold secure_session_from_shared_secret, mbind, result_bind in Ha, Hb.
  rewrite (_session_id_str sid Hid), E1, E2, E3 in Ha, Hb. cbn [Z.eqb Pos.eqb ensure] in Ha, Hb.
  destruct r; by rewrite ?Ha, ?Hb.
Qed.

Lemma derive_session_raises r sid ck (own : XSK) sk t :
  raises_only (λ e, e = HandshakeError) (_derive_session r sid ck own sk t).
Proof using HX HK.
  unfold _derive_session. apply raises_only_bind; [|intros secret; apply raises_only_bind; [by raises_step|]].
  - apply reraise_raises, raises_only_bind; [|intros peer].
    + eapply raises_only_weaken; [apply decode_text_raises|]. by intros e ->.
    + intros e He. by apply x_exchange_raises in He as ->.
  - intros _. apply shared_secret_raises.
Qed.

Lemma create_server_hello_raises (i : SecureIdentity) h (pk : PK) (sx : XSK) n :
  raises_only (λ e, e = HandshakeError) (create_server_hello i h pk sx n).
Proof using HX HK.
  unfold create_server_hello, _transcript_hash.
  repeat first [apply verify_signature_raises|apply canonical_raises_only|apply server_hello_raises
    |apply derive_session_raises|raises_step|done].
Qed.

Lemma create_server_hello_session (i : SecureIdentity) h (pk : PK) (sx : XSK) n r ss :
  create_server_hello i h pk sx n = Ok (r, ss) →
  verify_signature pk (c_signature h) (_client_signature_data h) = Ok tt ∧
  session_id ss = s_session_id r ∧ s_session_id r = c_session_id h ∧ s_client_id r = c_client_id h ∧ session_ok ss.
Proof.
  unfold create_server_hello. unfold mbind, result_bind.
  destruct (verify_signature _ _ _) as [[]|] eqn:Ev; [|done]. destruct (ensure _ _); [|done].
  destruct (_server_signature_data _); [|done].
  match goal with |- context [server_hello ?a ?b ?c ?d ?e ?f ?g ?h ?i] =>
    destruct (server_hello a b c d e f g h i) as [r'|] eqn:Er end; [|done].
  destruct (_transcript_hash r'); [|done]. destruct (_derive_session _ _ _ _ _ _) as [ss'|] eqn:Ed; [|done].
  intros [= <- <-]. apply derive_session_ok in Ed as (peer & secret & _ & _ & Hs).
  apply shared_secret_session in Hs as [Hid Hok]. split_and!; try done.
  unfold server_hello, validate_handshake_fields, mbind, result_bind in Er. cbn [s_session_id] in Er.
  destruct (ensure _ _); [|done]. destruct (_session_id _) as [x|] eqn:Ex; [|done].
  apply _session_id_ok in Ex as [[= <-] _]. by result_inv.
  unfold server_hello, validate_handshake_fields, mbind, result_bind in Er. cbn [s_client_id] in Er.
  destruct (ensure _ _); [|done]. destruct (_session_id _); [|done].
  unfold _identity_id in Er. destruct (is_session_id (c_client_id h)); [|done]. by result_inv.
Qed.

(** ** One call *)

(** What an accepted hello shows. *)
Record admitted env p s s' (d : object) (ss : SecureSession) (h : ClientHello) (pk : PK) : Prop := {
  ad_hello : read_client_hello p = Ok h;
  ad_paired : dget (c_client_id h) (trusted_devices s) = Some pk;
  ad_signed : verify_signature pk (c_signature h) (_client_signature_data h) = Ok tt;
  ad_unseen : dmem (c_session_id h) (evict (e_now env - SESSION_ID_REPLAY_TTL_SECONDS * second) (used_session_ids s)) = false;
  ad_session : session_id ss = c_session_id h ∧ session_ok ss;
  ad_answer : ∃ r, create_server_hello (identity s) h pk (e_ephemeral env) (e_nonce env) = Ok (r, ss) ∧ d = server_hello_dict r;
  ad_state : s' = with_used (remember_id (c_session_id h) (e_now env)
      (evict (e_now env - SESSION_ID_REPLAY_TTL_SECONDS * second) (used_session_ids s))) s
}.

Lemma accept_run env p s s' out :
  accept env p s = (s', out) →
  match out with
  | Ok (d, ss) => ∃ h pk, admitted env p s s' d ss h pk
  | Raise e => e = HandshakeError ∧
      (s' = s ∨ s' = with_used (evict (e_now env - SESSION_ID_REPLAY_TTL_SECONDS * second) (used_session_ids s)) s)
  end.
Proof using HX HK.
  unfold accept_client_hello, lift, gets, modify, raise, mret, M_ret, mbind, M_bind.
  destruct (read_client_hello p) as [h|e] eqn:Eh;
    [|intros [= <- <-]; apply read_client_hello_raises in Eh as ->; split; [done|by left]].
  destruct (dget (c_client_id h) (trusted_devices s)) as [pk|] eqn:Ek; [|intros [= <- <-]; split; [done|by left]].
  cbn [used_session_ids with_used identity trusted_devices].
  destruct (dmem _ _) eqn:Em; [intros [= <- <-]; split; [done|by right]|].
  destruct (create_server_hello _ _ _ _ _) as [[r ss]|e] eqn:Er.
  - intros [= <- <-]. exists h, pk. pose proof (create_server_hello_session _ _ _ _ _ _ _ Er) as (Hv & Hid & Hid' & Hcl & Hok).
    split; try done; [split; [congruence|done]|by exists r].
  - intros [= <- <-]. apply create_server_hello_raises in Er as ->. split; [done|by right].
Qed.

(** ** Replays *)

Lemma evict_split cutoff used : ∃ old, used = old ++ evict cutoff used ∧ Forall (λ kv, kv.2 <= cutoff) old.
Proof.
  induction used as [|[k t] used (old & He & Ho)]; [by exists []|]. simpl.
  destruct (cutoff <? t) eqn:Et; [by exists []|]. reflect. exists ((k, t) :: old). split; [by rewrite He at 1|].
  by constructor.
Qed.

(** The entry an answered call adds to the log. *)
Definition logged (now : Z) (out : result (object * SecureSession)) : list (pystr * Z) :=
  match out with Ok (_, ss) => [(session_id ss, now)] | Raise _ => [] end.

(** The hellos accepted so far, oldest first, by a server that has been
    running until [t]; readings of the monotonic clock do not decrease. *)
Inductive served : Z → list (pystr * Z) → server_state SK PK → Prop :=
| served_new i devices t s : new_server i devices = Ok s → served t [] s
| served_accept t log s env p s' out :
    served t log s → t <= e_now env → accept env p s = (s', out) →
    served (e_now env) (log ++ logged (e_now env) out) s'
| served_refresh t log s devices : served t log s → served t log (refresh_trusted_devices devices s).1.

(** An entry leaves the cache after thirty minutes or 4096 later hellos. *)
Record replay_ok (t : Z) (log : list (pystr * Z)) s : Prop := {
  rp_wf : dwf (used_session_ids s);
  rp_len : len (used_session_ids s) <= MAX_USED_SESSION_IDS;
  rp_log : ∃ old, log = old ++ used_session_ids s ∧
    ∀ i k seen, old !! i = Some (k, seen) →
      seen + SESSION_ID_REPLAY_TTL_SECONDS * second <= t ∨ MAX_USED_SESSION_IDS <= len log - Z.of_nat i - 1;
  rp_distinct : ∀ i j k ti tj, (i < j)%nat → log !! i = Some (k, ti) → log !! j = Some (k, tj) →
    ti + SESSION_ID_REPLAY_TTL_SECONDS * second <= tj ∨ MAX_USED_SESSION_IDS <= Z.of_nat j - Z.of_nat i
}.

Lemma evict_wf cutoff used : dwf used → dwf (evict cutoff used).
Proof.
  intros Hwf. destruct (evict_split cutoff used) as (old & He & _). rewrite He in Hwf.
  unfold dwf in *. rewrite fmap_app in Hwf. by apply NoDup_app in Hwf as (_ & _ & ?).
Qed.

Lemma len_evict cutoff used : len (evict cutoff used) <= len used.
Proof.
  destruct (evict_split cutoff used) as (old & He & _). rewrite He at 2. autorewrite with len.
  pose proof (len_nonneg old). lia.
Qed.

Lemma replay_ok_evict t now log s :
  replay_ok t log s → t <= now →
  replay_ok now log (with_used (evict (now - SESSION_ID_REPLAY_TTL_SECONDS * second) (used_session_ids s)) s).
Proof.
  intros [Hwf Hl (old & Hlog & Hold) Hd] Ht. split; simpl; [by apply evict_wf| |..|done].
  - pose proof (len_evict (now - SESSION_ID_REPLAY_TTL_SECONDS * second) (used_session_ids s)). lia.
  - destruct (evict_split (now - SESSION_ID_REPLAY_TTL_SECONDS * second) (used_session_ids s)) as (ev & He & Hev).
    exists (old ++ ev). split; [by rewrite <- app_assoc, <- He|]. intros i k seen Hi.
    apply lookup_app_Some in Hi as [Hi|[_ Hi]]; [destruct (Hold i k seen Hi); [left; lia|by right]|].
    left. rewrite Forall_lookup in Hev. apply Hev in Hi. simpl in Hi. lia.
Qed.

Lemma replay_ok_later t now log s : replay_ok t log s → t <= now → replay_ok now log s.
Proof.
  intros [Hwf Hl (old & Hlog & Hold) Hd] Ht. split; try done. exists old. split; [done|].
  intros i k seen Hi. destruct (Hold i k seen Hi); [left; lia|by right].
Qed.

(** Remembering an identifier that is not in the cache. *)
Lemma replay_ok_remember now log s k :
  replay_ok now log s → dmem k (used_session_ids s) = false →
  replay_ok now (log ++ [(k, now)]) (with_used (remember_id k now (used_session_ids s)) s).
Proof.
  intros [Hwf Hl (old & Hlog & Hold) Hd] Hk.
  set (used := used_session_ids s) in *.
  set (kept := if MAX_USED_SESSION_IDS <=? len used then dpop_oldest used else used).
  assert (∃ gone, used = gone ++ kept ∧ (gone = [] ∨ (len gone = 1 ∧ len used = MAX_USED_SESSION_IDS))) as (gone & Hu & Hgone).
  { subst kept. destruct (_ <=? _) eqn:Em; reflect; [|by exists []; auto].
    rewrite dpop_oldest_tail by done. destruct used as [|kv used']; [rewrite len_nil in Em; done|].
    exists [kv]. split; [done|]. right. split; [done|]. lia. }
  assert (dwf kept) as Hwfk.
  { subst kept. destruct (_ <=? _); [by apply dpop_oldest_wf|done]. }
  assert (dget k kept = None) as Hkept.
  { apply dget_None. intros Hin. apply dmem_false, dget_None in Hk. apply Hk. rewrite Hu. unfold dkeys.
    rewrite fmap_app. apply elem_of_app. by right. }
  assert (remember_id k now used = kept ++ [(k, now)]) as Hr by (unfold remember_id; fold kept; by apply dset_fresh).
  assert (len kept + 1 <= MAX_USED_SESSION_IDS) as Hlk.
  { subst kept. destruct (_ <=? _) eqn:Em; reflect; [|lia].
    assert (used ≠ []) as Hne by (intros H0; rewrite H0, len_nil in Em; unfold MAX_USED_SESSION_IDS in Em; lia).
    pose proof (len_dpop_oldest used Hne). lia. }
  assert (∀ i ki ti, (old ++ gone) !! i = Some (ki, ti) →
    ti + SESSION_ID_REPLAY_TTL_SECONDS * second <= now ∨ MAX_USED_SESSION_IDS <= len log - Z.of_nat i) as Hgo.
  { intros i ki ti [Hi|[Hge Hi]]%lookup_app_Some.
    - destruct (Hold i ki ti Hi); [by left|right; lia].
    - right. destruct Hgone as [->|[H1 H2]]; [by rewrite lookup_nil in Hi|].
      apply lookup_lt_Some in Hi. rewrite Hlog. autorewrite with len. unfold len in *. lia. }
  split; cbn [used_session_ids with_used]; rewrite ?Hr.
  - rewrite <- dset_fresh by done. by apply dset_wf.
  - autorewrite with len. lia.
  - exists (old ++ gone). split; [by rewrite Hlog, Hu, <- !app_assoc|].
    intros i ki ti Hi. destruct (Hgo i ki ti Hi); [by left|right]. autorewrite with len. lia.
  - intros i j k' ti tj Hij Hi Hj. apply lookup_snoc_Some in Hj as [[Hj Hlj]|[Hj [= -> <-]]].
    + apply lookup_snoc_Some in Hi as [[_ Hli]|[? _]]; [by eapply Hd|lia].
    + apply lookup_snoc_Some in Hi as [[_ Hli]|[? _]]; [|lia].
      rewrite Hlog, Hu, app_assoc in Hli. apply lookup_app_Some in Hli as [Hli|[_ Hli]].
      * destruct (Hgo i k' ti Hli); [by left|right]. unfold len in *. lia.
      * exfalso. apply list_elem_of_lookup_2 in Hli. apply dget_None in Hkept. apply Hkept.
        unfold dkeys. by apply (list_elem_of_fmap_2 fst) in Hli.
Qed.

Lemma served_ok t log s : served t log s → replay_ok t log s.
Proof using HX HK.
  induction 1 as [i devices t s Hnew|t log s env p s' out _ IH Ht Hrun|t log s devices _ IH].
  - unfold new_server in Hnew. result_inv. split; simpl; try done; [constructor|by exists []].
  - apply accept_run in Hrun. destruct out as [[d ss]|e].
    + destruct Hrun as (h & pk & [_ _ _ Hun [Hid _] _ ->]). cbn [logged]. rewrite Hid.
      apply (replay_ok_remember (e_now env) log (with_used (evict _ _) s)); [by eapply replay_ok_evict|done].
    + cbn [logged]. rewrite app_nil_r. destruct Hrun as [_ [-> | ->]]; [by eapply replay_ok_later|by eapply replay_ok_evict].
  - unfold refresh_trusted_devices, lift, modify, mbind, M_bind. destruct (_copy_trusted_devices devices); [|done].
    by destruct IH.
Qed.

(** Over the life of a server, two hellos with the same session identifier
    are never both accepted, unless thirty minutes passed between them or 4096
    other hellos were accepted in between; and the replay cache never holds more
    than 4096 identifiers. *)
Theorem hello_not_replayed t log s (Hserved : served t log s) :
  len (used_session_ids s) <= MAX_USED_SESSION_IDS ∧
  ∀ i j k ti tj, (i < j)%nat → log !! i = Some (k, ti) → log !! j = Some (k, tj) →
    ti + SESSION_ID_REPLAY_TTL_SECONDS * second <= tj ∨ MAX_USED_SESSION_IDS <= Z.of_nat j - Z.of_nat i.
Proof using HX HK. destruct (served_ok t log s Hserved) as [_ Hl _ Hd]. split; [done|exact Hd]. Qed.

(** A hello ends in an encrypted session only if it has exactly the six
    fields of the protocol, comes from a paired device and is signed with the
    key that device is paired with at that moment; every other hello raises
    [HandshakeError] and nothing else, and changes at most the expired entries
    of the replay cache. *)
Theorem accept_client_hello_spec env p s s' out (Hrun : accept env p s = (s', out)) :
  match out with
  | Ok (d, ss) => ∃ h pk, keys_exactly CLIENT_HELLO_FIELDS p = true ∧ admitted env p s s' d ss h pk
  | Raise e => e = HandshakeError ∧
      (s' = s ∨ s' = with_used (evict (e_now env - SESSION_ID_REPLAY_TTL_SECONDS * second) (used_session_ids s)) s)
  end.
Proof using HX HK.
  apply accept_run in Hrun. destruct out as [[d ss]|e]; [|done]. destruct Hrun as (h & pk & Had).
  exists h, pk. split; [|done]. pose proof (ad_hello _ _ _ _ _ _ _ _ Had) as Hh.
  unfold read_client_hello, mbind, result_bind, ensure in Hh.
  destruct (reraise _ _ (dump_bytes _ _ _)); [|done]. destruct (_ <=? _); [|done].
  by destruct (keys_exactly _ _).
Qed.
End Facts.

(** ** A hello answered once *)

#[local] Strategy 1000 [accept_client_hello].
#[local] Opaque accept_client_hello.

Definition sample_endpoint : server_state bool bool := mkServer sample_server [(u "phone", true)] [].
Definition sample_accept_env (t : Z) : accept_env bool := {| e_now := t; e_ephemeral := false; e_nonce := sample_nonce 2 |}.
Definition sample_admission : server_state bool bool * result (object * SecureSession) :=
  accept_client_hello (E := toy_ed25519) (X := toy_x25519) (K := toy_hkdf) 1 (sample_accept_env 10) (client_hello_dict sample_hello) sample_endpoint.
Definition sample_replay : server_state bool bool * result (object * SecureSession) :=
  accept_client_hello (E := toy_ed25519) (X := toy_x25519) (K := toy_hkdf) 1 (sample_accept_env 20) (client_hello_dict sample_hello) sample_admission.1.

Lemma sample_admission_ok : is_ok sample_admission.2 = true ∧ sample_replay.2 = Raise HandshakeError.
Proof. vm_compute. split; reflexivity. Qed.

Abbreviation sample_run := (served (E := toy_ed25519) (X := toy_x25519) (K := toy_hkdf) 1).

Lemma sample_served : sample_run 20 (([] ++ logged 10 sample_admission.2) ++ logged 20 sample_replay.2) sample_replay.1.
Proof.
  refine (served_accept (E := toy_ed25519) (X := toy_x25519) (K := toy_hkdf) 1 10 _ _ (sample_accept_env 20) _ _ _ _ _
    (surjective_pairing sample_replay)); [|done].
  refine (served_accept (E := toy_ed25519) (X := toy_x25519) (K := toy_hkdf) 1 0 _ _ (sample_accept_env 10) _ _ _ _ _
    (surjective_pairing sample_admission)); [|done].
  by apply (served_new 1 sample_server [(u "phone", true)]).
Qed.

Lemma hello_not_replayed_witness :
  len (used_session_ids sample_replay.1) <= MAX_USED_SESSION_IDS.
Proof. exact (proj1 (hello_not_replayed (E := toy_ed25519) (X := toy_x25519) (K := toy_hkdf) 1 20 _ sample_replay.1 sample_served)). Defined.

Lemma accept_client_hello_spec_witness :
  ∃ d ss h pk, sample_admission.2 = Ok (d, ss) ∧
    admitted 1 (sample_accept_env 10) (client_hello_dict sample_hello) sample_endpoint sample_admission.1 d ss h pk.
Proof.
  pose proof (accept_client_hello_spec (E := toy_ed25519) (X := toy_x25519) (K := toy_hkdf) 1 (sample_accept_env 10) (client_hello_dict sample_hello) sample_endpoint
    sample_admission.1 sample_admission.2 (surjective_pairing sample_admission)) as H.
  pose proof (proj1 sample_admission_ok) as Hok.
  destruct sample_admission.2 as [[d ss]|e]; [|discriminate Hok].
  destruct H as (h & pk & _ & Had). exists d, ss, h, pk. exact (conj eq_refl Had).
Defined.
