(* ===== verification/SecureCore.v ===== *)
(** * The Core behind the encrypted session: [secure_core_connection.py]

    [SecureCoreConnection] puts the handshake server, the JSON channel and
    the Core together: a client hello opens a Core session and the channel
    that belongs to it, and from then on every frame is decrypted, parsed,
    handled in that session and answered encrypted.  The Core and the server
    are shared with other connections, so a method runs on the connection's
    own attributes together with both. *)
From S2P Require Import Prelude Dict Value Effects Encoding Json JsonParse Protocol Confirmations Tools Crypto Challenge.
From S2P Require Import PyStr Captions SecureSession SecureChannel SecureServer Sessions Core CoreFacts Gate.

Definition MAX_SECURE_PROTOCOL_ERRORS : Z := 3.

(** What the Core reads and draws in one call, besides the handshake. *)
Section SecureCore.
Context {W V : Type} `{I : VerifierI V} `{UnicodeData} `{IntentParser}.
Context {SK PK XSK XPK : Type} `{E : Ed25519 SK PK} `{X : X25519 XSK XPK} `{K : HKDF} `{A : AEAD}.
Context (ttl_seconds : Z) (catalog : dict pystr (ToolDefinition W)).
Context (command_catalog capability_catalog : option (W → result value)).
Context (command_catalog_authoritative : bool).
(** Clock ticks in one second. *)
Context (second : Z).

(** The attributes of [SecureCoreConnection]. *)
Record secure_conn := mkSecureConn {
  channel : option SecureSession;
  core_session_id : option pystr;
  conn_device_id : option pystr;
  device_public_key : option PK;
  protocol_errors : Z
}.
Definition new_secure_conn : secure_conn := mkSecureConn None None None None 0.

Record secure_state := mkSecureState {
  conn : secure_conn;
  server : server_state SK PK;
  core : core_state W V
}.

(** Attribute assignments. *)
Definition with_conn (c : secure_conn) (s : secure_state) : secure_state := mkSecureState c (server s) (core s).
Definition with_channel (ss : SecureSession) (c : secure_conn) : secure_conn :=
  mkSecureConn (Some ss) (core_session_id c) (conn_device_id c) (device_public_key c) (protocol_errors c).
Definition with_errors (n : Z) (c : secure_conn) : secure_conn :=
  mkSecureConn (channel c) (core_session_id c) (conn_device_id c) (device_public_key c) n.

Definition on_server {T} (m : M (server_state SK PK) T) : M secure_state T :=
  zoom server (λ v s, mkSecureState (conn s) v (core s)) m.
Definition on_core {T} (m : M (core_state W V) T) : M secure_state T :=
  zoom core (λ σ s, mkSecureState (conn s) (server s) σ) m.
(** A method of [self._channel]; there is one wherever the code calls it. *)
Definition on_channel {T} (m : M SecureSession T) : M secure_state T := λ s,
  match channel (conn s) with
  | None => raise AttributeError s
  | Some ss => let '(ss', r) := m ss in (with_conn (with_channel ss' (conn s)) s, r)
  end.

Definition authenticated (c : secure_conn) : bool :=
  match channel c, core_session_id c with Some _, Some _ => true | _, _ => false end.

Definition device_is_trusted (s : secure_state) : bool :=
  match conn_device_id (conn s), device_public_key (conn s) with
  | Some d, Some pk => is_trusted_device d pk (server s)
  | _, _ => false
  end.

Definition close : M secure_state unit :=
  gets (λ s, core_session_id (conn s)) ≫= λ sid,
  (match sid with Some sid => on_core (Core.close sid) | None => mret tt end) ≫= λ _,
  gets (λ s, channel (conn s)) ≫= λ ch,
  (match ch with Some _ => on_channel close_channel | None => mret tt end) ≫= λ _,
  modify (with_conn new_secure_conn).

(** [str(server_payload["client_id"])]: the server put a string there. *)
Definition payload_client_id (d : object) : result pystr :=
  v ← getitem (u "client_id") d; match v with VStr s => Ok s | _ => Raise TypeError end.

(** [secure_session.close()] on the session that was never installed has no
    effect that outlives the call. *)
Definition accept_client_hello (aenv : accept_env XSK) (now : Z) (token : pystr) (payload : object)
    (firmware_version : value) (capabilities : list value) : M secure_state object :=
  gets (λ s, authenticated (conn s)) ≫= λ already,
  if already : bool then raise SecureCoreConnectionError
  else
    on_server (SecureServer.accept_client_hello second aenv payload) ≫= λ answer,
    lift (payload_client_id answer.1) ≫= λ d,
    gets (λ s, trusted_device_public_key d (server s)) ≫= λ key,
    match key with
    | None => raise HandshakeError
    | Some pk =>
      except
        (on_core (on_sessions (Sessions.create d firmware_version capabilities false now token)) ≫= λ s, mret (Some s))
        [SessionLimitError] (mret None) ≫= λ core_session,
      match core_session with
      | None => raise HandshakeError
      | Some session =>
        modify (λ s, with_conn (mkSecureConn (Some answer.2) (Some (Sessions.session_id session)) (Some d) (Some pk)
                                  (protocol_errors (conn s))) s) ≫= λ _,
        mret answer.1
      end
    end.

(** [parse_client_message(payload)], [None] when it raises [ProtocolError]. *)
Definition parsed_payload (payload : object) : M secure_state (option client_message) :=
  except (lift (parse_client_message (VDict payload)) ≫= λ m, mret (Some m)) [ProtocolError] (mret None).

Definition on_protocol_error : M secure_state (list object) :=
  modify (λ s, with_conn (with_errors (protocol_errors (conn s) + 1) (conn s)) s) ≫= λ _,
  lift (bare_error "protocol_error") ≫= λ message,
  on_channel (seal_message message) ≫= λ response,
  gets (λ s, MAX_SECURE_PROTOCOL_ERRORS <=? protocol_errors (conn s)) ≫= λ over,
  (if over : bool then close else mret tt) ≫= λ _,
  mret [response].

Definition process_frame (env : core_env) (frame : object) : M secure_state (list object) :=
  gets (λ s, (channel (conn s), core_session_id (conn s))) ≫= λ cs,
  match cs with
  | (Some _, Some sid) =>
    gets device_is_trusted ≫= λ trusted,
    if negb trusted then close ≫= λ _, raise HandshakeError
    else
      cleanup (on_channel (open_message frame)) [SecureSessionError] close ≫= λ payload,
      parsed_payload payload ≫= λ message,
      match message with
      | None => on_protocol_error
      | Some m =>
        modify (λ s, with_conn (with_errors 0 (conn s)) s) ≫= λ _,
        on_core (handle ttl_seconds catalog command_catalog capability_catalog
                   command_catalog_authoritative env sid m) ≫= λ responses,
        collect (λ response, on_channel (seal_message response)) responses
      end
  | _ => raise SecureCoreConnectionError
  end.
End SecureCore.
Arguments secure_conn PK : clear implicits.
Arguments secure_state W V SK PK : clear implicits.

Section Facts.
Context {W V : Type} `{I : VerifierI V} {HI : VerifierLaws I} `{UnicodeData} `{IntentParser}.
Context {SK PK XSK XPK : Type} `{E : Ed25519 SK PK} `{X : X25519 XSK XPK} `{K : HKDF} `{A : AEAD}.
Context {HX : X25519Laws X} {HK : HKDFLaws K}.
Context (ttl_seconds : Z) (catalog : dict pystr (ToolDefinition W)).
Context (command_catalog capability_catalog : option (W → result value)).
Context (command_catalog_authoritative : bool) (second : Z).
Implicit Types (s : secure_state W V SK PK) (c : secure_conn PK) (ss : SecureSession) (σ : core_state W V).

Abbreviation process_frame := (process_frame ttl_seconds catalog command_catalog capability_catalog
  command_catalog_authoritative).
Abbreviation accept := (accept_client_hello second).
Abbreviation pendings σ := (Tools.pending (router σ)).

(** Either the connection has none of its four attributes or all of them. *)
Definition conn_ok c : Prop :=
  0 <= protocol_errors c ∧
  match channel c with
  | None => core_session_id c = None ∧ conn_device_id c = None ∧ device_public_key c = None
  | Some ss => SecureSession.session_ok ss ∧
      ∃ sid d pk, core_session_id c = Some sid ∧ sid ≠ [] ∧ conn_device_id c = Some d ∧ device_public_key c = Some pk
  end.
Definition secure_ok s : Prop := conn_ok (conn s) ∧ core_ok (core s).

Lemma new_conn_ok : conn_ok (new_secure_conn : secure_conn PK).
Proof. by split. Qed.

(** ** Closing *)

(** The connection is as new, its Core session is gone with its actions. *)
Definition closed_out s s' : Prop :=
  conn s' = new_secure_conn ∧ server s' = server s ∧
  ∃ sid, core_session_id (conn s) = Some sid ∧
    sessions (core s') = ddel sid (sessions (core s)) ∧
    pendings (core s') = filter (λ kv, ¬ owned_by (Some sid) kv.2) (pendings (core s)) ∧
    shrinks (core s) (core s').

Lemma secure_close_run s :
  secure_ok s → ∃ s', close s = (s', Ok tt) ∧ secure_ok s' ∧ server s' = server s ∧
    (channel (conn s) = None → s' = with_conn new_secure_conn s) ∧
    (channel (conn s) ≠ None → closed_out s s').
Proof.
  intros [[He Hc] Hok]. destruct s as [c v σ]. cbn in *. unfold close. erewrite bind_ok by done. cbn [conn].
  destruct (channel c) as [ss|] eqn:Hch.
  - destruct Hc as (Hss & sid & d & pk & Hsid & Hne & _). rewrite Hsid.
    destruct (close_run sid σ Hok Hne) as (σ' & Hrun & Hok' & Hsh & _ & Hs & Hp).
    erewrite bind_ok by by (unfold on_core; apply zoom_run). cbn [conn server core].
    erewrite bind_ok by done. cbn [conn]. rewrite Hch. erewrite bind_ok by by (unfold on_channel; cbn [conn]; rewrite Hch).
    eexists. split; [done|]. split_and!; [by split; [apply new_conn_ok|]|done|done|].
    intros _. split_and!; [done|done|]. by exists sid.
  - destruct Hc as (-> & _ & _). erewrite bind_ok by done. erewrite bind_ok by done. cbn [conn]. rewrite Hch.
    erewrite bind_ok by done. eexists. split; [done|]. split_and!; [by split; [apply new_conn_ok|]|done..].
Qed.

(** ** Opening *)

Lemma client_id_of r : payload_client_id (server_hello_dict r) = Ok (s_client_id r).
Proof. reflexivity. Qed.

Lemma no_session_yet c : conn_ok c → authenticated c = false → channel c = None.
Proof.
  intros [_ Hc]. unfold authenticated. destruct (channel c); [|done].
  destruct Hc as (_ & sid & d & pk & -> & _). done.
Qed.

(** The Core session a verified hello opens; nothing else of the Core moves but
    the sessions that had been idle too long. *)
Definition opened (now : Z) (token d : pystr) (fw : value) (caps : list value) σ σ' : Prop :=
  router σ' = router σ ∧ facts σ' = facts σ ∧ verifier σ' = verifier σ ∧
  sessions σ' = filter (λ kv, ¬ idle now kv.2) (sessions σ) ++ [(token, new_session d fw caps false now token)].
Definition only_pruned (now : Z) σ σ' : Prop :=
  router σ' = router σ ∧ facts σ' = facts σ ∧ verifier σ' = verifier σ ∧
  (sessions σ' = sessions σ ∨ sessions σ' = filter (λ kv, ¬ idle now kv.2) (sessions σ)).

Lemma only_pruned_refl now σ : only_pruned now σ σ.
Proof. split_and!; auto. Qed.

Lemma accept_hello_run aenv now token p fw caps s :
  secure_ok s → fresh_session token (core s) →
  ∃ s' r, accept aenv now token p fw caps s = (s', r) ∧ secure_ok s' ∧
    match r with
    | Ok answer => ∃ h pk ss, authenticated (conn s) = false ∧
        admitted second aenv p (server s) (server s') answer ss h pk ∧
        conn s' = mkSecureConn (Some ss) (Some token) (Some (c_client_id h)) (Some pk) (protocol_errors (conn s)) ∧
        opened now token (c_client_id h) fw caps (core s) (core s')
    | Raise e => is_a e SecureSessionError = true ∧ conn s' = conn s ∧ only_pruned now (core s) (core s')
    end.
Proof using HX HK.
  intros [Hc Hok] Hfresh. destruct s as [c v σ]. cbn in *. unfold accept_client_hello. erewrite bind_ok by done. cbn [conn].
  destruct (authenticated c) eqn:Hauth.
  { eexists _, _. split; [done|]. split_and!; [by split|done|done|apply only_pruned_refl]. }
  pose proof (no_session_yet c Hc Hauth) as Hch.
  destruct (SecureServer.accept_client_hello second aenv p v) as [v' out] eqn:Ea.
  assert (on_server (SecureServer.accept_client_hello second aenv p) (mkSecureState c v σ) = (mkSecureState c v' σ, out)) as Hs
    by (unfold on_server; exact (zoom_run _ _ _ (mkSecureState c v σ) _ _ Ea)).
  pose proof (accept_run second aenv p v v' out Ea) as Ea'. clear Ea. rename Ea' into Ea. destruct out as [[answer ss]|e].
  2:{ erewrite bind_raise by exact Hs. eexists _, _. split; [done|]. destruct Ea as [-> _].
      split_and!; [by split|done|done|apply only_pruned_refl]. }
  destruct Ea as (h & pk & Had). pose proof Had as [_ Hpk _ _ [_ Hss] (r & Hr & ->) Hv].
  apply create_server_hello_session in Hr as (_ & _ & _ & Hcl & _).
  erewrite bind_ok by exact Hs. cbn [fst snd]. rewrite client_id_of, Hcl. erewrite bind_ok by done. erewrite bind_ok by done.
  assert (trusted_device_public_key (c_client_id h) v' = Some pk) as Hkey by by rewrite Hv.
  cbn [server]. rewrite Hkey.
  destruct (open_session_run (c_client_id h) fw caps false now token σ Hok Hfresh)
    as (σ' & out & Hrun & Hok' & Hrt & Hf & Hve & Hcase).
  assert (on_core (on_sessions (Sessions.create (c_client_id h) fw caps false now token)) (mkSecureState c v' σ) =
    (mkSecureState c v' σ', out)) as Hcore
    by (unfold on_core; exact (zoom_run _ _ _ (mkSecureState c v' σ) _ _ Hrun)).
  destruct Hcase as [[-> Hsess]|[-> Hsess]].
  - erewrite bind_ok by (apply except_ok; by erewrite bind_ok by exact Hcore). cbn beta iota.
    erewrite bind_ok by done. eexists _, _. split; [done|]. cbn [conn server core with_conn Sessions.session_id new_session].
    split_and!; [split; [split; [apply Hc|split; [done|]]|done]|].
    + destruct Hfresh as (Hne & _). by exists token, (c_client_id h), pk.
    + exists h, pk, ss. split_and!; [done|done|done|by split_and!].
  - erewrite bind_ok by (etrans; [eapply except_caught; [by eapply bind_raise|done]|done]). cbn beta iota.
    eexists _, _. split; [done|]. split_and!; [by split|done|done|]. split_and!; auto.
Qed.

(** ** One frame *)

Lemma on_channel_run {T} (m : M SecureSession T) s ss ss' r :
  channel (conn s) = Some ss → m ss = (ss', r) → on_channel m s = (with_conn (with_channel ss' (conn s)) s, r).
Proof. intros Hc Hm. unfold on_channel. by rewrite Hc, Hm. Qed.

Lemma collect_channel {T U} (f : T → M SecureSession U) l s ss ss' r :
  channel (conn s) = Some ss → collect f l ss = (ss', r) →
  collect (λ x, on_channel (f x)) l s = (with_conn (with_channel ss' (conn s)) s, r).
Proof.
  revert s ss ss' r. induction l as [|x l IH]; intros s ss ss' r Hc; cbn [collect].
  - intros [= <- <-]. destruct s as [[ch sid d pk n] v σ]. cbn in Hc. by subst.
  - destruct (f x ss) as [ss1 [y|e]] eqn:Ef; pose proof (on_channel_run (f x) s ss _ _ Hc Ef) as Hrun.
    + erewrite bind_ok by exact Ef. erewrite (bind_ok (on_channel _)) by exact Hrun.
      set (s1 := with_conn (with_channel ss1 (conn s)) s).
      destruct (collect f l ss1) as [ss2 r'] eqn:El. pose proof (IH s1 ss1 ss2 r' eq_refl El) as Hrest.
      destruct r' as [ys|e].
      * erewrite bind_ok by exact El. erewrite (bind_ok (collect (λ x, _) _)) by exact Hrest. by intros [= <- <-].
      * erewrite bind_raise by exact El. erewrite (bind_raise (collect (λ x, _) _)) by exact Hrest. by intros [= <- <-].
    + erewrite bind_raise by exact Ef. erewrite (bind_raise (on_channel _)) by exact Hrun. by intros [= <- <-].
Qed.

Lemma keeps_collect_seal l : keeps SecureSession.session_ok (collect seal_message l).
Proof.
  induction l as [|o l IH]; cbn [collect]; [by intros ?|]. apply keeps_bind; [apply keeps_seal_message|intros ?].
  apply keeps_bind; [done|intros ?]. by intros ?.
Qed.

Lemma with_channel_ok c ss ss' :
  conn_ok c → channel c = Some ss → SecureSession.session_ok ss' → conn_ok (with_channel ss' c).
Proof. intros [Hn Hc] Hch Hss. split; [done|]. rewrite Hch in Hc. by destruct Hc as [_ ?]. Qed.
Lemma with_errors_ok c n : conn_ok c → 0 <= n → conn_ok (with_errors n c).
Proof. by intros [_ Hc] Hn. Qed.

(** What a frame can come to.  [sid] is the Core session of the connection and
    [ss] its encrypted session. *)
Inductive frame_outcome (env : core_env) (f : object) (sid : pystr) ss s s' : result (list object) → Prop :=
(** the device is no longer paired with the key it was admitted under *)
| frame_untrusted :
    device_is_trusted s = false → closed_out s s' → frame_outcome env f sid ss s s' (Raise HandshakeError)
(** not a record of this session, or not an object *)
| frame_unreadable ss1 e :
    device_is_trusted s = true → open_message f ss = (ss1, Raise e) → is_a e SecureSessionError = true →
    closed_out (with_conn (with_channel ss1 (conn s)) s) s' → frame_outcome env f sid ss s s' (Raise e)
(** a payload with an integer too long to convert *)
| frame_overlong ss1 :
    device_is_trusted s = true → open_message f ss = (ss1, Raise ValueError) →
    s' = with_conn (with_channel ss1 (conn s)) s → frame_outcome env f sid ss s s' (Raise ValueError)
(** an authentic payload that is no message of the contract *)
| frame_malformed ss1 ss2 p r s2 :
    device_is_trusted s = true → open_message f ss = (ss1, Ok p) → parse_client_message (VDict p) = Raise ProtocolError →
    seal_message (ok_or [] (bare_error "protocol_error")) ss1 = (ss2, r) →
    s2 = with_conn (with_errors (protocol_errors (conn s) + 1) (with_channel ss2 (conn s))) s →
    (if is_ok r && (MAX_SECURE_PROTOCOL_ERRORS <=? protocol_errors (conn s) + 1) then closed_out s2 s' else s' = s2) →
    frame_outcome env f sid ss s s' ((λ o, [o]) <$> r)
(** a message, handled in the session of the connection *)
| frame_handled ss1 ss2 p m os r :
    device_is_trusted s = true → open_message f ss = (ss1, Ok p) → parse_client_message (VDict p) = Ok m →
    handle ttl_seconds catalog command_catalog capability_catalog command_catalog_authoritative env sid m (core s) =
      (core s', Ok os) → Forall envelope_ok os → message_effect catalog env sid m (core s) (core s') →
    collect seal_message os ss1 = (ss2, r) → conn s' = with_errors 0 (with_channel ss2 (conn s)) → server s' = server s →
    frame_outcome env f sid ss s s' r.

Lemma closed_out_ok s s' : secure_ok s → channel (conn s) ≠ None → close s = (s', Ok tt) → secure_ok s' ∧ closed_out s s'.
Proof.
  intros Hok Hch Hrun. destruct (secure_close_run s Hok) as (s2 & Hrun2 & Hok2 & _ & _ & Hco).
  rewrite Hrun in Hrun2. injection Hrun2 as <-. auto.
Qed.

Lemma protocol_error_message : bare_error "protocol_error" = Ok (ok_or [] (bare_error "protocol_error")).
Proof. by vm_compute. Qed.

Lemma protocol_error_run env f sid ss ss1 p s :
  secure_ok s → channel (conn s) = Some ss → device_is_trusted s = true → open_message f ss = (ss1, Ok p) →
  SecureSession.session_ok ss1 → parse_client_message (VDict p) = Raise ProtocolError →
  ∃ s' r, on_protocol_error (with_conn (with_channel ss1 (conn s)) s) = (s', r) ∧ secure_ok s' ∧
    frame_outcome env f sid ss s s' r.
Proof using Type.
  intros [Hc Hok] Hch Htr Hop Hss Hp. unfold on_protocol_error. erewrite bind_ok by done. cbn beta.
  erewrite bind_ok by (unfold lift; by rewrite protocol_error_message).
  destruct (seal_message (ok_or [] (bare_error "protocol_error")) ss1) as [ss2 r] eqn:Es.
  assert (SecureSession.session_ok ss2) as Hss2 by exact (wp_run _ _ _ _ _ (keeps_seal_message _ ss1 Hss) Es).
  set (s2 := with_conn (with_errors (protocol_errors (conn s) + 1) (with_channel ss2 (conn s))) s).
  assert (secure_ok s2) as Hok2.
  { split; [|done]. apply with_errors_ok; [by apply with_channel_ok with (ss := ss)|]. destruct Hc. lia. }
  match goal with |- context [(on_channel ?m ≫= _) ?t] =>
    assert (on_channel m t = (s2, r)) as Hrun by exact (on_channel_run _ t ss1 ss2 r eq_refl Es) end.
  destruct r as [o|e].
  - erewrite bind_ok by exact Hrun. erewrite bind_ok by done. cbn [conn s2 with_conn with_errors with_channel protocol_errors].
    destruct (MAX_SECURE_PROTOCOL_ERRORS <=? protocol_errors (conn s) + 1) eqn:Hover.
    + destruct (secure_close_run s2 Hok2) as (s' & Hcl & Hok' & _ & _ & Hco). erewrite bind_ok by exact Hcl.
      eexists s', _. split; [done|]. split; [done|].
      apply (frame_malformed env f sid ss s s' ss1 ss2 p (Ok o) s2); try done. cbn [is_ok andb]. rewrite Hover. by apply Hco.
    + erewrite bind_ok by done. eexists s2, _. split; [done|]. split; [done|].
      apply (frame_malformed env f sid ss s s2 ss1 ss2 p (Ok o) s2); try done. cbn [is_ok andb]. by rewrite Hover.
  - erewrite bind_raise by exact Hrun. eexists s2, _. split; [done|]. split; [done|].
    by apply (frame_malformed env f sid ss s s2 ss1 ss2 p (Raise e) s2).
Qed.

Lemma parsed_payload_run p s : parsed_payload p s = (s, Ok (match parse_client_message (VDict p) with
  | Ok m => Some m | Raise _ => None end)).
Proof using Type.
  unfold parsed_payload. destruct (parse_client_message (VDict p)) as [m|e] eqn:Ep; [done|].
  by rewrite (parse_client_message_raises _ _ Ep).
Qed.

Lemma process_frame_outside env f s : secure_ok s → authenticated (conn s) = false →
  process_frame env f s = (s, Raise SecureCoreConnectionError).
Proof using Type.
  intros [Hc _] Ha. unfold process_frame. erewrite bind_ok by done. by rewrite (no_session_yet _ Hc Ha).
Qed.

Lemma process_frame_run env f s ss sid :
  secure_ok s → channel (conn s) = Some ss → core_session_id (conn s) = Some sid →
  provider_ok command_catalog (the_world (core s)) →
  ∃ s' r, process_frame env f s = (s', r) ∧ secure_ok s' ∧ frame_outcome env f sid ss s s' r.
Proof using Type.
  intros Hsok Hch Hsid Hprov. pose proof Hsok as [Hc Hok].
  assert (SecureSession.session_ok ss) as Hss by (destruct Hc as [_ Hc]; rewrite Hch in Hc; apply Hc).
  unfold process_frame. erewrite bind_ok by done. rewrite Hch, Hsid. erewrite bind_ok by done.
  destruct (device_is_trusted s) eqn:Htr; cbn [negb].
  2:{ destruct (secure_close_run s Hsok) as (s' & Hcl & Hok' & _ & _ & Hco).
      erewrite bind_ok by exact Hcl. eexists s', _. split; [done|]. split; [done|].
      apply frame_untrusted; [done|]. apply Hco. by rewrite Hch. }
  destruct (open_message f ss) as [ss1 out] eqn:Eop.
  assert (SecureSession.session_ok ss1) as Hss1 by exact (wp_run _ _ _ _ _ (keeps_open_message f ss Hss) Eop).
  set (s1 := with_conn (with_channel ss1 (conn s)) s).
  assert (secure_ok s1) as Hok1 by by (split; [apply with_channel_ok with (ss := ss)|]).
  assert (on_channel (open_message f) s = (s1, out)) as Hrun.
  { by apply on_channel_run with (ss := ss). }
  destruct out as [p|e].
  2:{ destruct (is_a e SecureSessionError) eqn:Ee.
      - destruct (secure_close_run s1 Hok1) as (s' & Hcl & Hok' & _ & _ & Hco).
        eexists s', _. split; [eapply bind_raise, cleanup_caught; [exact Hrun|unfold caught; cbn [existsb]; by rewrite Ee|done]|].
        split; [done|]. apply (frame_unreadable env f sid ss s s' ss1 e); try done. by apply Hco.
      - destruct (open_message_run ss f ss1 (Raise e) Hss Eop) as [(b & _ & Hr & _)|[_ (e' & [= <-] & He)]].
        + symmetry in Hr. apply read_payload_raises in Hr as [->|Hr]; [done|]. subst e.
          eexists s1, _. split; [eapply bind_raise, cleanup_missed; [exact Hrun|done]|]. split; [done|].
          by apply (frame_overlong env f sid ss s s1 ss1).
        + exfalso. destruct e; by vm_compute in He, Ee. }
  erewrite bind_ok by by apply cleanup_ok. cbn beta. erewrite bind_ok by apply parsed_payload_run.
  destruct (parse_client_message (VDict p)) as [m|e] eqn:Ep.
  2:{ pose proof (parse_client_message_raises _ _ Ep) as ->. subst s1. by eapply protocol_error_run. }
  erewrite bind_ok by done. set (s2 := with_conn (with_errors 0 (conn s1)) s1).
  destruct (parse_client_message_carries _ m Ep) as (m' & _ & _ & _ & Hcm & Hm & _).
  edestruct (handle_post ttl_seconds catalog command_catalog capability_catalog
    command_catalog_authoritative env sid m m' (core s)) as (σ' & r & Hh & (os & -> & Hos) & Hok' & He); [done..|].
  assert (∀ r', r' = Ok os → on_core (handle ttl_seconds catalog command_catalog capability_catalog
    command_catalog_authoritative env sid m) s2 = (mkSecureState (conn s2) (server s) σ', r')) as Hcore.
  { intros r' ->. unfold on_core. exact (zoom_run _ _ _ s2 _ _ Hh). }
  erewrite bind_ok by by apply Hcore.
  destruct (collect seal_message os ss1) as [ss2 r] eqn:Ecol.
  assert (SecureSession.session_ok ss2) as Hss2 by exact (wp_run _ _ _ _ _ (keeps_collect_seal os ss1 Hss1) Ecol).
  eexists _, r. split; [by apply collect_channel with (ss := ss1)|]. cbn [conn].
  split; [split; [|done]|].
  - apply with_channel_ok with (ss := ss1); [|done|done]. by apply with_errors_ok; [apply Hok1|].
  - by apply (frame_handled env f sid ss s _ ss1 ss2 p m os r).
Qed.

Definition frame_spec (env : core_env) (f : object) s s' (r : result (list object)) : Prop :=
  match channel (conn s), core_session_id (conn s) with
  | Some ss, Some sid => frame_outcome env f sid ss s s' r
  | _, _ => s' = s ∧ r = Raise SecureCoreConnectionError
  end.

Definition hello_spec (aenv : accept_env XSK) (now : Z) (token : pystr) (p : object) (fw : value) (caps : list value)
    s s' (r : result object) : Prop :=
  match r with
  | Ok answer => ∃ h pk ss, authenticated (conn s) = false ∧
      admitted second aenv p (server s) (server s') answer ss h pk ∧
      conn s' = mkSecureConn (Some ss) (Some token) (Some (c_client_id h)) (Some pk) (protocol_errors (conn s)) ∧
      opened now token (c_client_id h) fw caps (core s) (core s')
  | Raise e => is_a e SecureSessionError = true ∧ conn s' = conn s ∧ only_pruned now (core s) (core s')
  end.

(** A hello opens a Core session exactly when the handshake server admits
    it, and then for the device that signed it, under the encrypted session
    the handshake derived; every failure is a [SecureSessionError] that leaves
    the connection as it was and at most drops sessions idle for too long. *)
Theorem secure_hello_opens aenv now token p fw caps s (Hok : secure_ok s) (Hfresh : fresh_session token (core s)) :
  ∃ s' r, accept aenv now token p fw caps s = (s', r) ∧ secure_ok s' ∧ hello_spec aenv now token p fw caps s s' r.
Proof using HX HK. by apply accept_hello_run. Qed.

(** C31: A frame does nothing without an authenticated session.  With one, it
    is refused and the session closed when the device is no longer paired or
    the frame is no record of the session that carries an object; a payload
    outside the contract is answered with one sealed error, the third in a row
    closing the session; an authentic payload with an integer too long for
    Python to convert raises [ValueError] and leaves the session open, with
    nothing handled; and a message is handled in the connection's own Core session, its effect
    the one [handle] allows and its answers sealed in order. *)
Theorem secure_frame_gate env f s (Hok : secure_ok s) (Hprov : provider_ok command_catalog (the_world (core s))) :
  ∃ s' r, process_frame env f s = (s', r) ∧ secure_ok s' ∧ frame_spec env f s s' r.
Proof using Type.
  destruct (channel (conn s)) as [ss|] eqn:Hch.
  - pose proof Hok as [[_ Hc] _]. rewrite Hch in Hc. destruct Hc as (_ & sid & d & pk & Hsid & _).
    destruct (process_frame_run env f s ss sid Hok Hch Hsid Hprov) as (s' & r & Hrun & Hok' & Ho).
    exists s', r. split_and!; [done..|]. unfold frame_spec. by rewrite Hch, Hsid.
  - exists s, (Raise SecureCoreConnectionError). split_and!; [|done|].
    + apply process_frame_outside; [done|]. unfold authenticated. by rewrite Hch.
    + unfold frame_spec. by rewrite Hch.
Qed.
End Facts.

(** ** A phone that says hello and asks for the time *)

#[local] Strategy 1000 [SecureServer.accept_client_hello handle].
#[local] Opaque SecureServer.accept_client_hello.

Abbreviation sample_secure_state := (secure_state (list object) (verifier_state bool) bool bool).
Definition secure0 : sample_secure_state := mkSecureState new_secure_conn sample_endpoint core0.
Definition sample_accept (s : sample_secure_state) : sample_secure_state * result object :=
  accept_client_hello (E := toy_ed25519) (X := toy_x25519) (K := toy_hkdf) 1
    (sample_accept_env 10) 1000 (u "s") (client_hello_dict sample_hello) VNone (VStr <$> [u "display"; u "touch"]) s.

Lemma secure0_ok : secure_ok (I := verifier_interface 5) secure0.
Proof. split; [apply new_conn_ok|apply core0_ok]. Qed.
Lemma secure0_fresh : fresh_session (u "s") (core secure0).
Proof. split_and!; [done|done|]. by intros k p ?%not_elem_of_nil. Qed.

Definition secure1 : sample_secure_state := (sample_accept secure0).1.
Lemma secure1_answers : is_ok (sample_accept secure0).2 = true ∧ authenticated (conn secure1) = true ∧ device_is_trusted secure1 = true.
Proof. vm_compute. split_and!; reflexivity. Qed.

Lemma secure_hello_opens_witness :
  is_ok (sample_accept secure0).2 = true ∧
  ∃ s' r, sample_accept secure0 = (s', r) ∧ secure_ok (I := verifier_interface 5) s' ∧
    hello_spec (E := toy_ed25519) (X := toy_x25519) (K := toy_hkdf) 1 (sample_accept_env 10) 1000 (u "s")
      (client_hello_dict sample_hello) VNone (VStr <$> [u "display"; u "touch"]) secure0 s' r.
Proof.
  split; [exact (proj1 secure1_answers)|].
  exact (secure_hello_opens (I := verifier_interface 5) (E := toy_ed25519) (X := toy_x25519) (K := toy_hkdf) 1
    (sample_accept_env 10) 1000 (u "s") (client_hello_dict sample_hello) VNone (VStr <$> [u "display"; u "touch"]) secure0
    secure0_ok secure0_fresh).
Defined.

(** The phone's first record: a message of the contract, sealed by its end. *)
Definition ping_payload : object := [(u "type", VStr (u "ping")); (u "protocol_version", VInt 1)].
Definition phone_sealed : SecureSession * result object := seal_message (A := toy_aead) ping_payload sample_secure.
Definition phone_frame : object := ok_or [] phone_sealed.2.
Definition sample_process (f : object) (s : sample_secure_state) : sample_secure_state * result (list object) :=
  process_frame (E := toy_ed25519) (A := toy_aead) 60 sample_catalog None None false (sample_core_env 1006) f s.

Lemma phone_answered :
  len (ok_or [] (sample_process phone_frame secure1).2) = 1 ∧
  (sample_process phone_frame (sample_process phone_frame secure1).1).2 = Raise ReplayError.
Proof. vm_compute. split; reflexivity. Qed.

Lemma run_state {S T} (p : S * T) (P : S → Prop) (Q : S → T → Prop) : (∃ s r, p = (s, r) ∧ P s ∧ Q s r) → P p.1.
Proof. by intros (s & r & -> & ? & _). Qed.

Lemma secure1_ok : secure_ok (I := verifier_interface 5) secure1.
Proof.
  exact (run_state (sample_accept secure0) _ _
    (accept_hello_run (I := verifier_interface 5) (E := toy_ed25519) (X := toy_x25519) (K := toy_hkdf) 1
    (sample_accept_env 10) 1000 (u "s") (client_hello_dict sample_hello) VNone (VStr <$> [u "display"; u "touch"]) secure0
    secure0_ok secure0_fresh)).
Qed.

Lemma secure_frame_gate_witness :
  len (ok_or [] (sample_process phone_frame secure1).2) = 1 ∧
  ∃ s' r, sample_process phone_frame secure1 = (s', r) ∧ secure_ok (I := verifier_interface 5) s' ∧
    frame_spec (E := toy_ed25519) (A := toy_aead) 60 sample_catalog None None false (sample_core_env 1006) phone_frame secure1 s' r.
Proof.
  split; [exact (proj1 phone_answered)|].
  exact (secure_frame_gate (I := verifier_interface 5) (E := toy_ed25519) (A := toy_aead) 60 sample_catalog None None false
    (sample_core_env 1006) phone_frame secure1 secure1_ok Logic.I).
Defined.
