(* ===== verification/MobileClient.v ===== *)
(** * The reference mobile client: [windows-agent/secure_mobile_client.py]

    [SecureMobileClient] holds the client's end of an encrypted session over a
    [SecureCoreConnection] it calls in memory.  Its state is its two attributes
    together with everything behind the connection.  The theorems: an honest
    client of a paired device always gets its session, and from then on the
    encryption is transparent: the client reads exactly what the Core
    answered. *)
From S2P Require Import Prelude Dict Value Effects Encoding Json JsonParse JsonRoundtrip Binding Protocol Confirmations Tools Crypto.
From S2P Require Import Challenge PyStr Captions SecureSession SecureChannel SecureServer Sessions Core CoreFacts Gate SecureCore.

Section Client.
Context {W V : Type} `{I : VerifierI V} `{UnicodeData} `{IntentParser}.
Context {SK PK XSK XPK : Type} `{E : Ed25519 SK PK} `{X : X25519 XSK XPK} `{K : HKDF} `{A : AEAD}.
Context (ttl_seconds : Z) (catalog : dict pystr (ToolDefinition W)).
Context (command_catalog capability_catalog : option (W → result value)).
Context (command_catalog_authoritative : bool) (second : Z).

(** The attributes [__init__] sets once and for all. *)
Record settings := mkSettings {
  own_identity : SecureIdentity (SK := SK); server_public_key : PK; server_id : pystr; firmware_version : pystr;
  capabilities : list pystr
}.
(** [SecureMobileClient(...)], given arguments of the annotated types. *)
Definition new_settings (identity : SecureIdentity) (key : PK) (server_id firmware_version : pystr) (capabilities : list pystr)
  : result settings :=
  _ ← ensure (nonempty (strip server_id)) ValueError;
  _ ← ensure (nonempty (strip firmware_version)) ValueError;
  _ ← ensure (nonempty capabilities) ValueError;
  Ok (mkSettings identity key (strip server_id) (strip firmware_version) capabilities).

(** [_connection] (whether it is set) and [_channel]; and what is behind the
    connection the client is given. *)
Record mobile := mkMobile { _connection : bool; _channel : option SecureSession; remote : secure_state W V SK PK }.
Definition on_remote {T} (m : M (secure_state W V SK PK) T) : M mobile T :=
  zoom remote (λ r s, mkMobile (_connection s) (_channel s) r) m.
(** A method of the channel, where there is one. *)
Definition on_channel {T} (m : M SecureSession T) : M mobile T := λ s,
  match _channel s with
  | None => raise AttributeError s
  | Some c => let '(c', r) := m c in (mkMobile (_connection s) (Some c') (remote s), r)
  end.

Definition connected (s : mobile) : bool := _connection s && match _channel s with Some _ => true | None => false end.

Definition close : M mobile unit :=
  gets _connection ≫= λ linked,
  (if linked : bool then on_remote SecureCore.close else mret tt) ≫= λ _,
  modify (λ s, mkMobile false None (remote s)).

Definition message_payload (message_type : literal) (fields : object) : object :=
  [(u "protocol_version", VInt 1); (u "type", VStr (u message_type))] ++ fields.
Arguments message_payload message_type%_string_scope fields.

Definition _send (env : core_env) (message_type : literal) (fields : object) : M mobile (list object) :=
  gets connected ≫= λ ready,
  if negb ready then raise SecureMobileClientError
  else
    cleanup
      (on_channel (seal_message (message_payload message_type fields)) ≫= λ frame,
       on_remote (process_frame ttl_seconds catalog command_catalog capability_catalog command_catalog_authoritative env frame)
       ≫= λ frames,
       collect (λ frame, on_channel (open_message frame)) frames)
      [SecureSessionError] close.
Arguments _send env message_type%_string_scope fields.

(** [ServerHello( **server_payload )] of the dictionary the server returned. *)
Definition read_server_hello (d : object) : result ServerHello :=
  server_hello (get (u "session_id") d) (get (u "client_id") d) (get (u "server_id") d)
    (get (u "client_ephemeral_public_key") d) (get (u "client_nonce") d) (get (u "server_ephemeral_public_key") d)
    (get (u "server_nonce") d) (get (u "signature") d) (get (u "protocol_version") d).

(** What [connect] draws, and what the server reads and draws meanwhile. *)
Record connect_env := mkConnectEnv {
  drawn_id : bytes; drawn_key : XSK; drawn_nonce : bytes;
  accepting : accept_env XSK; session_now : Z; drawn_token : pystr; hello_env : core_env
}.

(** The handshake of [connect], up to the installed channel. *)
Definition establish (cfg : settings) (env : connect_env) : M mobile unit :=
  lift (create_client_hello (own_identity cfg) None (drawn_id env) (drawn_key env) (drawn_nonce env)) ≫= λ '(hello, ephemeral),
  cleanup
    (on_remote (accept_client_hello second (accepting env) (session_now env) (drawn_token env) (client_hello_dict hello) VNone [])
     ≫= λ server_payload,
     lift (answer ← read_server_hello server_payload;
           complete_client_handshake (own_identity cfg) hello ephemeral answer (server_public_key cfg) (Some (server_id cfg))))
    [HandshakeError; SecureSessionError; TypeError; ValueError] (on_remote SecureCore.close) ≫= λ session,
  modify (λ s, mkMobile true (Some session) (remote s)).

Definition device_hello_fields (cfg : settings) : object :=
  [(u "firmware_version", VStr (firmware_version cfg)); (u "capabilities", str_list (capabilities cfg))].

Definition connect (cfg : settings) (env : connect_env) : M mobile (list object) :=
  gets connected ≫= λ ready,
  if ready : bool then raise SecureMobileClientError
  else
    establish cfg env ≫= λ _,
    _send (hello_env env) "device_hello" (device_hello_fields cfg) ≫= λ responses,
    match responses with
    | [r] => if eq_str (get (u "type") r) (u "device_hello_ack") then mret responses else close ≫= λ _, raise SecureMobileClientError
    | _ => close ≫= λ _, raise SecureMobileClientError
    end.

Definition send_text (env : core_env) (text : pystr) : M mobile (list object) :=
  _send env "text_input" [(u "text", VStr text); (u "source", VStr (u "mobile"))].

Definition request_catalog_details (env : core_env) : M mobile object :=
  _send env "catalog_request" [] ≫= λ responses,
  match responses with
  | [r] =>
    if negb (eq_str (get (u "type") r) (u "catalog")) then raise SecureMobileClientError
    else
      match get (u "commands") r, get_or (u "capabilities") (VDict []) r with
      | VList commands, VDict capabilities => mret [(u "commands", VList commands); (u "capabilities", VDict capabilities)]
      | _, _ => raise SecureMobileClientError
      end
  | _ => raise SecureMobileClientError
  end.
Definition request_catalog (env : core_env) : M mobile value :=
  request_catalog_details env ≫= λ details, lift (getitem (u "commands") details).

Definition call_tool (env : core_env) (name : pystr) (arguments : object) (call_id : option pystr) : M mobile (list object) :=
  lift (reraise [ValueError] SecureMobileClientError (compute_request_digest name arguments)) ≫= λ binding,
  _send env "tool_call"
    ([(u "name", VStr name); (u "arguments", VDict arguments); (u "request_digest", VStr binding)]
     ++ match call_id with Some c => [(u "call_id", VStr c)] | None => [] end).

Definition confirm (env : core_env) (confirmation_id : pystr) (accepted : bool) : M mobile (list object) :=
  _send env "confirm" [(u "confirmation_id", VStr confirmation_id); (u "accepted", VBool accepted)].
End Client.
Arguments mobile W V SK PK : clear implicits.
Arguments settings SK PK : clear implicits.
Arguments connect_env XSK : clear implicits.

(** ** Two ends in step *)

Section Channel.
Context `{A : AEAD} {HA : AEADLaws A}.
Implicit Types (a b : SecureSession).

(** Each end reads the other and expects the record it will seal next. *)
Record in_step a b : Prop := {
  st_client : SecureSession.session_ok a; st_server : SecureSession.session_ok b; st_up : reads b a; st_down : reads a b;
  st_sent : receive_sequence b = send_sequence a; st_answered : receive_sequence a = send_sequence b;
  st_open : closed a = false ∧ closed b = false
}.
Lemma in_step_sym a b : in_step a b → in_step b a.
Proof. intros []. split; tauto. Qed.
Lemma mirror_in_step a b : mirror a b → in_step a b.
Proof. intros (? & ? & ? & ? & ? & ? & ? & ? & ? & ?). split; [done..|congruence|congruence|done]. Qed.

(** The object as [json.loads] gives it back: its names in order. *)
Definition sorted_object (d : object) : object := merge_sort key_le ((λ kv, (kv.1, sorted_value kv.2)) <$> d).
(** The object printed and read again, as [json.dumps] and [json.loads] do at
    the two ends of the channel. *)
Definition read_back (d : object) : result object := t ← dump_bytes true false (VDict d); read_payload t.
(** [r] is the object at the other end: without floats, the same object. *)
Definition arrives (d r : object) : Prop := read_back d = Ok r ∧ (plain (VDict d) → r = sorted_object d).
(** The object fits in one record. *)
Definition fits (d : object) : Prop := ∃ t, dump_bytes true false (VDict d) = Ok t ∧ len t <= MAX_RECORD_BYTES.
(** There are [n] more records to seal. *)
Definition room (n : Z) a : Prop := send_sequence a + n <= MAX_SEQUENCE + 1.

Lemma read_back_plain d t : plain (VDict d) → dump_bytes true false (VDict d) = Ok t → read_back d = Ok (sorted_object d).
Proof using Type.
  intros Hd Hb. unfold read_back. rewrite Hb. cbn [mbind result_bind]. unfold read_payload, reject_json_duplicates.
  by rewrite (loads_utf8_dump true SecureJsonError false _ t Hd Hb).
Qed.
Lemma arrives_intro d t r : dump_bytes true false (VDict d) = Ok t → read_back d = Ok r → arrives d r.
Proof using Type. intros Hb Hr. split; [done|]. intros Hd. rewrite (read_back_plain d t Hd Hb) in Hr. by injection Hr as <-. Qed.

Lemma sealed_opens a b d a' f :
  in_step a b → seal_message d a = (a', Ok f) →
  ∃ b' t, dump_bytes true false (VDict d) = Ok t ∧ open_message f b = (b', read_back d) ∧ in_step a' b' ∧
    b' = with_receive_sequence (receive_sequence b + 1) b ∧ send_sequence a' = send_sequence a + 1.
Proof using HA.
  intros [Ha Hb Hup Hdown Hs Hr [Hca Hcb]] Hseal.
  pose proof (keeps_seal_message d a Ha) as Hka. unfold wp in Hka. rewrite Hseal in Hka. cbn [fst] in Hka.
  destruct (seal_message_run a d a' _ Ha Hseal) as [(t & h & Ht & Hst & [= ->] & Ha')|[_ (e & [=] & _)]].
  assert (Forall is_octet t) as Hoct.
  { unfold dump_bytes, mbind, result_bind in Ht. destruct (dumps _ _ _) as [x|]; [|done].
    destruct (utf8_encode x) eqn:Et; [|done]. injection Ht as <-. by eapply utf8_encode_octets. }
  destruct (open_seal a b t SECURE_JSON_AAD a' _ Ha Hb Hup Hs Hcb Hoct Hst) as (b' & Ho & Hup' & Hs').
  pose proof (keeps_open (record_of a (send_sequence a) h t SECURE_JSON_AAD) SECURE_JSON_AAD b Hb) as Hkb. unfold wp in Hkb.
  rewrite Ho in Hkb. cbn [fst] in Hkb.
  exists b', t. split; [done|]. split.
  { unfold open_message, read_back. rewrite record_of_fields. cbn [negb]. erewrite bind_ok by exact Ho. by rewrite Ht. }
  apply open_run in Ho as [(? & _ & _ & _ & _ & ->)|[_ (e & [=] & _)]]; [|done]. rewrite Ha' in *. split; [|done].
  split; try done. by destruct Hdown.
Qed.

Lemma seal_fits d a : SecureSession.session_ok a → closed a = false → fits d → room 1 a → ∃ a' f, seal_message d a = (a', Ok f).
Proof using Type.
  intros Ha Hc (p & Hp & Hl) Hroom. unfold room in Hroom. unfold seal_message. rewrite Hp. cbn [reraise].
  erewrite bind_ok by done. rewrite (proj2 (Z.ltb_ge _ _)) by done.
  unfold seal, _ensure_open. erewrite bind_ok by by (erewrite bind_ok by done; rewrite Hc).
  rewrite (proj2 (Z.ltb_ge _ _)) by done. erewrite bind_ok by done. erewrite bind_ok by done. cbn [id].
  rewrite (proj2 (Z.ltb_ge _ _)) by lia.
  destruct (header_canonical a (send_sequence a)) as [h Hh]; [apply Ha|split; [apply Ha|lia]|].
  erewrite bind_ok by (unfold lift; by rewrite Hh). cbv zeta. erewrite bind_ok by done. by eexists _, _.
Qed.

(** A batch sealed at one end is opened, whole and in order, at the other,
    unless an object of it cannot be read back. *)
Lemma sealed_batch os : ∀ a b b' fs,
  in_step a b → collect seal_message os b = (b', Ok fs) →
  ∃ a' out, collect open_message fs a = (a', out) ∧
    match out with
    | Ok rs => Forall2 arrives os rs ∧ in_step a' b'
    | Raise e => ∃ o, o ∈ os ∧ read_back o = Raise e
    end.
Proof using HA.
  induction os as [|o os IH]; intros a b b' fs Hab; cbn [collect].
  { intros [= <- <-]. exists a, (Ok []). by split_and!. }
  destruct (seal_message o b) as [b1 [f|e]] eqn:Es.
  2:{ erewrite bind_raise by exact Es. done. }
  erewrite bind_ok by exact Es. destruct (collect seal_message os b1) as [b2 [fs'|e]] eqn:Ec.
  2:{ erewrite bind_raise by exact Ec. done. }
  erewrite bind_ok by exact Ec. intros [= -> <-]. apply in_step_sym in Hab.
  destruct (sealed_opens b a o b1 f Hab Es) as (a1 & t & Ht & Hopen & H1 & _). cbn [collect].
  destruct (read_back o) as [r|e] eqn:Er.
  2:{ exists a1, (Raise e). split; [by eapply bind_raise|]. exists o. split; [by left|done]. }
  destruct (IH a1 b1 b' fs' (in_step_sym _ _ H1) Ec) as (a' & out & Hrest & Hout). exists a'.
  exists (match out with Ok rs => Ok (r :: rs) | Raise e => Raise e end). split.
  - erewrite bind_ok by exact Hopen. destruct out as [rs|e]; [by erewrite bind_ok by exact Hrest|by eapply bind_raise].
  - destruct out as [rs|e].
    + destruct Hout as [Hf Hst]. split; [|done]. constructor; [by eapply arrives_intro|done].
    + destruct Hout as (x & Hx & He). exists x. split; [by right|done].
Qed.

Lemma batch_fits os : ∀ b, SecureSession.session_ok b → closed b = false → Forall fits os → room (len os) b →
  ∃ b' fs, collect seal_message os b = (b', Ok fs).
Proof using Type.
  induction os as [|o os IH]; intros b Hb Hc Hf Hr; cbn [collect]; [by eexists _, _|].
  apply Forall_cons in Hf as [Ho Hf]. unfold room in *. rewrite len_cons in Hr.
  pose proof (len_nonneg os). destruct (seal_fits o b) as (b1 & f & Hs); [done..|unfold room; lia|].
  destruct (seal_message_run b o b1 _ Hb Hs) as [(p & h & _ & _ & _ & ->)|[_ (e & [=] & _)]].
  destruct (IH (with_send_sequence (send_sequence b + 1) b)) as (b' & fs & Hrest).
  - pose proof (keeps_seal_message o b Hb) as Hk. unfold wp in Hk. by rewrite Hs in Hk.
  - done.
  - done.
  - cbn. lia.
  - erewrite bind_ok by exact Hs. erewrite bind_ok by exact Hrest. by eexists _, _.
Qed.

(** Sealing never fails but with an error of the record layer. *)
Lemma batch_raises os : ∀ b b' e, SecureSession.session_ok b → collect seal_message os b = (b', Raise e) → is_a e RecordError = true.
Proof using Type.
  induction os as [|o os IH]; intros b b' e Hb; cbn [collect]; [done|].
  destruct (seal_message o b) as [b1 [f|x]] eqn:Es.
  - pose proof (keeps_seal_message o b Hb) as Hk. unfold wp in Hk. rewrite Es in Hk. erewrite bind_ok by exact Es.
    destruct (collect seal_message os b1) as [b2 [fs|x]] eqn:Ec; [by erewrite bind_ok by exact Ec|].
    erewrite bind_raise by exact Ec. intros [= <- <-]. by eapply IH.
  - erewrite bind_raise by exact Es. intros [= <- <-].
    by apply seal_message_run in Es as [(p & h & _ & _ & [=] & _)|[_ (e & [= ->] & He)]].
Qed.
End Channel.

Section Facts.
Context {W V : Type} `{I : VerifierI V} {HI : VerifierLaws I} `{UnicodeData} `{IntentParser}.
Context {SK PK XSK XPK : Type} `{E : Ed25519 SK PK} {HE : Ed25519Laws E} `{X : X25519 XSK XPK} {HX : X25519Laws X}.
Context `{K : HKDF} {HK : HKDFLaws K} `{A : AEAD} {HA : AEADLaws A}.
Context (ttl_seconds : Z) (catalog : dict pystr (ToolDefinition W)).
Context (command_catalog capability_catalog : option (W → result value)).
Context (command_catalog_authoritative : bool) (second : Z).
Implicit Types (s : mobile W V SK PK) (r : secure_state W V SK PK) (σ : core_state W V) (env : core_env).

Abbreviation _send := (_send ttl_seconds catalog command_catalog capability_catalog command_catalog_authoritative).
Abbreviation handle := (handle ttl_seconds catalog command_catalog capability_catalog command_catalog_authoritative).
Abbreviation process_frame := (process_frame ttl_seconds catalog command_catalog capability_catalog
  command_catalog_authoritative).

(** The client is connected to the Core session [sid], with the channel ends
    [a] and [b] in step. *)
Record linked s (sid : pystr) (a b : SecureSession) : Prop := {
  lk_connection : _connection s = true;
  lk_channel : _channel s = Some a;
  lk_ok : secure_ok (remote s);
  lk_remote : channel (conn (remote s)) = Some b;
  lk_session : core_session_id (conn (remote s)) = Some sid;
  lk_trusted : device_is_trusted (remote s) = true;
  lk_step : in_step a b
}.

(** Everything is closed: the client's end and the Core session. *)
Definition hung_up (sid : pystr) s : Prop :=
  _connection s = false ∧ _channel s = None ∧ conn (remote s) = new_secure_conn ∧ secure_ok (remote s) ∧
  dget sid (sessions (core (remote s))) = None.

Lemma frame_handled_run env f r b sid b1 p m :
  secure_ok r → channel (conn r) = Some b → core_session_id (conn r) = Some sid → device_is_trusted r = true →
  provider_ok command_catalog (the_world (core r)) → open_message f b = (b1, Ok p) → parse_client_message (VDict p) = Ok m →
  ∃ r' os b2 out, process_frame env f r = (r', out) ∧ secure_ok r' ∧ handle env sid m (core r) = (core r', Ok os) ∧
    collect seal_message os b1 = (b2, out) ∧ conn r' = with_errors 0 (with_channel b2 (conn r)) ∧ server r' = server r.
Proof using Type.
  intros Hok Hch Hsid Htr Hprov Hop Hm.
  destruct (process_frame_run ttl_seconds catalog command_catalog capability_catalog command_catalog_authoritative
    env f r b sid Hok Hch Hsid Hprov) as (r' & out & Hrun & Hok' & Hcase).
  destruct Hcase as [Hno|b' e _ Hno|b' _ Hno|b' b2 p' x s2 _ Hop' Hno|b' b2 p' m' os x _ Hop' Hm' Hh _ _ Hcol Hc Hs];
    rewrite ?Hop in *; try congruence.
  injection Hop' as <- <-. rewrite Hm in Hm'. injection Hm' as <-. by exists r', os, b2, x.
Qed.

Lemma client_close_run s sid :
  _connection s = true → secure_ok (remote s) → channel (conn (remote s)) ≠ None → core_session_id (conn (remote s)) = Some sid →
  ∃ s', close s = (s', Ok tt) ∧ hung_up sid s'.
Proof using Type.
  intros Hc Hok Hch Hsid. destruct (secure_close_run (remote s) Hok) as (r' & Hrun & Hok' & _ & _ & Hco).
  destruct (Hco Hch) as (Hnew & _ & sid' & Hsid' & Hss & _). rewrite Hsid in Hsid'. injection Hsid' as <-.
  exists (mkMobile false None r'). split; [|split_and!; [done|done|done|done|cbn; by rewrite Hss, dget_ddel_eq]].
  unfold close. erewrite bind_ok by done. rewrite Hc.
  by erewrite bind_ok by (unfold on_remote; exact (zoom_run remote _ _ s _ _ Hrun)).
Qed.

Lemma collect_on_channel {T U} (f : T → M SecureSession U) l : ∀ s c c' (out : result (list U)),
  _channel s = Some c → collect f l c = (c', out) →
  collect (λ x, on_channel (f x)) l s = (mkMobile (_connection s) (Some c') (remote s), out).
Proof using Type.
  induction l as [|x l IH]; intros s c c' r Hc; cbn [collect].
  { intros [= <- <-]. destruct s. cbn in Hc. by subst. }
  destruct (f x c) as [c1 [y|e]] eqn:Ef;
    assert (on_channel (f x) s = (mkMobile (_connection s) (Some c1) (remote s), (f x c).2)) as Hrun
      by (unfold on_channel; by rewrite Hc, Ef); rewrite Ef in Hrun; cbn [snd] in Hrun.
  - erewrite bind_ok by exact Ef. erewrite (bind_ok (on_channel _)) by exact Hrun.
    destruct (collect f l c1) as [c2 r'] eqn:El. pose proof (IH (mkMobile (_connection s) (Some c1) (remote s)) c1 c2 r' eq_refl El) as Hrest.
    destruct r' as [ys|e].
    + erewrite bind_ok by exact El. erewrite (bind_ok (collect (λ x, _) _)) by exact Hrest. by intros [= <- <-].
    + erewrite bind_raise by exact El. erewrite (bind_raise (collect (λ x, _) _)) by exact Hrest. by intros [= <- <-].
  - erewrite bind_raise by exact Ef. erewrite (bind_raise (on_channel _)) by exact Hrun. by intros [= <- <-].
Qed.

(** What a message of the client comes to. *)
Inductive sent (env : core_env) (p : object) (m : client_message) (sid : pystr) (a b : SecureSession) s s' :
  result (list object) → Prop :=
(** the Core's answers, as they are *)
| sent_answered os rs a' b' :
    handle env sid m (core (remote s)) = (core (remote s'), Ok os) → Forall2 arrives os rs → linked s' sid a' b' →
    server (remote s') = server (remote s) → sent env p m sid a b s s' (Ok rs)
(** something did not fit in a record, or was not read back: nothing is left of
    the session *)
| sent_closed e :
    is_a e SecureSessionError = true → hung_up sid s' →
    ¬ (fits p ∧ room 1 a ∧ ∀ σ' os, handle env sid m (core (remote s)) = (σ', Ok os) →
         Forall fits os ∧ room (len os) b ∧ Forall (λ o, is_ok (read_back o) = true) os) →
    sent env p m sid a b s s' (Raise e)
(** an integer of an answer is too long for [json.loads], whose plain
    [ValueError] goes past [_send] *)
| sent_escaped σ' os o :
    handle env sid m (core (remote s)) = (σ', Ok os) → o ∈ os → read_back o = Raise ValueError → ¬ plain (VDict o) →
    sent env p m sid a b s s' (Raise ValueError).

Lemma record_error e : is_a e RecordError = true → is_a e SecureSessionError = true ∧ caught e [SecureSessionError] = true.
Proof using Type. by destruct e. Qed.

Lemma read_back_raises o e : read_back o = Raise e → is_ok (dump_bytes true false (VDict o)) = true →
  e = SecureJsonError ∨ (e = ValueError ∧ ¬ plain (VDict o)).
Proof using Type.
  unfold read_back. destruct (dump_bytes true false (VDict o)) as [t|] eqn:Et; [|done]. cbn [mbind result_bind]. intros He _.
  pose proof (read_payload_raises t e He) as [->| ->]; [by left|right]. split; [done|]. intros Hp.
  pose proof (read_back_plain o t Hp Et) as Hb. unfold read_back in Hb. rewrite Et in Hb. cbn [mbind result_bind] in Hb. congruence.
Qed.
(** What was sealed had been printed. *)
Lemma sealed_printed os : ∀ b b' fs, SecureSession.session_ok b → collect seal_message os b = (b', Ok fs) →
  Forall (λ o, is_ok (dump_bytes true false (VDict o)) = true) os.
Proof using Type.
  induction os as [|o os IH]; intros b b' fs Hb; cbn [collect]; [by constructor|].
  destruct (seal_message o b) as [b1 [f|x]] eqn:Es; [|by erewrite bind_raise by exact Es].
  pose proof (keeps_seal_message o b Hb) as Hk. unfold wp in Hk. rewrite Es in Hk. erewrite bind_ok by exact Es.
  destruct (collect seal_message os b1) as [b2 [fs'|x]] eqn:Ec; [|by erewrite bind_raise by exact Ec]. intros _.
  constructor; [|by eapply IH].
  by apply seal_message_run in Es as [(t & h & -> & _)|[_ (e & [=] & _)]].
Qed.

Lemma mobile_send_run env t fields s sid a b p m :
  linked s sid a b → provider_ok command_catalog (the_world (core (remote s))) →
  read_back (message_payload t fields) = Ok p → parse_client_message (VDict p) = Ok m →
  ∃ s' out, _send env t fields s = (s', out) ∧ sent env (message_payload t fields) m sid a b s s' out.
Proof using HA.
  intros [Hcn Hch Hok Hb Hsid Htr Hst] Hprov Hp Hm. set (q := message_payload t fields) in *.
  destruct s as [cn ch r]. cbn [_connection _channel remote] in *. subst cn ch. unfold MobileClient._send.
  erewrite bind_ok by done. cbn [connected _connection _channel andb negb]. fold q.
  destruct (seal_message q a) as [a1 [f|e]] eqn:Es.
  2:{ apply seal_message_run in Es as Hcase; [|apply Hst]. destruct Hcase as [(x & h & _ & _ & [=] & _)|[-> (x & [= ->] & Hx)]].
      destruct (record_error x Hx) as [Hx1 Hx2].
      destruct (client_close_run (mkMobile true (Some a) r) sid) as (s' & Hclose & Hup); [done|done|by cbn; rewrite Hb|done|].
      exists s', (Raise x). split.
      - eapply cleanup_caught; [|exact Hx2|exact Hclose]. eapply bind_raise. unfold on_channel. cbn [_channel]. by rewrite Es.
      - apply sent_closed; [done|done|]. intros (Hf & Hroom & _).
        destruct (seal_fits q a) as (a' & f' & Hs); [apply Hst|apply Hst|done|done|]. congruence. }
  destruct (sealed_opens a b q a1 f Hst Es) as (b1 & x & _ & Hopen & H1 & Hb1 & _). rewrite Hp in Hopen.
  destruct (frame_handled_run env f r b sid b1 _ m Hok Hb Hsid Htr Hprov Hopen Hm)
    as (r' & os & b2 & out & Hrun & Hok' & Hh & Hcol & Hconn & Hserver).
  assert (on_channel (seal_message q) (mkMobile true (Some a) r) = (mkMobile true (Some a1) r, Ok f)) as Hseal
    by (unfold on_channel; cbn [_channel]; by rewrite Es).
  assert (on_remote (process_frame env f) (mkMobile true (Some a1) r) = (mkMobile true (Some a1) r', out)) as Hremote
    by exact (zoom_run remote _ _ (mkMobile true (Some a1) r) _ _ Hrun).
  assert (channel (conn r') = Some b2 ∧ core_session_id (conn r') = Some sid) as [Hb2 Hsid'] by by rewrite Hconn.
  set (s1 := mkMobile true (Some a1) r') in *. destruct out as [fs|e].
  - destruct (sealed_batch os a1 b1 b2 fs H1 Hcol) as (a2 & out & Hbatch & Hout).
    pose proof (collect_on_channel open_message fs s1 a1 a2 _ eq_refl Hbatch) as Hcollect. set (s2 := mkMobile true (Some a2) r').
    assert (∀ o, o ∈ os → is_ok (dump_bytes true false (VDict o)) = true) as Hdump
      by (apply Forall_forall; eapply sealed_printed; [exact (st_server _ _ H1)|exact Hcol]).
    destruct out as [rs|e]; [|destruct Hout as (o & Ho & He); destruct (read_back_raises o e He (Hdump o Ho)) as [->|[-> Hnp]]].
    + destruct Hout as [Hf H2]. exists s2, (Ok rs). split.
      * apply cleanup_ok. erewrite bind_ok by exact Hseal. by erewrite bind_ok by exact Hremote.
      * eapply sent_answered; [exact Hh|exact Hf| |exact Hserver].
        split; try done. cbn [remote s2]. unfold device_is_trusted in *. by rewrite Hconn, Hserver.
    + destruct (client_close_run s2 sid) as (s' & Hclose & Hup); [done|done|by cbn; rewrite Hb2|done|].
      exists s', (Raise SecureJsonError). split.
      * eapply cleanup_caught; [|done|exact Hclose]. erewrite bind_ok by exact Hseal. by erewrite bind_ok by exact Hremote.
      * apply sent_closed; [done|done|]. intros (_ & _ & Hall). destruct (Hall _ _ Hh) as (_ & _ & Hread).
        rewrite Forall_forall in Hread. specialize (Hread o Ho). by rewrite He in Hread.
    + exists s2, (Raise ValueError). split.
      * assert (∀ Y (n : M (mobile W V SK PK) Y) cs k z z' x0, n z = (z', Raise x0) → caught x0 cs = false → cleanup n cs k z = (z', Raise x0))
          as Hpass by (intros Y n cs k z z' x0 Hn Hx0; unfold cleanup; by rewrite Hn, Hx0).
        apply Hpass; [|done]. erewrite bind_ok by exact Hseal. by erewrite bind_ok by exact Hremote.
      * by eapply sent_escaped.
  - pose proof (batch_raises os b1 b2 e ltac:(apply H1) Hcol) as He. destruct (record_error e He) as [He1 He2].
    destruct (client_close_run s1 sid) as (s' & Hclose & Hup); [done|done|by cbn; rewrite Hb2|done|].
    exists s', (Raise e). split.
    + eapply cleanup_caught; [|exact He2|exact Hclose]. erewrite bind_ok by exact Hseal. by eapply bind_raise.
    + apply sent_closed; [done|done|]. intros (_ & _ & Hall). destruct (Hall _ _ Hh) as (Hf & Hr & _).
      destruct H1 as [_ Hsb _ _ _ _ [_ Hcb]]. destruct (batch_fits os b1 Hsb Hcb Hf) as (b3 & fs & Hc3); [by rewrite Hb1|congruence].
Qed.

(** ** Connecting *)

Lemma carried_length n t : carries_bytes n t → n <= 96 → len t <= 128.
Proof using Type.
  intros [b Hb] Hn. apply decode_text_ok in Hb as (-> & _ & Hl). apply (len_encode b). specialize (Hl n eq_refl). lia.
Qed.
Lemma matches_length t : is_session_id t = true → 1 <= len t <= 128.
Proof using Type. unfold is_session_id, matches_class. intros. reflect. lia. Qed.
Lemma len_escaped t : len (concat (escape_char <$> t)) <= 6 * len t.
Proof using Type.
  induction t as [|c t IH]; [done|]. rewrite fmap_cons. cbn [concat]. rewrite len_app, len_cons.
  enough (len (escape_char c) <= 6) by lia. unfold escape_char. repeat case_match; by vm_compute.
Qed.

(** The server reads the hello the client prints. *)
Lemma hello_read h : hello_ok h → read_client_hello (client_hello_dict h) = Ok h.
Proof using Type.
  intros [Hs Hc Hk Hn Hg Hv]. destruct h as [sid cid key nonce sig v]. cbn in Hs, Hc, Hk, Hn, Hg, Hv. subst v.
  set (d := client_hello_dict _). destruct (dumps_ascii false false (VDict d)) as (t & Ht & Hta).
  { cbn [d client_hello_dict unsigned_dict app value_text].
    pose proof (session_id_text sid Hs). pose proof (session_id_text cid Hc).
    pose proof (carries_ascii 32 key Hk). pose proof (carries_ascii 32 nonce Hn). pose proof (carries_ascii 64 sig Hg).
    split_and!; try done; try (by apply session_id_text); by apply small_int_ascii. }
  assert (len t <= MAX_CLIENT_HELLO_BYTES) as Hl.
  { apply matches_length in Hs as Hls, Hc as Hlc. apply carried_length in Hk as Hlk, Hn as Hln, Hg as Hlg; [|done..].
    pose proof (len_escaped sid). pose proof (len_escaped cid). pose proof (len_escaped key). pose proof (len_escaped nonce).
    pose proof (len_escaped sig). cbn in Ht. injection Ht as <-. unfold MAX_CLIENT_HELLO_BYTES. autorewrite with len. lia. }
  unfold read_client_hello, dump_bytes. rewrite Ht. cbn [mbind result_bind]. rewrite utf8_encode_ascii by done.
  cbn [reraise mbind result_bind]. rewrite (proj2 (Z.leb_le _ _)) by done. cbn [ensure mbind result_bind].
  change (keys_exactly CLIENT_HELLO_FIELDS d) with true. cbn [ensure mbind result_bind].
  change (get (u "session_id") d) with (VStr sid). change (get (u "client_id") d) with (VStr cid).
  change (get (u "client_ephemeral_public_key") d) with (VStr key). change (get (u "client_nonce") d) with (VStr nonce).
  change (get (u "signature") d) with (VStr sig). change (get (u "protocol_version") d) with (VInt SECURE_PROTOCOL_VERSION).
  by rewrite client_hello_intro.
Qed.

(** The client reads the answer the server built. *)
Lemma server_hello_fields a b c d e f g h v x :
  server_hello (VStr a) (VStr b) (VStr c) (VStr d) (VStr e) (VStr f) (VStr g) (VStr h) v = Ok x →
  x = mkServerHello a b c d e f g h v.
Proof using Type.
  unfold server_hello, validate_handshake_fields, decoded_text, _decode, _session_id, _identity_id. intros. by result_inv.
Qed.
Lemma answer_read (i : SecureIdentity (SK := SK)) h (pk : PK) (sx : XSK) n x ss :
  create_server_hello i h pk sx n = Ok (x, ss) → read_server_hello (server_hello_dict x) = Ok x.
Proof using Type.
  unfold create_server_hello, mbind, result_bind. destruct (verify_signature _ _ _); [|done]. destruct (ensure _ _); [|done].
  destruct (_server_signature_data _) as [data|]; [|done].
  match goal with |- context [server_hello ?a ?b ?c ?d ?e ?f ?g ?h ?i] =>
    destruct (server_hello a b c d e f g h i) as [x'|] eqn:Er end; [|done].
  destruct (_transcript_hash x'); [|done]. destruct (_derive_session _ _ _ _ _ _); [|done]. intros [= <- _].
  pose proof (server_hello_fields _ _ _ _ _ _ _ _ _ _ Er) as ->. exact Er.
Qed.

Abbreviation establish := (establish second).
Abbreviation accept := (accept_client_hello second).
Abbreviation live_at now σ := (filter (λ kv : pystr * DeviceSession, ¬ idle now kv.2) (sessions σ)).

(** An honest client of a paired device, with its draws, before a connection
    that can still take it. *)
Record honest (cfg : settings SK PK) (ce : connect_env XSK) r : Prop := {
  hn_client : is_session_id (identity_id (own_identity cfg)) = true;
  hn_server : is_session_id (identity_id (identity (server r))) = true;
  hn_pinned : server_public_key cfg = ed_public (private_key (identity (server r)));
  hn_named : server_id cfg = identity_id (identity (server r));
  hn_paired : dget (identity_id (own_identity cfg)) (trusted_devices (server r)) = Some (ed_public (private_key (own_identity cfg)));
  hn_drawn : is_session_id (_encode (drawn_id ce)) = true;
  hn_nonces : len (drawn_nonce ce) = 32 ∧ Forall is_octet (drawn_nonce ce) ∧
    len (e_nonce (accepting ce)) = 32 ∧ Forall is_octet (e_nonce (accepting ce));
  hn_secret : ∃ secret, x_exchange (drawn_key ce) (x_public (e_ephemeral (accepting ce))) = Ok secret ∧
    existsb (λ b, negb (b =? 0)) secret = true;
  hn_unseen : dmem (_encode (drawn_id ce))
    (evict (e_now (accepting ce) - SESSION_ID_REPLAY_TTL_SECONDS * second) (used_session_ids (server r))) = false;
  hn_token : fresh_session (drawn_token ce) (core r);
  hn_room : len (live_at (session_now ce) (core r)) < MAX_SESSIONS ∧
    dcount (of_device (identity_id (own_identity cfg))) (live_at (session_now ce) (core r)) < MAX_SESSIONS_PER_DEVICE;
  hn_idle : conn r = new_secure_conn ∧ secure_ok r
}.

(** The Core session of the device, just opened. *)
Definition opened_session (cfg : settings SK PK) (ce : connect_env XSK) : DeviceSession :=
  Sessions.new_session (identity_id (own_identity cfg)) VNone [] false (session_now ce) (drawn_token ce).

(** A hello that verifies, of a paired device there is room for, is accepted. *)
Lemma accept_admits ae now tok p h pk x ss r r' out :
  authenticated (conn r) = false → read_client_hello p = Ok h →
  dget (c_client_id h) (trusted_devices (server r)) = Some pk →
  dmem (c_session_id h) (evict (e_now ae - SESSION_ID_REPLAY_TTL_SECONDS * second) (used_session_ids (server r))) = false →
  create_server_hello (identity (server r)) h pk (e_ephemeral ae) (e_nonce ae) = Ok (x, ss) →
  core_ok (core r) → len (live_at now (core r)) < MAX_SESSIONS →
  dcount (of_device (c_client_id h)) (live_at now (core r)) < MAX_SESSIONS_PER_DEVICE →
  accept ae now tok p VNone [] r = (r', out) → is_ok out = true.
Proof using HX HK.
  intros Ha Hread Hpk Hseen Hx [[Hwf _ _ _ _] _] Hl Hd. destruct r as [c v σ]. cbn [conn server core] in *. unfold SecureCore.accept_client_hello.
  erewrite bind_ok by done. cbn [conn]. rewrite Ha.
  assert (∃ v', SecureServer.accept_client_hello second ae p v = (v', Ok (server_hello_dict x, ss)) ∧
    trusted_devices v' = trusted_devices v) as (v' & Hv & Hv').
  { unfold SecureServer.accept_client_hello. rewrite Hread. erewrite bind_ok by done. erewrite bind_ok by done. rewrite Hpk.
    erewrite bind_ok by done. erewrite bind_ok by done. cbn [with_used used_session_ids]. rewrite Hseen.
    erewrite bind_ok by done. cbn [with_used identity]. rewrite Hx. erewrite bind_ok by done. erewrite bind_ok by done.
    by eexists. }
  apply create_server_hello_session in Hx as (_ & _ & _ & Hcl & _).
  erewrite bind_ok by (unfold on_server; exact (zoom_run _ _ _ (mkSecureState c v σ) _ _ Hv)).
  cbn [fst snd]. rewrite client_id_of, Hcl. erewrite bind_ok by done. erewrite bind_ok by done.
  unfold trusted_device_public_key. cbn [server]. rewrite Hv', Hpk.
  assert (∃ σ' ds, on_sessions (Sessions.create (c_client_id h) VNone [] false now tok) σ = (σ', Ok ds)) as (σ' & ds & Hc).
  { destruct (create_session_run (c_client_id h) VNone [] false now tok (sessions σ) Hwf) as [(Hrun & _)|(_ & [Hn|Hn])];
      [|cbn beta in *; lia..]. eexists _, _. unfold on_sessions. exact (zoom_run _ _ _ σ _ _ Hrun). }
  erewrite bind_ok.
  2:{ apply except_ok. erewrite bind_ok by (unfold on_core; exact (zoom_run core _ _ (mkSecureState c v' σ) _ _ Hc)). done. }
  cbn beta iota. erewrite bind_ok by done. by intros [= _ <-].
Qed.

Lemma accept_honest cfg ce r h x ss :
  honest cfg ce r → hello_ok h → c_client_id h = identity_id (own_identity cfg) → c_session_id h = _encode (drawn_id ce) →
  create_server_hello (identity (server r)) h (ed_public (private_key (own_identity cfg))) (e_ephemeral (accepting ce))
    (e_nonce (accepting ce)) = Ok (x, ss) →
  ∃ r', accept (accepting ce) (session_now ce) (drawn_token ce) (client_hello_dict h) VNone [] r = (r', Ok (server_hello_dict x)) ∧
    secure_ok r' ∧
    conn r' = mkSecureConn (Some ss) (Some (drawn_token ce)) (Some (identity_id (own_identity cfg)))
      (Some (ed_public (private_key (own_identity cfg)))) 0 ∧
    trusted_devices (server r') = trusted_devices (server r) ∧
    the_world (core r') = the_world (core r) ∧ router (core r') = router (core r) ∧
    sessions (core r') = live_at (session_now ce) (core r) ++ [(drawn_token ce, opened_session cfg ce)].
Proof using HX HK.
  intros [_ _ _ _ Hpaired _ _ _ Hunseen Htoken [Hr1 Hr2] [Hnew Hok]] Hh Hcid Hsid Hx.
  destruct (accept_hello_run second (accepting ce) (session_now ce) (drawn_token ce) (client_hello_dict h) VNone [] r Hok Htoken)
    as (r' & out & Hrun & Hok' & Hcase).
  assert (is_ok out = true) as Hgood.
  { eapply (accept_admits _ _ _ _ h _ x ss); [..|exact Hrun]; rewrite ?Hcid, ?Hsid, ?Hnew; try done; [by apply hello_read|apply Hok]. }
  destruct out as [answer|e]; [|done]. destruct Hcase as (h' & pk & ss' & _ & Had & Hconn & Hr & Hf & Hv & Hs).
  destruct Had as [Hread Hpk _ _ _ (x' & Hx' & ->) Hserver].
  rewrite hello_read in Hread by done. injection Hread as <-. rewrite Hcid, Hpaired in Hpk. injection Hpk as <-.
  rewrite Hx in Hx'. injection Hx' as <- <-. exists r'. rewrite Hconn, Hcid, Hnew, Hserver. split_and!; try done.
  - unfold the_world. by rewrite Hr.
  - rewrite Hs, Hcid. done.
Qed.

Abbreviation connect := (connect ttl_seconds catalog command_catalog capability_catalog command_catalog_authoritative second).

(** The connected client of an honest handshake. *)
Definition established (cfg : settings SK PK) (ce : connect_env XSK) r s' : Prop :=
  (∃ cs ss, linked s' (drawn_token ce) cs ss ∧ send_sequence cs = 0 ∧ send_sequence ss = 0) ∧
  the_world (core (remote s')) = the_world (core r) ∧ router (core (remote s')) = router (core r) ∧
  trusted_devices (server (remote s')) = trusted_devices (server r) ∧
  sessions (core (remote s')) = live_at (session_now ce) (core r) ++ [(drawn_token ce, opened_session cfg ce)].

Lemma establish_run cfg ce s : honest cfg ce (remote s) → ∃ s', establish cfg ce s = (s', Ok tt) ∧ established cfg ce (remote s) s'.
Proof using HE HX HK.
  intros Hon. pose proof Hon as [Hci Hsi Hpin Hnamed Hpaired Hdrawn (Hn1 & Hn2 & Hn3 & Hn4) (z & Hz & Hz') _ Htok _ _].
  destruct (handshake_agreement (own_identity cfg) (identity (server (remote s))) None (drawn_id ce) (drawn_key ce)
    (e_ephemeral (accepting ce)) (drawn_nonce ce) (e_nonce (accepting ce)) z)
    as (h & x & cs & ss & Hh & Hx & Hcs & Hm); [done..|].
  destruct (create_client_hello_ok (own_identity cfg) None (drawn_id ce) (drawn_key ce) (drawn_nonce ce))
    as (h' & Hh' & Hhok & Hcid & _ & _ & Hsid); [done..|]. rewrite Hh in Hh'. injection Hh' as <-.
  destruct (accept_honest cfg ce (remote s) h x ss Hon Hhok Hcid Hsid Hx) as (r' & Hacc & Hok' & Hconn & Htd & Hw & Hr & Hs).
  exists (mkMobile true (Some cs) r'). split.
  - unfold MobileClient.establish. rewrite Hh. erewrite bind_ok by done. cbn beta iota.
    eapply eq_trans; [eapply (bind_ok _ _ s (mkMobile (_connection s) (_channel s) r') cs)|done].
    apply cleanup_ok. erewrite bind_ok by (unfold on_remote; exact (zoom_run remote _ _ s _ _ Hacc)).
    rewrite (answer_read _ _ _ _ _ _ _ Hx). cbn [mbind result_bind]. rewrite Hpin, Hnamed, Hcs. done.
  - destruct (Hm) as (_ & _ & _ & _ & Hm1 & _ & Hm2 & _). split; [|done]. exists cs, ss. split; [|done].
    split; cbn [_connection _channel remote]; rewrite ?Hconn; try done; [|by apply mirror_in_step].
    unfold device_is_trusted. rewrite Hconn. cbn [conn_device_id device_public_key].
    unfold is_trusted_device. rewrite Htd, Hpaired. by apply bool_decide_true.
Qed.

(** ** The announcement *)

Definition hello_ack : object := [(u "protocol_version", VInt PROTOCOL_VERSION); (u "type", VStr (u "device_hello_ack"))].

Lemma sorted_strings l : sorted_value (str_list l) = str_list l.
Proof using Type. unfold str_list. cbn [sorted_value]. f_equal. rewrite <- list_fmap_compose. by apply list_fmap_ext. Qed.

Lemma announced_sorted (cfg : settings SK PK) : sorted_object (message_payload "device_hello"%string (device_hello_fields cfg)) =
  [(u "capabilities", str_list (capabilities cfg)); (u "firmware_version", VStr (firmware_version cfg));
   (u "protocol_version", VInt 1); (u "type", VStr (u "device_hello"))].
Proof using Type.
  unfold sorted_object, message_payload, device_hello_fields. cbn [app fmap list_fmap fst snd]. rewrite sorted_strings.
  cbn [sorted_value]. reflexivity.
Qed.

(** The message the announcement carries. *)
Definition announcement (cfg : settings SK PK) : message := MDeviceHello (Some (firmware_version cfg)) (capabilities cfg).

Lemma announcement_parses (cfg : settings SK PK) :
  message_ok (announcement cfg) →
  parse_client_message (VDict (sorted_object (message_payload "device_hello"%string (device_hello_fields cfg)))) =
    Ok (ClientMessage (u "device_hello") (encode_fields (announcement cfg) (VInt 1))).
Proof using Type.
  intros [Hf Hc]. rewrite announced_sorted. set (p := [(u "capabilities", _); _; _; _]).
  unfold parse_client_message. change (get (u "type") p) with (VStr (u "device_hello")). cbv iota.
  change (dget (u "device_hello") MESSAGE_FIELDS) with (Some [u "firmware_version"; u "capabilities"]). cbv iota.
  change (keys_within _ p) with true. cbv iota. change (_protocol_version p) with (Ok (VInt 1)). cbn [mbind result_bind].
  change (parse_fields (u "device_hello")) with parse_device_hello. unfold parse_device_hello.
  by rewrite (_optional_string_clean _ _ 32 (Some (firmware_version cfg))), (_capabilities_clean _ (capabilities cfg)).
Qed.

Lemma announcement_handled (cfg : settings SK PK) env sid σ (ses : DeviceSession) :
  core_ok σ → dget sid (sessions σ) = Some ses → capabilities_initialized ses = false → ¬ idle (t_prune env) ses →
  ∃ σ', handle env sid (ClientMessage (u "device_hello") (encode_fields (announcement cfg) (VInt 1))) σ = (σ', Ok [hello_ack]) ∧
    dget sid (sessions σ') =
      Some (with_hello (VStr (firmware_version cfg)) (VStr <$> capabilities cfg) (touch (t_touch env) ses)).
Proof using Type.
  intros Hok Hs Hc Hidle. unfold Core.handle. destruct (prune_stale_run env σ Hok) as (σ1 & Hrun & [Hb _] & _ & Hs1 & _).
  erewrite bind_ok by exact Hrun.
  assert (dget sid (sessions σ1) = Some ses) as Hsid.
  { rewrite Hs1. apply elem_dget; [by apply filter_sublist_wf, Hok|]. apply list_elem_of_filter. split; [done|by apply dget_elem]. }
  destruct (cur_lookup sid ses σ1 Hb Hsid) as [_ Hid].
  erewrite bind_ok by done. unfold get_session. rewrite Hsid. erewrite bind_ok by apply save_run. cbn [msg_type fields].
  set (s1 := touch (t_touch env) ses). unfold dispatch_message. cbn [orb negb].
  change (u "device_hello" =s "ping") with false. change (u "device_hello" =s "device_status") with false.
  change (u "device_hello" =s "device_hello") with true. cbv iota.
  unfold on_device_hello. change (capabilities_initialized s1) with (capabilities_initialized ses). rewrite Hc.
  eexists. split; [reflexivity|]. cbn [sessions put_session]. unfold store.
  change (session_id (with_hello _ _ s1)) with (session_id ses). change (session_id s1) with (session_id ses).
  by rewrite Hid, !dget_dalter_eq, Hsid.
Qed.

(** What the connection leaves: both ends in step, and the Core session of the
    device with what the client announced. *)
Record ready (cfg : settings SK PK) (ce : connect_env XSK) r s' : Prop := {
  rd_linked : ∃ cs ss, linked s' (drawn_token ce) cs ss;
  rd_trusted : trusted_devices (server (remote s')) = trusted_devices (server r);
  rd_session : dget (drawn_token ce) (sessions (core (remote s'))) =
    Some (with_hello (VStr (firmware_version cfg)) (VStr <$> capabilities cfg)
      (touch (t_touch (hello_env ce)) (opened_session cfg ce)))
}.


(** C23: Encryption is transparent: a message sent over a connected client, if
    it is a message of the contract once it is printed and read as JSON, is
    handled by the Core as if it had arrived in clear, and the client gets the
    Core's answers, all of them and in order, each as JSON reads it back, which
    for an answer without floats is the answer itself with its names sorted; and
    the two ends stay in step.  Otherwise [_send] raises a session error and
    nothing of the session is left at either end, which only happens when the
    message or an answer does not fit in a record or is not read back, or the
    sequence numbers have run out; or an integer of an answer is too long for
    [json.loads], whose plain [ValueError] escapes. *)
Theorem mobile_send_transparent env t fields s sid a b p m
    (Hlinked : linked s sid a b) (Hprov : provider_ok command_catalog (the_world (core (remote s))))
    (Hread : read_back (message_payload t fields) = Ok p) (Hm : parse_client_message (VDict p) = Ok m) :
  ∃ s' out, _send env t fields s = (s', out) ∧ sent env (message_payload t fields) m sid a b s s' out.
Proof using HA. by eapply mobile_send_run. Qed.
End Facts.

(** ** A phone that connects and pings *)

#[local] Strategy 1000 [create_client_hello create_server_hello complete_client_handshake seal open SecureServer.accept_client_hello handle].
#[local] Opaque create_client_hello create_server_hello complete_client_handshake seal open SecureServer.accept_client_hello handle.

Definition sample_settings : settings bool bool :=
  mkSettings sample_client false (u "pipa") (u "pipa-mobile-reference") [u "display"; u "touch"; u "mobile"; u "text_input"].
Definition sample_connect_env : connect_env bool :=
  mkConnectEnv (replicate 16 7) true (sample_nonce 1) (sample_accept_env 10) 1000 (u "s") (sample_core_env 1000).
Abbreviation sample_mobile := (mobile (list object) (verifier_state bool) bool bool).
Definition mobile0 : sample_mobile := mkMobile false None secure0.

Lemma sample_honest :
  honest (I := verifier_interface 5) (E := toy_ed25519) (X := toy_x25519) 1 sample_settings sample_connect_env (remote mobile0).
Proof.
  split; [vm_compute; reflexivity..| | |vm_compute; reflexivity| | |].
  - split_and!; [reflexivity|by apply sample_nonce_octets|reflexivity|by apply sample_nonce_octets].
  - exists (Sha256.be_bytes 32 1). split; vm_compute; reflexivity.
  - exact secure0_fresh.
  - split; vm_compute; reflexivity.
  - split; [reflexivity|exact secure0_ok].
Qed.

Definition sample_connected : sample_mobile * result (list object) :=
  connect (E := toy_ed25519) (X := toy_x25519) (K := toy_hkdf) (A := toy_aead)
    60 sample_catalog None None false 1 sample_settings sample_connect_env mobile0.

Lemma announcement_fine :
  message_ok (announcement sample_settings) ∧ fits (message_payload "device_hello"%string (device_hello_fields sample_settings)) ∧
  plain (VDict (message_payload "device_hello"%string (device_hello_fields sample_settings))).
Proof.
  split_and!; [split|eexists; split; [by vm_compute|by vm_compute]|apply is_plain_ok; by vm_compute].
  - intros t [= <-]. split_and!; [reflexivity|discriminate|vm_compute; discriminate|repeat constructor].
  - split_and!; [vm_compute; discriminate| |apply (bool_decide_unpack _); reflexivity].
    repeat constructor; vm_compute; discriminate.
Qed.


(** The same client, connected but not announced yet, pings. *)
Definition sample_established : sample_mobile * result unit :=
  establish (E := toy_ed25519) (X := toy_x25519) (K := toy_hkdf) 1 sample_settings sample_connect_env mobile0.
Definition mobile1 : sample_mobile := sample_established.1.

Lemma mobile1_linked :
  ∃ a b, linked (I := verifier_interface 5) (E := toy_ed25519) mobile1 (u "s") a b.
Proof.
  destruct (establish_run (I := verifier_interface 5) (E := toy_ed25519) (X := toy_x25519) (K := toy_hkdf) 1
    sample_settings sample_connect_env mobile0 sample_honest) as (s' & Hrun & (a & b & Hl & _) & _).
  exists a, b. unfold mobile1. change (sample_established = (s', Ok tt)) in Hrun. by rewrite Hrun.
Qed.

(** What the server reads of the ping, and the message it is. *)
Definition ping_read : object := ok_or [] (read_back (message_payload "ping"%string [])).
Definition sample_ping : client_message := ok_or (ClientMessage [] []) (parse_client_message (VDict ping_read)).

Lemma mobile_send_transparent_witness :
  ∃ a b s' out,
    _send (E := toy_ed25519) (A := toy_aead) 60 sample_catalog None None false (sample_core_env 1000) "ping"%string [] mobile1 =
      (s', out) ∧
    sent (I := verifier_interface 5) (E := toy_ed25519) 60 sample_catalog None None false (sample_core_env 1000)
      (message_payload "ping"%string []) sample_ping (u "s") a b mobile1 s' out.
Proof.
  destruct mobile1_linked as (a & b & Hl). exists a, b.
  apply (mobile_send_transparent (I := verifier_interface 5) (E := toy_ed25519) (A := toy_aead) 60 sample_catalog None None false
    (sample_core_env 1000) "ping"%string [] mobile1 (u "s") a b ping_read sample_ping Hl).
  - exact Logic.I.
  - apply ok_or_eq. vm_compute. reflexivity.
  - apply ok_or_eq. vm_compute. reflexivity.
Defined.

(** The ping is answered. *)
Lemma sample_ping_answered :
  len (ok_or [] (_send (E := toy_ed25519) (A := toy_aead) 60 sample_catalog None None false (sample_core_env 1000) "ping"%string []
    mobile1).2) = 1.
Proof. vm_compute. reflexivity. Qed.
