(* ===== verification/Devices.v ===== *)
(** * Paired devices: [windows-agent/trusted_unlock_devices.py]

    The store of paired public keys ([InMemoryDeviceStore]; the registry store
    keeps the same records in HKLM) and the verifier built from a snapshot of
    it.  Only the base64url text of an Ed25519 public key is stored. *)
From S2P Require Import Prelude Dict Value Effects Encoding Json Sha256 Crypto Challenge.

(** [^[A-Za-z0-9][A-Za-z0-9._-]{0,63}$] *)
Definition device_char (c : Z) : bool := ascii_alnum c || (c =? 46) || (c =? 95) || (c =? 45).
Definition is_device_id (s : pystr) : bool :=
  match s with
  | c :: s' => ascii_alnum c && matches_class device_char 0 63 s'
  | [] => false
  end.

Definition validate_device_id (v : value) : result pystr :=
  match v with VStr s => if is_device_id s then Ok s else Raise ValueError | _ => Raise ValueError end.

(** [hexdigest().upper()], two digits a group. *)
Definition upper_hex (c : Z) : Z := if (97 <=? c) && (c <=? 102) then c - 32 else c.
Fixpoint pairs_of (s : pystr) : list pystr :=
  match s with
  | x :: y :: s' => [x; y] :: pairs_of s'
  | [x] => [[x]]
  | [] => []
  end.

Section Store.
Context {SK PK : Type} `{E : Ed25519 SK PK}.

Record RegisteredDevice := mkDevice {
  registered_id : pystr;
  public_key : pystr;
  created_at : Z
}.
Abbreviation device_store := (dict pystr RegisteredDevice).

Definition public_key_fingerprint (public_key_b64 : pystr) : result pystr :=
  pk ← public_key_from_base64 public_key_b64;
  Ok (join 58 (pairs_of (upper_hex <$> hexdigest (ed_raw pk)))).

(** [InMemoryDeviceStore.register]; [now] is [int(time.time())]. *)
Definition register (d : pystr) (pk : PK) (created : option Z) (now : Z) : M device_store RegisteredDevice :=
  lift (validate_device_id (VStr d)) ≫= λ _,
  let record := mkDevice d (public_key_to_base64 pk) (default now created) in
  gets (dget d) ≫= λ existing,
  match existing with
  | Some r =>
    if negb (bool_decide (public_key r = public_key_to_base64 pk)) then raise DeviceAlreadyRegisteredError
    else mret r
  | None => modify (dset d record) ≫= λ _, mret record
  end.

Definition revoke (d : pystr) : M device_store unit :=
  lift (validate_device_id (VStr d)) ≫= λ _,
  gets (dmem d) ≫= λ known,
  if negb known then raise DeviceNotFoundError else modify (ddel d).

Definition id_le (a b : RegisteredDevice) : Prop := pystr_leb (registered_id a) (registered_id b) = true.
#[global] Instance id_le_dec a b : Decision (id_le a b).
Proof. unfold id_le. apply _. Defined.
Definition list_devices (s : device_store) : list RegisteredDevice := merge_sort id_le (dvalues s).

(** [{d.device_id: public_key_from_base64(d.public_key) for d in values}] *)
Fixpoint keys_of (l : list RegisteredDevice) (acc : dict pystr PK) : result (dict pystr PK) :=
  match l with
  | [] => Ok acc
  | r :: l' => pk ← public_key_from_base64 (public_key r); keys_of l' (dset (registered_id r) pk acc)
  end.
Definition trusted_public_keys (s : device_store) : result (dict pystr PK) := keys_of (dvalues s) [].

(** [AuthorizationVerifier(trusted_devices)] *)
Definition new_verifier (devices : dict pystr PK) : result (verifier_state PK) :=
  match for_each (λ kv, register_device kv.1 kv.2) devices (mkVerifier [] [] []) with
  | (v, Ok _) => Ok v
  | (_, Raise e) => Raise e
  end.

Definition verifier_from_store (s : device_store) : result (verifier_state PK) :=
  keys ← trusted_public_keys s; new_verifier keys.
End Store.
Abbreviation device_store := (dict pystr RegisteredDevice).

(** ** The store holds keys *)

Section Facts.
Context {SK PK : Type} `{E : Ed25519 SK PK} {HE : Ed25519Laws E}.
Implicit Types (s : device_store).

Lemma device_id_identifier d : is_device_id d = true → is_identifier d = true.
Proof using Type.
  destruct d as [|c d]; [done|]. cbn [is_device_id]. unfold is_identifier, matches_class.
  intros [Hc [[Hd Hlo]%andb_prop Hhi]%andb_prop]%andb_prop. rewrite len_cons. cbn [forallb]. reflect.
  rewrite !andb_true_iff. split_and!; [| |lia|lia].
  - unfold identifier_char. by rewrite Hc.
  - rewrite forallb_forall in Hd |- *. intros x Hx. specialize (Hd x Hx). unfold device_char, identifier_char in *.
    rewrite !orb_true_iff in *. tauto.
Qed.

(** Every record is filed under its own valid identifier and holds the text of
    a key. *)
Definition record_ok (k : pystr) (r : RegisteredDevice) : Prop :=
  registered_id r = k ∧ is_device_id k = true ∧ ∃ pk : PK, public_key r = public_key_to_base64 pk.
Definition store_ok s : Prop := dwf s ∧ ∀ k r, (k, r) ∈ s → record_ok k r.

Lemma ddel_absent {A} k (d : dict pystr A) : (∀ kv, kv ∈ d → k ≠ kv.1) → ddel k d = d.
Proof using Type.
  intros H. unfold ddel. induction d as [|kv d IH]; [done|]. rewrite filter_cons_True by (apply H; by left).
  f_equal. apply IH. intros kv' Hin. apply H. by right.
Qed.

Lemma keys_of_run s acc :
  store_ok s → dwf (acc : dict pystr PK) → (∀ k, k ∈ dkeys s → dget k acc = None) →
  ∃ keys, keys_of (dvalues s) acc = Ok (acc ++ keys) ∧ dkeys keys = dkeys s ∧
    Forall2 (λ kr kp, kr.1 = kp.1 ∧ public_key kr.2 = public_key_to_base64 kp.2) s keys.
Proof using HE.
  revert acc. induction s as [|[k r] s IH]; intros acc [Hwf Hs] Ha Hfr.
  - exists []. rewrite app_nil_r. by split_and!.
  - destruct (Hs k r) as (Hid & Hd & pk & Hpk); [by left|]. unfold dvalues. csimpl. rewrite Hpk, public_key_roundtrip.
    cbn [mbind result_bind]. rewrite Hid, dset_fresh by (apply Hfr; by left).
    apply NoDup_cons in Hwf as [Hk Hwf]. destruct (IH (acc ++ [(k, pk)])) as (keys & Hrun & Hkeys & Hall).
    + split; [done|]. intros k' r' Hin. apply Hs. by right.
    + rewrite <- dset_fresh by (apply Hfr; by left). by apply dset_wf.
    + intros k' Hk'. rewrite <- dset_fresh by (apply Hfr; by left). rewrite dget_dset_ne; [apply Hfr; by right|].
      intros ->. by apply Hk.
    + exists ((k, pk) :: keys). unfold dvalues in Hrun. rewrite Hrun, <- app_assoc. split_and!; [done|unfold dkeys in *; csimpl; by f_equal|].
      by constructor.
Qed.

Lemma new_verifier_run (devices : dict pystr PK) :
  dwf devices → (∀ k, k ∈ dkeys devices → is_device_id k = true) →
  new_verifier devices = Ok (mkVerifier devices [] []).
Proof using Type.
  intros Hwf Hid. unfold new_verifier.
  assert (∀ acc, dwf (acc ++ devices) →
    for_each (λ kv, register_device kv.1 kv.2) devices (mkVerifier acc [] []) = (mkVerifier (acc ++ devices) [] [], Ok tt)) as H.
  2:{ by rewrite (H []). }
  clear Hwf. induction devices as [|[k pk] devices IH]; intros acc Hwf; cbn [for_each]; [by rewrite app_nil_r|].
  assert (is_identifier k = true) as Hk by (apply device_id_identifier, Hid; by left).
  erewrite bind_ok.
  2:{ unfold register_device, _validate_identifier. cbn [fst snd]. rewrite Hk. by erewrite bind_ok by done. }
  assert (dget k acc = None) as Hn.
  { apply dget_None. unfold dwf, dkeys in *. rewrite fmap_app in Hwf. apply NoDup_app in Hwf as (_ & Hd & _).
    intros Hin. apply (Hd k Hin). by left. }
  unfold with_trusted. cbn [trusted pending consumed]. rewrite dset_fresh by done. rewrite IH.
  - by rewrite <- app_assoc.
  - intros k' Hk'. apply Hid. by right.
  - by rewrite <- app_assoc.
Qed.

(** A call of an administrator. *)
Inductive pairing :=
| Pair (d : pystr) (pk : PK) (created : option Z) (now : Z)
| Unpair (d : pystr).
Definition run_pairing (s : device_store) (p : pairing) : device_store :=
  match p with
  | Pair d pk created now => (register d pk created now s).1
  | Unpair d => (revoke d s).1
  end.

(** The pairings as a plain map: the first key of an identifier stays until it
    is revoked. *)
Definition spec_pairing (m : dict pystr PK) (p : pairing) : dict pystr PK :=
  match p with
  | Pair d pk _ _ => if is_device_id d && negb (dmem d m) then m ++ [(d, pk)] else m
  | Unpair d => ddel d m
  end.

(** The store and the map agree. *)
Definition pairs_as (s : device_store) (m : dict pystr PK) : Prop :=
  dwf s ∧ Forall2 (λ kr kp, kr.1 = kp.1 ∧ registered_id kr.2 = kr.1 ∧ is_device_id kr.1 = true ∧
    public_key kr.2 = public_key_to_base64 kp.2) s m.

Lemma pairs_keys s m : pairs_as s m → dkeys s = dkeys m.
Proof using Type. intros [_ H]. unfold dkeys. induction H as [|x y l k (H & _) _ IH]; [done|]. csimpl. by rewrite H, IH. Qed.

Lemma pairs_ok s m : pairs_as s m → store_ok s.
Proof using Type.
  intros [Hwf H]. split; [done|]. intros k r Hin. apply list_elem_of_lookup in Hin as [i Hi].
  destruct (Forall2_lookup_l _ _ _ _ _ H Hi) as ([k' pk] & _ & _ & ? & ? & ?). cbn in *. split_and!; [done|done|by exists pk].
Qed.

Lemma pairs_step s m p : pairs_as s m → pairs_as (run_pairing s p) (spec_pairing m p).
Proof using Type.
  intros Hp. pose proof Hp as [Hwf H]. destruct p as [d pk created now|d]; cbn [run_pairing spec_pairing].
  - unfold register. cbn [validate_device_id]. destruct (is_device_id d) eqn:Hd; [|done]. erewrite bind_ok by done.
    erewrite bind_ok by done. unfold dmem. destruct (dget d s) as [r|] eqn:Hg.
    + assert (dget d m ≠ None) as Hm.
      { intros Hm%dget_None. rewrite <- (pairs_keys s m) in Hm by done. apply dget_elem in Hg.
        apply Hm. unfold dkeys. apply list_elem_of_fmap. by exists (d, r). }
      destruct (dget d m); [|done]. cbn [negb andb]. by destruct (negb _).
    + assert (dget d m = None) as -> by (apply dget_None; rewrite <- (pairs_keys s m) by done; by apply dget_None).
      cbn [negb andb]. erewrite bind_ok by done. cbn [fst]. split; [by apply dset_wf|]. cbn. rewrite dset_fresh by done.
      apply Forall2_app; [done|]. by repeat constructor.
  - assert (pairs_as (ddel d s) (ddel d m)) as Hdel.
    { split; [by apply ddel_wf|]. clear Hwf Hp. unfold ddel. induction H as [|x y l k (Hxy & Hr) _ IH]; [done|].
      rewrite !filter_cons, Hxy. case_decide; [by constructor|done]. }
    assert (is_device_id d = false ∨ dget d s = None → ddel d m = m) as Hsame.
    { intros Hno. apply ddel_absent. intros kv Hin. cbn. intros ->. apply list_elem_of_lookup in Hin as [i Hi].
      destruct (Forall2_lookup_r _ _ _ _ _ H Hi) as (kr & Hl & Hk & _ & Hid & _). rewrite Hk in Hid.
      destruct Hno as [Hno|Hno]; [congruence|]. apply dget_None in Hno. apply Hno. unfold dkeys.
      apply list_elem_of_fmap. exists kr. split; [done|]. by apply list_elem_of_lookup_2 in Hl. }
    unfold revoke. cbn [validate_device_id]. destruct (is_device_id d) eqn:Hd; [|by rewrite Hsame; auto].
    erewrite bind_ok by done. erewrite bind_ok by done. unfold dmem. destruct (dget d s) eqn:Hg; cbn [negb]; [done|].
    by rewrite Hsame; auto.
Qed.

Lemma keys_determined s (m keys : dict pystr PK) :
  Forall2 (λ kr kp, kr.1 = kp.1 ∧ registered_id kr.2 = kr.1 ∧ is_device_id kr.1 = true ∧
    public_key kr.2 = public_key_to_base64 kp.2) s m →
  Forall2 (λ kr kp, kr.1 = kp.1 ∧ public_key kr.2 = public_key_to_base64 kp.2) s keys → keys = m.
Proof using HE.
  revert m keys. induction s as [|kr s IH]; intros m keys Hm Hk;
    inversion Hm as [|? [k1 p1] ? m' (H1 & _ & _ & H2) Hm']; subst;
    inversion Hk as [|? [k2 p2] ? k' (H3 & H4) Hk']; subst; [done|].
  cbn in *. subst. f_equal; [f_equal|by apply IH].
  rewrite H2 in H4. pose proof (public_key_roundtrip p1) as Hr. rewrite H4, public_key_roundtrip in Hr. congruence.
Qed.

(** Whatever devices are paired and revoked, in any order, a verifier
    built from the store trusts exactly the identifiers of the plain map of
    pairings, each with the key it was first paired with since its last
    revocation: no key is lost in storage, replaced or added. *)
Theorem verifier_trusts_pairings calls :
  verifier_from_store (foldl run_pairing [] calls) = Ok (mkVerifier (foldl spec_pairing [] calls) [] []).
Proof using HE.
  assert (pairs_as (foldl run_pairing [] calls) (foldl spec_pairing [] calls)) as Hp.
  { assert (∀ s m, pairs_as s m → pairs_as (foldl run_pairing s calls) (foldl spec_pairing m calls)) as H.
    { induction calls as [|c calls IH]; intros s m Hs; [done|]. by apply IH, pairs_step. }
    apply H. split; [constructor|done]. }
  set (s := foldl run_pairing [] calls) in *. set (m := foldl spec_pairing [] calls) in *.
  unfold verifier_from_store, trusted_public_keys.
  destruct (keys_of_run s []) as (keys & -> & Hkeys & Hall); [by eapply pairs_ok|constructor|done|].
  cbn [mbind result_bind app]. rewrite (keys_determined s m keys) by (done || apply Hp).
  apply new_verifier_run.
  - unfold dwf. change (m.*1) with (dkeys m). rewrite <- (pairs_keys s m) by done. apply Hp.
  - intros k. rewrite <- (pairs_keys s m) by done. intros ([k' r] & -> & Hin)%list_elem_of_fmap.
    by apply (proj2 (pairs_ok s m Hp)) in Hin as (_ & ? & _).
Qed.
End Facts.

(** ** Two phones, one of them paired again with another key *)

Definition sample_pairings : list (pairing (PK := bool)) :=
  [Pair (u "phone-a") true (Some 1000) 1000; Pair (u "phone-b") true None 1001;
   Pair (u "phone-b") false None 1002; Unpair (u "phone-b"); Pair (u "phone-b") false None 1003].

Lemma verifier_trusts_pairings_witness :
  verifier_from_store (foldl run_pairing [] sample_pairings) =
    Ok (mkVerifier [(u "phone-a", true); (u "phone-b", false)] [] []).
Proof. exact (verifier_trusts_pairings (HE := toy_ed25519_laws) sample_pairings). Defined.
