(* ===== verification/Ticket.v ===== *)
(** * One-time unlock tickets: [windows-agent/trusted_unlock_ticket.py]

    [TicketIssuer] turns a verified authorization into an opaque handle that
    can be consumed once within ten seconds.  [run_call] runs a history of
    calls; the theorem about it says where a consumed ticket comes from. *)
From S2P Require Import Prelude Dict Value Effects Challenge OneShot.

Definition TICKET_TTL_SECONDS : Z := 5.
Definition MAX_TICKET_TTL_SECONDS : Z := 10.
Definition MAX_CONSUMED_TICKETS : Z := 4096.

Record IssuedTicket := mkTicket {
  ticket_token : pystr;
  ticket_device_id : pystr;
  ticket_operation : pystr;
  ticket_issued_at : Z;
  ticket_expires_at : Z
}.

Record ticket_state := mkTickets {
  tickets : dict pystr IssuedTicket;
  consumed_tickets : dict pystr Z
}.
Definition new_issuer : ticket_state := mkTickets [] [].

(** Attribute assignments. *)
Definition with_tickets (t : dict pystr IssuedTicket) (s : ticket_state) : ticket_state :=
  mkTickets t (consumed_tickets s).
Definition with_consumed (c : dict pystr Z) (s : ticket_state) : ticket_state := mkTickets (tickets s) c.

Definition ticket_expired (now : Z) (t : IssuedTicket) : Prop := ticket_expires_at t <= now.
#[global] Instance ticket_expired_dec now t : Decision (ticket_expired now t).
Proof. unfold ticket_expired. apply _. Defined.

Definition _prune (now : Z) (s : ticket_state) : ticket_state :=
  mkTickets (ddel_all (keys_where (ticket_expired now) (tickets s)) (tickets s))
    (ddel_all (keys_where (λ e, e <= now) (consumed_tickets s)) (consumed_tickets s)).

(** [now] is [int(time.time())], [token] what [secrets.token_urlsafe(32)] drew. *)
Definition issue (a : VerifiedAuthorization) (ttl_seconds now : Z) (token : pystr) : M ticket_state IssuedTicket :=
  if negb (bool_decide (auth_operation a = UNLOCK_OPERATION)) then raise TicketOperationError
  else if (ttl_seconds <? 1) || (MAX_TICKET_TTL_SECONDS <? ttl_seconds) then raise ValueError
  else if auth_expires_at a <=? now then raise ExpiredTicketError
  else
    let ticket := mkTicket token (auth_device_id a) (auth_operation a) now
                    (Z.min (now + ttl_seconds) (auth_expires_at a)) in
    modify (_prune now) ≫= λ _,
    modify (λ s, with_tickets (dset token ticket (tickets s)) s) ≫= λ _,
    mret ticket.

Definition consume (token : value) (operation : pystr) (now : Z) : M ticket_state IssuedTicket :=
  match token with
  | VStr tk =>
    if negb (nonempty tk) then raise UnknownTicketError
    else
      gets (λ s, dmem tk (consumed_tickets s)) ≫= λ replayed,
      if replayed : bool then raise TicketReplayError
      else
        gets (λ s, dget tk (tickets s)) ≫= λ found,
        match found with
        | None => raise UnknownTicketError
        | Some ticket =>
          if ticket_expires_at ticket <=? now then
            modify (λ s, _prune now (with_tickets (ddel tk (tickets s)) s)) ≫= λ _, raise ExpiredTicketError
          else if negb (bool_decide (operation = ticket_operation ticket)) then raise TicketOperationError
          else
            modify (λ s, with_tickets (ddel tk (tickets s)) s) ≫= λ _,
            modify (λ s, with_consumed
              (dset tk (ticket_expires_at ticket)
                 (if MAX_CONSUMED_TICKETS <=? len (consumed_tickets s) then dpop_oldest (consumed_tickets s)
                  else consumed_tickets s)) s) ≫= λ _,
            modify (_prune now) ≫= λ _,
            mret ticket
        end
  | _ => raise UnknownTicketError
  end.

Definition pending_tickets (s : ticket_state) : Z := len (tickets s).

(** ** Invariant *)

(** A stored ticket is one [issue] makes: for the unlock operation, under its
    own token, living at most ten seconds. *)
Record ticket_ok (t : IssuedTicket) : Prop := {
  tk_operation : ticket_operation t = UNLOCK_OPERATION;
  tk_window : ticket_issued_at t < ticket_expires_at t <= ticket_issued_at t + MAX_TICKET_TTL_SECONDS
}.
Record tickets_ok (s : ticket_state) : Prop := {
  ts_wf : dwf (tickets s);
  ts_wf_consumed : dwf (consumed_tickets s);
  ts_ids : ∀ k t, (k, t) ∈ tickets s → ticket_token t = k ∧ ticket_ok t;
  ts_consumed : len (consumed_tickets s) <= MAX_CONSUMED_TICKETS
}.

Lemma new_issuer_ok : tickets_ok new_issuer.
Proof. split; [constructor|constructor|by intros ? ? ?%not_elem_of_nil|done]. Qed.

Lemma prune_tickets now s :
  tickets_ok s → _prune now s = mkTickets (filter (λ kv, ¬ ticket_expired now kv.2) (tickets s))
    (filter (λ kv, ¬ kv.2 <= now) (consumed_tickets s)).
Proof. intros Hs. unfold _prune. by rewrite !ddel_keys_where by apply Hs. Qed.

Lemma prune_tickets_ok now s : tickets_ok s → tickets_ok (_prune now s).
Proof.
  intros Hs. rewrite prune_tickets by done. destruct Hs as [Hw Hc Hi Hl]. split; simpl.
  - by apply filter_sublist_wf.
  - by apply filter_sublist_wf.
  - intros k t [_ Hin]%list_elem_of_filter. by apply Hi.
  - pose proof (len_filter_le (λ kv : pystr * Z, ¬ kv.2 <= now) (consumed_tickets s)). lia.
Qed.

Lemma without_ticket_ok k s : tickets_ok s → tickets_ok (with_tickets (ddel k (tickets s)) s).
Proof.
  intros [Hw Hc Hi Hl]. split; simpl; [by apply ddel_wf|done| |done].
  intros k' t [_ Hin]%ddel_elem. by apply Hi.
Qed.

(** What one call of each operation does. *)
Lemma issue_run a ttl now token s s' r :
  tickets_ok s → issue a ttl now token s = (s', r) →
  match r with
  | Ok t => auth_operation a = UNLOCK_OPERATION ∧ ticket_ok t ∧ ticket_token t = token ∧
      ticket_device_id t = auth_device_id a ∧ ticket_issued_at t = now ∧ ticket_expires_at t <= auth_expires_at a ∧
      s' = mkTickets (dset token t (tickets (_prune now s))) (consumed_tickets (_prune now s))
  | Raise e => s' = s ∧ (e = TicketOperationError ∨ e = ValueError ∨ e = ExpiredTicketError)
  end.
Proof.
  intros Hs. unfold issue. case_bool_decide; cbn [negb]; [|by intros [= <- <-]; auto].
  destruct (_ || _) eqn:Ht; [by intros [= <- <-]; auto|].
  destruct (auth_expires_at a <=? now) eqn:He; [by intros [= <- <-]; auto|].
  apply orb_false_iff in Ht as [Ht1 Ht2]. reflect. intros [= <- <-].
  split_and!; try done; [|simpl; lia]. split; [done|]. simpl. lia.
Qed.

Lemma consume_ticket_run token op now s s' r :
  tickets_ok s → consume token op now s = (s', r) →
  match r with
  | Ok t => ∃ tk, token = VStr tk ∧ dget tk (tickets s) = Some t ∧ dget tk (consumed_tickets s) = None ∧
      op = ticket_operation t ∧ now < ticket_expires_at t ∧ tickets_ok s' ∧
      tickets s' = filter (λ kv, ¬ ticket_expired now kv.2) (ddel tk (tickets s)) ∧
      dget tk (consumed_tickets s') = Some (ticket_expires_at t)
  | Raise e => is_a e TicketError = true ∧ (s' = s ∨ ∃ tk, s' = _prune now (with_tickets (ddel tk (tickets s)) s))
  end.
Proof.
  intros Hs. unfold consume. destruct token as [| | | |tk| |]; try (by intros [= <- <-]; auto).
  destruct (nonempty tk); cbn [negb]; [|by intros [= <- <-]; auto]. erewrite bind_ok by done.
  destruct (dmem tk (consumed_tickets s)) eqn:Hm; [by intros [= <- <-]; auto|]. apply dmem_false in Hm.
  erewrite bind_ok by done. destruct (dget tk (tickets s)) as [t|] eqn:Ht; [|by intros [= <- <-]; auto].
  destruct (ticket_expires_at t <=? now) eqn:He; [intros [= <- <-]; split; [done|right; by exists tk]|].
  case_bool_decide; cbn [negb]; [|by intros [= <- <-]; auto]. reflect. intros [= <- <-].
  set (c := if MAX_CONSUMED_TICKETS <=? len (consumed_tickets s) then _ else _).
  set (s1 := with_consumed _ _).
  assert (dwf c ∧ len c < MAX_CONSUMED_TICKETS) as [Hwf Hlen].
  { subst c. destruct (_ <=? _) eqn:Hl; reflect; cbn [consumed_tickets with_tickets] in *; [|by split; [apply Hs|lia]].
    split; [by apply dpop_oldest_wf, Hs|].
    pose proof (len_dpop_oldest (consumed_tickets s)) as Hp. pose proof (ts_consumed _ Hs).
    assert (consumed_tickets s ≠ []) as Hne by (intros Hnil; rewrite Hnil in Hl; by vm_compute in Hl).
    specialize (Hp Hne). lia. }
  assert (tickets_ok s1) as Hok.
  { destruct (without_ticket_ok tk s Hs) as [Hw Hc Hi Hl]. split; simpl in *; [done|by apply dset_wf|done|].
    pose proof (len_dset_le tk (ticket_expires_at t) c). lia. }
  exists tk. split_and!; try done; [by apply prune_tickets_ok|by rewrite prune_tickets|].
  rewrite prune_tickets by done. simpl. apply elem_dget; [by apply filter_sublist_wf, dset_wf|].
  apply list_elem_of_filter. split; [simpl; lia|]. apply dget_elem, dget_dset_eq.
Qed.

(** ** Histories *)

Inductive ticket_call :=
| CallIssue (a : VerifiedAuthorization) (ttl now : Z) (token : pystr)
| CallConsume (token : value) (op : pystr) (now : Z).
Inductive ticket_event :=
| TicketIssued (a : VerifiedAuthorization) (t : IssuedTicket)
| TicketConsumed (t : IssuedTicket) (now : Z)
| TicketRefused (e : exn).

Definition run_ticket (c : ticket_call) (s : ticket_state) : ticket_state * ticket_event :=
  match c with
  | CallIssue a ttl now token =>
    match issue a ttl now token s with
    | (s', Ok t) => (s', TicketIssued a t)
    | (s', Raise e) => (s', TicketRefused e)
    end
  | CallConsume token op now =>
    match consume token op now s with
    | (s', Ok t) => (s', TicketConsumed t now)
    | (s', Raise e) => (s', TicketRefused e)
    end
  end.
Definition ticket_drawn (c : ticket_call) : list pystr :=
  match c with CallIssue _ _ _ token => [token] | _ => [] end.
Definition ticket_spent (ev : ticket_event) : list pystr :=
  match ev with TicketConsumed t _ => [ticket_token t] | _ => [] end.

Lemma pruned_ticket now s k t : tickets_ok s → (k, t) ∈ tickets (_prune now s) → (k, t) ∈ tickets s.
Proof. intros Hs. rewrite prune_tickets by done. by intros [_ ?]%list_elem_of_filter. Qed.

Lemma consume_keeps token op now s s' r k t :
  tickets_ok s → consume token op now s = (s', r) →
  tickets_ok s' ∧ ((k, t) ∈ tickets s' → (k, t) ∈ tickets s).
Proof.
  intros Hs Hrun. pose proof (consume_ticket_run token op now s s' r Hs Hrun) as Hr. destruct r as [q|e].
  - destruct Hr as (tk & _ & _ & _ & _ & _ & Hok & -> & _). split; [done|].
    by intros [_ [_ ?]%ddel_elem]%list_elem_of_filter.
  - destruct Hr as [_ [->|[tk ->]]]; [done|]. split; [by apply prune_tickets_ok, without_ticket_ok|].
    intros [_ ?]%pruned_ticket%ddel_elem; [done|by apply without_ticket_ok].
Qed.

Lemma issue_keeps a ttl now token s s' r k t :
  tickets_ok s → issue a ttl now token s = (s', r) →
  tickets_ok s' ∧ ((k, t) ∈ tickets s' → (k, t) ∈ tickets s ∨ (k = token ∧ r = Ok t)).
Proof.
  intros Hs Hrun. pose proof (issue_run a ttl now token s s' r Hs Hrun) as Hr. destruct r as [q|e].
  - destruct Hr as (_ & Hq & Ht & _ & _ & _ & ->). pose proof (prune_tickets_ok now s Hs) as Hp. split.
    + destruct Hp as [Hw Hc Hi Hl]. split; simpl; [by apply dset_wf|done| |done].
      intros k' t' [[-> ->]|Hin]%dset_elem; [done|by apply Hi].
    + intros [[-> ->]|Hin]%dset_elem; [by right|]. left. by eapply pruned_ticket.
  - destruct Hr as [-> _]. auto.
Qed.

Lemma run_ticket_keeps c s : tickets_ok s → tickets_ok (run_ticket c s).1.
Proof.
  intros Hs. destruct c as [a ttl now token|token op now]; simpl.
  - destruct (issue a ttl now token s) as [s' r] eqn:E.
    apply (issue_keeps _ _ _ _ _ _ _ [] (mkTicket [] [] [] 0 0) Hs) in E as [? _]. by destruct r.
  - destruct (consume token op now s) as [s' r] eqn:E.
    apply (consume_keeps _ _ _ _ _ _ [] (mkTicket [] [] [] 0 0) Hs) in E as [? _]. by destruct r.
Qed.

#[global] Instance tickets_one_shot :
  OneShot run_ticket tickets_ok (λ s, dkeys (tickets s)) ticket_drawn ticket_spent.
Proof.
  split.
  - intros c s. apply run_ticket_keeps.
  - intros c s s' ev k Hs Hrun ([k' t] & -> & Hin)%list_elem_of_fmap. simpl.
    destruct c as [a ttl now token|token op now]; simpl in Hrun |- *.
    + destruct (issue a ttl now token s) as [s1 r] eqn:E. assert (s1 = s') as -> by by destruct r; simplify_eq.
      pose proof (issue_keeps _ _ _ _ _ _ _ k' t Hs E) as [_ Ek]. destruct (Ek Hin) as [?|[-> _]]; [left|by right; left].
      apply list_elem_of_fmap. by exists (k', t).
    + destruct (consume token op now s) as [s1 r] eqn:E. assert (s1 = s') as -> by by destruct r; simplify_eq.
      pose proof (consume_keeps _ _ _ _ _ _ k' t Hs E) as [_ Ek]. left. apply list_elem_of_fmap. exists (k', t). auto.
  - intros c s s' ev k Hs Hrun Hk. destruct c as [a ttl now token|token op now]; simpl in Hrun.
    { destruct (issue a ttl now token s) as [s1 []]; simplify_eq; by apply not_elem_of_nil in Hk. }
    destruct (consume token op now s) as [s1 [t|e]] eqn:E; simplify_eq; [|by apply not_elem_of_nil in Hk].
    apply consume_ticket_run in E as (tk & -> & Ht & _ & _ & _ & _ & Hts & _); [|done].
    pose proof (dget_elem _ _ _ Ht) as Hin. destruct (ts_ids s Hs _ _ Hin) as [Hid _].
    apply list_elem_of_singleton in Hk as ->. simpl. rewrite Hid, Hts. split_and!; [| |done|done].
    + apply list_elem_of_fmap. by exists (tk, t).
    + intros ([k t'] & -> & [_ [? _]%ddel_elem]%list_elem_of_filter)%list_elem_of_fmap. done.
Qed.

Definition ticket_history (calls : list ticket_call) : list ticket_event * ticket_state :=
  history_from run_ticket new_issuer calls.

(** The verified unlock authorization a ticket stands for. *)
Definition issued_for (past : list ticket_event) (t : IssuedTicket) : Prop :=
  ∃ a, TicketIssued a t ∈ past ∧ auth_operation a = UNLOCK_OPERATION ∧ ticket_device_id t = auth_device_id a ∧
    ticket_expires_at t <= auth_expires_at a ∧ ticket_ok t.

Record ticket_history_ok (past : list ticket_event) (s : ticket_state) : Prop := {
  th_state : tickets_ok s;
  th_issued : ∀ k t, (k, t) ∈ tickets s → issued_for past t;
  th_consumed : ∀ pre t now post, past = pre ++ TicketConsumed t now :: post →
    issued_for pre t ∧ now < ticket_expires_at t
}.

Lemma issued_for_snoc past ev t : issued_for past t → issued_for (past ++ [ev]) t.
Proof. intros (a & Hin & H). exists a. split; [|done]. apply elem_of_app. by left. Qed.

Lemma ticket_history_step past s c :
  ticket_history_ok past s → ticket_history_ok (past ++ [(run_ticket c s).2]) (run_ticket c s).1.
Proof.
  intros [Hs Hi Hc]. pose proof (run_ticket_keeps c s Hs) as Hs'. destruct (run_ticket c s) as [s' ev] eqn:E.
  simpl in *. split; [done| |].
  - intros k t Hin. destruct c as [a ttl now token|token op now]; simpl in E.
    + destruct (issue a ttl now token s) as [s1 r] eqn:Ei. assert (s1 = s') as -> by by destruct r; simplify_eq.
      pose proof (issue_run _ _ _ _ _ _ _ Hs Ei) as Hr.
      pose proof (issue_keeps _ _ _ _ _ _ _ k t Hs Ei) as [_ Ek].
      destruct (Ek Hin) as [?|[-> ->]]; [by eapply issued_for_snoc, Hi|]. simplify_eq.
      destruct Hr as (Ha & Hq & _ & Hd & _ & He & _). exists a. split_and!; try done. apply elem_of_app. right. by left.
    + destruct (consume token op now s) as [s1 r] eqn:Ei. assert (s1 = s') as -> by by destruct r; simplify_eq.
      pose proof (consume_keeps _ _ _ _ _ _ k t Hs Ei) as [_ Ek]. by eapply issued_for_snoc, Hi, Ek.
  - intros pre t now post Heq. destruct post as [|x post _] using rev_ind.
    + apply app_inj_tail in Heq as [<- ->]. destruct c as [a ttl n token|token op n]; simpl in E.
      1: destruct (issue a ttl n token s) as [? []]; simplify_eq.
      destruct (consume token op n s) as [s1 [q|e]] eqn:Ec; simplify_eq.
      apply consume_ticket_run in Ec as (tk & _ & Ht & _ & _ & Hn & _); [|done].
      split; [by eapply Hi, dget_elem|done].
    + rewrite app_comm_cons, app_assoc in Heq. apply app_inj_tail in Heq as [-> _]. by eapply Hc.
Qed.

Lemma ticket_history_is_ok calls : ticket_history_ok (ticket_history calls).1 (ticket_history calls).2.
Proof.
  apply (history_invariant run_ticket ticket_history_ok); [|apply ticket_history_step].
  split; [apply new_issuer_ok|by intros ? ? ?%not_elem_of_nil|]. intros pre ? ? ? H0. by destruct pre.
Qed.

(** C32: In any history of calls whose drawn tokens do not repeat, a ticket is
    consumed at most once, and only if it was issued before from a verified
    authorization of the unlock operation, for that device, at most ten
    seconds ago and before the authorization itself expires. *)
Theorem ticket_one_use calls (Hfresh : NoDup (calls ≫= ticket_drawn)) :
  NoDup ((ticket_history calls).1 ≫= ticket_spent) ∧
  ∀ pre t now post, (ticket_history calls).1 = pre ++ TicketConsumed t now :: post →
    issued_for pre t ∧ now < ticket_expires_at t.
Proof.
  split; [|intros pre t now post; apply (th_consumed _ _ (ticket_history_is_ok calls))].
  by apply (spent_once run_ticket tickets_ok (λ s, dkeys (tickets s)) ticket_drawn ticket_spent); [apply new_issuer_ok|..].
Qed.

(** The exact conditions under which a ticket is accepted, and the table it
    leaves. *)
Theorem consume_exact token op now s (Hs : tickets_ok s) :
  (∃ s' t, consume token op now s = (s', Ok t)) ↔
  ∃ tk t, token = VStr tk ∧ tk ≠ [] ∧ dget tk (tickets s) = Some t ∧ dget tk (consumed_tickets s) = None ∧
    now < ticket_expires_at t ∧ op = ticket_operation t.
Proof.
  split.
  - intros (s' & t & Hrun). pose proof (consume_ticket_run _ _ _ _ _ _ Hs Hrun) as (tk & -> & Ht & Hc & -> & Hn & _).
    exists tk, t. split_and!; try done. intros ->. unfold consume in Hrun. by simplify_eq.
  - intros (tk & t & -> & Hne & Ht & Hc & Hn & ->). unfold consume. destruct tk as [|c tk]; [done|]. cbn [nonempty negb].
    erewrite bind_ok by done. rewrite (proj2 (dmem_false _ _) Hc). erewrite bind_ok by done. rewrite Ht.
    rewrite (proj2 (Z.leb_gt _ _) Hn). rewrite bool_decide_true by done. cbn [negb]. eauto.
Qed.

Definition sample_authorized : VerifiedAuthorization := mkAuthorization (u "c1") (u "esp32") UNLOCK_OPERATION 1000 1030.
Definition sample_ticket_calls : list ticket_call :=
  [CallIssue sample_authorized 5 1000 (u "t1"); CallConsume (VStr (u "t1")) UNLOCK_OPERATION 1003;
   CallConsume (VStr (u "t1")) UNLOCK_OPERATION 1004; CallIssue sample_authorized 5 1004 (u "t2");
   CallConsume (VStr (u "t2")) UNLOCK_OPERATION 1009].

Lemma ticket_one_use_witness :
  (ticket_history sample_ticket_calls).1 ≫= ticket_spent = [u "t1"] ∧
  NoDup ((ticket_history sample_ticket_calls).1 ≫= ticket_spent) ∧
  ∀ pre t now post, (ticket_history sample_ticket_calls).1 = pre ++ TicketConsumed t now :: post →
    issued_for pre t ∧ now < ticket_expires_at t.
Proof.
  split; [vm_compute; reflexivity|]. apply (ticket_one_use sample_ticket_calls). apply (bool_decide_unpack _). by vm_compute.
Defined.
