(* ===== verification/Broker.v ===== *)
(** * The unlock broker: [windows-agent/trusted_unlock_broker.py]

    [TrustedUnlockBroker] reads one JSON request, dispatches it to the verifier
    and the ticket issuer, and answers one JSON object whatever happens.  The
    switch [UNLOCK_ENABLED] is off; [_dispatch] takes it as an argument, so that
    what it guards is modelled too. *)
From S2P Require Import Prelude Dict Value Effects Encoding Json JsonParse JsonRoundtrip Crypto Challenge OneShot Devices Ticket.

Definition BROKER_VERSION : pystr := u "0.1.0".
Definition PROTOCOL_VERSION : Z := 1.
Definition MAX_MESSAGE_BYTES : Z := 16 * 1024.
Definition UNLOCK_ENABLED : bool := false.
Definition REQUEST_FIELDS : list pystr := [u "version"; u "request_id"; u "command"; u "payload"].

(** [_REQUEST_ID_PATTERN] *)
Definition request_char (c : Z) : bool := ascii_alnum c || (c =? 95) || (c =? 46) || (c =? 58) || (c =? 45).
Definition is_request_id (s : pystr) : bool := matches_class request_char 1 64 s.

Definition _require_identifier (v : value) : result pystr :=
  match v with
  | VStr s => if is_request_id s then Ok s else Raise BrokerRequestError
  | _ => Raise BrokerRequestError
  end.

Definition _require_payload (request : object) : result object :=
  match dget (u "payload") request with
  | None => Ok []
  | Some (VDict d) => Ok d
  | Some _ => Raise BrokerRequestError
  end.

Definition _reject_unknown_fields (payload : object) (allowed : list pystr) : result unit :=
  ensure (keys_within allowed payload) BrokerRequestError.

Definition _reject_duplicate_fields (pairs : list (pystr * value)) : result object :=
  reject_duplicates ValueError pairs [].

Definition _issued_ticket_dict (t : IssuedTicket) : object :=
  [(u "token", VStr (ticket_token t)); (u "device_id", VStr (ticket_device_id t));
   (u "operation", VStr (ticket_operation t)); (u "issued_at", VInt (ticket_issued_at t));
   (u "expires_at", VInt (ticket_expires_at t))].

(** The codes, tried in the order of the source. *)
Definition code_mapping : list (exn * literal) :=
  [(UnknownDeviceError, "unknown_device"); (UnknownChallengeError, "unknown_challenge");
   (ChallengeMismatchError, "challenge_mismatch"); (ExpiredChallengeError, "expired_challenge");
   (InvalidResponseError, "invalid_response"); (ReplayDetectedError, "replay_detected");
   (UnknownTicketError, "unknown_ticket"); (ExpiredTicketError, "expired_ticket");
   (TicketReplayError, "ticket_replay"); (TicketOperationError, "ticket_operation_mismatch")]%string.

Definition _error_code (e : exn) : pystr :=
  if is_a e UnlockDisabledError then u "unlock_disabled"
  else match List.find (λ ec, is_a e ec.1) code_mapping with
       | Some (_, code) => u code
       | None =>
         if is_a e BrokerRequestError then u "invalid_request"
         else if caught e [TrustedUnlockError; TicketError] then u "authorization_failed"
         else u "internal_error"
       end.

Definition error_message (e : exn) : pystr :=
  if is_a e BrokerRequestError then
    (if is_a e UnlockDisabledError then u "Trusted Unlock está desactivado." else u "Solicitud no válida.")
  else if caught e [TrustedUnlockError; TicketError] then u "Autorización rechazada."
  else u "Solicitud no válida.".

Definition str_or_none (o : option pystr) : value := match o with Some s => VStr s | None => VNone end.

Definition error_response (request_id : option pystr) (code message : pystr) : object :=
  [(u "ok", VBool false); (u "request_id", str_or_none request_id);
   (u "error", VDict [(u "code", VStr code); (u "message", VStr message)])].

(** [SignedChallenge( **response_data )] *)
Definition signed_challenge (d : object) : result SignedChallenge :=
  _ ← ensure (keys_exactly [u "challenge_id"; u "device_id"; u "signature"] d) TypeError;
  match get (u "challenge_id") d, get (u "device_id") d, get (u "signature") d with
  | VStr c, VStr i, VStr s => check_signed (mkSigned c i s)
  | _, _, _ => Raise ValueError
  end.

(** What one request reads and draws. *)
Record broker_env := { b_challenge : challenge_env; b_verify : Z; b_ticket : Z; b_token : pystr }.

Section Broker.
Context {SK PK : Type} `{E : Ed25519 SK PK}.
Context (clock_skew_seconds : Z).

Record broker_state := mkBroker { verifier : verifier_state PK; issuer : ticket_state }.
Definition on_verifier {T} (m : M (verifier_state PK) T) : M broker_state T :=
  zoom verifier (λ v s, mkBroker v (issuer s)) m.
Definition on_issuer {T} (m : M ticket_state T) : M broker_state T :=
  zoom issuer (λ t s, mkBroker (verifier s) t) m.

Definition require_unlock_enabled (enabled : bool) : M broker_state unit :=
  lift (ensure enabled UnlockDisabledError).

Definition on_health (enabled : bool) (payload : object) : M broker_state object :=
  lift (_reject_unknown_fields payload []) ≫= λ _,
  gets (λ s, [(u "broker_version", VStr BROKER_VERSION); (u "protocol_version", VInt PROTOCOL_VERSION);
              (u "unlock_enabled", VBool enabled); (u "pending_challenges", VInt (pending_count (verifier s)));
              (u "pending_tickets", VInt (pending_tickets (issuer s)))]).

Definition ttl_of (v : value) : result Z :=
  match v with VInt n => Ok n | _ => Raise BrokerRequestError end.

Definition on_challenge_create (enabled : bool) (env : broker_env) (payload : object) : M broker_state object :=
  lift (_reject_unknown_fields payload [u "device_id"; u "ttl_seconds"]) ≫= λ _,
  lift (d ← _require_identifier (get (u "device_id") payload); validate_device_id (VStr d)) ≫= λ d,
  lift (ttl_of (default (VInt 30) (dget (u "ttl_seconds") payload))) ≫= λ ttl,
  require_unlock_enabled enabled ≫= λ _,
  on_verifier (create_challenge (b_challenge env) d ttl UNLOCK_OPERATION) ≫= λ c,
  mret [(u "challenge", VDict (challenge_dict c))].

Definition on_challenge_submit (enabled : bool) (env : broker_env) (payload : object) : M broker_state object :=
  lift (_reject_unknown_fields payload [u "response"]) ≫= λ _,
  lift (match get (u "response") payload with
        | VDict d => reraise [TypeError; ValueError] BrokerRequestError (signed_challenge d)
        | _ => Raise BrokerRequestError
        end) ≫= λ response,
  require_unlock_enabled enabled ≫= λ _,
  on_verifier (verify_response clock_skew_seconds response (b_verify env)) ≫= λ a,
  on_issuer (issue a TICKET_TTL_SECONDS (b_ticket env) (b_token env)) ≫= λ t,
  mret [(u "ticket", VDict (_issued_ticket_dict t)); (u "unlock_enabled", VBool enabled)].

Definition on_ticket_consume (enabled : bool) (env : broker_env) (payload : object) : M broker_state object :=
  lift (_reject_unknown_fields payload [u "token"]) ≫= λ _,
  lift (match get (u "token") payload with
        | VStr t => if nonempty t then Ok t else Raise BrokerRequestError
        | _ => Raise BrokerRequestError
        end) ≫= λ token,
  require_unlock_enabled enabled ≫= λ _,
  on_issuer (consume (VStr token) UNLOCK_OPERATION (b_ticket env)) ≫= λ t,
  mret [(u "consumed", VBool true); (u "device_id", VStr (ticket_device_id t));
        (u "operation", VStr (ticket_operation t)); (u "unlock_enabled", VBool enabled)].

Definition _dispatch (enabled : bool) (env : broker_env) (command : pystr) (payload : object) : M broker_state object :=
  if command =s "health" then on_health enabled payload
  else if command =s "challenge.create" then on_challenge_create enabled env payload
  else if command =s "challenge.submit" then on_challenge_submit enabled env payload
  else if command =s "ticket.consume" then on_ticket_consume enabled env payload
  else raise BrokerRequestError.

(** The [request_id] an answer carries: the request's, when it is one. *)
Definition request_id_of (request : value) : option pystr :=
  match request with
  | VDict d => match _require_identifier (get (u "request_id") d) with Ok s => Some s | Raise _ => None end
  | _ => None
  end.

(** The [try] block of [handle_request]. *)
Definition run_request (enabled : bool) (env : broker_env) (request : value) : M broker_state object :=
  match request with
  | VDict d =>
    lift (ensure (keys_within REQUEST_FIELDS d) BrokerRequestError) ≫= λ _,
    lift (_require_identifier (get (u "request_id") d)) ≫= λ _,
    lift (ensure (eq_int (get (u "version") d) PROTOCOL_VERSION) BrokerRequestError) ≫= λ _,
    lift (_require_identifier (get (u "command") d)) ≫= λ command,
    lift (_require_payload d) ≫= λ payload,
    _dispatch enabled env command payload
  | _ => raise BrokerRequestError
  end.

Definition handle_request (enabled : bool) (env : broker_env) (request : value) : M broker_state object := λ s,
  match run_request enabled env request s with
  | (s', Ok r) =>
    (s', Ok [(u "ok", VBool true); (u "request_id", str_or_none (request_id_of request)); (u "result", VDict r)])
  | (s', Raise e) => (s', Ok (error_response (request_id_of request) (_error_code e) (error_message e)))
  end.

(** [_encode_response(None, False, "invalid_request", message)]: the text is
    ASCII, so that [ensure_ascii] makes no difference. *)
Definition invalid_request (message : pystr) : M broker_state bytes :=
  lift (dump_bytes false true (VDict (error_response None (u "invalid_request") message))).

Definition handle_bytes_with (enabled : bool) (env : broker_env) (raw_request : bytes) : M broker_state bytes :=
  if MAX_MESSAGE_BYTES <? len raw_request then invalid_request (u "message too large")
  else
    match loads_utf8 _reject_duplicate_fields raw_request with
    | Ok request =>
      handle_request enabled env request ≫= λ response, lift (dump_bytes false true (VDict response))
    | Raise e =>
      if caught e [UnicodeDecodeError; JSONDecodeError; ValueError] then invalid_request (u "invalid JSON") else raise e
    end.

Definition handle_bytes : broker_env → bytes → M broker_state bytes := handle_bytes_with UNLOCK_ENABLED.
End Broker.
Arguments broker_state PK : clear implicits.

(** ** What a request can do *)

Section Facts.
Context {SK PK : Type} `{E : Ed25519 SK PK}.
Context (clock_skew_seconds : Z).
Implicit Types (s : broker_state PK).

Abbreviation run_request := (run_request clock_skew_seconds).
Abbreviation handle_request := (handle_request clock_skew_seconds).
Abbreviation handle_bytes := (handle_bytes clock_skew_seconds).

Definition broker_ok s : Prop := verifier_ok (verifier s) ∧ tickets_ok (issuer s).

(** *** With the switch off *)

Definition health_report s : object :=
  [(u "broker_version", VStr BROKER_VERSION); (u "protocol_version", VInt PROTOCOL_VERSION);
   (u "unlock_enabled", VBool false); (u "pending_challenges", VInt (pending_count (verifier s)));
   (u "pending_tickets", VInt (pending_tickets (issuer s)))].

(** The run neither changes the state nor answers more than the report. *)
Definition inert (m : M (broker_state PK) object) : Prop :=
  ∀ s, ∃ r, m s = (s, r) ∧
    (r = Ok (health_report s) ∨ ∃ e, r = Raise e ∧ e ∈ [BrokerRequestError; UnlockDisabledError; ValueError]).

Lemma inert_raise e : e ∈ [BrokerRequestError; UnlockDisabledError; ValueError] → inert (raise e).
Proof using Type. intros He s. eexists. split; [done|]. right. by exists e. Qed.

Lemma inert_lift {T} (r : result T) k :
  raises_only (λ e, e = BrokerRequestError ∨ e = ValueError) r → (∀ x, inert (k x)) → inert (lift r ≫= k).
Proof using Type.
  intros Hr Hk s. destruct r as [x|e].
  - destruct (Hk x s) as (r & Hrun & Hcase). exists r. split; [|done]. by erewrite bind_ok by done.
  - exists (Raise e). split; [by erewrite bind_raise by done|]. right. exists e. split; [done|].
    destruct (Hr e eq_refl) as [->| ->]; set_solver.
Qed.

Lemma require_identifier_raises v : raises_only (λ e, e = BrokerRequestError ∨ e = ValueError) (_require_identifier v).
Proof using Type. unfold _require_identifier. destruct v; repeat raises_step; auto. Qed.

Lemma dispatch_inert env command payload : inert (_dispatch clock_skew_seconds false env command payload).
Proof using Type.
  unfold _dispatch. repeat case_match; [| | | |by apply inert_raise; set_solver].
  - unfold on_health. apply inert_lift; [apply raises_only_ensure; by left|]. intros ? s. eexists. split; [done|by left].
  - unfold on_challenge_create. apply inert_lift; [apply raises_only_ensure; by left|]. intros ?.
    apply inert_lift; [|intros d].
    { apply raises_only_bind; [apply require_identifier_raises|]. intros d. unfold validate_device_id. repeat raises_step; auto. }
    apply inert_lift; [unfold ttl_of; case_match; repeat raises_step; auto|]. intros ttl s. eexists. split; [done|].
    right. exists UnlockDisabledError. split; [done|set_solver].
  - unfold on_challenge_submit. apply inert_lift; [apply raises_only_ensure; by left|]. intros ?.
    apply inert_lift; [|intros d s; eexists; split; [done|]; right; exists UnlockDisabledError; split; [done|set_solver]].
    case_match; try (by repeat raises_step; auto). intros e. unfold reraise.
    destruct (signed_challenge d) as [y|e'] eqn:Es; [done|].
    assert (caught e' [TypeError; ValueError] = true) as ->; [|by intros [= <-]; left].
    unfold signed_challenge, mbind, result_bind, ensure in Es. destruct (keys_exactly _ _); [|by simplify_eq].
    repeat case_match; simplify_eq; try done. by apply check_signed_raises in Es as ->.
  - unfold on_ticket_consume. apply inert_lift; [apply raises_only_ensure; by left|]. intros ?.
    apply inert_lift; [repeat case_match; repeat raises_step; auto|]. intros d s. eexists. split; [done|].
    right. exists UnlockDisabledError. split; [done|set_solver].
Qed.

Lemma request_inert env request : inert (run_request false env request).
Proof using Type.
  unfold Broker.run_request. destruct request; try (by apply inert_raise; set_solver).
  apply inert_lift; [apply raises_only_ensure; by left|intros ?]. apply inert_lift; [apply require_identifier_raises|intros ?].
  apply inert_lift; [apply raises_only_ensure; by left|intros ?]. apply inert_lift; [apply require_identifier_raises|intros c].
  apply inert_lift; [|intros p; apply dispatch_inert].
  unfold _require_payload. repeat case_match; repeat raises_step; auto.
Qed.

(** What is answered while the switch is off. *)
Inductive inert_answer s : object → Prop :=
| inert_health rid :
    inert_answer s [(u "ok", VBool true); (u "request_id", str_or_none rid); (u "result", VDict (health_report s))]
| inert_error rid code message :
    code ∈ [u "unlock_disabled"; u "invalid_request"; u "internal_error"] →
    inert_answer s (error_response rid code message).

Lemma error_code_inert e :
  e ∈ [BrokerRequestError; UnlockDisabledError; ValueError] →
  _error_code e ∈ [u "unlock_disabled"; u "invalid_request"; u "internal_error"] ∧ Forall scalar (_error_code e) ∧
  Forall scalar (error_message e).
Proof using Type.
  intros He. repeat (apply elem_of_cons in He as [->|He]); [..|by apply not_elem_of_nil in He];
    (split; [apply (bool_decide_unpack _); by vm_compute|]);
    split; apply Forall_forall; intros c Hc; vm_compute in Hc;
    (repeat (apply elem_of_cons in Hc as [->|Hc]; [split; [lia|done]|])); by apply not_elem_of_nil in Hc.
Qed.

Lemma request_id_ascii request r : request_id_of request = Some r → Forall ascii r.
Proof using Type.
  unfold request_id_of, _require_identifier. destruct request; try done. destruct (get _ _) as [| | | |x| |]; try done.
  destruct (is_request_id x) eqn:Hx; [|done]. intros [= <-]. apply identifier_ascii.
  unfold is_request_id, is_identifier, matches_class in *. change identifier_char with request_char. reflect.
  rewrite !andb_true_iff. split_and!; [done|lia..].
Qed.

Lemma plain_ascii t : Forall ascii t → Forall (λ c, 0 <= c) t.
Proof using Type. intros H. eapply Forall_impl; [exact H|]. by intros c [? _]. Qed.
Lemma plain_scalar t : Forall scalar t → Forall (λ c, 0 <= c) t.
Proof using Type. intros H. eapply Forall_impl; [exact H|]. by intros c [[? _] _]. Qed.

(** An answer is one JSON document, which says what was answered. *)
Definition conveys (o : object) (b : bytes) : Prop :=
  dump_bytes false true (VDict o) = Ok b ∧ loads_utf8 _reject_duplicate_fields b = Ok (VDict o).

Lemma conveys_of o : value_text scalar (VDict o) → plain (VDict o) → ∃ b, conveys o b.
Proof using Type.
  intros Ht Hp. destruct (dump_bytes_text false true _ Ht) as [b Hb]. exists b. split; [done|].
  by apply (loads_utf8_dump false ValueError true).
Qed.

Lemma small_len n : 0 <= n < 2 ^ 64 → value_text scalar (VInt n).
Proof using Type. intros Hn. apply (small_int_ascii n). lia. Qed.

(** The pieces of an answer: its literals and its request identifier. *)
Lemma literal_ok t : forallb is_scalar t = true → Forall scalar t ∧ Forall (λ c, 0 <= c) t.
Proof using Type. intros H%scalar_text. split; [done|by apply plain_scalar]. Qed.

Lemma request_id_ok rid :
  (∀ r, rid = Some r → Forall ascii r) → value_text scalar (str_or_none rid) ∧ plain (str_or_none rid).
Proof using Type.
  destruct rid as [r|]; intros Hr; [|done]. specialize (Hr r eq_refl). cbn.
  split; [|by apply plain_ascii]. eapply Forall_impl; [exact Hr|apply ascii_scalar].
Qed.

Lemma error_conveys rid code message :
  (∀ r, rid = Some r → Forall ascii r) → Forall scalar code → Forall scalar message →
  ∃ b, conveys (error_response rid code message) b.
Proof using Type.
  intros [Hr Hr']%request_id_ok Hc Hm. apply conveys_of; unfold error_response.
  - cbn [value_text]. split_and!; try done; by apply literal_ok.
  - cbn [plain]. split_and!; try done; try (by apply literal_ok); try (by apply plain_scalar);
      by apply (bool_decide_unpack _).
Qed.

Lemma health_conveys rid s :
  (∀ r, rid = Some r → Forall ascii r) → verifier_ok (verifier s) → len (tickets (issuer s)) < 2 ^ 64 →
  ∃ b, conveys [(u "ok", VBool true); (u "request_id", str_or_none rid); (u "result", VDict (health_report s))] b.
Proof using Type.
  intros [Hr Hr']%request_id_ok Hv Ht.
  assert (value_text scalar (VInt (pending_count (verifier s))) ∧ value_text scalar (VInt (pending_tickets (issuer s)))) as [H1 H2].
  { pose proof (len_nonneg (tickets (issuer s))). pose proof (len_nonneg (pending (verifier s))). destruct Hv as [_ _ Hp _ _ _].
    split; apply small_len; unfold pending_tickets, pending_count; [|lia]. unfold MAX_PENDING_CHALLENGES in *. lia. }
  apply conveys_of.
  - cbn [value_text]. split_and!; try done; try (by apply literal_ok). unfold health_report.
    cbn [value_text] in *. split_and!; try done; try (by apply literal_ok).
  - cbn [plain]. unfold health_report. cbn [plain]. split_and!; try done; try (by apply literal_ok);
      by apply (bool_decide_unpack _).
Qed.

(** While the switch is off, the broker answers every sequence of bytes
    with one JSON document that decodes to its answer, and nothing it is sent
    changes a challenge, a ticket or a pairing: the answer is the health
    report, which says the switch is off, or an error. *)
Theorem broker_inert env raw s (Hv : verifier_ok (verifier s)) (Ht : len (tickets (issuer s)) < 2 ^ 64) :
  ∃ o b, handle_bytes env raw s = (s, Ok b) ∧ conveys o b ∧ inert_answer s o.
Proof using Type.
  assert (∀ msg, forallb is_scalar msg = true → ∃ o b, invalid_request msg s = (s, Ok b) ∧ conveys o b ∧ inert_answer s o)
    as Hinvalid.
  { intros msg Hmsg. destruct (error_conveys None (u "invalid_request") msg) as [b Hb]; [done|by apply literal_ok..|].
    eexists _, b. split; [|split; [exact Hb|]].
    - unfold invalid_request, lift. by destruct Hb as [-> _].
    - apply inert_error. set_solver. }
  unfold Broker.handle_bytes, handle_bytes_with, UNLOCK_ENABLED.
  destruct (MAX_MESSAGE_BYTES <? len raw); [by apply Hinvalid|].
  assert (raises_only (λ e, caught e [UnicodeDecodeError; JSONDecodeError; ValueError] = true)
    (loads_utf8 _reject_duplicate_fields raw)) as Hl.
  { unfold loads_utf8. destruct (utf8_decode raw); [|by intros e [= <-]]. apply loads_raises; [done..|].
    intros pairs e He. by apply reject_duplicates_raises in He as ->. }
  destruct (loads_utf8 _reject_duplicate_fields raw) as [request|e]; [|rewrite (Hl e eq_refl); by apply Hinvalid].
  clear Hl Hinvalid. destruct (request_inert env request s) as (r & Hrun & Hcase).
  pose proof (request_id_ascii request) as Hid. destruct Hcase as [->|(e & -> & He)].
  - destruct (health_conveys (request_id_of request) s Hid Hv Ht) as [b Hb]. eexists _, b. split; [|split; [exact Hb|apply inert_health]].
    erewrite bind_ok by (unfold Broker.handle_request; by rewrite Hrun). unfold lift. by destruct Hb as [-> _].
  - destruct (error_code_inert e He) as (Hc & Hs & Hm). destruct (error_conveys (request_id_of request) _ _ Hid Hs Hm) as [b Hb].
    eexists _, b. split; [|split; [exact Hb|by apply inert_error]].
    erewrite bind_ok by (unfold Broker.handle_request; by rewrite Hrun). unfold lift. by destruct Hb as [-> _].
Qed.

(** *** With the switch on *)

(** The verifier accepted a signed response in this very call, and the ticket
    is the one issued for that authorization. *)
Definition granted (env : broker_env) s (t : IssuedTicket) : Prop :=
  ∃ response v a, verify_response clock_skew_seconds response (b_verify env) (verifier s) = (v, Ok a) ∧
    auth_operation a = UNLOCK_OPERATION ∧ ticket_device_id t = auth_device_id a ∧
    ticket_expires_at t <= auth_expires_at a ∧ ticket_ok t.

(** A ticket that was not there before the run was granted by it. *)
Definition grants (enabled : bool) (env : broker_env) s0 s : Prop :=
  broker_ok s ∧ ∀ k t, (k, t) ∈ tickets (issuer s) → (k, t) ∈ tickets (issuer s0) ∨ (enabled = true ∧ granted env s0 t).
Abbreviation granting enabled env m := (∀ s, broker_ok s → wp m (λ _, grants enabled env s) s).

Lemma grants_refl enabled env s : broker_ok s → grants enabled env s s.
Proof using Type. split; auto. Qed.

Lemma granting_lift {T U} enabled env (r : result T) (k : T → M (broker_state PK) U) :
  (∀ x, r = Ok x → granting enabled env (k x)) → granting enabled env (lift r ≫= k).
Proof using Type.
  intros Hk s Hs. apply wp_bind, wp_lift. destruct r as [x|e]; [by apply Hk|by apply grants_refl].
Qed.

Lemma create_grants enabled env c d ttl k :
  (∀ x, ∃ o : object, k x = mret o) →
  granting enabled env (on_verifier (create_challenge c d ttl UNLOCK_OPERATION) ≫= k).
Proof using Type.
  intros Hk s [Hv Ht]. apply wp_bind, wp_zoom. pose proof (keeps_create_challenge c d ttl UNLOCK_OPERATION (verifier s) Hv) as Hc.
  unfold wp in Hc. destruct (create_challenge _ _ _ _ _) as [v [x|e]]; cbn in *; [|by split; [|auto]].
  destruct (Hk x) as [o ->]. apply wp_ret. by split; [|auto].
Qed.

Lemma submit_grants env response k :
  (∀ x, ∃ o : object, k x = mret o) →
  granting true env (on_verifier (verify_response clock_skew_seconds response (b_verify env)) ≫= λ a,
    on_issuer (issue a TICKET_TTL_SECONDS (b_ticket env) (b_token env)) ≫= k).
Proof using Type.
  intros Hk s [Hv Ht]. apply wp_bind, wp_zoom.
  pose proof (keeps_verify clock_skew_seconds response (b_verify env) (verifier s) Hv) as Hc. unfold wp in Hc.
  destruct (verify_response _ _ _ _) as [v [a|e]] eqn:Ev; cbn [fst snd] in *; [|by split; [|auto]].
  apply wp_bind, wp_zoom. cbn [issuer verifier].
  destruct (issue a TICKET_TTL_SECONDS (b_ticket env) (b_token env) (issuer s)) as [t' r] eqn:Ei.
  assert (grants true env s (mkBroker v t')) as Hg.
  { split.
    - split; [done|]. by destruct (issue_keeps _ _ _ _ _ _ _ [] (mkTicket [] [] [] 0 0) Ht Ei).
    - intros i q Hin. pose proof (issue_run _ _ _ _ _ _ _ Ht Ei) as Hr.
      destruct (issue_keeps _ _ _ _ _ _ _ i q Ht Ei) as [_ Hk']. destruct (Hk' Hin) as [?|[_ ->]]; [by left|right].
      destruct Hr as (? & ? & _ & ? & _ & ? & _). split; [done|]. by exists response, v, a. }
  cbn [fst snd]. destruct r as [x|e]; [|done]. destruct (Hk x) as [o ->]. by apply wp_ret.
Qed.

Lemma consume_grants enabled env tk op n k :
  (∀ x, ∃ o : object, k x = mret o) → granting enabled env (on_issuer (consume tk op n) ≫= k).
Proof using Type.
  intros Hk s [Hv Ht]. apply wp_bind, wp_zoom. destruct (consume tk op n (issuer s)) as [t' r] eqn:Ec. cbn [fst snd].
  assert (grants enabled env s (mkBroker (verifier s) t')) as Hg.
  { split; [split; [done|]|].
    - by destruct (consume_keeps _ _ _ _ _ _ [] (mkTicket [] [] [] 0 0) Ht Ec).
    - intros i q Hin. left. destruct (consume_keeps _ _ _ _ _ _ i q Ht Ec) as [_ Hkeep]. by apply Hkeep. }
  destruct r as [x|e]; [|done]. destruct (Hk x) as [o ->]. by apply wp_ret.
Qed.

Lemma dispatch_grants enabled env command payload : granting enabled env (_dispatch clock_skew_seconds enabled env command payload).
Proof using Type.
  assert (∀ T (k : unit → M (broker_state PK) T), (enabled = true → granting enabled env (k tt)) →
    granting enabled env (require_unlock_enabled enabled ≫= k)) as Hguard.
  { intros T k Hk. apply granting_lift. intros [] Hen. apply Hk. unfold ensure in Hen. by destruct enabled. }
  unfold _dispatch. repeat case_match.
  - unfold on_health. apply granting_lift. intros ? _ s Hs. by apply grants_refl.
  - unfold on_challenge_create. do 3 (apply granting_lift; intros ? _). apply Hguard. intros _. apply create_grants. eauto.
  - unfold on_challenge_submit. do 2 (apply granting_lift; intros ? _). apply Hguard. intros ->. apply submit_grants. eauto.
  - unfold on_ticket_consume. do 2 (apply granting_lift; intros ? _). apply Hguard. intros _. apply consume_grants. eauto.
  - intros s Hs. by apply grants_refl.
Qed.

Lemma handle_grants enabled env request s : broker_ok s →
  ∃ s' o, handle_request enabled env request s = (s', Ok o) ∧ broker_ok s' ∧
    ∀ k t, (k, t) ∈ tickets (issuer s') → (k, t) ∈ tickets (issuer s) ∨ (enabled = true ∧ granted env s t).
Proof using Type.
  intros Hs. assert (granting enabled env (run_request enabled env request)) as Hrun.
  { unfold Broker.run_request. destruct request; try (intros ? ?; by apply grants_refl).
    do 5 (apply granting_lift; intros ? _). apply dispatch_grants. }
  specialize (Hrun s Hs). unfold wp in Hrun. unfold Broker.handle_request.
  destruct (run_request enabled env request s) as [s' [o|e]]; destruct Hrun as [Hok Hg]; eauto.
Qed.

(** C33: whatever the switch says, a request is always answered and keeps the
    tables sound; a ticket appears only with the switch on and only when the
    verifier accepted a signed response in that request, for its device. *)
Theorem broker_grants enabled env request s (Hs : broker_ok s) :
  ∃ s' o, handle_request enabled env request s = (s', Ok o) ∧ broker_ok s' ∧
    ∀ k t, (k, t) ∈ tickets (issuer s') → (k, t) ∈ tickets (issuer s) ∨ (enabled = true ∧ granted env s t).
Proof using Type. by apply handle_grants. Qed.
End Facts.

(** ** A paired device and a local client *)

Definition sample_broker_env (t : Z) : broker_env :=
  {| b_challenge := sample_challenge_env 1 t; b_verify := t; b_ticket := t; b_token := u "t1" |}.
Definition sample_broker : broker_state bool := mkBroker paired_state new_issuer.
Definition health_request : bytes :=
  [123; 34] ++ u "version" ++ [34; 58; 49; 44; 34] ++ u "request_id" ++ [34; 58; 34] ++ u "r1" ++ [34; 44; 34] ++
  u "command" ++ [34; 58; 34] ++ u "health" ++ [34; 125].

Lemma sample_broker_ok : broker_ok sample_broker.
Proof. split; [apply verifier_ok_empty|apply new_issuer_ok]. Qed.

Lemma broker_inert_witness :
  is_ok (loads_utf8 _reject_duplicate_fields health_request) = true ∧
  ∃ o b, handle_bytes 5 (sample_broker_env 1000) health_request sample_broker = (sample_broker, Ok b) ∧ conveys o b ∧
    inert_answer sample_broker o.
Proof.
  split; [by vm_compute|].
  apply (broker_inert 5 (sample_broker_env 1000) health_request sample_broker (proj1 sample_broker_ok)). by vm_compute.
Defined.

(** With the switch on, the device asks for a challenge and signs it. *)
Definition broker_request (command : pystr) (payload : object) : value :=
  VDict [(u "version", VInt 1); (u "request_id", VStr (u "r1")); (u "command", VStr command); (u "payload", VDict payload)].
Definition create_request : value := broker_request (u "challenge.create") [(u "device_id", VStr (u "esp32"))].
Definition sample_unlock : Challenge := new_challenge (sample_challenge_env 1 1000) (u "esp32") 30 UNLOCK_OPERATION.
Definition submit_request : value :=
  let r := ok_or (mkSigned [] [] []) (create_signed_response sample_unlock true) in
  broker_request (u "challenge.submit")
    [(u "response", VDict [(u "challenge_id", VStr (signed_challenge_id r)); (u "device_id", VStr (signed_device_id r));
                           (u "signature", VStr (signature r))])].
Definition broker1 : broker_state bool := (handle_request 5 true (sample_broker_env 1000) create_request sample_broker).1.
Definition broker2 : broker_state bool := (handle_request 5 true (sample_broker_env 1002) submit_request broker1).1.

Lemma broker1_ok : broker_ok broker1.
Proof.
  destruct (handle_grants 5 true (sample_broker_env 1000) create_request sample_broker sample_broker_ok)
    as (s' & o & Hrun & Hok & _).
  unfold broker1. by rewrite Hrun.
Qed.

Lemma broker_grants_witness :
  len (tickets (issuer broker2)) = 1 ∧
  ∃ s' o, handle_request 5 true (sample_broker_env 1002) submit_request broker1 = (s', Ok o) ∧ broker_ok s' ∧
    ∀ k t, (k, t) ∈ tickets (issuer s') →
      (k, t) ∈ tickets (issuer broker1) ∨ (true = true ∧ granted 5 (sample_broker_env 1002) broker1 t).
Proof.
  split; [by vm_compute|].
  exact (broker_grants 5 true (sample_broker_env 1002) submit_request broker1 broker1_ok).
Defined.
