(* ===== verification/SerialGateway.v ===== *)
(** * The USB serial transport: [windows-agent/pipa_serial_gateway.py]

    [SerialGateway._serve_connection] reads newline-delimited JSON from one
    port and drives one [AuthenticatedConnection].  A run is a list of reads:
    what [read_until] returned and what the connection read from the clock and
    drew meanwhile; it ends with the list (the stop flag), or when the loop
    breaks.  Writes are collected in order. *)
From S2P Require Import Prelude Dict Value Effects Json JsonParse Protocol Wire Sessions Confirmations Tools Challenge.
From S2P Require Import PyStr Captions Core CoreFacts Gate Connection.

Definition MAX_LINE_BYTES : Z := 12000.
Definition MAX_PROTOCOL_ERRORS : Z := 5.

(** [not raw or raw.startswith(b"#")] *)
Definition skipped (raw : bytes) : bool := match raw with [] => true | c :: _ => c =? 35 end.

(** One turn of the loop: the clock reading of [protocol.idle()], what the
    connection reads and draws, and the bytes of [read_until]. *)
Record reading := { r_idle : Z; r_env : conn_env; r_raw : bytes }.

Section Serial.
Context {W V : Type} `{I : VerifierI V} `{UnicodeData} `{IntentParser}.
Context (ttl_seconds : Z) (catalog : dict pystr (ToolDefinition W)).
Context (command_catalog capability_catalog : option (W → result value)).
Context (command_catalog_authoritative : bool).
(** Clock ticks in one second. *)
Context (second : Z).

Record serial := mkSerial {
  link : connection * core_state W V;
  line_errors : Z;
  sent_lines : list bytes
}.
Definition on_link {A} (m : M (connection * core_state W V) A) : M serial A :=
  zoom link (λ l s, mkSerial l (line_errors s) (sent_lines s)) m.
Definition set_errors (f : Z → Z) : M serial unit :=
  modify (λ s, mkSerial (link s) (f (line_errors s)) (sent_lines s)).
(** [connection.write(encoded)] *)
Definition write (b : bytes) : M serial unit :=
  modify (λ s, mkSerial (link s) (line_errors s) (sent_lines s ++ [b])).

Definition encode_line (payload : object) : result bytes :=
  b ← dump_bytes false true (VDict payload); Ok (b ++ [10]).

Definition _send (payload : object) : M serial unit :=
  lift (encode_line payload) ≫= λ encoded,
  if MAX_LINE_BYTES <? len encoded then
    lift (r ← bare_error "response_too_large"; encode_line r) ≫= write
  else write encoded.

(** The [try] statement of the loop. *)
Definition process_line (env : conn_env) (raw : bytes) : M serial ConnectionResult :=
  try_with
    (lift (parse_json_object (RawBytes raw)) ≫= λ payload,
     lift (parse_client_message (VDict payload)) ≫= λ m,
     on_link (process ttl_seconds catalog command_catalog capability_catalog command_catalog_authoritative
                second env m) ≫= λ result,
     set_errors (λ _, 0) ≫= λ _, mret result)
    (λ e,
     if is_a e ProtocolError then
       set_errors (Z.add 1) ≫= λ _,
       lift (bare_error "protocol_error") ≫= λ r,
       gets (λ s, mkResult [r] (MAX_PROTOCOL_ERRORS <=? line_errors s))
     else lift (bare_error "internal_error") ≫= λ r, mret (mkResult [r] true)).

(** The body of the loop after the read; [true] leaves the loop. *)
Definition serve_raw (env : conn_env) (raw : bytes) : M serial bool :=
  if skipped raw then mret false
  else if MAX_LINE_BYTES <? len raw then
    (lift (bare_error "message_too_large") ≫= _send) ≫= λ _,
    set_errors (Z.add 1) ≫= λ _,
    gets (λ s, MAX_PROTOCOL_ERRORS <=? line_errors s)
  else
    process_line env raw ≫= λ result,
    for_each _send (responses result) ≫= λ _,
    mret (wants_close result).

Fixpoint serve_loop (readings : list reading) : M serial unit :=
  match readings with
  | [] => mret tt
  | r :: rest =>
    gets (λ s, idle second (r_idle r) (link s).1) ≫= λ over,
    if over : bool then mret tt
    else
      serve_raw (r_env r) (r_raw r) ≫= λ stop,
      if stop : bool then mret tt else serve_loop rest
  end.

(** [AuthenticatedConnection(self.core)], opened at clock reading [t0]. *)
Definition new_serial (t0 : Z) (σ : core_state W V) : serial := mkSerial (new_connection t0, σ) 0 [].

(** [try: loop / except Exception: log / finally: protocol.close()] *)
Definition _serve_connection (readings : list reading) : M serial unit :=
  try_with (serve_loop readings) (λ _, mret tt) ≫= λ _, on_link Connection.close.
End Serial.
Arguments serial W V : clear implicits.

Section Facts.
Context {W V : Type} `{I : VerifierI V} {HI : VerifierLaws I} `{UnicodeData} `{IntentParser}.
Context (ttl_seconds : Z) (catalog : dict pystr (ToolDefinition W)).
Context (command_catalog capability_catalog : option (W → result value)).
Context (command_catalog_authoritative : bool) (second : Z).
Implicit Types (s : serial W V).

Abbreviation process := (process ttl_seconds catalog command_catalog capability_catalog
  command_catalog_authoritative second).
Abbreviation process_line := (process_line ttl_seconds catalog command_catalog capability_catalog
  command_catalog_authoritative second).
Abbreviation serve_raw := (serve_raw ttl_seconds catalog command_catalog capability_catalog
  command_catalog_authoritative second).
Abbreviation serve_loop := (serve_loop ttl_seconds catalog command_catalog capability_catalog
  command_catalog_authoritative second).
Abbreviation _serve_connection := (_serve_connection ttl_seconds catalog command_catalog capability_catalog
  command_catalog_authoritative second).
Abbreviation pendings σ := (Tools.pending (router σ)).

(** A written line ends in a newline and is at most 12000 bytes long. *)
Definition line_ok (b : bytes) : Prop := len b <= MAX_LINE_BYTES ∧ ∃ b', b = b' ++ [10].

Record serial_ok s : Prop := {
  so_core : core_ok (link s).2;
  so_session : conn_session (link s).1 ≠ Some [];
  so_errors : 0 <= line_errors s <= MAX_PROTOCOL_ERRORS;
  so_lines : Forall line_ok (sent_lines s)
}.

(** [s'] is [s] with more lines written. *)
Definition wrote s s' : Prop :=
  link s' = link s ∧ line_errors s' = line_errors s ∧ ∃ ls, sent_lines s' = sent_lines s ++ ls ∧ Forall line_ok ls.

Lemma wrote_refl s : wrote s s.
Proof. split_and!; [done|done|]. exists []. by rewrite app_nil_r. Qed.
Lemma wrote_trans s1 s2 s3 : wrote s1 s2 → wrote s2 s3 → wrote s1 s3.
Proof.
  intros (H1 & H2 & ls & H3 & H4) (K1 & K2 & ks & K3 & K4). split_and!; [congruence|congruence|].
  exists (ls ++ ks). rewrite K3, H3, app_assoc. split; [done|]. by apply Forall_app.
Qed.
Lemma wrote_ok s s' : wrote s s' → serial_ok s → serial_ok s'.
Proof.
  intros (H1 & H2 & ls & H3 & H4) [? ? ? ?]. split; rewrite ?H1, ?H2, ?H3; try done. by apply Forall_app.
Qed.

Definition too_large_line : bytes := ok_or [] (r ← bare_error "response_too_large"; encode_line r).
Lemma too_large_ok : (r ← bare_error "response_too_large"; encode_line r) = Ok too_large_line ∧ line_ok too_large_line.
Proof.
  split; [by vm_compute|]. split; [by vm_compute|]. eexists (removelast too_large_line). by vm_compute.
Qed.

Lemma send_run p s : ∃ s' r, _send p s = (s', r) ∧ wrote s s'.
Proof.
  unfold _send. destruct (encode_line p) as [b|e] eqn:Eb.
  2:{ exists s, (Raise e). split; [by erewrite bind_raise by done|apply wrote_refl]. }
  erewrite bind_ok by done. destruct (MAX_LINE_BYTES <? len b) eqn:El.
  - rewrite (proj1 too_large_ok). erewrite bind_ok by done. eexists _, _. split; [done|].
    split_and!; [done|done|]. exists [too_large_line]. split; [done|]. apply Forall_singleton, too_large_ok.
  - eexists _, _. split; [done|]. split_and!; [done|done|]. exists [b]. split; [done|]. apply Forall_singleton.
    reflect. split; [done|]. unfold encode_line, mbind, result_bind in Eb. destruct (dump_bytes _ _ _); [|done].
    injection Eb as <-. by eexists.
Qed.

Lemma send_all_run l s : ∃ s' r, for_each _send l s = (s', r) ∧ wrote s s'.
Proof.
  revert s. induction l as [|p l IH]; intros s; cbn [for_each]; [eexists _, _; split; [done|apply wrote_refl]|].
  destruct (send_run p s) as (s1 & [[]|e] & Hrun & Hw).
  - destruct (IH s1) as (s2 & r & Hrest & Hw2). exists s2, r. split; [by erewrite bind_ok by exact Hrun|].
    by eapply wrote_trans.
  - exists s1, (Raise e). split; [by erewrite bind_raise by exact Hrun|done].
Qed.

Lemma bare_error_sent code : bare_error code = Ok (ok_or [] (bare_error code)).
Proof. destruct (sends_bare_error code) as (o & -> & _). done. Qed.

(** One line, whatever its bytes: an answer, never an exception. *)
Lemma process_line_run env raw s :
  core_ok (link s).2 → conn_session (link s).1 ≠ Some [] → 0 <= line_errors s →
  provider_ok command_catalog (the_world (link s).2) → fresh_session (session_token (core_readings env)) (link s).2 →
  ∃ s' r, process_line env raw s = (s', Ok r) ∧ core_ok (link s').2 ∧ conn_session (link s').1 ≠ Some [] ∧
    sent_lines s' = sent_lines s ∧
    (line_errors s' = 0 ∨ line_errors s' = line_errors s ∧ wants_close r = true ∨
     line_errors s' = line_errors s + 1 ∧ wants_close r = (MAX_PROTOCOL_ERRORS <=? line_errors s + 1)).
Proof using HI.
  intros Hok Hne Hn Hprov Hfresh. unfold SerialGateway.process_line.
  destruct s as [[c σ] n ls]. cbn [link line_errors sent_lines fst snd] in *. set (s := mkSerial (c, σ) n ls).
  assert (∀ m e, m s = (s, Raise e) → e = ProtocolError ∨ e = ValueError →
    ∃ s' r, try_with m (λ e, if is_a e ProtocolError then
         set_errors (Z.add 1) ≫= λ _, lift (bare_error "protocol_error") ≫= λ r,
         gets (λ s : serial W V, mkResult [r] (MAX_PROTOCOL_ERRORS <=? line_errors s))
       else lift (bare_error "internal_error") ≫= λ r, mret (mkResult [r] true)) s = (s', Ok r) ∧
      core_ok (link s').2 ∧ conn_session (link s').1 ≠ Some [] ∧ sent_lines s' = ls ∧
      (line_errors s' = 0 ∨ line_errors s' = n ∧ wants_close r = true ∨
       line_errors s' = n + 1 ∧ wants_close r = (MAX_PROTOCOL_ERRORS <=? n + 1))) as Hbad.
  { intros m e Hm He. rewrite (try_raise _ _ _ _ _ Hm). destruct He as [->| ->]; cbn [is_a].
    - change (is_a ProtocolError ProtocolError) with true. cbn iota. erewrite bind_ok by done.
      rewrite bare_error_sent. erewrite bind_ok by done. eexists _, _. split; [done|]. cbn. split_and!; [done..|].
      right. right. split; [lia|]. by rewrite (Z.add_comm 1 n).
    - change (is_a ValueError ProtocolError) with false. cbn iota. rewrite bare_error_sent. erewrite bind_ok by done.
      eexists _, _. split; [done|]. cbn. split_and!; [done..|]. right. by left. }
  destruct (parse_json_object (RawBytes raw)) as [d|e] eqn:Ed.
  2:{ apply (Hbad _ e); [by erewrite bind_raise by done|]. by apply parse_json_object_raises in Ed. }
  destruct (parse_client_message (VDict d)) as [m|e] eqn:Em.
  2:{ apply (Hbad _ e); [erewrite bind_ok by done; by erewrite bind_raise by (unfold lift; by rewrite Em)|].
      left. by eapply parse_client_message_raises. }
  destruct (process_sound ttl_seconds catalog command_catalog capability_catalog command_catalog_authoritative second
    env (VDict d) m c σ Hok Hne Em Hprov Hfresh) as (c' & σ' & r & Hrun & _ & Hok' & Hne').
  exists (mkSerial (c', σ') 0 ls), r. split; [|cbn; by auto].
  apply try_ok. erewrite bind_ok by done. erewrite bind_ok by (unfold lift; by rewrite Em).
  erewrite bind_ok by (unfold on_link; exact (zoom_run _ _ _ s _ _ Hrun)). by erewrite bind_ok by done.
Qed.

Lemma serve_raw_run env raw s :
  serial_ok s → line_errors s < MAX_PROTOCOL_ERRORS →
  provider_ok command_catalog (the_world (link s).2) → fresh_session (session_token (core_readings env)) (link s).2 →
  ∃ s' r, serve_raw env raw s = (s', r) ∧ serial_ok s' ∧ (r = Ok false → line_errors s' < MAX_PROTOCOL_ERRORS).
Proof using HI.
  intros Hs Hlt Hprov Hfresh. unfold SerialGateway.serve_raw.
  assert (∃ s' r, (if MAX_LINE_BYTES <? len raw then
      (lift (bare_error "message_too_large") ≫= _send) ≫= λ _, set_errors (Z.add 1) ≫= λ _,
      gets (λ s : serial W V, MAX_PROTOCOL_ERRORS <=? line_errors s)
    else process_line env raw ≫= λ result, for_each _send (responses result) ≫= λ _, mret (wants_close result)) s
    = (s', r) ∧ serial_ok s' ∧ (r = Ok false → line_errors s' < MAX_PROTOCOL_ERRORS)) as Hbody.
  { destruct (MAX_LINE_BYTES <? len raw) eqn:Hl.
    - rewrite bare_error_sent. destruct (send_run (ok_or [] (bare_error "message_too_large")) s) as (s1 & r & Hrun & Hw).
      pose proof (wrote_ok _ _ Hw Hs) as Hs1. destruct Hw as (_ & Hn & _). destruct r as [[]|e].
      + erewrite bind_ok by (erewrite bind_ok by done; exact Hrun). erewrite bind_ok by done. eexists _, _. split; [done|].
        split; [|intros [= Hlt']; cbn in *; by reflect].
        destruct Hs1 as [? ? He ?]. split; cbn; try done. rewrite Hn in *. unfold MAX_PROTOCOL_ERRORS in *. lia.
      + erewrite bind_raise by (erewrite bind_ok by done; exact Hrun). eexists _, _. split; [done|]. by split.
    - pose proof Hs as [Hc Hne He Hls].
      destruct (process_line_run env raw s) as (s1 & r & Hrun & Hc1 & Hne1 & Hsent & Herr); [done..|lia|done|done|].
      assert (serial_ok s1 ∧ (wants_close r = false → line_errors s1 < MAX_PROTOCOL_ERRORS)) as [Hs1 Hb].
      { destruct Herr as [Herr|[[Herr Hcl]|[Herr Hcl]]].
        - split; [split; rewrite ?Herr, ?Hsent; try done|]; unfold MAX_PROTOCOL_ERRORS in *; lia.
        - split; [split; rewrite ?Herr, ?Hsent; done|]. by rewrite Hcl.
        - split; [split; rewrite ?Herr, ?Hsent; try done; unfold MAX_PROTOCOL_ERRORS in *; lia|]. rewrite Hcl, Herr.
          intros ?. reflect. done. }
      erewrite bind_ok by exact Hrun. destruct (send_all_run (responses r) s1) as (s2 & r2 & Hrun2 & Hw).
      pose proof (wrote_ok _ _ Hw Hs1) as Hs2. destruct Hw as (_ & Hn & _). destruct r2 as [[]|e].
      + erewrite bind_ok by exact Hrun2. eexists s2, _. split; [done|]. split; [done|]. intros [= Hcl]. rewrite Hn. by apply Hb.
      + erewrite bind_raise by exact Hrun2. eexists s2, _. split; [done|]. by split. }
  destruct (skipped raw); [eexists s, _; by split_and!|exact Hbody].
Qed.

(** Along a run, session identifiers are drawn fresh. *)
Fixpoint fresh_run (readings : list reading) s : Prop :=
  match readings with
  | [] => True
  | r :: rest =>
    fresh_session (session_token (core_readings (r_env r))) (link s).2 ∧
    ∀ s', serve_raw (r_env r) (r_raw r) s = (s', Ok false) → fresh_run rest s'
  end.

Lemma serve_loop_run readings s :
  serial_ok s → line_errors s < MAX_PROTOCOL_ERRORS → (∀ w, provider_ok command_catalog w) → fresh_run readings s →
  ∃ s' r, serve_loop readings s = (s', r) ∧ serial_ok s'.
Proof using HI.
  intros Hs Hlt Hprov. revert s Hs Hlt. induction readings as [|r rest IH]; intros s Hs Hlt Hfresh; cbn [SerialGateway.serve_loop].
  { by eexists _, _. }
  destruct Hfresh as [Hf Hrest]. erewrite bind_ok by done. destruct (idle _ _ _); [by eexists _, _|].
  destruct (serve_raw_run (r_env r) (r_raw r) s Hs Hlt (Hprov _) Hf) as (s1 & out & Hrun & Hs1 & Hb).
  destruct out as [stop|e]; [|eexists _, _; split; [by erewrite bind_raise by exact Hrun|done]].
  erewrite bind_ok by exact Hrun. destruct stop; [by eexists _, _|]. by apply IH; [| |apply Hrest]; auto.
Qed.

(** The connection hung up, and nothing more was written. *)
Definition hung_up s s' : Prop := ended (link s) (link s') ∧ sent_lines s' = sent_lines s.

Lemma hang_up_run s :
  serial_ok s → ∃ s', on_link Connection.close s = (s', Ok tt) ∧ serial_ok s' ∧ hung_up s s'.
Proof using Type.
  intros Hs. destruct s as [[c σ] n ls]. pose proof Hs as [Hc Hne He Hls]. cbn [link fst snd] in *.
  destruct (close_ends c σ Hc Hne) as (l' & Hrun & Hok & Hend). exists (mkSerial l' n ls).
  split_and!; [exact (zoom_run link _ _ (mkSerial (c, σ) n ls) _ _ Hrun)| |by split].
  split; cbn; [done| |done|done]. by rewrite (proj1 Hend).
Qed.

(** Whatever bytes a serial device sends, serving it ends without an
    exception and leaves the Core sound: after at most five protocol errors in
    a row the loop stops, every line written is one of at most 12000 bytes, and
    in the end the device's session is gone with its pending confirmations. *)
Theorem serial_connection_served readings t0 σ (Hok : core_ok σ) (Hprov : ∀ w, provider_ok command_catalog w)
    (Hfresh : fresh_run readings (new_serial t0 σ)) :
  ∃ s1 out s', serve_loop readings (new_serial t0 σ) = (s1, out) ∧
    _serve_connection readings (new_serial t0 σ) = (s', Ok tt) ∧
    serial_ok s' ∧ hung_up s1 s'.
Proof using HI.
  assert (serial_ok (new_serial t0 σ)) as Hs by by split.
  destruct (serve_loop_run readings _ Hs ltac:(done) Hprov Hfresh) as (s1 & out & Hrun & Hs1).
  destruct (hang_up_run s1 Hs1) as (s' & Hclose & Hs' & Hup). exists s1, out, s'.
  split_and!; [done| |done|done]. unfold SerialGateway._serve_connection.
  destruct out as [[]|e]; [erewrite bind_ok by by apply try_ok|erewrite bind_ok by by rewrite (try_raise _ _ _ _ _ Hrun)]; done.
Qed.
End Facts.

(** ** A device that logs in over the port, and a noisy one *)

#[local] Strategy 1000 [process handle].
#[local] Opaque process.

Definition line_of (v : value) : bytes := ok_or [] (dump_bytes false true v) ++ [10].
Definition reading_at (t : Z) (raw : bytes) : reading := {| r_idle := t; r_env := sample_conn_env t; r_raw := raw |}.
Definition login_readings : list reading := [reading_at 1005 (line_of hello_message)].
Definition noisy_readings : list reading :=
  [reading_at 1000 (u "# boot"); reading_at 1000 (u "{"); reading_at 1001 []; reading_at 1001 (repeat 65 (Z.to_nat 12001));
   reading_at 1002 (u "[]"); reading_at 1003 (u "{}"); reading_at 1004 (u "null"); reading_at 1005 (line_of hello_message)].
Abbreviation sample_loop := (serve_loop (I := verifier_interface 5) 60 sample_catalog None None false 1).

(** The fifth error in a row ends the loop before the login is read. *)
Example noise_stops_loop :
  len (sent_lines (sample_loop noisy_readings (new_serial 999 core1)).1) = 5 ∧
  conn_session (link (sample_loop noisy_readings (new_serial 999 core1)).1).1 = None ∧
  conn_session (link (sample_loop login_readings (new_serial 999 core1)).1).1 = Some (u "s").
Proof. vm_compute. split_and!; reflexivity. Qed.

Lemma login_fresh : fresh_run (I := verifier_interface 5) 60 sample_catalog None None false 1 login_readings (new_serial 999 core1).
Proof. split; [exact sample_fresh|]. done. Qed.

Lemma serial_connection_served_witness :
  ∃ s1 out s', sample_loop login_readings (new_serial 999 core1) = (s1, out) ∧
    _serve_connection (I := verifier_interface 5) 60 sample_catalog None None false 1 login_readings (new_serial 999 core1) = (s', Ok tt) ∧
    serial_ok (I := verifier_interface 5) s' ∧ hung_up s1 s'.
Proof.
  exact (serial_connection_served (I := verifier_interface 5) 60 sample_catalog None None false 1 login_readings 999 core1
    core1_ok (λ _, Logic.I) login_fresh).
Defined.
