(* ===== verification/WebSocket.v ===== *)
(** * The local WebSocket: [api_pipa_websocket] of [windows-agent/main.py]

    The route accepts a connection from this computer only, drives one
    [AuthenticatedConnection] with the text frames it receives and closes the
    connection on every way out.  What the framework's socket does is read from
    a script: the result of each [receive_text] within its time limit, and of
    each [accept], [send_json] and [close].  The route runs beside the others
    on one event loop: the Core may change at every [await], never in
    between. *)
From S2P Require Import Prelude Dict Value Effects Json JsonParse Protocol Wire Sessions Confirmations Tools Challenge.
From S2P Require Import PyStr Captions Core CoreFacts Gate Connection.

Definition MAX_WEBSOCKET_MESSAGE_BYTES : Z := 12000.
Definition MAX_PROTOCOL_ERRORS : Z := 5.

(** What the route hands to the socket. *)
Inductive frame := Accept | Sent (payload : object) | Closed (code : Z) (reason : literal).
Arguments Closed code reason%_string_scope.

Section Route.
Context {W V : Type} `{I : VerifierI V} `{UnicodeData} `{IntentParser}.
Context (ttl_seconds : Z) (catalog : dict pystr (ToolDefinition W)).
Context (command_catalog capability_catalog : option (W → result value)).
Context (command_catalog_authoritative : bool).
Context (second : Z).

(** One [await]: how it ends, and what the Core became meanwhile. *)
Record await_point := mkAwait { came_to : result unit; meanwhile : core_state W V → core_state W V }.

(** One turn of the loop: what [receive_text] gives within so many seconds and
    the Core by then, what the connection reads and draws, and the clock
    reading of [connection.idle()]. *)
Record turn := mkTurn {
  received : Z → result pystr; while_waiting : core_state W V → core_state W V; turn_env : conn_env; turn_idle : Z
}.

Record socket := mkSocket {
  link : connection * core_state W V;
  protocol_errors : Z;
  frames : list frame;
  awaits : list await_point   (* those to come; once exhausted, all succeed at once *)
}.
Definition on_link {A} (m : M (connection * core_state W V) A) : M socket A :=
  zoom link (λ l s, mkSocket l (protocol_errors s) (frames s) (awaits s)) m.
Definition others (f : core_state W V → core_state W V) : M socket unit := on_link (modify (λ l, (l.1, f l.2))).
Definition set_errors (f : Z → Z) : M socket unit :=
  modify (λ s, mkSocket (link s) (f (protocol_errors s)) (frames s) (awaits s)).

(** [await websocket.accept()], [.send_json(payload)], [.close(code, reason)] *)
Definition emit (f : frame) : M socket unit :=
  gets (λ s, default (mkAwait (Ok tt) id) (head (awaits s))) ≫= λ a,
  modify (λ s, mkSocket (link s) (protocol_errors s) (frames s) (tail (awaits s))) ≫= λ _,
  others (meanwhile a) ≫= λ _,
  lift (came_to a) ≫= λ _,
  modify (λ s, mkSocket (link s) (protocol_errors s) (frames s ++ [f]) (awaits s)).

(** How the [try] of the loop ends: a message, [continue] or [return]. *)
Inductive step := Message (m : client_message) | Continue | Return.

Definition close_and_return (code : Z) (reason : literal) : M socket step :=
  emit (Closed code reason) ≫= λ _, mret Return.
Arguments close_and_return code reason%_string_scope.

Definition await_text (t : turn) : M socket pystr :=
  gets (λ s, match conn_session (link s).1 with None => AUTHENTICATION_TIMEOUT_SECONDS | Some _ => SESSION_IDLE_SECONDS end)
  ≫= λ timeout,
  others (while_waiting t) ≫= λ _,
  lift (received t timeout).

(** [raw.encode("utf-8")] *)
Definition encoded (raw : pystr) : result bytes :=
  match utf8_encode raw with Some b => Ok b | None => Raise UnicodeEncodeError end.

Definition receive (t : turn) : M socket step :=
  try_with
    (await_text t ≫= λ raw,
     lift (encoded raw) ≫= λ b,
     if MAX_WEBSOCKET_MESSAGE_BYTES <? len b then close_and_return 1009 "message too large"
     else
       lift (parse_json_object (RawText raw)) ≫= λ payload,
       lift (parse_client_message (VDict payload)) ≫= λ m,
       mret (Message m))
    (λ e,
     if is_a e TimeoutError then close_and_return 1001 "connection timeout"
     else if is_a e ProtocolError then
       set_errors (Z.add 1) ≫= λ _,
       (lift (bare_error "protocol_error") ≫= λ r, emit (Sent r)) ≫= λ _,
       gets (λ s, MAX_PROTOCOL_ERRORS <=? protocol_errors s) ≫= λ over,
       if over : bool then close_and_return 1008 "too many protocol errors" else mret Continue
     else raise e).

(** The body of the loop; [true] leaves it. *)
Definition serve_turn (t : turn) : M socket bool :=
  receive t ≫= λ st,
  match st with
  | Return => mret true
  | Continue => mret false
  | Message m =>
    set_errors (λ _, 0) ≫= λ _,
    on_link (process ttl_seconds catalog command_catalog capability_catalog command_catalog_authoritative
               second (turn_env t) m) ≫= λ result,
    for_each (emit ∘ Sent) (responses result) ≫= λ _,
    if wants_close result then emit (Closed 1008 "authentication failed") ≫= λ _, mret true
    else
      gets (λ s, idle second (turn_idle t) (link s).1) ≫= λ over,
      if over : bool then emit (Closed 1001 "connection timeout") ≫= λ _, mret true else mret false
  end.

(** After its last turn the client is gone. *)
Fixpoint serve_turns (turns : list turn) : M socket unit :=
  match turns with
  | [] => raise WebSocketDisconnect
  | t :: rest => serve_turn t ≫= λ stop, if stop : bool then mret tt else serve_turns rest
  end.

(** [client_host] is the peer's address and [browser_origin] its [Origin]
    header, when there are. *)
Definition is_local (client_host browser_origin : option pystr) : bool :=
  match client_host with
  | Some h => one_of h ["127.0.0.1"; "::1"; "localhost"]%string
  | None => false
  end && match browser_origin with None => true | Some _ => false end.

(** The accepted part: the loop, [except WebSocketDisconnect: pass] and
    [finally: connection.close()]. *)
Definition converse (turns : list turn) : M socket unit :=
  finally
    (try_with (serve_turns turns) (λ e, if is_a e WebSocketDisconnect then mret tt else raise e))
    (on_link Connection.close).

Definition api_pipa_websocket (client_host browser_origin : option pystr) (turns : list turn) : M socket unit :=
  if negb (is_local client_host browser_origin) then
    emit (Closed 1008 "Pipa Core solo acepta conexiones locales por ahora")
  else emit Accept ≫= λ _, converse turns.

(** The route before it runs; [t0] is the clock reading of the connection's creation. *)
Definition new_socket (t0 : Z) (script : list await_point) (σ : core_state W V) : socket :=
  mkSocket (new_connection t0, σ) 0 [] script.
End Route.
Arguments socket W V : clear implicits.
Arguments turn W V : clear implicits.
Arguments await_point W V : clear implicits.

Section Facts.
Context {W V : Type} `{I : VerifierI V} {HI : VerifierLaws I} `{UnicodeData} `{IntentParser}.
Context (ttl_seconds : Z) (catalog : dict pystr (ToolDefinition W)).
Context (command_catalog capability_catalog : option (W → result value)).
Context (command_catalog_authoritative : bool) (second : Z).
Implicit Types (s : socket W V) (t : turn W V).

Abbreviation process := (process ttl_seconds catalog command_catalog capability_catalog
  command_catalog_authoritative second).
Abbreviation serve_turn := (serve_turn ttl_seconds catalog command_catalog capability_catalog
  command_catalog_authoritative second).
Abbreviation serve_turns := (serve_turns ttl_seconds catalog command_catalog capability_catalog
  command_catalog_authoritative second).
Abbreviation api_pipa_websocket := (api_pipa_websocket ttl_seconds catalog command_catalog capability_catalog
  command_catalog_authoritative second).

(** What the rest of the agent does keeps the Core sound, and [raised] are the
    exceptions of the socket. *)
Context (Hprov : ∀ w, provider_ok command_catalog w) (raised : exn → Prop).
Definition sound (f : core_state W V → core_state W V) : Prop := ∀ σ, core_ok σ → core_ok (f σ).
Definition await_ok (a : await_point W V) : Prop := sound (meanwhile a) ∧ ∀ e, came_to a = Raise e → raised e.
Definition turn_ok t : Prop := sound (while_waiting t) ∧ ∀ n e, received t n = Raise e → raised e.

(** The frames of an open conversation, and of one that was closed. *)
Definition talking (fs : list frame) : Prop := ∃ os, fs = Accept :: (Sent <$> os) ∧ Forall envelope_ok os.
Definition said_goodbye (fs : list frame) : Prop := ∃ fs' code reason, fs = fs' ++ [Closed code reason] ∧ talking fs'.

Record live s : Prop := {
  lv_core : core_ok (link s).2;
  lv_session : conn_session (link s).1 ≠ Some [];
  lv_errors : 0 <= protocol_errors s <= MAX_PROTOCOL_ERRORS;
  lv_awaits : Forall await_ok (awaits s)
}.

(** Sending: the frame is the next one, or the socket raised. *)
Definition after_emit (f : frame) s (r : result unit) s' : Prop :=
  live s' ∧ (link s').1 = (link s).1 ∧ protocol_errors s' = protocol_errors s ∧
  match r with Ok _ => frames s' = frames s ++ [f] | Raise e => frames s' = frames s ∧ raised e end.
Lemma emit_wp f s : live s → wp (emit f) (after_emit f s) s.
Proof using Type.
  intros [Hc Hs He Ha]. apply wp_intro. intros s' r. destruct s as [[c σ] n fs ws]. cbn in Hc, Hs, He, Ha |- *.
  destruct ws as [|[res f'] ws]; [intros [= <- <-]|apply Forall_cons in Ha as [[Hf Hr] Ha]; destruct res as [[]|e]; intros [= <- <-]];
    (split; [split; cbn; auto|]; by split_and!; auto).
Qed.

Lemma talking_sent fs p : talking fs → envelope_ok p → talking (fs ++ [Sent p]).
Proof using Type.
  intros (os & -> & Hos) Hp. exists (os ++ [p]). rewrite fmap_app. split; [done|]. apply Forall_app. split; [done|by apply Forall_singleton].
Qed.
Lemma sends_talking l s :
  live s → talking (frames s) → Forall envelope_ok l →
  wp (for_each (emit ∘ Sent) l) (λ r s', live s' ∧ talking (frames s') ∧ protocol_errors s' = protocol_errors s ∧
    ∀ e, r = Raise e → raised e) s.
Proof using Type.
  revert s. induction l as [|p l IH]; intros s Hs Ht Hl; cbn [for_each]; [by apply wp_ret|].
  apply Forall_cons in Hl as [Hp Hl]. apply wp_bind. eapply wp_mono; [|by apply emit_wp].
  intros [[]|e] s1 (H1 & _ & Hn & Hf); [|destruct Hf as [-> Hr]; split_and!; try done; by intros e' [= <-]].
  eapply wp_mono; [|apply IH; [done|rewrite Hf; by apply talking_sent|done]]. intros r s2 (? & ? & ? & ?). split_and!; try done. congruence.
Qed.

(** What an exception of a turn can be. *)
Definition escapes (e : exn) : Prop := raised e ∨ e = ValueError ∨ e = UnicodeEncodeError.

Definition received_post (r : result step) s' : Prop :=
  live s' ∧
  match r with
  | Ok (Message m) => talking (frames s') ∧ protocol_errors s' < MAX_PROTOCOL_ERRORS ∧ ∃ v, parse_client_message v = Ok m
  | Ok Continue => talking (frames s') ∧ protocol_errors s' < MAX_PROTOCOL_ERRORS
  | Ok Return => said_goodbye (frames s')
  | Raise e => talking (frames s') ∧ escapes e
  end.

Lemma goodbye_wp code reason s : live s → talking (frames s) → wp (close_and_return code reason) received_post s.
Proof using Type.
  intros Hs Ht. unfold close_and_return. apply wp_bind. eapply wp_mono; [|by apply emit_wp].
  intros [[]|e] s1 (H1 & _ & _ & Hf); [apply wp_ret; split; [done|]; by eexists _, _, _|].
  destruct Hf as [Hf Hr]. split; [done|]. rewrite Hf. split; [done|by left].
Qed.

Lemma await_text_wp t s :
  live s → turn_ok t →
  wp (await_text t) (λ r s', live s' ∧ frames s' = frames s ∧ protocol_errors s' = protocol_errors s ∧ ∀ e, r = Raise e → raised e) s.
Proof using Type.
  intros [Hc Hs He Ha] [Hf Hr]. apply wp_intro. intros s' r. unfold await_text. erewrite bind_ok by done.
  erewrite bind_ok by done. intros [= <- <-]. destruct s as [[c σ] n fs ws]. cbn in *. split; [split; cbn; auto|].
  split_and!; try done. intros e. apply Hr.
Qed.

(** The [try] of the loop. *)
Lemma receive_wp t s :
  live s → protocol_errors s < MAX_PROTOCOL_ERRORS → talking (frames s) → turn_ok t → wp (receive t) received_post s.
Proof using Type.
  intros Hs Hn Ht Hok. apply wp_intro. intros s' r. unfold receive.
  assert (wp (await_text t ≫= λ raw, lift (encoded raw) ≫= λ b,
     if MAX_WEBSOCKET_MESSAGE_BYTES <? len b then close_and_return 1009 "message too large"%string
     else lift (parse_json_object (RawText raw)) ≫= λ payload, lift (parse_client_message (VDict payload)) ≫= λ m, mret (Message m))
    (λ r s', live s' ∧ match r with
      | Ok (Message m) => talking (frames s') ∧ protocol_errors s' < MAX_PROTOCOL_ERRORS ∧ ∃ v, parse_client_message v = Ok m
      | Ok Continue => False
      | Ok Return => said_goodbye (frames s')
      | Raise e => talking (frames s') ∧ protocol_errors s' < MAX_PROTOCOL_ERRORS ∧ (escapes e ∨ e = ProtocolError)
      end) s) as Hbody.
  { apply wp_bind. eapply wp_mono; [|by apply await_text_wp]. intros [raw|e] s1 (H1 & Hf & He & Hr).
    2:{ split; [done|]. rewrite Hf, He. split_and!; [done..|]. left. left. by apply Hr. }
    assert (talking (frames s1) ∧ protocol_errors s1 < MAX_PROTOCOL_ERRORS) as [Ht1 Hn1] by by rewrite Hf, He.
    apply wp_bind, wp_lift. unfold encoded. destruct (utf8_encode raw) as [b|].
    2:{ split; [done|]. split_and!; [done..|]. left. right. by right. }
    destruct (MAX_WEBSOCKET_MESSAGE_BYTES <? len b).
    { unfold close_and_return. apply wp_bind. eapply wp_mono; [|by apply emit_wp].
      intros [[]|e] s2 (H2 & _ & Hn2 & Hf2); [apply wp_ret; split; [done|]; by eexists _, _, _|].
      destruct Hf2 as [Hf2 Hr2]. split; [done|]. rewrite Hf2, Hn2. split_and!; [done..|]. left. by left. }
    apply wp_bind, wp_lift. destruct (parse_json_object (RawText raw)) as [d|e] eqn:Ed.
    2:{ split; [done|]. split_and!; [done..|]. apply parse_json_object_raises in Ed as [->| ->]; [by right|]. left. right. by left. }
    apply wp_bind, wp_lift. destruct (parse_client_message (VDict d)) as [m|e] eqn:Em.
    - apply wp_ret. split; [done|]. split_and!; [done..|]. by eexists.
    - split; [done|]. split_and!; [done..|]. right. by eapply parse_client_message_raises. }
  unfold wp in Hbody. unfold try_with. destruct ((await_text t ≫= _) s) as [s1 [[m| |]|e]]; cbn [fst snd] in Hbody.
  - intros [= <- <-]. exact Hbody.
  - by destruct Hbody.
  - intros [= <- <-]. exact Hbody.
  - destruct Hbody as (H1 & Ht1 & Hn1 & He). destruct (is_a e TimeoutError) eqn:Etime.
    { intros Hrun. exact (wp_run _ _ _ _ _ (goodbye_wp _ _ s1 H1 Ht1) Hrun). }
    destruct (is_a e ProtocolError) eqn:Eproto.
    2:{ intros [= <- <-]. split; [done|]. split; [done|]. destruct He as [He| ->]; [done|by vm_compute in Eproto]. }
    intros Hrun. eapply wp_run; [|exact Hrun]. clear Hrun. apply wp_bind, wp_modify.
    set (s2 := mkSocket _ _ _ _). assert (live s2) as H2.
    { destruct H1 as [Hc Hs1 Hen Ha]. split; cbn; try done. unfold MAX_PROTOCOL_ERRORS in *. lia. }
    destruct (sends_bare_error "protocol_error"%string) as (o & Ho & Hoe). rewrite Ho.
    apply wp_bind. apply wp_bind, wp_lift. eapply wp_mono; [|by apply emit_wp].
    intros [[]|e'] s3 (H3 & _ & Hn3 & Hf3).
    2:{ destruct Hf3 as [Hf3 Hr3]. split; [done|]. rewrite Hf3. split; [exact Ht1|by left]. }
    assert (talking (frames s3)) as Ht3 by (rewrite Hf3; by apply talking_sent).
    apply wp_bind, wp_gets. destruct (MAX_PROTOCOL_ERRORS <=? protocol_errors s3) eqn:Eo; [by apply goodbye_wp|].
    apply wp_ret. split; [done|]. reflect. by split.
Qed.

Definition turn_post (r : result bool) s' : Prop :=
  live s' ∧
  match r with
  | Ok true => said_goodbye (frames s')
  | Ok false => talking (frames s') ∧ protocol_errors s' < MAX_PROTOCOL_ERRORS
  | Raise e => talking (frames s') ∧ escapes e
  end.

Lemma farewell_wp code reason s :
  live s → talking (frames s) → wp (emit (Closed code reason) ≫= λ _, mret true) turn_post s.
Proof using Type.
  intros Hs Ht. apply wp_bind. eapply wp_mono; [|by apply emit_wp].
  intros [[]|e] s1 (H1 & _ & _ & Hf); [apply wp_ret; split; [done|]; by eexists _, _, _|].
  destruct Hf as [Hf Hr]. split; [done|]. rewrite Hf. split; [done|by left].
Qed.

Lemma answer_wp t m s :
  live s → talking (frames s) → protocol_errors s < MAX_PROTOCOL_ERRORS → (∃ v, parse_client_message v = Ok m) →
  fresh_session (session_token (core_readings (turn_env t))) (link s).2 →
  wp (set_errors (λ _, 0) ≫= λ _, on_link (process (turn_env t) m) ≫= λ result,
      for_each (emit ∘ Sent) (responses result) ≫= λ _,
      if wants_close result then emit (Closed 1008 "authentication failed"%string) ≫= λ _, mret true
      else gets (λ s, idle second (turn_idle t) (link s).1) ≫= λ over,
           if over : bool then emit (Closed 1001 "connection timeout"%string) ≫= λ _, mret true else mret false) turn_post s.
Proof using HI Hprov.
  intros [Hc Hs He Ha] Ht Hn [v Hv] Hf. destruct s as [[c σ] n fs ws]. cbn in Hc, Hs, He, Ha, Ht, Hf.
  apply wp_bind, wp_modify. cbn [link protocol_errors frames awaits]. apply wp_bind, wp_zoom. cbn [link].
  destruct (process_sound ttl_seconds catalog command_catalog capability_catalog command_catalog_authoritative second
    (turn_env t) v m c σ Hc Hs Hv (Hprov _) Hf) as (c' & σ' & r & -> & Hos & Hc' & Hs').
  cbn [fst snd protocol_errors frames awaits]. set (s1 := mkSocket (c', σ') 0 fs ws).
  assert (live s1) as H1 by (split; cbn; auto; unfold MAX_PROTOCOL_ERRORS; lia).
  apply wp_bind. eapply wp_mono; [|by apply sends_talking].
  intros [[]|e] s2 (H2 & Ht2 & Hn2 & Hr2); [|split; [done|]; split; [done|]; left; by apply Hr2].
  destruct (wants_close r); [by apply farewell_wp|]. apply wp_bind, wp_gets.
  destruct (idle _ _ _); [by apply farewell_wp|]. apply wp_ret. split; [done|]. split; [done|]. rewrite Hn2. by cbn.
Qed.

(** Along the conversation, session identifiers are drawn fresh. *)
Fixpoint fresh_turns (turns : list (turn W V)) s : Prop :=
  match turns with
  | [] => True
  | t :: rest =>
    (∀ s1 m, receive t s = (s1, Ok (Message m)) → fresh_session (session_token (core_readings (turn_env t))) (link s1).2) ∧
    ∀ s', serve_turn t s = (s', Ok false) → fresh_turns rest s'
  end.

Lemma serve_turn_wp t s :
  live s → talking (frames s) → protocol_errors s < MAX_PROTOCOL_ERRORS → turn_ok t →
  (∀ s1 m, receive t s = (s1, Ok (Message m)) → fresh_session (session_token (core_readings (turn_env t))) (link s1).2) →
  wp (serve_turn t) turn_post s.
Proof using HI Hprov.
  intros Hs Ht Hn Hok Hf. unfold WebSocket.serve_turn. apply wp_bind, wp_intro. intros s1 r Hrun.
  pose proof (wp_run _ _ _ _ _ (receive_wp t s Hs Hn Ht Hok) Hrun) as [H1 Hr]. destruct r as [[m| |]|e].
  - destruct Hr as (Ht1 & Hn1 & Hv). by apply answer_wp, (Hf s1 m).
  - by apply wp_ret.
  - by apply wp_ret.
  - by split.
Qed.

Lemma serve_turns_wp turns s :
  live s → talking (frames s) → protocol_errors s < MAX_PROTOCOL_ERRORS → Forall turn_ok turns → fresh_turns turns s →
  wp (serve_turns turns) (λ r s', live s' ∧
    match r with
    | Ok _ => said_goodbye (frames s')
    | Raise e => talking (frames s') ∧ (escapes e ∨ e = WebSocketDisconnect)
    end) s.
Proof using HI Hprov.
  revert s. induction turns as [|t rest IH]; intros s Hs Ht Hn Hok Hf; cbn [WebSocket.serve_turns].
  { apply wp_raise. split; [done|]. split; [done|by right]. }
  apply Forall_cons in Hok as [Hok Hrest]. destruct Hf as [Hf Hfs]. apply wp_bind, wp_intro. intros s1 r Hrun.
  pose proof (wp_run _ _ _ _ _ (serve_turn_wp t s Hs Ht Hn Hok Hf) Hrun) as [H1 Hr]. destruct r as [[|]|e].
  - by apply wp_ret.
  - destruct Hr. by apply IH; [..|apply Hfs].
  - split; [done|]. destruct Hr. split; [done|by left].
Qed.

(** C27: the local WebSocket route.  A client that is not on this computer, or
    that a browser page opened, is only told to go away and the Core is what
    the rest of the agent made of it.  Any other is served whatever it sends
    and however its socket fails: the Core stays sound, the session it opened
    is gone in the end with the confirmations it was waiting for, what was sent
    is one acceptance, envelopes of the protocol and at most one goodbye, the
    last; and what escapes is an exception of the socket or of a text that
    cannot be decoded. *)
Theorem websocket_served client_host browser_origin turns (t0 : Z) script σ
    (Hok : core_ok σ) (Hscript : Forall await_ok script) (Hturns : Forall turn_ok turns)
    (Hfresh : ∀ s, (emit Accept : M (socket W V) unit) (new_socket t0 script σ) = (s, Ok tt) → fresh_turns turns s) :
  ∃ s' out, api_pipa_websocket client_host browser_origin turns (new_socket t0 script σ) = (s', out) ∧
    core_ok (link s').2 ∧ conn_session (link s').1 = None ∧ protocol_errors s' <= MAX_PROTOCOL_ERRORS ∧
    (∀ e, out = Raise e → escapes e) ∧
    (is_local client_host browser_origin = false → (link s').1 = new_connection t0 ∧
       ∀ p, Sent p ∉ frames s') ∧
    (frames s' = [] ∨ (∃ code reason, frames s' = [Closed code reason]) ∨ talking (frames s') ∨ said_goodbye (frames s')) ∧
    (∀ s0, is_local client_host browser_origin = true → emit Accept (new_socket t0 script σ) = (s0, Ok tt) →
       ∃ s1 r, serve_turns turns s0 = (s1, r) ∧ ended (link s1) (link s') ∧ frames s' = frames s1).
Proof using HI Hprov.
  assert (live (new_socket t0 script σ)) as Hnew by by split.
  unfold WebSocket.api_pipa_websocket. destruct (is_local client_host browser_origin) eqn:El; cbn [negb].
  2:{ destruct (emit (Closed _ _) (new_socket t0 script σ)) as [s1 r] eqn:Er. pose proof (wp_run _ _ _ _ _ (emit_wp _ _ Hnew) Er) as (H1 & Hc & He & Hf).
    exists s1, r. rewrite Hc, He. split_and!; [done|apply H1|done|by vm_compute|..|by intros].
    - intros e ->. left. apply Hf.
    - intros _. split; [done|]. intros p. destruct r; [rewrite Hf|rewrite (proj1 Hf)]; cbn; set_solver.
    - destruct r as [[]|]; [right; left; eexists _, _; exact Hf|left; apply Hf]. }
  destruct (emit Accept (new_socket t0 script σ)) as [s1 [[]|e]] eqn:Ea;
    pose proof (wp_run _ _ _ _ _ (emit_wp _ _ Hnew) Ea) as (H1 & Hc & He & Hf).
  2:{ exists s1, (Raise e). rewrite Hc, He. destruct Hf as [Hf Hr].
    split_and!; [by erewrite bind_raise by exact Ea|apply H1|done|by vm_compute|by intros e' [= <-]; left|done|by left|done]. }
  erewrite bind_ok by exact Ea.
  pose proof (serve_turns_wp turns s1 H1 ltac:(rewrite Hf; by exists []) ltac:(by rewrite He) Hturns (Hfresh s1 eq_refl)) as Hwp.
  destruct (serve_turns turns s1) as [s2 r] eqn:Er. pose proof (wp_run _ _ _ _ _ Hwp Er) as [H2 Hr].
  set (caught := try_with (serve_turns turns) (λ e, if is_a e WebSocketDisconnect then mret tt else raise e)).
  assert (∃ out, caught s1 = (s2, out) ∧ ∀ e, out = Raise e → escapes e) as (out & Hcaught & Hout).
  { unfold caught, try_with. rewrite Er. destruct r as [[]|e]; [by eexists|].
    destruct (is_a e WebSocketDisconnect) eqn:Ed; [by eexists|]. eexists. split; [done|]. intros e' [= <-].
    destruct Hr as [_ [Hr| ->]]; [done|by vm_compute in Ed]. }
  destruct s2 as [[c σ2] n fs ws]. destruct H2 as [Hc2 Hs2 He2 Ha2]. cbn in Hc2, Hs2, He2, Ha2, Hr.
  destruct (close_ends c σ2 Hc2 Hs2) as (l' & Hclose & Hok' & Hend).
  exists (mkSocket l' n fs ws), out. split_and!; [|done|apply Hend|apply He2|done|done| |].
  - unfold WebSocket.converse. apply (finally_run _ _ _ _ _ _ Hcaught). exact (zoom_run link _ _ (mkSocket (c, σ2) n fs ws) _ _ Hclose).
  - right. right. destruct r; [by right|left; apply Hr].
  - intros s0 _ [= <-]. exists (mkSocket (c, σ2) n fs ws), r. by split_and!.
Qed.
End Facts.

(** ** A client that logs in, one that makes noise, a page of a browser *)

#[local] Strategy 1000 [process handle].
#[local] Opaque process.

Definition text_of (v : value) : pystr := ok_or [] (dump_bytes false true v).
Definition turn_at (now : Z) (raw : pystr) : turn (list object) (verifier_state bool) :=
  mkTurn (λ _, Ok raw) id (sample_conn_env now) now.
Definition login_turns : list (turn (list object) (verifier_state bool)) := [turn_at 1005 (text_of hello_message)].
Abbreviation sample_turns := (serve_turns (I := verifier_interface 5) 60 sample_catalog None None false 1).
Abbreviation sample_route := (api_pipa_websocket (I := verifier_interface 5) 60 sample_catalog None None false 1).
Definition loopback : option pystr := Some (u "127.0.0.1"%string).
Definition fresh_socket : socket (list object) (verifier_state bool) := new_socket 999 [] core1.

Lemma websocket_served_witness :
  ∃ s' out, sample_route loopback None login_turns fresh_socket = (s', out) ∧
    core_ok (I := verifier_interface 5) (link s').2 ∧ conn_session (link s').1 = None ∧ protocol_errors s' <= MAX_PROTOCOL_ERRORS ∧
    (∀ e, out = Raise e → escapes (λ _, False) e) ∧
    (is_local loopback None = false → (link s').1 = new_connection 999 ∧ ∀ p, Sent p ∉ frames s') ∧
    (frames s' = [] ∨ (∃ code reason, frames s' = [Closed code reason]) ∨ talking (frames s') ∨ said_goodbye (frames s')) ∧
    (∀ s0, is_local loopback None = true → emit Accept fresh_socket = (s0, Ok tt) →
       ∃ s1 r, sample_turns login_turns s0 = (s1, r) ∧ ended (link s1) (link s') ∧ frames s' = frames s1).
Proof.
  apply (websocket_served (I := verifier_interface 5) 60 sample_catalog None None false 1 (λ _, Logic.I) (λ _, False)
    loopback None login_turns 999 [] core1 core1_ok).
  - apply Forall_nil. exact Logic.I.
  - apply Forall_singleton. split; [by intros σ Hσ|done].
  - intros s [= <-]. split; [|done]. intros s1 m Hr. vm_compute in Hr. injection Hr as <- _. exact sample_fresh.
Defined.

Definition route_ends (client_host browser_origin : option pystr) (turns : list (turn (list object) (verifier_state bool))) :
  list frame * result unit :=
  let '(s', out) := sample_route client_host browser_origin turns fresh_socket in (frames s', out).

(** A page of a browser is sent away; a long message and five unreadable ones
    end the conversation; a lone surrogate or an endless integer is no protocol
    error, it escapes from the route. *)
Example odd_clients :
  route_ends loopback (Some (u "https://example.org"%string)) login_turns =
    ([Closed 1008 "Pipa Core solo acepta conexiones locales por ahora"], Ok tt) ∧
  (route_ends loopback None [turn_at 1005 (repeat 65 (Z.to_nat 12001))]) = ([Accept; Closed 1009 "message too large"], Ok tt) ∧
  length (route_ends loopback None (repeat (turn_at 1005 (u "{"%string)) 6)).1 = 7%nat ∧
  route_ends loopback None [turn_at 1005 [0xD800]] = ([Accept], Raise UnicodeEncodeError) ∧
  route_ends loopback None [turn_at 1005 long_integer_frame] = ([Accept], Raise ValueError).
Proof. vm_compute. split_and!; reflexivity. Qed.
