(* ===== verification/SecureGateways.v ===== *)
(** * The encrypted transports: [secure_serial_gateway.py], [secure_tcp_gateway.py]

    Both read one JSON object per line, accept nothing before a client hello,
    hand every later frame to one [SecureCoreConnection] and close it on every
    way out.  The serial transport rechecks the pairings every few seconds, the
    TCP one before every frame when it has a provider of pairings.  A run is a
    list of turns: what the read returned, and the clock readings, draws and
    provider answers of that turn of the loop.  Writes are collected in
    order. *)
From S2P Require Import Prelude Dict Value Effects Json JsonParse Protocol Confirmations Tools Crypto Challenge Connection.
From S2P Require Import SerialGateway PyStr Captions SecureSession SecureChannel SecureServer Sessions Core CoreFacts Gate SecureCore.

Definition MAX_FRAME_BYTES : Z := 96 * 1024.

Definition reject_duplicate_fields (pairs : list (pystr * value)) : result object :=
  reject_duplicates ValueError pairs [].

(** [_strict_json(raw.decode("utf-8"))] *)
Definition _strict_json (raw : bytes) : result object :=
  v ← loads_utf8 reject_duplicate_fields raw;
  match v with VDict d => Ok d | _ => Raise ValueError end.

(** [set(payload) == _CLIENT_HELLO_FIELDS and payload.get("protocol_version") == 2] *)
Definition starts_with_hello (payload : object) : bool :=
  keys_exactly CLIENT_HELLO_FIELDS payload && eq_int (get (u "protocol_version") payload) 2.

Section Gateways.
Context {W V : Type} `{I : VerifierI V} `{UnicodeData} `{IntentParser}.
Context {SK PK XSK XPK : Type} `{E : Ed25519 SK PK} `{X : X25519 XSK XPK} `{K : HKDF} `{A : AEAD}.
Context (ttl_seconds : Z) (catalog : dict pystr (ToolDefinition W)).
Context (command_catalog capability_catalog : option (W → result value)).
Context (command_catalog_authoritative : bool).
(** Clock ticks in one second; [trusted_devices_provider is not None]. *)
Context (second : Z) (has_provider : bool).

(** The locals of a connection loop and what it wrote. *)
Record port := mkPort {
  secure : secure_state W V SK PK;
  last_activity : Z;
  last_trust_check : Z;
  lines : list bytes
}.
Definition on_secure {T} (m : M (secure_state W V SK PK) T) : M port T :=
  zoom secure (λ v s, mkPort v (last_activity s) (last_trust_check s) (lines s)) m.
Definition set_activity (t : Z) : M port unit :=
  modify (λ s, mkPort (secure s) t (last_trust_check s) (lines s)).
Definition set_trust_check (t : Z) : M port unit :=
  modify (λ s, mkPort (secure s) (last_activity s) t (lines s)).
Definition write (b : bytes) : M port unit :=
  modify (λ s, mkPort (secure s) (last_activity s) (last_trust_check s) (lines s ++ [b])).

(** [SecureCoreConnection(...)] at clock reading [t0]. *)
Definition new_port (t0 : Z) (v : server_state SK PK) (σ : core_state W V) : port :=
  mkPort (mkSecureState new_secure_conn v σ) t0 0 [].

Definition is_authenticated (s : port) : bool := authenticated (conn (secure s)).

(** One turn of a loop. *)
Record turn := {
  now_idle : Z;
  now_check : Z;
  now_checked : Z;
  devices : result (dict pystr PK);
  raw : bytes;
  hello_env : accept_env XSK;
  now_session : Z;
  new_token : pystr;
  message_env : core_env;
  now_done : Z
}.

Definition _refresh_trusted_devices (current : result (dict pystr PK)) : M port unit :=
  if has_provider then
    lift current ≫= λ d, on_secure (on_server (refresh_trusted_devices d))
  else mret tt.

Definition idle_for (now : Z) (s : port) : bool :=
  (if is_authenticated s then SESSION_IDLE_SECONDS else AUTHENTICATION_TIMEOUT_SECONDS) * second <=? now - last_activity s.

(** [secure_core.accept_client_hello(payload)], and the answer or [None] when
    an exception of [cs] is caught. *)
Definition try_hello (cs : list exn) (t : turn) (prepare : M port unit) (payload : object) : M port (option object) :=
  try_with
    (prepare ≫= λ _,
     on_secure (SecureCore.accept_client_hello second (hello_env t) (now_session t) (new_token t) payload VNone []) ≫= λ h,
     mret (Some h))
    (λ e, if caught e cs then mret None else raise e).

Definition try_frame (t : turn) (payload : object) : M port (option (list object)) :=
  try_with
    (on_secure (process_frame ttl_seconds catalog command_catalog capability_catalog command_catalog_authoritative
       (message_env t) payload) ≫= λ rs, mret (Some rs))
    (λ e, if caught e [SecureSessionError] then mret None else raise e).

(** ** The serial transport *)

Context (revocation_check_seconds : Z).

(** [SecureSerialGateway._send]: a frame over the limit is dropped. *)
Definition _send (payload : object) : M port unit :=
  lift (dump_bytes false true (VDict payload)) ≫= λ b,
  if MAX_LINE_BYTES <? len (b ++ [10]) then mret tt else write (b ++ [10]).

(** The periodic check; [true] when the device was revoked. *)
Definition recheck (t : turn) : M port bool :=
  gets is_authenticated ≫= λ auth,
  gets last_trust_check ≫= λ last,
  if auth && (revocation_check_seconds <=? now_check t - last) then
    _refresh_trusted_devices (devices t) ≫= λ _,
    set_trust_check (now_checked t) ≫= λ _,
    gets (λ s, negb (device_is_trusted (secure s)))
  else mret false.

Definition on_line (t : turn) (payload : object) : M port bool :=
  gets is_authenticated ≫= λ auth,
  if negb auth then
    if negb (starts_with_hello payload) then mret true
    else
      try_hello [HandshakeError; SecureSessionError; ValueError] t (mret tt) payload ≫= λ hello,
      match hello with
      | None => mret true
      | Some h =>
        _send h ≫= λ _, set_activity (now_done t) ≫= λ _, set_trust_check 0 ≫= λ _, mret false
      end
  else
    try_frame t payload ≫= λ responses,
    match responses with
    | None => mret true
    | Some rs => set_activity (now_done t) ≫= λ _, for_each _send rs ≫= λ _, mret false
    end.

(** The body of the loop; [true] leaves it. *)
Definition serial_turn (t : turn) : M port bool :=
  gets (idle_for (now_idle t)) ≫= λ over,
  if over : bool then mret true
  else
    recheck t ≫= λ revoked,
    if revoked : bool then mret true
    else
      if skipped (raw t) then mret false
      else if MAX_LINE_BYTES <? len (raw t) then mret true
      else
        match _strict_json (raw t) with
        | Ok payload => on_line t payload
        | Raise e => if caught e [UnicodeDecodeError; JSONDecodeError; ValueError] then mret true else raise e
        end.

Fixpoint run_turns {T} (body : T → M port bool) (turns : list T) : M port unit :=
  match turns with
  | [] => mret tt
  | t :: rest => body t ≫= λ stop, if stop : bool then mret tt else run_turns body rest
  end.

(** [try: ... / except Exception: log / finally: secure_core.close()] *)
Definition guarded (m : M port unit) : M port unit :=
  try_with m (λ _, mret tt) ≫= λ _, on_secure SecureCore.close.

Definition serve_serial (first : result (dict pystr PK)) (turns : list turn) : M port unit :=
  guarded (_refresh_trusted_devices first ≫= λ _, run_turns serial_turn turns).

(** ** The TCP transport *)

(** What [reader.readuntil] comes to: end of stream, an incomplete or overlong
    line or a timeout, or a line. *)
Inductive frame_read := Eof | Broken | Frame (b : bytes).

Definition drop_newline (b : bytes) : bytes := take (length b - 1) b.
Definition ends_with_newline (b : bytes) : bool := match last b with Some c => c =? 10 | None => false end.

Definition _read_frame (r : frame_read) : result (option object) :=
  match r with
  | Eof => Ok None
  | Broken => Raise SecureTcpTransportError
  | Frame [] => Ok None
  | Frame b =>
    _ ← ensure ((len b <=? MAX_FRAME_BYTES) && ends_with_newline b) SecureTcpTransportError;
    d ← reraise [UnicodeDecodeError; JSONDecodeError; ValueError] SecureTcpTransportError (_strict_json (drop_newline b));
    Ok (Some d)
  end.

Definition _encode_frame (payload : object) : result bytes :=
  b ← reraise [TypeError; ValueError] SecureTcpTransportError (dump_bytes false false (VDict payload));
  _ ← ensure (len (b ++ [10]) <=? MAX_FRAME_BYTES) SecureTcpTransportError;
  Ok (b ++ [10]).
Definition _write_frame (payload : object) : M port unit := lift (_encode_frame payload) ≫= write.

Definition tcp_turn (t : turn * frame_read) : M port bool :=
  gets (idle_for (now_idle t.1)) ≫= λ over,
  if over : bool then raise SecureTcpTransportError
  else
    lift (_read_frame t.2) ≫= λ frame,
    match frame with
    | None => mret true
    | Some payload =>
      gets is_authenticated ≫= λ auth,
      if negb auth then
        if negb (starts_with_hello payload) then raise SecureTcpTransportError
        else
          try_hello [DeviceStoreError; HandshakeError; SecureSessionError; ValueError] t.1
            (_refresh_trusted_devices (devices t.1)) payload ≫= λ hello,
          match hello with
          | None => raise SecureTcpTransportError
          | Some h => _write_frame h ≫= λ _, set_activity (now_done t.1) ≫= λ _, mret false
          end
      else
        gets (λ s, has_provider && negb (device_is_trusted (secure s))) ≫= λ revoked,
        if revoked : bool then raise SecureTcpTransportError
        else
          try_frame t.1 payload ≫= λ responses,
          match responses with
          | None => raise SecureTcpTransportError
          | Some rs => for_each _write_frame rs ≫= λ _, set_activity (now_done t.1) ≫= λ _, mret false
          end
    end.

Definition serve_tcp (turns : list (turn * frame_read)) : M port unit := guarded (run_turns tcp_turn turns).

End Gateways.
Arguments port W V SK PK : clear implicits.
Arguments turn PK XSK : clear implicits.

Section Facts.
Context {W V : Type} `{I : VerifierI V} {HI : VerifierLaws I} `{UnicodeData} `{IntentParser}.
Context {SK PK XSK XPK : Type} `{E : Ed25519 SK PK} `{X : X25519 XSK XPK} `{K : HKDF} `{A : AEAD}.
Context {HX : X25519Laws X} {HK : HKDFLaws K}.
Context (ttl_seconds : Z) (catalog : dict pystr (ToolDefinition W)).
Context (command_catalog capability_catalog : option (W → result value)).
Context (command_catalog_authoritative : bool) (second : Z) (has_provider : bool) (revocation_check_seconds : Z).
Context (Hprov : ∀ w, provider_ok command_catalog w).
Implicit Types (s : port W V SK PK) (t : turn PK XSK) (v : server_state SK PK).

Abbreviation serial_turn := (serial_turn ttl_seconds catalog command_catalog capability_catalog
  command_catalog_authoritative second has_provider revocation_check_seconds).
Abbreviation tcp_turn := (tcp_turn ttl_seconds catalog command_catalog capability_catalog
  command_catalog_authoritative second has_provider).
Abbreviation try_hello := (try_hello second).
Abbreviation try_frame := (try_frame ttl_seconds catalog command_catalog capability_catalog
  command_catalog_authoritative).
Abbreviation frame_spec := (frame_spec ttl_seconds catalog command_catalog capability_catalog
  command_catalog_authoritative).

(** A line of at most [n] bytes with its newline. *)
Definition line_ok (n : Z) (b : bytes) : Prop := len b <= n ∧ ∃ b', b = b' ++ [10].

(** [m] only writes lines of at most [n] bytes and sets the clocks. *)
Definition same_secure (n : Z) s s' : Prop :=
  secure s' = secure s ∧ (Forall (line_ok n) (lines s) → Forall (line_ok n) (lines s')).
#[local] Instance same_secure_preorder n : PreOrder (same_secure n).
Proof using Type. split; [by split|]. intros s1 s2 s3 [H1 L1] [H2 L2]. split; [congruence|auto]. Qed.
Abbreviation quiet n := (moves (same_secure n) (λ _, True)).

(** [m] may also refresh the pairings. *)
Definition same_core (n : Z) s s' : Prop :=
  conn (secure s') = conn (secure s) ∧ core (secure s') = core (secure s) ∧
  (Forall (line_ok n) (lines s) → Forall (line_ok n) (lines s')).
#[local] Instance same_core_preorder n : PreOrder (same_core n).
Proof using Type. split; [by split|]. intros s1 s2 s3 (C1 & H1 & L1) (C2 & H2 & L2). split_and!; [congruence..|auto]. Qed.

Lemma quiet_bind {T U} n (m : M (port W V SK PK) T) (k : T → M (port W V SK PK) U) :
  quiet n m → (∀ x, quiet n (k x)) → quiet n (m ≫= k).
Proof using Type. intros Hm Hk. apply (moves_bind (same_secure n) (λ _, True)); [done|]. auto. Qed.
Lemma quiet_lift {T} n (r : result T) : quiet n (lift r).
Proof using Type. by apply moves_lift; [apply _|]. Qed.
Lemma quiet_gets {T} n (f : port W V SK PK → T) : quiet n (gets f).
Proof using Type. by apply moves_gets; [apply _|]. Qed.
Lemma quiet_ret {T} n (x : T) : quiet n (mret x).
Proof using Type. by apply moves_ret; [apply _|]. Qed.
Lemma quiet_activity n z : quiet n (set_activity z).
Proof using Type. by intros s. Qed.
Lemma quiet_trust_check n z : quiet n (set_trust_check z).
Proof using Type. by intros s. Qed.
Lemma quiet_write n b : line_ok n b → quiet n (write b).
Proof using Type. intros Hb s. split; [|done]. split; [done|]. intros Hl. cbn. apply Forall_app. split; [done|by apply Forall_singleton]. Qed.
Lemma quiet_each {T} n (f : T → M (port W V SK PK) unit) l : (∀ x, quiet n (f x)) → quiet n (for_each f l).
Proof using Type.
  intros Hf. induction l as [|x l IH]; cbn [for_each]; [apply quiet_ret|]. by apply quiet_bind; [|intros _].
Qed.

Lemma quiet_send p : quiet MAX_LINE_BYTES (_send p).
Proof using Type.
  unfold _send. apply quiet_bind; [apply quiet_lift|]. intros b. destruct (MAX_LINE_BYTES <? len (b ++ [10])) eqn:Hl.
  - apply quiet_ret.
  - apply quiet_write. reflect. split; [done|by eexists].
Qed.

Lemma encode_frame_ok p b : _encode_frame p = Ok b → line_ok MAX_FRAME_BYTES b.
Proof using Type.
  unfold _encode_frame, mbind, result_bind. destruct (reraise _ _ _) as [x|]; [|done]. intros. result_inv. reflect.
  split; [done|by eexists].
Qed.

Lemma quiet_write_frame p : quiet MAX_FRAME_BYTES (_write_frame p).
Proof using Type.
  unfold _write_frame. apply (moves_bind (same_secure _) (line_ok MAX_FRAME_BYTES)); [|by intros b Hb; apply quiet_write].
  apply moves_lift; [apply _|]. intros b. apply encode_frame_ok.
Qed.

Lemma refresh_same n d : moves (same_core n) (λ _, True) (_refresh_trusted_devices has_provider d).
Proof using Type.
  unfold _refresh_trusted_devices. destruct has_provider; [|by apply moves_ret; [apply _|]].
  apply (moves_bind (same_core n) (λ _, True)); [by apply moves_lift; [apply _|]|]. intros x _ s.
  unfold on_secure, on_server, wp, zoom. cbn. by destruct (refresh_trusted_devices x (server (secure s))).
Qed.

(** ** One turn *)

Definition port_ok (n : Z) s : Prop := secure_ok (secure s) ∧ Forall (line_ok n) (lines s).

Lemma same_secure_ok n s s' : same_secure n s s' → port_ok n s → port_ok n s'.
Proof using Type. intros [Hs Hl] [Hok Hls]. split; [by rewrite Hs|by apply Hl]. Qed.
Lemma same_core_ok n s s' : same_core n s s' → port_ok n s → port_ok n s'.
Proof using Type.
  intros (Hc & Hs & Hl) [[Hconn Hcore] Hls]. split; [|by apply Hl]. by split; rewrite ?Hc, ?Hs.
Qed.

(** A turn that does nothing to the connection; sessions idle too long may go. *)
Definition idle_spec t s s' : Prop :=
  conn (secure s') = conn (secure s) ∧ only_pruned (now_session t) (core (secure s)) (core (secure s')).
(** A turn in which the payload opened the session. *)
Definition opening_spec t (payload : object) s s' : Prop :=
  is_authenticated s = false ∧ starts_with_hello payload = true ∧
  ∃ v answer, hello_spec second (hello_env t) (now_session t) (new_token t) payload VNone []
    (mkSecureState (conn (secure s)) v (core (secure s))) (secure s') (Ok answer).
(** A turn in which the payload was a frame of the session. *)
Definition framed_spec t (payload : object) s s' : Prop :=
  is_authenticated s = true ∧
  ∃ v r, frame_spec (message_env t) payload (mkSecureState (conn (secure s)) v (core (secure s))) (secure s') r.

Definition turn_spec t (payload : result object) s s' : Prop :=
  idle_spec t s s' ∨ ∃ d, payload = Ok d ∧ (opening_spec t d s s' ∨ framed_spec t d s s').

Lemma same_core_idle n t s s' : same_core n s s' → idle_spec t s s'.
Proof using Type. intros (Hc & Hs & _). split; [done|]. rewrite Hs. apply only_pruned_refl. Qed.

Lemma only_pruned_core now (σ σ' : core_state W V) : σ' = σ → only_pruned now σ σ'.
Proof using Type. intros ->. apply only_pruned_refl. Qed.

Lemma try_hello_wp n cs t prepare payload s :
  port_ok n s → moves (same_core n) (λ _, True) prepare → fresh_session (new_token t) (core (secure s)) →
  is_authenticated s = false → starts_with_hello payload = true →
  wp (try_hello cs t prepare payload) (λ r s', port_ok n s' ∧
    match r with Ok (Some _) => opening_spec t payload s s' | _ => idle_spec t s s' end) s.
Proof using HX HK.
  intros Hs Hprep Hfresh Ha Hh. unfold SecureGateways.try_hello, try_with, wp.
  destruct (prepare s) as [s1 r1] eqn:Ep. pose proof (wp_run _ _ _ _ _ (Hprep s) Ep) as [Hsame _].
  pose proof (same_core_ok n s s1 Hsame Hs) as Hs1. pose proof (same_core_idle n t s s1 Hsame) as Hi1.
  destruct r1 as [[]|e].
  2:{ erewrite bind_raise by exact Ep. by destruct (caught e cs). }
  erewrite bind_ok by exact Ep. destruct Hsame as (Hc & Hcore & _).
  destruct (accept_hello_run second (hello_env t) (now_session t) (new_token t) payload VNone [] (secure s1))
    as (x & r & Hrun & Hok & Hr); [apply Hs1|by rewrite Hcore|].
  set (s2 := mkPort x (last_activity s1) (last_trust_check s1) (lines s1)).
  assert (on_secure (SecureCore.accept_client_hello second (hello_env t) (now_session t) (new_token t) payload VNone []) s1
    = (s2, r)) as Hon by exact (zoom_run _ _ _ s1 _ _ Hrun).
  assert (port_ok n s2) as Hs2 by (split; [done|apply Hs1]).
  destruct r as [answer|e].
  - erewrite bind_ok by exact Hon. cbn. split; [done|]. split; [done|]. split; [done|].
    exists (server (secure s1)), answer. rewrite <- Hc, <- Hcore. unfold hello_spec. by destruct (secure s1).
  - erewrite bind_raise by exact Hon. destruct Hr as (_ & Hc2 & Hpr). rewrite Hcore in Hpr.
    assert (idle_spec t s s2) as Hi2 by (split; [cbn; congruence|done]). by destruct (caught e cs).
Qed.

Lemma try_frame_wp n t payload s :
  port_ok n s → is_authenticated s = true →
  wp (try_frame t payload) (λ r s', port_ok n s' ∧ framed_spec t payload s s') s.
Proof using Hprov.
  intros Hs Ha. unfold SecureGateways.try_frame, try_with, wp.
  assert (∃ (x : secure_state W V SK PK) r,
    process_frame ttl_seconds catalog command_catalog capability_catalog command_catalog_authoritative
      (message_env t) payload (secure s) = (x, r) ∧ secure_ok x ∧ frame_spec (message_env t) payload (secure s) x r)
    as (x & r & Hrun & Hok & Hf).
  { unfold is_authenticated, authenticated in Ha. unfold SecureCore.frame_spec.
    destruct (channel (conn (secure s))) as [ss|] eqn:Hch; [|done]. destruct (core_session_id _) as [sid|] eqn:Hsid; [|done].
    apply process_frame_run; [apply Hs|done|done|apply Hprov]. }
  set (s2 := mkPort x (last_activity s) (last_trust_check s) (lines s)).
  assert (on_secure (process_frame ttl_seconds catalog command_catalog capability_catalog command_catalog_authoritative
    (message_env t) payload) s = (s2, r)) as Hon by exact (zoom_run _ _ _ s _ _ Hrun).
  assert (port_ok n s2 ∧ framed_spec t payload s s2) as Hgoal.
  { split; [split; [done|apply Hs]|]. split; [done|]. exists (server (secure s)), r. by destruct (secure s). }
  destruct r as [rs|e]; [by erewrite bind_ok by exact Hon|]. erewrite bind_raise by exact Hon. by destruct (caught e _).
Qed.

(** What follows a turn's work on the session only writes and sets clocks. *)
Lemma turn_spec_after n t p s s1 s2 : same_secure n s1 s2 → port_ok n s1 ∧ turn_spec t p s s1 → port_ok n s2 ∧ turn_spec t p s s2.
Proof using Type.
  intros Hsame [Hok Ht]. split; [by eapply same_secure_ok|]. destruct Hsame as [Heq _].
  unfold turn_spec, idle_spec, opening_spec, framed_spec in *. by rewrite Heq.
Qed.

Lemma quiet_after {T} n t p s s1 (m : M (port W V SK PK) T) :
  quiet n m → port_ok n s1 ∧ turn_spec t p s s1 → wp m (λ _ s2, port_ok n s2 ∧ turn_spec t p s s2) s1.
Proof using Type. intros Hm H1. eapply wp_mono; [|apply Hm]. intros r s2 [Hq _]. by eapply turn_spec_after. Qed.

Lemma turn_spec_before n t p s s1 s2 : same_core n s s1 → turn_spec t p s1 s2 → turn_spec t p s s2.
Proof using Type.
  intros (Hc & Hcore & _) Ht. unfold turn_spec, idle_spec, opening_spec, framed_spec, is_authenticated in *.
  by rewrite <- Hc, <- Hcore.
Qed.

Lemma quiet_tail {T} n (m : M (port W V SK PK) T) z (b : bool) : quiet n m → quiet n (m ≫= λ _, set_activity z ≫= λ _, mret b).
Proof using Type.
  intros Hm. apply quiet_bind; [done|intros _]. apply quiet_bind; [apply quiet_activity|intros _; apply quiet_ret].
Qed.

Lemma on_line_wp t payload s :
  port_ok MAX_LINE_BYTES s → fresh_session (new_token t) (core (secure s)) →
  wp (on_line ttl_seconds catalog command_catalog capability_catalog command_catalog_authoritative second t payload)
    (λ _ s', port_ok MAX_LINE_BYTES s' ∧ turn_spec t (Ok payload) s s') s.
Proof using Hprov HX HK.
  intros Hs Hf. unfold on_line. apply wp_bind, wp_gets. destruct (is_authenticated s) eqn:Ha; cbn [negb].
  - apply wp_bind. eapply wp_mono; [|by apply (try_frame_wp MAX_LINE_BYTES)]. intros r s1 [Hok Hr].
    assert (port_ok MAX_LINE_BYTES s1 ∧ turn_spec t (Ok payload) s s1) as H1 by (split; [done|right; eauto]).
    destruct r as [[rs|]|e]; [|by apply wp_ret|done]. apply quiet_after; [|done].
    apply quiet_bind; [apply quiet_activity|intros _]. apply quiet_bind; [by apply quiet_each, quiet_send|intros _; apply quiet_ret].
  - destruct (starts_with_hello payload) eqn:Hh; cbn [negb].
    2:{ apply wp_ret. split; [done|]. left. by apply (same_core_idle MAX_LINE_BYTES). }
    apply wp_bind. eapply wp_mono; [|apply (try_hello_wp MAX_LINE_BYTES); try done; by apply moves_ret; [apply _|]].
    intros r s1 [Hok Hr]. destruct r as [[h|]|e].
    + apply quiet_after; [|split; [done|right; eauto]]. apply quiet_bind; [apply quiet_send|intros _].
      apply quiet_bind; [apply quiet_activity|intros _]. apply quiet_bind; [apply quiet_trust_check|intros _; apply quiet_ret].
    + apply wp_ret. split; [done|by left].
    + split; [done|by left].
Qed.

Lemma recheck_same t : moves (same_core MAX_LINE_BYTES) (λ _, True)
  (recheck has_provider revocation_check_seconds t : M (port W V SK PK) bool).
Proof using Type.
  unfold recheck. repeat (apply (moves_bind _ (λ _, True)); [by apply moves_gets; [apply _|]|intros ? _]).
  destruct (_ && _); [|by apply moves_ret; [apply _|]].
  apply (moves_bind _ (λ _, True)); [apply refresh_same|intros ? _].
  apply (moves_bind _ (λ _, True)); [by intros s|intros ? _]. by apply moves_gets; [apply _|].
Qed.

(** The JSON object a line carries. *)
Definition line_payload t : result object :=
  if skipped (raw t) || (MAX_LINE_BYTES <? len (raw t)) then Raise ValueError else _strict_json (raw t).

Lemma serial_turn_wp t s :
  port_ok MAX_LINE_BYTES s → fresh_session (new_token t) (core (secure s)) →
  wp (serial_turn t) (λ _ s', port_ok MAX_LINE_BYTES s' ∧ turn_spec t (line_payload t) s s') s.
Proof using Hprov HX HK.
  intros Hs Hf. unfold SecureGateways.serial_turn. apply wp_bind, wp_gets.
  assert (∀ s1, same_core MAX_LINE_BYTES s s1 → port_ok MAX_LINE_BYTES s1 ∧ turn_spec t (line_payload t) s s1) as Hidle.
  { intros s1 H1. split; [by eapply same_core_ok|]. left. by eapply same_core_idle. }
  destruct (idle_for _ _ s); [by apply wp_ret, Hidle|].
  apply wp_bind. eapply wp_mono; [|apply recheck_same]. intros r s1 [H1 _].
  destruct r as [[|]|e]; [by apply wp_ret, Hidle| |by apply Hidle].
  unfold line_payload in *. destruct (skipped (raw t)); [by apply wp_ret, Hidle|].
  destruct (MAX_LINE_BYTES <? len (raw t)); [by apply wp_ret, Hidle|]. cbn [orb] in *.
  destruct (_strict_json (raw t)) as [payload|e].
  - eapply wp_mono; [|apply on_line_wp; [by apply Hidle|by destruct H1 as (_ & -> & _)]].
    intros r s2 [Hok Ht]. split; [done|]. by eapply turn_spec_before.
  - destruct (caught e _); by apply Hidle.
Qed.

Lemma tcp_turn_wp t r s :
  port_ok MAX_FRAME_BYTES s → fresh_session (new_token t) (core (secure s)) →
  wp (tcp_turn (t, r)) (λ _ s', port_ok MAX_FRAME_BYTES s' ∧
    turn_spec t (p ← _read_frame r; match p with Some d => Ok d | None => Raise ValueError end) s s') s.
Proof using Hprov HX HK.
  intros Hs Hf. unfold SecureGateways.tcp_turn. cbn [fst snd]. apply wp_bind, wp_gets.
  assert (∀ p, port_ok MAX_FRAME_BYTES s ∧ turn_spec t p s s) as Hidle.
  { intros p. split; [done|]. left. by eapply (same_core_idle MAX_FRAME_BYTES). }
  destruct (idle_for _ _ s); [by apply wp_raise|].
  apply wp_bind, wp_lift. destruct (_read_frame r) as [[payload|]|e]; [|by apply wp_ret|done].
  cbn [mbind result_bind]. apply wp_bind, wp_gets. destruct (is_authenticated s) eqn:Ha; cbn [negb].
  - apply wp_bind, wp_gets. destruct (_ && _); [by apply wp_raise|].
    apply wp_bind. eapply wp_mono; [|by apply (try_frame_wp MAX_FRAME_BYTES)]. intros out s1 [Hok Hr].
    assert (port_ok MAX_FRAME_BYTES s1 ∧ turn_spec t (Ok payload) s s1) as H1 by (split; [done|right; eauto]).
    destruct out as [[rs|]|e]; [|by apply wp_raise|done].
    apply quiet_after; [|done]. by apply quiet_tail, quiet_each, quiet_write_frame.
  - destruct (starts_with_hello payload) eqn:Hh; cbn [negb]; [|by apply wp_raise].
    apply wp_bind. eapply wp_mono; [|apply (try_hello_wp MAX_FRAME_BYTES); try done; apply refresh_same].
    intros out s1 [Hok Hr]. destruct out as [[h|]|e].
    + apply quiet_after; [by apply quiet_tail, quiet_write_frame|split; [done|right; eauto]].
    + apply wp_raise. split; [done|by left].
    + split; [done|by left].
Qed.

(** ** A whole connection *)

(** Along a run, session identifiers are drawn fresh. *)
Fixpoint fresh_turns {T} (body : T → M (port W V SK PK) bool) (token : T → pystr) (turns : list T) s : Prop :=
  match turns with
  | [] => True
  | t :: rest => fresh_session (token t) (core (secure s)) ∧
      ∀ s', body t s = (s', Ok false) → fresh_turns body token rest s'
  end.

Lemma run_turns_ok {T} n (body : T → M (port W V SK PK) bool) (token : T → pystr) (turns : list T) s :
  (∀ (t : T) s, port_ok n s → fresh_session (token t) (core (secure s)) → wp (body t) (λ _ s', port_ok n s') s) →
  port_ok n s → fresh_turns body token turns s → wp (run_turns body turns) (λ _ s', port_ok n s') s.
Proof using Type.
  intros Hbody. revert s. induction turns as [|t rest IH]; intros s Hs Hf; cbn [run_turns]; [by apply wp_ret|].
  destruct Hf as [Hf Hrest]. apply wp_bind, wp_intro. intros s1 r Hrun.
  pose proof (wp_run _ _ _ _ _ (Hbody t s Hs Hf) Hrun) as Hs1. destruct r as [[|]|e]; [by apply wp_ret| |done].
  apply IH; [done|by apply Hrest].
Qed.

(** What closing leaves of a connection: its attributes as new, its session
    gone with its pending actions. *)
Definition port_closed s s' : Prop :=
  lines s' = lines s ∧ conn (secure s') = new_secure_conn ∧
  (is_authenticated s = true → closed_out (secure s) (secure s')) ∧
  (is_authenticated s = false → core (secure s') = core (secure s)).

Lemma guarded_run n (m : M (port W V SK PK) unit) s s1 out :
  m s = (s1, out) → port_ok n s1 →
  ∃ s', guarded m s = (s', Ok tt) ∧ port_ok n s' ∧ port_closed s1 s'.
Proof using Type.
  intros Hrun [Hok Hl]. destruct (secure_close_run (secure s1) Hok) as (x & Hclose & Hok' & _ & Hno & Hco).
  set (s' := mkPort x (last_activity s1) (last_trust_check s1) (lines s1)). exists s'.
  assert (on_secure SecureCore.close s1 = (s', Ok tt)) as Hon by exact (zoom_run _ _ _ s1 _ _ Hclose).
  split_and!.
  - unfold guarded. erewrite bind_ok; [exact Hon|]. destruct out as [[]|e]; [by apply try_ok|by rewrite (try_raise _ _ _ _ _ Hrun)].
  - by split.
  - assert (is_authenticated s1 = false → channel (conn (secure s1)) = None) as Hch by (apply no_session_yet, Hok).
    assert (is_authenticated s1 = true → channel (conn (secure s1)) ≠ None) as Hch'.
    { unfold is_authenticated, authenticated. by destruct (channel _). }
    split_and!; [done| |by intros ?; apply Hco, Hch'|].
    + destruct (is_authenticated s1); [by destruct Hco as (? & _); [apply Hch'|]|].
      change (conn x = new_secure_conn). by rewrite (Hno (Hch eq_refl)).
    + intros Ha. change (core x = core (secure s1)). by rewrite (Hno (Hch Ha)).
Qed.

Abbreviation serve_serial := (serve_serial ttl_seconds catalog command_catalog capability_catalog
  command_catalog_authoritative second has_provider revocation_check_seconds).
Abbreviation serve_tcp := (serve_tcp ttl_seconds catalog command_catalog capability_catalog
  command_catalog_authoritative second has_provider).

Lemma new_port_ok n (now : Z) v (σ : core_state W V) : core_ok σ → port_ok n (new_port now v σ).
Proof using Type. intros Hok. split; [split; [apply new_conn_ok|done]|constructor]. Qed.

(** On either encrypted transport nothing but a client hello opens a
    connection, and nothing but an encrypted frame of the open session acts on
    the Core: a turn that reads anything else, times out or fails leaves the
    connection and the Core as they were, up to sessions idle for too long.
    The transports add no other path to the Core. *)
Theorem encrypted_turn_gate t r s (Hfresh : fresh_session (new_token t) (core (secure s))) :
  (port_ok MAX_LINE_BYTES s → ∃ s' out, serial_turn t s = (s', out) ∧ port_ok MAX_LINE_BYTES s' ∧
     turn_spec t (line_payload t) s s') ∧
  (port_ok MAX_FRAME_BYTES s → ∃ s' out, tcp_turn (t, r) s = (s', out) ∧ port_ok MAX_FRAME_BYTES s' ∧
     turn_spec t (p ← _read_frame r; match p with Some d => Ok d | None => Raise ValueError end) s s').
Proof using Hprov HX HK.
  split; intros Hs.
  - destruct (serial_turn t s) as [s' out] eqn:Hrun. exists s', out.
    pose proof (wp_run _ _ _ _ _ (serial_turn_wp t s Hs Hfresh) Hrun) as [? ?]. by split_and!.
  - destruct (tcp_turn (t, r) s) as [s' out] eqn:Hrun. exists s', out.
    pose proof (wp_run _ _ _ _ _ (tcp_turn_wp t r s Hs Hfresh) Hrun) as [? ?]. by split_and!.
Qed.

(** C34: However an encrypted serial connection ends (timeout, revocation,
    unreadable line, refused frame, provider failure, stop), serving it returns
    without an exception, wrote only lines of at most 12000 bytes, and leaves
    no session, no pending action and no key of the connection behind. *)
Theorem encrypted_connection_closes (now : Z) v (σ : core_state W V) first turns (Hok : core_ok σ)
    (Hfresh : fresh_turns serial_turn new_token turns (_refresh_trusted_devices has_provider first (new_port now v σ)).1) :
  ∃ s1 out (s' : port W V SK PK),
    (_refresh_trusted_devices has_provider first ≫= λ _, run_turns serial_turn turns) (new_port now v σ) = (s1, out) ∧
    serve_serial first turns (new_port now v σ) = (s', Ok tt) ∧
    port_ok MAX_LINE_BYTES s' ∧ port_closed s1 s'.
Proof using Hprov HX HK.
  set (s0 := new_port now v σ) in *. set (m := _refresh_trusted_devices has_provider first ≫= λ _, run_turns serial_turn turns).
  assert (wp m (λ _ s', port_ok MAX_LINE_BYTES s') s0) as Hwp.
  { apply wp_bind, wp_intro. intros s1 r Hrun.
    pose proof (wp_run _ _ _ _ _ (refresh_same MAX_LINE_BYTES first s0) Hrun) as [Hsame _].
    pose proof (same_core_ok _ _ _ Hsame (new_port_ok _ now v σ Hok)) as Hs1. destruct r as [[]|e]; [|done].
    rewrite Hrun in Hfresh. apply (run_turns_ok MAX_LINE_BYTES serial_turn new_token); [|done|done].
    intros t s Hs Hf. eapply wp_mono; [|by apply serial_turn_wp]. by intros ? ? [? _]. }
  destruct (m s0) as [s1 out] eqn:Hrun. pose proof (wp_run _ _ _ _ _ Hwp Hrun) as Hs1.
  destruct (guarded_run MAX_LINE_BYTES m s0 s1 out Hrun Hs1) as (s' & Hg & Hok' & Hc). by exists s1, out, s'.
Qed.
End Facts.

(** ** A phone on the port *)

#[local] Strategy 1000 [SecureServer.accept_client_hello handle process_frame].
#[local] Opaque SecureServer.accept_client_hello handle.

Abbreviation sample_port := (port (list object) (verifier_state bool) bool bool).
Definition sample_turn (now : Z) (b : bytes) : turn bool bool :=
  {| now_idle := now; now_check := now; now_checked := now; devices := Ok [(u "phone", true)]; raw := b;
     hello_env := sample_accept_env 10; now_session := 1000; new_token := u "s"; message_env := sample_core_env 1006;
     now_done := now |}.
Definition hello_line : bytes := ok_or [] (dump_bytes false true (VDict (client_hello_dict sample_hello))) ++ [10].
Definition frame_line : bytes := ok_or [] (dump_bytes false true (VDict phone_frame)) ++ [10].
Definition sample_serial (t : turn bool bool) (s : sample_port) : sample_port * result bool :=
  serial_turn (E := toy_ed25519) (X := toy_x25519) (K := toy_hkdf) (A := toy_aead) 60 sample_catalog None None false 1 true 5 t s.

Definition port0 : sample_port := new_port 10 sample_endpoint core0.
Lemma port0_ok n : port_ok (I := verifier_interface 5) n port0.
Proof. exact (new_port_ok (I := verifier_interface 5) n 10 sample_endpoint core0 core0_ok). Qed.
Lemma port0_fresh : fresh_session (u "s") (core (secure port0)).
Proof. exact secure0_fresh. Qed.

(** The hello opens the session; a frame sent first does not. *)
Lemma sample_opens :
  is_authenticated (sample_serial (sample_turn 12 hello_line) port0).1 = true ∧
  is_authenticated (sample_serial (sample_turn 12 frame_line) port0).1 = false.
Proof. vm_compute. split; reflexivity. Qed.

Lemma encrypted_turn_gate_witness :
  is_authenticated (sample_serial (sample_turn 12 hello_line) port0).1 = true ∧
  ∃ s' out, sample_serial (sample_turn 12 hello_line) port0 = (s', out) ∧
    port_ok (I := verifier_interface 5) MAX_LINE_BYTES s' ∧
    turn_spec (E := toy_ed25519) (X := toy_x25519) (K := toy_hkdf) (A := toy_aead) 60 sample_catalog None None false 1
      (sample_turn 12 hello_line) (line_payload (sample_turn 12 hello_line)) port0 s'.
Proof.
  exact (conj (proj1 sample_opens)
    (proj1 (encrypted_turn_gate (I := verifier_interface 5) (E := toy_ed25519) (X := toy_x25519) (K := toy_hkdf) (A := toy_aead)
      60 sample_catalog None None false 1 true 5 (λ _, Logic.I) (sample_turn 12 hello_line) Eof port0 port0_fresh)
     (port0_ok MAX_LINE_BYTES))).
Defined.

Lemma hello_turn_fresh :
  fresh_turns (λ t, sample_serial t) new_token [sample_turn 12 hello_line]
    (_refresh_trusted_devices true (Ok [(u "phone", true)]) port0).1.
Proof. split; [exact secure0_fresh|done]. Qed.

Lemma encrypted_connection_closes_witness :
  ∃ s1 out (s' : sample_port),
    (_refresh_trusted_devices true (Ok [(u "phone", true)]) ≫= λ _,
       run_turns (λ t, sample_serial t) [sample_turn 12 hello_line]) port0 = (s1, out) ∧
    serve_serial (E := toy_ed25519) (X := toy_x25519) (K := toy_hkdf) (A := toy_aead) 60 sample_catalog None None false 1 true 5
      (Ok [(u "phone", true)]) [sample_turn 12 hello_line] port0 = (s', Ok tt) ∧
    port_ok (I := verifier_interface 5) MAX_LINE_BYTES s' ∧ port_closed s1 s'.
Proof.
  exact (encrypted_connection_closes (I := verifier_interface 5) (E := toy_ed25519) (X := toy_x25519) (K := toy_hkdf) (A := toy_aead)
    60 sample_catalog None None false 1 true 5 (λ _, Logic.I) 10 sample_endpoint core0 (Ok [(u "phone", true)])
    [sample_turn 12 hello_line] core0_ok hello_turn_fresh).
Defined.

(** A sealed answer over the line limit is dropped after its sequence number
    was spent: the next answer carries a number the device does not expect.
    The cipher plays no part in it. *)
Definition plain_aead : AEAD := {|
  aead_encrypt k n m a := m ++ repeat 0 16;
  aead_decrypt k n c a := Some (take (length c - 16) c)
|}.
Definition long_answer : object := [(u "type", VStr (u "error")); (u "message", VStr (repeat 65 (Z.to_nat 9000)))].
Definition dropped : SecureSession * result object := seal_message (A := plain_aead) long_answer sample_a.
Definition following : SecureSession * result object := seal_message (A := plain_aead) ping_payload dropped.1.
Theorem dropped_answer_desyncs :
  is_ok dropped.2 = true ∧
  lines (_send (ok_or [] dropped.2) port0).1 = [] ∧
  is_ok following.2 = true ∧
  (open_message (A := plain_aead) (ok_or [] following.2) sample_b).2 = Raise ReplayError.
Proof. vm_compute. split_and!; reflexivity. Qed.
